(* ===== verification/_CoqProject ===== *)
-Q . S2P
Prelude.v
PacketDef.v
IpAddress.v
LayerInfo.v
SegBuf.v
Config.v
DbManager.v
Session.v
HttpDecoder.v
TcpSession.v
SessionPool.v
PacketHandler.v
FrameParsing.v
Smtp.v
Files.v
DecodeThread.v
System.v
MainProg.v
Sha1.v
Url.v
Monitor.v
HttpParserDef.v
HttpParserCases.v
HttpParserExec.v
HttpParserInv.v
HttpParserSafe.v
HttpParserStream.v
HttpParserStep.v
HttpParserHeaders.v
HttpParserMessage.v
HttpParserMethods.v
HttpParserPassive.v
WebService.v
WebServiceSafe.v
WebServiceUpload.v
Base64.v
Element.v
Server.v
EventController.v
FileUploader.v
Options.v
Analyzer.v
Visitor.v
VisitorUpload.v
TaskManager.v
ProcessManager.v
DriverEvents.v
SystemMonitors.v
FileMonitor.v
Client.v
EventList.v
EventQueue.v
HashMap.v
EventHandlers.v
ConnectionManager.v
ConnectionSafe.v
PolledQueue.v
RegistryDriver.v
FileDriver.v
ProcessDriver.v
