(* ===== verification/Prelude.v ===== *)
(** * Verification of deepsecurity: the killer-finder monitor and the Capture
    client

    The repository holds several programs around one product.  This library
    verifies the C and C++ code that is its own:

    - killer-finder (src/src/killerfinder), a passive network monitor: a
      capture thread reads frames from pcap, decodes them down to TCP, keeps a
      pool of sessions with reassembled streams, sends resets into sessions
      that talk to listed hosts or URLs, and posts ended or idle sessions to a
      closed list; a decode thread takes them from there, extracts HTTP
      messages or mails, and saves bodies and attachments of the cared content
      types;
    - the Capture client (src/src/capture-hpc/capture-client), a high
      interaction honeypot client.  A web service with an HTTP parser of its own
      takes commands and files; a visitor hands them to plug-ins that open them
      in an application.  Four kernel drivers observe processes, the registry,
      files and connections and queue events; four monitors take the events,
      drop what their exclusion lists allow and signal the rest; an analyzer
      reports it to a server as XML, judges the system and uploads the log.  The
      server in turn sets options, adds exclusions and asks for visits.

    ** Files: killer-finder

    - Prelude: faults and the [result] monad, bytes and machine integers,
      [std::string] operations, tactics, list lemmas.
    - PacketDef: the packed structures and constants of packet_def.hpp, as
      bounds-checked reads of the captured bytes.
    - IpAddress: CIpAddress, CTcpSessionId: addresses, session keys, hash.
    - LayerInfo: CL2Info, CL3Info, CL4Info: what each layer knows of a packet.
    - SegBuf: CTcpSegBuf of CTcpSession: the reassembly buffer of a direction.
    - Config: CConfig, and the loader of config.xml; the XML library is a
      parameter.
    - DbManager: CDBManager: the URL, host, domain and IPv4 databases.
    - Session: CHttpInfo, CMailInfo and the record of CTcpSession, with the
      decoders it embeds.
    - HttpDecoder: CHttpTxnDecoder: the callbacks of the HTTP parser (a class
      [HttpParserLib], the parser itself is the library http-parser) in active
      and inactive mode.
    - TcpSession: CTcpSession and CTcpSessionPlugin: payload, state machine,
      blocking; CPacketCreater: the reset packet built through libnet.
    - SessionPool: CTcpSessionPool: the active map, the closed list, the
      timeout sweep, over a heap of sessions.
    - PacketHandler: CPacketHandler: the whole callback, layers 2 to 5.
    - FrameParsing: memory safety of the parsing and the encoder it inverts.
    - Smtp: CSmtpTxnDecoder: the scan for mails and their decoding; the MIME
      library is the class [MimeLib].
    - Files: the saving of both decoders and CLog's directory making; the file
      system is the class [Posix].
    - DecodeThread: one round of CTxnDecodeThread, with the laws the HTTP
      parser must satisfy ([HttpParserLaws]).
    - System: the two threads of CMain as a transition system, one step per
      action on shared state.
    - MainProg: CMain's command line, CPacketCaptureThread; pcap is the class
      [Pcap].

    ** Files: the Capture client

    - Sha1, Url, Base64: sha1.cpp, Url.cpp and the coding of CaptureGlobal.cpp.
    - Monitor: Monitor.cpp and Permission.cpp, the exclusion lists; Boost's
      regular expressions are the class [WRegex].
    - HttpParserDef, HttpParserCases, HttpParserExec: http_parser.c, its data,
      the cases of its switch and its loop with the callbacks.  HttpParserInv
      and HttpParserSafe prove its invariant and memory safety, HttpParserStream
      that cuts of the input do not matter, HttpParserStep, HttpParserHeaders,
      HttpParserMessage and HttpParserMethods what it makes of whole messages,
      and HttpParserPassive what callbacks like the web service's see.
    - WebService: WebService.cpp, receiving and serving a connection, over the
      class [Windows]; WebServiceSafe its safety, WebServiceUpload the upload
      of a file.
    - Element, Server, EventController: Element.h, Server.cpp and
      ServerReceive.cpp, EventController.cpp: the documents exchanged with the
      server.  Winsock is the class [Peer], expat a function.
    - FileUploader, Options, Analyzer, Visitor, TaskManager: the classes of
      these names (Options is OptionsManager.cpp and the command line);
      VisitorUpload joins the web service and the visitor, Client
      (CaptureClient.cpp) the listeners of the server's events.
    - ProcessManager: ProcessManager.cpp, the paths of processes, over the class
      [Processes].
    - DriverEvents: the records of the registry and the file driver in memory,
      the filling of a request's buffer and the walk over it; the class
      [DriverLaws] says what driver and monitor promise each other.
    - SystemMonitors, FileMonitor: ProcessMonitor.cpp, RegistryMonitor.cpp and
      FileMonitor.cpp, what the monitors do with an event and the collection of
      modified files.
    - EventList, EventQueue: EventList.c, EventList.h and NetworkMonitor.cpp,
      the memory the connection driver shares with the network monitor.
    - HashMap, EventHandlers, ConnectionManager: the connection driver: HashMap.c,
      EventHandlerManager.c, ConnectionManager.c, Connection.c and the TDI
      handlers; ConnectionSafe proves its safety and that changes are reported.
    - PolledQueue, RegistryDriver, FileDriver: CaptureRegistryMonitor.c and
      CaptureFileMonitor.c, their callbacks, their common queue and the copies of
      deleted files (over the class [NtDisk]).
    - ProcessDriver: CaptureProcessMonitor.c.

    Code that can stop the process returns a [result]: a [Fault] names the
    exception that leaves the function, the out-of-bounds read, the use of a
    deleted object or the exit.  Objects that are shared or deleted live in a
    heap indexed by a pointer; values are copied where the source copies them.

    ** What the theorems show

    - Whole program: for every interleaving, frame sequence (well formed or not)
      and hash order each session has one owner or was deleted once, no thread reads a deleted
      session, and the only ways to die are named ([system_safe]); shutdown
      terminates ([shutdown_terminates]); the two races of start and stop
      ([start_race], [shutdown_loses_session]).
    - Packets: parsing stays inside the captured bytes and inverts the
      encoding of a frame, with the two inputs for which it does not
      ([parsing_memory_safe], [ether_frame_roundtrip], [short_frame_overread],
      [ip6_overread]).
    - Streams and sessions: reassembly is correct in any order where sequence
      numbers do not wrap, a stream in order reaches the parser segment by
      segment, from the start again after an error, session keys are an equivalence compatible with the
      hash, the TCP state machine refines a close-tracking automaton, the
      timeout sweep loses nothing ([reassembly_any_order],
      [inorder_decoding], [session_key_sound], [updateMe_refines_close],
      [postTimeoutSessions_spec]).
    - Decoders and blocking: requests and mails are collected exactly
      ([inactive_requests_collected], [decodeSmtp_roundtrip]); the verdict of the
      database reaches the block flag however the parser cuts the input
      ([active_request_verdict]); which resets [blockMe] asks for
      ([blockMe_spec]).
    - Configuration, command line, databases and saved files: round trips,
      priorities and the entries that are lost.
    - HTTP parser of the client: it fails no assertion and reads in bounds, cuts
      of the input do not matter, requests come back as written, and lengths
      beyond 64 bits wrap ([http_parser_safe], [http_parser_split],
      [request_roundtrip], [lengths_wrap]).
    - Web service and visitor: what can end a connection or the process is
      named, an upload in pieces is stored exactly and visited, commands are
      visited in order ([connection_safe], [upload_visited],
      [commands_visited]); the task manager never runs a task
      ([no_task_runs]).
    - Server: documents are cut, parsed, dispatched and printed as they should
      be where the code allows it ([receive_documents],
      [xml_document_roundtrip], [documents_delivered], [server_dialogue],
      [upload_file], [session_report], [option_history]).
    - Drivers and monitors: what the drivers queue reaches the monitors once and
      in order, from the callback to the report ([registry_pipeline],
      [file_pipeline], [process_pipeline], [change_reported]), except for the
      events that are lost when driver and network monitor work on the shared
      list at the same time ([shared_list_queue] says which); reports and verdict are those of the exclusion lists
      ([detection]); deleted files are kept ([deleted_file_kept]); the connection
      driver follows no dangling pointer ([driver_safe], [hash_map_refines],
      [hook_transparent]), but its client releases the wrong blocks
      ([release_misplaced]).
    - Algorithms: SHA-1 equals FIPS 180 for every cut of the message, base64 comes
      back up to its padding, URL decoding inverts encoding up to spaces.

    ** Bounds and fuel

    Loops that are not structural take fuel that their callers fix from the
    input; a [Fault OutOfFuel] would show an insufficient bound, and no theorem
    allows it among the faults it names.  The bounds: the length of a string for index scans; one
    or two more than the length of a buffer for MPLS labels and mails; the
    number of bytes for the loop of the HTTP parser and four for the states it
    passes on one byte; one per receipt for the receive loops; ten attempts to
    connect and ten waits for a process, as in the code; one per part of 8192
    bytes of an upload and of 65536 bytes of a copy; the bytes returned for the
    walk over a buffer of events; the bits to be cleared in the shared bitmap;
    the containers of an event; and the pairs of a hash map.  Machine integers
    are [Z] with their wrap-around written out ([u8] to [u64]).

    ** Not modelled

    - Log output and debug messages (apart from those that can crash), the locks
      themselves (a locked region is one step), the printing methods of the
      packet classes, containers nobody uses (CHttpInfoMap, CSessionMap).
    - The libraries: pcap, libnet, libxml2, http-parser of killer-finder, vmime,
      Boost, expat, Winsock and the Windows kernel are classes or parameters
      with what the code relies on.
    - Of the Capture client: starting its threads and installing, registering and
      unloading the drivers, which are sequences of Windows calls; Updater,
      whose buffer is addressed through the value of one of its bytes, so that
      no run has a defined result; NetworkPacketDumper and NetworkAdapter,
      which pass packets to wpcap.dll; EventRingList.c and SharedBuffer.c, which
      no driver uses; the plug-ins, which are COM automation of browsers.
    - The other programs of the repository: the Bro platform under netmonitor and
      redis, which are vendored, and the Python, Perl and C# agents and
      servers. *)
From Stdlib Require Import ZArith Lia Ascii.
From stdpp Require Import base gmap list strings numbers.

Local Open Scope Z_scope.

(** ** Faults: the ways a C++ operation of the program stops the process. *)

Inductive fault :=
  | OutOfBoundsRead      (* a read outside the object: undefined behaviour *)
  | OutOfBoundsWrite     (* a write outside the object: undefined behaviour *)
  | InvalidParameter     (* the C runtime's invalid parameter handler ends the process *)
  | OutOfRange           (* std::out_of_range thrown by std::string *)
  | LengthError          (* std::length_error thrown by std::string *)
  | UseAfterFree         (* a dereference of a deleted object *)
  | UninitRead           (* a read of uninitialised memory *)
  | VectorIndex          (* operator[] or back() outside a std::vector *)
  | MailException        (* the exception [decode] rethrows *)
  | ExitFailure          (* a call of exit *)
  | AssertFailed         (* a C assert() that does not hold *)
  | NullDeref            (* a dereference of a null pointer *)
  | BadCast              (* boost::bad_lexical_cast, which nothing catches *)
  | RegexError           (* boost::regex_error where nothing catches it *)
  | IntOverflow          (* a signed integer overflows: undefined behaviour *)
  | FormatMismatch       (* an object where a printf format has %ls: undefined behaviour *)
  | OutOfFuel.           (* a loop bound of the model was too small; never reached *)

#[global] Instance fault_eq_dec : EqDecision fault.
Proof. solve_decision. Defined.

Inductive result (A : Type) :=
  | Ok (a : A)
  | Fault (f : fault).
Arguments Ok {A} a.
Arguments Fault {A} f.

#[global] Instance result_eq_dec {A} `{EqDecision A} : EqDecision (result A).
Proof. solve_decision. Defined.

#[global] Instance result_ret : MRet result := fun A a => Ok a.
#[global] Instance result_bind : MBind result := fun A B k m =>
  match m with Ok a => k a | Fault f => Fault f end.
#[global] Instance result_fmap : FMap result := fun A B k m =>
  match m with Ok a => Ok (k a) | Fault f => Fault f end.

Definition is_ok {A} (r : result A) : Prop :=
  match r with Ok _ => True | Fault _ => False end.

(** ** Bytes and machine integers *)

(** A byte is a [Z] in 0..255; a std::string, a char array and a captured
    packet are lists of bytes. *)
Abbreviation bytes := (list Z).

Definition byte_ok (b : Z) : Prop := 0 <= b < 256.
Definition bytes_ok (l : bytes) : Prop := Forall byte_ok l.

Definition u8 (x : Z) : Z := x mod 256.
Definition u16 (x : Z) : Z := x mod 65536.
Definition u32 (x : Z) : Z := x mod 4294967296.
Definition u64 (x : Z) : Z := x mod 18446744073709551616.

(** string literals of the source *)
Definition bs (s : string) : bytes :=
  (fun c => Z.of_N (N_of_ascii c)) <$> String.list_ascii_of_string s.

#[global] Arguments bs : simpl never.

(** character constants of the source *)
Definition chr (c : ascii) : Z := Z.of_N (N_of_ascii c).
#[global] Arguments chr c%_char.

Definition bytes_eqb (a b : bytes) : bool := bool_decide (a = b).

(** [std::string] operations *)

Fixpoint prefixb (p s : bytes) : bool :=
  match p, s with
  | [], _ => true
  | x :: p', y :: s' => (x =? y) && prefixb p' s'
  | _ :: _, [] => false
  end.

(** [s.find(p)]: the first position where [p] occurs, [None] for npos. *)
Fixpoint str_find (p s : bytes) : option nat :=
  if prefixb p s then Some 0%nat
  else match s with
       | [] => None
       | _ :: s' => S <$> str_find p s'
       end.

(** [s.find_last_of(c)] for a one-character set. *)
Fixpoint str_find_last (c : Z) (s : bytes) : option nat :=
  match s with
  | [] => None
  | x :: s' =>
    match str_find_last c s' with
    | Some i => Some (S i)
    | None => if x =? c then Some 0%nat else None
    end
  end.

(** [s.substr(pos, n)]: throws when [pos] is past the end. *)
Definition str_substr (s : bytes) (pos n : nat) : result bytes :=
  if (length s <? pos)%nat then Fault OutOfRange
  else Ok (take n (drop pos s)).

(** [s.substr(pos)]. *)
Definition str_substr_from (s : bytes) (pos : nat) : result bytes :=
  if (length s <? pos)%nat then Fault OutOfRange else Ok (drop pos s).

(** [s[i]] for [i <= s.size()]: [s[s.size()]] is the NUL character. *)
Definition str_at (s : bytes) (i : nat) : Z := default 0 (s !! i).

(** [s.replace(pos, n, data, m)] with [m] the length of [data]. *)
Definition str_replace (s : bytes) (pos n : nat) (data : bytes) : result bytes :=
  if (length s <? pos)%nat then Fault OutOfRange
  else Ok (take pos s ++ data ++ drop (pos + n) s).

(** [s.resize(n)]: truncates, or pads with NUL characters. *)
Definition str_resize (s : bytes) (n : nat) : bytes := resize n 0 s.

(** [::tolower] in the "C" locale. *)
Definition tolower (c : Z) : Z :=
  if (65 <=? c) && (c <=? 90) then c + 32 else c.

(** [s.c_str()] read up to its terminator *)
Fixpoint c_str (s : list Z) : list Z :=
  match s with
  | [] => []
  | c :: s' => if c =? 0 then [] else c :: c_str s'
  end.

(** a [char] converted to a [wchar_t]: a byte above 127 is a negative [char]
    and is sign-extended *)
Definition widen (b : Z) : Z := if b <? 128 then b else b + 65280.

(** The pieces of a string between the occurrences of a separator, one more
    than the occurrences. *)
Fixpoint split_on (sep : Z) (s : bytes) : list bytes :=
  match s with
  | [] => [[]]
  | c :: s' =>
    if c =? sep then [] :: split_on sep s'
    else match split_on sep s' with
         | t :: ts => (c :: t) :: ts
         | [] => [[c]]
         end
  end.

(** unsigned decimal printing, [oss << n] *)
Fixpoint print_nat_fuel (fuel : nat) (n : Z) : bytes :=
  match fuel with
  | O => []
  | S k => if n <? 10 then [48 + n]
           else print_nat_fuel k (n / 10) ++ [48 + n mod 10]
  end.
(** 20 digits are enough for every 64-bit value. *)
Definition print_dec (n : Z) : bytes := print_nat_fuel 20 n.

(** ** Tactics and hint databases *)

Create HintDb kf_bounds.

(** the lengths of the lists the programs build *)
#[export] Hint Rewrite @length_app @length_take @length_drop @length_replicate
  @length_fmap : kf_len.

(** Closes an arithmetic goal about lengths. *)
Ltac lengths := autorewrite with kf_len; cbn [length]; lia.

(** Destructs the scrutinee of the first [match] or [if] of the goal. *)
Ltac case_goal :=
  match goal with
  | |- context [match ?x with _ => _ end] => destruct x eqn:?
  end.

(** Case analysis on every [match] of the hypothesis [H], closing the
    branches that contradict the equation. *)
Ltac case_in H :=
  repeat match type of H with
  | context [match ?x with _ => _ end] => destruct x eqn:?; try discriminate H
  end.

(** Splits a successful [result] computation into its successful steps. *)
Ltac bind_inv H :=
  repeat match type of H with
  | @mbind result _ _ _ _ ?m = Ok _ =>
    let E := fresh "E" in destruct m eqn:E; [cbn in H | discriminate H]
  | Ok _ = Ok _ => injection H as H; subst
  | mret _ = Ok _ => injection H as H; subst
  end.

(** Turns boolean tests on integers into propositions. *)
Ltac breflect :=
  repeat match goal with
  | H : _ && _ = true |- _ => apply andb_true_iff in H as [? ?]
  | H : _ && _ = false |- _ => apply andb_false_iff in H
  | H : _ || _ = true |- _ => apply orb_true_iff in H
  | H : _ || _ = false |- _ => apply orb_false_iff in H as [? ?]
  | H : negb _ = true |- _ => apply negb_true_iff in H
  | H : negb _ = false |- _ => apply negb_false_iff in H
  | H : (_ =? _) = true |- _ => apply Z.eqb_eq in H
  | H : (_ =? _) = false |- _ => apply Z.eqb_neq in H
  | H : (_ <? _) = true |- _ => apply Z.ltb_lt in H
  | H : (_ <? _) = false |- _ => apply Z.ltb_ge in H
  | H : (_ <=? _) = true |- _ => apply Z.leb_le in H
  | H : (_ <=? _) = false |- _ => apply Z.leb_gt in H
  | H : (_ <? _)%nat = true |- _ => apply Nat.ltb_lt in H
  | H : (_ <? _)%nat = false |- _ => apply Nat.ltb_ge in H
  | H : (_ <=? _)%nat = true |- _ => apply Nat.leb_le in H
  | H : (_ <=? _)%nat = false |- _ => apply Nat.leb_gt in H
  | H : (_ =? _)%nat = true |- _ => apply Nat.eqb_eq in H
  | H : (_ =? _)%nat = false |- _ => apply Nat.eqb_neq in H
  end.

(** Replaces character constants by their codes. *)
Ltac chars :=
  repeat match goal with
  | |- context [chr ?c] => let v := eval vm_compute in (chr c) in change (chr c) with v
  | H : context [chr ?c] |- _ =>
    let v := eval vm_compute in (chr c) in change (chr c) with v in H
  end.

(** ** Machine integers *)

Lemma u32_small x : 0 <= x < 4294967296 -> u32 x = x.
Proof. apply Z.mod_small. Qed.

Lemma u32_range x : 0 <= u32 x < 4294967296.
Proof. apply Z.mod_pos_bound. lia. Qed.

Lemma u16_range x : 0 <= u16 x < 65536.
Proof. apply Z.mod_pos_bound. lia. Qed.

Lemma u8_range x : 0 <= u8 x < 256.
Proof. apply Z.mod_pos_bound. lia. Qed.

(** A 32-bit difference that is negative wraps to the top of the range. *)
Lemma u32_neg x : -4294967296 <= x < 0 -> u32 x = x + 4294967296.
Proof.
  intros H. unfold u32. rewrite <- (Z.mod_add x 1) by lia.
  apply Z.mod_small. lia.
Qed.

(** Disjoint bits add up. *)
Lemma lor_shiftl_add a b n :
  0 <= n -> 0 <= b < 2 ^ n -> Z.lor (Z.shiftl a n) b = a * 2 ^ n + b.
Proof.
  intros Hn Hb. rewrite Z.shiftl_mul_pow2 by done.
  rewrite <- Z.lxor_lor, <- Z.add_nocarry_lxor; [done | |];
  apply Z.bits_inj'; intros i Hi; rewrite Z.land_spec, Z.bits_0;
  (destruct (decide (i < n)) as [H|H];
   [rewrite Z.mul_pow2_bits_low by lia; done
   |rewrite andb_comm; replace (Z.testbit b i) with false; [done |];
    symmetry; destruct (decide (b = 0)) as [->|]; [apply Z.bits_0 |];
    apply Z.bits_above_log2; [lia |];
    apply Z.log2_lt_pow2; [lia |]; apply Z.lt_le_trans with (2 ^ n); [lia |];
    apply Z.pow_le_mono_r; lia]).
Qed.

#[export] Hint Resolve u32_range u16_range u8_range : kf_bounds.

(** bytes as a test, for concrete data *)
Definition bytes_okb (l : bytes) : bool := forallb (fun b => (0 <=? b) && (b <? 256)) l.

Lemma Forall_forallb {A} (f : A -> bool) (P : A -> Prop) l :
  forallb f l = true -> (forall x, f x = true -> P x) -> Forall P l.
Proof.
  intros H HP. induction l as [|x l IH]; [constructor |]. cbn in H. breflect.
  constructor; auto.
Qed.

Lemma bytes_okb_spec l : bytes_okb l = true -> bytes_ok l.
Proof. intros H. apply (Forall_forallb _ _ _ H). unfold byte_ok. intros. breflect. lia. Qed.

(** A boolean property of the naturals below [n], checked by evaluation. *)
Lemma check_below (P : Z -> bool) n :
  forallb (fun k => P (Z.of_nat k)) (seq 0 n) = true ->
  forall x, 0 <= x < Z.of_nat n -> P x = true.
Proof.
  intros H x Hx. rewrite forallb_forall in H. specialize (H (Z.to_nat x)).
  rewrite Z2Nat.id in H by lia. apply H, in_seq. lia.
Qed.

(** ** Lists *)

Lemma bytes_eqb_eq a b : bytes_eqb a b = true <-> a = b.
Proof. apply bool_decide_eq_true. Qed.

Lemma bytes_eqb_refl a : bytes_eqb a a = true.
Proof. by apply bytes_eqb_eq. Qed.

Lemma bytes_eqb_sym a b : bytes_eqb a b = bytes_eqb b a.
Proof. unfold bytes_eqb. apply bool_decide_ext. naive_solver. Qed.

Lemma bytes_eqb_neq a b : bytes_eqb a b = false <-> a <> b.
Proof. unfold bytes_eqb. apply bool_decide_eq_false. Qed.

Lemma prefixb_spec p s : prefixb p s = true <-> p `prefix_of` s.
Proof.
  revert s. induction p as [|x p IH]; intros s; cbn.
  - split; [intros _; apply prefix_nil | done].
  - destruct s as [|y s].
    + split; [done |]. by intros ?%prefix_nil_inv.
    + rewrite andb_true_iff, Z.eqb_eq, IH. split.
      * intros [-> ?]. by apply prefix_cons.
      * intros H. split; [by eapply prefix_cons_inv_1 | by eapply prefix_cons_inv_2].
Qed.

Lemma prefixb_self p s : prefixb p (p ++ s) = true.
Proof. apply prefixb_spec. by exists s. Qed.

Lemma prefixb_take p s : prefixb p s = true <-> take (length p) s = p.
Proof.
  rewrite prefixb_spec. split.
  - intros [k ->]. apply take_app_length.
  - intros H. rewrite <- H. apply prefix_take.
Qed.

Lemma prefixb_length p s : prefixb p s = true -> (length p <= length s)%nat.
Proof. rewrite prefixb_spec. apply prefix_length. Qed.

(** [str_find] returns an occurrence, and the first one. *)
Lemma str_find_Some p s i :
  str_find p s = Some i <->
  prefixb p (drop i s) = true /\ forall j, (j < i)%nat -> prefixb p (drop j s) = false.
Proof.
  revert i. induction s as [|x s IH]; intros i; cbn [str_find].
  - destruct (prefixb p []) eqn:E; split.
    + intros [= <-]. split; [done | lia].
    + intros [_ H]. destruct i as [|i]; [done |]. specialize (H 0%nat ltac:(lia)).
      cbn in H. congruence.
    + done.
    + intros [H _]. rewrite drop_nil in H. congruence.
  - destruct (prefixb p (x :: s)) eqn:E; split.
    + intros [= <-]. split; [done | lia].
    + intros [_ H]. destruct i as [|i]; [done |]. specialize (H 0%nat ltac:(lia)).
      cbn in H. cbn in E. congruence.
    + destruct (str_find p s) as [k|]; cbn; intros [= <-].
      destruct (proj1 (IH k) eq_refl) as [F1 F2]. split; [done |].
      intros [|j] Hj; [done |]. apply F2. lia.
    + intros [H1 H2]. destruct i as [|i]; [cbn in H1, E; congruence |].
      enough (str_find p s = Some i) as -> by done. apply IH. split; [done |].
      intros j Hj. apply (H2 (S j)). lia.
Qed.

Lemma str_find_bound p s i :
  str_find p s = Some i -> (i + length p <= length s)%nat \/ p = [].
Proof.
  intros [H _]%str_find_Some. apply prefixb_length in H as H'.
  rewrite length_drop in H'. destruct p as [|x p]; [by right |].
  left. cbn in *. lia.
Qed.

Lemma str_find_None p s :
  str_find p s = None <-> forall i, prefixb p (drop i s) = false.
Proof.
  split.
  - revert p. induction s as [|x s IH]; intros p H i; cbn [str_find] in H.
    + destruct (prefixb p []) eqn:E; [done |]. by rewrite drop_nil.
    + destruct (prefixb p (x :: s)) eqn:E; [done |].
      destruct i as [|i]; [done |]. apply IH.
      destruct (str_find p s); [done | done].
  - intros H. destruct (str_find p s) eqn:E; [| done].
    apply str_find_Some in E as [E _]. by rewrite H in E.
Qed.

(** [a ++ p ++ b] is cut at [p] when [p] does not start inside [a]. *)
Lemma str_find_char c a b :
  c ∉ a -> str_find [c] (a ++ c :: b) = Some (length a).
Proof.
  induction a as [|x a IH]; intros Hn; cbn.
  - by rewrite Z.eqb_refl.
  - apply not_elem_of_cons in Hn as [Hx Ha].
    destruct (c =? x) eqn:E; [apply Z.eqb_eq in E; congruence |].
    cbn. by rewrite IH.
Qed.

Lemma str_find_char_None c a : c ∉ a -> str_find [c] a = None.
Proof.
  induction a as [|x a IH]; intros Hn; cbn; [done |].
  apply not_elem_of_cons in Hn as [Hx Ha].
  destruct (c =? x) eqn:E; [apply Z.eqb_eq in E; congruence |].
  cbn. by rewrite IH.
Qed.

Lemma str_resize_length s n : length (str_resize s n) = n.
Proof. apply length_resize. Qed.

Lemma str_resize_le s n : (length s <= n)%nat ->
  str_resize s n = s ++ replicate (n - length s) 0.
Proof. intros H. unfold str_resize. by rewrite resize_ge. Qed.

Lemma str_replace_inside s pos data :
  (pos + length data <= length s)%nat ->
  str_replace s pos (length data) data =
  Ok (take pos s ++ data ++ drop (pos + length data) s).
Proof.
  intros H. unfold str_replace. destruct (_ <? _)%nat eqn:E; breflect; [lia | done].
Qed.

(** What a write of [data] at [pos] leaves at each index. *)
Lemma splice_lookup {A} (s : list A) pos data i :
  (pos + length data <= length s)%nat ->
  (take pos s ++ data ++ drop (pos + length data) s) !! i =
  if decide (pos <= i < pos + length data)%nat then data !! (i - pos)%nat else s !! i.
Proof.
  intros H. destruct (decide (i < pos)%nat) as [Hi|Hi].
  - rewrite lookup_app_l by (rewrite length_take; lia).
    rewrite lookup_take_lt by lia. case_decide; [lia | done].
  - rewrite lookup_app_r by (rewrite length_take; lia).
    rewrite length_take, Nat.min_l by lia.
    case_decide.
    + by rewrite lookup_app_l by lia.
    + rewrite lookup_app_r by lia. rewrite lookup_drop. f_equal. lia.
Qed.

Lemma splice_length {A} (s : list A) pos data :
  (pos + length data <= length s)%nat ->
  length (take pos s ++ data ++ drop (pos + length data) s) = length s.
Proof. intros H. rewrite !length_app, length_take, length_drop. lia. Qed.

(** ** Decimal printing *)

Definition digit_ok (c : Z) : Prop := 48 <= c <= 57.

Lemma print_nat_fuel_digits fuel n : 0 <= n -> Forall digit_ok (print_nat_fuel fuel n).
Proof.
  revert n. induction fuel as [|fuel IH]; intros n Hn; cbn; [done |].
  destruct (n <? 10) eqn:E; breflect.
  - repeat constructor; lia.
  - apply Forall_app. split; [apply IH, Z.div_pos; lia |].
    pose proof (Z.mod_pos_bound n 10). repeat constructor; lia.
Qed.

Lemma print_dec_digits n : 0 <= n -> Forall digit_ok (print_dec n).
Proof. apply print_nat_fuel_digits. Qed.

Lemma print_nat_fuel_nonempty fuel n : print_nat_fuel (S fuel) n <> [].
Proof. cbn. destruct (n <? 10); [done |]. by intros []%app_nil. Qed.

Lemma print_nat_fuel_value fuel n :
  0 <= n < 10 ^ Z.of_nat fuel ->
  foldl (fun a c => 10 * a + (c - 48)) 0 (print_nat_fuel fuel n) = n.
Proof.
  revert n. induction fuel as [|fuel IH]; intros n Hn.
  - cbn in Hn |- *. lia.
  - cbn [print_nat_fuel]. destruct (n <? 10) eqn:E; breflect; [cbn; lia |].
    rewrite foldl_app. cbn [foldl]. rewrite IH.
    + pose proof (Z.div_mod n 10). lia.
    + rewrite Nat2Z.inj_succ, Z.pow_succ_r in Hn by lia.
      split; [apply Z.div_pos; lia |]. apply Z.div_lt_upper_bound; lia.
Qed.

Lemma print_dec_value n :
  0 <= n < 18446744073709551616 ->
  foldl (fun a c => 10 * a + (c - 48)) 0 (print_dec n) = n.
Proof. intros H. apply print_nat_fuel_value. cbn. lia. Qed.

Lemma print_dec_inj n m :
  0 <= n < 18446744073709551616 -> 0 <= m < 18446744073709551616 ->
  print_dec n = print_dec m -> n = m.
Proof. intros Hn Hm E. rewrite <- (print_dec_value n), E by done. by apply print_dec_value. Qed.
