(* ===== verification/PacketDef.v ===== *)
(** * packet_def.hpp: protocol constants and packed header layouts

    A captured packet is the list of its bytes.  A header struct is a base
    offset into that list; each member of the struct is one accessor that
    reads the bytes the compiler would read.  A read outside the captured
    bytes is the fault [OutOfBoundsRead]. *)
From Stdlib Require Import ZArith Lia.
From stdpp Require Import base gmap list strings numbers.
From S2P Require Import Prelude.

Local Open Scope Z_scope.

(** ** Constants *)

Definition SIZE_ETHERNET : Z := 14.
Definition ETH_ALEN : Z := 6.
Definition NULL_HDRLEN : Z := 4.
Definition PPP_HDRLEN : Z := 4.
Definition IPPROTO_IP : Z := 0.
Definition IPPROTO_HOPOPTS : Z := 0.
Definition IPPROTO_ICMP : Z := 1.
Definition IPPROTO_IGMP : Z := 2.
Definition IPPROTO_IPV4 : Z := 4.
Definition IPPROTO_TCP : Z := 6.
Definition IPPROTO_EGP : Z := 8.
Definition IPPROTO_PIGP : Z := 9.
Definition IPPROTO_UDP : Z := 17.
Definition IPPROTO_DCCP : Z := 33.
Definition IPPROTO_IPV6 : Z := 41.
Definition IPPROTO_ROUTING : Z := 43.
Definition IPPROTO_FRAGMENT : Z := 44.
Definition IPPROTO_RSVP : Z := 46.
Definition IPPROTO_GRE : Z := 47.
Definition IPPROTO_ESP : Z := 50.
Definition IPPROTO_AH : Z := 51.
Definition IPPROTO_MOBILE : Z := 55.
Definition IPPROTO_ICMPV6 : Z := 58.
Definition ETHERTYPE_PUP : Z := 512.
Definition ETHERTYPE_SPRITE : Z := 1280.
Definition ETHERTYPE_IP : Z := 2048.
Definition ETHERTYPE_ARP : Z := 2054.
Definition ETHERTYPE_REVARP : Z := 32821.
Definition ETHERTYPE_AT : Z := 32923.
Definition ETHERTYPE_AARP : Z := 33011.
Definition ETHERTYPE_VLAN : Z := 33024.
Definition ETHERTYPE_IPX : Z := 33079.
Definition ETHERTYPE_IPV6 : Z := 34525.
Definition ETHERTYPE_LOOPBACK : Z := 36864.
Definition ETHERTYPE_PPP : Z := 34827.
Definition ETHERTYPE_SLOW : Z := 34825.
Definition ETHERTYPE_MPLS : Z := 34887.
Definition ETHERTYPE_MPLS_MULTI : Z := 34888.
Definition ETHERTYPE_PPPOED : Z := 34915.
Definition DLT_NULL : Z := 0.
Definition DLT_EN10MB : Z := 1.
Definition DLT_EN3MB : Z := 2.
Definition DLT_AX25 : Z := 3.
Definition DLT_PRONET : Z := 4.
Definition DLT_CHAOS : Z := 5.
Definition DLT_IEEE802 : Z := 6.
Definition DLT_ARCNET : Z := 7.
Definition DLT_SLIP : Z := 8.
Definition DLT_PPP : Z := 9.
Definition DLT_FDDI : Z := 10.
Definition DLT_RAW : Z := 101.
Definition DLT_C_HDLC : Z := 104.
Definition DLT_IEEE802_11 : Z := 105.
Definition DLT_FRELAY : Z := 107.
Definition DLT_LOOP : Z := 108.
Definition DLT_LINUX_SLL : Z := 113.
Definition DLT_LTALK : Z := 114.
Definition DLT_ECONET : Z := 115.
Definition DLT_IPFILTER : Z := 116.
Definition DLT_PRISM_HEADER : Z := 119.
Definition DLT_AIRONET_HEADER : Z := 120.
Definition DLT_IEEE802_11_RADIO : Z := 127.
Definition DLT_IEEE802_11_RADIO_AVS : Z := 163.
Definition SLL_ADDRLEN : Z := 8.
Definition SLL_HDR_LEN : Z := 16.
Definition IP_RF : Z := 32768.
Definition IP_DF : Z := 16384.
Definition IP_MF : Z := 8192.
Definition IP_OFFMASK : Z := 8191.
Definition TH_FIN : Z := 1.
Definition TH_SYN : Z := 2.
Definition TH_RST : Z := 4.
Definition TH_PUSH : Z := 8.
Definition TH_ACK : Z := 16.
Definition TH_URG : Z := 32.

(** the values of the host headers the source relies on *)
Definition AF_INET : Z := 2.
Definition AF_INET6 : Z := 10.

(** ** Reading memory *)

Definition read8 (m : bytes) (off : nat) : result Z :=
  match m !! off with
  | Some b => Ok b
  | None => Fault OutOfBoundsRead
  end.

(** [ntohs] of the [uint16_t] at [off] on a little-endian host. *)
Definition read_be16 (m : bytes) (off : nat) : result Z :=
  hi ← read8 m off; lo ← read8 m (off + 1);
  Ok (Z.lor (Z.shiftl hi 8) lo).

(** [ntohl] of the [uint32_t] at [off]. *)
Definition read_be32 (m : bytes) (off : nat) : result Z :=
  hi ← read_be16 m off; lo ← read_be16 m (off + 2);
  Ok (Z.lor (Z.shiftl hi 16) lo).

(** the [uint32_t] at [off] as the little-endian host loads it *)
Definition read_le32 (m : bytes) (off : nat) : result Z :=
  b0 ← read8 m off; b1 ← read8 m (off + 1);
  b2 ← read8 m (off + 2); b3 ← read8 m (off + 3);
  Ok (b0 + 256 * b1 + 65536 * b2 + 16777216 * b3).

(** [len] bytes starting at [off]. *)
Definition read_slice (m : bytes) (off len : nat) : result bytes :=
  if (length m <? off + len)%nat then Fault OutOfBoundsRead
  else Ok (take len (drop off m)).

(** ** Header structs, at base offset [h] of the packet *)

Module sll_header.
Definition sll_protocol (m : bytes) (h : nat) : result Z := read_be16 m (h + 14).
End sll_header.

Module ether_header.
Definition sizeof_ether_header : nat := 14.
Definition ether_type (m : bytes) (h : nat) : result Z := read_be16 m (h + 12).
End ether_header.

Module ip4_hdr.
Definition sizeof_ip4_hdr : nat := 20.
Definition ip_hl (m : bytes) (h : nat) : result Z :=
    b ← read8 m h; Ok (Z.land b 15).
Definition ip_v (m : bytes) (h : nat) : result Z :=
    b ← read8 m h; Ok (Z.shiftr b 4).
Definition ip_len (m : bytes) (h : nat) : result Z := read_be16 m (h + 2).
(** [ip_id] is read without [ntohs]. *)
Definition ip_id (m : bytes) (h : nat) : result Z :=
    b0 ← read8 m (h + 4); b1 ← read8 m (h + 5); Ok (b0 + 256 * b1).
Definition ip_off (m : bytes) (h : nat) : result Z := read_be16 m (h + 6).
Definition ip_p (m : bytes) (h : nat) : result Z := read8 m (h + 9).
Definition ip_src (m : bytes) (h : nat) : result Z := read_le32 m (h + 12).
Definition ip_dst (m : bytes) (h : nat) : result Z := read_le32 m (h + 16).
End ip4_hdr.

Module ip6_hdr.
Definition sizeof_ip6_hdr : nat := 40.
Definition ip6_un1_plen (m : bytes) (h : nat) : result Z := read_be16 m (h + 4).
Definition ip6_un1_nxt (m : bytes) (h : nat) : result Z := read8 m (h + 6).
Definition ip6_src (m : bytes) (h : nat) : result bytes := read_slice m (h + 8) 16.
Definition ip6_dst (m : bytes) (h : nat) : result bytes := read_slice m (h + 24) 16.
End ip6_hdr.

Module tcphdr.
Definition sizeof_tcphdr : nat := 20.
Definition th_sport (m : bytes) (h : nat) : result Z := read_be16 m h.
Definition th_dport (m : bytes) (h : nat) : result Z := read_be16 m (h + 2).
Definition th_seq (m : bytes) (h : nat) : result Z := read_be32 m (h + 4).
Definition th_ack (m : bytes) (h : nat) : result Z := read_be32 m (h + 8).
Definition th_off (m : bytes) (h : nat) : result Z :=
    b ← read8 m (h + 12); Ok (Z.shiftr b 4).
Definition th_flags (m : bytes) (h : nat) : result Z := read8 m (h + 13).
End tcphdr.

(** [FLAG_SET(vector, flag)], used as a truth value. *)
Definition FLAG_SET (vector flag : Z) : bool := negb (Z.land vector flag =? 0).

(** ** Reads inside the packet succeed, with values in range *)

Section Reads.
Context (m : bytes) (Hm : bytes_ok m).

Lemma read8_inside off : (off < length m)%nat ->
    exists b, read8 m off = Ok b /\ byte_ok b.
Proof using Hm.
    intros H. apply lookup_lt_is_Some in H as [b Hb]. exists b.
    unfold read8. rewrite Hb. split; [done |].
    by eapply Forall_lookup_1 in Hb; [| exact Hm].
Qed.

Lemma read8_outside off : (length m <= off)%nat ->
    read8 m off = Fault OutOfBoundsRead.
Proof using. intros H. unfold read8. by rewrite lookup_ge_None_2. Qed.

Lemma read_slice_outside off len : (length m < off + len)%nat ->
    read_slice m off len = Fault OutOfBoundsRead.
Proof using. intros H. unfold read_slice. by rewrite (proj2 (Nat.ltb_lt _ _) H). Qed.

Lemma read_be16_inside off : (off + 2 <= length m)%nat ->
    exists v, read_be16 m off = Ok v /\ 0 <= v < 65536.
Proof using Hm.
    intros H. destruct (read8_inside off) as (a & Ha & ?); [lia |].
    destruct (read8_inside (off + 1)) as (b & Hb & ?); [lia |].
    unfold read_be16. rewrite Ha; cbn. rewrite Hb; cbn.
    eexists; split; [done |]. unfold byte_ok in *.
    rewrite lor_shiftl_add; cbn; lia.
Qed.

Lemma read_be32_inside off : (off + 4 <= length m)%nat ->
    exists v, read_be32 m off = Ok v /\ 0 <= v < 4294967296.
Proof using Hm.
    intros H. destruct (read_be16_inside off) as (a & Ha & ?); [lia |].
    destruct (read_be16_inside (off + 2)) as (b & Hb & ?); [lia |].
    unfold read_be32. rewrite Ha; cbn. rewrite Hb; cbn.
    eexists; split; [done |]. rewrite lor_shiftl_add; cbn; lia.
Qed.

Lemma read_le32_inside off : (off + 4 <= length m)%nat ->
    exists v, read_le32 m off = Ok v /\ 0 <= v < 4294967296.
Proof using Hm.
    intros H. destruct (read8_inside off) as (a & Ha & ?); [lia |].
    destruct (read8_inside (off + 1)) as (b & Hb & ?); [lia |].
    destruct (read8_inside (off + 2)) as (c & Hc & ?); [lia |].
    destruct (read8_inside (off + 3)) as (d & Hd & ?); [lia |].
    unfold read_le32. rewrite Ha; cbn. rewrite Hb; cbn.
    rewrite Hc; cbn. rewrite Hd; cbn.
    eexists; split; [done |]. unfold byte_ok in *. lia.
Qed.

(** a read is inside the packet or faults *)
Lemma read8_cases off :
    read8 m off = Fault OutOfBoundsRead \/ exists b, read8 m off = Ok b /\ byte_ok b.
Proof using Hm.
    destruct (decide (off < length m)%nat) as [L|L]; [right; by apply read8_inside |].
    left. apply read8_outside. lia.
Qed.

Lemma read_be16_cases off :
    read_be16 m off = Fault OutOfBoundsRead \/ exists v, read_be16 m off = Ok v /\ 0 <= v < 65536.
Proof using Hm.
    destruct (decide (off + 2 <= length m)%nat) as [L|L]; [right; by apply read_be16_inside |].
    left. unfold read_be16. rewrite (read8_outside (off + 1)) by lia.
    by destruct (read8_cases off) as [-> | (b & -> & _)].
Qed.

Lemma read_be32_cases off :
    read_be32 m off = Fault OutOfBoundsRead \/ exists v, read_be32 m off = Ok v /\ 0 <= v < 4294967296.
Proof using Hm.
    destruct (decide (off + 4 <= length m)%nat) as [L|L]; [right; by apply read_be32_inside |].
    left. unfold read_be32.
    assert (E : read_be16 m (off + 2) = Fault OutOfBoundsRead).
    { unfold read_be16. rewrite (read8_outside (off + 2 + 1)) by lia.
      by destruct (read8_cases (off + 2)) as [-> | (b & -> & _)]. }
    rewrite E. by destruct (read_be16_cases off) as [-> | (b & -> & _)].
Qed.

Lemma read_slice_inside off len : (off + len <= length m)%nat ->
    exists l, read_slice m off len = Ok l /\ length l = len /\ bytes_ok l.
Proof using Hm.
    intros H. unfold read_slice. destruct (_ <? _)%nat eqn:E; breflect; [lia |].
    eexists; split; [done |]. split.
    - rewrite length_take, length_drop. lia.
    - by apply Forall_take, Forall_drop.
Qed.
End Reads.

Lemma read8_app pre m off : read8 (pre ++ m) (length pre + off) = read8 m off.
Proof.
  unfold read8. rewrite lookup_app_r by lia.
  by replace (length pre + off - length pre)%nat with off by lia.
Qed.
