(* ===== verification/IpAddress.v ===== *)
(** * CIpAddress and CTcpSessionId: addresses and the session key

    [CIpAddress] holds the sixteen bytes [m_addr]; a version 4 address
    occupies the first four.  [CTcpSessionId] is the key of the session map:
    its [operator==] identifies the two directions of a connection and
    [getHash] must agree with it for [std::unordered_map] to find sessions. *)
From Stdlib Require Import ZArith Lia Setoid Morphisms.
From stdpp Require Import base gmap list strings numbers.
From S2P Require Import Prelude PacketDef.

Local Open Scope Z_scope.

(** ** CIpAddress *)

Record CIpAddress := mkIp { m_addr : bytes }.

#[global] Instance CIpAddress_eq_dec : EqDecision CIpAddress.
Proof. solve_decision. Defined.

Definition ip_wf (a : CIpAddress) : Prop :=
  length (m_addr a) = 16%nat /\ bytes_ok (m_addr a).

(** [m_addr[i]] *)
Definition addr_byte (a : CIpAddress) (i : nat) : Z := default 0 (m_addr a !! i).

(** [CIpAddress()] *)
Definition CIpAddress_zero : CIpAddress := mkIp (replicate 16 0).

(** [CIpAddress(const in_addr_t&)]: the four bytes of the integer in memory
    order, the rest zero. *)
Definition CIpAddress_in_addr (a : Z) : CIpAddress :=
  mkIp ([a mod 256; (a / 256) mod 256; (a / 65536) mod 256; (a / 16777216) mod 256]
        ++ replicate 12 0).

(** [CIpAddress(const uint8_t a[16])] *)
Definition CIpAddress_bytes (a : bytes) : CIpAddress := mkIp (take 16 a).

(** [getIpv4] *)
Definition getIpv4 (a : CIpAddress) : Z :=
  addr_byte a 0 + 256 * addr_byte a 1 + 65536 * addr_byte a 2 + 16777216 * addr_byte a 3.

(** [getIpv6] *)
Definition getIpv6 (a : CIpAddress) : bytes := m_addr a.

(** [getBit(i)], bit 0 the most significant bit of byte 0 *)
Definition getBit (a : CIpAddress) (i : nat) : bool :=
  Z.testbit (addr_byte a (i / 8)) (7 - Z.of_nat (i mod 8)).

(** [getQuad(i)]: as written, bytes 1 and 2 of the quad are exchanged. *)
Definition getQuad (a : CIpAddress) (i : Z) : Z :=
  if (0 <=? i) && (i <=? 3) then
    let j := (Z.to_nat i * 4)%nat in
    u32 (Z.lor (Z.lor (Z.lor (Z.shiftl (addr_byte a j) 24)
                             (Z.shiftl (addr_byte a (j + 2)) 16))
                      (Z.shiftl (addr_byte a (j + 1)) 8))
               (addr_byte a (j + 3)))
  else 0.

(** [getDquad(i)] *)
Definition getDquad (a : CIpAddress) (i : Z) : Z :=
  Z.lor (Z.shiftl (getQuad a (i * 2 + 1)) 32) (getQuad a (i * 2)).

(** [getFoldValue] with the 8-byte [size_t] of the supported hosts: the sum
    of the sixteen bytes. *)
Definition getFoldValue (a : CIpAddress) : Z :=
  let b := addr_byte a in
  (b 0%nat + b 4%nat + b 8%nat + b 12%nat) + (b 1%nat + b 5%nat + b 9%nat + b 13%nat) +
  (b 2%nat + b 6%nat + b 10%nat + b 14%nat) + (b 3%nat + b 7%nat + b 11%nat + b 15%nat).

(** [memcmp] on byte arrays of equal length, as a comparison *)
Fixpoint memcmp (a b : bytes) : comparison :=
  match a, b with
  | x :: a', y :: b' => match x ?= y with Eq => memcmp a' b' | c => c end
  | _, _ => Eq
  end.

Definition ip_eq (a b : CIpAddress) : bool :=
  match memcmp (m_addr a) (m_addr b) with Eq => true | _ => false end.
Definition ip_le (a b : CIpAddress) : bool :=
  match memcmp (m_addr a) (m_addr b) with Gt => false | _ => true end.
Definition ip_gt (a b : CIpAddress) : bool :=
  match memcmp (m_addr a) (m_addr b) with Gt => true | _ => false end.
Definition ip_ge (a b : CIpAddress) : bool :=
  match memcmp (m_addr a) (m_addr b) with Lt => false | _ => true end.
Definition ip_lt (a b : CIpAddress) : bool :=
  match memcmp (m_addr a) (m_addr b) with Lt => true | _ => false end.

(** [isV4]: words 1, 2 and 3 are zero. *)
Definition isV4 (a : CIpAddress) : bool :=
  forallb (Z.eqb 0) (drop 4 (m_addr a)).

(** ** CTcpSessionId *)

Record CTcpSessionId := mkId {
  id_srcIp : CIpAddress;
  id_srcPort : Z;
  id_dstIp : CIpAddress;
  id_dstPort : Z
}.

#[global] Instance CTcpSessionId_eq_dec : EqDecision CTcpSessionId.
Proof. solve_decision. Defined.

Definition id_wf (k : CTcpSessionId) : Prop :=
  ip_wf (id_srcIp k) /\ ip_wf (id_dstIp k) /\
  0 <= id_srcPort k < 65536 /\ 0 <= id_dstPort k < 65536.

(** [getHash] *)
Definition getHash (k : CTcpSessionId) : Z :=
  Z.lxor (getFoldValue (id_srcIp k) + getFoldValue (id_dstIp k))
         (id_srcPort k + id_dstPort k).

(** [operator==] *)
Definition id_eqb (a b : CTcpSessionId) : bool :=
  if ip_eq (id_srcIp a) (id_srcIp b) && (id_srcPort a =? id_srcPort b) &&
     ip_eq (id_dstIp a) (id_dstIp b) && (id_dstPort a =? id_dstPort b) then true
  else if ip_eq (id_srcIp a) (id_dstIp b) && (id_srcPort a =? id_dstPort b) &&
          ip_eq (id_dstIp a) (id_srcIp b) && (id_dstPort a =? id_srcPort b) then true
  else false.

(** the identifier of the opposite direction *)
Definition id_swap (k : CTcpSessionId) : CTcpSessionId :=
  mkId (id_dstIp k) (id_dstPort k) (id_srcIp k) (id_srcPort k).

(** [getIdStr]: each address byte followed by a dot, then the port. *)
Definition addr_str (a : CIpAddress) (loop : nat) : bytes :=
  concat ((fun i => print_dec (addr_byte a i) ++ bs ".") <$> seq 0 loop).

Definition getIdStr (k : CTcpSessionId) : bytes :=
  let loop := if isV4 (id_srcIp k) && isV4 (id_dstIp k) then 4%nat else 16%nat in
  addr_str (id_srcIp k) loop ++ print_dec (id_srcPort k) ++ bs "-" ++
  addr_str (id_dstIp k) loop ++ print_dec (id_dstPort k).

(** ** Properties of addresses *)

Lemma memcmp_Eq a b : length a = length b -> (memcmp a b = Eq <-> a = b).
Proof.
  revert b. induction a as [|x a IH]; intros [|y b] H; cbn in *; try done.
  destruct (Z.compare_spec x y) as [->|E|E].
  - rewrite IH by lia. split; congruence.
  - split; [done |]. intros [= -> _]. lia.
  - split; [done |]. intros [= -> _]. lia.
Qed.

Lemma memcmp_antisym a b : memcmp b a = CompOpp (memcmp a b).
Proof.
  revert b. induction a as [|x a IH]; intros [|y b]; cbn; try done.
  rewrite (Z.compare_antisym x y). destruct (x ?= y); cbn; [apply IH | done..].
Qed.

Lemma memcmp_trans a b c :
  length a = length b -> length b = length c ->
  memcmp a b <> Gt -> memcmp b c <> Gt -> memcmp a c <> Gt.
Proof.
  revert b c. induction a as [|x a IH]; intros [|y b] [|z c] H1 H2; cbn in *; try done.
  destruct (Z.compare_spec x y) as [->|E|E]; [| |done].
  - destruct (Z.compare_spec y z) as [->|F|F]; [|done..]. apply IH; lia.
  - intros _. destruct (Z.compare_spec y z) as [->|F|F]; [| |done].
    + intros _. destruct (Z.compare_spec x z); [lia | done | lia].
    + intros _. destruct (Z.compare_spec x z); [lia | done | lia].
Qed.

Lemma ip_eq_spec a b : ip_wf a -> ip_wf b -> (ip_eq a b = true <-> a = b).
Proof.
  intros [Ha _] [Hb _]. unfold ip_eq. destruct a as [a], b as [b]; cbn in *.
  assert (memcmp a b = Eq <-> a = b) as H by (apply memcmp_Eq; congruence).
  destruct (memcmp a b); split; intros E; try done.
  - f_equal. by apply H.
  - injection E as E. by apply H in E.
  - injection E as E. by apply H in E.
Qed.

Lemma ip_eq_refl a : ip_eq a a = true.
Proof.
  unfold ip_eq. replace (memcmp (m_addr a) (m_addr a)) with Eq; [done |].
  symmetry. by apply memcmp_Eq.
Qed.

Lemma CIpAddress_in_addr_wf a : ip_wf (CIpAddress_in_addr a).
Proof.
  split; [done |]. unfold bytes_ok, CIpAddress_in_addr; cbn.
  repeat constructor; try (apply Z.mod_pos_bound; lia); lia.
Qed.

Lemma CIpAddress_bytes_wf l : length l = 16%nat -> bytes_ok l -> ip_wf (CIpAddress_bytes l).
Proof.
  intros H Hl. split; cbn; [rewrite length_take; lia | by apply Forall_take].
Qed.

Lemma getIpv4_in_addr a : 0 <= a < 4294967296 -> getIpv4 (CIpAddress_in_addr a) = a.
Proof. intros H. unfold getIpv4, addr_byte. cbn. Z.to_euclidean_division_equations. lia. Qed.

#[export] Hint Resolve CIpAddress_in_addr_wf : kf_bounds.

(** ** The session key *)

Lemma id_eqb_spec a b :
  id_wf a -> id_wf b -> (id_eqb a b = true <-> a = b \/ a = id_swap b).
Proof.
  intros (Wa1 & Wa2 & _) (Wb1 & Wb2 & _).
  destruct a as [as_ ap ad aq], b as [bs_ bp bd bq]; unfold id_eqb, id_swap; cbn in *.
  split.
  - intros H. case_in H; breflect; [left | right];
      repeat match goal with
      | E : ip_eq _ _ = true |- _ => apply ip_eq_spec in E; [| done..]
      end; congruence.
  - intros [[= -> -> -> ->] | [= -> -> -> ->]];
      rewrite ?ip_eq_refl, ?Z.eqb_refl; cbn; [done |].
    by destruct (_ && _ && _ && _).
Qed.

Lemma id_swap_invol k : id_swap (id_swap k) = k.
Proof. by destruct k. Qed.

Lemma id_swap_wf k : id_wf k -> id_wf (id_swap k).
Proof. unfold id_wf; cbn. tauto. Qed.

Lemma getHash_swap k : getHash (id_swap k) = getHash k.
Proof. unfold getHash; cbn. f_equal; lia. Qed.

(** The relation [operator==] decides on well-formed keys. *)
Definition id_rel (a b : CTcpSessionId) : Prop := a = b \/ a = id_swap b.

#[global] Instance id_rel_equivalence : Equivalence id_rel.
Proof.
  split.
  - by left.
  - intros a b [-> | ->]; [by left | right]. by rewrite id_swap_invol.
  - intros a b c [-> | ->] [-> | ->]; unfold id_rel; rewrite ?id_swap_invol; auto.
Qed.

#[global] Instance getHash_proper : Proper (id_rel ==> eq) getHash.
Proof. intros a b [-> | ->]; [done | apply getHash_swap]. Qed.

(** C14: [operator==] on session keys is an equivalence relation that
    identifies exactly a connection and its reverse direction, and [getHash]
    is constant on its classes, as [std::unordered_map] requires. *)
Theorem session_key_sound a b :
  id_wf a -> id_wf b ->
  (id_eqb a b = true <-> a = b \/ a = id_swap b) /\
  id_eqb a a = true /\
  id_eqb b a = id_eqb a b /\
  id_eqb a (id_swap a) = true /\
  (id_eqb a b = true -> getHash a = getHash b).
Proof.
  intros Ha Hb. repeat split.
  - by apply id_eqb_spec.
  - by apply id_eqb_spec.
  - apply id_eqb_spec; auto.
  - apply eq_true_iff_eq. rewrite !id_eqb_spec by done.
    change (id_rel b a <-> id_rel a b). split; apply symmetry.
  - apply id_eqb_spec; auto using id_swap_wf. right. by rewrite id_swap_invol.
  - intros E%id_eqb_spec; [| done..]. by apply getHash_proper.
Qed.

Lemma session_key_sound_witness :
  let a := mkId (CIpAddress_in_addr 16777226) 40000 (CIpAddress_in_addr 33554442) 80 in
  id_eqb a (id_swap a) = true /\ getHash a = getHash (id_swap a).
Proof.
  assert (id_wf (mkId (CIpAddress_in_addr 16777226) 40000 (CIpAddress_in_addr 33554442) 80)) as Hw
    by (split; [apply CIpAddress_in_addr_wf |]; by split; [apply CIpAddress_in_addr_wf |]).
  destruct (session_key_sound _ _ Hw (id_swap_wf _ Hw)) as (_ & _ & _ & E & Hh).
  exact (conj E (Hh E)).
Defined.

Lemma id_eqb_trans a b c :
  id_wf a -> id_wf b -> id_wf c ->
  id_eqb a b = true -> id_eqb b c = true -> id_eqb a c = true.
Proof.
  intros Ha Hb Hc. rewrite !id_eqb_spec by done.
  change (id_rel a b -> id_rel b c -> id_rel a c). apply transitivity.
Qed.
