(* ===== verification/LayerInfo.v ===== *)
(** * CL2Info, CL3Info, CL4Info: the decoded layers of a packet

    A pointer into the packet is an offset into [m_pcapData].  Each class
    keeps a pointer to the layer below, modelled by nesting the records. *)
From Stdlib Require Import ZArith Lia.
From stdpp Require Import base gmap list strings numbers.
From S2P Require Import Prelude PacketDef IpAddress.

Local Open Scope Z_scope.

(** the fields of [struct pcap_pkthdr] the program reads *)
Record pcap_pkthdr := mkPcapHdr { caplen : Z; len : Z; ts_sec : Z }.

Record CL2Info := mkL2 {
  m_pcapHdr : pcap_pkthdr;
  m_pcapData : bytes;
  m_L3Data : nat;
  m_L3Datalen : Z;
  m_pcapDlt : Z
}.

(** [getIpVersion]: 0 when the layer is shorter than an IPv4 header. *)
Definition getIpVersion (i : CL2Info) : result Z :=
  if Z.of_nat ip4_hdr.sizeof_ip4_hdr <=? m_L3Datalen i
  then ip4_hdr.ip_v (m_pcapData i) (m_L3Data i)
  else Ok 0.

(** [nshort(buf, pos)] *)
Definition nshort (buf : bytes) (pos : nat) : result Z :=
  hi ← read8 buf pos; lo ← read8 buf (pos + 1);
  Ok (u16 (Z.lor (Z.shiftl hi 8) lo)).

Definition getEtherType (i : CL2Info) : result Z :=
  if (m_pcapDlt i =? DLT_IEEE802) || (m_pcapDlt i =? DLT_EN10MB)
  then ether_header.ether_type (m_pcapData i) 0
  else Ok 0.

(** [getVlan]: the two bytes after the Ethernet header, -1 without a tag. *)
Definition getVlan (i : CL2Info) : result Z :=
  t ← getEtherType i;
  if t =? ETHERTYPE_VLAN then nshort (m_pcapData i) ether_header.sizeof_ether_header
  else Ok (-1).

Record CL3Info := mkL3 {
  m_pL2Info : CL2Info;
  m_L4Data : nat;
  m_L4Datalen : Z;
  m_src : CIpAddress;
  m_dst : CIpAddress;
  m_payloadProtocol : Z;
  m_id : option Z   (* [None]: left uninitialised by the constructor *)
}.

(** [CL3Info::CL3Info] *)
Definition newCL3Info (l2 : CL2Info) (l4 : nat) (l4Len : Z) (src dst : CIpAddress)
  : result CL3Info :=
  v ← getIpVersion l2;
  if v =? 4 then
    p ← ip4_hdr.ip_p (m_pcapData l2) (m_L3Data l2);
    i ← ip4_hdr.ip_id (m_pcapData l2) (m_L3Data l2);
    Ok (mkL3 l2 l4 l4Len src dst p (Some i))
  else if v =? 6 then
    p ← ip6_hdr.ip6_un1_nxt (m_pcapData l2) (m_L3Data l2);
    Ok (mkL3 l2 l4 l4Len src dst p None)
  else Ok (mkL3 l2 l4 l4Len src dst 0 None).

Record CL4Info := mkL4 {
  m_pL3Info : CL3Info;
  m_L5Data : nat;
  m_L5Datalen : Z;
  m_srcPort : Z;
  m_dstPort : Z;
  m_seqNum : Z;
  m_ackNum : Z;
  m_synSet : bool;
  m_ackSet : bool;
  m_finSet : bool;
  m_rstSet : bool;
  m_pushSet : bool;
  m_urgSet : bool;
  m_ackPacket : bool
}.

(** [CL4Info::CL4Info] and [setFlags] *)
Definition newCL4Info (l3 : CL3Info) (l5 : nat) (l5Len : Z) (sport dport : Z)
  : result CL4Info :=
  let m := m_pcapData (m_pL2Info l3) in
  let h := m_L4Data l3 in
  seq ← tcphdr.th_seq m h;
  ack ← tcphdr.th_ack m h;
  flags ← tcphdr.th_flags m h;
  Ok {| m_pL3Info := l3; m_L5Data := l5; m_L5Datalen := l5Len;
        m_srcPort := sport; m_dstPort := dport;
        m_seqNum := seq; m_ackNum := ack;
        m_synSet := FLAG_SET flags TH_SYN;
        m_ackSet := FLAG_SET flags TH_ACK;
        m_finSet := FLAG_SET flags TH_FIN;
        m_rstSet := FLAG_SET flags TH_RST;
        m_pushSet := FLAG_SET flags TH_PUSH;
        m_urgSet := FLAG_SET flags TH_URG;
        m_ackPacket := (l5Len =? 0) && negb (FLAG_SET flags (Z.lnot TH_ACK)) |}.

Definition l4_l2 (i : CL4Info) : CL2Info := m_pL2Info (m_pL3Info i).
Definition l4_now (i : CL4Info) : Z := ts_sec (m_pcapHdr (l4_l2 i)).

(** the bytes [getL5Data()] points to, when they are copied *)
Definition l5_bytes (i : CL4Info) : result bytes :=
  read_slice (m_pcapData (l4_l2 i)) (m_L5Data i) (Z.to_nat (m_L5Datalen i)).

(** ** Well-formedness of the decoded layers *)

Definition l2_wf (i : CL2Info) : Prop :=
  bytes_ok (m_pcapData i) /\ 0 <= m_L3Datalen i /\
  Z.of_nat (m_L3Data i) + m_L3Datalen i <= Z.of_nat (length (m_pcapData i)).

Definition l3_wf (i : CL3Info) : Prop :=
  l2_wf (m_pL2Info i) /\ ip_wf (m_src i) /\ ip_wf (m_dst i) /\ 0 <= m_L4Datalen i /\
  Z.of_nat (m_L4Data i) + m_L4Datalen i <= Z.of_nat (length (m_pcapData (m_pL2Info i))).

(** The payload of a well-formed segment lies inside the packet, its numbers
    are in range, and a pure acknowledgement has no other flag and no data. *)
Definition l4_wf (i : CL4Info) : Prop :=
  l3_wf (m_pL3Info i) /\
  0 <= m_L5Datalen i <= 65535 /\
  (0 < m_L5Datalen i ->
   Z.of_nat (m_L5Data i) + m_L5Datalen i <= Z.of_nat (length (m_pcapData (l4_l2 i)))) /\
  0 <= m_srcPort i < 65536 /\ 0 <= m_dstPort i < 65536 /\
  0 <= m_seqNum i < 4294967296 /\ 0 <= m_ackNum i < 4294967296 /\
  (m_ackPacket i = true ->
   m_L5Datalen i = 0 /\ m_synSet i = false /\ m_finSet i = false /\ m_rstSet i = false).

(** What is left of this when an IPv6 header announces more than was captured:
    everything but the place of the segment and of its payload. *)
Definition l4_sane (i : CL4Info) : Prop :=
  (l2_wf (l4_l2 i) /\ ip_wf (m_src (m_pL3Info i)) /\ ip_wf (m_dst (m_pL3Info i))) /\
  0 <= m_L5Datalen i <= 65535 /\
  0 <= m_srcPort i < 65536 /\ 0 <= m_dstPort i < 65536 /\
  0 <= m_seqNum i < 4294967296 /\ 0 <= m_ackNum i < 4294967296 /\
  (m_ackPacket i = true ->
   m_L5Datalen i = 0 /\ m_synSet i = false /\ m_finSet i = false /\ m_rstSet i = false).

(** the payload does not end inside the packet *)
Definition payload_outside (i : CL4Info) : Prop :=
  0 < m_L5Datalen i /\ Z.of_nat (length (m_pcapData (l4_l2 i))) < Z.of_nat (m_L5Data i) + m_L5Datalen i.

(** ** Lemmas *)

Lemma l4_wf_sane i : l4_wf i -> l4_sane i /\ ~ payload_outside i.
Proof.
  intros ((Hl2 & Hs & Hd & _) & Hlen & Hin & R). split; [by split |].
  intros [Hp Ho]. specialize (Hin Hp). lia.
Qed.

Lemma getIpVersion_wf i : l2_wf i -> exists v, getIpVersion i = Ok v.
Proof.
  intros (Hb & H0 & Hl). unfold getIpVersion, ip4_hdr.sizeof_ip4_hdr.
  destruct (_ <=? _) eqn:E; breflect; [| eauto].
  unfold ip4_hdr.ip_v.
  destruct (read8_inside _ Hb (m_L3Data i)) as (b & Hr & _); [lia |].
  rewrite Hr. cbn. eauto.
Qed.

Lemma getIpVersion_len i v : getIpVersion i = Ok v -> v <> 0 -> 20 <= m_L3Datalen i.
Proof.
  unfold getIpVersion, ip4_hdr.sizeof_ip4_hdr.
  destruct (_ <=? _) eqn:E; breflect; [lia |]. intros [= <-]. done.
Qed.

(** A set bit other than ACK is a bit of [~TH_ACK]. *)
Lemma FLAG_SET_mask flags f :
  0 <= flags -> FLAG_SET flags (Z.lnot TH_ACK) = false ->
  Z.land f (Z.lnot TH_ACK) = f -> FLAG_SET flags f = false.
Proof.
  unfold FLAG_SET. intros H0 H Hf. breflect. apply negb_false_iff, Z.eqb_eq.
  rewrite <- Hf, (Z.land_comm f), Z.land_assoc, H. apply Z.land_0_l.
Qed.

(** wherever the header lies: it is read outside the packet or the segment
    has its numbers in range *)
Lemma newCL4Info_sane l3 l5 l5Len sport dport :
  l2_wf (m_pL2Info l3) -> ip_wf (m_src l3) -> ip_wf (m_dst l3) -> 0 <= l5Len <= 65535 ->
  0 <= sport < 65536 -> 0 <= dport < 65536 ->
  newCL4Info l3 l5 l5Len sport dport = Fault OutOfBoundsRead \/
  exists i, newCL4Info l3 l5 l5Len sport dport = Ok i /\ l4_sane i /\
            m_pL3Info i = l3 /\ m_L5Data i = l5 /\ m_L5Datalen i = l5Len /\
            m_srcPort i = sport /\ m_dstPort i = dport.
Proof.
  intros Hl2 Hs' Hd' Hlen Hs Hd. pose proof Hl2 as (Hb & _).
  unfold newCL4Info, tcphdr.th_seq, tcphdr.th_ack, tcphdr.th_flags.
  destruct (read_be32_cases _ Hb (m_L4Data l3 + 4)) as [-> | (q & -> & ?)]; [by left | cbn [mbind result_bind]].
  destruct (read_be32_cases _ Hb (m_L4Data l3 + 8)) as [-> | (a & -> & ?)]; [by left | cbn [mbind result_bind]].
  destruct (read8_cases _ Hb (m_L4Data l3 + 13)) as [-> | (f & -> & [Hf0 _])]; [by left | cbn [mbind result_bind]].
  right. eexists; split; [done |]. split; [| done]. split; [by split |].
  repeat (split; [first [done | lia] |]). cbn. intros HA.
  apply andb_true_iff in HA as [? HA%negb_true_iff]. breflect.
  split; [lia |]. by repeat split; apply FLAG_SET_mask.
Qed.

Lemma newCL4Info_wf l3 l5 l5Len sport dport :
  l3_wf l3 -> 20 <= m_L4Datalen l3 ->
  0 <= l5Len <= 65535 ->
  (0 < l5Len -> Z.of_nat l5 + l5Len <= Z.of_nat (length (m_pcapData (m_pL2Info l3)))) ->
  0 <= sport < 65536 -> 0 <= dport < 65536 ->
  exists i, newCL4Info l3 l5 l5Len sport dport = Ok i /\ l4_wf i /\
            m_pL3Info i = l3 /\ m_L5Data i = l5 /\ m_L5Datalen i = l5Len /\
            m_srcPort i = sport /\ m_dstPort i = dport.
Proof.
  intros Hl3 H20 Hlen Hin Hs Hd. pose proof Hl3 as ((Hb & _) & _ & _ & H0 & Hl).
  unfold newCL4Info, tcphdr.th_seq, tcphdr.th_ack, tcphdr.th_flags.
  destruct (read_be32_inside _ Hb (m_L4Data l3 + 4)) as (q & Hq & ?); [lia |].
  destruct (read_be32_inside _ Hb (m_L4Data l3 + 8)) as (a & Ha & ?); [lia |].
  destruct (read8_inside _ Hb (m_L4Data l3 + 13)) as (f & Hf & [Hf0 _]); [lia |].
  rewrite Hq; cbn. rewrite Ha; cbn. rewrite Hf; cbn.
  eexists; split; [done |]. split; [| done].
  repeat (split; [first [done | lia] |]). cbn. intros HA.
  apply andb_true_iff in HA as [? HA%negb_true_iff]. breflect.
  split; [lia |]. by repeat split; apply FLAG_SET_mask.
Qed.
