(* ===== verification/SegBuf.v ===== *)
(** * CTcpSegBuf: reassembly of one direction of a TCP stream

    [m_start] is the sequence number of the first payload byte, [m_end] one
    past the highest byte stored, [m_used] one past the last byte handed to
    the active decoder; all three are 32-bit.  [m_buf] holds the bytes from
    [m_start] on, zero where no segment was stored yet. *)
From Stdlib Require Import ZArith Lia.
From stdpp Require Import base gmap list strings numbers.
From S2P Require Import Prelude.

Local Open Scope Z_scope.

Record CTcpSegBuf := mkSegBuf {
  m_start : Z;
  m_end : Z;
  m_used : Z;
  m_buf : bytes
}.

(** [CTcpSegBuf::CTcpSegBuf] *)
Definition newCTcpSegBuf : CTcpSegBuf := mkSegBuf 0 0 0 [].

Definition setStartSeq (seq : Z) (b : CTcpSegBuf) : CTcpSegBuf :=
  mkSegBuf seq (m_end b) (m_used b) (m_buf b).

(** [insertData(seq, buf, size)], [size] the length of [data].  The test
    [seq + size > m_end] is computed in 64 bits; [m_end], the argument of
    [resize] and the position of [replace] are 32-bit. *)
Definition insertData (seq : Z) (data : bytes) (b : CTcpSegBuf) : result CTcpSegBuf :=
  let size := Z.of_nat (length data) in
  let start := if m_start b =? 0 then seq else m_start b in
  let e := if m_end b <? seq + size then u32 (seq + size) else m_end b in
  let buf := if m_end b <? seq + size
             then str_resize (m_buf b) (Z.to_nat (u32 (e - start)))
             else m_buf b in
  buf' ← str_replace buf (Z.to_nat (u32 (seq - start))) (length data) data;
  Ok (mkSegBuf start e (m_used b) buf').

(** [dumpUnusedData(out)]: the bytes from [m_used] to [m_end]. *)
Definition dumpUnusedData (b : CTcpSegBuf) : result (bytes * CTcpSegBuf) :=
  let off := u32 (m_used b - m_start b) in
  let n := u32 (u32 (m_end b - m_start b) - off) in
  out ← str_substr (m_buf b) (Z.to_nat off) (Z.to_nat n);
  Ok (out, mkSegBuf (m_start b) (m_end b) (m_end b) (m_buf b)).

Definition getBuf (b : CTcpSegBuf) : bytes := m_buf b.

Definition setUsedPos (used : Z) (b : CTcpSegBuf) : CTcpSegBuf :=
  mkSegBuf (m_start b) (m_end b) (u32 (m_start b + used)) (m_buf b).

(** ** Invariant *)

(** The buffer of a direction whose numbers have not wrapped: empty, or
    holding exactly the bytes between [m_start] and [m_end]. *)
Definition seg_wf (b : CTcpSegBuf) : Prop :=
  0 < m_start b < 4294967296 /\
  ((m_end b = 0 /\ m_buf b = []) \/
   (m_start b <= m_end b < 4294967296 /\ Z.of_nat (length (m_buf b)) = m_end b - m_start b)).

(** one segment: its sequence number and its bytes *)
Abbreviation segment := (Z * bytes)%type.

Definition insertSegs (segs : list segment) (b : CTcpSegBuf) : result CTcpSegBuf :=
  foldl (fun r s => b' ← r; insertData s.1 s.2 b') (Ok b) segs.

(** The buffer of a direction stays below 4 GiB and one segment, wrapped
    sequence numbers included. *)
Definition seg_bounded (b : CTcpSegBuf) : Prop :=
  Z.of_nat (length (m_buf b)) <= 4294967296 + 65535.

Lemma insertData_bounded seq data b b' :
  Z.of_nat (length data) <= 65535 -> seg_bounded b -> insertData seq data b = Ok b' ->
  seg_bounded b'.
Proof.
  intros Hd Hb. unfold insertData, str_replace, seg_bounded in *.
  set (start := if m_start b =? 0 then seq else m_start b).
  pose proof (u32_range (seq - start)) as Ho.
  destruct (m_end b <? _); cbn zeta.
  - pose proof (u32_range (u32 (seq + Z.of_nat (length data)) - start)) as He.
    rewrite str_resize_length. destruct (_ <? _)%nat eqn:E; [done |]. cbn. intros [= <-]. breflect.
    cbn [m_buf]. autorewrite with kf_len. rewrite str_resize_length. lia.
  - destruct (_ <? _)%nat eqn:E; [done |]. cbn. intros [= <-]. breflect.
    cbn [m_buf]. lengths.
Qed.

(** ** Insertion *)

Lemma seg_wf_length b : seg_wf b -> Z.of_nat (length (m_buf b)) < 4294967296.
Proof. intros (? & [[_ ->] | [? ?]]); cbn; lia. Qed.

(** The buffer [insertData] writes into, for a segment at offset [o] *)
Lemma insertData_shape b o data :
  seg_wf b -> m_start b + Z.of_nat (o + length data) < 4294967296 ->
  insertData (m_start b + Z.of_nat o) data b =
  let buf := str_resize (m_buf b) (length (m_buf b) `max` (o + length data)) in
  Ok (mkSegBuf (m_start b) (m_start b + Z.of_nat (length buf)) (m_used b)
        (take o buf ++ data ++ drop (o + length data) buf)).
Proof.
  intros (Hs & Hw) Hlt. unfold insertData.
  destruct (m_start b =? 0) eqn:E0; breflect; [lia |].
  replace (m_start b + Z.of_nat o - m_start b) with (Z.of_nat o) by lia.
  rewrite (u32_small (Z.of_nat o)), Nat2Z.id by lia. cbn zeta.
  rewrite str_resize_length.
  destruct (m_end b <? _) eqn:E; breflect.
  - assert (length (m_buf b) <= o + length data)%nat as Hle.
    { destruct Hw as [[_ ->] | [? ?]]; cbn; lia. }
    rewrite Nat.max_r by lia.
    rewrite (u32_small (m_start b + _ + _)) by lia.
    replace (m_start b + Z.of_nat o + Z.of_nat (length data) - m_start b)
      with (Z.of_nat (o + length data)) by lia.
    rewrite u32_small, Nat2Z.id by lia.
    rewrite str_replace_inside by (rewrite str_resize_length; lia). cbn.
    f_equal. f_equal; lia.
  - destruct Hw as [[? _] | [? ?]]; [lia |].
    rewrite Nat.max_l by lia. unfold str_resize. rewrite resize_all_alt by done.
    rewrite str_replace_inside by lia. cbn. f_equal. f_equal; lia.
Qed.

(** The effect of storing a segment, byte by byte. *)
Lemma insertData_spec b o data :
  seg_wf b -> m_start b + Z.of_nat (o + length data) < 4294967296 ->
  exists b', insertData (m_start b + Z.of_nat o) data b = Ok b' /\
    seg_wf b' /\ m_start b' = m_start b /\ m_used b' = m_used b /\
    length (m_buf b') = (length (m_buf b) `max` (o + length data))%nat /\
    forall i, m_buf b' !! i =
      if decide (o <= i < o + length data)%nat then data !! (i - o)%nat
      else if decide (i < length (m_buf b))%nat then m_buf b !! i
      else if decide (i < o + length data)%nat then Some 0 else None.
Proof.
  intros Hw Hlt. pose proof (seg_wf_length b Hw) as Hlen.
  rewrite insertData_shape by done. cbn zeta.
  set (n := (length (m_buf b) `max` (o + length data))%nat).
  assert (length (str_resize (m_buf b) n) = n) as Hn by apply str_resize_length.
  eexists; split; [done |]; cbn [m_buf m_start m_used].
  assert (length (take o (str_resize (m_buf b) n) ++ data ++
          drop (o + length data) (str_resize (m_buf b) n)) = n) as Hl.
  { rewrite splice_length; lia. }
  split; [| split; [done | split; [done | split; [done |]]]].
  - destruct Hw as (Hs & Hw). split; [done |]. right; cbn. rewrite Hl, Hn.
    split; [| lia]. clear Hl Hn. subst n. destruct Hw as [[_ ->] | [? ?]]; cbn; lia.
  - intros i. rewrite splice_lookup by lia. case_decide; [done |].
    unfold str_resize. destruct (decide (i < n)%nat).
    + destruct (decide (i < length (m_buf b))%nat).
      * by rewrite lookup_resize by lia.
      * rewrite lookup_resize_new by lia. case_decide; [done | lia].
    + rewrite lookup_resize_old by lia. repeat case_decide; lia || done.
Qed.

(** ** Reassembly: an abstract stream and its segments in any order *)

(** [s] carries the bytes of the stream [str] at its sequence number; byte 0
    of the stream has sequence number [base]. *)
Definition slice_of (str : bytes) (base : Z) (s : segment) : Prop :=
  exists o : nat, s.1 = base + Z.of_nat o /\ (o + length s.2 <= length str)%nat /\
    s.2 = take (length s.2) (drop o str).

(** byte [i] of the stream is carried by some segment *)
Definition covers (base : Z) (segs : list segment) (i : nat) : Prop :=
  Exists (fun s : segment =>
    s.1 <= base + Z.of_nat i < s.1 + Z.of_nat (length s.2)) segs.

(** The buffer holds the stream at every index in [done]. *)
Definition holds_stream (str : bytes) (base : Z) (stored : nat -> Prop) (b : CTcpSegBuf) : Prop :=
  seg_wf b /\ m_start b = base /\ (length (m_buf b) <= length str)%nat /\
  forall i, stored i -> m_buf b !! i = str !! i.

Lemma insertData_holds str base stored b s :
  0 < base -> base + Z.of_nat (length str) < 4294967296 ->
  holds_stream str base stored b -> slice_of str base s ->
  exists b', insertData s.1 s.2 b = Ok b' /\
    holds_stream str base (fun i => stored i \/ covers base [s] i) b'.
Proof.
  intros Hb Hlt (Hw & Hs & Hle & Hd) (o & Ho & Hlen & Hdata). subst base.
  destruct (insertData_spec b o s.2) as (b' & Hi & Hw' & Hs' & _ & Hl' & Hlk); [done | lia |].
  exists b'. rewrite Ho. split; [done |]. split; [done |]. split; [done |]. split; [lia |].
  intros i Hin. rewrite Hlk.
  case_decide as Hc.
  - rewrite Hdata, lookup_take_lt, lookup_drop by lia. f_equal. lia.
  - destruct Hin as [Hin | Hin].
    + rewrite <- (Hd i Hin). repeat case_decide; try done.
      * exfalso. specialize (Hd i Hin). rewrite (lookup_ge_None_2 (m_buf b)) in Hd by lia.
        symmetry in Hd. apply lookup_ge_None in Hd. lia.
      * by rewrite lookup_ge_None_2 by lia.
    + apply Exists_cons in Hin as [Hin | Hin%Exists_nil]; [lia | done].
Qed.

Lemma insertSegs_holds str base segs stored b :
  0 < base -> base + Z.of_nat (length str) < 4294967296 ->
  holds_stream str base stored b -> Forall (slice_of str base) segs ->
  exists b', insertSegs segs b = Ok b' /\
    holds_stream str base (fun i => stored i \/ covers base segs i) b'.
Proof.
  intros Hb Hlt. revert stored b. induction segs as [|s segs IH]; intros stored b Hd Hsegs.
  - exists b. split; [done |]. destruct Hd as (? & ? & ? & Hd).
    split; [done |]. split; [done |]. split; [done |]. intros i [Hi | Hi%Exists_nil]; [auto | done].
  - apply Forall_cons_1 in Hsegs as [Hs Hsegs].
    destruct (insertData_holds str base stored b s Hb Hlt Hd Hs) as (b1 & E1 & Hd1).
    destruct (IH _ _ Hd1 Hsegs) as (b2 & E2 & Hw2 & Hs2 & Hl2 & Hd2).
    exists b2. split; [by unfold insertSegs; cbn; rewrite E1 |].
    split; [done |]. split; [done |]. split; [done |].
    intros i Hi. apply Hd2. unfold covers in *. rewrite Exists_cons in Hi.
    rewrite Exists_cons, Exists_nil. tauto.
Qed.

(** C2: Reassembly is correct in any order, for a stream whose 32-bit sequence
    numbers do not wrap around.  When [setStartSeq] has been given the sequence
    number [base] of its first byte, [base] is not 0 and the last byte is below
    2^32 - 1, storing segments of the stream that together carry every byte,
    in any order and with any overlap and retransmission, never throws and
    leaves exactly the stream in the buffer. *)
Theorem reassembly_any_order str base segs :
  0 < base -> base + Z.of_nat (length str) < 4294967296 ->
  Forall (slice_of str base) segs ->
  (forall i, (i < length str)%nat -> covers base segs i) ->
  exists b, insertSegs segs (setStartSeq base newCTcpSegBuf) = Ok b /\ getBuf b = str.
Proof.
  intros Hb Hlt Hsegs Hall.
  destruct (insertSegs_holds str base segs (fun _ => False) (setStartSeq base newCTcpSegBuf))
    as (b & E & (Hw & _ & Hl & Hd)); [done | done | | done |].
  - split; [split; cbn; [lia | by left] |]. repeat split; cbn; [lia | done].
  - exists b. split; [done |]. apply list_eq. intros i.
    destruct (decide (i < length str)%nat) as [Hi | Hi]; [by apply Hd; right; apply Hall |].
    unfold getBuf. rewrite !lookup_ge_None_2 by lia. done.
Qed.

Example reassembly_any_order_witness :
  exists b, insertSegs [(1003, [4; 5]); (1000, [1; 2; 3; 4])]
              (setStartSeq 1000 newCTcpSegBuf) = Ok b /\ getBuf b = [1; 2; 3; 4; 5].
Proof.
  apply (reassembly_any_order [1; 2; 3; 4; 5] 1000); [lia | cbn; lia | |].
  - repeat constructor; [exists 3%nat | exists 0%nat]; cbn; repeat split; lia.
  - intros i Hi. cbn in Hi. unfold covers. rewrite !Exists_cons. cbn. lia.
Defined.

(** ** In-order delivery, across sequence wrap-around *)

(** the buffer holds the [n] bytes sent so far, ending at sequence number
    [m_start + n] modulo 2^32, and the first [from] of them are used *)
Definition inorder_inv (n from : nat) (b : CTcpSegBuf) : Prop :=
  0 < m_start b < 4294967296 /\ Z.of_nat n < 4294967296 /\ (from <= n)%nat /\
  length (m_buf b) = n /\ m_used b = u32 (m_start b + Z.of_nat from) /\
  ((n = 0%nat /\ m_end b = 0) \/ m_end b = u32 (m_start b + Z.of_nat n)).

Lemma u32_sub_start start n :
  0 <= n < 4294967296 -> u32 (u32 (start + n) - start) = n.
Proof.
  intros H. unfold u32. rewrite Zminus_mod_idemp_l.
  replace (start + n - start) with n by lia. by apply Z.mod_small.
Qed.

(** the next segment of the stream is appended *)
Lemma insertData_inorder n from b data :
  inorder_inv n from b -> data <> [] -> Z.of_nat (n + length data) < 4294967296 ->
  exists b', insertData (u32 (m_start b + Z.of_nat n)) data b = Ok b' /\ m_start b' = m_start b /\
    m_buf b' = m_buf b ++ data /\ inorder_inv (n + length data) from b'.
Proof.
  intros (Hs & Hn & Hle & Hlen & Hu & He) Hne Hlt.
  assert (0 < length data)%nat as Hpos by (destruct data; cbn; [done | lia]).
  set (q := u32 (m_start b + Z.of_nat n)) in *.
  assert (0 <= q < 4294967296) as Hq by apply u32_range.
  assert (u32 (q + Z.of_nat (length data)) = u32 (m_start b + Z.of_nat (n + length data))) as Hq'.
  { unfold q, u32. rewrite Zplus_mod_idemp_l. f_equal. lia. }
  unfold insertData. destruct (m_start b =? 0) eqn:E0; breflect; [lia |].
  assert ((m_end b <? q + Z.of_nat (length data)) = true) as ->.
  { apply Z.ltb_lt. destruct He as [[_ ->] | ->]; lia. }
  rewrite Hq', u32_sub_start, Nat2Z.id by lia.
  unfold q at 1. rewrite u32_sub_start, Nat2Z.id by lia.
  rewrite str_replace_inside by (rewrite str_resize_length; lia). cbn [mbind result_bind].
  rewrite str_resize_le, take_app_length' by lia. rewrite drop_ge, app_nil_r by lengths.
  eexists; split; [done |]. cbn [m_start m_buf]. split; [done |]. split; [done |].
  split; [done |]. split; [lia |]. split; [lia |]. cbn [m_buf m_used m_start m_end].
  split; [lengths |]. split; [done | by right].
Qed.

(** the unused bytes are handed over, and all are used afterwards *)
Lemma dumpUnusedData_inorder n from b :
  inorder_inv n from b -> (0 < n)%nat ->
  exists b', dumpUnusedData b = Ok (drop from (m_buf b), b') /\ m_start b' = m_start b /\
    m_buf b' = m_buf b /\ inorder_inv n n b'.
Proof.
  intros (Hs & Hn & Hle & Hlen & Hu & He) Hpos. unfold dumpUnusedData.
  destruct He as [[-> _] | He]; [lia |]. rewrite Hu, He, !u32_sub_start by lia.
  rewrite (u32_small (Z.of_nat n - _)) by lia. unfold str_substr.
  destruct (_ <? _)%nat eqn:E; breflect; [lia |]. cbn [mbind result_bind].
  rewrite Nat2Z.id, take_ge by (rewrite length_drop; lia).
  eexists; split; [done |]. repeat (split; [done || lia |]). by right.
Qed.

(** [setUsedPos(0)]: everything is to be handed over again *)
Lemma setUsedPos_inorder n from b : inorder_inv n from b -> inorder_inv n 0 (setUsedPos 0 b).
Proof.
  intros (Hs & Hn & Hle & Hlen & Hu & He). do 2 (split; [done |]). split; [lia |]. by repeat split.
Qed.

(** ** Segments outside the stream *)

(** A segment that starts below [m_start] and reaches it, such as a
    keep-alive probe repeating the byte before the stream, makes
    [std::string::replace] throw [std::out_of_range]. *)
Theorem insertData_below_start_throws b seq data :
  seg_wf b -> 0 <= seq < m_start b ->
  m_start b <= seq + Z.of_nat (length data) < 4294967296 ->
  insertData seq data b = Fault OutOfRange.
Proof.
  intros (Hs & Hw) Hq Hd. unfold insertData.
  destruct (m_start b =? 0) eqn:E0; breflect; [lia |].
  rewrite (u32_neg (seq - m_start b)) by lia. unfold str_replace.
  destruct (m_end b <? _) eqn:E; breflect.
  - rewrite (u32_small (seq + _)), u32_small by lia.
    rewrite str_resize_length. destruct (_ <? _)%nat eqn:F; breflect; [done | lia].
  - destruct Hw as [[? _] | [? ?]]; [lia |].
    destruct (_ <? _)%nat eqn:F; breflect; [done | lia].
Qed.

Example insertData_below_start_throws_witness :
  insertData 1000 [0] (setUsedPos 0 (setStartSeq 1001 newCTcpSegBuf)) = Fault OutOfRange.
Proof.
  apply insertData_below_start_throws; cbn; [| lia | lia].
  split; cbn; [lia | by left].
Defined.

(** A retransmission from before the wrap, stored after the numbers wrapped,
    truncates the buffer: the bytes after the retransmitted segment are lost. *)
Example retransmission_after_wrap_truncates :
  (b ← insertSegs [(4294967294, [1; 2]); (0, [3; 4]); (4294967294, [1])]
         (setStartSeq 4294967294 newCTcpSegBuf); Ok (getBuf b)) = Ok [1].
Proof. vm_compute. reflexivity. Qed.
