(* ===== verification/Config.v ===== *)
(** * CConfig: the configuration object and the config.xml loader

    libxml2 is outside the repository: [xmlDoc] is what [xmlParseFile] and
    [xmlDocGetRootElement] report, with the name and text content of each
    child of the root.  Reading an integer from an [istringstream] follows
    the C++ standard library (leading blanks, optional sign, saturation). *)
From Stdlib Require Import ZArith Lia.
From stdpp Require Import base gmap list strings numbers.
From S2P Require Import Prelude.

Local Open Scope Z_scope.

Record CConfig := mkConfig {
  m_mode : bytes;
  m_offlineFile : bytes;
  m_dev : bytes;
  m_filter : bytes;
  m_packetNum : Z;
  m_poolLen : Z;
  m_httpPorts : gset Z;
  m_smtpPorts : gset Z;
  m_caredHttpMethods : gset Z;
  m_caredContentTypes : gset bytes;
  m_pcapTimeout : Z;
  m_maxDb : Z;
  m_logLevel : Z;
  m_rootPath : bytes
}.

(** [setDefault] *)
Definition setDefault : CConfig := {|
  m_mode := bs "online";
  m_offlineFile := bs "./killer-finder.pcap";
  m_dev := bs "eth0";
  m_filter := bs "tcp";
  m_packetNum := 20;
  m_poolLen := 1024;
  m_httpPorts := {[80]};
  m_smtpPorts := {[25]};
  m_caredHttpMethods := {[1; 3; 4]};
  m_caredContentTypes := {[bs "application"]};
  m_pcapTimeout := 1;
  m_maxDb := 10000;
  m_logLevel := 6;
  m_rootPath := bs "/usr/local/killer"
|}.

(** ** [istringstream >> item] *)

Definition is_space (c : Z) : bool := (c =? 32) || ((9 <=? c) && (c <=? 13)).
Definition is_digit (c : Z) : bool := (48 <=? c) && (c <=? 57).

Fixpoint skip_spaces (s : bytes) : bytes :=
  match s with
  | c :: s' => if is_space c then skip_spaces s' else s
  | [] => []
  end.

Fixpoint take_digits (s : bytes) : bytes :=
  match s with
  | c :: s' => if is_digit c then c :: take_digits s' else []
  | [] => []
  end.

Definition digits_value (s : bytes) : Z := foldl (fun a c => 10 * a + (c - 48)) 0 s.

(** The sign and the digits of the field, 0 when no digit follows. *)
Definition read_number (s : bytes) : bool * Z :=
  match skip_spaces s with
  | c :: s' =>
    if c =? 45 then (true, digits_value (take_digits s'))
    else if c =? 43 then (false, digits_value (take_digits s'))
    else (false, digits_value (take_digits (c :: s')))
  | [] => (false, 0)
  end.

(** extraction into [int]: saturates at the bounds *)
Definition extract_int (s : bytes) : Z :=
  let '(neg, v) := read_number s in
  if neg then Z.max (- v) (-2147483648) else Z.min v 2147483647.

(** extraction into [uint16_t]: 65535 when the digits do not fit, negation
    modulo 2^16 *)
Definition extract_uint16 (s : bytes) : Z :=
  let '(neg, v) := read_number s in
  if 65535 <? v then 65535 else if neg then u16 (- v) else v.

(** ** The [IF_*_NODE] macros *)

(** The loop of [IF_INT_SET_NODE] and [IF_STRING_SET_NODE]: the items before
    each [;], and the rest when it is not empty.  Each round removes at least
    the separator, so [S (length tmp)] rounds are enough. *)
Fixpoint semicolon_items (fuel : nat) (tmp : bytes) : list bytes :=
  match fuel with
  | O => []
  | S k =>
    match str_find [59] tmp with
    | Some index => take index tmp :: semicolon_items k (drop (index + 1) tmp)
    | None => if (0 <? length tmp)%nat then [tmp] else []
    end
  end.

Definition set_items (content : bytes) : list bytes :=
  semicolon_items (S (length content)) content.

Definition insert_items `{Countable A} (f : bytes -> A) (content : bytes) (s : gset A) : gset A :=
  foldl (fun acc item => {[f item]} ∪ acc) s (set_items content).

(** one child of the root node: the else-if chain of [loadFromFile] *)
Definition loadNode (c : CConfig) (node : bytes * bytes) : CConfig :=
  let '(name, content) := node in
  if bytes_eqb name (bs "mode") then
    mkConfig content (m_offlineFile c) (m_dev c) (m_filter c) (m_packetNum c) (m_poolLen c)
      (m_httpPorts c) (m_smtpPorts c) (m_caredHttpMethods c) (m_caredContentTypes c)
      (m_pcapTimeout c) (m_maxDb c) (m_logLevel c) (m_rootPath c)
  else if bytes_eqb name (bs "offlineFile") then
    mkConfig (m_mode c) content (m_dev c) (m_filter c) (m_packetNum c) (m_poolLen c)
      (m_httpPorts c) (m_smtpPorts c) (m_caredHttpMethods c) (m_caredContentTypes c)
      (m_pcapTimeout c) (m_maxDb c) (m_logLevel c) (m_rootPath c)
  else if bytes_eqb name (bs "packetNum") then
    mkConfig (m_mode c) (m_offlineFile c) (m_dev c) (m_filter c) (extract_int content) (m_poolLen c)
      (m_httpPorts c) (m_smtpPorts c) (m_caredHttpMethods c) (m_caredContentTypes c)
      (m_pcapTimeout c) (m_maxDb c) (m_logLevel c) (m_rootPath c)
  else if bytes_eqb name (bs "dev") then
    mkConfig (m_mode c) (m_offlineFile c) content (m_filter c) (m_packetNum c) (m_poolLen c)
      (m_httpPorts c) (m_smtpPorts c) (m_caredHttpMethods c) (m_caredContentTypes c)
      (m_pcapTimeout c) (m_maxDb c) (m_logLevel c) (m_rootPath c)
  else if bytes_eqb name (bs "filter") then
    mkConfig (m_mode c) (m_offlineFile c) (m_dev c) content (m_packetNum c) (m_poolLen c)
      (m_httpPorts c) (m_smtpPorts c) (m_caredHttpMethods c) (m_caredContentTypes c)
      (m_pcapTimeout c) (m_maxDb c) (m_logLevel c) (m_rootPath c)
  else if bytes_eqb name (bs "httpPorts") then
    mkConfig (m_mode c) (m_offlineFile c) (m_dev c) (m_filter c) (m_packetNum c) (m_poolLen c)
      (insert_items extract_uint16 content (m_httpPorts c))
      (m_smtpPorts c) (m_caredHttpMethods c) (m_caredContentTypes c)
      (m_pcapTimeout c) (m_maxDb c) (m_logLevel c) (m_rootPath c)
  else if bytes_eqb name (bs "poolLen") then
    mkConfig (m_mode c) (m_offlineFile c) (m_dev c) (m_filter c) (m_packetNum c) (extract_int content)
      (m_httpPorts c) (m_smtpPorts c) (m_caredHttpMethods c) (m_caredContentTypes c)
      (m_pcapTimeout c) (m_maxDb c) (m_logLevel c) (m_rootPath c)
  else if bytes_eqb name (bs "caredHttpMethods") then
    mkConfig (m_mode c) (m_offlineFile c) (m_dev c) (m_filter c) (m_packetNum c) (m_poolLen c)
      (m_httpPorts c) (m_smtpPorts c)
      (insert_items extract_int content (m_caredHttpMethods c)) (m_caredContentTypes c)
      (m_pcapTimeout c) (m_maxDb c) (m_logLevel c) (m_rootPath c)
  else if bytes_eqb name (bs "caredContentTypes") then
    mkConfig (m_mode c) (m_offlineFile c) (m_dev c) (m_filter c) (m_packetNum c) (m_poolLen c)
      (m_httpPorts c) (m_smtpPorts c) (m_caredHttpMethods c)
      (insert_items id content (m_caredContentTypes c))
      (m_pcapTimeout c) (m_maxDb c) (m_logLevel c) (m_rootPath c)
  else if bytes_eqb name (bs "pcapTimeout") then
    mkConfig (m_mode c) (m_offlineFile c) (m_dev c) (m_filter c) (m_packetNum c) (m_poolLen c)
      (m_httpPorts c) (m_smtpPorts c) (m_caredHttpMethods c) (m_caredContentTypes c)
      (extract_int content) (m_maxDb c) (m_logLevel c) (m_rootPath c)
  else if bytes_eqb name (bs "maxDb") then
    mkConfig (m_mode c) (m_offlineFile c) (m_dev c) (m_filter c) (m_packetNum c) (m_poolLen c)
      (m_httpPorts c) (m_smtpPorts c) (m_caredHttpMethods c) (m_caredContentTypes c)
      (m_pcapTimeout c) (extract_int content) (m_logLevel c) (m_rootPath c)
  else if bytes_eqb name (bs "logLevel") then
    mkConfig (m_mode c) (m_offlineFile c) (m_dev c) (m_filter c) (m_packetNum c) (m_poolLen c)
      (m_httpPorts c) (m_smtpPorts c) (m_caredHttpMethods c) (m_caredContentTypes c)
      (m_pcapTimeout c) (m_maxDb c) (extract_int content) (m_rootPath c)
  else if bytes_eqb name (bs "rootPath") then
    mkConfig (m_mode c) (m_offlineFile c) (m_dev c) (m_filter c) (m_packetNum c) (m_poolLen c)
      (m_httpPorts c) (m_smtpPorts c) (m_caredHttpMethods c) (m_caredContentTypes c)
      (m_pcapTimeout c) (m_maxDb c) (m_logLevel c) content
  else c.

Inductive xmlDoc :=
  | XmlNotParsed                                    (* xmlParseFile returned NULL *)
  | XmlEmpty                                        (* no root element *)
  | XmlRoot (name : bytes) (children : list (bytes * bytes)).

(** [loadFromFile], for the document the file name resolves to *)
Definition loadFromFile (parse : bytes -> xmlDoc) (configFileName : bytes) (c : CConfig) : CConfig :=
  let fileName := if (length configFileName =? 0)%nat
                  then bs "/usr/local/etc/config.xml" else configFileName in
  match parse fileName with
  | XmlNotParsed => c
  | XmlEmpty => c
  | XmlRoot name children =>
    if bytes_eqb name (bs "root") then foldl loadNode c children else c
  end.

(** [CConfig::CConfig] *)
Definition newCConfig (parse : bytes -> xmlDoc) (configFileName : bytes) : CConfig :=
  loadFromFile parse configFileName setDefault.

(** the text [PRINT_SET_PARA] prints for a set of integers *)
Definition print_set (l : list Z) : bytes :=
  concat ((fun x => print_dec x ++ [59]) <$> l).

(** ** The item loop *)

Lemma semicolon_items_fuel f1 f2 tmp :
  (length tmp < f1)%nat -> (length tmp < f2)%nat ->
  semicolon_items f1 tmp = semicolon_items f2 tmp.
Proof.
  revert f2 tmp. induction f1 as [|f1 IH]; intros [|f2] tmp H1 H2; try lia.
  cbn [semicolon_items]. destruct (str_find [59] tmp) as [i|] eqn:E; [| done].
  apply str_find_bound in E as [E | E]; [cbn in E | done].
  f_equal. apply IH; rewrite length_drop; lia.
Qed.

Lemma set_items_cons item rest :
  59 ∉ item -> set_items (item ++ 59 :: rest) = item :: set_items rest.
Proof.
  intros H. unfold set_items at 1. cbn [semicolon_items]. rewrite str_find_char by done.
  rewrite take_app_length. f_equal.
  replace (drop (length item + 1) (item ++ 59 :: rest)) with rest.
  - apply (semicolon_items_fuel _ (S (length rest))); [rewrite length_app; cbn; lia | lia].
  - rewrite drop_app_ge by lia. by replace (length item + 1 - length item)%nat with 1%nat by lia.
Qed.

Lemma set_items_last item : 59 ∉ item -> item <> [] -> set_items item = [item].
Proof.
  intros H Hne. unfold set_items. cbn [semicolon_items].
  rewrite str_find_char_None by done. by destruct item.
Qed.

Lemma take_digits_all s : Forall digit_ok s -> take_digits s = s.
Proof.
  induction 1 as [|c s Hc Hs IH]; [done |]. cbn.
  destruct (is_digit c) eqn:E; [by rewrite IH |].
  unfold is_digit, digit_ok in *. breflect. lia.
Qed.

Lemma read_number_digits s : Forall digit_ok s -> read_number s = (false, digits_value s).
Proof.
  intros H. unfold read_number. destruct s as [|c s]; [done |].
  apply Forall_cons_1 in H as [Hc Hs].
  assert (skip_spaces (c :: s) = c :: s) as ->.
  { cbn. unfold is_space, digit_ok in *. destruct (c =? 32) eqn:E; breflect; [lia |].
    cbn. destruct (9 <=? c) eqn:E1, (c <=? 13) eqn:E2; breflect; cbn; (lia || done). }
  unfold digit_ok in *.
  destruct (c =? 45) eqn:E1; breflect; [lia |].
  destruct (c =? 43) eqn:E2; breflect; [lia |].
  by rewrite take_digits_all by by constructor.
Qed.

Lemma extract_uint16_print n : 0 <= n < 65536 -> extract_uint16 (print_dec n) = n.
Proof.
  intros H. unfold extract_uint16. rewrite read_number_digits by (apply print_dec_digits; lia).
  unfold digits_value. rewrite print_dec_value by lia.
  destruct (_ <? _) eqn:E; breflect; [lia | done].
Qed.

Lemma extract_print_all l :
  Forall (fun p => 0 <= p < 65536) l -> extract_uint16 <$> (print_dec <$> l) = l.
Proof.
  induction 1 as [|x l Hx Hl IH]; [done |].
  rewrite !fmap_cons, extract_uint16_print by done. by rewrite IH.
Qed.

Lemma print_dec_no_semicolon n : 0 <= n -> 59 ∉ print_dec n.
Proof.
  intros Hn H. eapply list.Forall_forall in H; [| by apply print_dec_digits].
  unfold digit_ok in *. lia.
Qed.

Lemma set_items_print_set l :
  Forall (fun x => 0 <= x) l -> set_items (print_set l) = print_dec <$> l.
Proof.
  induction 1 as [|x l Hx Hl IH]; [done |].
  unfold print_set in *. cbn [fmap list_fmap concat]. rewrite <- app_assoc. cbn [app].
  rewrite set_items_cons by by apply print_dec_no_semicolon. by rewrite IH.
Qed.

Lemma foldl_insert_union `{Countable A} (f : bytes -> A) items (s : gset A) :
  foldl (fun acc item => {[f item]} ∪ acc) s items = list_to_set (f <$> items) ∪ s.
Proof.
  revert s. induction items as [|x items IH]; intros s; cbn; [set_solver |].
  rewrite IH. set_solver.
Qed.

(** The port list [printMe] prints is read back by the loader: a node
    [httpPorts] holding the printed list adds exactly those ports. *)
Theorem http_ports_roundtrip c l :
  Forall (fun p => 0 <= p < 65536) l ->
  loadNode c (bs "httpPorts", print_set l) =
  mkConfig (m_mode c) (m_offlineFile c) (m_dev c) (m_filter c) (m_packetNum c) (m_poolLen c)
    (list_to_set l ∪ m_httpPorts c) (m_smtpPorts c) (m_caredHttpMethods c)
    (m_caredContentTypes c) (m_pcapTimeout c) (m_maxDb c) (m_logLevel c) (m_rootPath c).
Proof.
  intros H. cbn -[insert_items print_set]. f_equal. unfold insert_items.
  rewrite foldl_insert_union, set_items_print_set
    by (eapply list.Forall_impl; [exact H |]; cbn; lia).
  by rewrite extract_print_all.
Qed.

Example http_ports_roundtrip_witness :
  Forall (fun p => 0 <= p < 65536) [80; 8080] /\
  m_httpPorts (loadNode setDefault (bs "httpPorts", bs "80;8080;")) = {[80; 8080]}.
Proof.
  assert (Forall (fun p => 0 <= p < 65536) [80; 8080]) as H by (repeat constructor; lia).
  split; [exact H |].
  change (bs "80;8080;") with (print_set [80; 8080]).
  rewrite (http_ports_roundtrip setDefault [80; 8080] H). cbn. set_solver.
Defined.

Lemma loadNode_smtpPorts c node : m_smtpPorts (loadNode c node) = m_smtpPorts c.
Proof. destruct node as [name content]. unfold loadNode. by repeat case_match. Qed.

Lemma foldl_loadNode_smtpPorts children c :
  m_smtpPorts (foldl loadNode c children) = m_smtpPorts c.
Proof.
  revert c. induction children as [|n l IH]; intros c; [done |].
  cbn [foldl]. by rewrite IH, loadNode_smtpPorts.
Qed.

(** No configuration file changes the SMTP ports: the loader has no case
    for the [smtpPorts] node of the shipped config.xml, so they stay the
    default [{25}]. *)
Theorem smtp_ports_not_loaded parse file :
  m_smtpPorts (newCConfig parse file) = {[25]}.
Proof.
  unfold newCConfig, loadFromFile. destruct (parse _) as [| |name children]; [done | done |].
  destruct (bytes_eqb name _); [by rewrite foldl_loadNode_smtpPorts | done].
Qed.
