(* ===== verification/DbManager.v ===== *)
(** * CDBManager: the reputation databases and their queries

    Three text databases map an IPv4 address, a domain or a host name (or a
    URL) to "0" or "1".  [start] loads them; [isUrlHit] and [isIpv4Hit]
    answer the decoders.  The files, the iteration order of the
    [unordered_map] and [inet_aton] are arguments. *)
From Stdlib Require Import ZArith Lia.
From stdpp Require Import base gmap list strings numbers.
From S2P Require Import Prelude Config.

Local Open Scope Z_scope.

Abbreviation DbMap := (gmap bytes bytes).

(** [m_httpMap[I_IPV4_MAP]], [m_httpMap[I_DOMAIN_MAP]],
    [m_httpMap[I_HOSTNAME_MAP]] and [m_ip4Map] *)
Record CDBManager := mkDb {
  m_ipv4Map : DbMap;
  m_domainMap : DbMap;
  m_hostnameMap : DbMap;
  m_ip4Map : gmap Z bytes
}.

(** [CDBManager::CDBManager] *)
Definition newCDBManager : CDBManager := mkDb ∅ ∅ ∅ ∅.

(** the successive results of [strsep] on the C string of [s] *)
Fixpoint strsep_fields (d cur s : bytes) : list bytes :=
  match s with
  | [] => [cur]
  | c :: s' =>
    if c =? 0 then [cur]
    else if existsb (Z.eqb c) d then cur :: strsep_fields d [] s'
    else strsep_fields d (cur ++ [c]) s'
  end.

(** [split(str, d, result)]: the non-empty fields *)
Definition split (str d : bytes) : list bytes :=
  filter (fun f => f <> []) (strsep_fields d [] str).

(** the lines [getline] returns for a file content *)
Fixpoint getlines (cur s : bytes) : list bytes :=
  match s with
  | [] => if (length cur =? 0)%nat then [] else [cur]
  | c :: s' => if c =? 10 then cur :: getlines [] s' else getlines (cur ++ [c]) s'
  end.

(** the loading loop of [start] for one file *)
Fixpoint loadLines (maxDb num : Z) (lines : list bytes) (m : DbMap) : result DbMap :=
  match lines with
  | [] => Ok m
  | line :: rest =>
    if (length line =? 0)%nat || (str_at line 0 =? 32) || (str_at line 0 =? 9)
    then loadLines maxDb num rest m
    else
      match split line [9] with
      | k :: v :: _ =>
        let m' := <[k := v]> m in
        if negb (maxDb =? 0)
        then if maxDb <? num + 1 then Ok m' else loadLines maxDb (num + 1) rest m'
        else loadLines maxDb num rest m'
      | _ => Fault VectorIndex
      end
  end.

(** the loop that fills [m_ip4Map]: a failed [inet_aton] leaves [addr] *)
Fixpoint fillIp4 (inet_aton : bytes -> option Z) (addr : Z)
    (entries : list (bytes * bytes)) (m : gmap Z bytes) : gmap Z bytes :=
  match entries with
  | [] => m
  | (k, v) :: rest =>
    let addr' := default addr (inet_aton k) in
    fillIp4 inet_aton addr' rest (<[addr' := v]> m)
  end.

(** [start].  [readFile] is the content of a file, empty when it cannot be
    opened; [addr0] is the indeterminate initial value of [addr]. *)
Definition start (readFile : bytes -> bytes) (inet_aton : bytes -> option Z) (addr0 : Z)
    (order : DbMap -> list (bytes * bytes)) (cfg : CConfig) (db : CDBManager)
  : result CDBManager :=
  let load f := loadLines (m_maxDb cfg) 0
                  (getlines [] (readFile (m_rootPath cfg ++ f))) in
  ipv4 ← load (bs "/db/2_ipv4.txt") (m_ipv4Map db);
  domain ← load (bs "/db/2_domain.txt") (m_domainMap db);
  host ← load (bs "/db/2_hostname.txt") (m_hostnameMap db);
  Ok (mkDb ipv4 domain host (fillIp4 inet_aton addr0 (order ipv4) (m_ip4Map db))).

(** the value test repeated after each lookup: [Some] is the returned
    verdict, [None] the "wrong db" fall-through *)
Definition entry_verdict (v : bytes) : option bool :=
  if bytes_eqb v (bs "1") then Some true
  else if bytes_eqb v (bs "0") then Some false
  else None.

(** the registered domain of step 3: the last two labels *)
Definition domain_of (host : bytes) : option bytes :=
  match reverse (split host [46]) with
  | l :: k :: _ => Some (k ++ bs "." ++ l)
  | _ => None
  end.

Definition host_without_port (host : bytes) : bytes :=
  match str_find [58] host with Some pos => take pos host | None => host end.

Definition rooted_path (path : bytes) : bytes :=
  if str_at path 0 =? 47 then path else 47 :: path.

(** [isUrlHit(prot, host, path)] *)
Definition isUrlHit (db : CDBManager) (prot host path : bytes) : bool :=
  if bytes_eqb prot (bs "http") || bytes_eqb prot (bs "https") || bytes_eqb prot (bs "ftp") then
    let host_ := host_without_port host in
    let path_ := rooted_path path in
    (* 1: the URL *)
    let e1 := m_hostnameMap db !! (host_ ++ path_) in
    match e1 ≫= entry_verdict with
    | Some b => b
    | None =>
      (* 2: the host name *)
      let e2 := m_hostnameMap db !! host_ in
      match e2 ≫= entry_verdict with
      | Some b => b
      | None =>
        let hit := bool_decide (is_Some e2) in
        (* 3: the domain *)
        match domain_of host_ with
        | Some domain =>
          let e3 := m_domainMap db !! domain in
          match e3 ≫= entry_verdict with
          | Some b => b
          | None => bool_decide (is_Some e3)
          end
        | None => hit
        end
      end
    end
  else false.

(** [isIpv4Hit(ip4)] *)
Definition isIpv4Hit (db : CDBManager) (ip4 : Z) : bool :=
  bool_decide (is_Some (m_ip4Map db !! ip4)).

(** ** Specification of the URL query *)

Definition db_values_ok (m : DbMap) : Prop :=
  map_Forall (fun _ v => v = bs "0" \/ v = bs "1") m.

(** the entries that apply to a URL, most specific first *)
Definition url_entries (db : CDBManager) (host path : bytes) : list (option bytes) :=
  let h := host_without_port host in
  [m_hostnameMap db !! (h ++ rooted_path path); m_hostnameMap db !! h;
   domain_of h ≫= fun d => m_domainMap db !! d].

(** The most specific entry decides; no entry means not listed. *)
Fixpoint most_specific (l : list (option bytes)) : bool :=
  match l with
  | [] => false
  | Some v :: _ => bytes_eqb v (bs "1")
  | None :: l' => most_specific l'
  end.

Lemma entry_verdict_ok m k v :
  db_values_ok m -> m !! k = Some v -> entry_verdict v = Some (bytes_eqb v (bs "1")).
Proof. intros Hm Hk. destruct (Hm k v Hk) as [-> | ->]; done. Qed.

(** On databases whose values are "0" and "1" the URL query implements
    its specification: for http, https and ftp the most specific of the URL,
    host-name and domain entries decides, anything else is not a hit. *)
Theorem isUrlHit_most_specific db prot host path :
  db_values_ok (m_hostnameMap db) -> db_values_ok (m_domainMap db) ->
  isUrlHit db prot host path =
  bool_decide (prot ∈ [bs "http"; bs "https"; bs "ftp"]) &&
  most_specific (url_entries db host path).
Proof.
  intros Hh Hd. unfold isUrlHit, url_entries.
  assert (bytes_eqb prot (bs "http") || bytes_eqb prot (bs "https") || bytes_eqb prot (bs "ftp")
          = bool_decide (prot ∈ [bs "http"; bs "https"; bs "ftp"])) as ->.
  { apply eq_true_iff_eq. rewrite !orb_true_iff, !bytes_eqb_eq, bool_decide_eq_true.
    rewrite !elem_of_cons, elem_of_nil. tauto. }
  destruct (bool_decide _); [| done]. cbn zeta. cbn [andb most_specific].
  destruct (m_hostnameMap db !! (_ ++ _)) as [v|] eqn:E1; cbn [mbind option_bind].
  { by rewrite (entry_verdict_ok _ _ _ Hh E1). }
  destruct (m_hostnameMap db !! host_without_port host) as [v|] eqn:E2; cbn [mbind option_bind].
  { by rewrite (entry_verdict_ok _ _ _ Hh E2). }
  destruct (domain_of _) as [d|]; cbn [mbind option_bind]; [| done].
  destruct (m_domainMap db !! d) as [v|] eqn:E3; cbn [mbind option_bind]; [| done].
  by rewrite (entry_verdict_ok _ _ _ Hd E3).
Qed.

(** a database with a blocked domain and an allowed host inside it *)
Definition sample_db : CDBManager :=
  mkDb ∅ {[bs "evil.com" := bs "1"]} {[bs "good.evil.com" := bs "0"]} ∅.

Example isUrlHit_most_specific_witness :
  db_values_ok (m_hostnameMap sample_db) /\ db_values_ok (m_domainMap sample_db) /\
  isUrlHit sample_db (bs "http") (bs "www.evil.com:8080") (bs "/x") = true /\
  isUrlHit sample_db (bs "http") (bs "good.evil.com") (bs "/x") = false.
Proof.
  assert (db_values_ok (m_hostnameMap sample_db)) as H1.
  { intros k v H. cbn in H. apply lookup_singleton_Some in H. destruct H as [_ <-]. by left. }
  assert (db_values_ok (m_domainMap sample_db)) as H2.
  { intros k v H. cbn in H. apply lookup_singleton_Some in H. destruct H as [_ <-]. by right. }
  split; [done |]. split; [done |].
  split; rewrite (isUrlHit_most_specific sample_db _ _ _ H1 H2); by vm_compute.
Defined.

(** ** Loading *)

(** A database line without a second field stops the load with an
    out-of-range vector access: the size check only logs. *)
Theorem loadLines_malformed maxDb num line rest m :
  line <> [] -> str_at line 0 <> 32 -> str_at line 0 <> 9 ->
  (length (split line [9%Z]) < 2)%nat ->
  loadLines maxDb num (line :: rest) m = Fault VectorIndex.
Proof.
  intros Hne H1 H2 Hl. cbn [loadLines].
  destruct (_ || _ || _) eqn:E.
  - apply orb_true_iff in E as [[E | E]%orb_true_iff | E]; breflect; try done.
    destruct line; cbn in E; [done | lia].
  - by destruct (split line [9]) as [|k [|v l]]; cbn in Hl; [| | lia].
Qed.

Example loadLines_malformed_witness :
  loadLines 10000 0 [bs "1.2.3.4"; bs "x"] ∅ = Fault VectorIndex.
Proof. apply loadLines_malformed; vm_compute; (done || lia). Defined.

(** With a positive limit [maxDb] one file contributes at most
    [maxDb + 1] new keys: the limit is tested after the insertion. *)
Theorem loadLines_limit maxDb lines m m' :
  0 < maxDb -> loadLines maxDb 0 lines m = Ok m' ->
  Z.of_nat (size m') <= Z.of_nat (size m) + maxDb + 1.
Proof.
  intros Hpos.
  enough (forall num, 0 <= num <= maxDb -> forall m0, loadLines maxDb num lines m0 = Ok m' ->
            Z.of_nat (size m') <= Z.of_nat (size m0) + (maxDb - num) + 1) as H
    by (intros E; specialize (H 0 ltac:(lia) m E); lia).
  induction lines as [|line lines IH]; intros num Hnum m0 E; cbn [loadLines] in E.
  - injection E as <-. lia.
  - destruct (_ || _ || _); [by apply IH |].
    destruct (split line [9]) as [|k [|v l]]; [done | done |].
    assert (Z.of_nat (size (<[k:=v]> m0)) <= Z.of_nat (size m0) + 1) as Hs.
    { rewrite map_size_insert. destruct (m0 !! k); cbn; lia. }
    destruct (maxDb =? 0) eqn:E0; breflect; [lia |]. cbn [negb] in E.
    destruct (maxDb <? num + 1) eqn:E1; breflect.
    + injection E as <-. lia.
    + apply IH in E; lia.
Qed.

Example loadLines_limit_witness :
  (Z.of_nat (size (default (∅ : DbMap)
    (match loadLines 1 0 [bs "a	1"; bs "b	1"; bs "c	1"] ∅ with
     | Ok m => Some m | Fault _ => None end))) <= Z.of_nat (size (∅ : DbMap)) + 1 + 1).
Proof.
  apply (loadLines_limit 1 [bs "a	1"; bs "b	1"; bs "c	1"] ∅); [lia |].
  by vm_compute.
Defined.

Lemma fillIp4_lookup inet_aton addr entries m ip :
  Forall (fun e => is_Some (inet_aton e.1)) entries ->
  is_Some (fillIp4 inet_aton addr entries m !! ip) <->
  is_Some (m !! ip) \/ Exists (fun e : bytes * bytes => inet_aton e.1 = Some ip) entries.
Proof.
  intros H. revert addr m. induction H as [|[k v] l [a Ha] Hl IH]; intros addr m; cbn [fillIp4].
  - rewrite Exists_nil. tauto.
  - cbn in Ha. rewrite Ha, IH, Exists_cons. cbn. rewrite Ha.
    rewrite lookup_insert. case_decide as Hc.
    + subst. split; [auto |]. intros _. left. by eexists.
    + split; [naive_solver |]. intros [? | [[= ->] | ?]]; [auto | done | auto].
Qed.

(** When every key of the IPv4 database is an address [inet_aton]
    accepts, the address query after [start] answers exactly the listed
    addresses, whatever the iteration order of the hash map. *)
Theorem isIpv4Hit_listed readFile inet_aton addr0 order cfg db ip :
  (forall m, order m ≡ₚ map_to_list m) ->
  start readFile inet_aton addr0 order cfg newCDBManager = Ok db ->
  map_Forall (fun k _ => is_Some (inet_aton k)) (m_ipv4Map db) ->
  isIpv4Hit db ip = true <->
  exists k v, m_ipv4Map db !! k = Some v /\ inet_aton k = Some ip.
Proof.
  intros Ho Hs Hall. unfold start in Hs. bind_inv Hs. cbn in *.
  unfold isIpv4Hit. rewrite bool_decide_eq_true. cbn.
  rewrite fillIp4_lookup, lookup_empty, is_Some_alt by
    (rewrite Ho; apply list.Forall_forall; intros [k v] Hk%elem_of_map_to_list; by eapply Hall).
  rewrite list.Exists_exists. setoid_rewrite Ho. split.
  - intros [[] | ([k v] & Hin%elem_of_map_to_list & Hk)]. eauto.
  - intros (k & v & Hk & Hi). right. exists (k, v).
    split; [by apply elem_of_map_to_list | done].
Qed.

Example isIpv4Hit_listed_witness :
  let aton k := if bytes_eqb k (bs "1.2.3.4") then Some 67305985 else None in
  let read f := if bytes_eqb f (bs "/usr/local/killer/db/2_ipv4.txt")
                then bs "1.2.3.4	1" else [] in
  exists db, start read aton 0 map_to_list setDefault newCDBManager = Ok db /\
    isIpv4Hit db 67305985 = true.
Proof.
  cbn zeta.
  exists (mkDb {[bs "1.2.3.4" := bs "1"]} ∅ ∅ {[67305985 := bs "1"]}).
  split; [vm_compute; reflexivity |].
  eapply isIpv4Hit_listed with (order := map_to_list)
    (readFile := fun f => if bytes_eqb f (bs "/usr/local/killer/db/2_ipv4.txt")
                          then bs "1.2.3.4	1" else [])
    (inet_aton := fun k => if bytes_eqb k (bs "1.2.3.4") then Some 67305985 else None)
    (addr0 := 0) (cfg := setDefault).
  - done.
  - vm_compute; reflexivity.
  - intros k v Hk. cbn [m_ipv4Map] in Hk. apply lookup_singleton_Some in Hk. destruct Hk as [<- _]. by eexists.
  - exists (bs "1.2.3.4"), (bs "1"). split; vm_compute; reflexivity.
Defined.

(** An entry [inet_aton] rejects is not skipped: it registers whatever
    [addr] held before, the indeterminate initial value for the first one. *)
Theorem fillIp4_rejected_entry inet_aton addr k v m :
  inet_aton k = None -> fillIp4 inet_aton addr [(k, v)] m = <[addr := v]> m.
Proof. intros H. cbn. by rewrite H. Qed.

Example fillIp4_rejected_entry_witness :
  fillIp4 (fun _ => None) 7 [(bs "x", bs "1")] ∅ = {[7 := bs "1"]}.
Proof. by apply (fillIp4_rejected_entry (fun _ => None) 7 (bs "x") (bs "1") ∅). Defined.
