(* ===== verification/Session.v ===== *)
(** * The session data model: CHttpInfo, CMailInfo, CHttpTxnDecoder,
      CSmtpTxnDecoder and CTcpSession

    A session owns its two reassembly buffers and both protocol decoders.
    The HTTP parser library is outside the repository: [HttpParserLib] is its
    interface, an abstract parser state and the sequence of callbacks an
    execution makes. *)
From Stdlib Require Import ZArith Lia.
From stdpp Require Import base gmap list strings numbers.
From S2P Require Import Prelude IpAddress SegBuf Config.

Local Open Scope Z_scope.

(** ** CHttpInfo and its subclasses *)

Definition UNKNOWN_CONTENT_TYPE : bytes := bs "UnknownType".

Record CHttpInfo := mkInfo {
  m_currentField : bytes;
  m_currentValue : bytes;
  m_headerMap : gmap bytes bytes;
  m_body : bytes;
  m_contentLength : Z;
  m_contentEncoding : bytes;
  m_contentType : bytes
}.

(** [CHttpInfo::CHttpInfo] *)
Definition newCHttpInfo : CHttpInfo :=
  mkInfo [] [] ∅ [] 0 [] UNKNOWN_CONTENT_TYPE.

(** [insertField]: ignored while a field is pending *)
Definition insertField (buf : bytes) (i : CHttpInfo) : CHttpInfo :=
  if (length (m_currentField i) =? 0)%nat then
    mkInfo (m_currentField i ++ buf) (m_currentValue i) (m_headerMap i) (m_body i)
      (m_contentLength i) (m_contentEncoding i) (m_contentType i)
  else i.

(** [insertValue]: stores the pair and clears the pending field *)
Definition insertValue (buf : bytes) (i : CHttpInfo) : CHttpInfo :=
  if (length (m_currentField i) =? 0)%nat then i
  else
    let v := m_currentValue i ++ buf in
    mkInfo [] [] (<[m_currentField i := v]> (m_headerMap i)) (m_body i)
      (m_contentLength i) (m_contentEncoding i)
      (match str_find (bs "Content-Type") (m_currentField i) with
       | Some _ => v
       | None => m_contentType i
       end).

(** [setBody] appends *)
Definition setBody (buf : bytes) (i : CHttpInfo) : CHttpInfo :=
  mkInfo (m_currentField i) (m_currentValue i) (m_headerMap i) (m_body i ++ buf)
    (m_contentLength i) (m_contentEncoding i) (m_contentType i).

(** [clearCurrentBuf] *)
Definition clearCurrentBuf (i : CHttpInfo) : CHttpInfo :=
  mkInfo [] [] (m_headerMap i) (m_body i)
    (m_contentLength i) (m_contentEncoding i) (m_contentType i).

(** [CHttpInfo::isContentTypeCared] *)
Definition isContentTypeCared (cfg : CConfig) (i : CHttpInfo) : bool :=
  if bytes_eqb (m_contentType i) UNKNOWN_CONTENT_TYPE then true
  else existsb (fun ct => bool_decide (is_Some (str_find ct (m_contentType i))))
               (elements (m_caredContentTypes cfg)).

Record CRequestHttpInfo := mkRequest {
  rq_info : CHttpInfo;
  rq_url : bytes;
  rq_method : Z
}.
Definition newCRequestHttpInfo : CRequestHttpInfo := mkRequest newCHttpInfo [] 0.
Definition rq_update (f : CHttpInfo -> CHttpInfo) (r : CRequestHttpInfo) : CRequestHttpInfo :=
  mkRequest (f (rq_info r)) (rq_url r) (rq_method r).
(** [setUrl] appends *)
Definition setUrl (buf : bytes) (r : CRequestHttpInfo) : CRequestHttpInfo :=
  mkRequest (rq_info r) (rq_url r ++ buf) (rq_method r).
Definition setMethod (m : Z) (r : CRequestHttpInfo) : CRequestHttpInfo :=
  mkRequest (rq_info r) (rq_url r) m.

Record CResponseHttpInfo := mkResponse {
  rs_info : CHttpInfo;
  rs_status : Z;
  rs_descreption : bytes
}.
Definition newCResponseHttpInfo : CResponseHttpInfo := mkResponse newCHttpInfo 0 [].
Definition rs_update (f : CHttpInfo -> CHttpInfo) (r : CResponseHttpInfo) : CResponseHttpInfo :=
  mkResponse (f (rs_info r)) (rs_status r) (rs_descreption r).
Definition setStatus (s : Z) (r : CResponseHttpInfo) : CResponseHttpInfo :=
  mkResponse (rs_info r) s (rs_descreption r).

(** ** CMailInfo *)

Record CMailText := mkMailText {
  tx_mainType : bytes;
  tx_subType : bytes;
  tx_content : bytes;
  tx_embeddedObjects : list bytes
}.

Record CAttachment := mkAttachment {
  at_mainType : bytes;
  at_subType : bytes;
  at_name : bytes;
  at_description : bytes;
  at_content : bytes
}.

(** [CAttachment::isContentTypeCared] *)
Definition attachmentCared (cfg : CConfig) (a : CAttachment) : bool :=
  if (length (at_mainType a) =? 0)%nat || (length (at_subType a) =? 0)%nat then true
  else existsb (fun ct => bool_decide (is_Some (str_find ct (at_mainType a))) ||
                          bool_decide (is_Some (str_find ct (at_subType a))))
               (elements (m_caredContentTypes cfg)).

Record CMailInfo := mkMailInfo {
  m_mimeMap : gmap bytes bytes;
  m_text : CMailText;
  m_attachments : list CAttachment
}.

(** ** The HTTP parser library *)

Inductive http_parser_type := HTTP_REQUEST | HTTP_RESPONSE.

#[global] Instance http_parser_type_eq_dec : EqDecision http_parser_type.
Proof. solve_decision. Defined.

(** the public parser fields a callback reads *)
Record hp_view := mkView { hp_state : Z; hp_method : Z; hp_status_code : Z }.

Inductive http_event :=
  | EvMessageBegin
  | EvUrl (buf : bytes)
  | EvStatus (buf : bytes)
  | EvHeaderField (buf : bytes)
  | EvHeaderValue (buf : bytes)
  | EvHeadersComplete
  | EvBody (buf : bytes)
  | EvMessageComplete.

(** [http_parser_execute] makes a sequence of callbacks, each seeing the
    parser fields of that moment, and returns the next parser state; the
    callbacks of the program always return 0 and never write to the parser,
    so the sequence depends on the parser state and the input only. *)
Class HttpParserLib := {
  http_parser : Type;
  http_parser_init : http_parser_type -> http_parser;
  http_parser_execute : http_parser -> bytes -> list (hp_view * http_event) * http_parser;
  HTTP_PARSER_ERRNO : http_parser -> Z
}.

(** ** CHttpTxnDecoder, CSmtpTxnDecoder and CTcpSession *)

Inductive tcp_sm :=
  | TCP_SM_INIT
  | TCP_SM_HANDSHAKE
  | TCP_SM_CLIENT_SENDING
  | TCP_SM_SERVER_SENDING
  | TCP_SM_CLIENT_FINISHED
  | TCP_SM_SERVER_FINISHED
  | TCP_SM_CLOSED.

#[global] Instance tcp_sm_eq_dec : EqDecision tcp_sm.
Proof. solve_decision. Defined.

Inductive direction := DIRECTION_TO_SERVER | DIRECTION_TO_CLIENT.

#[global] Instance direction_eq_dec : EqDecision direction.
Proof. solve_decision. Defined.

Inductive protocol := PROTOCOL_UNKNOWN | PROTOCOL_HTTP | PROTOCOL_SMTP.

#[global] Instance protocol_eq_dec : EqDecision protocol.
Proof. solve_decision. Defined.

Section Types.
Context `{HttpParserLib}.

Record CHttpTxnDecoder := mkHttpDecoder {
  m_parserType : http_parser_type;
  m_parser : option http_parser;      (* [None]: malloc'ed, not initialised *)
  m_requestVector : list CRequestHttpInfo;
  m_responseVector : list CResponseHttpInfo;
  m_url : bytes;
  m_hostField : bytes;
  m_hostValue : bytes;
  m_activeMethod : Z
}.

(** [CHttpTxnDecoder::CHttpTxnDecoder(sess)] *)
Definition newCHttpTxnDecoder : CHttpTxnDecoder :=
  mkHttpDecoder HTTP_REQUEST None [] [] [] [] [] 0.

Record CSmtpTxnDecoder := mkSmtpDecoder {
  m_mailInfoVector : list CMailInfo;
  m_mailDataVector : list bytes
}.

(** [m_continuousSeg[2]] is the pair of fields [segServer] (towards the
    server) and [segClient]. *)
Record CTcpSession := mkSession {
  m_sessId : CTcpSessionId;
  m_tcpTxnId : Z;
  m_tcpState : tcp_sm;
  m_activeFlg : bool;
  m_protocol : protocol;
  m_httpDecoder : CHttpTxnDecoder;
  m_smtpDecoder : CSmtpTxnDecoder;
  m_lastUpdateTime : Z;
  m_shouldBlock : bool;
  segServer : CTcpSegBuf;
  segClient : CTcpSegBuf
}.

(** [CTcpSession::CTcpSession(sessId)]; the number and the time are
    assigned by the creator before they are read. *)
Definition newCTcpSession (cfg : CConfig) (sessId : CTcpSessionId) : CTcpSession := {|
  m_sessId := sessId;
  m_tcpTxnId := 0;
  m_tcpState := TCP_SM_HANDSHAKE;
  m_activeFlg := true;
  m_protocol :=
    if bool_decide (id_dstPort sessId ∈ m_httpPorts cfg) then PROTOCOL_HTTP
    else if bool_decide (id_dstPort sessId ∈ m_smtpPorts cfg) then PROTOCOL_SMTP
    else PROTOCOL_UNKNOWN;
  m_httpDecoder := newCHttpTxnDecoder;
  m_smtpDecoder := mkSmtpDecoder [] [];
  m_lastUpdateTime := 0;
  m_shouldBlock := false;
  segServer := newCTcpSegBuf;
  segClient := newCTcpSegBuf
|}.

(** *** Accessors *)

Definition isClosed (s : CTcpSession) : bool := bool_decide (m_tcpState s = TCP_SM_CLOSED).

Definition getContinuousBuf (dir : direction) (s : CTcpSession) : CTcpSegBuf :=
  match dir with DIRECTION_TO_SERVER => segServer s | DIRECTION_TO_CLIENT => segClient s end.

Definition setContinuousBuf (dir : direction) (b : CTcpSegBuf) (s : CTcpSession) : CTcpSession :=
  match dir with
  | DIRECTION_TO_SERVER =>
    mkSession (m_sessId s) (m_tcpTxnId s) (m_tcpState s) (m_activeFlg s) (m_protocol s)
      (m_httpDecoder s) (m_smtpDecoder s) (m_lastUpdateTime s) (m_shouldBlock s) b (segClient s)
  | DIRECTION_TO_CLIENT =>
    mkSession (m_sessId s) (m_tcpTxnId s) (m_tcpState s) (m_activeFlg s) (m_protocol s)
      (m_httpDecoder s) (m_smtpDecoder s) (m_lastUpdateTime s) (m_shouldBlock s) (segServer s) b
  end.

Definition setNum (n : Z) (s : CTcpSession) : CTcpSession :=
  mkSession (m_sessId s) n (m_tcpState s) (m_activeFlg s) (m_protocol s)
    (m_httpDecoder s) (m_smtpDecoder s) (m_lastUpdateTime s) (m_shouldBlock s)
    (segServer s) (segClient s).

Definition setTcpState (st : tcp_sm) (s : CTcpSession) : CTcpSession :=
  mkSession (m_sessId s) (m_tcpTxnId s) st (m_activeFlg s) (m_protocol s)
    (m_httpDecoder s) (m_smtpDecoder s) (m_lastUpdateTime s) (m_shouldBlock s)
    (segServer s) (segClient s).

Definition setActiveFlg (f : bool) (s : CTcpSession) : CTcpSession :=
  mkSession (m_sessId s) (m_tcpTxnId s) (m_tcpState s) f (m_protocol s)
    (m_httpDecoder s) (m_smtpDecoder s) (m_lastUpdateTime s) (m_shouldBlock s)
    (segServer s) (segClient s).

Definition setBlockFlg (f : bool) (s : CTcpSession) : CTcpSession :=
  mkSession (m_sessId s) (m_tcpTxnId s) (m_tcpState s) (m_activeFlg s) (m_protocol s)
    (m_httpDecoder s) (m_smtpDecoder s) (m_lastUpdateTime s) f
    (segServer s) (segClient s).

Definition setLastUpdateTime (t : Z) (s : CTcpSession) : CTcpSession :=
  mkSession (m_sessId s) (m_tcpTxnId s) (m_tcpState s) (m_activeFlg s) (m_protocol s)
    (m_httpDecoder s) (m_smtpDecoder s) t (m_shouldBlock s)
    (segServer s) (segClient s).

Definition setHttpDecoder (d : CHttpTxnDecoder) (s : CTcpSession) : CTcpSession :=
  mkSession (m_sessId s) (m_tcpTxnId s) (m_tcpState s) (m_activeFlg s) (m_protocol s)
    d (m_smtpDecoder s) (m_lastUpdateTime s) (m_shouldBlock s)
    (segServer s) (segClient s).

Definition setSmtpDecoder (d : CSmtpTxnDecoder) (s : CTcpSession) : CTcpSession :=
  mkSession (m_sessId s) (m_tcpTxnId s) (m_tcpState s) (m_activeFlg s) (m_protocol s)
    (m_httpDecoder s) d (m_lastUpdateTime s) (m_shouldBlock s)
    (segServer s) (segClient s).

End Types.

(** ** Header storage *)

(** A header delivered by the parser in one piece is stored: after
    [insertField] and [insertValue] on an idle object the map holds the
    value, no field is pending, and the content type follows a field name
    that contains "Content-Type". *)
Theorem header_stored i f v :
  m_currentField i = [] -> m_currentValue i = [] -> f <> [] ->
  let i' := insertValue v (insertField f i) in
  m_headerMap i' = <[f := v]> (m_headerMap i) /\
  m_currentField i' = [] /\ m_currentValue i' = [] /\ m_body i' = m_body i /\
  m_contentType i' = (match str_find (bs "Content-Type") f with
                      | Some _ => v | None => m_contentType i end).
Proof.
  intros Hf Hv Hne. unfold insertField. rewrite Hf. cbn [length Nat.eqb app].
  unfold insertValue; cbn [m_currentField m_currentValue]. rewrite Hv.
  destruct f as [|c f]; [done |]. by cbn [length Nat.eqb].
Qed.

Example header_stored_witness :
  m_contentType (insertValue (bs "text/html") (insertField (bs "Content-Type") newCHttpInfo))
  = bs "text/html".
Proof.
  destruct (header_stored newCHttpInfo (bs "Content-Type") (bs "text/html"))
    as (_ & _ & _ & _ & H); [done | done | done |]. exact H.
Defined.
