(* ===== verification/HttpDecoder.v ===== *)
(** * CHttpTxnDecoder: parser callbacks and HTTP decoding

    Active mode decodes each client segment as it arrives and asks the
    database for a verdict on the URL; inactive mode decodes both directions
    of a posted session at once and collects requests and responses. *)
From Stdlib Require Import ZArith Lia.
From stdpp Require Import base gmap list strings numbers.
From S2P Require Import Prelude IpAddress SegBuf Config DbManager Session.

Local Open Scope Z_scope.

Section HttpDecoder.
Context `{HttpParserLib} (db : CDBManager).

(** [v.back()->f(...)] on a vector: undefined on an empty one *)
Definition update_back {A} (f : A -> A) (l : list A) : result (list A) :=
  match reverse l with
  | [] => Fault VectorIndex
  | x :: r => Ok (reverse r ++ [f x])
  end.

(** the same, guarded by [!v.empty()] *)
Definition update_back_guarded {A} (f : A -> A) (l : list A) : list A :=
  match reverse l with [] => l | x :: r => reverse r ++ [f x] end.

Definition with_requests (l : list CRequestHttpInfo) (d : CHttpTxnDecoder) : CHttpTxnDecoder :=
  mkHttpDecoder (m_parserType d) (m_parser d) l (m_responseVector d)
    (m_url d) (m_hostField d) (m_hostValue d) (m_activeMethod d).
Definition with_responses (l : list CResponseHttpInfo) (d : CHttpTxnDecoder) : CHttpTxnDecoder :=
  mkHttpDecoder (m_parserType d) (m_parser d) (m_requestVector d) l
    (m_url d) (m_hostField d) (m_hostValue d) (m_activeMethod d).
Definition with_url (u : bytes) (d : CHttpTxnDecoder) : CHttpTxnDecoder :=
  mkHttpDecoder (m_parserType d) (m_parser d) (m_requestVector d) (m_responseVector d)
    u (m_hostField d) (m_hostValue d) (m_activeMethod d).
Definition with_hostField (f : bytes) (d : CHttpTxnDecoder) : CHttpTxnDecoder :=
  mkHttpDecoder (m_parserType d) (m_parser d) (m_requestVector d) (m_responseVector d)
    (m_url d) f (m_hostValue d) (m_activeMethod d).
Definition with_hostValue (v : bytes) (d : CHttpTxnDecoder) : CHttpTxnDecoder :=
  mkHttpDecoder (m_parserType d) (m_parser d) (m_requestVector d) (m_responseVector d)
    (m_url d) (m_hostField d) v (m_activeMethod d).
Definition with_activeMethod (m : Z) (d : CHttpTxnDecoder) : CHttpTxnDecoder :=
  mkHttpDecoder (m_parserType d) (m_parser d) (m_requestVector d) (m_responseVector d)
    (m_url d) (m_hostField d) (m_hostValue d) m.
Definition with_parser (t : http_parser_type) (p : option http_parser) (d : CHttpTxnDecoder)
  : CHttpTxnDecoder :=
  mkHttpDecoder t p (m_requestVector d) (m_responseVector d)
    (m_url d) (m_hostField d) (m_hostValue d) (m_activeMethod d).

Definition on_decoder (f : CHttpTxnDecoder -> CHttpTxnDecoder) (s : CTcpSession) : CTcpSession :=
  setHttpDecoder (f (m_httpDecoder s)) s.

(** applies [f] to the current message of the direction being parsed, as the
    [else] branches of the callbacks do *)
Definition on_message (fq : CRequestHttpInfo -> CRequestHttpInfo)
    (fs : CResponseHttpInfo -> CResponseHttpInfo) (s : CTcpSession) : CTcpSession :=
  on_decoder (fun d =>
    match m_parserType d with
    | HTTP_REQUEST => with_requests (update_back_guarded fq (m_requestVector d)) d
    | HTTP_RESPONSE => with_responses (update_back_guarded fs (m_responseVector d)) d
    end) s.

(** ** The callbacks *)

Definition messageBeginCb (s : CTcpSession) : CTcpSession :=
  if m_activeFlg s then s
  else on_decoder (fun d =>
    match m_parserType d with
    | HTTP_REQUEST => with_requests (m_requestVector d ++ [newCRequestHttpInfo]) d
    | HTTP_RESPONSE => with_responses (m_responseVector d ++ [newCResponseHttpInfo]) d
    end) s.

(** 32 is [s_req_http_start]: the URL is complete. *)
Definition requestUrlCb (p : hp_view) (buf : bytes) (s : CTcpSession) : result CTcpSession :=
  let d := m_httpDecoder s in
  if m_activeFlg s then
    let d1 := with_url (m_url d ++ buf) d in
    Ok (setHttpDecoder (if hp_state p =? 32 then with_activeMethod (hp_method p) d1 else d1) s)
  else
    v ← update_back (setUrl buf) (m_requestVector d);
    Ok (setHttpDecoder (with_requests v d) s).

Definition responseStatusCb (p : hp_view) (buf : bytes) (s : CTcpSession) : CTcpSession := s.

(** 44 is [s_header_value_discard_ws]: the field name is complete. *)
Definition headerFieldCb (p : hp_view) (buf : bytes) (s : CTcpSession) : CTcpSession :=
  if m_activeFlg s then
    on_decoder (fun d =>
      let f := m_hostField d ++ buf in
      if hp_state p =? 44 then
        let f' := tolower <$> f in
        with_hostField (if bytes_eqb f' (bs "host") then f' else []) d
      else with_hostField f d) s
  else on_message (rq_update (insertField buf)) (rs_update (insertField buf)) s.

(** [url.find("://") + 3], with [npos + 3] wrapping to 2 *)
Definition after_scheme (url : bytes) : nat :=
  match str_find (bs "://") url with Some pos => (pos + 3)%nat | None => 2%nat end.

(** the protocol and path of [m_url] when the Host value is complete *)
Definition url_prot (url : bytes) : bytes :=
  match str_find (bs "://") url with Some pos => take pos url | None => bs "http" end.

Definition url_path (url : bytes) : result bytes :=
  if negb (str_at url 0 =? 47) then
    tmp ← str_substr_from url (after_scheme url);
    Ok (match str_find (bs "/") tmp with
        | Some p => drop p tmp
        | None => bs "/"
        end)
  else Ok url.

(** 50 is [s_header_almost_done]: the value is complete. *)
Definition headerValueCb (p : hp_view) (buf : bytes) (s : CTcpSession) : result CTcpSession :=
  if m_activeFlg s then
    let d := m_httpDecoder s in
    if bytes_eqb (m_hostField d) (bs "host") then
      let hostV := m_hostValue d ++ buf in
      let s1 := setHttpDecoder (with_hostValue hostV d) s in
      if hp_state p =? 50 then
        path ← url_path (m_url d);
        Ok (setBlockFlg (isUrlHit db (url_prot (m_url d)) hostV path) s1)
      else Ok s1
    else Ok s
  else Ok (on_message (rq_update (insertValue buf)) (rs_update (insertValue buf)) s).

Definition headersCompleteCb (s : CTcpSession) : CTcpSession :=
  if m_activeFlg s then
    let d := m_httpDecoder s in
    let s1 :=
      if (length (m_hostValue d) =? 0)%nat then
        match str_find (bs "://") (m_url d) with
        | Some hostPos =>
          let prot := take hostPos (m_url d) in
          let host := drop (hostPos + 3) (m_url d) in
          let pathPos := str_find (bs "/") host in
          let path := match pathPos with Some i => drop i host | None => bs "/" end in
          let host' := match pathPos with Some i => take i host | None => host end in
          setBlockFlg (isUrlHit db prot host' path) s
        | None => s
        end
      else s in
    on_decoder (fun d => with_url [] (with_hostValue [] (with_hostField [] d))) s1
  else s.

Definition body_cb (buf : bytes) (s : CTcpSession) : CTcpSession :=
  if m_activeFlg s then s
  else on_message (rq_update (setBody buf)) (rs_update (setBody buf)) s.

Definition messageCompleteCb (p : hp_view) (s : CTcpSession) : CTcpSession :=
  if m_activeFlg s then s
  else on_message (setMethod (hp_method p)) (setStatus (hp_status_code p)) s.

(** the dispatch through [settings] *)
Definition callback (p : hp_view) (e : http_event) (s : CTcpSession) : result CTcpSession :=
  match e with
  | EvMessageBegin => Ok (messageBeginCb s)
  | EvUrl buf => requestUrlCb p buf s
  | EvStatus buf => Ok (responseStatusCb p buf s)
  | EvHeaderField buf => Ok (headerFieldCb p buf s)
  | EvHeaderValue buf => headerValueCb p buf s
  | EvHeadersComplete => Ok (headersCompleteCb s)
  | EvBody buf => Ok (body_cb buf s)
  | EvMessageComplete => Ok (messageCompleteCb p s)
  end.

Fixpoint callbacks (evs : list (hp_view * http_event)) (s : CTcpSession) : result CTcpSession :=
  match evs with
  | [] => Ok s
  | (p, e) :: evs' => s' ← callback p e s; callbacks evs' s'
  end.

(** ** Decoding *)

(** [parserInit(type)] *)
Definition parserInit (t : http_parser_type) (s : CTcpSession) : CTcpSession :=
  on_decoder (with_parser t (Some (http_parser_init t))) s.

(** [parserExecute(buf, len)]: [true] unless the parser reports an error *)
Definition parserExecute (buf : bytes) (s : CTcpSession) : result (bool * CTcpSession) :=
  match m_parser (m_httpDecoder s) with
  | None => Fault UninitRead
  | Some p =>
    let '(evs, p') := http_parser_execute p buf in
    s1 ← callbacks evs s;
    let s2 := on_decoder (fun d => with_parser (m_parserType d) (Some p') d) s1 in
    Ok (HTTP_PARSER_ERRNO p' =? 0, s2)
  end.

Definition type_direction (t : http_parser_type) : direction :=
  match t with HTTP_REQUEST => DIRECTION_TO_SERVER | HTTP_RESPONSE => DIRECTION_TO_CLIENT end.

(** [decodeHttpActive(type)] *)
Definition decodeHttpActive (t : http_parser_type) (s : CTcpSession) : result (bool * CTcpSession) :=
  let dir := type_direction t in
  r ← dumpUnusedData (getContinuousBuf dir s);
  let '(buf, seg) := r in
  x ← parserExecute buf (setContinuousBuf dir seg s);
  let '(ok, s1) := x in
  if ok : bool then Ok (true, s1)
  else
    let s2 := parserInit t s1 in
    Ok (false, setContinuousBuf dir (setUsedPos 0 (getContinuousBuf dir s2)) s2).

(** [decodeHttpInactive(type)] *)
Definition decodeHttpInactive (t : http_parser_type) (s : CTcpSession) : result (bool * CTcpSession) :=
  parserExecute (getBuf (getContinuousBuf (type_direction t) s)) s.

(** [decodeHttp(type)] *)
Definition decodeHttp_type (t : http_parser_type) (s : CTcpSession) : result (bool * CTcpSession) :=
  if m_activeFlg s then decodeHttpActive t s else decodeHttpInactive t s.

(** [decodeHttp()]: both directions of a posted session *)
Definition decodeHttp (s : CTcpSession) : result (bool * CTcpSession) :=
  if m_activeFlg s then Ok (false, s)
  else
    r1 ← decodeHttp_type HTTP_REQUEST (parserInit HTTP_REQUEST s);
    r2 ← decodeHttp_type HTTP_RESPONSE (parserInit HTTP_RESPONSE r1.2);
    Ok (true, r2.2).

(** ** Active mode: the verdict on a request *)

Lemma callbacks_app e1 e2 s :
  callbacks (e1 ++ e2) s = (s' ← callbacks e1 s; callbacks e2 s').
Proof.
  revert s. induction e1 as [|[p e] e1 IH]; intros s; [done |].
  cbn [app callbacks]. destruct (callback p e s); [apply IH | done].
Qed.

(** what active decoding knows of the request head: URL, pending field name,
    Host value and block flag *)
Definition head_state (u hf hv : bytes) (blk : bool) (s : CTcpSession) : Prop :=
  m_activeFlg s = true /\ m_url (m_httpDecoder s) = u /\
  m_hostField (m_httpDecoder s) = hf /\ m_hostValue (m_httpDecoder s) = hv /\
  m_shouldBlock s = blk.

(** the text of a URL, field name or value may arrive in several pieces *)
Abbreviation pieces := (list (hp_view * bytes)).
Definition text (l : pieces) : bytes := concat (snd <$> l).
Definition events (ev : bytes -> http_event) (l : pieces) : list (hp_view * http_event) :=
  (fun c => (c.1, ev c.2)) <$> l.

(** Only the last piece carries the parser state [st]. *)
Inductive last_state (st : Z) : pieces -> Prop :=
  | last_state_one p b : hp_state p = st -> last_state st [(p, b)]
  | last_state_cons p b l : hp_state p <> st -> last_state st l -> last_state st ((p, b) :: l).

Lemma url_events us u hf hv blk s :
  head_state u hf hv blk s ->
  exists s', callbacks (events EvUrl us) s = Ok s' /\ head_state (u ++ text us) hf hv blk s'.
Proof.
  revert u s. induction us as [|[p b] us IH]; intros u s (Ha & Hu & Hf & Hv & Hb).
  - exists s. unfold text; cbn. rewrite app_nil_r. by repeat split.
  - cbn [events fmap list_fmap callbacks callback fst snd]. unfold requestUrlCb.
    rewrite Ha. cbn [mbind result_bind].
    edestruct (IH (u ++ b)) as (s' & E & Hs'); cycle 1.
    + exists s'. split; [exact E |]. unfold text in *. cbn. by rewrite app_assoc.
    + destruct (hp_state p =? 32); repeat split; cbn; congruence.
Qed.

Lemma field_events fs u hf hv blk s :
  last_state 44 fs -> head_state u hf hv blk s ->
  exists s', callbacks (events EvHeaderField fs) s = Ok s' /\
    head_state u (let f := tolower <$> (hf ++ text fs) in
                  if bytes_eqb f (bs "host") then f else []) hv blk s'.
Proof.
  intros Hl. revert hf s. induction Hl as [p b Hp | p b l Hp Hl IH];
    intros hf s (Ha & Hu & Hf & Hv & Hb);
    cbn [events fmap list_fmap callbacks callback fst snd]; unfold headerFieldCb; rewrite Ha.
  - eexists; split; [done |]. unfold text; cbn [fmap list_fmap concat snd].
    rewrite app_nil_r, Hp. cbn [Z.eqb Pos.eqb]. by repeat split; cbn; rewrite ?Hf.
  - destruct (hp_state p =? 44) eqn:E; breflect; [done |]. cbn [mbind result_bind].
    destruct (IH (hf ++ b)%list (on_decoder (fun d => with_hostField (m_hostField d ++ b) d) s))
      as (s' & E' & Hs').
    + repeat split; cbn; congruence.
    + exists s'. split; [exact E' |]. unfold text in *. cbn [fmap list_fmap concat snd].
      by rewrite app_assoc.
Qed.

Lemma other_value_events vs u hf hv blk s :
  hf <> bs "host" -> head_state u hf hv blk s ->
  callbacks (events EvHeaderValue vs) s = Ok s.
Proof.
  intros Hne (Ha & Hu & Hf & Hv & Hb). induction vs as [|[p b] vs IH]; [done |].
  cbn [events fmap list_fmap callbacks callback fst snd]. unfold headerValueCb.
  rewrite Ha. destruct (bytes_eqb _ _) eqn:E.
  - apply bytes_eqb_eq in E. congruence.
  - exact IH.
Qed.

Lemma host_value_events vs u hv blk path s :
  last_state 50 vs -> head_state u (bs "host") hv blk s -> url_path u = Ok path ->
  exists s', callbacks (events EvHeaderValue vs) s = Ok s' /\
    head_state u (bs "host") (hv ++ text vs)
      (isUrlHit db (url_prot u) (hv ++ text vs) path) s'.
Proof.
  intros Hl Hs Hp. revert hv s Hs. induction Hl as [p b Hst | p b l Hst Hl IH];
    intros hv s (Ha & Hu & Hf & Hv & Hb);
    cbn [events fmap list_fmap callbacks callback fst snd]; unfold headerValueCb;
    rewrite Ha, Hf, bytes_eqb_refl.
  - rewrite Hst. cbn [Z.eqb Pos.eqb]. rewrite Hu, Hp. cbn [mbind result_bind].
    eexists; split; [done |]. unfold text; cbn [fmap list_fmap concat snd].
    rewrite app_nil_r, Hv. by repeat split.
  - destruct (hp_state p =? 50) eqn:E; breflect; [done |]. cbn [mbind result_bind].
    destruct (IH (hv ++ b)%list (setHttpDecoder (with_hostValue
                (m_hostValue (m_httpDecoder s) ++ b) (m_httpDecoder s)) s)) as (s' & E' & Hs').
    + repeat split; cbn; congruence.
    + exists s'. split; [exact E' |]. unfold text in *. cbn [fmap list_fmap concat snd].
      by rewrite app_assoc.
Qed.

(** one header line: the pieces of its name and of its value *)
Abbreviation header := (pieces * pieces)%type.

Definition header_events (h : header) : list (hp_view * http_event) :=
  events EvHeaderField h.1 ++ events EvHeaderValue h.2.

Definition header_complete (h : header) : Prop :=
  last_state 44 h.1 /\ last_state 50 h.2 /\ text h.1 <> [].

Definition is_host (h : header) : Prop := tolower <$> text h.1 = bs "host".

Lemma other_header_events h u hf hv blk s :
  header_complete h -> ~ is_host h -> hf = [] \/ hf = bs "host" ->
  head_state u hf hv blk s ->
  exists s', callbacks (header_events h) s = Ok s' /\ head_state u [] hv blk s'.
Proof.
  intros (Hn & Hv & Hne) Hh Hf Hs. unfold header_events. rewrite callbacks_app.
  destruct (field_events h.1 u hf hv blk s Hn Hs) as (s1 & -> & Hs1). cbn [mbind result_bind].
  assert ((let f := tolower <$> (hf ++ text h.1) in
           if bytes_eqb f (bs "host") then f else []) = []) as Hc.
  { cbn zeta. destruct (bytes_eqb _ _) eqn:E; [| done]. apply bytes_eqb_eq in E.
    destruct Hf as [-> | ->]; [done |]. exfalso. apply (f_equal length) in E.
    rewrite length_fmap, length_app in E. change (length (bs "host")) with 4%nat in E.
    destruct (text h.1) eqn:T; [done |]. cbn in E. lia. }
  rewrite Hc in Hs1. exists s1. split; [| done].
  by apply (other_value_events h.2 u [] hv blk).
Qed.

Lemma other_headers_events hs u hf hv blk s :
  Forall (fun h => header_complete h /\ ~ is_host h) hs -> hf = [] \/ hf = bs "host" ->
  head_state u hf hv blk s ->
  exists s' hf', callbacks (concat (header_events <$> hs)) s = Ok s' /\
    (hf' = [] \/ hf' = hf) /\ head_state u hf' hv blk s'.
Proof.
  intros Hall. revert hf s. induction Hall as [|h hs [Hc Hn] Hall IH]; intros hf s Hf Hs.
  - exists s, hf. auto.
  - cbn [fmap list_fmap concat]. rewrite callbacks_app.
    destruct (other_header_events h u hf hv blk s Hc Hn Hf Hs) as (s1 & -> & Hs1).
    cbn [mbind result_bind].
    destruct (IH [] s1) as (s2 & hf2 & E & Hf2 & Hs2); [by left | done |].
    exists s2, hf2. split; [done |]. split; [| done].
    left. by destruct Hf2.
Qed.

(** the events of a whole request head *)
Definition request_events (us : pieces) (before : list header) (host : header)
    (after : list header) (pe : hp_view) : list (hp_view * http_event) :=
  events EvUrl us ++ concat (header_events <$> before) ++ header_events host ++
  concat (header_events <$> after) ++ [(pe, EvHeadersComplete)].

(** Active decoding of a request with one non-empty Host header and a target
    that has a path: however the URL, the header names and the values are cut
    into pieces, when the last piece of a name and of a value comes with the
    parser state the callbacks wait for, the block flag at the end of the head is the
    database's verdict on the protocol and path of the URL and the Host
    value, and the decoder is clean for the next request. *)
Theorem active_request_verdict us before host after pe blk path s :
  head_state [] [] [] blk s ->
  Forall (fun h => header_complete h /\ ~ is_host h) (before ++ after) ->
  header_complete host -> is_host host -> text host.2 <> [] ->
  url_path (text us) = Ok path ->
  exists s', callbacks (request_events us before host after pe) s = Ok s' /\
    head_state [] [] [] (isUrlHit db (url_prot (text us)) (text host.2) path) s'.
Proof.
  intros Hs [Hb Ha]%Forall_app (Hn & Hv & _) Hh Hne Hp.
  unfold request_events. rewrite callbacks_app.
  destruct (url_events us _ _ _ _ _ Hs) as (s1 & -> & Hs1). cbn [mbind result_bind app] in *.
  rewrite callbacks_app.
  destruct (other_headers_events before _ _ _ _ _ Hb (or_introl eq_refl) Hs1)
    as (s2 & hf2 & -> & [-> | ->] & Hs2);
  (cbn [mbind result_bind]; unfold header_events at 1; rewrite <- app_assoc, callbacks_app;
   destruct (field_events host.1 _ _ _ _ _ Hn Hs2) as (s3 & -> & Hs3);
   cbn [mbind result_bind app] in *; unfold is_host in Hh; rewrite Hh in Hs3;
   change (bytes_eqb (bs "host") (bs "host")) with true in Hs3; cbv iota zeta in Hs3;
   rewrite callbacks_app;
   destruct (host_value_events host.2 _ _ _ _ _ Hv Hs3 Hp) as (s4 & -> & Hs4);
   cbn [mbind result_bind app] in *; rewrite callbacks_app;
   destruct (other_headers_events after _ _ _ _ _ Ha (or_intror eq_refl) Hs4)
     as (s5 & hf5 & -> & _ & Hs5); cbn [mbind result_bind];
   destruct Hs5 as (A5 & U5 & F5 & V5 & B5);
   eexists; split; [done |]; unfold headersCompleteCb; rewrite A5, V5;
   destruct (text host.2) as [|c v] eqn:T; [done |]; repeat split; cbn; congruence).
Qed.

(** A request target of fewer than two characters that is not a path,
    such as the [*] of [OPTIONS * HTTP/1.1], makes the Host callback throw
    [std::out_of_range]: [find] returns npos and [npos + 3] is 2. *)
Theorem host_callback_throws_on_star p buf hf hv blk u s :
  head_state u hf hv blk s -> hf = bs "host" -> hp_state p = 50 ->
  (length u < 2)%nat -> u <> bs "/" ->
  headerValueCb p buf s = Fault OutOfRange.
Proof.
  intros (Ha & Hu & Hf & Hv & Hb) -> Hp Hl Hne. unfold headerValueCb.
  rewrite Ha, Hf, bytes_eqb_refl, Hp, Hu. cbn [Z.eqb Pos.eqb].
  enough (url_path u = Fault OutOfRange) as -> by done.
  unfold url_path, str_at. destruct u as [|c [|c' u]]; [done | | cbn in Hl; lia].
  cbn [lookup list_lookup default]. cbn [from_option]. unfold id.
  destruct (c =? 47) eqn:E; breflect; [subst; done |]. cbn [negb].
  unfold after_scheme. destruct (str_find (bs "://") [c]) eqn:F; [| done].
  apply str_find_bound in F as [F | F]; [| done].
  change (length (bs "://")) with 3%nat in F. cbn in F. lia.
Qed.

(** ** Inactive mode: the collected requests *)

Lemma update_back_snoc {A} (f : A -> A) l x : update_back f (l ++ [x]) = Ok (l ++ [f x]).
Proof. unfold update_back. rewrite reverse_snoc. by rewrite reverse_involutive. Qed.

Lemma update_back_guarded_snoc {A} (f : A -> A) l x :
  update_back_guarded f (l ++ [x]) = l ++ [f x].
Proof. unfold update_back_guarded. rewrite reverse_snoc. by rewrite reverse_involutive. Qed.

(** an inactive session parsing requests, with request vector [v] *)
Definition collecting (v : list CRequestHttpInfo) (s : CTcpSession) : Prop :=
  m_activeFlg s = false /\ m_parserType (m_httpDecoder s) = HTTP_REQUEST /\
  m_requestVector (m_httpDecoder s) = v.

Lemma collecting_on_message fq fs v x s :
  collecting (v ++ [x]) s -> collecting (v ++ [fq x]) (on_message fq fs s).
Proof.
  intros (Ha & Ht & Hv). unfold on_message, on_decoder, collecting. cbn. rewrite Ht, Hv.
  cbn. by rewrite update_back_guarded_snoc.
Qed.

(** a request as the parser reports it when the whole buffer is present *)
Record message := mkMessage {
  ms_url : pieces;
  ms_headers : list (bytes * bytes);
  ms_body : pieces;
  ms_end : hp_view
}.

Definition message_events (m : message) : list (hp_view * http_event) :=
  [(ms_end m, EvMessageBegin)] ++ events EvUrl (ms_url m) ++
  concat ((fun h => [(ms_end m, EvHeaderField h.1); (ms_end m, EvHeaderValue h.2)])
          <$> ms_headers m) ++
  [(ms_end m, EvHeadersComplete)] ++ events EvBody (ms_body m) ++
  [(ms_end m, EvMessageComplete)].

Definition header_type (t : bytes) (h : bytes * bytes) : bytes :=
  match str_find (bs "Content-Type") h.1 with Some _ => h.2 | None => t end.

(** the request object the message describes *)
Definition described_request (m : message) : CRequestHttpInfo :=
  mkRequest (mkInfo [] [] (foldl (fun hm h => <[h.1 := h.2]> hm) ∅ (ms_headers m))
               (text (ms_body m)) 0 []
               (foldl header_type UNKNOWN_CONTENT_TYPE (ms_headers m)))
    (text (ms_url m)) (hp_method (ms_end m)).

Lemma collect_url us v i u mth s :
  collecting (v ++ [mkRequest i u mth]) s ->
  exists s', callbacks (events EvUrl us) s = Ok s' /\
    collecting (v ++ [mkRequest i (u ++ text us) mth]) s'.
Proof.
  revert u s. induction us as [|[p b] us IH]; intros u s Hs.
  - exists s. unfold text; cbn. by rewrite app_nil_r.
  - pose proof Hs as (Ha & Ht & Hv). cbn [events fmap list_fmap callbacks callback fst snd].
    unfold requestUrlCb. rewrite Ha, Hv, update_back_snoc. cbn [mbind result_bind].
    edestruct (IH (u ++ b)) as (s' & E & Hs'); cycle 1.
    + exists s'. split; [exact E |]. unfold text in *. cbn. by rewrite app_assoc.
    + by repeat split.
Qed.

Lemma collect_header p f val v i u mth s :
  f <> [] -> m_currentField i = [] -> m_currentValue i = [] ->
  collecting (v ++ [mkRequest i u mth]) s ->
  exists s', callbacks [(p, EvHeaderField f); (p, EvHeaderValue val)] s = Ok s' /\
    collecting (v ++ [mkRequest (mkInfo [] [] (<[f := val]> (m_headerMap i)) (m_body i)
      (m_contentLength i) (m_contentEncoding i) (header_type (m_contentType i) (f, val))) u mth]) s'.
Proof.
  intros Hf Hcf Hcv Hs. pose proof Hs as (Ha & Ht & Hv).
  cbn [callbacks callback mbind result_bind]. unfold headerFieldCb, headerValueCb.
  rewrite Ha. cbn. rewrite Ha.
  eexists; split; [done |].
  eapply collecting_on_message with (fq := rq_update (insertField f)) in Hs.
  eapply collecting_on_message with (fq := rq_update (insertValue val)) in Hs.
  match goal with |- collecting ?w _ => match type of Hs with collecting ?w' _ =>
    replace w with w' end end; [exact Hs |].
  do 2 f_equal. unfold rq_update; cbn [rq_info rq_url rq_method]. f_equal.
  unfold insertField. rewrite Hcf. cbn [length Nat.eqb app]. unfold insertValue.
  cbn [m_currentField m_currentValue]. rewrite Hcv. destruct f as [|c f]; [done |]. done.
Qed.

Lemma collect_headers p hs v hm body ct u mth s :
  Forall (fun h => h.1 <> []) hs ->
  collecting (v ++ [mkRequest (mkInfo [] [] hm body 0 [] ct) u mth]) s ->
  exists s', callbacks (concat ((fun h => [(p, EvHeaderField h.1); (p, EvHeaderValue h.2)]) <$> hs)) s
             = Ok s' /\
    collecting (v ++ [mkRequest (mkInfo [] [] (foldl (fun hm h => <[h.1 := h.2]> hm) hm hs)
                        body 0 [] (foldl header_type ct hs)) u mth]) s'.
Proof.
  intros Hall. revert hm ct s. induction Hall as [|[f val] hs Hf Hall IH]; intros hm ct s Hs.
  - by exists s.
  - rewrite fmap_cons. cbn [concat]. rewrite callbacks_app.
    destruct (collect_header p f val v (mkInfo [] [] hm body 0 [] ct) u mth s Hf eq_refl eq_refl Hs) as (s1 & E1 & Hs1).
    cbn [fst snd]. rewrite E1. cbn [mbind result_bind].
    destruct (IH _ _ _ Hs1) as (s2 & E2 & Hs2). by exists s2.
Qed.

Lemma collect_body bd v i u mth s :
  collecting (v ++ [mkRequest i u mth]) s ->
  exists s', callbacks (events EvBody bd) s = Ok s' /\
    collecting (v ++ [mkRequest (setBody (text bd) i) u mth]) s'.
Proof.
  revert i s. induction bd as [|[p b] bd IH]; intros i s Hs.
  - exists s. split; [done |]. destruct i. unfold setBody, text; cbn. by rewrite app_nil_r.
  - pose proof Hs as (Ha & _). cbn [events fmap list_fmap callbacks callback fst snd mbind result_bind].
    unfold body_cb. rewrite Ha.
    eapply collecting_on_message with (fq := rq_update (setBody b)) in Hs.
    destruct (IH _ _ Hs) as (s' & E & Hs'). exists s'. split; [exact E |].
    unfold setBody, text in *. cbn in Hs' |- *. by rewrite app_assoc.
Qed.

Lemma collect_message m v s :
  Forall (fun h => h.1 <> []) (ms_headers m) -> collecting v s ->
  exists s', callbacks (message_events m) s = Ok s' /\
    collecting (v ++ [described_request m]) s'.
Proof.
  intros Hh (Ha & Ht & Hv). unfold message_events. rewrite callbacks_app.
  cbn [callbacks callback mbind result_bind]. unfold messageBeginCb at 1. rewrite Ha.
  set (s0 := on_decoder _ s).
  assert (collecting (v ++ [newCRequestHttpInfo]) s0) as H0.
  { unfold s0, collecting, on_decoder; cbn. rewrite Ht, Hv. by repeat split. }
  rewrite callbacks_app. destruct (collect_url (ms_url m) _ _ _ _ _ H0) as (s1 & -> & H1).
  cbn [mbind result_bind app] in *. rewrite callbacks_app.
  destruct (collect_headers (ms_end m) _ _ _ _ _ _ _ _ Hh H1) as (s2 & -> & H2).
  cbn [mbind result_bind callbacks callback]. unfold headersCompleteCb.
  pose proof H2 as (A2 & _). rewrite A2, callbacks_app.
  destruct (collect_body (ms_body m) _ _ _ _ _ H2) as (s3 & -> & H3).
  pose proof H3 as (A3 & _). cbn [mbind result_bind callbacks callback].
  unfold messageCompleteCb. rewrite A3. eexists; split; [done |].
  eapply collecting_on_message with (fq := setMethod (hp_method (ms_end m))) in H3. exact H3.
Qed.

(** C34: Inactive decoding collects the requests.  When the parser reports any
    sequence of complete request messages, URL and body in any number of
    pieces and each header as one non-empty name and one value, the callbacks
    never touch an empty vector, and append one request object per message, in
    order, with the whole URL, the headers (the last value of a repeated
    name), the whole body, the content type and the method. *)
Theorem inactive_requests_collected msgs v s :
  Forall (fun m => Forall (fun h => h.1 <> []) (ms_headers m)) msgs ->
  collecting v s ->
  exists s', callbacks (concat (message_events <$> msgs)) s = Ok s' /\
    collecting (v ++ (described_request <$> msgs)) s'.
Proof.
  intros Hall. revert v s. induction Hall as [|m msgs Hm Hall IH]; intros v s Hs.
  - exists s. by rewrite app_nil_r.
  - rewrite fmap_cons. cbn [concat]. rewrite callbacks_app.
    destruct (collect_message m v s Hm Hs) as (s1 & -> & H1). cbn [mbind result_bind].
    destruct (IH _ _ H1) as (s2 & E2 & H2). exists s2. split; [done |].
    by rewrite fmap_cons, <- app_assoc in *.
Qed.

End HttpDecoder.

(** ** Witnesses, with a parser that replays a fixed script of callbacks *)

Definition script_parser (script : list (hp_view * http_event)) : HttpParserLib := {|
  http_parser := nat;
  http_parser_init := fun _ => 0%nat;
  http_parser_execute := fun n _ => (if (n =? 0)%nat then script else [], S n);
  HTTP_PARSER_ERRNO := fun _ => 0
|}.

Definition sample_id : CTcpSessionId :=
  mkId (CIpAddress_in_addr 16777226) 40000 (CIpAddress_in_addr 33554442) 80.

Lemma sample_id_wf : id_wf sample_id.
Proof. split; [| split]; cbn [sample_id id_srcIp id_dstIp id_srcPort id_dstPort]; auto with kf_bounds; lia. Qed.

Example active_request_verdict_witness :
  let _ := script_parser [] in
  let v st := mkView st 1 0 in
  let us := [(v 31, bs "/in"); (v 32, bs "dex")] in
  let host := ([(v 43, bs "Ho"); (v 44, bs "st")], [(v 50, bs "www.evil.com")]) in
  exists s', callbacks sample_db (request_events us [] host [] (v 57))
               (newCTcpSession setDefault sample_id) = Ok s' /\
    head_state [] [] [] true s'.
Proof.
  cbn zeta.
  destruct (@active_request_verdict (script_parser []) sample_db
              [(mkView 31 1 0, bs "/in"); (mkView 32 1 0, bs "dex")] []
              ([(mkView 43 1 0, bs "Ho"); (mkView 44 1 0, bs "st")],
               [(mkView 50 1 0, bs "www.evil.com")]) [] (mkView 57 1 0) false (bs "/index")
              (@newCTcpSession (script_parser []) setDefault sample_id)) as (s' & E & Hs').
  - by repeat split.
  - constructor.
  - split; [| split]; [| by constructor | done].
    apply last_state_cons; [done |]. by constructor.
  - done.
  - done.
  - done.
  - exists s'. split; [exact E | exact Hs'].
Defined.

Example host_callback_throws_on_star_witness :
  let _ := script_parser [] in
  headerValueCb sample_db (mkView 50 6 0) (bs "a.com")
    (on_decoder (fun d => with_url (bs "*") (with_hostField (bs "host") d))
       (newCTcpSession setDefault sample_id)) = Fault OutOfRange.
Proof.
  cbn zeta.
  eapply (@host_callback_throws_on_star (script_parser []) sample_db (mkView 50 6 0) (bs "a.com")
            (bs "host") [] false (bs "*")).
  - by repeat split.
  - done.
  - done.
  - vm_compute. lia.
  - done.
Defined.

Example inactive_requests_collected_witness :
  let _ := script_parser [] in
  let m := mkMessage [(mkView 32 1 0, bs "/")] [(bs "Host", bs "a.com")] [] (mkView 59 1 0) in
  exists s', callbacks sample_db (concat (message_events <$> [m; m]))
               (setActiveFlg false (newCTcpSession setDefault sample_id)) = Ok s' /\
    collecting [described_request m; described_request m] s'.
Proof.
  cbn zeta.
  apply (@inactive_requests_collected (script_parser []) sample_db
    [mkMessage [(mkView 32 1 0, bs "/")] [(bs "Host", bs "a.com")] [] (mkView 59 1 0);
     mkMessage [(mkView 32 1 0, bs "/")] [(bs "Host", bs "a.com")] [] (mkView 59 1 0)] []).
  - by repeat constructor.
  - by repeat split.
Defined.
