(* ===== verification/TcpSession.v ===== *)
(** * CTcpSession, CTcpSessionPlugin and CPacketCreater

    The per-packet update of a session: payload storage, the TCP state
    machine, the plugin call that starts active decoding, and the decision
    to inject a reset. *)
From Stdlib Require Import ZArith Lia.
From stdpp Require Import base gmap list strings numbers.
From S2P Require Import Prelude PacketDef IpAddress LayerInfo SegBuf Config DbManager Session HttpDecoder.

Local Open Scope Z_scope.

(** ** CPacketCreater::sendIpv4Rst over libnet *)

(** the arguments of one [sendIpv4Rst] call *)
Record rst_args := mkRst {
  rst_src_ip : Z;
  rst_dst_ip : Z;
  rst_id : Z;
  rst_src_prt : Z;
  rst_dst_prt : Z;
  rst_seq : Z;
  rst_ack : Z
}.

(** which libnet calls succeed *)
Record libnet_env := mkLibnet {
  ln_init_ok : bool;
  ln_tcp_ok : bool;
  ln_ip_ok : bool;
  ln_write_ok : bool
}.

Inductive libnet_call :=
  | LibnetInit
  | LibnetBuildTcp (sport dport seq ack control window len : Z)
  | LibnetBuildIpv4 (len tos id frag ttl proto src dst : Z)
  | LibnetWrite
  | LibnetDestroy.

#[global] Instance libnet_call_eq_dec : EqDecision libnet_call.
Proof. solve_decision. Defined.

(** the libnet calls of [sendIpv4Rst], in order; [goto bad] skips to the
    destruction of the handle *)
Definition sendIpv4Rst (env : libnet_env) (r : rst_args) : list libnet_call :=
  if negb (ln_init_ok env) then [LibnetInit]
  else
    [LibnetInit;
     LibnetBuildTcp (rst_src_prt r) (rst_dst_prt r) (rst_seq r) (rst_ack r) TH_RST 32767 20] ++
    (if negb (ln_tcp_ok env) then []
     else
       [LibnetBuildIpv4 40 0 (rst_id r) 0 64 IPPROTO_TCP (rst_src_ip r) (rst_dst_ip r)] ++
       (if negb (ln_ip_ok env) then [] else [LibnetWrite])) ++
    [LibnetDestroy].

(** [sendIpv4Rst] never leaks the libnet handle and writes only a
    completely built packet: the handle is destroyed exactly once, last, when
    it was created, and [libnet_write] is reached only after both headers
    were built. *)
Theorem sendIpv4Rst_handle env r :
  let calls := sendIpv4Rst env r in
  length (filter (fun c => c = LibnetDestroy) calls) = (if ln_init_ok env then 1 else 0)%nat /\
  (ln_init_ok env = true -> list.last calls = Some LibnetDestroy) /\
  (LibnetWrite ∈ calls <->
   ln_init_ok env = true /\ ln_tcp_ok env = true /\ ln_ip_ok env = true).
Proof.
  destruct env as [[] [] [] w]; cbn; repeat split; try done; try set_solver;
    intros H; repeat (apply elem_of_cons in H as [? | H]; [done |]);
    try (by apply elem_of_nil in H); try (by destruct H as (? & ? & ?)).
Qed.

Section TcpSession.
Context `{HttpParserLib} (db : CDBManager).

(** ** CTcpSessionPlugin *)

Definition sessionCreated (s : CTcpSession) : CTcpSession :=
  match m_protocol s with
  | PROTOCOL_HTTP => parserInit HTTP_REQUEST (setActiveFlg true s)
  | _ => s
  end.

Definition payloadReceived (dir : direction) (s : CTcpSession) : result CTcpSession :=
  match m_protocol s with
  | PROTOCOL_HTTP =>
    if m_activeFlg s && bool_decide (dir = DIRECTION_TO_SERVER)
    then r ← decodeHttp_type db HTTP_REQUEST s; Ok r.2
    else Ok s
  | _ => Ok s
  end.

(** the remaining plugin hooks do nothing *)
Definition revFirstPacket (dir : direction) (s : CTcpSession) : CTcpSession := s.
Definition directionReverse (dir : direction) (s : CTcpSession) : CTcpSession := s.
Definition finReceived (dir : direction) (s : CTcpSession) : CTcpSession := s.
Definition rstReceived (dir : direction) (s : CTcpSession) : CTcpSession := s.
Definition sessionPosted (s : CTcpSession) : CTcpSession := s.

(** ** CTcpSession *)

Definition getDirection (l4 : CL4Info) (s : CTcpSession) : direction :=
  if ip_eq (id_srcIp (m_sessId s)) (m_src (m_pL3Info l4)) &&
     (id_srcPort (m_sessId s) =? m_srcPort l4)
  then DIRECTION_TO_SERVER else DIRECTION_TO_CLIENT.

(** [savePayload] copies the payload out of the packet. *)
Definition savePayload (l4 : CL4Info) (dir : direction) (s : CTcpSession) : result CTcpSession :=
  data ← l5_bytes l4;
  b ← insertData (m_seqNum l4) data (getContinuousBuf dir s);
  Ok (setContinuousBuf dir b s).

(** the state switch of [updateMe] on a payload *)
Definition payloadState (dir : direction) (s : CTcpSession) : CTcpSession :=
  match m_tcpState s with
  | TCP_SM_INIT | TCP_SM_HANDSHAKE =>
    let s1 := revFirstPacket dir s in
    match dir with
    | DIRECTION_TO_SERVER => setTcpState TCP_SM_CLIENT_SENDING s1
    | DIRECTION_TO_CLIENT => setTcpState TCP_SM_SERVER_SENDING s1
    end
  | TCP_SM_CLIENT_SENDING =>
    match dir with
    | DIRECTION_TO_SERVER => s
    | DIRECTION_TO_CLIENT => setTcpState TCP_SM_SERVER_SENDING (directionReverse dir s)
    end
  | TCP_SM_SERVER_SENDING =>
    match dir with
    | DIRECTION_TO_SERVER => setTcpState TCP_SM_CLIENT_SENDING (directionReverse dir s)
    | DIRECTION_TO_CLIENT => s
    end
  | TCP_SM_SERVER_FINISHED =>
    match dir with
    | DIRECTION_TO_SERVER => s
    | DIRECTION_TO_CLIENT => setTcpState TCP_SM_CLOSED s
    end
  | TCP_SM_CLIENT_FINISHED =>
    match dir with
    | DIRECTION_TO_SERVER => setTcpState TCP_SM_CLOSED s
    | DIRECTION_TO_CLIENT => s
    end
  | TCP_SM_CLOSED => s
  end.

(** [finishMe(layer4Info, dir)] *)
Definition finishMe (l4 : CL4Info) (dir : direction) (s : CTcpSession) : CTcpSession :=
  if m_rstSet l4 then setTcpState TCP_SM_CLOSED (rstReceived dir s)
  else if negb (m_finSet l4) then s
  else
    let s1 := finReceived dir s in
    match m_tcpState s1 with
    | TCP_SM_INIT | TCP_SM_HANDSHAKE | TCP_SM_CLIENT_SENDING | TCP_SM_SERVER_SENDING =>
      match dir with
      | DIRECTION_TO_CLIENT => setTcpState TCP_SM_SERVER_FINISHED s1
      | DIRECTION_TO_SERVER => setTcpState TCP_SM_CLIENT_FINISHED s1
      end
    | TCP_SM_SERVER_FINISHED =>
      match dir with
      | DIRECTION_TO_CLIENT => s1
      | DIRECTION_TO_SERVER => setTcpState TCP_SM_CLOSED s1
      end
    | TCP_SM_CLIENT_FINISHED =>
      match dir with
      | DIRECTION_TO_CLIENT => setTcpState TCP_SM_CLOSED s1
      | DIRECTION_TO_SERVER => s1
      end
    | TCP_SM_CLOSED => s1
    end.

(** [updateMe(layer4Info)] *)
Definition updateMe (l4 : CL4Info) (s : CTcpSession) : result CTcpSession :=
  if m_synSet l4 then
    let s1 := setTcpState TCP_SM_HANDSHAKE s in
    Ok (if m_ackSet l4
        then setContinuousBuf DIRECTION_TO_CLIENT
               (setStartSeq (u32 (m_seqNum l4 + 1)) (segClient s1)) s1
        else s1)
  else
    let dir := getDirection l4 s in
    s1 ← (if 0 <? m_L5Datalen l4 then
            s0 ← savePayload l4 dir s;
            payloadReceived dir (payloadState dir s0)
          else Ok s);
    Ok (finishMe l4 dir s1).

(** [blockMe(layer4Info)]: the session and the reset it sends, if any *)
Definition blockMe (l4 : CL4Info) (s : CTcpSession) : result (CTcpSession * option rst_args) :=
  let seq := u32 (m_seqNum l4 + m_L5Datalen l4) in
  let ack := m_ackNum l4 in
  v ← getIpVersion (l4_l2 l4);
  if v =? 4 then
    let srcIp := getIpv4 (m_src (m_pL3Info l4)) in
    let dstIp := getIpv4 (m_dst (m_pL3Info l4)) in
    let s1 := if isIpv4Hit db srcIp || isIpv4Hit db srcIp then setBlockFlg true s else s in
    Ok (s1, if m_shouldBlock s1
            then Some (mkRst dstIp srcIp 4369 (m_dstPort l4) (m_srcPort l4) ack seq)
            else None)
  else Ok (s, None).

(** ** Frame: what decoding leaves alone *)

(** Everything but the HTTP decoder, the block flag and the buffers. *)
Definition same_core (s s' : CTcpSession) : Prop :=
  m_sessId s' = m_sessId s /\ m_tcpTxnId s' = m_tcpTxnId s /\ m_tcpState s' = m_tcpState s /\
  m_activeFlg s' = m_activeFlg s /\ m_protocol s' = m_protocol s /\
  m_smtpDecoder s' = m_smtpDecoder s /\ m_lastUpdateTime s' = m_lastUpdateTime s.

Lemma same_core_refl s : same_core s s.
Proof. by repeat split. Qed.

Lemma same_core_trans s1 s2 s3 : same_core s1 s2 -> same_core s2 s3 -> same_core s1 s3.
Proof. unfold same_core. intros (?&?&?&?&?&?&?) (?&?&?&?&?&?&?). repeat split; congruence. Qed.

Lemma callback_core p e s s' : callback db p e s = Ok s' ->
  same_core s s' /\ segServer s' = segServer s /\ segClient s' = segClient s.
Proof.
  destruct e; cbn [callback];
    unfold messageBeginCb, requestUrlCb, responseStatusCb, headerFieldCb, headerValueCb,
      headersCompleteCb, body_cb, messageCompleteCb, on_message, on_decoder; intros E;
    repeat match type of E with
    | context [match ?x with _ => _ end] => destruct x; try discriminate E
    | @mbind result _ _ _ _ ?m = _ => destruct m; [cbn in E | discriminate E]
    end; injection E as <-; by repeat split.
Qed.

Lemma callbacks_core evs s s' : callbacks db evs s = Ok s' ->
  same_core s s' /\ segServer s' = segServer s /\ segClient s' = segClient s.
Proof.
  revert s. induction evs as [|[p e] evs IH]; intros s E; cbn in E.
  - injection E as <-. by repeat split.
  - destruct (callback db p e s) as [s1|] eqn:E1; [| done]. cbn in E.
    apply callback_core in E1 as (C1 & <- & <-). apply IH in E as (C2 & -> & ->).
    split; [by eapply same_core_trans | done].
Qed.

Lemma parserExecute_core buf s b s' : parserExecute db buf s = Ok (b, s') ->
  same_core s s' /\ segServer s' = segServer s /\ segClient s' = segClient s /\
  is_Some (m_parser (m_httpDecoder s')).
Proof.
  unfold parserExecute. destruct (m_parser _) as [p|]; [| done].
  destruct (http_parser_execute p buf) as [evs p'].
  destruct (callbacks db evs s) as [s1|] eqn:E; [| done]. cbn.
  intros [= _ <-]. apply callbacks_core in E as (C & E1 & E2).
  by repeat split; try apply C.
Qed.

Lemma setContinuousBuf_core dir b s : same_core s (setContinuousBuf dir b s).
Proof. by destruct dir. Qed.

Lemma decodeHttpActive_core t s b s' : decodeHttpActive db t s = Ok (b, s') -> same_core s s'.
Proof.
  unfold decodeHttpActive. destruct (dumpUnusedData _) as [[buf seg]|]; [| done]. cbn.
  destruct (parserExecute _ _ _) as [[ok s1]|] eqn:E; [| done]. cbn.
  apply parserExecute_core in E as (C & _).
  pose proof (setContinuousBuf_core (type_direction t) seg s) as C0.
  assert (same_core s s1) as C1 by by eapply same_core_trans.
  destruct ok; intros [= _ <-]; [done |].
  eapply same_core_trans; [exact C1 |].
  by destruct (type_direction t).
Qed.

Lemma payloadReceived_core dir s s' : payloadReceived dir s = Ok s' -> same_core s s'.
Proof.
  unfold payloadReceived. destruct (m_protocol s); [by intros [= <-]; apply same_core_refl | |
    by intros [= <-]; apply same_core_refl].
  destruct (m_activeFlg s) eqn:Ha; cbn [andb].
  - destruct (bool_decide _); [| intros [= <-]; apply same_core_refl].
    unfold decodeHttp_type. rewrite Ha.
    destruct (decodeHttpActive _ _ _) as [[b s1]|] eqn:E; [| done]. intros [= <-].
    by eapply decodeHttpActive_core.
  - intros [= <-]. apply same_core_refl.
Qed.

Lemma savePayload_core l4 dir s s' : savePayload l4 dir s = Ok s' -> same_core s s'.
Proof.
  unfold savePayload. destruct (l5_bytes l4) as [data|]; [| done]. cbn.
  destruct (insertData _ _ _) as [b|]; [| done]. intros [= <-]. apply setContinuousBuf_core.
Qed.

(** ** The TCP state machine refines a close-tracking specification *)

(** The specification remembers which sides have sent FIN.  A SYN starts the
    connection anew, whatever else the packet says; apart from that [closed] is
    final. *)
Inductive close_state :=
  | Open (client_fin server_fin : bool)
  | Closed.

Definition close_step (dir : direction) (syn payload fin rst : bool) (c : close_state) : close_state :=
  if syn then Open false false
  else match c with
  | Closed => Closed
  | Open cf sf =>
    let finished := match dir with DIRECTION_TO_SERVER => cf | DIRECTION_TO_CLIENT => sf end in
    if rst then Closed                          (* a reset closes at once *)
    else if payload && finished then Closed     (* data after its own FIN *)
    else
      let cf' := cf || (fin && bool_decide (dir = DIRECTION_TO_SERVER)) in
      let sf' := sf || (fin && bool_decide (dir = DIRECTION_TO_CLIENT)) in
      if cf' && sf' then Closed else Open cf' sf'
  end.

(** the abstraction of a session's state *)
Definition close_view (st : tcp_sm) : close_state :=
  match st with
  | TCP_SM_CLOSED => Closed
  | TCP_SM_CLIENT_FINISHED => Open true false
  | TCP_SM_SERVER_FINISHED => Open false true
  | _ => Open false false
  end.

(** One packet is one step of the specification. *)
Lemma updateMe_close_view l4 s s' :
  updateMe l4 s = Ok s' ->
  close_view (m_tcpState s') =
  close_step (getDirection l4 s) (m_synSet l4) (0 <? m_L5Datalen l4) (m_finSet l4) (m_rstSet l4)
             (close_view (m_tcpState s)).
Proof.
  unfold updateMe. destruct (m_synSet l4); [destruct (m_ackSet l4); by intros [= <-] |].
  set (dir := getDirection l4 s).
  assert (forall s1, m_tcpState s1 = (if 0 <? m_L5Datalen l4
            then m_tcpState (payloadState dir s) else m_tcpState s) ->
          close_view (m_tcpState (finishMe l4 dir s1)) =
          close_step dir false (0 <? m_L5Datalen l4) (m_finSet l4) (m_rstSet l4)
            (close_view (m_tcpState s))) as Hfin.
  { intros s1 H1. unfold finishMe, finReceived, rstReceived, payloadState in *.
    destruct (0 <? m_L5Datalen l4), (m_rstSet l4), (m_finSet l4), dir,
      (m_tcpState s) eqn:Es; cbn in H1 |- *; rewrite ?H1, ?Es; cbn; rewrite ?H1, ?Es; done. }
  destruct (0 <? m_L5Datalen l4).
  - destruct (savePayload l4 dir s) as [s0|] eqn:E0; [| done]. cbn [mbind result_bind].
    destruct (payloadReceived dir (payloadState dir s0)) as [s1|] eqn:E1; [| done].
    intros [= <-]. apply Hfin.
    apply payloadReceived_core in E1 as (_ & _ & -> & _).
    apply savePayload_core in E0 as (_ & _ & E0 & _).
    unfold payloadState, revFirstPacket, directionReverse. rewrite E0.
    destruct (m_tcpState s) eqn:Es, dir; cbn; congruence.
  - intros [= <-]. by apply Hfin.
Qed.

(** ** What the active decoder is given *)

(** a packet that carries data of the client *)
Definition client_data (s : CTcpSession) (l4 : CL4Info) : bool :=
  negb (m_synSet l4) && (0 <? m_L5Datalen l4) &&
  bool_decide (getDirection l4 s = DIRECTION_TO_SERVER).

(** the packets of a session, one [updateMe] each *)
Fixpoint updateAll (l4s : list CL4Info) (s : CTcpSession) : result CTcpSession :=
  match l4s with
  | [] => Ok s
  | l4 :: rest => s' ← updateMe l4 s; updateAll rest s'
  end.

(** the client's segments are in order: each starts where the stream, which
    starts at [base] and is [n] bytes long so far, ends *)
Fixpoint in_order (s : CTcpSession) (base : Z) (n : nat) (l4s : list CL4Info) : Prop :=
  match l4s with
  | [] => Z.of_nat n < 4294967296
  | l4 :: rest =>
    if client_data s l4
    then m_seqNum l4 = u32 (base + Z.of_nat n) /\
         in_order s base (n + Z.to_nat (m_L5Datalen l4)) rest
    else in_order s base n rest
  end.

(** The specification has no segment buffer.  It keeps the client's stream and
    the number of bytes the parser was given; a data segment extends the
    stream, and the parser gets all of it that it was not given yet.  After a
    parse error the parser is initialised anew and nothing counts as given. *)
Fixpoint decode_stream (l4s : list CL4Info) (stream : bytes) (given : nat) (s : CTcpSession)
  : result (bytes * CTcpSession) :=
  match l4s with
  | [] => Ok (stream, s)
  | l4 :: rest =>
    if client_data s l4 then
      data ← l5_bytes l4;
      let stream' := stream ++ data in
      x ← parserExecute db (drop given stream') (payloadState DIRECTION_TO_SERVER s);
      if x.1 : bool
      then decode_stream rest stream' (length stream') (finishMe l4 DIRECTION_TO_SERVER x.2)
      else decode_stream rest stream' 0
             (finishMe l4 DIRECTION_TO_SERVER (parserInit HTTP_REQUEST x.2))
    else s' ← updateMe l4 s; decode_stream rest stream given s'
  end.

(** the client's buffer is read and written by nothing else *)
Abbreviation with_buf := (setContinuousBuf DIRECTION_TO_SERVER).

Lemma callback_with_buf p e b s :
  callback db p e (with_buf b s) = (s' ← callback db p e s; Ok (with_buf b s')).
Proof.
  destruct s as [si st sm [] sp sd ss sl sb sg sc], e; cbn [callback];
    unfold messageBeginCb, requestUrlCb, responseStatusCb, headerFieldCb, headerValueCb,
      headersCompleteCb, body_cb, messageCompleteCb, on_message, on_decoder; cbn;
    repeat match goal with
    | |- context [match ?x with _ => _ end] => destruct x; try done
    | |- context [@mbind result _ _ _ _ ?m] => destruct m; cbn; try done
    end; done.
Qed.

Lemma parserExecute_with_buf buf b s :
  parserExecute db buf (with_buf b s) =
  (x ← parserExecute db buf s; Ok (x.1, with_buf b x.2)).
Proof.
  unfold parserExecute. change (m_httpDecoder (with_buf b s)) with (m_httpDecoder s).
  destruct (m_parser _) as [p|]; [| done]. destruct (http_parser_execute p buf) as [evs p'].
  assert (forall s, callbacks db evs (with_buf b s) = (s' ← callbacks db evs s; Ok (with_buf b s'))) as ->.
  { clear s. induction evs as [|[v e] evs IH]; intros s; [done |]. cbn [callbacks].
    rewrite callback_with_buf. destruct (callback db v e s); [apply IH | done]. }
  by destruct (callbacks db evs s).
Qed.

Lemma payloadState_with_buf dir b s : payloadState dir (with_buf b s) = with_buf b (payloadState dir s).
Proof. unfold payloadState. change (m_tcpState (with_buf b s)) with (m_tcpState s). by destruct (m_tcpState s), dir. Qed.

Lemma finishMe_with_buf l4 dir b s : finishMe l4 dir (with_buf b s) = with_buf b (finishMe l4 dir s).
Proof.
  unfold finishMe, finReceived, rstReceived. destruct (m_rstSet l4); [done |]. destruct (negb _); [done |].
  change (m_tcpState (with_buf b s)) with (m_tcpState s). by destruct (m_tcpState s), dir.
Qed.

(** an active HTTP session *)
Definition decoding (s : CTcpSession) : Prop := m_protocol s = PROTOCOL_HTTP /\ m_activeFlg s = true.

Lemma updateMe_core l4 s s' : updateMe l4 s = Ok s' ->
  m_sessId s' = m_sessId s /\ m_protocol s' = m_protocol s /\ m_activeFlg s' = m_activeFlg s.
Proof.
  unfold updateMe. destruct (m_synSet l4); [destruct (m_ackSet l4); by intros [= <-] |].
  set (dir := getDirection l4 s).
  assert (forall s, m_sessId (finishMe l4 dir s) = m_sessId s /\ m_protocol (finishMe l4 dir s) = m_protocol s /\
    m_activeFlg (finishMe l4 dir s) = m_activeFlg s) as Hf.
  { clearbody dir. clear s s'. intros s. unfold finishMe, finReceived, rstReceived. destruct (m_rstSet l4); [done |].
    destruct (negb _); [done |]. by destruct (m_tcpState s), dir. }
  destruct (0 <? m_L5Datalen l4); [| intros [= <-]; apply Hf].
  destruct (savePayload l4 dir s) as [s0|] eqn:E0; [| done]. cbn [mbind result_bind].
  destruct (payloadReceived dir _) as [s1|] eqn:E1; [| done]. intros [= <-].
  apply payloadReceived_core in E1 as (I1 & _ & _ & A1 & P1 & _).
  apply savePayload_core in E0 as (I0 & _ & _ & A0 & P0 & _).
  destruct (Hf s1) as (-> & -> & ->). rewrite I1, A1, P1, <- I0, <- A0, <- P0.
  unfold payloadState. by destruct (m_tcpState s0), dir.
Qed.

(** the other packets of the session leave the buffer alone *)
Lemma updateMe_other l4 b s :
  decoding s -> client_data s l4 = false ->
  updateMe l4 (with_buf b s) = (s' ← updateMe l4 s; Ok (with_buf b s')).
Proof.
  intros [Hp Ha] Hc. unfold updateMe, client_data in *.
  destruct (m_synSet l4); [by destruct (m_ackSet l4) |]. cbn [negb andb] in Hc.
  change (getDirection l4 (with_buf b s)) with (getDirection l4 s).
  destruct (0 <? m_L5Datalen l4); [| cbn [mbind result_bind]; by rewrite finishMe_with_buf].
  cbn [andb] in Hc. apply bool_decide_eq_false in Hc. destruct (getDirection l4 s); [done |].
  unfold savePayload. destruct (l5_bytes l4) as [data|]; [cbn [mbind result_bind] | done].
  change (getContinuousBuf DIRECTION_TO_CLIENT (with_buf b s)) with (getContinuousBuf DIRECTION_TO_CLIENT s).
  destruct (insertData _ _ _) as [c|]; [cbn [mbind result_bind] | done].
  set (t := setContinuousBuf DIRECTION_TO_CLIENT c s).
  change (setContinuousBuf DIRECTION_TO_CLIENT c (with_buf b s)) with (with_buf b t). rewrite payloadState_with_buf.
  assert (forall u, payloadReceived DIRECTION_TO_CLIENT u = Ok u) as Hr.
  { intros u. unfold payloadReceived. rewrite bool_decide_eq_false_2 by done. rewrite andb_false_r.
    by destruct (m_protocol u). }
  rewrite !Hr. cbn [mbind result_bind]. by rewrite finishMe_with_buf.
Qed.

(** a data segment of the client *)
Lemma updateMe_client l4 n given b s :
  decoding s -> client_data s l4 = true -> inorder_inv n given b ->
  m_seqNum l4 = u32 (m_start b + Z.of_nat n) ->
  Z.of_nat (n + Z.to_nat (m_L5Datalen l4)) < 4294967296 ->
  match
    (data ← l5_bytes l4;
     x ← parserExecute db (drop given (m_buf b ++ data)) (payloadState DIRECTION_TO_SERVER s);
     Ok (data, x))
  with
  | Ok (data, (ok, s1)) => length data = Z.to_nat (m_L5Datalen l4) /\
    exists b', m_start b' = m_start b /\ m_buf b' = m_buf b ++ data /\
      inorder_inv (n + length data) (if ok : bool then (n + length data)%nat else 0%nat) b' /\
      updateMe l4 (with_buf b s) =
        Ok (with_buf b' (finishMe l4 DIRECTION_TO_SERVER (if ok then s1 else parserInit HTTP_REQUEST s1)))
  | Fault f => updateMe l4 (with_buf b s) = Fault f
  end.
Proof.
  intros [Hp Ha] Hc Hi Hq Hlt. unfold client_data in Hc.
  apply andb_true_iff in Hc as [[Hsyn%negb_true_iff Hl]%andb_true_iff Hd%bool_decide_eq_true].
  unfold updateMe. rewrite Hsyn, Hl. change (getDirection l4 (with_buf b s)) with (getDirection l4 s).
  rewrite Hd. unfold savePayload, l5_bytes, read_slice in *. breflect.
  destruct (_ <? _)%nat eqn:Er; cbn [mbind result_bind]; [done |]. breflect.
  set (data := take _ _).
  assert (length data = Z.to_nat (m_L5Datalen l4)) as Hlen
    by (unfold data; rewrite length_take, length_drop; lia).
  change (getContinuousBuf DIRECTION_TO_SERVER (with_buf b s)) with b. rewrite Hq.
  destruct (insertData_inorder n given b data) as (b1 & -> & Hs1 & Hb1 & Hi1);
    [done | intros ->; cbn in Hlen; lia | by rewrite Hlen |]. cbn [mbind result_bind].
  rewrite <- Hb1. change (with_buf b1 (with_buf b s)) with (with_buf b1 s).
  rewrite payloadState_with_buf. set (t := payloadState DIRECTION_TO_SERVER s).
  assert (m_protocol t = PROTOCOL_HTTP /\ m_activeFlg t = true) as [Hpt Hat]
    by (unfold t, payloadState; by destruct (m_tcpState s)).
  unfold payloadReceived, decodeHttp_type, decodeHttpActive.
  change (m_protocol (with_buf b1 t)) with (m_protocol t).
  change (m_activeFlg (with_buf b1 t)) with (m_activeFlg t).
  change (getContinuousBuf (type_direction HTTP_REQUEST) (with_buf b1 t)) with b1.
  rewrite Hpt, Hat. rewrite bool_decide_eq_true_2 by done. cbn [andb].
  destruct (dumpUnusedData_inorder (n + length data) given b1) as (b2 & -> & Hs2 & Hb2 & Hi2);
    [done | lia |]. cbn [mbind result_bind].
  change (setContinuousBuf (type_direction HTTP_REQUEST) b2 (with_buf b1 t)) with (with_buf b2 t).
  rewrite parserExecute_with_buf.
  destruct (parserExecute db _ t) as [[ok s1]|f]; cbn [mbind result_bind fst snd]; [| done].
  split; [done |]. destruct ok; cbn [mbind result_bind snd].
  - exists b2. rewrite Hs2, Hb2, finishMe_with_buf. by split_and!.
  - exists (setUsedPos 0 b2). cbn [m_start m_buf setUsedPos]. rewrite Hs2, Hb2.
    split; [done |]. split; [done |]. split; [by eapply setUsedPos_inorder |].
    f_equal. rewrite <- finishMe_with_buf. done.
Qed.

Lemma in_order_bound s base n l4s : in_order s base n l4s -> Z.of_nat n < 4294967296.
Proof.
  revert n. induction l4s as [|l4 l4s IH]; intros n; cbn [in_order]; [done |].
  destruct (client_data s l4); [| apply IH]. intros [_ H1%IH]. lia.
Qed.

Lemma decode_stream_sound l4s n given b s s0 :
  decoding s -> m_sessId s = m_sessId s0 -> in_order s0 (m_start b) n l4s -> inorder_inv n given b ->
  match decode_stream l4s (m_buf b) given s with
  | Ok (stream, s') => exists b', updateAll l4s (with_buf b s) = Ok (with_buf b' s') /\ getBuf b' = stream
  | Fault f => updateAll l4s (with_buf b s) = Fault f
  end.
Proof.
  revert n given b s. induction l4s as [|l4 l4s IH]; intros n given b s Hd Hid Ho Hi; cbn [decode_stream updateAll].
  { by exists b. }
  cbn [in_order] in Ho. assert (client_data s0 l4 = client_data s l4) as Ec
    by (unfold client_data, getDirection; by rewrite Hid). rewrite Ec in Ho.
  destruct (client_data s l4) eqn:E.
  - destruct Ho as [Hq Ho].
    assert (Z.of_nat (n + Z.to_nat (m_L5Datalen l4)) < 4294967296) as Hlt by by eapply in_order_bound.
    pose proof (updateMe_client l4 n given b s Hd E Hi Hq Hlt) as Hu.
    destruct (l5_bytes l4) as [data|f]; cbn [mbind result_bind] in Hu |- *; [| by rewrite Hu].
    destruct (parserExecute db _ _) as [[ok s1]|f] eqn:Ex; cbn [mbind result_bind fst snd] in Hu |- *; [| by rewrite Hu].
    destruct Hu as (Hlen & b' & Hs' & Hb' & Hi' & ->). cbn [mbind result_bind].
    apply parserExecute_core in Ex as ((I1 & _ & _ & A1 & P1 & _) & _).
    set (u := if ok then s1 else parserInit HTTP_REQUEST s1).
    assert (decoding (finishMe l4 DIRECTION_TO_SERVER u) /\ m_sessId (finishMe l4 DIRECTION_TO_SERVER u) = m_sessId s0) as [Hd' Hid'].
    { destruct Hd as [Hp Ha]. unfold decoding, finishMe, finReceived, rstReceived.
      assert (m_protocol u = PROTOCOL_HTTP /\ m_activeFlg u = true /\ m_sessId u = m_sessId s0) as (? & ? & ?).
      { unfold u. rewrite <- Hp, <- Ha, <- Hid. unfold payloadState, revFirstPacket, directionReverse in *.
        destruct ok, (m_tcpState s); cbn in *; by rewrite ?P1, ?A1, ?I1. }
      destruct (m_rstSet l4), (negb (m_finSet l4)), (m_tcpState u); done. }
    rewrite <- Hs', <- Hlen in Ho. rewrite <- Hb'.
    specialize (IH _ _ b' _ Hd' Hid' Ho Hi'). unfold u in IH |- *.
    assert (length (m_buf b') = n + length data)%nat as Hl by apply Hi'.
    destruct ok; [rewrite Hl |]; exact IH.
  - rewrite (updateMe_other l4 b s Hd E). destruct (updateMe l4 s) as [s1|f] eqn:Eu; cbn [mbind result_bind]; [| done].
    apply updateMe_core in Eu as (I1 & P1 & A1). apply (IH n); try done; [| congruence].
    destruct Hd. split; congruence.
Qed.

(** C12: Active decoding of a client stream received in order.  Take an HTTP
    session in active mode whose client buffer was just given the first
    sequence number, not 0, by the SYN, and any packets of it, in both
    directions, in which the client's data segments follow each other in
    sequence (the 32-bit numbers may wrap around) and are less than 2^32 bytes
    together.  Then [updateMe] on each packet does what the specification
    without segment buffer does: as long as the parser reports no error, each
    data segment is given to it alone, so that it sees every byte exactly
    once; after an error the parser is initialised and the next data segment
    makes it see the whole stream from its first byte.  Exceptions are those of
    the specification, and at the end the buffer holds the client's stream. *)
Theorem inorder_decoding l4s base s :
  decoding s -> 0 < base < 4294967296 -> segServer s = setUsedPos 0 (setStartSeq base newCTcpSegBuf) ->
  in_order s base 0 l4s ->
  match decode_stream l4s [] 0 s with
  | Ok (stream, s') => exists b', updateAll l4s s = Ok (setContinuousBuf DIRECTION_TO_SERVER b' s') /\
      getBuf b' = stream
  | Fault f => updateAll l4s s = Fault f
  end.
Proof.
  intros Hd Hb Hseg Ho.
  assert (s = with_buf (segServer s) s) as Es by by destruct s.
  pose proof (decode_stream_sound l4s 0 0 (segServer s) s s Hd eq_refl) as Hs. rewrite <- Es in Hs.
  rewrite Hseg in Hs. apply Hs; [done |]. split; [done |].
  repeat (split; [cbn; (lia || done) |]). by left.
Qed.

(** ** Resets *)

(** A reset is asked for exactly for IPv4 packets of a session that is
    flagged or whose sender is listed; it goes back to the sender of the
    packet, with the sequence number the sender expects (its own
    acknowledgement number) and acknowledges the whole segment modulo 2^32. *)
Theorem blockMe_spec l4 s s' r :
  blockMe l4 s = Ok (s', r) ->
  (r <> None <-> getIpVersion (l4_l2 l4) = Ok 4 /\
     (m_shouldBlock s = true \/ isIpv4Hit db (getIpv4 (m_src (m_pL3Info l4))) = true)) /\
  (forall a, r = Some a ->
     rst_dst_ip a = getIpv4 (m_src (m_pL3Info l4)) /\ rst_dst_prt a = m_srcPort l4 /\
     rst_src_ip a = getIpv4 (m_dst (m_pL3Info l4)) /\ rst_src_prt a = m_dstPort l4 /\
     rst_seq a = m_ackNum l4 /\ rst_ack a = u32 (m_seqNum l4 + m_L5Datalen l4)) /\
  (m_shouldBlock s = true -> m_shouldBlock s' = true).
Proof.
  unfold blockMe. destruct (getIpVersion (l4_l2 l4)) as [v|]; [| done]. cbn [mbind result_bind].
  destruct (v =? 4) eqn:E4; breflect.
  - subst v. rewrite orb_diag. destruct (isIpv4Hit db _) eqn:Eh; cbn.
    + intros [= <- <-]. cbn. split; [| split]; [naive_solver | | done].
      intros a [= <-]. done.
    + intros [= <- <-]. destruct (m_shouldBlock s) eqn:Eb; split; try split; try naive_solver.
  - intros [= <- <-]. split; [| split]; [| done | done].
    split; [done |]. intros [[= ->] _]. done.
Qed.

(** The destination address is never looked up: a packet to a listed
    address, from an unlisted one, leaves an unflagged session unflagged and
    sends no reset, because [blockMe] tests the source address twice. *)
Theorem blockMe_ignores_destination l4 s s' r :
  isIpv4Hit db (getIpv4 (m_dst (m_pL3Info l4))) = true ->
  isIpv4Hit db (getIpv4 (m_src (m_pL3Info l4))) = false ->
  m_shouldBlock s = false ->
  blockMe l4 s = Ok (s', r) -> s' = s /\ r = None.
Proof.
  intros _ Hs Hb. unfold blockMe. rewrite Hs.
  destruct (getIpVersion (l4_l2 l4)) as [v|]; [| done]. cbn [mbind result_bind orb].
  rewrite Hb. destruct (v =? 4); by intros [= <- <-].
Qed.

End TcpSession.

(** ** Witnesses *)

(** a packet from one address to another, with an IPv4 header *)
Definition sample_l4 (src dst : Z) : CL4Info :=
  let l2 := mkL2 (mkPcapHdr 40 40 0) (69 :: repeat 0 39) 0 40 DLT_RAW in
  mkL4 (mkL3 l2 20 20 (CIpAddress_in_addr src) (CIpAddress_in_addr dst) IPPROTO_TCP None)
    40 0 40000 80 1000 2000 false true false false false false false.

(** a database that lists 10.0.0.2 *)
Definition listing_db : CDBManager := mkDb ∅ ∅ ∅ {[33554442 := bs "1"]}.

Lemma blockMe_spec_witness :
  let _ := script_parser [] in
  exists s' r, blockMe listing_db (sample_l4 33554442 16777226) (newCTcpSession setDefault sample_id)
                 = Ok (s', Some r) /\
    rst_dst_ip r = 33554442 /\ rst_seq r = 2000.
Proof.
  cbn zeta.
  destruct (@blockMe (script_parser []) listing_db (sample_l4 33554442 16777226)
              (@newCTcpSession (script_parser []) setDefault sample_id)) as [[s' r]|] eqn:E;
    [| vm_compute in E; discriminate E].
  destruct (@blockMe_spec (script_parser []) listing_db (sample_l4 33554442 16777226) _ s' r E)
    as ([_ Hr] & Ha & _).
  destruct r as [a|].
  - exists s', a. destruct (Ha a eq_refl) as (E1 & _ & _ & _ & E2 & _).
    split; [reflexivity |]. by rewrite E1, E2.
  - exfalso. apply Hr; [| done]. split; [by vm_compute | right; by vm_compute].
Defined.

Lemma blockMe_ignores_destination_witness :
  let _ := script_parser [] in
  let s := newCTcpSession setDefault sample_id in
  blockMe listing_db (sample_l4 16777226 33554442) s = Ok (s, None).
Proof.
  cbn zeta.
  destruct (@blockMe (script_parser []) listing_db (sample_l4 16777226 33554442)
              (@newCTcpSession (script_parser []) setDefault sample_id)) as [[s' r]|] eqn:E;
    [| vm_compute in E; discriminate E].
  destruct (@blockMe_ignores_destination (script_parser []) listing_db (sample_l4 16777226 33554442)
              (@newCTcpSession (script_parser []) setDefault sample_id) s' r) as [-> ->];
    [by vm_compute | by vm_compute | done | exact E | done].
Defined.

(** a data segment of the client of [sample_id] *)
Definition sample_data (seq : Z) (data : bytes) : CL4Info :=
  let l2 := mkL2 (mkPcapHdr 60 60 0) ((69 :: repeat 0 39) ++ data) 0 40 DLT_RAW in
  mkL4 (mkL3 l2 20 20 (CIpAddress_in_addr 16777226) (CIpAddress_in_addr 33554442) IPPROTO_TCP None)
    40 (Z.of_nat (length data)) 40000 80 seq 2000 false true false false false false false.

(** a parser that reports an error on a buffer that does not start with G *)
Definition picky_parser : HttpParserLib := {|
  http_parser := Z;
  http_parser_init := fun _ => 0;
  http_parser_execute := fun _ buf => ([], if str_at buf 0 =? 71 then 0 else 1);
  HTTP_PARSER_ERRNO := fun p => p
|}.

(** the numbers wrap, and a parse error makes the last segment come with the whole stream *)
Lemma inorder_decoding_witness :
  let _ := picky_parser in
  let s := setContinuousBuf DIRECTION_TO_SERVER (setUsedPos 0 (setStartSeq 4294967295 newCTcpSegBuf))
             (sessionCreated (newCTcpSession setDefault sample_id)) in
  exists b s', updateAll sample_db
      [sample_data 4294967295 [71; 69]; sample_l4 33554442 16777226; sample_data 1 [84]; sample_data 2 [32; 47]] s
      = Ok (setContinuousBuf DIRECTION_TO_SERVER b s') /\ getBuf b = [71; 69; 84; 32; 47].
Proof.
  cbn zeta.
  pose proof (@inorder_decoding picky_parser sample_db
    [sample_data 4294967295 [71; 69]; sample_l4 33554442 16777226; sample_data 1 [84]; sample_data 2 [32; 47]] 4294967295
    (@setContinuousBuf picky_parser DIRECTION_TO_SERVER (setUsedPos 0 (setStartSeq 4294967295 newCTcpSegBuf))
       (@sessionCreated picky_parser (@newCTcpSession picky_parser setDefault sample_id)))) as Ht.
  specialize (Ht ltac:(by vm_compute) ltac:(lia) eq_refl ltac:(by vm_compute)).
  destruct (@decode_stream picky_parser sample_db _ _ _ _) as [[stream s']|f] eqn:E; [| vm_compute in E; discriminate E].
  destruct Ht as (b & Eu & Eb). exists b, s'. split; [exact Eu |]. rewrite Eb. clear Eu Eb.
  vm_compute in E. injection E as <- _. reflexivity.
Defined.
