(* ===== verification/SessionPool.v ===== *)
(** * CTcpSessionPool: active sessions, the closed list and their ownership

    Sessions live in a heap indexed by pointers; the pointer of a session is
    its number, [++m_index] at creation.  The active map holds
    (key, pointer) entries; [std::unordered_map] finds an entry by hash and
    [operator==], and iterates in an unspecified order, the argument
    [iter_order].  The closed list is the queue shared with the decode
    thread; each access to it is one step under [m_lock]. *)
From Stdlib Require Import ZArith Lia.
From stdpp Require Import base gmap list strings numbers.
From S2P Require Import Prelude PacketDef IpAddress LayerInfo SegBuf Config DbManager Session HttpDecoder TcpSession.

Local Open Scope Z_scope.

Abbreviation ptr := Z.
Abbreviation entry := (CTcpSessionId * ptr)%type.

Section SessionPool.
Context `{HttpParserLib}.

Record CTcpSessionPool := mkPool {
  m_index : Z;
  m_activeSessMap : list entry;
  m_closedSessList : list ptr
}.

(** [CTcpSessionPool::CTcpSessionPool] *)
Definition newCTcpSessionPool : CTcpSessionPool := mkPool 0 [] [].

Abbreviation heap := (gmap ptr CTcpSession).

(** [*p] *)
Definition deref (h : heap) (p : ptr) : result CTcpSession :=
  match h !! p with Some s => Ok s | None => Fault UseAfterFree end.

(** ** The hash map *)

(** An entry matches when its bucket's hash and its key agree. *)
Definition entry_matches (id : CTcpSessionId) (e : entry) : bool :=
  (getHash e.1 =? getHash id) && id_eqb e.1 id.

Definition map_find (id : CTcpSessionId) (m : list entry) : option entry :=
  head (filter (fun e => entry_matches id e = true) m).

(** [m.erase(it)] for the iterator at the entry of [id] *)
Fixpoint map_erase (id : CTcpSessionId) (m : list entry) : list entry :=
  match m with
  | [] => []
  | e :: m' => if entry_matches id e then m' else e :: map_erase id m'
  end.

(** [m[id] = p] *)
Fixpoint map_assign (id : CTcpSessionId) (p : ptr) (m : list entry) : list entry :=
  match m with
  | [] => [(id, p)]
  | e :: m' => if entry_matches id e then (e.1, p) :: m' else e :: map_assign id p m'
  end.

(** ** Operations *)

(** [createSession(id)] *)
Definition createSession (cfg : CConfig) (id : CTcpSessionId) (pool : CTcpSessionPool) (h : heap)
  : ptr * CTcpSessionPool * heap :=
  let num := m_index pool + 1 in
  let s := setNum num (newCTcpSession cfg id) in
  (num, mkPool num (map_assign id num (m_activeSessMap pool)) (m_closedSessList pool),
   <[num := s]> h).

(** [findActiveSession(id)] *)
Definition findActiveSession (id : CTcpSessionId) (pool : CTcpSessionPool) : option ptr :=
  snd <$> map_find id (m_activeSessMap pool).

(** [removeSession(id)] *)
Definition removeSession (id : CTcpSessionId) (pool : CTcpSessionPool) (h : heap)
  : CTcpSessionPool * heap :=
  match map_find id (m_activeSessMap pool) with
  | Some e => (mkPool (m_index pool) (map_erase id (m_activeSessMap pool)) (m_closedSessList pool),
               delete e.2 h)
  | None => (pool, h)
  end.

(** [popClosedSession()] *)
Definition popClosedSession (pool : CTcpSessionPool) : option ptr * CTcpSessionPool :=
  match m_closedSessList pool with
  | [] => (None, pool)
  | p :: l => (Some p, mkPool (m_index pool) (m_activeSessMap pool) l)
  end.

(** [postSession(id)] *)
Definition postSession (id : CTcpSessionId) (pool : CTcpSessionPool) : CTcpSessionPool :=
  match map_find id (m_activeSessMap pool) with
  | Some e => mkPool (m_index pool) (map_erase id (m_activeSessMap pool))
                (m_closedSessList pool ++ [e.2])
  | None => pool
  end.

(** the loop of [postTimeoutSessions]: posted pointers and kept entries; the
    eleventh posting breaks out *)
Fixpoint timeout_loop (h : heap) (now timeout num : Z) (l : list entry)
  : result (list ptr * list entry) :=
  match l with
  | [] => Ok ([], [])
  | e :: rest =>
    s ← deref h e.2;
    if m_lastUpdateTime s + timeout <? now then
      if 10 <? num + 1 then Ok ([e.2], rest)
      else r ← timeout_loop h now timeout (num + 1) rest; Ok (e.2 :: r.1, r.2)
    else r ← timeout_loop h now timeout num rest; Ok (r.1, e :: r.2)
  end.

(** [postTimeoutSessions(now, timeout)] *)
Definition postTimeoutSessions (iter_order : list entry -> list entry) (now timeout : Z)
    (pool : CTcpSessionPool) (h : heap) : result CTcpSessionPool :=
  r ← timeout_loop h now timeout 0 (iter_order (m_activeSessMap pool));
  Ok (mkPool (m_index pool) r.2 (m_closedSessList pool ++ r.1)).

(** ** Invariant *)

(** [held] are the sessions the decode thread has popped.  Every live
    session has exactly one owner: the active map, the closed list or the
    decode thread; an active entry's key is the session's identifier, no two
    active keys are equal, and no active session is closed. *)
Record pool_inv (held : list ptr) (pool : CTcpSessionPool) (h : heap) : Prop := {
  inv_nodup : NoDup ((m_activeSessMap pool).*2 ++ m_closedSessList pool ++ held);
  inv_owned : forall p, p ∈ (m_activeSessMap pool).*2 ++ m_closedSessList pool ++ held <->
                is_Some (h !! p);
  inv_fresh : forall p, is_Some (h !! p) -> p <= m_index pool;
  inv_keys : forall e, e ∈ m_activeSessMap pool ->
               id_wf e.1 /\ exists s, h !! e.2 = Some s /\ m_sessId s = e.1 /\
                              m_tcpState s <> TCP_SM_CLOSED;
  inv_unique : forall e1 e2, e1 ∈ m_activeSessMap pool -> e2 ∈ m_activeSessMap pool ->
                 id_rel e1.1 e2.1 -> e1 = e2
}.

(** ** Lookup *)

Lemma entry_matches_spec id e : id_wf id -> id_wf e.1 ->
  (entry_matches id e = true <-> id_rel e.1 id).
Proof.
  intros Hi He. unfold entry_matches. rewrite andb_true_iff, Z.eqb_eq, id_eqb_spec by done.
  change (getHash e.1 = getHash id /\ id_rel e.1 id <-> id_rel e.1 id).
  split; [tauto |]. intros Hr. split; [by apply getHash_proper | done].
Qed.

Lemma map_find_Some id m e :
  map_find id m = Some e -> e ∈ m /\ entry_matches id e = true.
Proof.
  unfold map_find. intros E%head_Some_elem_of. by apply list_elem_of_filter in E as [? ?].
Qed.

Lemma map_find_None id m e : map_find id m = None -> e ∈ m -> entry_matches id e = false.
Proof.
  unfold map_find. intros E%head_None He.
  destruct (entry_matches id e) eqn:M; [| done].
  exfalso. apply (not_elem_of_nil e). rewrite <- E. by apply list_elem_of_filter.
Qed.

(** The hash never hides a session: looking a key up by bucket hash and
    [operator==] finds the same entry as comparing keys alone, for either
    direction of the connection. *)
Theorem map_find_by_key id m :
  id_wf id -> Forall (fun e => id_wf e.1) m ->
  map_find id m = head (filter (fun e => id_eqb e.1 id = true) m) /\
  map_find (id_swap id) m = map_find id m.
Proof.
  intros Hi Hm. unfold map_find. induction Hm as [|e m He Hm [IH1 IH2]]; [done |].
  rewrite !filter_cons.
  assert (entry_matches id e = true <-> id_eqb e.1 id = true) as H1
    by by rewrite entry_matches_spec, id_eqb_spec.
  assert (entry_matches (id_swap id) e = true <-> entry_matches id e = true) as H2.
  { rewrite !entry_matches_spec by auto using id_swap_wf.
    assert (id_rel id (id_swap id)) as Hs by (right; by rewrite id_swap_invol).
    split; intros Hr; [transitivity (id_swap id) | transitivity id]; done || by symmetry. }
  repeat case_decide; tauto || done.
Qed.

Lemma map_erase_perm id m e : map_find id m = Some e -> m ≡ₚ e :: map_erase id m.
Proof.
  unfold map_find. induction m as [|e' m IH]; [done |]. rewrite filter_cons. cbn [map_erase].
  destruct (entry_matches id e') eqn:M; case_decide; try done.
  - cbn. by intros [= ->].
  - intros E%IH. rewrite E at 1. apply Permutation_swap.
Qed.

Lemma map_assign_new id p m :
  (forall e, e ∈ m -> entry_matches id e = false) -> map_assign id p m = m ++ [(id, p)].
Proof.
  induction m as [|e m IH]; intros Hm; cbn; [done |].
  rewrite Hm by set_solver. f_equal. apply IH. set_solver.
Qed.

(** ** Timeouts *)

Definition timed_out (h : heap) (now timeout : Z) (p : ptr) : Prop :=
  exists s, h !! p = Some s /\ m_lastUpdateTime s + timeout < now.

Lemma timeout_loop_spec h now timeout num l :
  (forall e, e ∈ l -> is_Some (h !! e.2)) -> 0 <= num <= 10 ->
  exists posted kept, timeout_loop h now timeout num l = Ok (posted.*2, kept) /\
    l ≡ₚ posted ++ kept /\
    Forall (fun e : entry => timed_out h now timeout e.2) posted /\
    Z.of_nat (length posted) <= 11 - num /\
    (Z.of_nat (length posted) < 11 - num ->
     Forall (fun e : entry => ~ timed_out h now timeout e.2) kept).
Proof.
  revert num. induction l as [|e l IH]; intros num Hl Hn.
  - exists [], []. repeat split; try done. cbn. lia.
  - destruct (Hl e) as [s Hs]; [set_solver |]. cbn [timeout_loop]. unfold deref. rewrite Hs.
    cbn [mbind result_bind].
    destruct (_ <? now) eqn:Et; breflect.
    + assert (timed_out h now timeout e.2) as Ht by by exists s.
      destruct (10 <? num + 1) eqn:En; breflect.
      * exists [e], l. repeat split; try done; [by constructor | cbn; lia | cbn; lia].
      * destruct (IH (num + 1)) as (po & ke & -> & Hp & Hf & Hb & Hk); [set_solver | lia |].
        exists (e :: po), ke. cbn. repeat split.
        -- by rewrite Hp.
        -- by constructor.
        -- lia.
        -- intros. apply Hk. lia.
    + assert (~ timed_out h now timeout e.2) as Ht
        by (intros (s' & Hs' & ?); rewrite Hs in Hs'; injection Hs' as <-; lia).
      destruct (IH num) as (po & ke & -> & Hp & Hf & Hb & Hk); [set_solver | done |].
      exists po, (e :: ke). cbn. repeat split; try done.
      * by rewrite Hp, Permutation_middle.
      * intros. constructor; [done | by apply Hk].
Qed.

(** ** Every operation preserves the invariant *)

Lemma inv_active_live held pool h e :
  pool_inv held pool h -> e ∈ m_activeSessMap pool -> is_Some (h !! e.2).
Proof. intros I He. apply (inv_keys _ _ _ I) in He as (_ & s & Hs & _). by exists s. Qed.

(** Moving entries between the three owners keeps the invariant. *)
Lemma pool_inv_move held held' pool pool' h :
  pool_inv held pool h -> m_index pool' = m_index pool ->
  m_activeSessMap pool' ⊆ m_activeSessMap pool ->
  (m_activeSessMap pool').*2 ++ m_closedSessList pool' ++ held' ≡ₚ
  (m_activeSessMap pool).*2 ++ m_closedSessList pool ++ held ->
  pool_inv held' pool' h.
Proof.
  intros [Hn Ho Hf Hk Hu] Hi Hsub Hp. constructor.
  - by rewrite Hp.
  - intros p. by rewrite Hp.
  - intros p. rewrite Hi. apply Hf.
  - intros e He. by apply Hk, Hsub.
  - intros e1 e2 H1 H2. apply Hu; by apply Hsub.
Qed.

Lemma postSession_inv held id pool h :
  pool_inv held pool h -> pool_inv held (postSession id pool) h.
Proof.
  intros I. unfold postSession. destruct (map_find id _) as [e|] eqn:E; [| done].
  pose proof (map_erase_perm _ _ _ E) as Hp.
  eapply pool_inv_move; [exact I | done | |]; cbn.
  - rewrite Hp at 2. set_solver.
  - rewrite Hp at 2. cbn. rewrite <- app_assoc. cbn. rewrite <- Permutation_middle.
    rewrite (app_assoc _ (m_closedSessList pool)). rewrite <- Permutation_middle.
    by rewrite <- app_assoc.
Qed.

Lemma popClosedSession_inv held pool h p pool' :
  pool_inv held pool h -> popClosedSession pool = (Some p, pool') -> pool_inv (p :: held) pool' h.
Proof.
  intros I. unfold popClosedSession. destruct (m_closedSessList pool) as [|q l] eqn:E; [done |].
  intros [= -> <-]. eapply pool_inv_move; [exact I | done | done |]; cbn.
  rewrite E. f_equiv. cbn. by rewrite <- Permutation_middle.
Qed.

Lemma delete_held_inv p held pool h :
  pool_inv (p :: held) pool h -> pool_inv held pool (delete p h).
Proof.
  intros [Hn Ho Hf Hk Hu].
  assert ((m_activeSessMap pool).*2 ++ m_closedSessList pool ++ p :: held ≡ₚ
          p :: (m_activeSessMap pool).*2 ++ m_closedSessList pool ++ held) as Hp
    by (rewrite !app_assoc; by rewrite <- Permutation_middle).
  rewrite Hp in Hn. apply list.NoDup_cons in Hn as [Hnp Hn]. constructor; [done | | | |].
  - intros q. destruct (decide (q = p)) as [->|Hq].
    + rewrite lookup_delete_eq. split; [by intros ?%Hnp | by intros []].
    + rewrite lookup_delete_ne, <- Ho, Hp, elem_of_cons by done. naive_solver.
  - intros q Hq. apply Hf. destruct (decide (q = p)) as [->|];
      [by rewrite lookup_delete_eq in Hq; destruct Hq | by rewrite lookup_delete_ne in Hq].
  - intros e He. destruct (Hk e He) as (Hw & s & Hs & ?). split; [done |]. exists s.
    rewrite lookup_delete_ne; [done |]. intros ->. apply Hnp.
    apply elem_of_app. left. apply list_elem_of_fmap. eauto.
  - done.
Qed.

(** Writing to a live session that stays open and keeps its key. *)
Lemma update_session_inv held pool h p s s' :
  pool_inv held pool h -> h !! p = Some s -> m_sessId s' = m_sessId s ->
  (m_tcpState s' <> TCP_SM_CLOSED \/ p ∉ (m_activeSessMap pool).*2) ->
  pool_inv held pool (<[p := s']> h).
Proof.
  intros [Hn Ho Hf Hk Hu] Hp Hid Hst. constructor; [done | | | | done].
  - intros q. rewrite Ho. destruct (decide (q = p)) as [->|];
      [rewrite lookup_insert_eq, Hp; split; eauto | by rewrite lookup_insert_ne].
  - intros q Hq. apply Hf. destruct (decide (q = p)) as [->|];
      [by exists s | by rewrite lookup_insert_ne in Hq].
  - intros e He. destruct (Hk e He) as (Hw & s0 & Hs0 & Hid0 & Hop0). split; [done |].
    destruct (decide (e.2 = p)) as [<-|].
    + exists s'. rewrite lookup_insert_eq. rewrite Hp in Hs0. injection Hs0 as ->.
      split; [done |]. split; [congruence |]. destruct Hst as [? | Hst]; [done |].
      exfalso. apply Hst, list_elem_of_fmap. eauto.
    + exists s0. by rewrite lookup_insert_ne.
Qed.

Lemma createSession_inv held cfg id pool h p pool' h' :
  pool_inv held pool h -> id_wf id -> findActiveSession id pool = None ->
  createSession cfg id pool h = (p, pool', h') ->
  pool_inv held pool' h' /\ h' !! p = Some (setNum p (newCTcpSession cfg id)) /\
  m_activeSessMap pool' = m_activeSessMap pool ++ [(id, p)].
Proof.
  intros [Hn Ho Hf Hk Hu] Hid Hnone. unfold createSession. intros [= <- <- <-].
  apply fmap_None in Hnone.
  assert (forall e, e ∈ m_activeSessMap pool -> entry_matches id e = false) as Hno
    by (intros e; by apply map_find_None).
  assert (h !! (m_index pool + 1) = None) as Hfresh.
  { destruct (h !! _) eqn:E; [| done]. specialize (Hf (m_index pool + 1)).
    rewrite E in Hf. specialize (Hf ltac:(eauto)). lia. }
  rewrite map_assign_new by done.
  split; [| split; [apply lookup_insert_eq | done]].
  set (q := m_index pool + 1) in *.
  assert ((m_activeSessMap pool ++ [(id, q)]).*2 ++ m_closedSessList pool ++ held ≡ₚ
          q :: (m_activeSessMap pool).*2 ++ m_closedSessList pool ++ held) as Hp.
  { rewrite fmap_app, <- app_assoc. cbn. by rewrite <- Permutation_middle. }
  constructor; cbn [m_index m_activeSessMap m_closedSessList].
  - rewrite Hp. apply list.NoDup_cons. split; [| done]. rewrite Ho, Hfresh. by intros [].
  - intros r. rewrite Hp, elem_of_cons, Ho. destruct (decide (r = q)) as [->|];
      [rewrite lookup_insert_eq; split; eauto | rewrite lookup_insert_ne by done; naive_solver].
  - intros r Hr. destruct (decide (r = q)) as [->|]; [done |].
    rewrite lookup_insert_ne in Hr by done. apply Hf in Hr. lia.
  - intros e [He | ->%list_elem_of_singleton]%elem_of_app.
    + destruct (Hk e He) as (Hw & s & Hs & ?). split; [done |]. exists s.
      rewrite lookup_insert_ne; [done |]. intros E. rewrite E in Hfresh. congruence.
    + split; [done |]. eexists. cbn. rewrite lookup_insert_eq. done.
  - assert (forall e, e ∈ m_activeSessMap pool -> ~ id_rel e.1 id) as Hne.
    { intros e He Hr. apply entry_matches_spec in Hr; [| done | by apply Hk].
      by rewrite Hno in Hr. }
    intros e1 e2 [H1 | ->%list_elem_of_singleton]%elem_of_app
                 [H2 | ->%list_elem_of_singleton]%elem_of_app; cbn; intros Hr.
    + by apply Hu.
    + by apply Hne in Hr.
    + symmetry in Hr. by apply Hne in Hr.
    + done.
Qed.

Lemma new_pool_inv : pool_inv [] newCTcpSessionPool ∅.
Proof.
  constructor; cbn; [apply NoDup_nil_2 | | | set_solver | set_solver].
  - intros p. rewrite lookup_empty. split; [set_solver | by intros [? [=]]].
  - intros p. rewrite lookup_empty. by intros [? [=]].
Qed.

Section Timeouts.
Context (iter_order : list entry -> list entry) (Hiter : forall l, iter_order l ≡ₚ l).

Lemma postTimeoutSessions_inv held now timeout pool h :
  pool_inv held pool h ->
  exists pool', postTimeoutSessions iter_order now timeout pool h = Ok pool' /\
    pool_inv held pool' h /\
    (forall e, e ∈ m_activeSessMap pool' -> e ∈ m_activeSessMap pool).
Proof using Hiter.
  intros I. unfold postTimeoutSessions.
  destruct (timeout_loop_spec h now timeout 0 (iter_order (m_activeSessMap pool)))
    as (po & ke & -> & Hp & _); [| lia |].
  - intros e. rewrite Hiter. by apply inv_active_live with held.
  - rewrite Hiter in Hp. eexists; split; [done |].
    assert (forall e, e ∈ ke -> e ∈ m_activeSessMap pool) as Hin
      by (intros e He; rewrite Hp; set_solver).
    split; [| done]. eapply pool_inv_move; [exact I | done | |]; cbn.
    + done.
    + rewrite Hp, fmap_app, <- !app_assoc.
      rewrite (Permutation_app_swap_app (po.*2)). f_equiv.
      by rewrite (Permutation_app_swap_app (po.*2)).
Qed.

(** C13: The timeout sweep, for every iteration order of the hash map: it
    never dereferences a deleted session, moves only sessions idle for more
    than [timeout] seconds, at most eleven of them, loses and duplicates
    none, appends them to the closed list, and when it moves fewer than
    eleven no idle session is left active. *)
Theorem postTimeoutSessions_spec held now timeout pool h :
  pool_inv held pool h ->
  exists pool' posted, postTimeoutSessions iter_order now timeout pool h = Ok pool' /\
    pool_inv held pool' h /\
    m_closedSessList pool' = m_closedSessList pool ++ posted.*2 /\
    m_activeSessMap pool ≡ₚ posted ++ m_activeSessMap pool' /\
    Forall (fun e : entry => timed_out h now timeout e.2) posted /\
    (length posted <= 11)%nat /\
    ((length posted < 11)%nat ->
     Forall (fun e : entry => ~ timed_out h now timeout e.2) (m_activeSessMap pool')).
Proof using Hiter.
  intros I. destruct (postTimeoutSessions_inv held now timeout pool h I) as (pool' & E & I' & _).
  unfold postTimeoutSessions in E.
  destruct (timeout_loop_spec h now timeout 0 (iter_order (m_activeSessMap pool)))
    as (po & ke & El & Hp & Hf & Hb & Hk); [| lia |].
  - intros e. rewrite Hiter. by apply inv_active_live with held.
  - unfold postTimeoutSessions. rewrite El in *. cbn in E. injection E as <-.
    rewrite Hiter in Hp. eexists _, po. split; [done |]. split; [done |].
    split; [done |]. split; [done |]. split; [done |]. split; [lia |].
    intros. apply Hk. lia.
Qed.

End Timeouts.

End SessionPool.

(** ** Witnesses *)

Lemma map_find_by_key_witness :
  map_find (id_swap sample_id) [(sample_id, 7)] = Some (sample_id, 7).
Proof.
  destruct (map_find_by_key sample_id [(sample_id, 7)]) as [E1 E2].
  - apply sample_id_wf.
  - constructor; [apply sample_id_wf | constructor].
  - rewrite E2, E1. by vm_compute.
Defined.

Lemma postTimeoutSessions_spec_witness :
  let _ := script_parser [] in
  let '(p, pool, h) := createSession setDefault sample_id newCTcpSessionPool ∅ in
  exists pool', postTimeoutSessions id 100 60 pool h = Ok pool' /\ pool_inv [] pool' h /\
    m_closedSessList pool' = [1].
Proof.
  destruct (@createSession_inv (script_parser []) [] setDefault sample_id newCTcpSessionPool ∅
              1 _ _ new_pool_inv sample_id_wf eq_refl eq_refl) as (I & _ & _).
  destruct (@postTimeoutSessions_spec (script_parser []) id (fun l => reflexivity l) [] 100 60 _ _ I)
    as (pool' & po & E & I' & Hc & _).
  exists pool'. split; [exact E |]. split; [exact I' |].
  vm_compute in E. injection E as <-. done.
Defined.
