(* ===== verification/PacketHandler.v ===== *)
(** * CPacketHandler: from a captured frame to the session update

    [processL2] selects the link-layer decoder, [processL3] the IP version,
    [processL4] the transport protocol and [processL5] updates the session
    pool.  The layer functions call the next one at their end, so layers 2
    to 4 are written against the function they call; the last section
    composes them with [processL5]. *)
From Stdlib Require Import ZArith Lia.
From stdpp Require Import base gmap list strings numbers.
From S2P Require Import Prelude PacketDef IpAddress LayerInfo SegBuf Config DbManager Session HttpDecoder TcpSession SessionPool.

Local Open Scope Z_scope.

(** ** Layer 2 *)

Section Layer2.
Context {W : Type} (processL3 : CL2Info -> W -> result W).

(** [processL2En10Mb] *)
Definition processL2En10Mb (header : pcap_pkthdr) (packet : bytes) (w : W) : result W :=
  if negb (len header =? caplen header) then Ok w
  else
    etherType ← ether_header.ether_type packet 0;
    let vlan := etherType =? ETHERTYPE_VLAN in
    let cap := if vlan then u32 (caplen header - 4) else caplen header in
    let etherData := if vlan then 18%nat else 14%nat in
    if cap <? 14 then Ok w
    else processL3 (mkL2 header packet etherData (cap - 14) DLT_EN10MB) w.

(** the loop that unwinds the MPLS stack: [None] on an overrun, otherwise
    the remaining length and the size of the stack *)
Fixpoint mpls_loop (fuel : nat) (packet : bytes) (cap mpls_sz : Z) : result (option (Z * Z)) :=
  match fuel with
  | O => Fault OutOfFuel
  | S k =>
    if cap <? u32 (SLL_HDR_LEN + mpls_sz + 4) then Ok None
    else
      let mpls_sz' := u32 (mpls_sz + 4) in
      let cap' := u32 (cap - 4) in
      b ← read8 packet (Z.to_nat (SLL_HDR_LEN + mpls_sz' - 2));
      if Z.land b 1 =? 0 then mpls_loop k packet cap' mpls_sz'
      else Ok (Some (cap', mpls_sz'))
  end.

(** [processL2LinuxSll]; each round of the loop takes four bytes off the
    captured length, so [S caplen] rounds are enough *)
Definition processL2LinuxSll (header : pcap_pkthdr) (packet : bytes) (w : W) : result W :=
  if negb (len header =? caplen header) then Ok w
  else if caplen header <? SLL_HDR_LEN then Ok w
  else
    proto ← sll_header.sll_protocol packet 0;
    r ← (if proto =? ETHERTYPE_MPLS
         then mpls_loop (S (Z.to_nat (caplen header))) packet (caplen header) 0
         else Ok (Some (caplen header, 0)));
    match r with
    | None => Ok w
    | Some (cap, mpls_sz) =>
      processL3 (mkL2 header packet (Z.to_nat (SLL_HDR_LEN + mpls_sz)) (u32 (cap - SLL_HDR_LEN))
                   DLT_LINUX_SLL) w
    end.

(** [processL2Raw] only logs a short capture *)
Definition processL2Raw (header : pcap_pkthdr) (packet : bytes) (w : W) : result W :=
  processL3 (mkL2 header packet 0 (caplen header) DLT_RAW) w.

(** [processL2Null] reads the family before any check *)
Definition processL2Null (header : pcap_pkthdr) (packet : bytes) (w : W) : result W :=
  family ← read_le32 packet 0;
  if negb (len header =? caplen header) then Ok w
  else if caplen header <? NULL_HDRLEN then Ok w
  else if negb (family =? AF_INET) && negb (family =? AF_INET6) then Ok w
  else processL3 (mkL2 header packet 4 (caplen header - NULL_HDRLEN) DLT_NULL) w.

(** [processL2Ppp] *)
Definition processL2Ppp (header : pcap_pkthdr) (packet : bytes) (w : W) : result W :=
  if negb (len header =? caplen header) then Ok w
  else if caplen header <? PPP_HDRLEN then Ok w
  else processL3 (mkL2 header packet 4 (caplen header - PPP_HDRLEN) DLT_PPP) w.

(** [processL2]: the switch on the link type *)
Definition processL2 (DLT : Z) (header : pcap_pkthdr) (packet : bytes) (w : W) : result W :=
  if (DLT =? DLT_EN10MB) || (DLT =? DLT_IEEE802) then processL2En10Mb header packet w
  else if DLT =? DLT_LINUX_SLL then processL2LinuxSll header packet w
  else if (DLT =? 101) || (DLT =? 12) || (DLT =? 14) then processL2Raw header packet w
  else if DLT =? DLT_NULL then processL2Null header packet w
  else if DLT =? DLT_PPP then processL2Ppp header packet w
  else Ok w.

End Layer2.

(** ** Layers 3 and 4 *)

Section Layer34.
Context {W : Type} (processL5 : CL4Info -> W -> result (Z * W)).

(** [processL4Tcp] *)
Definition processL4Tcp (l3 : CL3Info) (w : W) : result (Z * W) :=
  if m_L4Datalen l3 <? Z.of_nat tcphdr.sizeof_tcphdr then Ok (-1, w)
  else
    let m := m_pcapData (m_pL2Info l3) in
    off ← tcphdr.th_off m (m_L4Data l3);
    let tcpHeaderLen := u8 (off * 4) in
    let tcpPayload := (m_L4Data l3 + Z.to_nat tcpHeaderLen)%nat in
    let tcpDataLen := if tcpHeaderLen <? m_L4Datalen l3
                      then m_L4Datalen l3 - tcpHeaderLen else 0 in
    srcPort ← tcphdr.th_sport m (m_L4Data l3);
    dstPort ← tcphdr.th_dport m (m_L4Data l3);
    l4 ← newCL4Info l3 tcpPayload tcpDataLen srcPort dstPort;
    processL5 l4 w.

(** [processL4Udp] *)
Definition processL4Udp (l3 : CL3Info) (w : W) : result (Z * W) := Ok (-1, w).

(** [processL4] *)
Definition processL4 (l3 : CL3Info) (w : W) : result (Z * W) :=
  if m_payloadProtocol l3 =? IPPROTO_TCP then processL4Tcp l3 w
  else if m_payloadProtocol l3 =? IPPROTO_UDP then processL4Udp l3 w
  else Ok (-1, w).

(** [processL3Ip4] *)
Definition processL3Ip4 (l2 : CL2Info) (w : W) : result (Z * W) :=
  let m := m_pcapData l2 in
  let h := m_L3Data l2 in
  if m_L3Datalen l2 <? Z.of_nat ip4_hdr.sizeof_ip4_hdr then Ok (-1, w)
  else
    ipLen ← ip4_hdr.ip_len m h;
    if m_L3Datalen l2 <? ipLen then Ok (-1, w)
    else
      off ← ip4_hdr.ip_off m h;
      if negb (Z.land off IP_OFFMASK =? 0) then Ok (-1, w)
      else
        hl ← ip4_hdr.ip_hl m h;
        let ipHeaderLen := hl * 4 in
        if ipLen <? ipHeaderLen then Ok (-1, w)
        else
          src ← ip4_hdr.ip_src m h;
          dst ← ip4_hdr.ip_dst m h;
          l3 ← newCL3Info l2 (h + Z.to_nat ipHeaderLen) (ipLen - ipHeaderLen)
                 (CIpAddress_in_addr src) (CIpAddress_in_addr dst);
          processL4 l3 w.

(** [processL3Ip6]: the payload length is taken from the header *)
Definition processL3Ip6 (l2 : CL2Info) (w : W) : result (Z * W) :=
  let m := m_pcapData l2 in
  let h := m_L3Data l2 in
  if m_L3Datalen l2 <? Z.of_nat ip6_hdr.sizeof_ip6_hdr then Ok (-1, w)
  else
    plen ← ip6_hdr.ip6_un1_plen m h;
    src ← ip6_hdr.ip6_src m h;
    dst ← ip6_hdr.ip6_dst m h;
    l3 ← newCL3Info l2 (h + ip6_hdr.sizeof_ip6_hdr) plen
           (CIpAddress_bytes src) (CIpAddress_bytes dst);
    processL4 l3 w.

(** [processL3] drops the result code *)
Definition processL3 (l2 : CL2Info) (w : W) : result W :=
  version ← getIpVersion l2;
  if version =? 4 then r ← processL3Ip4 l2 w; Ok r.2
  else if version =? 6 then r ← processL3Ip6 l2 w; Ok r.2
  else Ok w.

End Layer34.

(** ** Layer 5: the session pool *)

Section Layer5.
Context `{HttpParserLib} (cfg : CConfig) (db : CDBManager)
  (iter_order : list entry -> list entry).

(** the state of the capture side and the resets it has sent *)
Record world := mkWorld {
  w_pool : CTcpSessionPool;
  w_heap : gmap ptr CTcpSession;
  w_rsts : list rst_args
}.

Definition l4_id (l4 : CL4Info) : CTcpSessionId :=
  mkId (m_src (m_pL3Info l4)) (m_srcPort l4) (m_dst (m_pL3Info l4)) (m_dstPort l4).

(** the initialisation of a session created by a SYN *)
Definition init_session (l4 : CL4Info) (s : CTcpSession) : CTcpSession :=
  let b := setUsedPos 0 (setStartSeq (u32 (m_seqNum l4 + 1)) (segServer s)) in
  sessionCreated (setLastUpdateTime (l4_now l4) (setContinuousBuf DIRECTION_TO_SERVER b s)).

(** [processL5] *)
Definition processL5 (l4 : CL4Info) (w : world) : result (Z * world) :=
  let now := l4_now l4 in
  let id := l4_id l4 in
  let pool := w_pool w in
  match findActiveSession id pool with
  | None =>
    if m_synSet l4 && negb (m_ackSet l4) then
      let '(p, pool', h') := createSession cfg id pool (w_heap w) in
      s ← deref h' p;
      b ← blockMe db l4 (init_session l4 s);
      Ok (0, mkWorld pool' (<[p := b.1]> h') (w_rsts w ++ option_list b.2))
    else Ok (-1, w)
  | Some p =>
    s ← deref (w_heap w) p;
    let s1 := setLastUpdateTime now s in
    let h1 := <[p := s1]> (w_heap w) in
    if m_ackPacket l4 then
      if Z.rem now 10 =? 0 then
        pool' ← postTimeoutSessions iter_order now 60 pool h1;
        Ok (0, mkWorld pool' h1 (w_rsts w))
      else Ok (0, mkWorld pool h1 (w_rsts w))
    else if isClosed s1 then Ok (-1, mkWorld pool h1 (w_rsts w))
    else
      s2 ← updateMe db l4 s1;
      b ← blockMe db l4 s2;
      let h2 := <[p := b.1]> h1 in
      let rsts := w_rsts w ++ option_list b.2 in
      if isClosed b.1 then
        let h3 := <[p := sessionPosted b.1]> h2 in
        Ok (0, mkWorld (postSession id pool) h3 rsts)
      else Ok (0, mkWorld pool h2 rsts)
  end.

(** [packetCallBack]: one captured frame *)
Definition packetCallBack (DLT : Z) (header : pcap_pkthdr) (packet : bytes) (w : world)
  : result world :=
  processL2 (processL3 processL5) DLT header packet w.

End Layer5.

(** ** Parsing is memory safe on IPv4 and hands over well-formed segments *)

Section Parsing.
Context {W : Type} (k : CL4Info -> W -> result (Z * W)).

(** The outcome of layers 3 and 4: the packet is dropped and the state
    unchanged, or one well-formed segment of this packet reaches layer 5. *)
Definition handed_over (l2 : CL2Info) (w : W) (r : result (Z * W)) : Prop :=
  r = Ok (-1, w) \/ exists l4, l4_wf l4 /\ l4_l2 l4 = l2 /\ r = k l4 w.

Lemma processL4Tcp_sound l3 w :
  l3_wf l3 -> m_L4Datalen l3 <= 65535 ->
  handed_over (m_pL2Info l3) w (processL4Tcp k l3 w).
Proof.
  intros Hl3 Hmax. pose proof Hl3 as ((Hb & _) & _ & _ & H0 & Hl).
  unfold processL4Tcp, tcphdr.sizeof_tcphdr.
  destruct (m_L4Datalen l3 <? Z.of_nat 20) eqn:E20; breflect; [by left |].
  unfold tcphdr.th_off, tcphdr.th_sport, tcphdr.th_dport.
  destruct (read8_inside _ Hb (m_L4Data l3 + 12)) as (o & -> & Ho); [lia |].
  cbn [mbind result_bind].
  destruct (read_be16_inside _ Hb (m_L4Data l3)) as (sp & -> & Hsp); [lia |].
  cbn [mbind result_bind].
  destruct (read_be16_inside _ Hb (m_L4Data l3 + 2)) as (dp & -> & Hdp); [lia |].
  cbn [mbind result_bind].
  pose proof (u8_range (Z.shiftr o 4 * 4)) as Hu.
  destruct (newCL4Info_wf l3 (m_L4Data l3 + Z.to_nat (u8 (Z.shiftr o 4 * 4)))
              (if u8 (Z.shiftr o 4 * 4) <? m_L4Datalen l3
               then m_L4Datalen l3 - u8 (Z.shiftr o 4 * 4) else 0) sp dp)
    as (l4 & E & Hw & E3 & _); try done.
  - destruct (_ <? m_L4Datalen l3) eqn:E; breflect; lia.
  - destruct (_ <? m_L4Datalen l3) eqn:E; breflect; lia.
  - right. exists l4. rewrite E. split; [done |]. split; [| done].
    unfold l4_l2. by rewrite E3.
Qed.

Lemma processL4_sound l3 w :
  l3_wf l3 -> m_L4Datalen l3 <= 65535 -> handed_over (m_pL2Info l3) w (processL4 k l3 w).
Proof.
  intros H1 H2. unfold processL4, processL4Udp.
  destruct (_ =? IPPROTO_TCP); [by apply processL4Tcp_sound |].
  destruct (_ =? IPPROTO_UDP); by left.
Qed.

Lemma newCL3Info_ok l2 l4 l4Len src dst v :
  l2_wf l2 -> getIpVersion l2 = Ok v -> v <> 0 ->
  exists l3, newCL3Info l2 l4 l4Len src dst = Ok l3 /\ m_pL2Info l3 = l2 /\ m_L4Data l3 = l4 /\
    m_L4Datalen l3 = l4Len /\ m_src l3 = src /\ m_dst l3 = dst.
Proof.
  intros (Hb & H0 & Hl) Hv Hne. pose proof (getIpVersion_len _ _ Hv Hne) as H20.
  unfold newCL3Info. rewrite Hv. cbn [mbind result_bind].
  unfold ip4_hdr.ip_p, ip4_hdr.ip_id, ip6_hdr.ip6_un1_nxt.
  destruct (read8_inside _ Hb (m_L3Data l2 + 9)) as (b9 & E9 & _); [lia |].
  destruct (read8_inside _ Hb (m_L3Data l2 + 4)) as (b4 & E4 & _); [lia |].
  destruct (read8_inside _ Hb (m_L3Data l2 + 5)) as (b5 & E5 & _); [lia |].
  destruct (read8_inside _ Hb (m_L3Data l2 + 6)) as (b6 & E6 & _); [lia |].
  destruct (v =? 4); [rewrite E9, E4, E5; cbn; eauto 10 |].
  destruct (v =? 6); [rewrite E6 |]; cbn; eauto 10.
Qed.

Lemma processL3Ip4_sound l2 w :
  l2_wf l2 -> getIpVersion l2 = Ok 4 -> handed_over l2 w (processL3Ip4 k l2 w).
Proof.
  intros Hl2 Hv. pose proof Hl2 as (Hb & H0 & Hl).
  pose proof (getIpVersion_len _ _ Hv ltac:(lia)) as H20.
  unfold processL3Ip4, ip4_hdr.sizeof_ip4_hdr, ip4_hdr.ip_len, ip4_hdr.ip_off,
    ip4_hdr.ip_hl, ip4_hdr.ip_src, ip4_hdr.ip_dst.
  destruct (m_L3Datalen l2 <? Z.of_nat 20) eqn:E20; breflect; [by left |].
  destruct (read_be16_inside _ Hb (m_L3Data l2 + 2)) as (ipLen & -> & Hlen); [lia |].
  cbn [mbind result_bind]. destruct (_ <? ipLen) eqn:Et; breflect; [by left |].
  destruct (read_be16_inside _ Hb (m_L3Data l2 + 6)) as (off & -> & _); [lia |].
  cbn [mbind result_bind]. destruct (negb _); [by left |].
  destruct (read8_inside _ Hb (m_L3Data l2)) as (hl & -> & Hhl); [lia |].
  cbn [mbind result_bind].
  assert (0 <= Z.land hl 15) as Hnn by (apply Z.land_nonneg; lia).
  destruct (_ <? Z.land hl 15 * 4) eqn:Eh; breflect; [by left |].
  destruct (read_le32_inside _ Hb (m_L3Data l2 + 12)) as (src & -> & _); [lia |].
  cbn [mbind result_bind].
  destruct (read_le32_inside _ Hb (m_L3Data l2 + 16)) as (dst & -> & _); [lia |].
  cbn [mbind result_bind].
  edestruct (newCL3Info_ok l2) as (l3 & -> & E2 & E4 & E4l & Es & Ed); [done | done | lia |].
  cbn [mbind result_bind]. rewrite <- E2. apply processL4_sound; [| lia].
  unfold l3_wf. rewrite E2, E4, E4l, Es, Ed.
  split; [done |]. split; [cbn; auto with kf_bounds |]. split; [cbn; auto with kf_bounds | lia].
Qed.

(** the IPv6 payload length stays inside the captured bytes *)
Definition ip6_fits (l2 : CL2Info) : Prop :=
  forall plen, ip6_hdr.ip6_un1_plen (m_pcapData l2) (m_L3Data l2) = Ok plen ->
    40 + plen <= m_L3Datalen l2.

Lemma processL3Ip6_sound l2 w :
  l2_wf l2 -> getIpVersion l2 = Ok 6 -> ip6_fits l2 -> handed_over l2 w (processL3Ip6 k l2 w).
Proof.
  intros Hl2 Hv Hfit. pose proof Hl2 as (Hb & H0 & Hl).
  unfold processL3Ip6, ip6_hdr.sizeof_ip6_hdr, ip6_hdr.ip6_src, ip6_hdr.ip6_dst.
  destruct (m_L3Datalen l2 <? Z.of_nat 40) eqn:E40; breflect; [by left |].
  unfold ip6_fits, ip6_hdr.ip6_un1_plen in *.
  destruct (read_be16_inside _ Hb (m_L3Data l2 + 4)) as (plen & Ep & Hp); [lia |].
  specialize (Hfit plen Ep). rewrite Ep. cbn [mbind result_bind].
  destruct (read_slice_inside _ Hb (m_L3Data l2 + 8) 16) as (src & -> & Ls & Os); [lia |].
  cbn [mbind result_bind].
  destruct (read_slice_inside _ Hb (m_L3Data l2 + 24) 16) as (dst & -> & Ld & Od); [lia |].
  cbn [mbind result_bind].
  edestruct (newCL3Info_ok l2) as (l3 & -> & E2 & E4 & E4l & Es & Ed); [done | done | lia |].
  cbn [mbind result_bind]. rewrite <- E2. apply processL4_sound; [| lia].
  unfold l3_wf. rewrite E2, E4, E4l, Es, Ed.
  split; [done |]. split; [by apply CIpAddress_bytes_wf |].
  split; [by apply CIpAddress_bytes_wf | lia].
Qed.

Lemma processL3_sound l2 w :
  l2_wf l2 -> (getIpVersion l2 = Ok 6 -> ip6_fits l2) ->
  processL3 k l2 w = Ok w \/
  exists l4, l4_wf l4 /\ l4_l2 l4 = l2 /\ processL3 k l2 w = (r ← k l4 w; Ok r.2).
Proof.
  intros Hl2 H6. destruct (getIpVersion_wf l2 Hl2) as [v Hv].
  unfold processL3. rewrite Hv in *. cbn [mbind result_bind].
  destruct (v =? 4) eqn:E4; breflect.
  - subst v. destruct (processL3Ip4_sound l2 w Hl2 Hv) as [-> | (l4 & ? & ? & ->)]; [by left |].
    right. by exists l4.
  - destruct (v =? 6) eqn:E6; breflect; [| by left]. subst v.
    destruct (processL3Ip6_sound l2 w Hl2 Hv) as [-> | (l4 & ? & ? & ->)];
      [by apply H6 | by left |]. right. by exists l4.
Qed.

End Parsing.

(** ** Layer 2 *)

(** what libpcap guarantees of a captured frame: the bytes are there, and
    never more than its maximum snapshot length *)
Definition frame_ok (header : pcap_pkthdr) (packet : bytes) : Prop :=
  bytes_ok packet /\ caplen header = Z.of_nat (length packet) /\ caplen header <= 262144.

(** the link-layer header the decoder reads before checking the length *)
Definition frame_min (DLT : Z) (header : pcap_pkthdr) : Prop :=
  (DLT = DLT_EN10MB \/ DLT = DLT_IEEE802 -> len header = caplen header -> 14 <= caplen header) /\
  (DLT = DLT_NULL -> 4 <= caplen header).

(** the layer-2 object a frame decodes to, if any *)
Definition l2_of (DLT : Z) (header : pcap_pkthdr) (packet : bytes) : result (option CL2Info) :=
  processL2 (fun i _ => Ok (Some i)) DLT header packet None.

Lemma mpls_loop_sound packet fuel cap mpls :
  bytes_ok packet -> Z.of_nat (length packet) <= 262144 ->
  0 <= mpls -> cap + mpls = Z.of_nat (length packet) -> 16 <= cap ->
  (Z.to_nat cap < fuel)%nat ->
  exists r, mpls_loop fuel packet cap mpls = Ok r /\
    (r = None \/ exists cap' mpls', r = Some (cap', mpls') /\ 0 <= mpls' /\
       cap' + mpls' = Z.of_nat (length packet) /\ 16 <= cap').
Proof.
  intros Hb Hmax. revert cap mpls. induction fuel as [|fuel IH]; intros cap mpls Hm Hs Hc Hf; [lia |].
  cbn [mpls_loop]. unfold SLL_HDR_LEN.
  destruct (cap <? u32 (16 + mpls + 4)) eqn:E; breflect; [eauto |].
  rewrite u32_small in E by lia. rewrite (u32_small (mpls + 4)), (u32_small (cap - 4)) by lia.
  destruct (read8_inside _ Hb (Z.to_nat (16 + (mpls + 4) - 2))) as (b & -> & _); [lia |].
  cbn [mbind result_bind]. destruct (Z.land b 1 =? 0).
  - apply IH; lia.
  - eexists; split; [done |]. right. exists (cap - 4), (mpls + 4). repeat split; lia.
Qed.

Section Frames.
Context {W : Type} (k3 : CL2Info -> W -> result W).

(** Every link-layer decoder calls layer 3 once, at its end. *)
Lemma processL2_l2_of DLT header packet w :
  processL2 k3 DLT header packet w =
  match l2_of DLT header packet with
  | Ok (Some l2) => k3 l2 w
  | Ok None => Ok w
  | Fault f => Fault f
  end.
Proof.
  unfold l2_of, processL2, processL2En10Mb, processL2LinuxSll, processL2Raw, processL2Null,
    processL2Ppp.
  unfold mbind, result_bind.
  repeat match goal with |- context [match ?x with _ => _ end] => destruct x end; done.
Qed.

(** The end of each case: layer 3 is called with a window inside the packet. *)
Ltac l2_window :=
  eexists; split; [done |]; try done; intros ? [= <-]; repeat split; cbn; (done || lia).

(** what a link-layer decoder hands to layer 3 *)
Definition l2_sound header packet (r : result (option CL2Info)) : Prop :=
  exists o, r = Ok o /\
    forall l2, o = Some l2 -> l2_wf l2 /\ m_pcapData l2 = packet /\ m_pcapHdr l2 = header.

Lemma l2_sound_none header packet : l2_sound header packet (Ok None).
Proof. by eexists. Qed.

Lemma ether_sound header packet :
  frame_ok header packet -> (len header = caplen header -> 14 <= caplen header) ->
  l2_sound header packet (processL2En10Mb (fun i _ => Ok (Some i)) header packet None).
Proof.
  intros (Hb & Hc & Hmax) Hm. unfold processL2En10Mb.
  destruct (len header =? caplen header) eqn:El; breflect; cbn [negb];
    [specialize (Hm El) | apply l2_sound_none].
  unfold ether_header.ether_type.
  destruct (read_be16_inside _ Hb (0 + 12)) as (t & -> & _); [lia |]. cbn [mbind result_bind].
  destruct (t =? ETHERTYPE_VLAN); cbn zeta; rewrite ?u32_small by lia;
    destruct (_ <? 14) eqn:E14; breflect; l2_window.
Qed.

Lemma sll_sound header packet :
  frame_ok header packet ->
  l2_sound header packet (processL2LinuxSll (fun i _ => Ok (Some i)) header packet None).
Proof.
  intros (Hb & Hc & Hmax). unfold processL2LinuxSll, SLL_HDR_LEN, sll_header.sll_protocol.
  destruct (negb _); [apply l2_sound_none |].
  destruct (_ <? 16) eqn:E16; breflect; [apply l2_sound_none |].
  destruct (read_be16_inside _ Hb (0 + 14)) as (t & -> & _); [lia |]. cbn [mbind result_bind].
  destruct (t =? ETHERTYPE_MPLS).
  - destruct (mpls_loop_sound packet (S (Z.to_nat (caplen header))) (caplen header) 0)
      as (r & -> & [-> | (cap & sz & -> & ? & ? & ?)]); try done; try lia.
    + apply l2_sound_none.
    + cbn [mbind result_bind]. rewrite u32_small by lia. l2_window.
  - cbn [mbind result_bind]. rewrite u32_small by lia. l2_window.
Qed.

Lemma null_sound header packet :
  frame_ok header packet -> 4 <= caplen header ->
  l2_sound header packet (processL2Null (fun i _ => Ok (Some i)) header packet None).
Proof.
  intros (Hb & Hc & Hmax) Hm. unfold processL2Null, NULL_HDRLEN.
  destruct (read_le32_inside _ Hb 0) as (fam & -> & _); [lia |].
  cbn [mbind result_bind]. destruct (negb _); [apply l2_sound_none |].
  destruct (_ <? 4) eqn:E4; breflect; [apply l2_sound_none |].
  destruct (_ && _); [apply l2_sound_none || l2_window | apply l2_sound_none || l2_window].
Qed.

Lemma l2_of_sound DLT header packet :
  frame_ok header packet -> frame_min DLT header ->
  l2_sound header packet (l2_of DLT header packet).
Proof.
  intros Hf [Hm1 Hm2]. unfold l2_of, processL2.
  destruct (_ || _) eqn:E1.
  { apply ether_sound; [done |]. intros El. apply Hm1; [| done].
    apply orb_true_iff in E1 as [?|?]; breflect; auto. }
  destruct (DLT =? DLT_LINUX_SLL); [by apply sll_sound |].
  destruct Hf as (Hb & Hc & Hmax) eqn:Ef. destruct (_ || _ || _); [l2_window |].
  destruct (DLT =? DLT_NULL) eqn:E3; breflect; [apply null_sound; auto |].
  destruct (DLT =? DLT_PPP); [| apply l2_sound_none].
  unfold processL2Ppp, PPP_HDRLEN. destruct (negb _); [apply l2_sound_none |].
  destruct (_ <? 4) eqn:E4; breflect; l2_window.
Qed.

End Frames.

(** A frame is dropped or hands one well-formed segment to layer 5. *)
Lemma parsing_handover {W} (k : CL4Info -> W -> result (Z * W)) DLT header packet w :
  frame_ok header packet -> frame_min DLT header ->
  (forall l2, l2_of DLT header packet = Ok (Some l2) -> getIpVersion l2 = Ok 6 -> ip6_fits l2) ->
  processL2 (processL3 k) DLT header packet w = Ok w \/
  exists l4, l4_wf l4 /\ m_pcapData (l4_l2 l4) = packet /\
    processL2 (processL3 k) DLT header packet w = (r ← k l4 w; Ok r.2).
Proof.
  intros Hf Hm H6. rewrite processL2_l2_of.
  destruct (l2_of_sound DLT header packet Hf Hm) as (r & E & Hr). rewrite E in *.
  destruct r as [l2|]; [| by left].
  destruct (Hr l2 eq_refl) as (Hw & Hd & _).
  destruct (processL3_sound k l2 w Hw) as [? | (l4 & ? & E2 & ?)];
    [by apply H6 | by left |].
  right. exists l4. by rewrite E2.
Qed.

(** ** Any frame: dropped, read out of bounds, or handed over *)

Section AnyFrame.
Context {W : Type} (k : CL4Info -> W -> result (Z * W)).

Lemma processL4_any l3 w :
  l2_wf (m_pL2Info l3) -> ip_wf (m_src l3) -> ip_wf (m_dst l3) -> 0 <= m_L4Datalen l3 <= 65535 ->
  processL4 k l3 w = Ok (-1, w) \/ processL4 k l3 w = Fault OutOfBoundsRead \/
  exists l4, l4_sane l4 /\ l4_l2 l4 = m_pL2Info l3 /\ processL4 k l3 w = k l4 w.
Proof.
  intros Hl2 Hs Hd Hlen. pose proof Hl2 as (Hb & _). unfold processL4, processL4Udp.
  destruct (_ =? IPPROTO_TCP); [| destruct (_ =? IPPROTO_UDP); by left].
  unfold processL4Tcp, tcphdr.sizeof_tcphdr, tcphdr.th_off, tcphdr.th_sport, tcphdr.th_dport.
  destruct (m_L4Datalen l3 <? Z.of_nat 20) eqn:E20; breflect; [by left |]. right.
  destruct (read8_cases _ Hb (m_L4Data l3 + 12)) as [-> | (o & -> & Ho)]; [by left | cbn [mbind result_bind]].
  destruct (read_be16_cases _ Hb (m_L4Data l3)) as [-> | (sp & -> & Hsp)]; [by left | cbn [mbind result_bind]].
  destruct (read_be16_cases _ Hb (m_L4Data l3 + 2)) as [-> | (dp & -> & Hdp)]; [by left | cbn [mbind result_bind]].
  pose proof (u8_range (Z.shiftr o 4 * 4)) as Hu.
  destruct (newCL4Info_sane l3 (m_L4Data l3 + Z.to_nat (u8 (Z.shiftr o 4 * 4)))
              (if u8 (Z.shiftr o 4 * 4) <? m_L4Datalen l3
               then m_L4Datalen l3 - u8 (Z.shiftr o 4 * 4) else 0) sp dp)
    as [E | (l4 & E & Hw & E3 & _)]; try done.
  - destruct (_ <? m_L4Datalen l3) eqn:E; breflect; lia.
  - left. by rewrite E.
  - right. exists l4. rewrite E. split; [done |]. split; [| done]. unfold l4_l2. by rewrite E3.
Qed.

Lemma processL3Ip6_any l2 w :
  l2_wf l2 -> getIpVersion l2 = Ok 6 ->
  processL3Ip6 k l2 w = Ok (-1, w) \/ processL3Ip6 k l2 w = Fault OutOfBoundsRead \/
  exists l4, l4_sane l4 /\ l4_l2 l4 = l2 /\ processL3Ip6 k l2 w = k l4 w.
Proof.
  intros Hl2 Hv. pose proof Hl2 as (Hb & H0 & Hl).
  unfold processL3Ip6, ip6_hdr.sizeof_ip6_hdr, ip6_hdr.ip6_src, ip6_hdr.ip6_dst, ip6_hdr.ip6_un1_plen.
  destruct (m_L3Datalen l2 <? Z.of_nat 40) eqn:E40; breflect; [by left |].
  destruct (read_be16_inside _ Hb (m_L3Data l2 + 4)) as (plen & -> & Hp); [lia |]. cbn [mbind result_bind].
  destruct (read_slice_inside _ Hb (m_L3Data l2 + 8) 16) as (src & -> & Ls & Os); [lia |]. cbn [mbind result_bind].
  destruct (read_slice_inside _ Hb (m_L3Data l2 + 24) 16) as (dst & -> & Ld & Od); [lia |]. cbn [mbind result_bind].
  edestruct (newCL3Info_ok l2) as (l3 & -> & E2 & E4 & E4l & Es & Ed); [done | done | lia |].
  cbn [mbind result_bind]. rewrite <- E2.
  apply processL4_any; rewrite ?E2, ?Es, ?Ed, ?E4l; [done | by apply CIpAddress_bytes_wf | by apply CIpAddress_bytes_wf | lia].
Qed.

(** the frames on which the parsers stay inside the captured bytes: those that
    hold their link-layer header and the IPv6 payload they announce *)
Definition good_frame (DLT : Z) (header : pcap_pkthdr) (packet : bytes) : Prop :=
  frame_ok header packet /\ frame_min DLT header /\
  forall l2, l2_of DLT header packet = Ok (Some l2) -> getIpVersion l2 = Ok 6 -> ip6_fits l2.

Lemma ip6_fits_dec l2 : ip6_fits l2 \/ ~ ip6_fits l2.
Proof.
  unfold ip6_fits. destruct (ip6_hdr.ip6_un1_plen _ _) as [plen|f]; [| by left].
  destruct (decide (40 + plen <= m_L3Datalen l2)); [left; intros ? [= <-]; done | right; eauto].
Qed.

Lemma frame_min_dec DLT header : frame_min DLT header \/
  (((DLT = DLT_EN10MB \/ DLT = DLT_IEEE802) /\ len header = caplen header /\ caplen header < 14) \/
   (DLT = DLT_NULL /\ caplen header < 4)).
Proof. unfold frame_min, DLT_EN10MB, DLT_IEEE802, DLT_NULL. lia. Qed.

Lemma short_frame k3 DLT header packet (w : W) :
  frame_ok header packet ->
  (((DLT = DLT_EN10MB \/ DLT = DLT_IEEE802) /\ len header = caplen header /\ caplen header < 14) \/
   (DLT = DLT_NULL /\ caplen header < 4)) ->
  processL2 k3 DLT header packet w = Ok w \/ processL2 k3 DLT header packet w = Fault OutOfBoundsRead.
Proof.
  intros (Hb & Hc & _) [(Hd & Hl & Hs) | (-> & Hs)]; unfold processL2.
  - replace ((DLT =? DLT_EN10MB) || (DLT =? DLT_IEEE802)) with true by (destruct Hd as [-> | ->]; done).
    unfold processL2En10Mb. rewrite Hl, Z.eqb_refl. cbn [negb]. unfold ether_header.ether_type. right.
    unfold read_be16. rewrite (read8_outside packet (0 + 12 + 1)) by lia.
    by destruct (read8_cases packet Hb (0 + 12)) as [-> | (b & -> & _)].
  - cbn [DLT_NULL DLT_EN10MB DLT_IEEE802 DLT_LINUX_SLL Z.eqb Pos.eqb orb]. unfold processL2Null. right. unfold read_le32.
    rewrite (read8_outside packet (0 + 3)) by lia.
    destruct (read8_cases packet Hb 0) as [-> | (b & -> & _)]; [done | cbn [mbind result_bind]].
    destruct (read8_cases packet Hb (0 + 1)) as [-> | (b1 & -> & _)]; [done | cbn [mbind result_bind]].
    by destruct (read8_cases packet Hb (0 + 2)) as [-> | (b2 & -> & _)].
Qed.

(** what becomes of any frame the capture library delivers *)
Lemma any_frame DLT header packet w :
  frame_ok header packet ->
  let r := processL2 (processL3 k) DLT header packet w in
  r = Ok w \/ (r = Fault OutOfBoundsRead /\ ~ good_frame DLT header packet) \/
  exists l4, l4_sane l4 /\ (good_frame DLT header packet -> ~ payload_outside l4) /\ r = (r ← k l4 w; Ok r.2).
Proof.
  intros Hf r. destruct (frame_min_dec DLT header) as [Hm | Hs].
  2:{ destruct (short_frame (processL3 k) DLT header packet w Hf Hs) as [E | E]; [by left | right; left].
      split; [done |]. intros (_ & [Hm1 Hm2] & _). destruct Hs as [(? & ? & ?) | (? & ?)]; [specialize (Hm1 ltac:(done) ltac:(done)) | specialize (Hm2 ltac:(done))]; lia. }
  unfold r. rewrite processL2_l2_of. destruct (l2_of_sound DLT header packet Hf Hm) as (o & E & Ho). rewrite E.
  destruct o as [l2|]; [| by left]. destruct (Ho l2 eq_refl) as (Hw & _ & _).
  destruct (getIpVersion_wf l2 Hw) as [v Hv]. destruct (decide (v = 6)) as [-> |].
  - destruct (ip6_fits_dec l2) as [Hfit | Hno].
    + destruct (processL3_sound k l2 w Hw) as [-> | (l4 & W4 & _ & ->)]; [done | by left |].
      right. right. exists l4. destruct (l4_wf_sane l4 W4). by split_and!.
    + assert (Hbad : ~ good_frame DLT header packet) by (intros (_ & _ & H6); by apply Hno, H6).
      unfold processL3. rewrite Hv. cbn [mbind result_bind Z.eqb Pos.eqb].
      destruct (processL3Ip6_any l2 w Hw Hv) as [-> | [-> | (l4 & S4 & E4 & ->)]]; [by left | right; by left |].
      right. right. by exists l4.
  - destruct (processL3_sound k l2 w Hw) as [-> | (l4 & W4 & _ & ->)]; [congruence | by left |].
    right. right. exists l4. destruct (l4_wf_sane l4 W4). by split_and!.
Qed.
End AnyFrame.

(** ** Layer 5 keeps the pool invariant *)

Section Layer5Safety.
Context `{HttpParserLib} (cfg : CConfig) (db : CDBManager)
  (iter_order : list entry -> list entry) (Hiter : forall l, iter_order l ≡ₚ l).

(** an active session: in active mode, its HTTP parser initialised *)
Definition session_ready (s : CTcpSession) : Prop :=
  m_activeFlg s = true /\
  (m_protocol s = PROTOCOL_HTTP -> is_Some (m_parser (m_httpDecoder s))).

Definition sess_bounded (s : CTcpSession) : Prop :=
  seg_bounded (segServer s) /\ seg_bounded (segClient s).

Lemma callbacks_active_fault evs s f :
  m_activeFlg s = true -> callbacks db evs s = Fault f -> f = OutOfRange.
Proof.
  revert s. induction evs as [|[p e] evs IH]; intros s Ha E; cbn in E; [done |].
  destruct (callback db p e s) as [s1|f1] eqn:E1; cbn in E.
  - apply (IH s1); [| done]. apply callback_core in E1 as [(_ & _ & _ & -> & _) _]. done.
  - injection E as ->. destruct e; cbn in E1; try done.
    + unfold requestUrlCb in E1. by rewrite Ha in E1.
    + unfold headerValueCb in E1. rewrite Ha in E1.
      destruct (bytes_eqb _ _); [| done]. destruct (_ =? 50); [| done].
      unfold url_path, str_substr_from in E1.
      destruct (negb _); [destruct (_ <? _)%nat |]; cbn in E1; congruence.
Qed.

Lemma parserExecute_active_fault buf s f :
  m_activeFlg s = true -> is_Some (m_parser (m_httpDecoder s)) ->
  parserExecute db buf s = Fault f -> f = OutOfRange.
Proof.
  intros Ha [p Hp]. unfold parserExecute. rewrite Hp.
  destruct (http_parser_execute p buf) as [evs p'].
  destruct (callbacks db evs s) eqn:E; cbn; [done |]. intros [= <-].
  by eapply callbacks_active_fault.
Qed.

Lemma payloadReceived_ready dir s :
  session_ready s -> sess_bounded s ->
  match payloadReceived db dir s with
  | Ok s' => session_ready s' /\ sess_bounded s'
  | Fault f => f = OutOfRange
  end.
Proof.
  intros Hr Hbd. pose proof Hr as [Ha Hp]. unfold payloadReceived.
  destruct (m_protocol s) eqn:Epr; [done | | done].
  rewrite Ha. cbn [andb]. destruct (bool_decide _); [| done].
  unfold decodeHttp_type, decodeHttpActive. rewrite Ha. cbn [type_direction getContinuousBuf].
  destruct (dumpUnusedData (segServer s)) as [[buf seg]|f] eqn:Ed; cbn [mbind result_bind].
  - destruct (parserExecute db buf _) as [[ok s1]|f] eqn:Ex; cbn [mbind result_bind].
    + apply parserExecute_core in Ex as ((_ & _ & _ & A & P & _) & Es & Ec & Hs). cbn in A, Es, Ec.
      assert (sess_bounded s1) as Hb1.
      { unfold sess_bounded. rewrite Es, Ec. split; [| apply Hbd].
        unfold dumpUnusedData in Ed. destruct (str_substr _ _ _); [| done]. injection Ed as _ <-.
        apply Hbd. }
      destruct ok; cbn [mbind result_bind snd]; (split; [split; cbn; try done; congruence | done]).
    + eapply parserExecute_active_fault; [| | exact Ex]; [done | by apply Hp].
  - unfold dumpUnusedData, str_substr in Ed. destruct (_ <? _)%nat; cbn in Ed; congruence.
Qed.

(** the faults a captured frame can cause: an uncaught [std::out_of_range],
    and a payload read outside the packet *)
Definition capture_fault (l4 : CL4Info) (f : fault) : Prop :=
  0 < m_L5Datalen l4 /\ (f = OutOfRange \/ f = OutOfBoundsRead /\ payload_outside l4).

Lemma l5_bytes_ok l4 : l4_sane l4 -> 0 < m_L5Datalen l4 ->
  (l5_bytes l4 = Fault OutOfBoundsRead /\ payload_outside l4) \/
  exists d, l5_bytes l4 = Ok d /\ Z.of_nat (length d) <= 65535.
Proof.
  intros (((Hb & _) & _) & Hlen & _) Hpos. unfold l5_bytes.
  destruct (decide (payload_outside l4)) as [Ho | Hi].
  - left. split; [| done]. apply read_slice_outside. destruct Ho. lia.
  - right. destruct (read_slice_inside (m_pcapData (l4_l2 l4)) Hb (m_L5Data l4)
              (Z.to_nat (m_L5Datalen l4))) as (d & E & Hd & _).
    + unfold payload_outside in Hi. lia.
    + exists d. split; [done | lia].
Qed.

Lemma session_ready_state st s : session_ready s -> session_ready (setTcpState st s).
Proof. done. Qed.

Lemma payloadState_ready dir s : session_ready s -> session_ready (payloadState dir s).
Proof. intros H0. unfold payloadState. by destruct (m_tcpState s), dir. Qed.

Lemma finishMe_ready l4 dir s : session_ready s -> session_ready (finishMe l4 dir s).
Proof.
  intros H0. unfold finishMe, finReceived.
  destruct (m_rstSet l4); [done |]. destruct (negb _); [done |].
  by destruct (m_tcpState s), dir.
Qed.

Lemma payloadState_bounded dir s : sess_bounded s -> sess_bounded (payloadState dir s).
Proof. intros H0. unfold payloadState. by destruct (m_tcpState s), dir. Qed.

Lemma finishMe_bounded l4 dir s : sess_bounded s -> sess_bounded (finishMe l4 dir s).
Proof.
  intros H0. unfold finishMe, finReceived.
  destruct (m_rstSet l4); [done |]. destruct (negb _); [done |].
  by destruct (m_tcpState s), dir.
Qed.

Lemma finishMe_id l4 dir s : m_sessId (finishMe l4 dir s) = m_sessId s.
Proof.
  unfold finishMe, finReceived. destruct (m_rstSet l4); [done |]. destruct (negb _); [done |].
  by destruct (m_tcpState s), dir.
Qed.

Lemma updateMe_ready l4 s :
  l4_sane l4 -> session_ready s -> sess_bounded s ->
  match updateMe db l4 s with
  | Ok s' => session_ready s' /\ m_sessId s' = m_sessId s /\ sess_bounded s'
  | Fault f => m_synSet l4 = false /\ capture_fault l4 f
  end.
Proof.
  intros Hw Hr Hb. unfold updateMe. destruct (m_synSet l4) eqn:Esyn; [by destruct (m_ackSet l4) |].
  set (dir := getDirection l4 s).
  destruct (0 <? m_L5Datalen l4) eqn:El; breflect; cbn [mbind result_bind].
  - unfold savePayload, capture_fault. destruct (l5_bytes_ok l4 Hw El) as [[-> Ho] | (d & -> & Hd)]; cbn [mbind result_bind]; [by auto 10 |].
    destruct (insertData (m_seqNum l4) d (getContinuousBuf dir s)) as [b|f] eqn:Ei;
      cbn [mbind result_bind].
    + apply insertData_bounded in Ei; [| lia | destruct dir; apply Hb].
      assert (session_ready (payloadState dir (setContinuousBuf dir b s))) as Hr1
        by (apply payloadState_ready; by destruct dir).
      assert (sess_bounded (payloadState dir (setContinuousBuf dir b s))) as Hb1
        by (apply payloadState_bounded; destruct dir; split; cbn; try done; apply Hb).
      pose proof (payloadReceived_ready dir _ Hr1 Hb1) as Hp.
      destruct (payloadReceived db dir _) as [s1|f] eqn:Ep; cbn [mbind result_bind]; [| by auto].
      destruct Hp as [Hr2 Hb2]. split; [by apply finishMe_ready |].
      split; [| by apply finishMe_bounded]. rewrite finishMe_id.
      apply payloadReceived_core in Ep as [-> _]. unfold payloadState.
      destruct (m_tcpState _), dir; done.
    + unfold insertData, str_replace in Ei. destruct (_ <? _)%nat; cbn in Ei; simplify_eq. auto.
  - split; [by apply finishMe_ready |]. split; [apply finishMe_id | by apply finishMe_bounded].
Qed.

Lemma blockMe_core l4 s s' r :
  blockMe db l4 s = Ok (s', r) ->
  m_sessId s' = m_sessId s /\ m_tcpState s' = m_tcpState s /\
  (session_ready s -> session_ready s') /\ (sess_bounded s -> sess_bounded s').
Proof.
  unfold blockMe. destruct (getIpVersion _) as [v|]; [| done]. cbn [mbind result_bind].
  destruct (v =? 4); [| intros [= <- _]; done].
  destruct (_ || _); intros [= <- _]; done.
Qed.

Lemma blockMe_ok l4 s : l4_sane l4 -> exists b, blockMe db l4 s = Ok b.
Proof.
  intros ((Hl2 & _) & _). unfold blockMe.
  destruct (getIpVersion_wf (l4_l2 l4) Hl2) as [v ->]. cbn [mbind result_bind].
  destruct (v =? 4); eauto.
Qed.

Lemma l4_id_wf l4 : l4_sane l4 -> id_wf (l4_id l4).
Proof. intros ((_ & Hs & Hd) & _ & Hsp & Hdp & _). exact (conj Hs (conj Hd (conj Hsp Hdp))). Qed.

(** the state invariant of the capture side *)
Definition world_inv (held : list ptr) (w : world) : Prop :=
  pool_inv held (w_pool w) (w_heap w) /\
  (forall e s, e ∈ m_activeSessMap (w_pool w) -> w_heap w !! e.2 = Some s -> session_ready s) /\
  map_Forall (fun _ => sess_bounded) (w_heap w).

(** the state before the first frame *)
Definition init_world : world := mkWorld newCTcpSessionPool ∅ [].

Lemma init_world_inv : world_inv [] init_world.
Proof using.
  clear Hiter iter_order. split; [apply new_pool_inv |]. split; [set_solver | apply map_Forall_empty].
Qed.

Lemma update_active_inv held w p s s' rsts :
  world_inv held w -> w_heap w !! p = Some s ->
  m_sessId s' = m_sessId s -> m_tcpState s' <> TCP_SM_CLOSED -> session_ready s' ->
  sess_bounded s' -> world_inv held (mkWorld (w_pool w) (<[p := s']> (w_heap w)) rsts).
Proof.
  intros (I & R & B) Hp Hid Hst Hr Hb. split; [| split]; cbn.
  - eapply update_session_inv; eauto.
  - intros e s0 He. destruct (decide (e.2 = p)) as [<-|].
    + rewrite lookup_insert_eq. by intros [= <-].
    + rewrite lookup_insert_ne by done. by apply R.
  - by apply map_Forall_insert_2.
Qed.

Lemma find_active held w id p :
  world_inv held w -> findActiveSession id (w_pool w) = Some p ->
  exists e s, map_find id (m_activeSessMap (w_pool w)) = Some e /\ e.2 = p /\
    e ∈ m_activeSessMap (w_pool w) /\ w_heap w !! p = Some s /\
    m_tcpState s <> TCP_SM_CLOSED /\ session_ready s /\ sess_bounded s.
Proof.
  intros (I & R & B). unfold findActiveSession. intros (e & E & ->)%fmap_Some.
  pose proof (map_find_Some _ _ _ E) as [He _].
  destruct (inv_keys _ _ _ I e He) as (_ & s & Hs & _ & Hst).
  exists e, s. split; [done |]. split; [done |]. split; [done |]. split; [done |].
  split; [done |]. split; [by eapply R | by eapply B].
Qed.

(** Posting the session just closed moves it out of the active map. *)
Lemma post_closed_inv held w id e s rsts :
  world_inv held w -> map_find id (m_activeSessMap (w_pool w)) = Some e ->
  w_heap w !! e.2 = Some s ->
  forall s', m_sessId s' = m_sessId s -> sess_bounded s' ->
  world_inv held (mkWorld (postSession id (w_pool w)) (<[e.2 := s']> (w_heap w)) rsts).
Proof.
  intros (I & R & B) E Hs s' Hid Hb. pose proof (map_erase_perm _ _ _ E) as Hp.
  assert (e.2 ∉ (map_erase id (m_activeSessMap (w_pool w))).*2) as Hnot.
  { pose proof (inv_nodup _ _ _ I) as Hn. rewrite Hp in Hn. cbn in Hn.
    apply list.NoDup_cons in Hn as [Hn _]. set_solver. }
  assert (m_activeSessMap (postSession id (w_pool w)) = map_erase id (m_activeSessMap (w_pool w)))
    as Ha by (unfold postSession; by rewrite E).
  split; [| split]; cbn.
  - eapply update_session_inv; [by apply postSession_inv | done | done |]. right. by rewrite Ha.
  - rewrite Ha. intros e' s0 He'. destruct (decide (e'.2 = e.2)) as [Eq|].
    + exfalso. apply Hnot. rewrite <- Eq. by apply list_elem_of_fmap_2.
    + rewrite lookup_insert_ne by done. apply R. rewrite Hp. set_solver.
  - by apply map_Forall_insert_2.
Qed.

Lemma isClosed_spec s : isClosed s = true <-> m_tcpState s = TCP_SM_CLOSED.
Proof. apply bool_decide_eq_true. Qed.

Lemma init_session_ready l4 id p :
  session_ready (init_session l4 (setNum p (newCTcpSession cfg id))) /\
  m_sessId (init_session l4 (setNum p (newCTcpSession cfg id))) = id /\
  m_tcpState (init_session l4 (setNum p (newCTcpSession cfg id))) = TCP_SM_HANDSHAKE /\
  sess_bounded (init_session l4 (setNum p (newCTcpSession cfg id))).
Proof.
  unfold init_session, sessionCreated. cbn [m_protocol setLastUpdateTime setContinuousBuf setNum
    newCTcpSession]. case_bool_decide; [by repeat split |].
  case_bool_decide; by repeat split.
Qed.

(** Layer 5 on every well-formed segment: the pool
    invariant holds afterwards (one owner per session, unique keys, no
    closed session left in the active map, parsers initialised), no deleted
    session is dereferenced and no uninitialised parser executed; the only
    fault that can occur is an uncaught [std::out_of_range]. *)
(** a packet of a known connection *)
Lemma processL5_known held l4 w p :
  l4_sane l4 -> world_inv held w -> findActiveSession (l4_id l4) (w_pool w) = Some p ->
  match processL5 cfg db iter_order l4 w with
  | Ok (rc, w') => world_inv held w' /\ (rc = 0 \/ rc = -1)
  | Fault f => capture_fault l4 f
  end.
Proof using Hiter.
  intros Hw Hinv Ef. unfold processL5. rewrite Ef.
  destruct (find_active _ _ _ _ Hinv Ef) as (e & s & Em & <- & He & Hs & Hst & Hr & Hb).
  unfold deref. rewrite Hs. cbn [mbind result_bind].
  assert (world_inv held (mkWorld (w_pool w)
            (<[e.2 := setLastUpdateTime (l4_now l4) s]> (w_heap w)) (w_rsts w))) as H1
    by by eapply update_active_inv.
  destruct (m_ackPacket l4).
  { destruct (Z.rem _ _ =? 0); [| by split; [| left]].
    edestruct (postTimeoutSessions_inv iter_order Hiter held (l4_now l4) 60)
      as (pool' & -> & I' & Hin); [apply H1 |]. cbn [mbind result_bind].
    split; [| by left]. split; [done |]. split; [| apply H1].
    intros e' s0 He'. eapply (proj1 (proj2 H1)). by apply Hin. }
  destruct (isClosed _) eqn:Ec; [by split; [| right] |].
  pose proof (updateMe_ready l4 (setLastUpdateTime (l4_now l4) s) Hw Hr Hb) as Hu.
  destruct (updateMe _ _ _) as [s2|f]; [| apply Hu]. destruct Hu as (Hr2 & Hid2 & Hb2).
  cbn [mbind result_bind].
  destruct (blockMe_ok l4 s2 Hw) as [[s3 r] Eb]. rewrite Eb. cbn [mbind result_bind fst snd].
  apply blockMe_core in Eb as (Hid3 & Hst3 & Hr3 & Hb3).
  destruct (isClosed s3) eqn:Ec3; (split; [| by left]); rewrite !insert_insert_eq.
  - eapply post_closed_inv; [exact Hinv | done | done | | by apply Hb3].
    unfold sessionPosted. cbn in *. congruence.
  - eapply update_active_inv; [exact Hinv | done | cbn in *; congruence | | by apply Hr3 | by apply Hb3].
    intros Hc. apply isClosed_spec in Hc. congruence.
Qed.

(** a packet of no known connection: a SYN opens a session *)
Lemma processL5_unknown held l4 w :
  l4_sane l4 -> world_inv held w -> findActiveSession (l4_id l4) (w_pool w) = None ->
  match processL5 cfg db iter_order l4 w with
  | Ok (rc, w') => world_inv held w' /\ (rc = 0 \/ rc = -1)
  | Fault f => capture_fault l4 f
  end.
Proof using.
  intros Hw Hinv Ef. unfold processL5. rewrite Ef.
  destruct (m_synSet l4 && negb (m_ackSet l4)); [| by split; [| right]].
  destruct (createSession _ _ _ _) as [[p pool'] h'] eqn:Ecr.
  destruct Hinv as (I & R & B).
  edestruct (createSession_inv held cfg (l4_id l4) (w_pool w) (w_heap w))
    as (I' & Hp & Ha); [done | by apply l4_id_wf | done | exact Ecr |].
  unfold deref. rewrite Hp. cbn [mbind result_bind].
  destruct (init_session_ready l4 (l4_id l4) p) as (Hr0 & Hid0 & Hst0 & Hb0).
  destruct (blockMe_ok l4 (init_session l4 (setNum p (newCTcpSession cfg (l4_id l4)))) Hw)
    as [[s3 r] Eb]. rewrite Eb. cbn [mbind result_bind fst snd].
  apply blockMe_core in Eb as (Hid3 & Hst3 & Hr3 & Hb3).
  split; [| by left]. split; [| split]; cbn [w_pool w_heap].
  - eapply update_session_inv; [done | done | cbn in *; congruence |].
    left. rewrite Hst3, Hst0. done.
  - intros e s0 He. destruct (decide (e.2 = p)) as [<-|Hne].
    + rewrite lookup_insert_eq. intros [= <-]. by apply Hr3.
    + rewrite lookup_insert_ne by done. rewrite Ha in He.
      apply elem_of_app in He as [He | ->%list_elem_of_singleton]; [| done].
      unfold createSession in Ecr. injection Ecr as <- _ <-.
      rewrite lookup_insert_ne by done. by apply R.
  - unfold createSession in Ecr. injection Ecr as <- _ <-. rewrite insert_insert_eq.
    apply map_Forall_insert_2; [by apply Hb3 | done].
Qed.

Lemma processL5_safe held l4 w :
  l4_sane l4 -> world_inv held w ->
  match processL5 cfg db iter_order l4 w with
  | Ok (rc, w') => world_inv held w' /\ (rc = 0 \/ rc = -1)
  | Fault f => capture_fault l4 f
  end.
Proof using Hiter.
  intros Hw Hinv. destruct (findActiveSession (l4_id l4) (w_pool w)) as [p|] eqn:Ef.
  - by eapply processL5_known.
  - by apply processL5_unknown.
Qed.

(** A frame creates at most the next session and deletes none. *)
Lemma processL5_heap held l4 w rc w' :
  l4_sane l4 -> world_inv held w -> processL5 cfg db iter_order l4 w = Ok (rc, w') ->
  m_index (w_pool w) <= m_index (w_pool w') /\
  forall p, is_Some (w_heap w' !! p) <->
            is_Some (w_heap w !! p) \/ m_index (w_pool w) < p <= m_index (w_pool w').
Proof.
  intros Hw Hinv. unfold processL5.
  assert (forall (h : gmap ptr CTcpSession) p s s', h !! p = Some s ->
    forall q, is_Some (<[p := s']> h !! q) <-> is_Some (h !! q)) as Hupd.
  { intros h p s s' Hp q. destruct (decide (q = p)) as [->|];
      [rewrite lookup_insert_eq, Hp; split; eauto | by rewrite lookup_insert_ne]. }
  destruct (findActiveSession _ _) as [p|] eqn:Ef.
  - destruct (find_active _ _ _ _ Hinv Ef) as (e & s & Em & <- & He & Hs & Hst & Hr & Hb).
    unfold deref. rewrite Hs. cbn [mbind result_bind].
    assert (forall pool' s' rs, m_index pool' = m_index (w_pool w) ->
      m_index (w_pool w) <= m_index (w_pool (mkWorld pool' (<[e.2 := s']> (w_heap w)) rs)) /\
      forall p, is_Some (w_heap (mkWorld pool' (<[e.2 := s']> (w_heap w)) rs) !! p) <->
        is_Some (w_heap w !! p) \/
        m_index (w_pool w) < p <= m_index (w_pool (mkWorld pool' (<[e.2 := s']> (w_heap w)) rs)))
      as Hsame.
    { intros pool' s' rs Hi. cbn. rewrite Hi. split; [done |]. intros q.
      rewrite (Hupd _ _ _ _ Hs). split; [by left | intros [?|?]; [done | lia]]. }
    destruct (m_ackPacket l4).
    { destruct (Z.rem _ _ =? 0); [| intros [= <- <-]; by apply Hsame].
      unfold postTimeoutSessions. destruct (timeout_loop _ _ _ _ _) as [r|]; [| done].
      intros [= <- <-]. by apply Hsame. }
    destruct (isClosed _); [intros [= <- <-]; by apply Hsame |].
    destruct (updateMe _ _ _) as [s2|]; [| done]. cbn [mbind result_bind].
    destruct (blockMe _ _ _) as [[s3 r]|]; [| done]. cbn [mbind result_bind fst snd].
    destruct (isClosed s3); intros [= <- <-]; rewrite ?insert_insert_eq; apply Hsame; [| done].
    unfold postSession. by destruct (map_find _ _).
  - destruct (m_synSet l4 && _); [| intros [= <- <-]; split; [done |]; intros q; split;
      [by left | intros [?|?]; [done | lia]]].
    unfold createSession. unfold deref. rewrite lookup_insert_eq. cbn [mbind result_bind].
    destruct (blockMe _ _ _) as [[s3 r]|]; [| done]. cbn [mbind result_bind fst snd].
    intros [= <- <-]. cbn [w_heap w_pool m_index]. split; [lia |]. intros q. rewrite insert_insert_eq.
    destruct (decide (q = m_index (w_pool w) + 1)) as [->|].
    + rewrite lookup_insert_eq. split; [right; lia | eauto].
    + rewrite lookup_insert_ne by done. split; [by left | intros [?|?]; [done | lia]].
Qed.

(** Any frame libpcap delivers: the capture goes on with the invariant, or ends
    in an uncaught [std::out_of_range] or, on a frame shorter than its headers
    say, in a read outside the packet. *)
Lemma packetCallBack_any held DLT header packet w :
  frame_ok header packet -> world_inv held w ->
  match packetCallBack cfg db iter_order DLT header packet w with
  | Ok w' => world_inv held w' /\ m_index (w_pool w) <= m_index (w_pool w') /\
      forall p, is_Some (w_heap w' !! p) <->
                is_Some (w_heap w !! p) \/ m_index (w_pool w) < p <= m_index (w_pool w')
  | Fault f => f = OutOfRange \/ f = OutOfBoundsRead /\ ~ good_frame DLT header packet
  end.
Proof using Hiter.
  intros Hf Hinv. unfold packetCallBack.
  destruct (any_frame (processL5 cfg db iter_order) DLT header packet w Hf)
    as [-> | [[-> Hg] | (l4 & Hw & Hg & ->)]].
  - split; [done |]. split; [done |]. intros p. split; [by left | intros [?|?]; [done | lia]].
  - by right.
  - pose proof (processL5_safe held l4 w Hw Hinv) as Hs.
    destruct (processL5 cfg db iter_order l4 w) as [[rc w']|f] eqn:E; cbn [mbind result_bind].
    + destruct Hs as [Hi _]. split; [done |]. by eapply processL5_heap.
    + destruct Hs as [_ [-> | [-> Ho]]]; [by left | right; split; [done |]]. intros G. by apply Hg.
Qed.

Lemma packetCallBack_inv held DLT header packet w :
  good_frame DLT header packet -> world_inv held w ->
  match packetCallBack cfg db iter_order DLT header packet w with
  | Ok w' => world_inv held w' /\ m_index (w_pool w) <= m_index (w_pool w') /\
      forall p, is_Some (w_heap w' !! p) <->
                is_Some (w_heap w !! p) \/ m_index (w_pool w) < p <= m_index (w_pool w')
  | Fault f => f = OutOfRange
  end.
Proof using Hiter.
  intros Hg Hinv. pose proof (packetCallBack_any held DLT header packet w (proj1 Hg) Hinv) as Hs.
  destruct (packetCallBack _ _ _ _ _ _ _); [done |]. by destruct Hs as [-> | [_ ?]].
Qed.

(** C8: Refinement of the TCP state machine.  On every decoded segment of a
    session in active mode whose parser is initialised, [updateMe] returns and
    the abstraction of the new state is one step of the close-tracking
    specification: a SYN takes the session back to the handshake, whatever the
    other flags and whatever it was before; without SYN a session closes
    exactly on a reset, on data from a side that already finished, or when
    both sides have sent FIN, and the closed state is kept.  The exception is
    a segment without SYN that carries data: storing or decoding the data may
    throw [std::out_of_range], and reads outside the packet when the payload
    does not end in it. *)
Theorem updateMe_refines_close l4 s :
  l4_sane l4 -> session_ready s -> sess_bounded s ->
  match updateMe db l4 s with
  | Ok s' =>
    close_view (m_tcpState s') =
    close_step (getDirection l4 s) (m_synSet l4) (0 <? m_L5Datalen l4) (m_finSet l4) (m_rstSet l4)
      (close_view (m_tcpState s))
  | Fault f => m_synSet l4 = false /\ 0 < m_L5Datalen l4 /\
      (f = OutOfRange \/ f = OutOfBoundsRead /\ payload_outside l4)
  end.
Proof using.
  intros Hw Hr Hb. pose proof (updateMe_ready l4 s Hw Hr Hb) as Hu.
  destruct (updateMe db l4 s) as [s'|f] eqn:E; [by eapply updateMe_close_view | done].
Qed.

End Layer5Safety.
