(* ===== verification/FrameParsing.v ===== *)
(** * Whole frames: what the layers make of the bytes on the wire

    The correctness of [packetCallBack] on whole frames: memory safety of
    the parsers, the exact segment an Ethernet/IPv4/TCP frame decodes to, the
    pool invariant after each frame, and the frames on which the parsers
    read outside the captured bytes. *)
From Stdlib Require Import ZArith Lia.
From stdpp Require Import base gmap list strings numbers.
From S2P Require Import Prelude PacketDef IpAddress LayerInfo SegBuf Config DbManager Session HttpDecoder TcpSession SessionPool PacketHandler.

Local Open Scope Z_scope.

(** ** Encoding a frame *)

(** [htons] and [htonl] *)
Definition enc16 (v : Z) : bytes := [v / 256; v mod 256].
Definition enc32 (v : Z) : bytes := enc16 (v / 65536) ++ enc16 (v mod 65536).

(** an IPv4/TCP segment as a sender fills its fields; [g_off] carries the
    don't-fragment and more-fragments bits *)
Record segment := mkSegment {
  g_macs : bytes; g_tos : Z; g_id : Z * Z; g_off : Z; g_ttl : Z; g_ipsum : Z;
  g_src : Z * Z * Z * Z; g_dst : Z * Z * Z * Z;
  g_sport : Z; g_dport : Z; g_seq : Z; g_ack : Z; g_flags : Z; g_win : Z;
  g_sum : Z; g_urp : Z; g_payload : bytes
}.

Definition quad_bytes (q : Z * Z * Z * Z) : bytes := let '(a, b, c, d) := q in [a; b; c; d].
Definition quad_addr (q : Z * Z * Z * Z) : Z :=
  let '(a, b, c, d) := q in a + 256 * b + 65536 * c + 16777216 * d.

Definition ip_total (g : segment) : Z := 40 + Z.of_nat (length (g_payload g)).

Definition encode_ip_tcp (g : segment) : bytes :=
  [69; g_tos g] ++ enc16 (ip_total g) ++ [(g_id g).1; (g_id g).2] ++ enc16 (g_off g) ++
  [g_ttl g; 6] ++ enc16 (g_ipsum g) ++ quad_bytes (g_src g) ++ quad_bytes (g_dst g) ++
  enc16 (g_sport g) ++ enc16 (g_dport g) ++ enc32 (g_seq g) ++ enc32 (g_ack g) ++
  [80; g_flags g] ++ enc16 (g_win g) ++ enc16 (g_sum g) ++ enc16 (g_urp g) ++ g_payload g.

Definition encode_ether (g : segment) : bytes := g_macs g ++ [8; 0] ++ encode_ip_tcp g.

Record segment_wf (g : segment) : Prop := {
  wf_macs : length (g_macs g) = 12%nat;
  wf_size : ip_total g < 65536;
  wf_off : 0 <= g_off g < 65536;
  wf_first : Z.land (g_off g) IP_OFFMASK = 0;
  wf_sport : 0 <= g_sport g < 65536;
  wf_dport : 0 <= g_dport g < 65536;
  wf_seq : 0 <= g_seq g < 4294967296;
  wf_ack : 0 <= g_ack g < 4294967296
}.

(** the segment a frame is expected to decode to *)
Definition segment_l4 (header : pcap_pkthdr) (g : segment) : CL4Info :=
  let l2 := mkL2 header (encode_ether g) 14 (ip_total g) DLT_EN10MB in
  let l3 := mkL3 l2 34 (ip_total g - 20) (CIpAddress_in_addr (quad_addr (g_src g)))
              (CIpAddress_in_addr (quad_addr (g_dst g))) IPPROTO_TCP
              (Some ((g_id g).1 + 256 * (g_id g).2)) in
  {| m_pL3Info := l3; m_L5Data := 54; m_L5Datalen := Z.of_nat (length (g_payload g));
     m_srcPort := g_sport g; m_dstPort := g_dport g;
     m_seqNum := g_seq g; m_ackNum := g_ack g;
     m_synSet := FLAG_SET (g_flags g) TH_SYN; m_ackSet := FLAG_SET (g_flags g) TH_ACK;
     m_finSet := FLAG_SET (g_flags g) TH_FIN; m_rstSet := FLAG_SET (g_flags g) TH_RST;
     m_pushSet := FLAG_SET (g_flags g) TH_PUSH; m_urgSet := FLAG_SET (g_flags g) TH_URG;
     m_ackPacket := (Z.of_nat (length (g_payload g)) =? 0) &&
                    negb (FLAG_SET (g_flags g) (Z.lnot TH_ACK)) |}.

(** ** Reading back what was encoded *)

Lemma read_be16_enc m off v :
  0 <= v < 65536 -> read8 m off = Ok (v / 256) -> read8 m (off + 1) = Ok (v mod 256) ->
  read_be16 m off = Ok v.
Proof.
  intros Hv E1 E2. unfold read_be16. rewrite E1, E2. cbn [mbind result_bind].
  rewrite lor_shiftl_add; [| lia | by apply Z.mod_pos_bound].
  f_equal. change (2 ^ 8) with 256. pose proof (Z.div_mod v 256). lia.
Qed.

Lemma read_be32_enc m off v :
  0 <= v < 4294967296 -> read_be16 m off = Ok (v / 65536) ->
  read_be16 m (off + 2) = Ok (v mod 65536) -> read_be32 m off = Ok v.
Proof.
  intros Hv E1 E2. unfold read_be32. rewrite E1, E2. cbn [mbind result_bind].
  rewrite lor_shiftl_add; [| lia | by apply Z.mod_pos_bound].
  f_equal. change (2 ^ 16) with 65536. pose proof (Z.div_mod v 65536). lia.
Qed.

Section RoundTrip.
Context (g : segment) (Hg : segment_wf g).

Lemma read8_frame i b :
  read8 ([8; 0] ++ encode_ip_tcp g) i = Ok b -> read8 (encode_ether g) (12 + i) = Ok b.
Proof using Hg. intros E. unfold encode_ether. rewrite <- (wf_macs g Hg), read8_app. exact E. Qed.

Ltac field16 := apply read_be16_enc; [lia | by apply read8_frame | by apply read8_frame].
Ltac field32 :=
  apply read_be32_enc; [lia | |]; (apply read_be16_enc; [ | by apply read8_frame | by apply read8_frame]).

Lemma frame_length : Z.of_nat (length (encode_ether g)) = 14 + ip_total g.
Proof using Hg.
  unfold encode_ether, encode_ip_tcp, ip_total. rewrite !length_app, (wf_macs g Hg).
  destruct (g_src g) as [[[? ?] ?] ?], (g_dst g) as [[[? ?] ?] ?]. cbn [length enc16 enc32 quad_bytes app].
  lia.
Qed.

Lemma frame_payload : read_slice (encode_ether g) 54 (length (g_payload g)) = Ok (g_payload g).
Proof using Hg.
  pose proof frame_length as Hl. unfold ip_total in Hl. unfold read_slice.
  destruct (_ <? _)%nat eqn:E; breflect; [lia |]. f_equal.
  replace (encode_ether g) with ((g_macs g ++ take 42 ([8; 0] ++ encode_ip_tcp g)) ++ g_payload g).
  - rewrite drop_app_length', take_ge; [done | lia |].
    rewrite length_app, (wf_macs g Hg). unfold encode_ip_tcp.
    by destruct (g_src g) as [[[? ?] ?] ?], (g_dst g) as [[[? ?] ?] ?].
  - unfold encode_ether, encode_ip_tcp. rewrite <- app_assoc.
    by destruct (g_src g) as [[[? ?] ?] ?], (g_dst g) as [[[? ?] ?] ?].
Qed.

Lemma read_be16_frame i v :
  0 <= v < 65536 ->
  read8 ([8; 0] ++ encode_ip_tcp g) i = Ok (v / 256) ->
  read8 ([8; 0] ++ encode_ip_tcp g) (i + 1) = Ok (v mod 256) ->
  read_be16 (encode_ether g) (12 + i) = Ok v.
Proof using Hg.
  intros Hv E1 E2. apply read_be16_enc; [done | by apply read8_frame |].
  rewrite <- Nat.add_assoc. by apply read8_frame.
Qed.

Lemma read_be32_frame i v :
  0 <= v < 4294967296 ->
  read_be16 (encode_ether g) (12 + i) = Ok (v / 65536) ->
  read_be16 (encode_ether g) (12 + (i + 2)) = Ok (v mod 65536) ->
  read_be32 (encode_ether g) (12 + i) = Ok v.
Proof using. intros Hv E1 E2. apply read_be32_enc; [done | done |]. by rewrite <- Nat.add_assoc. Qed.

Lemma quad_frame i (a b c d : Z) :
  read8 ([8; 0] ++ encode_ip_tcp g) i = Ok a ->
  read8 ([8; 0] ++ encode_ip_tcp g) (i + 1) = Ok b ->
  read8 ([8; 0] ++ encode_ip_tcp g) (i + 2) = Ok c ->
  read8 ([8; 0] ++ encode_ip_tcp g) (i + 3) = Ok d ->
  read_le32 (encode_ether g) (12 + i) = Ok (quad_addr (a, b, c, d)).
Proof using Hg.
  intros Ea Eb Ec Ed. unfold read_le32. rewrite <- !Nat.add_assoc.
  by rewrite (read8_frame _ _ Ea), (read8_frame _ _ Eb), (read8_frame _ _ Ec), (read8_frame _ _ Ed).
Qed.

(** every header field, at its offset in the frame *)
Record fields_read : Prop := {
  fr_type : read_be16 (encode_ether g) 12 = Ok 2048;
  fr_vhl : read8 (encode_ether g) 14 = Ok 69;
  fr_len : read_be16 (encode_ether g) 16 = Ok (ip_total g);
  fr_id1 : read8 (encode_ether g) 18 = Ok (g_id g).1;
  fr_id2 : read8 (encode_ether g) 19 = Ok (g_id g).2;
  fr_off : read_be16 (encode_ether g) 20 = Ok (g_off g);
  fr_proto : read8 (encode_ether g) 23 = Ok IPPROTO_TCP;
  fr_src : read_le32 (encode_ether g) 26 = Ok (quad_addr (g_src g));
  fr_dst : read_le32 (encode_ether g) 30 = Ok (quad_addr (g_dst g));
  fr_sport : read_be16 (encode_ether g) 34 = Ok (g_sport g);
  fr_dport : read_be16 (encode_ether g) 36 = Ok (g_dport g);
  fr_seq : read_be32 (encode_ether g) 38 = Ok (g_seq g);
  fr_ack : read_be32 (encode_ether g) 42 = Ok (g_ack g);
  fr_doff : read8 (encode_ether g) 46 = Ok 80;
  fr_flags : read8 (encode_ether g) 47 = Ok (g_flags g)
}.

Lemma encode_fields : fields_read.
Proof using Hg.
  pose proof Hg as [_ Hs Ho _ Hsp Hdp Hsq Hak].
  assert (0 <= ip_total g < 65536) as Hl by (unfold ip_total in *; lia).
  assert (forall v, 0 <= v < 4294967296 -> 0 <= v / 65536 < 65536 /\ 0 <= v mod 65536 < 65536) as H32.
  { intros v Hv. split; [| by apply Z.mod_pos_bound].
    split; [apply Z.div_pos | apply Z.div_lt_upper_bound]; lia. }
  destruct (H32 _ Hsq), (H32 _ Hak).
  destruct (g_src g) as [[[s0 s1] s2] s3] eqn:Es, (g_dst g) as [[[d0 d1] d2] d3] eqn:Ed.
  assert (forall i b, ([8; 0] ++ encode_ip_tcp g) !! i = Some b -> 
            read8 ([8; 0] ++ encode_ip_tcp g) i = Ok b) as Hrd
    by (intros i b E; unfold read8; by rewrite E).
  constructor; rewrite ?Es, ?Ed;
    first [ apply (read8_frame 2) | apply (read8_frame 6) | apply (read8_frame 7)
          | apply (read8_frame 11) | apply (read8_frame 34) | apply (read8_frame 35)
          | apply (quad_frame 14) | apply (quad_frame 18)
          | apply (read_be16_frame 0); [lia | |] | apply (read_be16_frame 4); [lia | |]
          | apply (read_be16_frame 8); [lia | |] | apply (read_be16_frame 22); [lia | |]
          | apply (read_be16_frame 24); [lia | |]
          | apply (read_be32_frame 26); [lia | apply (read_be16_frame 26) | apply (read_be16_frame 28)];
            [done | | | done | |]
          | apply (read_be32_frame 30); [lia | apply (read_be16_frame 30) | apply (read_be16_frame 32)];
            [done | | | done | |] ];
    apply Hrd; unfold encode_ip_tcp; rewrite Es, Ed; reflexivity.
Qed.

End RoundTrip.

(** the layers of the frame of [g] *)
Section Layers.
Context {W : Type} (k : CL4Info -> W -> result (Z * W)).
Context (header : pcap_pkthdr) (g : segment) (Hg : segment_wf g).

Definition frame_l2 : CL2Info := mkL2 header (encode_ether g) 14 (ip_total g) DLT_EN10MB.

Definition frame_l3 : CL3Info :=
  mkL3 frame_l2 34 (ip_total g - 20) (CIpAddress_in_addr (quad_addr (g_src g)))
    (CIpAddress_in_addr (quad_addr (g_dst g))) IPPROTO_TCP
    (Some ((g_id g).1 + 256 * (g_id g).2)).

Lemma ip_total_range : 40 <= ip_total g < 65536.
Proof using Hg. pose proof (wf_size g Hg). unfold ip_total in *. lia. Qed.

Lemma frame_l4_decoded w : processL4 k frame_l3 w = k (segment_l4 header g) w.
Proof using Hg.
  pose proof ip_total_range as Hl.
  destruct (encode_fields g Hg) as [_ _ _ _ _ _ _ _ _ Fsp Fdp Fsq Fak Fdo Ffl].
  unfold processL4. cbn [m_payloadProtocol frame_l3]. rewrite Z.eqb_refl.
  unfold processL4Tcp, tcphdr.sizeof_tcphdr.
  cbn [frame_l3 frame_l2 m_L4Datalen m_L4Data m_pL2Info m_pcapData].
  destruct (_ <? Z.of_nat 20) eqn:E; breflect; [lia | clear E].
  unfold tcphdr.th_off, tcphdr.th_sport, tcphdr.th_dport. cbn [Nat.add].
  rewrite Fdo. cbn [mbind result_bind]. rewrite Fsp, Fdp. cbn [mbind result_bind].
  change (u8 (Z.shiftr 80 4 * 4)) with 20. change (34 + Z.to_nat 20)%nat with 54%nat.
  replace (if 20 <? ip_total g - 20 then ip_total g - 20 - 20 else 0)
    with (Z.of_nat (length (g_payload g)))
    by (unfold ip_total; destruct (20 <? _) eqn:E; breflect; lia).
  unfold newCL4Info, tcphdr.th_seq, tcphdr.th_ack, tcphdr.th_flags.
  cbn [frame_l3 frame_l2 m_L4Data m_pL2Info m_pcapData Nat.add].
  by rewrite Fsq, Fak, Ffl.
Qed.

Lemma frame_version : getIpVersion frame_l2 = Ok 4.
Proof using Hg.
  pose proof ip_total_range as Hl. unfold getIpVersion, ip4_hdr.ip_v, ip4_hdr.sizeof_ip4_hdr.
  cbn [frame_l2 m_L3Datalen m_L3Data m_pcapData]. rewrite (fr_vhl g (encode_fields g Hg)).
  destruct (_ <=? _) eqn:E; breflect; [done | lia].
Qed.

Lemma frame_l3_decoded w : processL3Ip4 k frame_l2 w = processL4 k frame_l3 w.
Proof using Hg.
  pose proof ip_total_range as Hl.
  destruct (encode_fields g Hg) as [_ Fv Fl F1 F2 Fo Fp Fs Fd _ _ _ _ _ _].
  unfold processL3Ip4, ip4_hdr.ip_len, ip4_hdr.ip_off, ip4_hdr.ip_hl, ip4_hdr.ip_src,
    ip4_hdr.ip_dst, ip4_hdr.sizeof_ip4_hdr.
  cbn [m_L3Datalen m_L3Data m_pcapData frame_l2 Nat.add].
  destruct (_ <? Z.of_nat 20) eqn:E; breflect; [lia | clear E].
  rewrite Fl. cbn [mbind result_bind]. rewrite Z.ltb_irrefl.
  rewrite Fo. cbn [mbind result_bind]. rewrite (wf_first g Hg). cbn [negb Z.eqb].
  rewrite Fv. cbn [mbind result_bind]. change (Z.land 69 15 * 4) with 20.
  destruct (_ <? 20) eqn:E; breflect; [lia | clear E].
  change (Z.to_nat 20) with 20%nat. rewrite Fs, Fd. cbn [mbind result_bind].
  unfold newCL3Info. fold frame_l2. rewrite frame_version. cbn [mbind result_bind].
  change (4 =? 4) with true. cbn iota.
  unfold ip4_hdr.ip_p, ip4_hdr.ip_id. cbn [m_pcapData m_L3Data frame_l2 Nat.add].
  by rewrite Fp, F1, F2.
Qed.

End Layers.

(** C10: Decoding inverts encoding: every unfragmented Ethernet/IPv4/TCP
    frame without options reaches layer 5 exactly once, with the addresses,
    ports, sequence numbers and flags its sender wrote, and the payload
    layer 5 copies is the payload sent. *)
Theorem ether_frame_roundtrip {W} (k : CL4Info -> W -> result (Z * W)) header g w :
  segment_wf g -> len header = caplen header ->
  caplen header = Z.of_nat (length (encode_ether g)) ->
  processL2 (processL3 k) DLT_EN10MB header (encode_ether g) w =
    (r ← k (segment_l4 header g) w; Ok r.2) /\
  l5_bytes (segment_l4 header g) = Ok (g_payload g).
Proof.
  intros Hg Hlen Hcap. rewrite (frame_length g Hg) in Hcap.
  pose proof (ip_total_range g Hg) as Hl.
  split; [| unfold l5_bytes; cbn; rewrite Nat2Z.id; by apply frame_payload].
  unfold processL2. cbn [DLT_EN10MB Z.eqb Pos.eqb orb]. unfold processL2En10Mb.
  rewrite Hlen, Z.eqb_refl. cbn [negb]. unfold ether_header.ether_type. cbn [Nat.add].
  rewrite (fr_type g (encode_fields g Hg)). cbn [mbind result_bind].
  change (2048 =? ETHERTYPE_VLAN) with false. cbn zeta iota.
  rewrite Hcap. destruct (_ <? 14) eqn:E; breflect; [lia |]. clear E.
  replace (14 + ip_total g - 14) with (ip_total g) by lia.
  fold (frame_l2 header g). unfold processL3. rewrite (frame_version header g Hg).
  cbn [mbind result_bind]. change (4 =? 4) with true. cbn iota.
  by rewrite (frame_l3_decoded k header g Hg), (frame_l4_decoded k header g Hg).
Qed.

(** a SYN from 10.0.0.1:1234 to 10.0.0.2:80 carrying two bytes *)
Definition sample_segment : segment :=
  mkSegment (repeat 17 12) 0 (18, 52) 16384 64 0 (10, 0, 0, 1) (10, 0, 0, 2)
    1234 80 1000 0 2 8192 0 0 [71; 69].

Definition sample_header : pcap_pkthdr := mkPcapHdr 56 56 1000.

Lemma sample_segment_wf : segment_wf sample_segment.
Proof. by constructor. Qed.

Lemma ether_frame_roundtrip_witness :
  processL2 (processL3 (fun l4 _ => Ok (0, Some l4))) DLT_EN10MB sample_header
    (encode_ether sample_segment) None = Ok (Some (segment_l4 sample_header sample_segment)).
Proof.
  exact (proj1 (ether_frame_roundtrip (fun l4 _ => Ok (0, Some l4)) sample_header sample_segment
                  None sample_segment_wf eq_refl eq_refl)).
Defined.

(** ** Memory safety *)

(** [bytes_ok] of a closed list *)
Ltac closed_bytes := vm_compute; repeat constructor; discriminate.

(** C9: Parsing is memory safe.  For every captured frame that holds its
    link-layer header and, if it carries IPv6, its announced payload, every
    read of layers 2 to 4 stays inside the captured bytes; the frame is
    dropped with the state unchanged, or exactly one segment, well formed
    and with its payload inside the frame, is handed to layer 5. *)
Theorem parsing_memory_safe {W} (k : CL4Info -> W -> result (Z * W)) DLT header packet w :
  frame_ok header packet -> frame_min DLT header ->
  (forall l2, l2_of DLT header packet = Ok (Some l2) -> getIpVersion l2 = Ok 6 -> ip6_fits l2) ->
  processL2 (processL3 k) DLT header packet w = Ok w \/
  exists l4, l4_wf l4 /\ m_pcapData (l4_l2 l4) = packet /\
    processL2 (processL3 k) DLT header packet w = (r ← k l4 w; Ok r.2).
Proof. apply parsing_handover. Qed.

Lemma sample_frame_ok : frame_ok sample_header (encode_ether sample_segment).
Proof. split; [closed_bytes | by split]. Qed.

Lemma sample_frame_min : frame_min DLT_EN10MB sample_header.
Proof. by split. Qed.

Lemma sample_not_ip6 l2 :
  l2_of DLT_EN10MB sample_header (encode_ether sample_segment) = Ok (Some l2) ->
  getIpVersion l2 = Ok 6 -> ip6_fits l2.
Proof. intros E. vm_compute in E. injection E as <-. by intros E. Qed.

Lemma parsing_memory_safe_witness :
  exists l4, l4_wf l4 /\ m_pcapData (l4_l2 l4) = encode_ether sample_segment /\
    processL2 (processL3 (fun l4 _ => Ok (0, m_seqNum l4))) DLT_EN10MB sample_header
      (encode_ether sample_segment) 0 = Ok (m_seqNum l4).
Proof.
  destruct (parsing_memory_safe (fun l4 _ => Ok (0, m_seqNum l4)) DLT_EN10MB sample_header
    (encode_ether sample_segment) 0 sample_frame_ok sample_frame_min sample_not_ip6)
    as [E | (l4 & Hw & Hd & E)].
  - vm_compute in E. discriminate E.
  - exact (ex_intro _ l4 (conj Hw (conj Hd E))).
Defined.

(** Reads past the end of the captured bytes. *)
Lemma read_be16_outside m off : (length m < off + 2)%nat -> read_be16 m off = Fault OutOfBoundsRead.
Proof.
  intros Hl. unfold read_be16. destruct (decide (length m <= off)%nat).
  - by rewrite (read8_outside m off).
  - rewrite (read8_outside m (off + 1)) by lia. unfold read8. by destruct (m !! off).
Qed.

Lemma read_le32_outside m off : (length m < off + 4)%nat -> read_le32 m off = Fault OutOfBoundsRead.
Proof.
  intros Hl. unfold read_le32. rewrite (read8_outside m (off + 3)) by lia.
  unfold read8. by destruct (m !! off), (m !! (off + 1)%nat), (m !! (off + 2)%nat).
Qed.

(** An Ethernet frame too short for its header is read out of bounds:
    [processL2En10Mb] loads the EtherType before it checks the captured
    length, and the same holds of the family word of a loopback frame. *)
Theorem short_frame_overread {W} (k3 : CL2Info -> W -> result W) header packet w :
  caplen header = Z.of_nat (length packet) -> len header = caplen header ->
  (caplen header < 14 -> processL2 k3 DLT_EN10MB header packet w = Fault OutOfBoundsRead) /\
  (caplen header < 4 -> processL2 k3 DLT_NULL header packet w = Fault OutOfBoundsRead).
Proof.
  intros Hc Hl. split; intros Hs.
  - unfold processL2. cbn [DLT_EN10MB Z.eqb Pos.eqb orb]. unfold processL2En10Mb.
    rewrite Hl, Z.eqb_refl. cbn [negb]. unfold ether_header.ether_type.
    rewrite read_be16_outside by lia. done.
  - unfold processL2. cbn [DLT_NULL Z.eqb Pos.eqb orb]. unfold processL2Null.
    rewrite read_le32_outside by lia. done.
Qed.

Lemma short_frame_overread_witness :
  processL2 (fun _ w => Ok w) DLT_EN10MB (mkPcapHdr 13 13 0) (repeat 0 13) tt
    = Fault OutOfBoundsRead.
Proof. by apply (short_frame_overread (fun _ w => Ok w) (mkPcapHdr 13 13 0) (repeat 0 13) tt). Defined.

(** An IPv6 payload length is believed without comparing it with the
    captured length: a raw capture that ends with its IPv6 header but
    announces a TCP segment is read past its end. *)
Theorem ip6_overread {W} (k : CL4Info -> W -> result (Z * W)) header packet plen w :
  frame_ok header packet -> caplen header = 40 ->
  ip4_hdr.ip_v packet 0 = Ok 6 -> ip6_hdr.ip6_un1_nxt packet 0 = Ok IPPROTO_TCP ->
  ip6_hdr.ip6_un1_plen packet 0 = Ok plen -> 20 <= plen ->
  processL2 (processL3 k) DLT_RAW header packet w = Fault OutOfBoundsRead.
Proof.
  intros (Hb & Hc & _) H40 Hv Hn Hp Hl.
  change (processL2 (processL3 k) DLT_RAW header packet w)
    with (processL3 k (mkL2 header packet 0 (caplen header) DLT_RAW) w).
  set (l2 := mkL2 header packet 0 (caplen header) DLT_RAW).
  assert (getIpVersion l2 = Ok 6) as Ev
    by (unfold getIpVersion; cbn [m_L3Datalen m_pcapData m_L3Data l2]; by rewrite H40, Hv).
  unfold processL3. rewrite Ev. cbn [mbind result_bind]. change (6 =? 4) with false.
  change (6 =? 6) with true. cbn iota. unfold processL3Ip6.
  cbn [m_L3Datalen m_pcapData m_L3Data l2]. rewrite H40, Hp.
  change (40 <? Z.of_nat ip6_hdr.sizeof_ip6_hdr) with false. cbn [mbind result_bind].
  unfold ip6_hdr.ip6_src, ip6_hdr.ip6_dst.
  destruct (read_slice_inside _ Hb (0 + 8) 16) as (src & -> & _); [lia |].
  destruct (read_slice_inside _ Hb (0 + 24) 16) as (dst & -> & _); [lia |].
  cbn [mbind result_bind]. unfold newCL3Info. fold l2. rewrite Ev. cbn [mbind result_bind].
  change (6 =? 4) with false. change (6 =? 6) with true. cbn iota.
  cbn [m_pcapData m_L3Data l2]. rewrite Hn. cbn [mbind result_bind].
  unfold processL4. cbn [m_payloadProtocol]. rewrite Z.eqb_refl. unfold processL4Tcp.
  cbn [m_L4Datalen m_L4Data m_pL2Info m_pcapData l2]. unfold tcphdr.sizeof_tcphdr, tcphdr.th_off.
  destruct (_ <? _) eqn:E; breflect; [lia |].
  rewrite read8_outside; [done |]. unfold ip6_hdr.sizeof_ip6_hdr. lia.
Qed.

Lemma ip6_overread_witness :
  processL2 (processL3 (fun _ w => Ok (0, w))) DLT_RAW (mkPcapHdr 40 40 0)
    ([96; 0; 0; 0; 0; 20; 6; 64] ++ repeat 0 32) tt = Fault OutOfBoundsRead.
Proof.
  apply (ip6_overread (fun _ w => Ok (0, w)) (mkPcapHdr 40 40 0)
    ([96; 0; 0; 0; 0; 20; 6; 64] ++ repeat 0 32) 20 tt); try done.
  split; [closed_bytes | done].
Defined.

(** ** Witness of the state machine refinement *)

(** the decoded segment of a FIN from the client *)
Definition sample_fin : CL4Info :=
  segment_l4 (mkPcapHdr 54 54 1000)
    (mkSegment (repeat 17 12) 0 (18, 52) 16384 64 0 (10, 0, 0, 1) (10, 0, 0, 2)
       40000 80 1000 0 17 8192 0 0 []).

Lemma sample_fin_wf : l4_wf sample_fin.
Proof.
  split; [| vm_compute; repeat split; congruence || lia].
  split; [| split; [apply CIpAddress_in_addr_wf |]; split; [apply CIpAddress_in_addr_wf |]; vm_compute; split; congruence].
  split; [closed_bytes | vm_compute; split; congruence].
Qed.

Lemma updateMe_refines_close_witness :
  let _ := script_parser [] in
  let s := sessionCreated (newCTcpSession setDefault sample_id) in
  match updateMe sample_db sample_fin s with
  | Ok s' => close_view (m_tcpState s') = Open true false
  | Fault f => m_synSet sample_fin = false /\ 0 < m_L5Datalen sample_fin /\
      (f = OutOfRange \/ f = OutOfBoundsRead /\ payload_outside sample_fin)
  end.
Proof.
  cbn zeta.
  apply (@updateMe_refines_close (script_parser []) sample_db sample_fin
           (@sessionCreated (script_parser []) (@newCTcpSession (script_parser []) setDefault sample_id)));
    [apply l4_wf_sane, sample_fin_wf | split; [done | intros _; by eexists] | split; vm_compute; congruence].
Defined.
