(* ===== verification/Smtp.v ===== *)
(** * CSmtpTxnDecoder: cutting mails out of an SMTP dialogue

    [getMailDatas] scans a direction of the session for the text between a
    [DATA] command and the final dot; [decode] hands each text to VMime and
    copies the parts it returns into a [CMailInfo].  Offsets are naturals,
    the [size_t] expressions that can wrap are computed with [u64]. *)
From Stdlib Require Import ZArith Lia.
From stdpp Require Import base gmap list strings numbers.
From S2P Require Import Prelude IpAddress SegBuf Config DbManager Session HttpDecoder.

Local Open Scope Z_scope.

(** the constants [startTag] and [endTag] *)
Definition startTag : bytes := [13; 10; 68; 65; 84; 65; 13; 10].
Definition endTag : bytes := [13; 10; 46; 13; 10].

(** [c_str()[i]]: the terminator is readable, nothing after it *)
Definition c_char (buf : bytes) (i : nat) : result Z :=
  match buf !! i with
  | Some c => Ok c
  | None => if (i =? length buf)%nat then Ok 0 else Fault OutOfBoundsRead
  end.

(** [0 == strncasecmp(begin + off, tag, strlen(tag))] *)
Fixpoint strncasecmp_eq (buf : bytes) (off : nat) (tag : bytes) : result bool :=
  match tag with
  | [] => Ok true
  | t :: tag' =>
    c ← c_char buf off;
    if tolower c =? tolower t
    then (if c =? 0 then Ok true else strncasecmp_eq buf (S off) tag')
    else Ok false
  end.

(** [off < len - tagLen + 1] in [size_t] *)
Definition in_scan (buf tag : bytes) (off : nat) : bool :=
  Z.of_nat off <? u64 (Z.of_nat (length buf) - Z.of_nat (length tag) + 1).

Definition max_size : Z := 4611686018427387897.

(** [string s(p, n)] throws when [n] exceeds [max_size()], in libstdc++
    [(npos - 24) / 4 - 1] *)
Definition make_string (buf : bytes) (pos : nat) (n : Z) : result bytes :=
  if max_size <? n then Fault LengthError
  else if (length buf <? pos + Z.to_nat n)%nat then Fault OutOfBoundsRead
  else Ok (take (Z.to_nat n) (drop pos buf)).

(** the inner loop: the offset it stops at, and whether the tag was there *)
Fixpoint end_loop (fuel : nat) (buf : bytes) (off2 : nat) : result (nat * bool) :=
  match fuel with
  | O => Fault OutOfFuel
  | S k =>
    if in_scan buf endTag off2 then
      b ← strncasecmp_eq buf off2 endTag;
      if b : bool then Ok (off2, true) else end_loop k buf (S off2)
    else Ok (off2, false)
  end.

(** the outer loop *)
Fixpoint mail_loop (fuel : nat) (buf : bytes) (off1 : nat) (vec : list bytes) : result (list bytes) :=
  match fuel with
  | O => Fault OutOfFuel
  | S k =>
    if in_scan buf startTag off1 then
      b ← strncasecmp_eq buf off1 startTag;
      if b : bool then
        r ← end_loop (S (length buf)) buf off1;
        let '(off2, found) := r in
        vec' ← (if found : bool then
                  s ← make_string buf (off1 + length startTag)
                        (u64 (Z.of_nat off2 - Z.of_nat off1 - Z.of_nat (length startTag)));
                  Ok (vec ++ [s])
                else Ok vec);
        mail_loop k buf off2 vec'
      else mail_loop k buf (S off1) vec
    else Ok vec
  end.

(** [getMailDatas(buf)]; every round moves the offset forward, and an
    offset past the terminator faults, so [length buf + 2] rounds suffice *)
Definition getMailDatas (buf : bytes) (vec : list bytes) : result (list bytes) :=
  mail_loop (S (S (length buf))) buf 0 vec.

(** ** VMime *)

(** what [decode] reads from a parsed message *)
Record vmime_attachment := mkVAtt {
  va_type : bytes; va_subType : bytes; va_name : bytes; va_description : bytes; va_data : bytes
}.
Record vmime_textPart := mkVText {
  vt_type : bytes; vt_subType : bytes; vt_text : bytes; vt_objects : list bytes
}.
Record vmime_message := mkVMsg {
  vm_expeditor : bytes; vm_recipients : bytes; vm_copyRecipients : bytes;
  vm_blindCopyRecipients : bytes; vm_subject : bytes; vm_date : bytes;
  vm_attachments : list vmime_attachment; vm_textParts : list vmime_textPart
}.

(** [None]: the library throws while it parses or extracts *)
Class MimeLib := { messageParser : bytes -> option vmime_message }.

Definition TEXT_HTML : bytes := bs "html".
Definition TEXT_PLAIN : bytes := bs "plain".

Definition empty_text : CMailText := mkMailText [] [] [] [].

(** the body of the attachment loop *)
Definition copy_attachment (a : vmime_attachment) : CAttachment :=
  mkAttachment (va_type a) (va_subType a) (va_name a) (va_description a) (va_data a).

(** the body of the text part loop: types are overwritten, objects appended *)
Definition copy_text (t : CMailText) (p : vmime_textPart) : CMailText :=
  if bytes_eqb (vt_subType p) TEXT_HTML then
    mkMailText (vt_type p) (vt_subType p) (vt_text p) (tx_embeddedObjects t ++ vt_objects p)
  else if bytes_eqb (vt_subType p) TEXT_PLAIN then
    mkMailText (vt_type p) (vt_subType p) (vt_text p) (tx_embeddedObjects t)
  else mkMailText (vt_type p) (vt_subType p) (tx_content t) (tx_embeddedObjects t).

(** the [CMailInfo] filled from a parsed message *)
Definition copy_message (m : vmime_message) : CMailInfo :=
  let mimeMap : gmap bytes bytes :=
    <[bs "Date" := vm_date m]> (<[bs "Subject" := vm_subject m]>
    (<[bs "BlindCopyRecipients" := vm_blindCopyRecipients m]>
    (<[bs "CopyRecipients" := vm_copyRecipients m]>
    (<[bs "Recipients" := vm_recipients m]>
    (<[bs "Expeditor" := vm_expeditor m]> ∅))))) in
  mkMailInfo mimeMap (foldl copy_text empty_text (vm_textParts m))
    (copy_attachment <$> vm_attachments m).

Section Decode.
Context `{MimeLib}.

(** [decode(data)]: an exception of the library is logged and rethrown *)
Definition decode (data : bytes) (vec : list CMailInfo) : result (list CMailInfo) :=
  match messageParser data with
  | None => Fault MailException
  | Some m => Ok (vec ++ [copy_message m])
  end.

Fixpoint decode_all (datas : list bytes) (vec : list CMailInfo) : result (list CMailInfo) :=
  match datas with
  | [] => Ok vec
  | d :: ds => vec' ← decode d vec; decode_all ds vec'
  end.

Context `{HttpParserLib}.

(** [decodeSmtp()] *)
Definition decodeSmtp (s : CTcpSession) : result (bool * CTcpSession) :=
  let d := m_smtpDecoder s in
  v1 ← getMailDatas (getBuf (getContinuousBuf DIRECTION_TO_SERVER s)) (m_mailDataVector d);
  v2 ← getMailDatas (getBuf (getContinuousBuf DIRECTION_TO_CLIENT s)) v1;
  infos ← decode_all v2 (m_mailInfoVector d);
  Ok (true, setSmtpDecoder (mkSmtpDecoder infos v2) s).

End Decode.

(** ** The reference: repeatedly cut at the next tags *)

Definition lower (s : bytes) : bytes := tolower <$> s.

(** the first occurrence of a tag, ignoring case *)
Definition find_ci (tag s : bytes) : option nat := str_find (lower tag) (lower s).

(** the texts between tags; the text after [DATA] starts at the tag's own
    line end, so an end tag closer than eight bytes means an empty mail *)
Fixpoint mails_ref (fuel : nat) (s : bytes) : result (list bytes) :=
  match fuel with
  | O => Fault OutOfFuel
  | S k =>
    match find_ci startTag s with
    | None => Ok []
    | Some i =>
      let s1 := drop i s in
      match find_ci endTag s1 with
      | None => Ok []
      | Some j =>
        if (j <? 8)%nat then Fault LengthError
        else
          l ← mails_ref k (drop j s1);
          Ok (take (j - 8) (drop 8 s1) :: l)
      end
    end
  end.

Definition mails (s : bytes) : result (list bytes) := mails_ref (S (length s)) s.

(** ** The scan computes the reference *)

Lemma strncasecmp_spec buf off tag :
  (off <= length buf)%nat -> Forall (fun t => tolower t <> 0) tag ->
  strncasecmp_eq buf off tag = Ok (prefixb (lower tag) (lower (drop off buf))).
Proof.
  intros Hoff Ht. revert off Hoff. induction Ht as [|t tag Hne _ IH]; intros off Hoff; [done |].
  cbn [strncasecmp_eq]. unfold c_char. destruct (buf !! off) as [c|] eqn:E.
  - rewrite (drop_S _ _ _ E). cbn [mbind result_bind lower fmap list_fmap prefixb].
    rewrite (Z.eqb_sym (tolower t)). destruct (tolower c =? tolower t) eqn:Ec; [| done].
    breflect. destruct (c =? 0) eqn:E0; breflect; [by subst c |].
    apply IH. apply lookup_lt_Some in E. lia.
  - apply lookup_ge_None in E. replace off with (length buf) by lia. rewrite Nat.eqb_refl, drop_all.
    cbn [mbind result_bind]. destruct (tolower 0 =? tolower t) eqn:Ec; breflect; [| done].
    by cbn in Ec.
Qed.

Lemma startTag_nonzero : Forall (fun t => tolower t <> 0) startTag.
Proof. by repeat constructor. Qed.
Lemma endTag_nonzero : Forall (fun t => tolower t <> 0) endTag.
Proof. by repeat constructor. Qed.

Lemma length_lower s : length (lower s) = length s.
Proof. apply length_fmap. Qed.

Lemma find_ci_step tag buf off :
  (off < length buf)%nat ->
  find_ci tag (drop off buf) =
    if prefixb (lower tag) (lower (drop off buf)) then Some 0%nat
    else S <$> find_ci tag (drop (S off) buf).
Proof.
  intros H. apply lookup_lt_is_Some in H as [c Hc]. rewrite (drop_S _ _ _ Hc). done.
Qed.

Lemma find_ci_bound tag s i :
  find_ci tag s = Some i -> (i + length tag <= length s)%nat \/ tag = [].
Proof.
  intros [H|H]%str_find_bound; rewrite ?length_lower in *; [by left |].
  right. by apply fmap_nil_inv in H.
Qed.

Lemma find_ci_short tag s : (length s < length tag)%nat -> find_ci tag s = None.
Proof.
  intros H. destruct (find_ci tag s) as [i|] eqn:E; [| done].
  apply find_ci_bound in E as [?| ->]; cbn in *; lia.
Qed.

Lemma c_char_outside buf i : (length buf < i)%nat -> c_char buf i = Fault OutOfBoundsRead.
Proof.
  intros H. unfold c_char. rewrite lookup_ge_None_2 by lia.
  destruct (i =? length buf)%nat eqn:E; breflect; [lia | done].
Qed.

Section Scan.
Context (buf : bytes) (Hmax : Z.of_nat (length buf) <= max_size).

Lemma in_scan_spec tag off :
  (length tag <= S (length buf))%nat ->
  in_scan buf tag off = (off + length tag <=? length buf)%nat.
Proof using Hmax.
  unfold in_scan, u64, max_size in *. intros H. rewrite Z.mod_small by lia.
  apply eq_bool_prop_intro. rewrite !Is_true_true, Z.ltb_lt, Nat.leb_le. lia.
Qed.

Lemma end_loop_spec fuel off :
  (4 <= length buf)%nat -> (off <= length buf)%nat -> (length buf - off < fuel)%nat ->
  end_loop fuel buf off =
    Ok (match find_ci endTag (drop off buf) with
        | Some j => (off + j, true)%nat
        | None => (Nat.max off (length buf - 4), false)
        end).
Proof using Hmax.
  intros H4. revert off. induction fuel as [|fuel IH]; intros off Hoff Hf; [lia |].
  cbn [end_loop]. rewrite in_scan_spec by (cbn; lia).
  destruct (_ <=? _)%nat eqn:E; breflect; cbn [length endTag] in E.
  - rewrite strncasecmp_spec by (done || apply endTag_nonzero). cbn [mbind result_bind].
    rewrite find_ci_step by lia.
    destruct (prefixb _ _); [by rewrite Nat.add_0_r |].
    rewrite IH by lia. destruct (find_ci _ _); cbn; do 2 f_equal; lia.
  - rewrite find_ci_short by (rewrite length_drop; cbn; lia). do 2 f_equal. lia.
Qed.

Lemma make_string_spec off j :
  (off + j <= length buf)%nat ->
  make_string buf (off + 8) (u64 (Z.of_nat (off + j) - Z.of_nat off - 8)) =
    if (j <? 8)%nat then Fault LengthError else Ok (take (j - 8) (drop 8 (drop off buf))).
Proof using Hmax.
  intros H. unfold make_string, max_size, u64 in *.
  replace (Z.of_nat (off + j) - Z.of_nat off - 8) with (Z.of_nat j - 8) by lia.
  destruct (j <? 8)%nat eqn:E; breflect.
  - replace (Z.of_nat j - 8) with (Z.of_nat j + 18446744073709551608 + (-1) * 18446744073709551616) by lia.
    rewrite Z_mod_plus_full, Z.mod_small by lia. destruct (_ <? _) eqn:E1; breflect; [done | lia].
  - rewrite Z.mod_small by lia. destruct (_ <? _) eqn:E1; breflect; [lia |].
    replace (Z.to_nat (Z.of_nat j - 8)) with (j - 8)%nat by lia.
    destruct (_ <? _)%nat eqn:E2; breflect; [lia |]. by rewrite drop_drop.
Qed.

Lemma mails_ref_step fuel off :
  (off < length buf)%nat ->
  prefixb (lower startTag) (lower (drop off buf)) = false ->
  mails_ref fuel (drop off buf) = mails_ref fuel (drop (S off) buf).
Proof using.
  intros Ho Hp. destruct fuel as [|fuel]; [done |]. cbn [mails_ref].
  rewrite find_ci_step by done. rewrite Hp.
  destruct (find_ci startTag (drop (S off) buf)) as [i|]; [| done]. cbn [fmap option_fmap option_map].
  rewrite !drop_drop. by replace (off + S i)%nat with (S off + i)%nat by lia.
Qed.

Lemma mail_loop_spec fuel off vec fuel' :
  (7 <= length buf)%nat -> (off <= length buf)%nat ->
  (length buf - off < fuel)%nat -> (length buf - off < fuel')%nat ->
  mail_loop fuel buf off vec = (l ← mails_ref fuel' (drop off buf); Ok (vec ++ l)).
Proof using Hmax.
  intros H7. revert off vec fuel'. induction fuel as [|fuel IH]; intros off vec fuel' Hoff Hf Hf'; [lia |].
  cbn [mail_loop]. rewrite in_scan_spec by (cbn; lia).
  destruct (_ <=? _)%nat eqn:E; breflect; cbn [length startTag] in E.
  - rewrite strncasecmp_spec by (done || apply startTag_nonzero). cbn [mbind result_bind].
    destruct (prefixb _ _) eqn:Ep.
    + rewrite end_loop_spec by lia. cbn [mbind result_bind].
      destruct fuel' as [|fuel']; [lia |]. cbn [mails_ref].
      rewrite (find_ci_step startTag), Ep by lia. rewrite drop_0.
      destruct (find_ci endTag (drop off buf)) as [j|] eqn:Ej.
      * apply find_ci_bound in Ej as [Hj|]; [| done]. rewrite length_drop in Hj. cbn [length endTag] in Hj.
        cbn [length startTag]. change (Z.of_nat 8) with 8. rewrite make_string_spec by lia.
        destruct (j <? 8)%nat eqn:E8; breflect; cbn [mbind result_bind]; [done |].
        rewrite (IH _ _ fuel') by lia. rewrite <- (drop_drop buf j off).
        destruct (mails_ref _ _); cbn [mbind result_bind]; [by rewrite <- app_assoc | done].
      * cbn [mbind result_bind]. destruct fuel as [|fuel]; [lia |]. cbn [mail_loop].
        rewrite in_scan_spec by (cbn; lia).
        destruct (_ <=? _)%nat eqn:E2; breflect; cbn [length startTag] in E2; [lia |].
        by rewrite app_nil_r.
    + rewrite (IH _ _ fuel') by lia. by rewrite (mails_ref_step fuel' off) by (done || lia).
  - destruct fuel' as [|fuel']; [lia |]. cbn [mails_ref].
    rewrite find_ci_short by (rewrite length_drop; cbn; lia). cbn. by rewrite app_nil_r.
Qed.

Lemma getMailDatas_mails vec :
  (7 <= length buf)%nat -> getMailDatas buf vec = (l ← mails buf; Ok (vec ++ l)).
Proof using Hmax. intros H. unfold getMailDatas, mails. rewrite (mail_loop_spec _ 0 vec (S (length buf))); try done; lia. Qed.

End Scan.

(** On every buffer of at least seven bytes the index scan of
    [getMailDatas] terminates and appends exactly the texts the reference
    cuts out: from each [DATA] line to the first final dot after it, in
    order, whatever the case of the command. *)
Theorem getMailDatas_refines buf vec :
  Z.of_nat (length buf) <= max_size -> (7 <= length buf)%nat ->
  getMailDatas buf vec = (l ← mails buf; Ok (vec ++ l)).
Proof. intros. by apply getMailDatas_mails. Qed.

Lemma getMailDatas_refines_witness :
  getMailDatas (bs "HELO" ++ startTag ++ bs "hi" ++ endTag) [] = Ok [bs "hi"].
Proof.
  rewrite (getMailDatas_refines (bs "HELO" ++ startTag ++ bs "hi" ++ endTag) []);
    [by vm_compute | by vm_compute | vm_compute; lia].
Defined.

Lemma getMailDatas_short buf vec :
  (length buf < 7)%nat -> getMailDatas buf vec = Fault OutOfBoundsRead.
Proof.
  intros H7. unfold getMailDatas.
  assert (forall fuel off, (length buf - off < fuel)%nat -> (off <= length buf)%nat ->
            mail_loop (S fuel) buf off vec = Fault OutOfBoundsRead) as Hloop.
  { assert (forall off, (off <= S (length buf))%nat -> in_scan buf startTag off = true) as Hin.
    { intros off Ho. unfold in_scan, u64. cbn [length startTag]. change (Z.of_nat 8) with 8.
      replace (Z.of_nat (length buf) - 8 + 1)
        with (Z.of_nat (length buf) + 18446744073709551609 + (-1) * 18446744073709551616) by lia.
      rewrite Z_mod_plus_full, Z.mod_small by lia. apply Z.ltb_lt. lia. }
    intros fuel. induction fuel as [|fuel IH]; intros off Hf Ho; [lia |].
    remember (S fuel) as k eqn:Ek. cbn [mail_loop]. rewrite Hin by lia.
    rewrite strncasecmp_spec by (done || apply startTag_nonzero). cbn [mbind result_bind].
    destruct (prefixb _ _) eqn:Ep.
    { apply prefixb_length in Ep. rewrite !length_lower, length_drop in Ep. cbn in Ep. lia. }
    destruct (decide (off = length buf)) as [->|]; [| apply IH; lia].
    rewrite Ek. cbn [mail_loop]. rewrite Hin by lia. cbn [strncasecmp_eq startTag].
    by rewrite (c_char_outside buf (S (length buf))) by lia. }
  apply Hloop; lia.
Qed.

(** A buffer of fewer than seven bytes, an empty direction included,
    makes [len - startTagLen + 1] wrap around and the scan leave the buffer. *)
Theorem getMailDatas_short_overread buf vec :
  (length buf < 7)%nat -> getMailDatas buf vec = Fault OutOfBoundsRead.
Proof. apply getMailDatas_short. Qed.

Lemma getMailDatas_short_overread_witness : getMailDatas [] [] = Fault OutOfBoundsRead.
Proof. apply (getMailDatas_short_overread [] []). vm_compute. lia. Defined.

(** ** Dialogues *)

(** mails as a client sends them: the commands before each [DATA], the
    text, the final dot, and what follows the last mail *)
Fixpoint dialogue (l : list (bytes * bytes)) (tail : bytes) : bytes :=
  match l with
  | [] => tail
  | (cmds, body) :: l' => cmds ++ startTag ++ body ++ endTag ++ dialogue l' tail
  end.

(** No tag occurs early: commands hold no [DATA] line and a text no line of
    a single dot.  [carry] is the end tag of the mail before. *)
Fixpoint dialogue_ok (carry : bytes) (l : list (bytes * bytes)) (tail : bytes) : Prop :=
  match l with
  | [] => find_ci startTag (carry ++ tail) = None
  | (cmds, body) :: l' =>
    find_ci startTag ((carry ++ cmds) ++ startTag) = Some (length (carry ++ cmds)) /\
    find_ci endTag ((startTag ++ body) ++ endTag) = Some (length (startTag ++ body)) /\
    dialogue_ok endTag l' tail
  end.

Lemma prefixb_app p s r : (length p <= length s)%nat -> prefixb p (s ++ r) = prefixb p s.
Proof.
  revert s. induction p as [|x p IH]; intros [|y s] H; cbn in *; try done; try lia.
  rewrite IH by lia. done.
Qed.

(** Text after the first occurrence does not move it. *)
Lemma find_ci_app tag a r :
  find_ci tag (a ++ tag) = Some (length a) -> find_ci tag (a ++ tag ++ r) = Some (length a).
Proof.
  unfold find_ci. rewrite !str_find_Some. intros [H1 H2].
  assert (forall j, (j <= length a)%nat ->
    prefixb (lower tag) (drop j (lower (a ++ tag ++ r))) = prefixb (lower tag) (drop j (lower (a ++ tag)))) as He.
  { intros j Hj. rewrite app_assoc. unfold lower at 2. rewrite fmap_app, drop_app_le.
    - apply prefixb_app. unfold lower. rewrite length_drop, !length_fmap, length_app. lia.
    - rewrite length_fmap, length_app. lia. }
  split; [by rewrite He |]. intros j Hj. rewrite He by lia. by apply H2.
Qed.

Lemma mails_ref_dialogue fuel carry l tail :
  (length l < fuel)%nat -> dialogue_ok carry l tail ->
  mails_ref fuel (carry ++ dialogue l tail) = Ok (l.*2).
Proof.
  revert fuel carry. induction l as [|[cmds body] l IH]; intros [|fuel] carry Hf Hok;
    cbn in Hf; try lia; cbn [mails_ref dialogue].
  - cbn in Hok. by rewrite Hok.
  - cbn [dialogue_ok] in Hok. destruct Hok as (H1 & H2 & H3).
    rewrite app_assoc. rewrite (find_ci_app startTag (carry ++ cmds)) by done.
    rewrite drop_app_length, app_assoc. rewrite (find_ci_app endTag (startTag ++ body)) by done.
    rewrite drop_app_length, IH by (done || lia).
    rewrite length_app. change (length startTag) with 8%nat. cbn [Nat.ltb Nat.leb Nat.add mbind result_bind].
    cbn [fmap list_fmap snd]. do 2 f_equal.
    rewrite <- app_assoc, (drop_app_length' startTag) by done.
    apply take_app_length'. lia.
Qed.

Section RoundTrip.
Context `{MimeLib} `{HttpParserLib}.

Lemma decode_all_spec datas msgs vec :
  Forall2 (fun d m => messageParser d = Some m) datas msgs ->
  decode_all datas vec = Ok (vec ++ (copy_message <$> msgs)).
Proof.
  intros Hall. revert vec. induction Hall as [|d m ds ms E Hall IH]; intros vec; cbn [decode_all].
  - by rewrite app_nil_r.
  - unfold decode. rewrite E. cbn [mbind result_bind]. rewrite IH, <- app_assoc. done.
Qed.

(** C35: Decoding inverts an SMTP dialogue.  When the client direction of a
    posted session carries the mails [l], at least one, none of them empty and
    none with the end mark inside, and no [DATA] line but those before the
    mails ([dialogue_ok]), when the server direction has seven bytes or more
    without a [DATA] line, and when the MIME library parses every text,
    [decodeSmtp] stores exactly the texts sent, in order, and one [CMailInfo]
    per mail, built from what the library makes of its text. *)
Theorem decodeSmtp_roundtrip (s : CTcpSession) l tail msgs :
  m_smtpDecoder s = mkSmtpDecoder [] [] -> l <> [] ->
  getBuf (segServer s) = dialogue l tail -> dialogue_ok [] l tail ->
  Z.of_nat (length (dialogue l tail)) <= max_size ->
  find_ci startTag (getBuf (segClient s)) = None ->
  (7 <= length (getBuf (segClient s)))%nat -> Z.of_nat (length (getBuf (segClient s))) <= max_size ->
  Forall2 (fun d m => messageParser d = Some m) (l.*2) msgs ->
  decodeSmtp s = Ok (true, setSmtpDecoder (mkSmtpDecoder (copy_message <$> msgs) (l.*2)) s).
Proof.
  intros Hd Hne Hs Hok Hmax Hc H7 Hmaxc Hm. unfold decodeSmtp. rewrite Hd.
  cbn [getContinuousBuf m_mailDataVector m_mailInfoVector]. rewrite Hs.
  assert (length l < length (dialogue l tail) /\ 7 <= length (dialogue l tail))%nat as [Hlen Hl7].
  { clear -Hne. induction l as [|[c b] [|[c' b'] l] IH]; [done | |];
      cbn [dialogue]; rewrite !length_app; [cbn; lia |].
    destruct IH as [IH _]; [done |]. cbn [dialogue] in IH. rewrite !length_app in IH.
    cbn [length startTag endTag] in *. lia. }
  rewrite getMailDatas_mails by done. unfold mails.
  pose proof (mails_ref_dialogue (S (length (dialogue l tail))) [] l tail) as Hr. cbn [app] in Hr.
  rewrite Hr by (done || lia). cbn [mbind result_bind app].
  rewrite getMailDatas_mails by done. unfold mails. cbn [mails_ref]. rewrite Hc.
  cbn [mbind result_bind]. rewrite app_nil_r, (decode_all_spec _ msgs) by done. done.
Qed.

End RoundTrip.

(** a MIME library that takes a text for the subject of a message *)
Definition subject_only : MimeLib :=
  {| messageParser d := Some (mkVMsg [] [] [] [] d [] [] []) |}.

Definition crlf : bytes := [13; 10].
Definition sample_mails : list (bytes * bytes) :=
  [(bs "HELO a" ++ crlf ++ bs "MAIL FROM:x", bs "first" ++ crlf ++ bs ".."); (bs "RSET", bs "second")].

Definition sample_smtp_session : @CTcpSession (script_parser []) :=
  let b := newCTcpSession setDefault
             (mkId CIpAddress_zero 1 CIpAddress_zero 25) in
  let fill d := mkSegBuf 0 0 0 d in
  setContinuousBuf DIRECTION_TO_SERVER (fill (dialogue sample_mails (bs "QUIT")))
    (setContinuousBuf DIRECTION_TO_CLIENT (fill (bs "220 ready")) b).

Lemma decodeSmtp_roundtrip_witness :
  @decodeSmtp subject_only (script_parser []) sample_smtp_session =
    Ok (true, setSmtpDecoder (mkSmtpDecoder
      (copy_message <$> ((fun d => mkVMsg [] [] [] [] d [] [] []) <$> sample_mails.*2))
      (sample_mails.*2)) sample_smtp_session).
Proof.
  apply (@decodeSmtp_roundtrip subject_only (script_parser []) sample_smtp_session sample_mails (bs "QUIT")
           ((fun d => mkVMsg [] [] [] [] d [] [] []) <$> sample_mails.*2));
    try done; try (vm_compute; lia); by repeat constructor.
Defined.

(** An empty mail makes the decoder throw: the end tag starts inside
    the start tag, the length [off2 - off1 - startTagLen] wraps around and
    the string constructor raises [std::length_error], which nothing
    catches. *)
Theorem empty_mail_throws cmds tail vec :
  find_ci startTag (cmds ++ startTag) = Some (length cmds) ->
  Z.of_nat (length (cmds ++ startTag ++ [46; 13; 10] ++ tail)) <= max_size ->
  getMailDatas (cmds ++ startTag ++ [46; 13; 10] ++ tail) vec = Fault LengthError.
Proof.
  intros Hf Hmax. rewrite getMailDatas_mails; [| done | rewrite !length_app; cbn; lia].
  unfold mails. cbn [mails_ref]. rewrite find_ci_app by done. rewrite drop_app_length.
  replace (find_ci endTag (startTag ++ [46; 13; 10] ++ tail)) with (Some 6%nat); [done |].
  by symmetry.
Qed.

Lemma empty_mail_throws_witness :
  getMailDatas (bs "MAIL" ++ startTag ++ [46; 13; 10] ++ bs "QUIT") [] = Fault LengthError.
Proof. by apply (empty_mail_throws (bs "MAIL") (bs "QUIT") []). Defined.
