(* ===== verification/Files.v ===== *)
(** * Saved files: [makeDir], [isFileSystemOk] and [saveToFile]

    The operating system is the class [Posix]: a file-system state with the
    calls the program makes.  [saveToFile] of both decoders builds one path
    in a stream that is never reset between files. *)
From Stdlib Require Import ZArith Lia.
From stdpp Require Import base gmap list strings numbers.
From S2P Require Import Prelude IpAddress SegBuf Config DbManager Session HttpDecoder.

Local Open Scope Z_scope.

Class Posix := {
  fs : Type;
  access : bytes -> fs -> bool;                (* [access(p, F_OK) >= 0] *)
  mkdir : bytes -> fs -> option fs;            (* [None] on an error *)
  statfs : bytes -> fs -> option (Z * Z);      (* [f_bavail], [f_bsize] *)
  ofstream_write : bytes -> bytes -> fs -> fs  (* open, write, close *)
}.

Section Files.
Context `{Posix}.

(** [makeDir(path)] *)
Definition makeDir (path : bytes) (f : fs) : bool * fs :=
  if access path f then (true, f)
  else match mkdir path f with
       | None => (false, f)
       | Some f' => (true, f')
       end.

(** [isFileSystemOk(path)]: [f_bavail] is compared with 200 MB in blocks *)
Definition isFileSystemOk (path : bytes) (f : fs) : bool * fs :=
  let '(ok, f1) := makeDir path f in
  if ok : bool then
    match statfs path f1 with
    | None => (false, f1)
    | Some (f_bavail, f_bsize) => (negb (f_bavail <? 209715200 / f_bsize), f1)
    end
  else (false, f1).

(** the common start of both [saveToFile]: the directory of this minute, or
    an early return *)
Definition openDir (cfg : CConfig) (time : Z) (f : fs) : option bytes * fs :=
  let path := m_rootPath cfg ++ bs "/" ++ bs "files" in
  let '(ok, f1) := isFileSystemOk path f in
  if ok : bool then
    let path1 := path ++ bs "/" ++ print_dec (Z.quot time 60) in
    let '(ok1, f2) := makeDir path1 f1 in
    (if ok1 : bool then Some path1 else None, f2)
  else (None, f1).

(** *** HTTP *)

(** the loop over the content type: [/] becomes [+], spaces are dropped *)
Fixpoint ct_name (ct : bytes) : bytes :=
  match ct with
  | [] => []
  | c :: ct' => if c =? 47 then 43 :: ct_name ct'
                else if c =? 32 then ct_name ct'
                else c :: ct_name ct'
  end.

(** the part of the file name taken from the URL *)
Definition url_name (url : bytes) : bytes :=
  let tmpurl := match str_find (bs "://") url with Some p => drop (p + 3) url | None => url end in
  match str_find_last 47 tmpurl with
  | None => bs "_name=none"
  | Some pos =>
    if (pos + 1 =? length tmpurl)%nat then bs "_name=none"
    else
      let tmpname := drop (pos + 1) tmpurl in
      bs "_name=" ++
      match str_find (bs "?") tmpname with
      | Some i => take i tmpname
      | None => match str_find (bs "#") tmpname with Some i => take i tmpname | None => tmpname end
      end
  end.

Definition http_name (id : CTcpSessionId) (i : nat) (rq : CRequestHttpInfo) (rs : CResponseHttpInfo)
  : bytes :=
  getIdStr id ++ bs "_" ++ ct_name (m_contentType (rs_info rs)) ++ bs "_" ++
  print_dec (Z.of_nat i) ++ url_name (rq_url rq).

(** the three [continue] conditions *)
Definition http_saved (cfg : CConfig) (rs : CResponseHttpInfo) : bool :=
  (rs_status rs =? 200) && isContentTypeCared cfg (rs_info rs) &&
  negb (length (m_body (rs_info rs)) =? 0)%nat.

Fixpoint http_save_loop (cfg : CConfig) (id : CTcpSessionId) (i : nat)
    (l : list (CRequestHttpInfo * CResponseHttpInfo)) (path : bytes) (f : fs) : fs :=
  match l with
  | [] => f
  | (rq, rs) :: l' =>
    if http_saved cfg rs then
      let path' := path ++ bs "/" ++ http_name id i rq rs in
      http_save_loop cfg id (S i) l' path' (ofstream_write path' (m_body (rs_info rs)) f)
    else http_save_loop cfg id (S i) l' path f
  end.

Context `{HttpParserLib}.

(** [CHttpTxnDecoder::saveToFile]; the loop runs up to the shorter vector *)
Definition http_saveToFile (cfg : CConfig) (time : Z) (s : CTcpSession) (f : fs) : fs :=
  match openDir cfg time f with
  | (None, f1) => f1
  | (Some path, f1) =>
    let d := m_httpDecoder s in
    http_save_loop cfg (m_sessId s) 0 (zip (m_requestVector d) (m_responseVector d)) path f1
  end.

(** *** SMTP *)

Definition smtp_name (id : CTcpSessionId) (index j : nat) (a : CAttachment) : bytes :=
  getIdStr id ++ bs "_" ++ at_mainType a ++ bs "+" ++ at_subType a ++ bs "_" ++
  print_dec (Z.of_nat index) ++ print_dec (Z.of_nat j).

(** the inner loop, over the attachments of one mail *)
Fixpoint attachment_loop (cfg : CConfig) (id : CTcpSessionId) (index j : nat)
    (l : list CAttachment) (path : bytes) (f : fs) : bytes * fs :=
  match l with
  | [] => (path, f)
  | a :: l' =>
    if attachmentCared cfg a then
      let path' := path ++ bs "/" ++ smtp_name id index j a in
      attachment_loop cfg id index (S j) l' path' (ofstream_write path' (at_content a) f)
    else attachment_loop cfg id index (S j) l' path f
  end.

Fixpoint mail_save_loop (cfg : CConfig) (id : CTcpSessionId) (index : nat)
    (l : list CMailInfo) (path : bytes) (f : fs) : fs :=
  match l with
  | [] => f
  | m :: l' =>
    let '(path', f') := attachment_loop cfg id index 0 (m_attachments m) path f in
    mail_save_loop cfg id (S index) l' path' f'
  end.

(** [CSmtpTxnDecoder::saveToFile] *)
Definition smtp_saveToFile (cfg : CConfig) (time : Z) (s : CTcpSession) (f : fs) : fs :=
  match openDir cfg time f with
  | (None, f1) => f1
  | (Some path, f1) =>
    mail_save_loop cfg (m_sessId s) 0 (m_mailInfoVector (m_smtpDecoder s)) path f1
  end.

End Files.

(** ** File names are single path components *)

Lemma ct_name_no_slash ct : 47 ∉ ct_name ct.
Proof.
  induction ct as [|c ct IH]; cbn; [set_solver |].
  destruct (c =? 47) eqn:E1; [set_solver |]. destruct (c =? 32); [done |].
  breflect. set_solver.
Qed.

Lemma str_find_last_after c s pos : str_find_last c s = Some pos -> c ∉ drop (pos + 1) s.
Proof.
  revert pos. induction s as [|x s IH]; intros pos; [done |]. cbn [str_find_last].
  destruct (str_find_last c s) as [i|] eqn:E.
  - intros [= <-]. rewrite Nat.add_1_r. cbn [drop]. rewrite <- Nat.add_1_r. by apply IH.
  - destruct (x =? c); [| done]. intros [= <-]. cbn [Nat.add drop].
    clear IH x. induction s as [|x s IH]; [set_solver |]. cbn [str_find_last] in E.
    destruct (str_find_last c s); [done |]. destruct (x =? c) eqn:Ex; [done |]. breflect.
    apply not_elem_of_cons. split; [done | by apply IH].
Qed.

Lemma digits_no_slash l : Forall digit_ok l -> 47 ∉ l.
Proof. intros H Hin. rewrite list.Forall_forall in H. apply H in Hin. unfold digit_ok in Hin. lia. Qed.

Lemma print_dec_no_slash n : 0 <= n -> 47 ∉ print_dec n.
Proof. intros. by apply digits_no_slash, print_dec_digits. Qed.

Lemma not_elem_take {A} (x : A) n l : x ∉ l -> x ∉ take n l.
Proof. intros Hn Hin. apply Hn. by eapply elem_of_take in Hin as (? & ? & _); eapply list_elem_of_lookup_2. Qed.

Lemma url_name_no_slash url : 47 ∉ url_name url.
Proof.
  assert (47 ∉ bs "_name=none") as Hn by (vm_compute; set_solver).
  assert (47 ∉ bs "_name=") as Hp by (vm_compute; set_solver).
  unfold url_name. set (u := match str_find (bs "://") url with Some _ => _ | None => _ end).
  destruct (str_find_last 47 u) as [pos|] eqn:E; [| done].
  destruct (_ =? _)%nat; [done |]. apply str_find_last_after in E.
  rewrite elem_of_app. intros [?|Hin]; [done |].
  destruct (str_find (bs "?") _); [by eapply not_elem_take in Hin |].
  destruct (str_find (bs "#") _); [by eapply not_elem_take in Hin | done].
Qed.

Lemma addr_str_no_slash a n : ip_wf a -> 47 ∉ addr_str a n.
Proof.
  intros [_ Ha]. unfold addr_str. intros Hin%list_elem_of_In.
  apply in_concat in Hin as (x & Hi & Hx).
  apply list_elem_of_In, list_elem_of_fmap in Hi as (i & -> & _). apply list_elem_of_In in Hx.
  apply elem_of_app in Hx as [Hx|Hx]; [| vm_compute in Hx; set_solver].
  apply print_dec_no_slash in Hx; [done |]. unfold addr_byte.
  destruct (m_addr a !! i) eqn:E; [| done].
  eapply Forall_lookup_1 in E; [| exact Ha]. unfold byte_ok in E. cbn. lia.
Qed.

Lemma getIdStr_no_slash k : id_wf k -> 47 ∉ getIdStr k.
Proof.
  intros (Hs & Hd & Hsp & Hdp). unfold getIdStr.
  assert (47 ∉ bs "-") by (vm_compute; set_solver).
  pose proof (print_dec_no_slash (id_srcPort k)). pose proof (print_dec_no_slash (id_dstPort k)).
  rewrite !elem_of_app.
  intros [Hin | [Hin | [Hin | [Hin | Hin]]]]; try (by apply addr_str_no_slash in Hin); tauto || lia.
Qed.

(** Whatever URL a client requests and whatever content type a server
    announces, the name of a saved response is a single path component: it
    holds no [/], so the file stays in the directory of its minute. *)
Theorem http_name_one_component id i rq rs : id_wf id -> 47 ∉ http_name id i rq rs.
Proof.
  intros Hid. unfold http_name. rewrite !elem_of_app.
  assert (47 ∉ bs "_") by (vm_compute; set_solver).
  pose proof (getIdStr_no_slash id Hid). pose proof (ct_name_no_slash (m_contentType (rs_info rs))).
  pose proof (print_dec_no_slash (Z.of_nat i) ltac:(lia)). pose proof (url_name_no_slash (rq_url rq)).
  tauto.
Qed.

Lemma http_name_one_component_witness :
  let rq := mkRequest newCHttpInfo (bs "http://a.com/../../etc/passwd?x=y") 1 in
  let name := http_name sample_id 0 rq newCResponseHttpInfo in
  47 ∉ name /\ name = bs "10.0.0.1.40000-10.0.0.2.80_UnknownType_0_name=passwd".
Proof.
  cbn zeta. split; [apply http_name_one_component, sample_id_wf | by vm_compute].
Defined.

(** ** What is saved *)

(** POSIX: a file cannot be opened below a path that is not a directory
    (ENOENT, ENOTDIR), and opening a file makes no directory. *)
Class PosixLaws `{Posix} := {
  is_dir : bytes -> fs -> bool;
  write_below_file : forall p q c f,
    is_dir p f = false -> ofstream_write (p ++ bs "/" ++ q) c f = f;
  write_keeps_dirs : forall p c f q, is_dir q (ofstream_write p c f) = is_dir q f
}.

(** the first response that passes the three conditions, with its index *)
Fixpoint first_saved (cfg : CConfig) (i : nat) (l : list (CRequestHttpInfo * CResponseHttpInfo))
  : option (nat * CRequestHttpInfo * CResponseHttpInfo) :=
  match l with
  | [] => None
  | (rq, rs) :: l' => if http_saved cfg rs then Some (i, rq, rs) else first_saved cfg (S i) l'
  end.

(** [r] is [p] or a path below it *)
Definition at_or_below (p r : bytes) : Prop := r = p \/ exists q, r = p ++ bs "/" ++ q.

Lemma at_or_below_extend p r n : at_or_below p r -> exists q, r ++ bs "/" ++ n = p ++ bs "/" ++ q.
Proof. intros [-> | [q ->]]; eexists; [done | by rewrite <- !app_assoc]. Qed.

Section Saved.
Context `{PosixLaws} (cfg : CConfig) (id : CTcpSessionId).

(** Once the stream holds the name of a file, nothing more is saved. *)
Lemma http_save_loop_stuck l i p r f :
  is_dir p f = false -> at_or_below p r ->
  http_save_loop cfg id i l r f = f.
Proof.
  intros Hp. revert i r. induction l as [|[rq rs] l IH]; intros i r Hr; [done |].
  cbn [http_save_loop]. destruct (http_saved cfg rs); [| by apply IH].
  destruct (at_or_below_extend p r (http_name id i rq rs) Hr) as [q ->].
  rewrite write_below_file by done. apply IH. right. by exists q.
Qed.

Lemma http_save_loop_first l i path f :
  (forall k rq rs, first_saved cfg i l = Some (k, rq, rs) ->
     is_dir (path ++ bs "/" ++ http_name id k rq rs) f = false) ->
  http_save_loop cfg id i l path f =
    match first_saved cfg i l with
    | None => f
    | Some (k, rq, rs) =>
      ofstream_write (path ++ bs "/" ++ http_name id k rq rs) (m_body (rs_info rs)) f
    end.
Proof.
  revert i. induction l as [|[rq rs] l IH]; intros i Hd; [done |].
  cbn [http_save_loop first_saved] in *. destruct (http_saved cfg rs) eqn:E; [| by apply IH].
  specialize (Hd _ _ _ eq_refl). eapply http_save_loop_stuck; [by rewrite write_keeps_dirs | by left].
Qed.

End Saved.

(** the first attachment saved, over all mails *)
Fixpoint first_attachment (cfg : CConfig) (j : nat) (l : list CAttachment)
  : option (nat * CAttachment) :=
  match l with
  | [] => None
  | a :: l' => if attachmentCared cfg a then Some (j, a) else first_attachment cfg (S j) l'
  end.

Fixpoint first_mail_attachment (cfg : CConfig) (index : nat) (l : list CMailInfo)
  : option (nat * nat * CAttachment) :=
  match l with
  | [] => None
  | m :: l' =>
    match first_attachment cfg 0 (m_attachments m) with
    | Some (j, a) => Some (index, j, a)
    | None => first_mail_attachment cfg (S index) l'
    end
  end.

Section SavedSmtp.
Context `{PosixLaws} (cfg : CConfig) (id : CTcpSessionId).

Lemma attachment_loop_stuck l index j p r f :
  is_dir p f = false -> at_or_below p r ->
  exists r', attachment_loop cfg id index j l r f = (r', f) /\ at_or_below p r'.
Proof.
  intros Hp. revert j r. induction l as [|a l IH]; intros j r Hr; [by exists r |].
  cbn [attachment_loop]. destruct (attachmentCared cfg a); [| by apply IH].
  destruct (at_or_below_extend p r (smtp_name id index j a) Hr) as [q ->].
  rewrite write_below_file by done. apply IH. right. by exists q.
Qed.

Lemma mail_save_loop_stuck l index p r f :
  is_dir p f = false -> at_or_below p r -> mail_save_loop cfg id index l r f = f.
Proof.
  intros Hp. revert index r. induction l as [|m l IH]; intros index r Hr; [done |].
  cbn [mail_save_loop].
  destruct (attachment_loop_stuck (m_attachments m) index 0 p r f Hp Hr) as (r' & -> & Hr').
  by apply IH.
Qed.

Lemma attachment_loop_first l index j path f :
  match first_attachment cfg j l with
  | None => attachment_loop cfg id index j l path f = (path, f)
  | Some (k, a) =>
    let p := path ++ bs "/" ++ smtp_name id index k a in
    is_dir p f = false ->
    exists r, attachment_loop cfg id index j l path f = (r, ofstream_write p (at_content a) f) /\
      at_or_below p r
  end.
Proof.
  revert j. induction l as [|a l IH]; intros j; [done |]. cbn [first_attachment attachment_loop].
  destruct (attachmentCared cfg a); [| apply IH]. cbn zeta. intros Hp.
  apply attachment_loop_stuck; [by rewrite write_keeps_dirs | by left].
Qed.

Lemma mail_save_loop_first l index path f :
  match first_mail_attachment cfg index l with
  | None => mail_save_loop cfg id index l path f = f
  | Some (i, j, a) =>
    let p := path ++ bs "/" ++ smtp_name id i j a in
    is_dir p f = false -> mail_save_loop cfg id index l path f = ofstream_write p (at_content a) f
  end.
Proof.
  revert index. induction l as [|m l IH]; intros index; [done |].
  cbn [first_mail_attachment mail_save_loop].
  pose proof (attachment_loop_first (m_attachments m) index 0 path f) as Ha.
  destruct (first_attachment cfg 0 (m_attachments m)) as [[j a]|]; [| rewrite Ha; apply IH].
  cbn zeta. intros Hp. destruct (Ha Hp) as (r & -> & Hr).
  eapply mail_save_loop_stuck; [by rewrite write_keeps_dirs | exact Hr].
Qed.

End SavedSmtp.

Section SavedHttp.
Context `{PosixLaws} `{HttpParserLib} (cfg : CConfig).

(** Of the responses of a posted HTTP session that should be saved,
    exactly the first one is: it goes to the directory of the minute under
    its own name with its body, and every later one is lost, because the
    path stream still holds the earlier file name. *)
Theorem http_saves_only_the_first time (s : CTcpSession) f path f1 :
  openDir cfg time f = (Some path, f1) ->
  let d := m_httpDecoder s in
  let pairs := zip (m_requestVector d) (m_responseVector d) in
  (forall k rq rs, first_saved cfg 0 pairs = Some (k, rq, rs) ->
     is_dir (path ++ bs "/" ++ http_name (m_sessId s) k rq rs) f1 = false) ->
  http_saveToFile cfg time s f =
    match first_saved cfg 0 pairs with
    | None => f1
    | Some (k, rq, rs) =>
      ofstream_write (path ++ bs "/" ++ http_name (m_sessId s) k rq rs) (m_body (rs_info rs)) f1
    end.
Proof. intros E d pairs Hd. unfold http_saveToFile. rewrite E. by apply http_save_loop_first. Qed.

End SavedHttp.

(** ** A file system in memory *)

Record mem_fs := mkMemFs { mf_dirs : gset bytes; mf_files : gmap bytes bytes }.

(** the proper ancestors of a path *)
Definition ancestors (p : bytes) : list bytes :=
  (fun i => take i p) <$> filter (fun i => p !! i = Some 47) (seq 0 (length p)).

Definition mem_is_dir (p : bytes) (f : mem_fs) : bool := bool_decide (p = [] \/ p ∈ mf_dirs f).

Definition mem_reachable (p : bytes) (f : mem_fs) : bool :=
  forallb (fun a => mem_is_dir a f) (ancestors p).

#[global] Instance mem_posix : Posix := {|
  fs := mem_fs;
  access p f := mem_is_dir p f || bool_decide (is_Some (mf_files f !! p));
  mkdir p f := if mem_reachable p f then Some (mkMemFs ({[p]} ∪ mf_dirs f) (mf_files f)) else None;
  statfs p f := Some (1000000, 4096);
  ofstream_write p c f :=
    if mem_reachable p f && negb (mem_is_dir p f)
    then mkMemFs (mf_dirs f) (<[p := c]> (mf_files f)) else f
|}.

#[global, program] Instance mem_posix_laws : PosixLaws := {| is_dir := mem_is_dir |}.
Next Obligation.
  intros p q c f Hp. cbn [ofstream_write mem_posix].
  replace (mem_reachable _ f) with false; [done |]. symmetry. apply not_true_is_false. intros Hall.
  unfold mem_reachable in Hall. rewrite forallb_forall in Hall.
  assert (mem_is_dir p f = true) as Ht; [| congruence].
  apply Hall. apply list_elem_of_In. unfold ancestors.
  apply list_elem_of_fmap. exists (length p). split; [by rewrite take_app_length |].
  apply list_elem_of_filter. split.
  - rewrite lookup_app_r, Nat.sub_diag by lia. done.
  - apply elem_of_seq. rewrite length_app. change (length (bs "/" ++ q)) with (S (length q)). lia.
Qed.
Next Obligation. intros p c f q. cbn [ofstream_write mem_posix]. by destruct (_ && _). Qed.

(** a session with two responses worth saving *)
Definition sample_response (body : bytes) : CResponseHttpInfo :=
  mkResponse (setBody body newCHttpInfo) 200 [].

Definition sample_http_session : @CTcpSession (script_parser []) :=
  let _ := script_parser [] in
  on_decoder (fun d =>
    with_responses [sample_response (bs "one"); sample_response (bs "two")]
      (with_requests [setUrl (bs "/a.exe") newCRequestHttpInfo; setUrl (bs "/b.exe") newCRequestHttpInfo] d))
    (newCTcpSession setDefault sample_id).

Definition sample_fs : mem_fs := mkMemFs {[bs "/usr"; bs "/usr/local"; bs "/usr/local/killer"]} ∅.

Lemma http_saves_only_the_first_witness :
  elements (dom (mf_files (@http_saveToFile mem_posix (script_parser []) setDefault 600
                             sample_http_session sample_fs))) =
  [bs "/usr/local/killer/files/10/10.0.0.1.40000-10.0.0.2.80_UnknownType_0_name=a.exe"].
Proof.
  rewrite (@http_saves_only_the_first mem_posix mem_posix_laws (script_parser []) setDefault 600
             sample_http_session sample_fs (bs "/usr/local/killer/files/10")
             (@openDir mem_posix setDefault 600 sample_fs).2).
  - by vm_compute.
  - by vm_compute.
  - intros k rq rs E. vm_compute in E. injection E as <- <- <-. by vm_compute.
Defined.

Section SavedSmtpSession.
Context `{PosixLaws} `{HttpParserLib} (cfg : CConfig).

(** Of the attachments of all mails of a posted SMTP session, exactly
    the first one of a cared type is saved, with its content; the later
    ones are lost in the same way as later HTTP responses. *)
Theorem smtp_saves_only_the_first time (s : CTcpSession) f path f1 i j a :
  openDir cfg time f = (Some path, f1) ->
  first_mail_attachment cfg 0 (m_mailInfoVector (m_smtpDecoder s)) = Some (i, j, a) ->
  let p := path ++ bs "/" ++ smtp_name (m_sessId s) i j a in
  is_dir p f1 = false ->
  smtp_saveToFile cfg time s f = ofstream_write p (at_content a) f1.
Proof.
  intros E Ef p Hp. unfold smtp_saveToFile. rewrite E.
  pose proof (mail_save_loop_first cfg (m_sessId s) (m_mailInfoVector (m_smtpDecoder s)) 0 path f1) as Hl.
  rewrite Ef in Hl. by apply Hl.
Qed.

End SavedSmtpSession.

Definition sample_attachment (content : bytes) : CAttachment :=
  mkAttachment (bs "application") (bs "octet-stream") [] [] content.

Definition sample_mail_session : @CTcpSession (script_parser []) :=
  let _ := script_parser [] in
  let mail l := mkMailInfo ∅ (mkMailText [] [] [] []) l in
  setSmtpDecoder (mkSmtpDecoder [mail []; mail [sample_attachment (bs "one"); sample_attachment (bs "two")]] [])
    (newCTcpSession setDefault sample_id).

Lemma smtp_saves_only_the_first_witness :
  elements (dom (mf_files (@smtp_saveToFile mem_posix (script_parser []) setDefault 600
                             sample_mail_session sample_fs))) =
  [bs "/usr/local/killer/files/10/10.0.0.1.40000-10.0.0.2.80_application+octet-stream_10"].
Proof.
  rewrite (@smtp_saves_only_the_first mem_posix mem_posix_laws (script_parser []) setDefault 600
             sample_mail_session sample_fs (bs "/usr/local/killer/files/10")
             (@openDir mem_posix setDefault 600 sample_fs).2 1 0 (sample_attachment (bs "one"))).
  all: by vm_compute.
Defined.
