(* ===== verification/DecodeThread.v ===== *)
(** * CTxnDecodeThread: the work done on one closed session

    One round of the inner loop of [threadMain]: decode the popped session
    in inactive mode, save its files, delete it. *)
From Stdlib Require Import ZArith Lia.
From stdpp Require Import base gmap list strings numbers.
From S2P Require Import Prelude PacketDef IpAddress LayerInfo SegBuf Config DbManager Session HttpDecoder TcpSession SessionPool PacketHandler Smtp Files.

Local Open Scope Z_scope.

(** ** What the decode thread relies on in the HTTP parser *)

(** [on_message_begin] comes before the URL of each message. *)
Fixpoint url_after_begin (begun : bool) (evs : list (hp_view * http_event)) : Prop :=
  match evs with
  | [] => True
  | (_, EvMessageBegin) :: evs' => url_after_begin true evs'
  | (_, EvUrl _) :: evs' => begun = true /\ url_after_begin begun evs'
  | _ :: evs' => url_after_begin begun evs'
  end.

(** documented behaviour of the library on a freshly initialised parser: a
    request starts with [on_message_begin], a response has no URL *)
Class HttpParserLaws `{HttpParserLib} := {
  request_begins : forall buf,
    url_after_begin false (http_parser_execute (http_parser_init HTTP_REQUEST) buf).1;
  response_without_url : forall buf p u,
    (p, EvUrl u) ∉ (http_parser_execute (http_parser_init HTTP_RESPONSE) buf).1
}.

Section DecodeThread.
Context `{HttpParserLib} `{MimeLib} `{Posix} (cfg : CConfig) (db : CDBManager).

(** the [switch] of [threadMain] on a popped session *)
Definition decodeSession (time : Z) (s : CTcpSession) (f : fs) : result (CTcpSession * fs) :=
  let s1 := setActiveFlg false s in
  match m_protocol s1 with
  | PROTOCOL_HTTP =>
    if bool_decide (m_activeMethod (m_httpDecoder s1) ∈ m_caredHttpMethods cfg) then
      r ← decodeHttp db s1;
      Ok (r.2, http_saveToFile cfg time r.2 f)
    else Ok (s1, f)
  | PROTOCOL_SMTP =>
    r ← decodeSmtp s1;
    Ok (r.2, smtp_saveToFile cfg time r.2 f)
  | PROTOCOL_UNKNOWN => Ok (s1, f)
  end.

End DecodeThread.

(** ** Inactive decoding does not fault *)

Section Inactive.
Context `{HttpParserLaws} (db : CDBManager).

Lemma update_back_ok {A} (g : A -> A) l :
  l <> [] -> exists l', update_back g l = Ok l' /\ l' <> [].
Proof.
  intros Hl. unfold update_back. destruct (reverse l) as [|x r] eqn:E.
  - apply (f_equal reverse) in E. by rewrite reverse_involutive in E.
  - eexists; split; [done |]. by destruct (reverse r).
Qed.

Lemma update_back_guarded_nonempty {A} (g : A -> A) l : l <> [] -> update_back_guarded g l <> [].
Proof.
  intros Hl. unfold update_back_guarded. destruct (reverse l) as [|x r]; [done |].
  by destruct (reverse r).
Qed.

(** a session in inactive mode that parses requests, one begun if [begun] *)
Definition parsing_requests (begun : bool) (s : CTcpSession) : Prop :=
  m_activeFlg s = false /\ m_parserType (m_httpDecoder s) = HTTP_REQUEST /\
  (begun = true -> m_requestVector (m_httpDecoder s) <> []).

Lemma on_message_requests begun fq fr s :
  parsing_requests begun s -> parsing_requests begun (on_message fq fr s).
Proof.
  intros (Ha & Ht & Hv). unfold on_message, on_decoder. rewrite Ht.
  split; [done |]. split; [done |]. intros Hb. cbn.
  by apply update_back_guarded_nonempty, Hv.
Qed.

Lemma request_callbacks_ok begun evs s :
  url_after_begin begun evs -> parsing_requests begun s ->
  exists s', callbacks db evs s = Ok s'.
Proof.
  revert begun s. induction evs as [|[p e] evs IH]; intros begun s Hu Hs; [by exists s |].
  pose proof Hs as (Ha & Ht & Hv). cbn [callbacks].
  destruct e; cbn [callback url_after_begin] in *;
    unfold messageBeginCb, requestUrlCb, responseStatusCb, headerFieldCb, headerValueCb,
      headersCompleteCb, body_cb, messageCompleteCb; rewrite ?Ha; cbn [mbind result_bind];
    try (eapply IH; [exact Hu | by (done || apply on_message_requests)]).
  - eapply IH; [exact Hu |]. unfold on_decoder. rewrite Ht. split; [done |]. split; [done |].
    intros _. cbn. by destruct (m_requestVector (m_httpDecoder s)).
  - destruct Hu as [-> Hu].
    destruct (update_back_ok (setUrl buf) (m_requestVector (m_httpDecoder s)))
      as (l' & -> & Hl'); [by apply Hv |]. cbn [mbind result_bind].
    by eapply IH; [exact Hu |].
Qed.

Lemma response_callbacks_ok evs s :
  (forall p u, (p, EvUrl u) ∉ evs) -> m_activeFlg s = false -> exists s', callbacks db evs s = Ok s'.
Proof.
  revert s. induction evs as [|[p e] evs IH]; intros s Hu Ha; [by exists s |].
  assert (exists s1, callback db p e s = Ok s1) as [s1 E].
  { destruct e; cbn [callback]; try (by eexists).
    - exfalso. eapply Hu. by left.
    - unfold headerValueCb. rewrite Ha. by eexists. }
  cbn [callbacks]. rewrite E. cbn [mbind result_bind]. apply IH.
  - intros p' u Hin. eapply Hu. by right.
  - apply callback_core in E as ((_ & _ & _ & -> & _) & _). done.
Qed.

Lemma parserExecute_fresh_ok t buf s :
  m_activeFlg s = false -> exists b s', parserExecute db buf (parserInit t s) = Ok (b, s').
Proof.
  intros Ha. unfold parserExecute. cbn [m_parser m_httpDecoder parserInit on_decoder setHttpDecoder with_parser].
  pose proof (request_begins buf) as Hq. pose proof (response_without_url buf) as Hr.
  destruct (http_parser_execute (http_parser_init t) buf) as [evs p'] eqn:E.
  assert (exists s', callbacks db evs (parserInit t s) = Ok s') as [s' ->].
  { destruct t; rewrite E in *; cbn [fst] in *.
    - by eapply request_callbacks_ok.
    - by apply response_callbacks_ok. }
  cbn [mbind result_bind]. eauto.
Qed.

(** decoding a posted HTTP session always returns *)
Lemma decodeHttp_ok s :
  m_activeFlg s = false ->
  exists s', decodeHttp db s = Ok (true, s') /\ same_core s s' /\
    segServer s' = segServer s /\ segClient s' = segClient s.
Proof.
  intros Ha. unfold decodeHttp, decodeHttp_type, decodeHttpInactive. rewrite Ha.
  cbn [m_activeFlg parserInit on_decoder setHttpDecoder]. rewrite Ha.
  destruct (parserExecute_fresh_ok HTTP_REQUEST
    (getBuf (getContinuousBuf (type_direction HTTP_REQUEST) (parserInit HTTP_REQUEST s))) s Ha)
    as (b1 & s1 & E1).
  rewrite E1. cbn [mbind result_bind fst snd].
  apply parserExecute_core in E1 as (C1 & S1 & T1 & _). pose proof C1 as (_ & _ & _ & Ha1 & _).
  cbn in Ha1. rewrite Ha in Ha1. cbn [m_activeFlg parserInit on_decoder setHttpDecoder]. rewrite Ha1.
  destruct (parserExecute_fresh_ok HTTP_RESPONSE
    (getBuf (getContinuousBuf (type_direction HTTP_RESPONSE) (parserInit HTTP_RESPONSE s1))) s1 Ha1)
    as (b2 & s2 & E2).
  rewrite E2. cbn [mbind result_bind fst snd]. exists s2. split; [done |].
  apply parserExecute_core in E2 as (C2 & S2 & T2 & _). cbn in S1, T1, S2, T2.
  split; [| by rewrite S2, T2, S1, T1].
  eapply same_core_trans; [| eapply same_core_trans; [exact C1 |]]; [done |].
  eapply same_core_trans; [| exact C2]. done.
Qed.

End Inactive.

(** ** The faults of one round *)

Lemma mails_ref_fault fuel s f :
  (length s < fuel)%nat -> mails_ref fuel s = Fault f -> f = LengthError.
Proof.
  revert s. induction fuel as [|fuel IH]; intros s Hf; [lia |]. cbn [mails_ref].
  destruct (find_ci startTag s) as [i|]; [| done].
  destruct (find_ci endTag (drop i s)) as [j|] eqn:Ej; [| done].
  destruct (j <? 8)%nat eqn:E; breflect; [congruence |].
  destruct (mails_ref fuel _) eqn:Er; cbn; [done |]. intros [= <-].
  eapply IH; [| exact Er].
  apply find_ci_bound in Ej as [Hj|]; [| done].
  change (length endTag) with 5%nat in Hj. rewrite !length_drop in *. lia.
Qed.

Lemma getMailDatas_fault b vec f :
  seg_bounded b -> getMailDatas (getBuf b) vec = Fault f -> f = OutOfBoundsRead \/ f = LengthError.
Proof.
  intros Hb. unfold seg_bounded, getBuf in *.
  destruct (decide (length (m_buf b) < 7)%nat) as [H7|H7].
  - rewrite (getMailDatas_short (m_buf b)) by done. intros [= <-]. by left.
  - rewrite getMailDatas_mails; [| unfold max_size; lia | lia]. unfold mails.
    destruct (mails_ref _ _) eqn:E; cbn; [done |]. intros [= <-].
    right. by eapply mails_ref_fault, E; lia.
Qed.

Section Round.
Context `{HttpParserLaws} `{MimeLib} `{Posix} (cfg : CConfig) (db : CDBManager).

Lemma decode_all_fault datas vec f : decode_all datas vec = Fault f -> f = MailException.
Proof.
  revert vec. induction datas as [|d ds IH]; intros vec; cbn [decode_all]; [done |].
  unfold decode. destruct (messageParser d); cbn; [apply IH | congruence].
Qed.

(** the faults that escape [decodeSession] *)
Definition decode_fault (f : fault) : Prop :=
  f = OutOfBoundsRead \/ f = LengthError \/ f = MailException.

Lemma decodeSmtp_fault s f : sess_bounded s -> decodeSmtp s = Fault f -> decode_fault f.
Proof.
  intros [Hs Hc]. unfold decodeSmtp, decode_fault. cbn [getContinuousBuf].
  destruct (getMailDatas _ _) as [v1|f1] eqn:E1; cbn [mbind result_bind];
    [| intros [= <-]; apply getMailDatas_fault in E1; tauto].
  destruct (getMailDatas _ v1) as [v2|f2] eqn:E2; cbn [mbind result_bind];
    [| intros [= <-]; apply getMailDatas_fault in E2; tauto].
  destruct (decode_all _ _) as [v3|f3] eqn:E3; cbn [mbind result_bind]; [done |].
  intros [= <-]. apply decode_all_fault in E3. tauto.
Qed.

Lemma decodeSmtp_core s b s' : decodeSmtp s = Ok (b, s') ->
  m_sessId s' = m_sessId s /\ segServer s' = segServer s /\ segClient s' = segClient s.
Proof.
  unfold decodeSmtp. intros E.
  destruct (getMailDatas _ _) as [v1|]; [cbn [mbind result_bind] in E | done].
  destruct (getMailDatas _ v1) as [v2|]; [cbn [mbind result_bind] in E | done].
  destruct (decode_all _ _); [cbn [mbind result_bind] in E | done]. by injection E as _ <-.
Qed.

(** An HTTP session is always decoded; an SMTP session is decoded or the
    thread dies of one of three exceptions. *)
Lemma decodeSession_safe time s f :
  sess_bounded s ->
  match decodeSession cfg db time s f with
  | Ok (s', _) => m_sessId s' = m_sessId s
  | Fault x => decode_fault x /\ m_protocol s = PROTOCOL_SMTP
  end.
Proof.
  intros Hb. unfold decodeSession.
  change (m_protocol (setActiveFlg false s)) with (m_protocol s).
  destruct (m_protocol s) eqn:Ep; [done | |].
  - case_bool_decide; [| done].
    destruct (decodeHttp_ok db (setActiveFlg false s) eq_refl) as (s' & -> & (Hid & _) & _). done.
  - destruct (decodeSmtp (setActiveFlg false s)) as [[b s']|x] eqn:E; cbn [mbind result_bind fst snd].
    + by apply decodeSmtp_core in E as (-> & _).
    + split; [| done]. by eapply decodeSmtp_fault in E.
Qed.

Lemma decodeSession_bounded time s f s' f' :
  sess_bounded s -> decodeSession cfg db time s f = Ok (s', f') -> sess_bounded s'.
Proof.
  intros Hb. unfold decodeSession.
  change (m_protocol (setActiveFlg false s)) with (m_protocol s).
  destruct (m_protocol s); [by intros [= <- _] | |].
  - case_bool_decide; [| by intros [= <- _]].
    destruct (decodeHttp_ok db (setActiveFlg false s) eq_refl) as (s1 & -> & _ & Es & Ec).
    intros [= <- _]. unfold sess_bounded. cbn in Es, Ec. rewrite Es, Ec. done.
  - destruct (decodeSmtp (setActiveFlg false s)) as [[b s1]|x] eqn:E; cbn [mbind result_bind fst snd]; [| done].
    apply decodeSmtp_core in E as (_ & Es & Ec). intros [= <- _].
    unfold sess_bounded. cbn in Es, Ec. rewrite Es, Ec. done.
Qed.

End Round.
