(* ===== verification/System.v ===== *)
(** * CMain and the two threads: the program as a transition system

    [CMain::Main] starts the decode thread and the capture thread, waits for
    the capture to end, stops the decode thread and waits for it.  A state
    holds the program counter of [Main] and of the decode thread, the flag
    [m_isRunning] they share, the capture side's world, the file system and
    the sessions deleted so far.

    One step is one shared access: a capture callback (it touches active
    sessions, which only the capture thread owns, and the closed list under
    its lock), a pop of the closed list, the decoding of the popped session,
    its deletion, or an access to [m_isRunning].  The ownership invariant
    proved here is what makes this granularity adequate: callback and
    decoder never touch the same session. *)
From Stdlib Require Import ZArith Lia.
From stdpp Require Import base gmap list strings numbers relations.
From S2P Require Import Prelude PacketDef IpAddress LayerInfo SegBuf Config DbManager Session HttpDecoder TcpSession SessionPool PacketHandler FrameParsing Smtp Files DecodeThread.

Local Open Scope Z_scope.

(** [CMain::Main] *)
Inductive main_pc :=
  | MStart      (* before [CTxnDecodeThread::start] *)
  | MCreated    (* [pthread_create] has returned, [m_isRunning] not yet set *)
  | MCapturing  (* capture thread running, [join] on it *)
  | MCaptured   (* [join] returned, before [stop] *)
  | MStopped    (* [m_isRunning = false], [join] on the decode thread *)
  | MExit.

(** [CTxnDecodeThread::threadMain] *)
Inductive thread_pc :=
  | TNone           (* not created *)
  | TOuter          (* at [while (myself->m_isRunning)] *)
  | TInner          (* at [popClosedSession] *)
  | TWork (p : ptr) (* popped [p] *)
  | TDelete (p : ptr)
  | TDone.

Section System.
Context `{HttpParserLib} `{MimeLib} `{Posix}.
Context (cfg : CConfig) (db : CDBManager) (iter_order : list entry -> list entry) (DLT : Z).

Record system := mkSystem {
  sys_main : main_pc;
  sys_thread : thread_pc;
  m_isRunning : bool;
  sys_world : world;
  sys_fs : fs;
  sys_deleted : list ptr
}.

Definition init_system (f : fs) : system := mkSystem MStart TNone false init_world f [].

(** one round of work on a popped session *)
Definition work (time : Z) (p : ptr) (s : system) : result system :=
  sess ← deref (w_heap (sys_world s)) p;
  r ← decodeSession cfg db time sess (sys_fs s);
  Ok (mkSystem (sys_main s) (TDelete p) (m_isRunning s)
        (mkWorld (w_pool (sys_world s)) (<[p := r.1]> (w_heap (sys_world s))) (w_rsts (sys_world s)))
        r.2 (sys_deleted s)).

(** [delete sess] *)
Definition delete_session (p : ptr) (s : system) : result system :=
  _ ← deref (w_heap (sys_world s)) p;
  Ok (mkSystem (sys_main s) TInner (m_isRunning s)
        (mkWorld (w_pool (sys_world s)) (delete p (w_heap (sys_world s))) (w_rsts (sys_world s)))
        (sys_fs s) (sys_deleted s ++ [p])).

Definition set_pcs (m : main_pc) (t : thread_pc) (run : bool) (s : system) : system :=
  mkSystem m t run (sys_world s) (sys_fs s) (sys_deleted s).

Definition set_world (w : world) (t : thread_pc) (s : system) : system :=
  mkSystem (sys_main s) t (m_isRunning s) w (sys_fs s) (sys_deleted s).

(** what the capture thread does with one frame *)
Definition capture (header : pcap_pkthdr) (packet : bytes) (s : system) : result system :=
  w ← packetCallBack cfg db iter_order DLT header packet (sys_world s);
  Ok (set_world w (sys_thread s) s).

(** [popClosedSession] by the decode thread *)
Definition pop (s : system) : system :=
  match popClosedSession (w_pool (sys_world s)) with
  | (Some p, pool') =>
    set_world (mkWorld pool' (w_heap (sys_world s)) (w_rsts (sys_world s))) (TWork p) s
  | (None, pool') =>
    set_world (mkWorld pool' (w_heap (sys_world s)) (w_rsts (sys_world s))) TOuter s
  end.

Inductive step (s : system) : result system -> Prop :=
  | step_create :
      sys_main s = MStart -> step s (Ok (set_pcs MCreated TOuter false s))
  | step_set_flag :
      sys_main s = MCreated -> step s (Ok (set_pcs MCapturing (sys_thread s) true s))
  | step_frame header packet :
      sys_main s = MCapturing -> frame_ok header packet -> step s (capture header packet s)
  | step_capture_end :
      sys_main s = MCapturing -> step s (Ok (set_pcs MCaptured (sys_thread s) (m_isRunning s) s))
  | step_stop :
      sys_main s = MCaptured -> step s (Ok (set_pcs MStopped (sys_thread s) false s))
  | step_join :
      sys_main s = MStopped -> sys_thread s = TDone ->
      step s (Ok (set_pcs MExit TDone (m_isRunning s) s))
  | step_outer :
      sys_thread s = TOuter ->
      step s (Ok (set_pcs (sys_main s) (if m_isRunning s then TInner else TDone) (m_isRunning s) s))
  | step_pop :
      sys_thread s = TInner -> step s (Ok (pop s))
  | step_work time p :
      sys_thread s = TWork p -> step s (work time p s)
  | step_delete p :
      sys_thread s = TDelete p -> step s (delete_session p s).

Definition ok_step (s s' : system) : Prop := step s (Ok s').

Definition reachable (f : fs) (s : system) : Prop := rtc ok_step (init_system f) s.

(** the sessions the decode thread owns *)
Definition held (t : thread_pc) : list ptr :=
  match t with TWork p | TDelete p => [p] | _ => [] end.

(** Every session ever created is live with one owner or deleted once. *)
Record system_inv (s : system) : Prop := {
  si_world : world_inv (held (sys_thread s)) (sys_world s);
  si_deleted : NoDup (sys_deleted s);
  si_account : forall p, 1 <= p <= m_index (w_pool (sys_world s)) <->
                 is_Some (w_heap (sys_world s) !! p) \/ p ∈ sys_deleted s;
  si_disjoint : forall p, p ∈ sys_deleted s -> w_heap (sys_world s) !! p = None;
  si_index : 0 <= m_index (w_pool (sys_world s));
  si_created : sys_main s = MStart <-> sys_thread s = TNone
}.

End System.

Section Safety.
Context {HL : HttpParserLib} {HLaws : HttpParserLaws} {ML : MimeLib} {PX : Posix}.
Context (cfg : CConfig) (db : CDBManager) (iter_order : list entry -> list entry) (DLT : Z).
Context (Hiter : forall l, iter_order l ≡ₚ l).

(** the two ways to die: the capture thread on a frame *)
Definition capture_dies (s : system) (x : fault) : Prop :=
  sys_main s = MCapturing /\
  exists header packet, frame_ok header packet /\
    capture cfg db iter_order DLT header packet s = Fault x /\
    (x = OutOfRange \/ x = OutOfBoundsRead /\ ~ good_frame DLT header packet).

(** and the decode thread on a posted SMTP session *)
Definition decoder_dies (s : system) (x : fault) : Prop :=
  exists p sess, sys_thread s = TWork p /\ w_heap (sys_world s) !! p = Some sess /\
    m_protocol sess = PROTOCOL_SMTP /\ decode_fault x.

Lemma init_inv f : system_inv (init_system f).
Proof.
  constructor; cbn; [apply init_world_inv | apply NoDup_nil_2 | | set_solver | done | done].
  intros p. rewrite lookup_empty. split; [lia |]. intros [[? [=]]|?]; set_solver.
Qed.

Lemma set_pcs_inv m t run s :
  system_inv s -> held t = held (sys_thread s) -> (m = MStart <-> t = TNone) ->
  system_inv (set_pcs m t run s).
Proof. intros [Hw Hd Ha Hj Hi _] Ht Hc. constructor; cbn; try done. by rewrite Ht. Qed.

Lemma capture_inv header packet s :
  frame_ok header packet -> system_inv s ->
  match capture cfg db iter_order DLT header packet s with
  | Ok s' => system_inv s'
  | Fault f => f = OutOfRange \/ f = OutOfBoundsRead /\ ~ good_frame DLT header packet
  end.
Proof using Hiter HLaws.
  intros Hg [Hw Hd Ha Hj Hn Hc]. unfold capture.
  pose proof (packetCallBack_any cfg db iter_order Hiter _ DLT header packet _ Hg Hw) as Hp.
  destruct (packetCallBack _ _ _ _ _ _ _) as [w'|f]; [| done]. cbn [mbind result_bind].
  destruct Hp as (Hw' & Hi & Hh). constructor; cbn; try done; [| | lia].
  - intros p. rewrite Hh. specialize (Ha p). split.
    + intros Hr. destruct (decide (p <= m_index (w_pool (sys_world s)))); [| left; right; lia].
      destruct (proj1 Ha ltac:(lia)); tauto.
    + intros [[?|?]|?]; [| lia |]; (enough (1 <= p <= m_index (w_pool (sys_world s))) by lia); tauto.
  - intros p Hp. specialize (Hj p Hp). apply eq_None_not_Some. rewrite Hh. intros [[? ?]|?]; [congruence |].
    specialize (proj2 (Ha p) (or_intror Hp)). lia.
Qed.

Lemma pop_inv s : system_inv s -> sys_thread s = TInner -> system_inv (pop s).
Proof.
  intros [(I & R & B) Hd Ha Hj Hn Hc] Ht. rewrite Ht in I, Hc. cbn [held] in I. unfold pop.
  destruct (popClosedSession _) as [[p|] pool'] eqn:E.
  - pose proof (popClosedSession_inv _ _ _ _ _ I E) as I'.
    unfold popClosedSession in E. destruct (m_closedSessList _); [done |]. injection E as -> <-.
    constructor; [by split | done | done | done | done | cbn; rewrite Hc; by split].
  - unfold popClosedSession in E. destruct (m_closedSessList _) eqn:El; [| done]. injection E as <-.
    constructor; [by split | done | done | done | done | cbn; rewrite Hc; by split].
Qed.

Lemma held_live p s :
  system_inv s -> p ∈ held (sys_thread s) ->
  exists sess, w_heap (sys_world s) !! p = Some sess /\ sess_bounded sess /\
    p ∉ (m_activeSessMap (w_pool (sys_world s))).*2.
Proof.
  intros [(I & R & B) _ _ _ _ _] Hp.
  assert (is_Some (w_heap (sys_world s) !! p)) as [sess E].
  { apply (inv_owned _ _ _ I). set_solver. }
  exists sess. split; [done |]. split; [by eapply B |].
  pose proof (inv_nodup _ _ _ I) as Hn. apply NoDup_app in Hn as (_ & Hn & _).
  intros Hin. apply (Hn p Hin). set_solver.
Qed.

Lemma work_inv time p s :
  system_inv s -> sys_thread s = TWork p ->
  match work cfg db time p s with
  | Ok s' => system_inv s'
  | Fault f => decoder_dies s f
  end.
Proof.
  intros Hinv Ht. destruct (held_live p s Hinv) as (sess & Hp & Hb & Hna); [rewrite Ht; set_solver |].
  unfold work, deref. rewrite Hp. cbn [mbind result_bind].
  pose proof (decodeSession_safe cfg db time sess (sys_fs s) Hb) as Hs.
  destruct (decodeSession _ _ _ _ _) as [[s' f']|f] eqn:E; [| destruct Hs; by exists p, sess].
  cbn [mbind result_bind fst snd]. destruct Hinv as [(I & R & B) Hd Ha Hj Hn Hc].
  assert (sess_bounded s') as Hb' by by eapply decodeSession_bounded.
  constructor; cbn; try done.
  - split; [| split]; cbn.
    + rewrite Ht in I. eapply update_session_inv; [exact I | done | done | by right].
    + intros e x He. rewrite lookup_insert_ne; [by apply R |]. intros ->. apply Hna.
      by apply list_elem_of_fmap_2.
    + by apply map_Forall_insert_2.
  - intros q. rewrite Ha. destruct (decide (q = p)) as [->|];
      [rewrite lookup_insert_eq, Hp; split; intros [?|?]; eauto | by rewrite lookup_insert_ne].
  - intros q Hq. rewrite lookup_insert_ne; [by apply Hj |]. intros ->. apply Hj in Hq. congruence.
  - rewrite Ht in Hc. rewrite Hc. split; done.
Qed.

Lemma delete_inv p s :
  system_inv s -> sys_thread s = TDelete p ->
  exists s', delete_session p s = Ok s' /\ system_inv s'.
Proof.
  intros Hinv Ht. destruct (held_live p s Hinv) as (sess & Hp & Hb & Hna); [rewrite Ht; set_solver |].
  unfold delete_session, deref. rewrite Hp. cbn [mbind result_bind]. eexists; split; [done |].
  destruct Hinv as [(I & R & B) Hd Ha Hj Hn Hc]. constructor; cbn; try done.
  - split; [| split]; cbn.
    + apply delete_held_inv. by rewrite Ht in I.
    + intros e x He. rewrite lookup_delete_ne; [by apply R |]. intros ->. apply Hna.
      by apply list_elem_of_fmap_2.
    + intros q x. rewrite lookup_delete_Some. intros [_ Hq]. by eapply B.
  - apply NoDup_app. split; [done |]. split; [| apply NoDup_singleton].
    intros q Hq ->%list_elem_of_singleton. apply Hj in Hq. congruence.
  - intros q. rewrite Ha, elem_of_app, list_elem_of_singleton. destruct (decide (q = p)) as [->|];
      [rewrite Hp; split; [by right; right | by left; eauto] | rewrite lookup_delete_ne by done; tauto].
  - intros q. rewrite elem_of_app, list_elem_of_singleton. intros [Hq | ->]; [| apply lookup_delete_eq].
    apply lookup_delete_None. right. by apply Hj.
  - rewrite Ht in Hc. rewrite Hc. split; done.
Qed.

Lemma step_inv s r :
  system_inv s -> step cfg db iter_order DLT s r ->
  match r with
  | Ok s' => system_inv s'
  | Fault f => capture_dies s f \/ decoder_dies s f
  end.
Proof using Hiter HLaws.
  intros Hinv Hstep. pose proof (si_created s Hinv) as Hc.
  destruct Hstep as [E | E | header packet E Hg | E | E | E Et | Et | Et | time p Et | p Et].
  - apply set_pcs_inv; [done | | done]. apply Hc in E. by rewrite E.
  - apply set_pcs_inv; [done | done |]. rewrite E in Hc. split; [done | intros ?%Hc; done].
  - pose proof (capture_inv header packet s Hg Hinv) as Hp.
    destruct (capture _ _ _ _ _ _ _) eqn:Ex; [done | left; split; eauto 10].
  - apply set_pcs_inv; [done | done |]. rewrite E in Hc. split; [done | intros ?%Hc; done].
  - apply set_pcs_inv; [done | done |]. rewrite E in Hc. split; [done | intros ?%Hc; done].
  - apply set_pcs_inv; [done | by rewrite Et | done].
  - apply set_pcs_inv; [done | rewrite Et; by destruct (m_isRunning s) |].
    rewrite Et in Hc. rewrite Hc. by destruct (m_isRunning s).
  - by apply pop_inv.
  - pose proof (work_inv time p s Hinv Et) as Hp. destruct (work _ _ _ _ _); [done | by right].
  - destruct (delete_inv p s Hinv Et) as (s' & -> & Hs'). done.
Qed.

Lemma reachable_inv f s : reachable cfg db iter_order DLT f s -> system_inv s.
Proof using Hiter HLaws.
  unfold reachable. intros Hr. remember (init_system f) as s0 eqn:E.
  assert (system_inv s0) as Hi by (subst; apply init_inv). clear E.
  induction Hr as [|s0 s1 s2 Hs _ IH]; [done |]. apply IH. exact (step_inv _ _ Hi Hs).
Qed.

(** C1: Safety of the whole program, for every interleaving of capture and
    decoding, every order of the hash map and every sequence of frames of at
    most 256 KiB, well formed or not: each session ever created is owned by
    exactly one of the active map, the closed list and the decode thread, or
    has been deleted exactly once, and no thread reads a deleted session or
    executes an uninitialised parser.  The program can die only in two places:
    the capture thread, of an uncaught [std::out_of_range] or, on a frame that
    is shorter than its link-layer header or than the IPv6 payload it
    announces, of a read outside the captured bytes; and the decode thread, on
    an SMTP session, of one of the three faults of [decodeSmtp]: a read
    outside the stream, [std::length_error] and the exception of the MIME
    parser. *)
Theorem system_safe f s :
  reachable cfg db iter_order DLT f s ->
  system_inv s /\
  forall x, step cfg db iter_order DLT s (Fault x) -> capture_dies s x \/ decoder_dies s x.
Proof using Hiter HLaws.
  intros Hr. apply reachable_inv in Hr as Hinv. split; [done |].
  intros x Hx. exact (step_inv _ _ Hinv Hx).
Qed.

(** ** Shutdown *)

(** [Main] has stopped the decode thread *)
Definition stopped (s : system) : Prop := sys_main s = MStopped \/ sys_main s = MExit.

(** what a step of the decode thread leaves alone *)
Definition same_main (s s' : system) : Prop :=
  sys_main s' = sys_main s /\ m_isRunning s' = m_isRunning s.

Lemma pop_main s : same_main s (pop s).
Proof. unfold pop. by destruct (popClosedSession _) as [[p|] pool']. Qed.

Lemma work_main time p s s' : work cfg db time p s = Ok s' ->
  same_main s s' /\ sys_thread s' = TDelete p /\ w_pool (sys_world s') = w_pool (sys_world s).
Proof.
  unfold work. intros E. destruct (deref _ _); [cbn [mbind result_bind] in E | done].
  destruct (decodeSession _ _ _ _ _); [cbn [mbind result_bind] in E | done]. by injection E as <-.
Qed.

Lemma delete_main p s s' : delete_session p s = Ok s' ->
  same_main s s' /\ sys_thread s' = TInner /\ w_pool (sys_world s') = w_pool (sys_world s).
Proof.
  unfold delete_session. intros E. destruct (deref _ _); [cbn [mbind result_bind] in E | done].
  by injection E as <-.
Qed.

Lemma stopped_flag f s :
  reachable cfg db iter_order DLT f s -> stopped s -> m_isRunning s = false.
Proof.
  unfold reachable. intros Hr.
  refine (rtc_ind_r (fun s => stopped s -> m_isRunning s = false) _ _ _ s Hr); [by intros [?|?] |].
  clear s Hr. intros s0 s1 Hr Hs IH.
  unfold ok_step in Hs. remember (Ok s1) as r eqn:Er.
  destruct Hs as [E | E | header packet E Hg | E | E | E Et | Et | Et | time p Et | p Et];
    try (injection Er as <-); unfold stopped in *; cbn.
  - by intros [?|?].
  - by intros [?|?].
  - unfold capture in Er. destruct (packetCallBack _ _ _ _ _ _ _); [| done]. injection Er as <-.
    cbn. intros [?|?]; congruence.
  - by intros [?|?].
  - done.
  - intros _. apply IH. by left.
  - done.
  - destruct (pop_main s0) as [-> ->]. done.
  - destruct (work_main _ _ _ _ Er) as [[-> ->] _]. done.
  - destruct (delete_main _ _ _ Er) as [[-> ->] _]. done.
Qed.

(** the steps the stopped program can still take *)
Definition shutdown_measure (s : system) : nat :=
  let n := length (m_closedSessList (w_pool (sys_world s))) in
  (match sys_thread s with
   | TNone | TDone => 0
   | TOuter => 1
   | TInner => 3 * n + 2
   | TDelete _ => 3 * n + 3
   | TWork _ => 3 * n + 4
   end + match sys_main s with MExit => 0 | _ => 1 end)%nat.

Lemma shutdown_decreases s s' :
  stopped s -> m_isRunning s = false -> ok_step cfg db iter_order DLT s s' ->
  stopped s' /\ m_isRunning s' = false /\ (shutdown_measure s' < shutdown_measure s)%nat.
Proof.
  intros Hst Hrun Hs. unfold ok_step in Hs. remember (Ok s') as r eqn:Er.
  destruct Hs as [E | E | header packet E Hg | E | E | E Et | Et | Et | time p Et | p Et];
    unfold stopped in *; try (destruct Hst; congruence); unfold shutdown_measure.
  - injection Er as <-. cbn. rewrite E, Et. split; [by right |]. split; [done | lia].
  - injection Er as <-. cbn. rewrite Hrun, Et. split; [done |]. split; [done | lia].
  - injection Er as <-. destruct (pop_main s) as [Em Er]. rewrite Em, Er. split; [done |].
    split; [done |]. rewrite Et. unfold pop, popClosedSession.
    destruct (m_closedSessList (w_pool (sys_world s))) as [|p l] eqn:El; cbn; rewrite ?El; cbn; lia.
  - destruct (work_main _ _ _ _ Er) as ([-> ->] & -> & ->). rewrite Et. split; [done |].
    split; [done | lia].
  - destruct (delete_main _ _ _ Er) as ([-> ->] & -> & ->). rewrite Et. split; [done |].
    split; [done | lia].
Qed.

(** C11: Shutdown terminates.  Once [Main] has called [stop], every run takes
    at most [shutdown_measure] more steps, three per session left in the
    closed list; and as long as no exception ends it, the program can only
    rest in [MExit], with the decode thread joined. *)
Theorem shutdown_terminates f s :
  reachable cfg db iter_order DLT f s -> sys_main s = MStopped ->
  (forall n s', nsteps (ok_step cfg db iter_order DLT) n s s' -> (n <= shutdown_measure s)%nat) /\
  (forall s', rtc (ok_step cfg db iter_order DLT) s s' ->
     (forall r, ~ step cfg db iter_order DLT s' r) -> sys_main s' = MExit).
Proof using Hiter HLaws.
  intros Hr Hm. assert (stopped s) as Hst by by left.
  pose proof (stopped_flag f s Hr Hst) as Hrun. split.
  - intros n s' Hn. clear Hr Hm. revert Hst Hrun.
    induction Hn as [s|n s s1 s' Hs Hn IH]; intros Hst Hrun; [lia |].
    destruct (shutdown_decreases s s1 Hst Hrun Hs) as (Hst1 & Hrun1 & Hlt).
    specialize (IH Hst1 Hrun1). lia.
  - intros s' Hss Hno. assert (reachable cfg db iter_order DLT f s') as Hr'
      by (unfold reachable in *; by transitivity s).
    pose proof (si_created s' (reachable_inv f s' Hr')) as Hc.
    assert (stopped s') as [Hst'|Hst']; [| | done].
    { clear Hno Hr' Hc Hr Hm. induction Hss as [|s s1 s2 Hs _ IH]; [done |].
      destruct (shutdown_decreases s s1 Hst Hrun Hs) as (Hst1 & Hrun1 & _). by apply IH. }
    exfalso. destruct (sys_thread s') eqn:Et.
    + destruct Hc as [_ Hc]. specialize (Hc eq_refl). congruence.
    + by eapply Hno, step_outer.
    + by eapply Hno, step_pop.
    + by eapply Hno, (step_work _ _ _ _ _ 0).
    + by eapply Hno, step_delete.
    + by eapply Hno, step_join.
Qed.

(** ** The flag is set after the thread is created *)

Lemma done_stays s s' :
  sys_thread s = TDone -> sys_main s <> MStart -> ok_step cfg db iter_order DLT s s' ->
  sys_thread s' = TDone /\ sys_main s' <> MStart /\
  sys_deleted s' = sys_deleted s /\ sys_fs s' = sys_fs s.
Proof.
  intros Ht Hm Hs. unfold ok_step in Hs. remember (Ok s') as r eqn:Er.
  destruct Hs as [E | E | header packet E Hg | E | E | E Et | Et | Et | time p Et | p Et];
    try congruence; try (injection Er as <-; by rewrite ?Ht).
  unfold capture in Er. destruct (packetCallBack _ _ _ _ _ _ _); [| done]. injection Er as <-.
  by rewrite Ht.
Qed.

(** [CTxnDecodeThread::start] sets [m_isRunning] after [pthread_create]:
    a thread that reaches its loop first leaves it at once, and then no
    session is ever decoded, saved or deleted, while the capture goes on
    and [start] reports a running thread. *)
Theorem start_race f :
  exists s, reachable cfg db iter_order DLT f s /\
    sys_main s = MCapturing /\ m_isRunning s = true /\
    forall s', rtc (ok_step cfg db iter_order DLT) s s' ->
      sys_thread s' = TDone /\ sys_deleted s' = [] /\ sys_fs s' = f.
Proof.
  exists (mkSystem MCapturing TDone true init_world f []). split; [| split; [done | split; [done |]]].
  - unfold reachable. eapply rtc_l; [by apply step_create |].
    eapply rtc_l; [by apply step_outer |]. eapply rtc_l; [by apply step_set_flag |]. apply rtc_refl.
  - intros s' Hr.
    assert (sys_thread s' = TDone /\ sys_main s' <> MStart /\ sys_deleted s' = [] /\ sys_fs s' = f)
      as (? & _ & ? & ?); [| done].
    refine (rtc_ind_r (fun s' => sys_thread s' = TDone /\ sys_main s' <> MStart /\
              sys_deleted s' = [] /\ sys_fs s' = f) _ _ _ s' Hr); [done |].
    clear s' Hr. intros s1 s2 _ Hs (Ht & Hm & Hd & Hf).
    destruct (done_stays _ _ Ht Hm Hs) as (? & ? & -> & ->). done.
Qed.

End Safety.

(** ** A run *)

Section Run.
#[local] Instance run_parser : HttpParserLib := script_parser [].
#[local] Instance run_mime : MimeLib := subject_only.

#[local, program] Instance run_parser_laws : HttpParserLaws.
Next Obligation. done. Qed.
Next Obligation. intros buf p u. cbn. set_solver. Qed.

(** a client opens a connection to port 80 and resets it *)
Definition sample_frame (flags : Z) : bytes :=
  encode_ether (mkSegment (repeat 17 12) 0 (18, 52) 16384 64 0 (10, 0, 0, 1) (10, 0, 0, 2)
                  1234 80 1000 0 flags 8192 0 0 []).
Definition run_header : pcap_pkthdr := mkPcapHdr 54 54 1000.

Definition run_step := ok_step setDefault sample_db id DLT_EN10MB.
Definition run_frame (flags : Z) (s : system) : result system :=
  capture setDefault sample_db id DLT_EN10MB run_header (sample_frame flags) s.

Lemma sample_flags_frame_ok flags :
  flags = 2 \/ flags = 4 -> frame_ok run_header (sample_frame flags).
Proof.
  intros Hf. split; [| by destruct Hf as [-> | ->]]. destruct Hf as [-> | ->]; closed_bytes.
Qed.

Lemma frame_step flags s s' :
  sys_main s = MCapturing -> flags = 2 \/ flags = 4 -> run_frame flags s = Ok s' -> run_step s s'.
Proof.
  intros Hm Hf E. unfold run_step, ok_step. rewrite <- E.
  apply step_frame; [done | by apply sample_flags_frame_ok].
Qed.

(** capturing, before the first frame *)
Definition run_start : system := mkSystem MCapturing TOuter true init_world sample_fs [].

(** the state a successful step returns *)
Definition state_of (r : result system) : system :=
  match r with Ok s => s | Fault _ => run_start end.
Definition succeeds (r : result system) : bool :=
  match r with Ok _ => true | Fault _ => false end.

Lemma state_of_ok r : succeeds r = true -> r = Ok (state_of r).
Proof. by destruct r. Qed.

(** the states after the SYN and after the reset, which closes session 1 *)
Definition after_syn : system := state_of (run_frame 2 run_start).
Definition after_frames : system := state_of (run_frame 4 after_syn).

Lemma reach_after_frames : reachable setDefault sample_db id DLT_EN10MB sample_fs after_frames.
Proof.
  unfold reachable. eapply rtc_l; [by apply step_create |]. eapply rtc_l; [by apply step_set_flag |].
  eapply (rtc_l _ _ after_syn).
  { apply (frame_step 2 run_start after_syn); [done | by left |].
    apply state_of_ok. vm_compute. reflexivity. }
  eapply (rtc_l _ _ after_frames).
  { apply (frame_step 4 after_syn after_frames); [vm_compute; reflexivity | by right |].
    apply state_of_ok. vm_compute. reflexivity. }
  apply rtc_refl.
Qed.

(** its fields, and the exits of [Main] and the thread from there *)
Lemma after_frames_fields :
  sys_main after_frames = MCapturing /\ sys_thread after_frames = TOuter /\
  m_isRunning after_frames = true /\
  m_closedSessList (w_pool (sys_world after_frames)) = [1] /\ sys_deleted after_frames = [].
Proof. vm_compute. repeat split. Qed.

Definition run_captured : system :=
  set_pcs MCaptured (sys_thread after_frames) (m_isRunning after_frames) after_frames.
Definition run_stopped : system := set_pcs MStopped (sys_thread run_captured) false run_captured.

Lemma reach_stopped : reachable setDefault sample_db id DLT_EN10MB sample_fs run_stopped.
Proof.
  destruct after_frames_fields as (Hm & _).
  eapply (rtc_r _ run_captured); [eapply rtc_r; [exact reach_after_frames |] |].
  - by apply (step_capture_end _ _ _ _ after_frames).
  - by apply (step_stop _ _ _ _ run_captured).
Qed.

(** Sessions can be lost at shutdown: a session closed after the decode
    thread last found the list empty is neither decoded nor deleted when
    [stop] comes before the thread's next look; here the program exits with
    session 1 still in the closed list. *)
Theorem shutdown_loses_session :
  exists s, reachable setDefault sample_db id DLT_EN10MB sample_fs s /\
    sys_main s = MExit /\ m_closedSessList (w_pool (sys_world s)) = [1] /\
    sys_deleted s = [].
Proof.
  destruct after_frames_fields as (_ & Ht & _ & Hc & Hd).
  exists (set_pcs MExit TDone false (set_pcs MStopped TDone false run_stopped)).
  split; [| by split].
  eapply (rtc_r _ (set_pcs MStopped TDone false run_stopped)); [eapply rtc_r; [exact reach_stopped |] |].
  - by apply (step_outer _ _ _ _ run_stopped).
  - by apply (step_join _ _ _ _ (set_pcs MStopped TDone false run_stopped)).
Qed.

Lemma system_safe_witness :
  system_inv after_frames /\ m_closedSessList (w_pool (sys_world after_frames)) = [1].
Proof.
  split; [| apply after_frames_fields].
  apply (system_safe (PX := mem_posix) setDefault sample_db id DLT_EN10MB (fun l => reflexivity l) sample_fs
           after_frames reach_after_frames).
Defined.

Lemma shutdown_terminates_witness :
  sys_main run_stopped = MStopped /\
  (forall n s', nsteps run_step n run_stopped s' -> (n <= 2)%nat).
Proof.
  split; [reflexivity |].
  apply (shutdown_terminates (PX := mem_posix) setDefault sample_db id DLT_EN10MB (fun l => reflexivity l) sample_fs
           run_stopped reach_stopped eq_refl).
Defined.

End Run.
