(* ===== verification/MainProg.v ===== *)
(** * CMain::parserCmdLine and CPacketCaptureThread::threadMain

    The command line overrides the configuration file, and the capture
    thread opens a pcap handle from the result.  [getopt] and libpcap are
    outside the repository: the model takes the options [getopt] returns, in
    order, and what each pcap call reports. *)
From Stdlib Require Import ZArith Lia.
From stdpp Require Import base gmap list strings numbers.
From S2P Require Import Prelude PacketDef IpAddress LayerInfo SegBuf Config DbManager Session HttpDecoder TcpSession SessionPool PacketHandler FrameParsing.

Local Open Scope Z_scope.

(** ** The command line *)

(** one result of [getopt(argc, argv, "m:f:n:d:o:c:h")] *)
Inductive option_arg :=
  | OptMode (arg : bytes)
  | OptFilter (arg : bytes)
  | OptPacketNum (arg : bytes)
  | OptDevice (arg : bytes)
  | OptOfflineFile (arg : bytes)
  | OptConfigFile (arg : bytes)
  | OptHelp
  | OptOther.

(** the local strings of [parserCmdLine] *)
Record cmd_line := mkCmdLine {
  c_mode : bytes; c_filter : bytes; c_packetNum : bytes;
  c_device : bytes; c_offlineFile : bytes; c_configFile : bytes
}.

(** the [getopt] loop: [None] when [-h] exits the program *)
Fixpoint getopt_loop (opts : list option_arg) (c : cmd_line) : option cmd_line :=
  match opts with
  | [] => Some c
  | OptMode a :: l => getopt_loop l
      (mkCmdLine a (c_filter c) (c_packetNum c) (c_device c) (c_offlineFile c) (c_configFile c))
  | OptFilter a :: l => getopt_loop l
      (mkCmdLine (c_mode c) a (c_packetNum c) (c_device c) (c_offlineFile c) (c_configFile c))
  | OptPacketNum a :: l => getopt_loop l
      (mkCmdLine (c_mode c) (c_filter c) a (c_device c) (c_offlineFile c) (c_configFile c))
  | OptDevice a :: l => getopt_loop l
      (mkCmdLine (c_mode c) (c_filter c) (c_packetNum c) a (c_offlineFile c) (c_configFile c))
  | OptOfflineFile a :: l => getopt_loop l
      (mkCmdLine (c_mode c) (c_filter c) (c_packetNum c) (c_device c) a (c_configFile c))
  | OptConfigFile a :: l => getopt_loop l
      (mkCmdLine (c_mode c) (c_filter c) (c_packetNum c) (c_device c) (c_offlineFile c) a)
  | OptHelp :: _ => None
  | OptOther :: l => getopt_loop l c
  end.

(** [atoi(s)] for values that fit an [int] *)
Definition atoi (s : bytes) : Z :=
  let '(neg, v) := read_number s in if neg then - v else v.

Definition nonempty (s : bytes) : bool := negb (length s =? 0)%nat.

(** the assignments after the loop *)
Definition apply_cmd_line (o : cmd_line) (c : CConfig) : CConfig :=
  let mode := if nonempty (c_mode o) &&
                 (bytes_eqb (c_mode o) (bs "online") || bytes_eqb (c_mode o) (bs "offline"))
              then c_mode o else m_mode c in
  mkConfig mode
    (if nonempty (c_offlineFile o) then c_offlineFile o else m_offlineFile c)
    (if nonempty (c_device o) then c_device o else m_dev c)
    (if nonempty (c_filter o) then c_filter o else m_filter c)
    (if nonempty (c_packetNum o) then atoi (c_packetNum o) else m_packetNum c)
    (m_poolLen c) (m_httpPorts c) (m_smtpPorts c) (m_caredHttpMethods c) (m_caredContentTypes c)
    (m_pcapTimeout c) (m_maxDb c) (m_logLevel c) (m_rootPath c).

(** [parserCmdLine]: the configuration singleton, or exit *)
Definition parserCmdLine (parse : bytes -> xmlDoc) (opts : list option_arg) : option CConfig :=
  o ← getopt_loop opts (mkCmdLine [] [] [] [] [] []);
  let file := if (length (c_configFile o) =? 0)%nat
              then bs "/usr/local/killer/etc/config.xml" else c_configFile o in
  Some (apply_cmd_line o (newCConfig parse file)).

(** ** The capture thread *)

Class Pcap := {
  pcap_t : Type;
  pcap_open_offline : bytes -> option pcap_t;
  pcap_open_live : bytes -> Z -> Z -> option pcap_t;    (* device, snaplen, timeout *)
  pcap_datalink : pcap_t -> Z;
  bpf_program : Type;
  pcap_compile : pcap_t -> bytes -> option bpf_program; (* [None]: -1 *)
  pcap_setfilter : pcap_t -> bpf_program -> option pcap_t;
  pcap_loop : pcap_t -> Z -> list (pcap_pkthdr * bytes) (* the frames handed to the callback *)
}.

Definition SNAP_LEN : Z := 1518.

(** opening the handle: every failure is [exit(EXIT_FAILURE)] *)
Definition open_handle `{Pcap} (c : CConfig) : result pcap_t :=
  if bytes_eqb (m_mode c) (bs "offline") then
    match pcap_open_offline (m_offlineFile c) with None => Fault ExitFailure | Some h => Ok h end
  else if bytes_eqb (m_mode c) (bs "online") then
    match pcap_open_live (m_dev c) SNAP_LEN (m_pcapTimeout c) with
    | None => Fault ExitFailure
    | Some h => Ok h
    end
  else Fault ExitFailure.

(** the callback on each frame [pcap_loop] delivers, in order *)
Definition callback_loop {W} (callback : pcap_pkthdr -> bytes -> W -> result W)
    (frames : list (pcap_pkthdr * bytes)) (w : W) : result W :=
  foldl (fun r fr => w' ← r; callback fr.1 fr.2 w') (Ok w) frames.

(** [CPacketCaptureThread::threadMain], for any packet callback *)
Definition threadMain `{Pcap} {W} (callback : Z -> pcap_pkthdr -> bytes -> W -> result W)
    (c : CConfig) (w : W) : result W :=
  handle ← open_handle c;
  let filter_exp := if nonempty (m_filter c) then m_filter c else bs "tcp" in
  match pcap_compile handle filter_exp with
  | None => Fault ExitFailure
  | Some fp =>
    match pcap_setfilter handle fp with
    | None => Fault ExitFailure
    | Some h => callback_loop (callback (pcap_datalink handle)) (pcap_loop h (m_packetNum c)) w
    end
  end.

(** ** The command line, declaratively *)

Definition mode_arg (o : option_arg) : option bytes := match o with OptMode a => Some a | _ => None end.
Definition filter_arg (o : option_arg) : option bytes := match o with OptFilter a => Some a | _ => None end.
Definition num_arg (o : option_arg) : option bytes := match o with OptPacketNum a => Some a | _ => None end.
Definition device_arg (o : option_arg) : option bytes := match o with OptDevice a => Some a | _ => None end.
Definition offline_arg (o : option_arg) : option bytes := match o with OptOfflineFile a => Some a | _ => None end.
Definition config_arg (o : option_arg) : option bytes := match o with OptConfigFile a => Some a | _ => None end.
Definition is_help (o : option_arg) : bool := match o with OptHelp => true | _ => false end.

(** the argument of the last occurrence of an option, [d] without one *)
Definition last_arg (sel : option_arg -> option bytes) (d : bytes) (opts : list option_arg) : bytes :=
  default d (list.last (omap sel opts)).

Lemma last_arg_cons sel d o opts :
  last_arg sel d (o :: opts) = last_arg sel (default d (sel o)) opts.
Proof.
  unfold last_arg. cbn [omap list_omap]. destruct (sel o) as [a|]; cbn [default]; [| done].
  destruct (omap sel opts) as [|b l] eqn:E; [done |].
  change (list.last (a :: b :: l)) with (list.last (b :: l)).
  destruct (list.last (b :: l)) eqn:El; [done |]. by apply last_None in El.
Qed.

Lemma getopt_loop_spec opts c :
  getopt_loop opts c =
    if existsb is_help opts then None
    else Some (mkCmdLine (last_arg mode_arg (c_mode c) opts) (last_arg filter_arg (c_filter c) opts)
                 (last_arg num_arg (c_packetNum c) opts) (last_arg device_arg (c_device c) opts)
                 (last_arg offline_arg (c_offlineFile c) opts) (last_arg config_arg (c_configFile c) opts)).
Proof.
  revert c. induction opts as [|o opts IH]; intros c; [by destruct c |].
  rewrite !last_arg_cons. by destruct o; cbn; rewrite ?IH.
Qed.

(** The command line, for any order and repetition of options: [-h]
    anywhere exits; otherwise the last non-empty occurrence of each option
    overrides the configuration file named by the last [-c] (by default
    /usr/local/killer/etc/config.xml), except that a mode other than
    "online" and "offline" is ignored. *)
Theorem cmd_line_overrides parse opts :
  parserCmdLine parse opts =
    if existsb is_help opts then None
    else
      let arg sel := last_arg sel [] opts in
      let or_else a d := if nonempty a then a else d in
      let c := newCConfig parse (or_else (arg config_arg) (bs "/usr/local/killer/etc/config.xml")) in
      let mode := arg mode_arg in
      Some (mkConfig
        (if bool_decide (mode = bs "online" \/ mode = bs "offline") then mode else m_mode c)
        (or_else (arg offline_arg) (m_offlineFile c)) (or_else (arg device_arg) (m_dev c))
        (or_else (arg filter_arg) (m_filter c))
        (if nonempty (arg num_arg) then atoi (arg num_arg) else m_packetNum c)
        (m_poolLen c) (m_httpPorts c) (m_smtpPorts c) (m_caredHttpMethods c) (m_caredContentTypes c)
        (m_pcapTimeout c) (m_maxDb c) (m_logLevel c) (m_rootPath c)).
Proof.
  unfold parserCmdLine. rewrite getopt_loop_spec. destruct (existsb is_help opts); [done |].
  cbn [mbind option_bind c_mode c_filter c_packetNum c_device c_offlineFile c_configFile].
  unfold apply_cmd_line. cbn [c_mode c_filter c_packetNum c_device c_offlineFile c_configFile].
  set (mode := last_arg mode_arg [] opts). f_equal.
  assert (nonempty mode && (bytes_eqb mode (bs "online") || bytes_eqb mode (bs "offline")) =
          bool_decide (mode = bs "online" \/ mode = bs "offline")) as ->.
  { unfold bytes_eqb. destruct (decide (mode = bs "online")) as [->|]; [done |].
    destruct (decide (mode = bs "offline")) as [->|]; [done |].
    rewrite !bool_decide_eq_false_2 by tauto. apply andb_false_r. }
  unfold nonempty. by destruct (length (last_arg config_arg [] opts) =? 0)%nat.
Qed.

(** ** The capture thread *)

Section CaptureSafety.
Context `{HttpParserLib} `{Pcap} (cfg : CConfig) (db : CDBManager)
  (iter_order : list entry -> list entry) (Hiter : forall l, iter_order l ≡ₚ l).

Definition capture_world (w : world) : result world :=
  threadMain (packetCallBack cfg db iter_order) cfg w.

Lemma frames_inv DLT frames r :
  Forall (fun fr => good_frame DLT fr.1 fr.2) frames ->
  (match r with Ok w => world_inv [] w | Fault f => f = OutOfRange end) ->
  match foldl (fun r fr => w' ← r; packetCallBack cfg db iter_order DLT fr.1 fr.2 w') r frames with
  | Ok w => world_inv [] w
  | Fault f => f = OutOfRange
  end.
Proof using Hiter.
  intros Hall. revert r. induction Hall as [|fr frames Hg Hall IH]; intros r Hr; [done |].
  cbn [foldl]. apply IH. destruct r as [w|f]; [| done]. cbn [mbind result_bind].
  pose proof (packetCallBack_inv cfg db iter_order Hiter [] DLT fr.1 fr.2 w Hg Hr) as Hp.
  destruct (packetCallBack _ _ _ _ _ _ _); [apply Hp | done].
Qed.

(** The capture thread keeps the pool invariant over a whole capture:
    when every frame the handle delivers is well formed for its link type,
    the thread ends with the invariant, exits because a pcap call failed or
    the mode is unknown, or dies of an uncaught [std::out_of_range]. *)
Theorem capture_thread_safe w :
  (forall h fp h', open_handle cfg = Ok h -> pcap_setfilter h fp = Some h' ->
     Forall (fun fr => good_frame (pcap_datalink h) fr.1 fr.2) (pcap_loop h' (m_packetNum cfg))) ->
  world_inv [] w ->
  match capture_world w with
  | Ok w' => world_inv [] w'
  | Fault f => f = OutOfRange \/ f = ExitFailure
  end.
Proof using Hiter.
  intros Hgood Hw. unfold capture_world, threadMain.
  destruct (open_handle cfg) as [h|f] eqn:Eh; cbn [mbind result_bind].
  - destruct (pcap_compile h _) as [fp|]; [| by right].
    destruct (pcap_setfilter h fp) as [h'|] eqn:Ef; [| by right].
    pose proof (frames_inv (pcap_datalink h) _ (Ok w) (Hgood h fp h' eq_refl Ef) Hw) as Hf.
    unfold callback_loop.
    destruct (foldl _ _ _); [done | by left].
  - right. unfold open_handle in Eh.
    destruct (bytes_eqb _ _); [destruct (pcap_open_offline _); congruence |].
    destruct (bytes_eqb _ _); [destruct (pcap_open_live _ _ _); congruence | congruence].
Qed.

End CaptureSafety.

(** a capture device that delivers one SYN *)
Definition one_frame_pcap : Pcap := {|
  pcap_t := unit;
  pcap_open_offline _ := None;
  pcap_open_live _ _ _ := Some tt;
  pcap_datalink _ := DLT_EN10MB;
  bpf_program := unit;
  pcap_compile _ _ := Some tt;
  pcap_setfilter _ _ := Some tt;
  pcap_loop _ _ := [(sample_header, encode_ether sample_segment)]
|}.

Lemma capture_thread_safe_witness :
  match @capture_world (script_parser []) one_frame_pcap setDefault sample_db id init_world with
  | Ok w' => world_inv [] w'
  | Fault f => f = OutOfRange \/ f = ExitFailure
  end.
Proof.
  apply (@capture_thread_safe (script_parser []) one_frame_pcap setDefault sample_db id
           (fun l => reflexivity l) init_world).
  - intros h fp h' _ _. apply list.Forall_cons. split; [| apply Forall_nil_2].
    split; [apply sample_frame_ok |]. split; [apply sample_frame_min | apply sample_not_ip6].
  - apply init_world_inv.
Defined.
