(* ===== verification/Sha1.v ===== *)
(** * SHA-1 of the Capture client (capture-client/sha1.cpp)

    The streaming implementation, with its context structure and its byte
    loop, against the block definition of FIPS 180: for every way of cutting
    a message into [SHA1Input] calls the digest is the standard's.  Words are
    32-bit values in [Z]. *)
From Stdlib Require Import ZArith Lia.
From stdpp Require Import base list strings numbers.
From S2P Require Import Prelude PacketDef.

Local Open Scope Z_scope.

Definition mask32 : Z := 4294967295.

(** [SHA1CircularShift(bits, word)] *)
Definition SHA1CircularShift (bits word : Z) : Z :=
  Z.lor (Z.land (Z.shiftl word bits) mask32) (Z.shiftr word (32 - bits)).

Record SHA1Context := mkCtx {
  Message_Digest : list Z;
  Length_Low : Z;
  Length_High : Z;
  Message_Block : bytes;
  Message_Block_Index : nat;
  Computed : bool;
  Corrupted : bool
}.

Definition sha1_init : list Z := [1732584193; 4023233417; 2562383102; 271733878; 3285377520].

(** [SHA1Reset]; the block keeps its contents *)
Definition SHA1Reset (c : SHA1Context) : SHA1Context :=
  mkCtx sha1_init
    0 0 (Message_Block c) 0 false false.

(** *** [SHA1ProcessMessageBlock] *)

Definition byte_at (blk : bytes) (i : nat) : Z := default 0 (blk !! i).
Definition word_of (W : list Z) (t : nat) : Z := default 0 (W !! t).

(** the first loop: [W[t]] for [t < 16] *)
Definition block_word (blk : bytes) (t : nat) : Z :=
  Z.lor (Z.lor (Z.lor (u32 (Z.shiftl (byte_at blk (t * 4)) 24))
                      (Z.shiftl (byte_at blk (t * 4 + 1)) 16))
               (Z.shiftl (byte_at blk (t * 4 + 2)) 8))
        (byte_at blk (t * 4 + 3)).

(** one round of the second loop, which appends [W[t]] *)
Definition extend (W : list Z) (t : nat) : list Z :=
  W ++ [SHA1CircularShift 1
          (Z.lxor (Z.lxor (Z.lxor (word_of W (t - 3)) (word_of W (t - 8))) (word_of W (t - 14)))
                  (word_of W (t - 16)))].

Definition message_words (blk : bytes) : list Z :=
  foldl extend (block_word blk <$> seq 0 16) (seq 16 64).

(** the word buffers [A] to [E] *)
Record buffers := mkBuffers { bA : Z; bB : Z; bC : Z; bD : Z; bE : Z }.

(** the common part of the four round loops: [f] of [B], [C], [D] *)
Definition round_loop (f : Z -> Z -> Z -> Z) (k : Z) (W : list Z) (s : buffers) (t : nat) : buffers :=
  let temp := Z.land (SHA1CircularShift 5 (bA s) + f (bB s) (bC s) (bD s) + bE s + word_of W t + k)
                mask32 in
  mkBuffers temp (bA s) (SHA1CircularShift 30 (bB s)) (bC s) (bD s).

Definition f_choose (b c d : Z) : Z := Z.lor (Z.land b c) (Z.land (u32 (Z.lnot b)) d).
Definition f_parity (b c d : Z) : Z := Z.lxor (Z.lxor b c) d.
Definition f_majority (b c d : Z) : Z := Z.lor (Z.lor (Z.land b c) (Z.land b d)) (Z.land c d).

(** the block function on the five digest words *)
Definition process_words (digest : list Z) (blk : bytes) : list Z :=
  let W := message_words blk in
  let s0 := mkBuffers (word_of digest 0) (word_of digest 1) (word_of digest 2)
              (word_of digest 3) (word_of digest 4) in
  let s1 := foldl (round_loop f_choose 1518500249 W) s0 (seq 0 20) in
  let s2 := foldl (round_loop f_parity 1859775393 W) s1 (seq 20 20) in
  let s3 := foldl (round_loop f_majority 2400959708 W) s2 (seq 40 20) in
  let s4 := foldl (round_loop f_parity 3395469782 W) s3 (seq 60 20) in
  [Z.land (word_of digest 0 + bA s4) mask32; Z.land (word_of digest 1 + bB s4) mask32;
   Z.land (word_of digest 2 + bC s4) mask32; Z.land (word_of digest 3 + bD s4) mask32;
   Z.land (word_of digest 4 + bE s4) mask32].

Definition SHA1ProcessMessageBlock (c : SHA1Context) : SHA1Context :=
  mkCtx (process_words (Message_Digest c) (Message_Block c)) (Length_Low c) (Length_High c)
    (Message_Block c) 0 (Computed c) (Corrupted c).

(** *** [SHA1Input] *)

(** [Message_Block[Message_Block_Index++] = b] *)
Definition put_byte (b : Z) (c : SHA1Context) : SHA1Context :=
  mkCtx (Message_Digest c) (Length_Low c) (Length_High c)
    (<[Message_Block_Index c := b]> (Message_Block c)) (S (Message_Block_Index c))
    (Computed c) (Corrupted c).

(** the body of the loop *)
Definition input_byte (c : SHA1Context) (b : Z) : SHA1Context :=
  let c1 := put_byte (Z.land b 255) c in
  let low := Z.land (Length_Low c1 + 8) mask32 in
  let high := if low =? 0 then Z.land (Length_High c1 + 1) mask32 else Length_High c1 in
  let corrupted := if (low =? 0) && (high =? 0) then true else Corrupted c1 in
  let c2 := mkCtx (Message_Digest c1) low high (Message_Block c1) (Message_Block_Index c1)
              (Computed c1) corrupted in
  if (Message_Block_Index c2 =? 64)%nat then SHA1ProcessMessageBlock c2 else c2.

Fixpoint input_loop (c : SHA1Context) (message : bytes) : SHA1Context :=
  match message with
  | [] => c
  | b :: rest => if Corrupted c then c else input_loop (input_byte c b) rest
  end.

Definition SHA1Input (c : SHA1Context) (message : bytes) : SHA1Context :=
  if (length message =? 0)%nat then c
  else if Computed c || Corrupted c then
    mkCtx (Message_Digest c) (Length_Low c) (Length_High c) (Message_Block c)
      (Message_Block_Index c) (Computed c) true
  else input_loop c message.

(** *** [SHA1PadMessage] and [SHA1Result] *)

(** [while (Message_Block_Index < limit) ... = 0]; the index grows each
    round, so [limit] rounds are enough *)
Fixpoint fill_zeros (fuel limit : nat) (c : SHA1Context) : SHA1Context :=
  match fuel with
  | O => c
  | S k => if (Message_Block_Index c <? limit)%nat then fill_zeros k limit (put_byte 0 c) else c
  end.

(** the eight assignments to [Message_Block[56]] .. [Message_Block[63]] *)
Definition store_length (c : SHA1Context) : SHA1Context :=
  let hi := Length_High c in
  let lo := Length_Low c in
  mkCtx (Message_Digest c) lo hi
    (<[63%nat := Z.land lo 255]> (<[62%nat := Z.land (Z.shiftr lo 8) 255]>
     (<[61%nat := Z.land (Z.shiftr lo 16) 255]> (<[60%nat := Z.land (Z.shiftr lo 24) 255]>
     (<[59%nat := Z.land hi 255]> (<[58%nat := Z.land (Z.shiftr hi 8) 255]>
     (<[57%nat := Z.land (Z.shiftr hi 16) 255]> (<[56%nat := Z.land (Z.shiftr hi 24) 255]>
       (Message_Block c)))))))))
    (Message_Block_Index c) (Computed c) (Corrupted c).

Definition SHA1PadMessage (c : SHA1Context) : SHA1Context :=
  let c1 :=
    if (55 <? Message_Block_Index c)%nat then
      fill_zeros 64 56 (SHA1ProcessMessageBlock (fill_zeros 64 64 (put_byte 128 c)))
    else fill_zeros 64 56 (put_byte 128 c) in
  SHA1ProcessMessageBlock (store_length c1).

Definition SHA1Result (c : SHA1Context) : Z * SHA1Context :=
  if Corrupted c then (0, c)
  else if Computed c then (1, c)
  else
    let c1 := SHA1PadMessage c in
    (1, mkCtx (Message_Digest c1) (Length_Low c1) (Length_High c1) (Message_Block c1)
          (Message_Block_Index c1) true (Corrupted c1)).

(** ** FIPS 180 *)

Definition ROTL (n x : Z) : Z := (x * 2 ^ n) mod 4294967296 + x / 2 ^ (32 - n).

Definition fips_f (t : nat) (x y z : Z) : Z :=
  if (t <? 20)%nat then Z.lxor (Z.land x y) (Z.land (4294967295 - x) z)
  else if (t <? 40)%nat then Z.lxor (Z.lxor x y) z
  else if (t <? 60)%nat then Z.lxor (Z.lxor (Z.land x y) (Z.land x z)) (Z.land y z)
  else Z.lxor (Z.lxor x y) z.

Definition fips_K (t : nat) : Z :=
  if (t <? 20)%nat then 1518500249
  else if (t <? 40)%nat then 1859775393
  else if (t <? 60)%nat then 2400959708
  else 3395469782.

(** the message schedule: the words of the block, then the recurrence *)
Definition fips_schedule (M : list Z) : list Z :=
  foldl (fun W t => W ++ [ROTL 1 (Z.lxor (word_of W (t - 3)) (Z.lxor (word_of W (t - 8))
           (Z.lxor (word_of W (t - 14)) (word_of W (t - 16)))))]) M (seq 16 64).

Definition fips_words (blk : bytes) : list Z :=
  (fun t => byte_at blk (4 * t) * 16777216 + byte_at blk (4 * t + 1) * 65536 +
            byte_at blk (4 * t + 2) * 256 + byte_at blk (4 * t + 3)) <$> seq 0 16.

Definition fips_round (W : list Z) (s : buffers) (t : nat) : buffers :=
  mkBuffers ((ROTL 5 (bA s) + fips_f t (bB s) (bC s) (bD s) + bE s + fips_K t + word_of W t)
               mod 4294967296)
    (bA s) (ROTL 30 (bB s)) (bC s) (bD s).

Definition fips_block (H : list Z) (blk : bytes) : list Z :=
  let s := foldl (fips_round (fips_schedule (fips_words blk)))
             (mkBuffers (word_of H 0) (word_of H 1) (word_of H 2) (word_of H 3) (word_of H 4))
             (seq 0 80) in
  [(word_of H 0 + bA s) mod 4294967296; (word_of H 1 + bB s) mod 4294967296;
   (word_of H 2 + bC s) mod 4294967296; (word_of H 3 + bD s) mod 4294967296;
   (word_of H 4 + bE s) mod 4294967296].

(** a big-endian 32-bit word *)
Definition be_word (x : Z) : bytes :=
  [x / 16777216 mod 256; x / 65536 mod 256; x / 256 mod 256; x mod 256].

(** the padding of a message of [n] bytes *)
Definition fips_padding (n : nat) : bytes :=
  [128] ++ replicate (Z.to_nat ((55 - Z.of_nat n) mod 64)) 0 ++
  be_word (8 * Z.of_nat n / 4294967296) ++ be_word (8 * Z.of_nat n mod 4294967296).

Fixpoint blocks64 (fuel : nat) (m : bytes) : list bytes :=
  match fuel with
  | O => []
  | S k => match m with [] => [] | _ => take 64 m :: blocks64 k (drop 64 m) end
  end.

Definition fips_sha1 (m : bytes) : list Z :=
  let p := m ++ fips_padding (length m) in
  foldl fips_block sha1_init
    (blocks64 (length p) p).

(** a context before [SHA1Reset] *)
Definition fresh_context : SHA1Context := mkCtx [] 0 0 (replicate 64 0) 0 false false.

(** the FIPS test vector "abc" *)
Example sha1_abc :
  Message_Digest (SHA1Result (SHA1Input (SHA1Reset fresh_context) (bs "abc"))).2 =
  [2845392438; 1191608682; 3124634993; 2018558572; 2630932637].
Proof. vm_compute. reflexivity. Qed.

Example fips_abc : fips_sha1 (bs "abc") = [2845392438; 1191608682; 3124634993; 2018558572; 2630932637].
Proof. vm_compute. reflexivity. Qed.

(** ** Words *)

Definition word_ok (x : Z) : Prop := 0 <= x < 4294967296.

Lemma land_mask x : Z.land x mask32 = u32 x.
Proof. change mask32 with (Z.ones 32). by rewrite Z.land_ones. Qed.

Lemma word_ok_iff x : word_ok x <-> Z.land x mask32 = x.
Proof.
  rewrite land_mask. unfold word_ok. split; [apply u32_small |]. intros <-. apply u32_range.
Qed.

Lemma u32_ok x : word_ok (u32 x).
Proof. unfold word_ok. auto with kf_bounds. Qed.

(** bitwise equalities by case analysis on the bits *)
Ltac bitwise :=
  apply Z.bits_inj'; intros ? ?;
  rewrite ?Z.land_spec, ?Z.lor_spec, ?Z.lxor_spec, ?Z.land_spec, ?Z.lor_spec, ?Z.lxor_spec,
    ?Z.land_spec;
  repeat match goal with |- context [Z.testbit ?x ?i] => destruct (Z.testbit x i) end; reflexivity.

Lemma lxor_ok x y : word_ok x -> word_ok y -> word_ok (Z.lxor x y).
Proof.
  rewrite !word_ok_iff. intros Hx Hy. rewrite <- Hx at 2. rewrite <- Hy at 2. bitwise.
Qed.

Lemma lor_ok x y : word_ok x -> word_ok y -> word_ok (Z.lor x y).
Proof.
  rewrite !word_ok_iff. intros Hx Hy. rewrite <- Hx at 2. rewrite <- Hy at 2. bitwise.
Qed.

Lemma shift_ok n x : 0 <= n <= 32 -> word_ok x -> word_ok (SHA1CircularShift n x).
Proof.
  intros Hn Hx. apply lor_ok; [rewrite land_mask; apply u32_ok |].
  rewrite Z.shiftr_div_pow2 by lia. unfold word_ok in *.
  assert (0 < 2 ^ (32 - n)) by (apply Z.pow_pos_nonneg; lia).
  split; [apply Z.div_pos; lia |]. apply Z.div_lt_upper_bound; nia.
Qed.

Lemma shift_rotl n x : 0 < n < 32 -> word_ok x -> SHA1CircularShift n x = ROTL n x.
Proof.
  intros Hn Hx. unfold SHA1CircularShift, ROTL. rewrite land_mask, Z.shiftr_div_pow2 by lia.
  rewrite Z.shiftl_mul_pow2 by lia. unfold u32.
  assert (4294967296 = 2 ^ (32 - n) * 2 ^ n) as Hp
    by (rewrite <- Z.pow_add_r by lia; by replace (32 - n + n) with 32 by lia).
  assert (0 < 2 ^ n) by (apply Z.pow_pos_nonneg; lia).
  assert (0 < 2 ^ (32 - n)) by (apply Z.pow_pos_nonneg; lia).
  rewrite Hp, Z.mul_mod_distr_r by lia. rewrite <- Z.shiftl_mul_pow2 by lia.
  rewrite lor_shiftl_add; [by rewrite Z.shiftl_mul_pow2 by lia | lia |].
  unfold word_ok in Hx. split; [apply Z.div_pos; lia |]. apply Z.div_lt_upper_bound; lia.
Qed.

Lemma lnot_word b : word_ok b -> u32 (Z.lnot b) = 4294967295 - b.
Proof.
  intros Hb. unfold Z.lnot, word_ok in *. rewrite u32_neg by lia. lia.
Qed.

Lemma choose_fips b c d : word_ok b -> f_choose b c d = Z.lxor (Z.land b c) (Z.land (4294967295 - b) d).
Proof.
  intros Hb. rewrite <- lnot_word by done. unfold f_choose. rewrite <- land_mask.
  apply Z.bits_inj'. intros i Hi. rewrite !Z.lor_spec, !Z.lxor_spec, !Z.land_spec, Z.lnot_spec by done.
  by destruct (Z.testbit b i), (Z.testbit c i), (Z.testbit d i), (Z.testbit mask32 i).
Qed.

Lemma majority_fips b c d :
  f_majority b c d = Z.lxor (Z.lxor (Z.land b c) (Z.land b d)) (Z.land c d).
Proof. unfold f_majority. bitwise. Qed.

(** ** The block function is the standard's *)

Lemma word_of_ok W t : Forall word_ok W -> word_ok (word_of W t).
Proof.
  intros HW. unfold word_of. destruct (W !! t) eqn:E; [| done].
  by eapply Forall_lookup_1 in E.
Qed.

Lemma byte_at_ok blk i : bytes_ok blk -> byte_ok (byte_at blk i).
Proof.
  intros Hb. unfold byte_at. destruct (blk !! i) eqn:E; [| done].
  by eapply Forall_lookup_1 in E.
Qed.

Lemma join_bytes a b c d :
  byte_ok a -> byte_ok b -> byte_ok c -> byte_ok d ->
  Z.lor (Z.lor (Z.lor (u32 (Z.shiftl a 24)) (Z.shiftl b 16)) (Z.shiftl c 8)) d =
  a * 16777216 + b * 65536 + c * 256 + d.
Proof.
  unfold byte_ok. intros Ha Hb Hc Hd.
  rewrite u32_small by (rewrite Z.shiftl_mul_pow2 by lia; lia).
  rewrite lor_shiftl_add; [| lia | rewrite Z.shiftl_mul_pow2 by lia; lia].
  rewrite (Z.shiftl_mul_pow2 b) by lia.
  replace (a * 2 ^ 24 + b * 2 ^ 16) with (Z.shiftl (a * 256 + b) 16)
    by (rewrite Z.shiftl_mul_pow2 by lia; lia).
  rewrite lor_shiftl_add; [| lia | rewrite Z.shiftl_mul_pow2 by lia; lia].
  rewrite (Z.shiftl_mul_pow2 c) by lia.
  replace ((a * 256 + b) * 2 ^ 16 + c * 2 ^ 8) with (Z.shiftl ((a * 256 + b) * 256 + c) 8)
    by (rewrite Z.shiftl_mul_pow2 by lia; lia).
  rewrite lor_shiftl_add by lia. lia.
Qed.

Lemma block_words_fips blk : bytes_ok blk -> block_word blk <$> seq 0 16 = fips_words blk.
Proof.
  intros Hb. apply list_fmap_ext. intros _ t _. unfold block_word.
  rewrite (Nat.mul_comm t 4). apply join_bytes; by apply byte_at_ok.
Qed.

Lemma fips_words_ok blk : bytes_ok blk -> Forall word_ok (fips_words blk).
Proof.
  intros Hb. apply Forall_fmap, list.Forall_forall. intros t _. unfold compose, word_ok.
  pose proof (byte_at_ok blk (4 * t) Hb) as H0. pose proof (byte_at_ok blk (4 * t + 1) Hb) as H1.
  pose proof (byte_at_ok blk (4 * t + 2) Hb) as H2. pose proof (byte_at_ok blk (4 * t + 3) Hb) as H3.
  unfold byte_ok in *. lia.
Qed.

Lemma extend_fips W t : Forall word_ok W ->
  extend W t = W ++ [ROTL 1 (Z.lxor (word_of W (t - 3)) (Z.lxor (word_of W (t - 8))
                       (Z.lxor (word_of W (t - 14)) (word_of W (t - 16)))))] /\
  Forall word_ok (extend W t).
Proof.
  intros HW. unfold extend.
  assert (word_ok (Z.lxor (Z.lxor (Z.lxor (word_of W (t - 3)) (word_of W (t - 8)))
            (word_of W (t - 14))) (word_of W (t - 16)))) as Hx
    by (repeat apply lxor_ok; by apply word_of_ok).
  split.
  - rewrite shift_rotl by (done || lia). by rewrite !Z.lxor_assoc.
  - apply Forall_app. split; [done |]. apply list.Forall_cons.
    split; [by apply shift_ok; [lia |] | apply Forall_nil_2].
Qed.

Lemma schedule_fips l W : Forall word_ok W ->
  foldl extend W l =
  foldl (fun W t => W ++ [ROTL 1 (Z.lxor (word_of W (t - 3)) (Z.lxor (word_of W (t - 8))
           (Z.lxor (word_of W (t - 14)) (word_of W (t - 16)))))]) W l.
Proof.
  revert W. induction l as [|t l IH]; intros W HW; [done |]. cbn [foldl].
  destruct (extend_fips W t HW) as [E HE]. rewrite IH by done. by rewrite E.
Qed.

Lemma message_words_fips blk : bytes_ok blk -> message_words blk = fips_schedule (fips_words blk).
Proof.
  intros Hb. unfold message_words. rewrite block_words_fips by done.
  apply schedule_fips. by apply fips_words_ok.
Qed.

Definition buffers_ok (s : buffers) : Prop :=
  word_ok (bA s) /\ word_ok (bB s) /\ word_ok (bC s) /\ word_ok (bD s) /\ word_ok (bE s).

Lemma fips_round_ok W s t : buffers_ok s -> buffers_ok (fips_round W s t).
Proof.
  intros (HA & HB & HC & HD & HE). split; [apply u32_ok |]. split; [done |].
  split; [cbn; rewrite <- shift_rotl by (done || lia); by apply shift_ok; [lia |] |]. done.
Qed.

(** A segment of rounds agrees when its function and constant do. *)
Lemma rounds_fips f k W l s :
  buffers_ok s ->
  Forall (fun t => fips_K t = k /\ forall b c d, word_ok b -> f b c d = fips_f t b c d) l ->
  foldl (round_loop f k W) s l = foldl (fips_round W) s l /\ buffers_ok (foldl (fips_round W) s l).
Proof.
  intros Hs Hl. revert s Hs. induction Hl as [|t l [Hk Hf] Hl IH]; intros s Hs; [done |].
  cbn [foldl]. replace (round_loop f k W s t) with (fips_round W s t).
  - apply IH. by apply fips_round_ok.
  - destruct Hs as (HA & HB & HC & HD & HE). unfold round_loop, fips_round.
    rewrite Hf, Hk, land_mask by done. rewrite !shift_rotl by (done || lia).
    unfold u32. do 2 f_equal. lia.
Qed.

Lemma process_words_fips H blk :
  Forall word_ok H -> bytes_ok blk ->
  process_words H blk = fips_block H blk /\ Forall word_ok (fips_block H blk).
Proof.
  intros HH Hb. unfold process_words, fips_block. rewrite message_words_fips by done.
  set (W := fips_schedule (fips_words blk)). set (s0 := mkBuffers _ _ _ _ _).
  assert (buffers_ok s0) as Hs0 by (repeat split; cbn; by apply word_of_ok).
  change (seq 0 80) with (seq 0 20 ++ seq 20 20 ++ seq 40 20 ++ seq 60 20). rewrite !foldl_app.
  destruct (rounds_fips f_choose 1518500249 W (seq 0 20) s0) as [-> H1]; [done | |].
  { repeat constructor; intros; by apply choose_fips. }
  destruct (rounds_fips f_parity 1859775393 W (seq 20 20) _ H1) as [-> H2]; [by repeat constructor |].
  destruct (rounds_fips f_majority 2400959708 W (seq 40 20) _ H2) as [-> H3].
  { repeat constructor; intros; apply majority_fips. }
  destruct (rounds_fips f_parity 3395469782 W (seq 60 20) _ H3) as [-> _]; [by repeat constructor |].
  split; [by rewrite !land_mask |].
  repeat (apply list.Forall_cons; split; [apply u32_ok |]). apply Forall_nil_2.
Qed.

(** ** Streaming *)

(** the block buffer holds [r] and the rest of the context is that of [c0] *)
Record holds (c0 c : SHA1Context) (r : bytes) : Prop := {
  h_index : Message_Block_Index c = length r;
  h_size : length (Message_Block c) = 64%nat;
  h_bytes : take (length r) (Message_Block c) = r;
  h_digest : Message_Digest c = Message_Digest c0;
  h_low : Length_Low c = Length_Low c0;
  h_high : Length_High c = Length_High c0
}.

Lemma put_byte_holds c0 c r b :
  holds c0 c r -> (length r < 64)%nat -> holds c0 (put_byte b c) (r ++ [b]).
Proof.
  intros [Hi Hs Hb Hd Hl Hh] Hr. constructor; cbn; try done.
  - rewrite length_app, Hi. cbn. lia.
  - by rewrite length_insert.
  - rewrite length_app, Nat.add_1_r, Hi.
    rewrite (take_S_r _ _ b) by (apply list_lookup_insert_eq; lia).
    by rewrite take_insert_ge, Hb by done.
Qed.

Lemma fill_zeros_holds c0 fuel limit c r :
  holds c0 c r -> (limit <= 64)%nat -> (length r <= limit)%nat -> (limit - length r <= fuel)%nat ->
  holds c0 (fill_zeros fuel limit c) (r ++ replicate (limit - length r) 0).
Proof.
  revert c r. induction fuel as [|fuel IH]; intros c r Hc Hl Hr Hf; cbn [fill_zeros].
  - replace (limit - length r)%nat with 0%nat by lia. by rewrite app_nil_r.
  - rewrite (h_index _ _ _ Hc). destruct (_ <? _)%nat eqn:E; breflect.
    + assert (length (r ++ [0]) = S (length r)) as Hlen by lengths.
      pose proof (IH (put_byte 0 c) (r ++ [0])) as Hi. rewrite Hlen in Hi.
      replace (limit - length r)%nat with (S (limit - S (length r))) by lia.
      cbn [replicate]. change (0 :: replicate (limit - S (length r)) 0)
        with ([0] ++ replicate (limit - S (length r)) 0).
      rewrite app_assoc. apply Hi; [by apply put_byte_holds; [| lia] | lia | lia | lia].
    + replace (limit - length r)%nat with 0%nat by lia. by rewrite app_nil_r.
Qed.

Lemma be_word_land x :
  [Z.land (Z.shiftr x 24) 255; Z.land (Z.shiftr x 16) 255; Z.land (Z.shiftr x 8) 255; Z.land x 255]
  = be_word x.
Proof.
  unfold be_word. change 255 with (Z.ones 8). rewrite !Z.land_ones, !Z.shiftr_div_pow2 by lia. done.
Qed.

Lemma store_length_block c0 c r :
  holds c0 c r -> length r = 56%nat ->
  Message_Block (store_length c) = r ++ be_word (Length_High c) ++ be_word (Length_Low c).
Proof.
  intros [Hi Hs Hb _ _ _] Hr. rewrite <- !be_word_land. unfold store_length. cbn [Message_Block].
  rewrite <- (take_drop 56 (Message_Block c)) in *. rewrite Hr in Hb. rewrite take_app_length' in Hb
    by (rewrite length_take; rewrite take_drop in Hs; lia).
  rewrite Hb in *. remember (drop 56 (Message_Block c)) as t eqn:Et. clear Et.
  rewrite length_app, Hr in Hs. do 8 (destruct t as [|? t]; [cbn in Hs; lia |]).
  destruct t; [| cbn in Hs; lia].
  repeat (rewrite (insert_app_r_alt r) by lia; rewrite Hr; cbn [Nat.sub list_insert insert]). done.
Qed.

(** the state of the stream after the bytes [p] *)
Record streamed (c : SHA1Context) (p : bytes) (bl : list bytes) (r : bytes) : Prop := {
  st_split : p = concat bl ++ r;
  st_blocks : Forall (fun b => length b = 64%nat) bl;
  st_short : (length r < 64)%nat;
  st_bytes : bytes_ok p;
  st_holds : holds c c r;
  st_digest : Message_Digest c = foldl fips_block sha1_init bl;
  st_low : Length_Low c = 8 * Z.of_nat (length p) mod 4294967296;
  st_high : Length_High c = 8 * Z.of_nat (length p) / 4294967296;
  st_computed : Computed c = false;
  st_corrupted : Corrupted c = false
}.

Lemma digest_ok bl : Forall bytes_ok bl -> Forall word_ok (foldl fips_block sha1_init bl).
Proof.
  assert (forall H, Forall word_ok H -> Forall bytes_ok bl -> Forall word_ok (foldl fips_block H bl)) as Hg.
  { induction bl as [|b bl IH]; intros H HH Hb; [done |]. apply list.Forall_cons in Hb as [Hb Hbl].
    cbn [foldl]. apply IH; [| done]. by apply process_words_fips. }
  apply Hg. by repeat constructor.
Qed.

(** the 64-bit bit counter, as two words *)
Lemma length_step n :
  8 * (Z.of_nat n + 1) < 18446744073709551616 ->
  let low := u32 (8 * Z.of_nat n mod 4294967296 + 8) in
  let high := if low =? 0 then u32 (8 * Z.of_nat n / 4294967296 + 1)
              else 8 * Z.of_nat n / 4294967296 in
  low = 8 * Z.of_nat (S n) mod 4294967296 /\ high = 8 * Z.of_nat (S n) / 4294967296 /\
  (low =? 0) && (high =? 0) = false.
Proof.
  intros Hn. change 4294967296 with (8 * 536870912). rewrite !Z.mul_mod_distr_l, !Z.div_mul_cancel_l by lia.
  pose proof (Z.div_mod (Z.of_nat n) 536870912 ltac:(lia)) as Hd.
  pose proof (Z.mod_pos_bound (Z.of_nat n) 536870912 ltac:(lia)) as Hm.
  set (q := Z.of_nat n / 536870912) in *. set (m := Z.of_nat n mod 536870912) in *.
  assert (0 <= q) as Hq by (apply Z.div_pos; lia).
  destruct (decide (m = 536870911)) as [E|E].
  - assert (u32 (8 * m + 8) = 0) as -> by (rewrite E; reflexivity).
    cbn zeta. change (0 =? 0) with true. cbn iota. rewrite u32_small by lia.
    assert (Z.of_nat (S n) = (q + 1) * 536870912) as -> by lia.
    rewrite Z.mod_mul, Z.div_mul by lia. split; [done |]. split; [done |]. cbn. apply Z.eqb_neq. lia.
  - rewrite u32_small by lia. cbn zeta. destruct (8 * m + 8 =? 0) eqn:E0; breflect; [lia |].
    assert (Z.of_nat (S n) = q * 536870912 + (m + 1)) as -> by lia.
    rewrite (Z.add_comm (q * _)), Z_mod_plus_full, Z.div_add, Z.mod_small, Z.div_small by lia.
    split; [lia |]. split; [lia | done].
Qed.

Lemma holds_self c0 c r : holds c0 c r -> holds c c r.
Proof. by intros [????]. Qed.

(** processing a full block *)
Lemma process_full c0 c blk :
  holds c0 c blk -> length blk = 64%nat -> Forall word_ok (Message_Digest c0) -> bytes_ok blk ->
  Message_Digest (SHA1ProcessMessageBlock c) = fips_block (Message_Digest c0) blk.
Proof.
  intros [_ Hs Hb Hd _ _] Hl HH Hok. cbn. rewrite Hd.
  assert (Message_Block c = blk) as -> by (rewrite <- Hb; symmetry; apply take_ge; lia).
  by apply process_words_fips.
Qed.

Lemma blocks_bytes_ok bl r p : p = concat bl ++ r -> bytes_ok p -> Forall bytes_ok bl /\ bytes_ok r.
Proof.
  intros -> [Hc Hr]%Forall_app. split; [| done]. induction bl as [|b bl IH]; [done |].
  cbn in Hc. apply Forall_app in Hc as [??]. constructor; auto.
Qed.

Lemma input_byte_streamed c p bl r b :
  streamed c p bl r -> byte_ok b -> 8 * (Z.of_nat (length p) + 1) < 18446744073709551616 ->
  exists bl' r', streamed (input_byte c b) (p ++ [b]) bl' r'.
Proof.
  intros [Hp Hbl Hr Hok Hh Hd Hlo Hhi Hc Hx] Hb Hn.
  assert (Z.land b 255 = b) as Hb255.
  { change 255 with (Z.ones 8). rewrite Z.land_ones by lia. by apply Z.mod_small. }
  assert (length (p ++ [b]) = S (length p)) as HlenS by lengths.
  assert (bytes_ok (p ++ [b])) as Hok' by (apply Forall_app; split; [done | by apply Forall_singleton]).
  destruct (length_step (length p) Hn) as (El & Eh & Ex).
  pose proof (put_byte_holds c c r b Hh Hr) as Hput.
  unfold input_byte. rewrite Hb255.
  change (Length_Low (put_byte b c)) with (Length_Low c).
  change (Length_High (put_byte b c)) with (Length_High c).
  change (Corrupted (put_byte b c)) with (Corrupted c).
  rewrite !land_mask, Hlo, Hhi, Ex, Hx. rewrite El, Eh in *. rewrite <- HlenS in *.
  cbn [Message_Block_Index]. rewrite (h_index _ _ _ Hput).
  assert (p ++ [b] = concat bl ++ r ++ [b]) as Hcat by (by rewrite Hp, <- app_assoc).
  destruct (length (r ++ [b]) =? 64)%nat eqn:E; breflect.
  - exists (bl ++ [r ++ [b]]), []. destruct (blocks_bytes_ok _ _ _ Hcat Hok') as [Hblok Hrok].
    constructor; cbn [Message_Digest SHA1ProcessMessageBlock Length_Low Length_High Computed Corrupted];
      try done.
    + rewrite concat_app, app_nil_r. cbn. by rewrite app_nil_r.
    + apply Forall_app. split; [done |]. by apply Forall_singleton.
    + cbn. lia.
    + constructor; try done. apply (h_size _ _ _ Hput).
    + rewrite foldl_app. cbn [foldl]. rewrite <- Hd.
      apply (process_full c (put_byte b c)); [done | done | rewrite Hd; by apply digest_ok | done].
  - exists bl, (r ++ [b]).
    constructor; cbn [Message_Digest Length_Low Length_High Computed Corrupted]; try done.
    + rewrite length_app in *. cbn in *. lia.
    + constructor; cbn; try done; apply Hput.
Qed.

Lemma input_loop_streamed msg c p bl r :
  streamed c p bl r -> bytes_ok msg ->
  8 * Z.of_nat (length p + length msg) < 18446744073709551616 ->
  exists bl' r', streamed (input_loop c msg) (p ++ msg) bl' r'.
Proof.
  revert c p bl r. induction msg as [|b msg IH]; intros c p bl r Hs Hm Hn.
  - rewrite app_nil_r. eauto.
  - apply list.Forall_cons in Hm as [Hb Hm]. cbn [input_loop length] in *.
    rewrite (st_corrupted _ _ _ _ Hs).
    destruct (input_byte_streamed c p bl r b Hs Hb) as (bl1 & r1 & Hs1); [lia |].
    destruct (IH _ _ _ _ Hs1 Hm) as (bl2 & r2 & Hs2).
    + rewrite length_app. cbn [length]. lia.
    + exists bl2, r2. by rewrite <- app_assoc in Hs2.
Qed.

Lemma SHA1Input_streamed chunks c p bl r :
  streamed c p bl r -> Forall bytes_ok chunks ->
  8 * Z.of_nat (length p + length (concat chunks)) < 18446744073709551616 ->
  exists bl' r', streamed (foldl SHA1Input c chunks) (p ++ concat chunks) bl' r'.
Proof.
  revert c p bl r. induction chunks as [|m chunks IH]; intros c p bl r Hs Hc Hn.
  - cbn. rewrite app_nil_r. eauto.
  - apply list.Forall_cons in Hc as [Hm Hc]. cbn [foldl concat] in *. rewrite length_app in Hn.
    assert (SHA1Input c m = input_loop c m) as ->.
    { unfold SHA1Input. rewrite (st_computed _ _ _ _ Hs), (st_corrupted _ _ _ _ Hs).
      by destruct m. }
    destruct (input_loop_streamed m c p bl r Hs Hm) as (bl1 & r1 & Hs1); [lia |].
    destruct (IH _ _ _ _ Hs1 Hc) as (bl2 & r2 & Hs2); [lengths |].
    exists bl2, r2. by rewrite app_assoc.
Qed.

Lemma blocks64_concat fuel bl :
  Forall (fun b => length b = 64%nat) bl -> (length bl <= fuel)%nat -> blocks64 fuel (concat bl) = bl.
Proof.
  revert fuel. induction bl as [|b bl IH]; intros fuel Hb Hf; [by destruct fuel |].
  destruct fuel as [|fuel]; [cbn in Hf; lia |]. apply list.Forall_cons in Hb as [Hb Hbl].
  cbn [concat blocks64]. destruct (b ++ concat bl) eqn:E.
  - apply (f_equal length) in E. rewrite length_app, Hb in E. cbn in E. lia.
  - rewrite <- E, take_app_length', drop_app_length' by done. rewrite IH; [done | done | cbn in Hf; lia].
Qed.

Lemma length_blocks (bl : list bytes) :
  Forall (fun b => length b = 64%nat) bl -> length (concat bl) = (64 * length bl)%nat.
Proof. induction 1 as [|b bl Hb _ IH]; [done |]. cbn [concat length]. rewrite length_app. lia. Qed.

(** ** Padding *)

Lemma be_word_ok x : bytes_ok (be_word x).
Proof. repeat (apply list.Forall_cons; split; [by apply Z.mod_pos_bound |]). apply Forall_nil_2. Qed.

Lemma zeros_ok n : bytes_ok (replicate n 0).
Proof. apply Forall_replicate. unfold byte_ok. lia. Qed.

(** the number of zero bytes, from the bytes already in the block *)
Lemma padding_zeros (p : bytes) (bl : list bytes) (r : bytes) :
  p = concat bl ++ r -> Forall (fun b => length b = 64%nat) bl -> (length r < 64)%nat ->
  Z.to_nat ((55 - Z.of_nat (length p)) mod 64) =
    if (55 <? length r)%nat then (63 - length r + 56)%nat else (55 - length r)%nat.
Proof.
  intros -> Hbl Hr. rewrite length_app, (length_blocks bl Hbl).
  replace (55 - Z.of_nat (64 * length bl + length r))
    with ((55 - Z.of_nat (length r)) + (- Z.of_nat (length bl)) * 64) by lia.
  rewrite Z_mod_plus_full. destruct (55 <? length r)%nat eqn:E; breflect.
  - replace (55 - Z.of_nat (length r)) with ((119 - Z.of_nat (length r)) + (-1) * 64) by lia.
    rewrite Z_mod_plus_full, Z.mod_small by lia. lia.
  - rewrite Z.mod_small by lia. lia.
Qed.

(** storing the length in a block filled up to 56 bytes and processing it *)
Lemma final_block c0 c q :
  holds c0 c q -> length q = 56%nat -> bytes_ok q -> Forall word_ok (Message_Digest c0) ->
  Message_Digest (SHA1ProcessMessageBlock (store_length c)) =
  fips_block (Message_Digest c0) (q ++ be_word (Length_High c0) ++ be_word (Length_Low c0)).
Proof.
  intros Hh Hq Hok HH. pose proof (store_length_block c0 c q Hh Hq) as Hb.
  cbn [Message_Digest SHA1ProcessMessageBlock]. rewrite Hb.
  change (Message_Digest (store_length c)) with (Message_Digest c).
  rewrite (h_digest _ _ _ Hh), (h_low _ _ _ Hh), (h_high _ _ _ Hh).
  apply process_words_fips; [done |]. apply Forall_app. split; [done |].
  apply Forall_app. split; apply be_word_ok.
Qed.

(** the bytes that end the last block *)
Definition length_bytes (c : SHA1Context) : bytes := be_word (Length_High c) ++ be_word (Length_Low c).

Section Pad.
Context (c : SHA1Context) (r : bytes) (Hh : holds c c r) (Hr : (length r < 64)%nat)
  (Hok : bytes_ok r) (HH : Forall word_ok (Message_Digest c)).

Lemma pad_start : holds c (put_byte 128 c) (r ++ [128]) /\ length (r ++ [128]) = S (length r) /\
  bytes_ok (r ++ [128]).
Proof using Hh Hr Hok.
  split; [by apply put_byte_holds |]. split; [lengths |].
  apply Forall_app. split; [done | by apply Forall_singleton].
Qed.

(** the length fits into the current block *)
Lemma pad_short : (length r <= 55)%nat ->
  Message_Digest (SHA1PadMessage c) =
  foldl fips_block (Message_Digest c) [(r ++ [128]) ++ replicate (55 - length r) 0 ++ length_bytes c].
Proof using Hh Hr Hok HH.
  intros E. destruct pad_start as (H1 & Hl1 & Hok1). unfold SHA1PadMessage. rewrite (h_index _ _ _ Hh).
  destruct (55 <? length r)%nat eqn:E5; breflect; [lia |].
  pose proof (fill_zeros_holds c 64 56 _ _ H1) as H2. rewrite Hl1 in H2.
  specialize (H2 ltac:(lia) ltac:(lia) ltac:(lia)).
  replace (56 - S (length r))%nat with (55 - length r)%nat in H2 by lia.
  rewrite (final_block c _ _ H2); [cbn [foldl]; by rewrite <- !app_assoc | | | done].
  - rewrite length_app, Hl1, length_replicate. lia.
  - apply Forall_app. split; [done | apply zeros_ok].
Qed.

(** the length needs a block of its own *)
Lemma pad_long : (55 < length r)%nat ->
  Message_Digest (SHA1PadMessage c) =
  foldl fips_block (Message_Digest c)
    [(r ++ [128]) ++ replicate (63 - length r) 0; replicate 56 0 ++ length_bytes c].
Proof using Hh Hr Hok HH.
  intros E. destruct pad_start as (H1 & Hl1 & Hok1). unfold SHA1PadMessage. rewrite (h_index _ _ _ Hh).
  destruct (55 <? length r)%nat eqn:E5; breflect; [| lia].
  pose proof (fill_zeros_holds c 64 64 _ _ H1) as H2. rewrite Hl1 in H2.
  specialize (H2 ltac:(lia) ltac:(lia) ltac:(lia)).
  replace (64 - S (length r))%nat with (63 - length r)%nat in H2 by lia.
  set (b1 := (r ++ [128]) ++ replicate (63 - length r) 0) in *.
  assert (length b1 = 64%nat) as Hb1 by (unfold b1; rewrite length_app, Hl1, length_replicate; lia).
  assert (bytes_ok b1) as Hbok1 by (apply Forall_app; split; [done | apply zeros_ok]).
  pose proof (process_full c _ b1 H2 Hb1 HH Hbok1) as Hp1.
  set (c1 := SHA1ProcessMessageBlock (fill_zeros 64 64 (put_byte 128 c))) in *.
  assert (holds c1 c1 []) as H3 by (constructor; try done; apply (h_size _ _ _ H2)).
  pose proof (fill_zeros_holds c1 64 56 c1 [] H3 ltac:(lia) ltac:(cbn; lia) ltac:(cbn; lia)) as H4.
  cbn [length app Nat.sub] in H4.
  rewrite (final_block c1 _ _ H4); [| done | apply zeros_ok |].
  - cbn [foldl]. rewrite <- Hp1. unfold length_bytes.
    by rewrite <- (h_low _ _ _ H2), <- (h_high _ _ _ H2).
  - rewrite Hp1. by apply process_words_fips.
Qed.

End Pad.

Lemma pad_streamed c p bl r :
  streamed c p bl r -> Message_Digest (SHA1PadMessage c) = fips_sha1 p.
Proof.
  intros [Hp Hbl Hr Hok Hh Hd Hlo Hhi _ _].
  destruct (blocks_bytes_ok _ _ _ Hp Hok) as [Hblok Hrok].
  pose proof (digest_ok bl Hblok) as HH. rewrite <- Hd in HH.
  assert (exists last, p ++ fips_padding (length p) = concat (bl ++ last) /\
            Forall (fun b => length b = 64%nat) last /\
            Message_Digest (SHA1PadMessage c) = foldl fips_block (Message_Digest c) last)
    as (last & Hcat & Hlast & ->).
  { unfold fips_padding. rewrite (padding_zeros p bl r Hp Hbl Hr), <- Hlo, <- Hhi.
    fold (length_bytes c). destruct (55 <? length r)%nat eqn:E; breflect.
    - eexists. split; [| split; [| by apply pad_long]].
      + rewrite concat_app, Hp. cbn [concat]. rewrite replicate_add, app_nil_r. by rewrite <- !app_assoc.
      + apply list.Forall_cons. split; [lengths |].
        by apply Forall_singleton.
    - eexists. split; [| split; [| apply pad_short; done || lia]].
      + rewrite concat_app, Hp. cbn [concat]. rewrite app_nil_r. by rewrite <- !app_assoc.
      + apply Forall_singleton. rewrite !length_app, length_replicate. cbn. lia. }
  unfold fips_sha1. rewrite Hcat, blocks64_concat.
  - by rewrite foldl_app, <- Hd.
  - by apply Forall_app.
  - rewrite length_blocks by by apply Forall_app. lia.
Qed.

Lemma reset_streamed c :
  length (Message_Block c) = 64%nat -> streamed (SHA1Reset c) [] [] [].
Proof. intros Hl. constructor; try done; [cbn; lia | apply Forall_nil_2]. Qed.

(** C37: SHA-1 is computed correctly for every way of cutting a message of
    fewer than 2^61 bytes into [SHA1Input] calls: [SHA1Result] reports
    success and the digest is that of FIPS 180 on the whole message. *)
Theorem sha1_streaming_correct c chunks :
  length (Message_Block c) = 64%nat -> Forall bytes_ok chunks ->
  8 * Z.of_nat (length (concat chunks)) < 18446744073709551616 ->
  let r := SHA1Result (foldl SHA1Input (SHA1Reset c) chunks) in
  r.1 = 1 /\ Message_Digest r.2 = fips_sha1 (concat chunks).
Proof.
  intros Hl Hc Hn.
  destruct (SHA1Input_streamed chunks _ _ _ _ (reset_streamed c Hl) Hc Hn) as (bl & r & Hs).
  cbn [app] in Hs. unfold SHA1Result.
  rewrite (st_corrupted _ _ _ _ Hs), (st_computed _ _ _ _ Hs). cbn [fst snd Message_Digest].
  split; [done |]. by eapply pad_streamed.
Qed.

Lemma sha1_streaming_correct_witness :
  Message_Digest (SHA1Result (foldl SHA1Input (SHA1Reset fresh_context) [bs "a"; []; bs "bc"])).2 =
  fips_sha1 (bs "abc").
Proof.
  apply (sha1_streaming_correct fresh_context [bs "a"; []; bs "bc"]);
    [done | | vm_compute; reflexivity].
  vm_compute. repeat constructor; discriminate.
Defined.
