(* ===== verification/Url.v ===== *)
(** * The URLs of the Capture client (capture-client/Url.cpp)

    The percent encoding the client applies to a URL it reports to the server
    and the decoding it applies to a URL the server sends.  A [wstring] of the
    client is a list of 16-bit characters; [decode] is the index loop of the
    source, with its checked [at] accesses. *)
From Stdlib Require Import ZArith Lia.
From stdpp Require Import base list strings numbers.
From S2P Require Import Prelude.

Local Open Scope Z_scope.

(** a [wchar_t] of the platform of the client *)
Definition wchar_ok (c : Z) : Prop := 0 <= c < 65536.

(** [Url::hexenc], the table of the escapes of the bytes *)
Definition hex_digit (d : Z) : Z := if d <? 10 then 48 + d else 97 + (d - 10).
Definition hexenc (b : Z) : list Z := [37; hex_digit (b / 16); hex_digit (b mod 16)].

(** the characters [encode] copies: letters, digits and the marks of the third test *)
Definition alnum (wch : Z) : bool :=
  ((65 <=? wch) && (wch <=? 90)) || ((97 <=? wch) && (wch <=? 122))
  || ((48 <=? wch) && (wch <=? 57)).
Definition url_mark (wch : Z) : bool :=
  (wch =? 45) || (wch =? 95) || (wch =? 46) || (wch =? 33) || (wch =? 126)
  || (wch =? 42) || (wch =? 39) || (wch =? 40) || (wch =? 41).

(** one round of the loop of [Url::encode] *)
Definition encode_char (wch : Z) : list Z :=
  if alnum wch then [wch]
  else if wch =? 32 then [43]
  else if url_mark wch then [wch]
  else if wch <=? 127 then hexenc wch
  else if wch <=? 2047 then
    hexenc (Z.lor 192 (Z.shiftr wch 6)) ++ hexenc (Z.lor 128 (Z.land wch 63))
  else
    hexenc (Z.lor 224 (Z.shiftr wch 12))
    ++ hexenc (Z.lor 128 (Z.land (Z.shiftr wch 6) 63))
    ++ hexenc (Z.lor 128 (Z.land wch 63)).

(** [Url::encode] *)
Definition encode (text : list Z) : list Z :=
  foldl (fun encoded wch => encoded ++ encode_char wch) [] text.

(** [text.at(i)] *)
Definition wat (text : list Z) (i : nat) : result Z :=
  match text !! i with Some c => Ok c | None => Fault OutOfRange end.

(** [wcstol(temp, NULL, 16)] on [temp = "0x" ++ [c2; c3]]: the hexadecimal
    digits up to the first other character. *)
Definition hex_value (c : Z) : option Z :=
  if (48 <=? c) && (c <=? 57) then Some (c - 48)
  else if (97 <=? c) && (c <=? 102) then Some (c - 87)
  else if (65 <=? c) && (c <=? 70) then Some (c - 55)
  else None.
Definition wcstol_0x (c2 c3 : Z) : Z :=
  match hex_value c2 with
  | None => 0
  | Some a => match hex_value c3 with None => a | Some b => 16 * a + b end
  end.

(** the variables of [Url::decode] the loop carries *)
Record decode_state := mkDecode {
  decoded : list Z;
  sequence : Z;
  conwch : Z
}.

(** the body of the escape branch, for the value of the escaped byte *)
Definition decode_byte (tconwch : Z) (st : decode_state) : decode_state :=
  if tconwch <=? 127 then
    mkDecode (decoded st ++ [tconwch]) (sequence st) (conwch st)
  else if (128 <=? tconwch) && (tconwch <=? 191) then
    let t := Z.land tconwch 63 in
    let t := if sequence st =? 2 then Z.shiftl t 6 else t in
    let s := sequence st - 1 in
    let c := u16 (Z.lor (conwch st) t) in
    mkDecode (if s =? 0 then decoded st ++ [c] else decoded st) s c
  else if (192 <=? tconwch) && (tconwch <=? 223) then
    mkDecode (decoded st) 1 (u16 (Z.shiftl (Z.land tconwch 31) 6))
  else if (224 <=? tconwch) && (tconwch <=? 239) then
    mkDecode (decoded st) 2 (u16 (Z.shiftl (Z.land tconwch 15) 12))
  else st.

(** the loop of [Url::decode]; [i] is the index at the head of a round and
    every round moves it forward, so [text.length()] rounds are enough *)
Fixpoint decode_loop (fuel : nat) (text : list Z) (i : nat) (st : decode_state)
  : result decode_state :=
  match fuel with
  | O => if (i <? length text)%nat then Fault OutOfFuel else Ok st
  | S k =>
    if (i <? length text)%nat then
      wch ← wat text i;
      let i := S i in
      if (wch =? 37) && (i + 1 <? length text)%nat then
        c2 ← wat text i;
        let i := S i in
        c3 ← wat text i;
        decode_loop k text (S i) (decode_byte (wcstol_0x c2 c3) st)
      else
        let i := pred i in
        c ← wat text i;
        decode_loop k text (S i) (mkDecode (decoded st ++ [c]) (sequence st) (conwch st))
    else Ok st
  end.

(** [Url::decode] *)
Definition decode (text : list Z) : result (list Z) :=
  st ← decode_loop (length text) text 0 (mkDecode [] 0 0);
  Ok (decoded st).

(** The constructor [Url::Url] and the object it builds *)
Record Url := mkUrl {
  url : list Z;
  program : list Z;
  visitTime : Z;
  processId : Z;
  visited : bool;
  malicious : bool;
  majorErrorCode : Z;
  minorErrorCode : Z
}.

Definition newUrl (u app : list Z) (vTime : Z) : Url :=
  mkUrl u app vTime 0 false false 0 0.

(** ** The decoder as a structural recursion *)

Fixpoint decode_list (text : list Z) (st : decode_state) : decode_state :=
  match text with
  | [] => st
  | wch :: rest =>
    match rest with
    | c2 :: c3 :: rest' =>
      if wch =? 37 then decode_list rest' (decode_byte (wcstol_0x c2 c3) st)
      else decode_list rest (mkDecode (decoded st ++ [wch]) (sequence st) (conwch st))
    | _ => decode_list rest (mkDecode (decoded st ++ [wch]) (sequence st) (conwch st))
    end
  end.

Lemma wat_app pre c rest : wat (pre ++ c :: rest) (length pre) = Ok c.
Proof. unfold wat. by rewrite lookup_app_r, Nat.sub_diag by lia. Qed.

(** The index loop, started at the end of [pre], is the recursion on what
    follows [pre]: no [at] throws and the fuel suffices. *)
Lemma decode_loop_list fuel rest : forall pre st,
  (length rest <= fuel)%nat ->
  decode_loop fuel (pre ++ rest) (length pre) st = Ok (decode_list rest st).
Proof.
  revert rest. induction fuel as [|fuel IH]; intros rest pre st Hf.
  - destruct rest; [| cbn in Hf; lia]. cbn [decode_loop].
    by rewrite app_nil_r, Nat.ltb_irrefl.
  - destruct rest as [|wch rest].
    { cbn [decode_loop]. by rewrite app_nil_r, Nat.ltb_irrefl. }
    cbn in Hf.
    assert (Hstep : forall r st',
      (length r <= fuel)%nat -> forall p, p ++ r = pre ++ wch :: rest ->
      decode_loop fuel (pre ++ wch :: rest) (length p) st' = Ok (decode_list r st')).
    { intros r st' Hr p <-. by apply IH. }
    assert (Hone : forall st', decode_loop fuel (pre ++ wch :: rest) (S (length pre)) st'
                               = Ok (decode_list rest st')).
    { intros st'. rewrite <- (Hstep rest st' ltac:(lia) (pre ++ [wch])).
      - f_equal. lengths.
      - by rewrite <- app_assoc. }
    cbn [decode_loop]. rewrite length_app. cbn [length].
    replace (length pre <? _)%nat with true by (symmetry; apply Nat.ltb_lt; lia).
    cbn [pred]. rewrite !wat_app. cbn [mbind result_bind].
    destruct rest as [|c2 [|c3 rest]].
    1,2: cbn [length]; rewrite (proj2 (Nat.ltb_ge _ _)), andb_false_r by lia; apply Hone.
    cbn [length] in *. rewrite (proj2 (Nat.ltb_lt _ _)), andb_true_r by lia.
    cbn [decode_list]. destruct (wch =? 37).
    + replace (wat _ (S (length pre))) with (@Ok Z c2).
      2:{ replace (S (length pre)) with (length (pre ++ [wch])) by lengths.
          replace (pre ++ _) with ((pre ++ [wch]) ++ c2 :: c3 :: rest) by (by rewrite <- app_assoc).
          symmetry. apply wat_app. }
      cbn [mbind result_bind].
      replace (wat _ (S (S (length pre)))) with (@Ok Z c3).
      2:{ replace (S (S (length pre))) with (length (pre ++ [wch; c2])) by lengths.
          replace (pre ++ _) with ((pre ++ [wch; c2]) ++ c3 :: rest) by (by rewrite <- app_assoc).
          symmetry. apply wat_app. }
      cbn [mbind result_bind].
      rewrite <- (Hstep rest _ ltac:(lia) (pre ++ [wch; c2; c3])).
      * f_equal. lengths.
      * by rewrite <- app_assoc.
    + apply Hone.
Qed.

Lemma decode_as_list text :
  decode text = Ok (decoded (decode_list text (mkDecode [] 0 0))).
Proof.
  unfold decode. rewrite (decode_loop_list (length text) text [] _ ltac:(lia)). done.
Qed.

(** ** Encoding and decoding one character *)

(** The same for the 16-bit values, a high and a low byte at a time. *)
Lemma check_wchar (P : Z -> bool) :
  forallb (fun h => forallb (fun l => P (256 * Z.of_nat h + Z.of_nat l)) (seq 0 256))
    (seq 0 256) = true ->
  forall x, wchar_ok x -> P x = true.
Proof.
  intros H x Hx. unfold wchar_ok in Hx.
  assert (H' := check_below (fun h => forallb (fun l => P (256 * h + Z.of_nat l)) (seq 0 256))
                  256 H (x / 256)).
  assert (H'' := check_below (fun l => P (256 * (x / 256) + l)) 256).
  cbv beta in H', H''. rewrite (Z.div_mod x 256) by lia. apply H''.
  - apply H'. split; [apply Z.div_pos; lia | apply Z.div_lt_upper_bound; lia].
  - apply Z.mod_pos_bound. lia.
Qed.

Lemma hexenc_digits b : 0 <= b < 256 ->
  wcstol_0x (hex_digit (b / 16)) (hex_digit (b mod 16)) = b.
Proof.
  intros Hb. apply Z.eqb_eq.
  exact (check_below (fun b => wcstol_0x (hex_digit (b / 16)) (hex_digit (b mod 16)) =? b)
           256 ltac:(vm_compute; reflexivity) b Hb).
Qed.

Lemma decode_hexenc b rest st : 0 <= b < 256 ->
  decode_list (hexenc b ++ rest) st = decode_list rest (decode_byte b st).
Proof. intros Hb. cbn. by rewrite hexenc_digits. Qed.

(** a character that is not an escape is copied *)
Lemma decode_plain c rest st : c <> 37 ->
  decode_list (c :: rest) st
  = decode_list rest (mkDecode (decoded st ++ [c]) (sequence st) (conwch st)).
Proof.
  intros Hc. apply Z.eqb_neq in Hc. cbn. rewrite Hc. by destruct rest as [|? [|? ?]].
Qed.

(** What becomes of a character: a space comes back as a plus sign. *)
Definition plus_for_space (c : Z) : Z := if c =? 32 then 43 else c.

(** lead bytes and continuation bytes *)
Lemma decode_lead2 a st : 0 <= a < 32 ->
  decode_byte (Z.lor 192 a) st = mkDecode (decoded st) 1 (u16 (Z.shiftl a 6)).
Proof.
  intros Ha.
  assert (H := check_below (fun a => let b := Z.lor 192 a in
    negb (b <=? 127) && negb ((128 <=? b) && (b <=? 191)) && ((192 <=? b) && (b <=? 223))
    && (Z.land b 31 =? a)) 32 ltac:(vm_compute; reflexivity) a Ha).
  cbv zeta in H. rewrite !andb_true_iff, !negb_true_iff, Z.eqb_eq, <- andb_true_iff in H.
  destruct H as [[[H1 H2] H3] H4]. unfold decode_byte. by rewrite H1, H2, H3, H4.
Qed.

Lemma decode_lead3 a st : 0 <= a < 16 ->
  decode_byte (Z.lor 224 a) st = mkDecode (decoded st) 2 (u16 (Z.shiftl a 12)).
Proof.
  intros Ha.
  assert (H := check_below (fun a => let b := Z.lor 224 a in
    negb (b <=? 127) && negb ((128 <=? b) && (b <=? 191)) && negb ((192 <=? b) && (b <=? 223))
    && ((224 <=? b) && (b <=? 239)) && (Z.land b 15 =? a)) 16 ltac:(vm_compute; reflexivity) a Ha).
  cbv zeta in H. rewrite !andb_true_iff, !negb_true_iff, Z.eqb_eq, <- andb_true_iff in H.
  destruct H as [[[[H1 H2] H3] H4] H5]. unfold decode_byte. by rewrite H1, H2, H3, H4, H5.
Qed.

Lemma decode_cont a st : 0 <= a < 64 ->
  decode_byte (Z.lor 128 a) st =
  let c := u16 (Z.lor (conwch st) (if sequence st =? 2 then Z.shiftl a 6 else a)) in
  mkDecode (if sequence st - 1 =? 0 then decoded st ++ [c] else decoded st)
    (sequence st - 1) c.
Proof.
  intros Ha.
  assert (H := check_below (fun a => let b := Z.lor 128 a in
    negb (b <=? 127) && ((128 <=? b) && (b <=? 191)) && (Z.land b 63 =? a))
    64 ltac:(vm_compute; reflexivity) a Ha).
  cbv zeta in H. rewrite !andb_true_iff, !negb_true_iff, Z.eqb_eq, <- andb_true_iff in H.
  destruct H as [[H1 H2] H3]. unfold decode_byte. by rewrite H1, H2, H3.
Qed.

(** the bit fields [encode] cuts a character into *)
Lemma fields2 c : 0 <= c < 2048 ->
  0 <= Z.shiftr c 6 < 32 /\ 0 <= Z.land c 63 < 64 /\
  u16 (Z.lor (u16 (Z.shiftl (Z.shiftr c 6) 6)) (Z.land c 63)) = c.
Proof.
  intros Hc.
  assert (H := check_below (fun c =>
    (0 <=? Z.shiftr c 6) && (Z.shiftr c 6 <? 32) && ((0 <=? Z.land c 63) && (Z.land c 63 <? 64))
    && (u16 (Z.lor (u16 (Z.shiftl (Z.shiftr c 6) 6)) (Z.land c 63)) =? c))
    2048 ltac:(vm_compute; reflexivity) c Hc).
  cbv beta in H. breflect. lia.
Qed.

Lemma fields3 c : 0 <= c < 65536 ->
  0 <= Z.shiftr c 12 < 16 /\ 0 <= Z.land (Z.shiftr c 6) 63 < 64 /\ 0 <= Z.land c 63 < 64 /\
  u16 (Z.lor (u16 (Z.lor (u16 (Z.shiftl (Z.shiftr c 12) 12))
                         (Z.shiftl (Z.land (Z.shiftr c 6) 63) 6))) (Z.land c 63)) = c.
Proof.
  intros Hc.
  assert (H := check_wchar (fun c =>
    (0 <=? Z.shiftr c 12) && (Z.shiftr c 12 <? 16)
    && ((0 <=? Z.land (Z.shiftr c 6) 63) && (Z.land (Z.shiftr c 6) 63 <? 64))
    && ((0 <=? Z.land c 63) && (Z.land c 63 <? 64))
    && (u16 (Z.lor (u16 (Z.lor (u16 (Z.shiftl (Z.shiftr c 12) 12))
                         (Z.shiftl (Z.land (Z.shiftr c 6) 63) 6))) (Z.land c 63)) =? c))
    ltac:(vm_compute; reflexivity) c Hc).
  cbv beta in H. breflect. lia.
Qed.

Lemma byte_of_lor a b : 0 <= a < 256 -> 0 <= b < 256 -> 0 <= Z.lor a b < 256.
Proof.
  intros Ha Hb.
  assert (Z.lor a b = Z.lor a b mod 2 ^ 8) as ->.
  { rewrite <- Z.land_ones, Z.land_lor_distr_l, !Z.land_ones by lia.
    by rewrite !Z.mod_small by lia. }
  apply Z.mod_pos_bound. lia.
Qed.

(** Decoding the encoding of one character appends that character. *)
Lemma decode_encode_char c rest st : wchar_ok c ->
  exists st', decode_list (encode_char c ++ rest) st = decode_list rest st' /\
    decoded st' = decoded st ++ [plus_for_space c].
Proof.
  intros Hc. unfold wchar_ok, encode_char, plus_for_space in *.
  destruct (alnum c) eqn:E1.
  { unfold alnum in E1. eexists. split; [apply decode_plain; intros ->; discriminate |].
    destruct (c =? 32) eqn:E; [| done]. apply Z.eqb_eq in E. subst. discriminate. }
  destruct (c =? 32) eqn:E2.
  { eexists. split; [by apply decode_plain | done]. }
  destruct (url_mark c) eqn:E3.
  { eexists. split; [apply decode_plain; intros ->; discriminate | done]. }
  destruct (c <=? 127) eqn:E4; breflect.
  { eexists. split; [apply decode_hexenc; lia |].
    unfold decode_byte. by rewrite (proj2 (Z.leb_le _ _) E4). }
  destruct (c <=? 2047) eqn:E5; breflect.
  - destruct (fields2 c) as (F1 & F2 & F3); [lia |].
    eexists. split.
    { rewrite <- app_assoc, !decode_hexenc by (apply byte_of_lor; lia). reflexivity. }
    rewrite decode_cont, decode_lead2 by done. cbn. by rewrite F3.
  - destruct (fields3 c) as (F1 & F2 & F3 & F4); [lia |].
    eexists. split.
    { rewrite <- !app_assoc, !decode_hexenc by (apply byte_of_lor; lia). reflexivity. }
    rewrite !decode_cont, decode_lead3 by done.
    cbn -[Z.shiftl Z.shiftr Z.land Z.lor u16].
    change (2 - 1 - 1 =? 0) with true. change (2 - 1 =? 0) with false.
    change (2 - 1 =? 2) with false. cbv iota. by rewrite F4.
Qed.

Lemma decode_encode_list text : forall st, Forall wchar_ok text ->
  decoded (decode_list (flat_map encode_char text) st)
  = decoded st ++ (plus_for_space <$> text).
Proof.
  induction text as [|c text IH]; intros st Ht; cbn [flat_map].
  - by rewrite app_nil_r.
  - apply list.Forall_cons in Ht as [Hc Ht].
    destruct (decode_encode_char c (flat_map encode_char text) st Hc) as (st' & -> & E).
    rewrite IH, E by done. by rewrite <- app_assoc.
Qed.

Lemma encode_flat_map text : encode text = flat_map encode_char text.
Proof.
  unfold encode.
  enough (H : forall acc, foldl (fun e c => e ++ encode_char c) acc text
                          = acc ++ flat_map encode_char text) by apply H.
  induction text as [|c text IH]; intros acc; cbn; [by rewrite app_nil_r |].
  by rewrite IH, <- app_assoc.
Qed.

(** the alphabet of an encoded URL *)
Definition url_safe (c : Z) : bool := alnum c || url_mark c || (c =? 37) || (c =? 43).

Lemma hexenc_safe b : 0 <= b < 256 -> Forall (fun c => url_safe c = true) (hexenc b).
Proof.
  intros Hb. apply Forall_forall. intros x Hx.
  refine (proj1 (forallb_forall url_safe (hexenc b)) _ x Hx).
  exact (check_below (fun b => forallb url_safe (hexenc b)) 256 ltac:(vm_compute; reflexivity) b Hb).
Qed.

Lemma encode_char_safe c : wchar_ok c -> Forall (fun x => url_safe x = true) (encode_char c).
Proof.
  intros Hc. unfold wchar_ok, encode_char in *.
  destruct (alnum c) eqn:E1; [apply Forall_singleton; unfold url_safe; by rewrite E1 |].
  destruct (c =? 32) eqn:E2; [by apply Forall_singleton |].
  destruct (url_mark c) eqn:E3.
  { apply Forall_singleton. unfold url_safe. by rewrite E1, E3. }
  destruct (c <=? 127) eqn:E4; breflect; [apply hexenc_safe; lia |].
  destruct (fields3 c Hc) as (F1 & F2 & F3 & _).
  destruct (c <=? 2047) eqn:E5; breflect.
  - destruct (fields2 c ltac:(lia)) as (G1 & _).
    apply Forall_app. split; apply hexenc_safe, byte_of_lor; lia.
  - rewrite !Forall_app. repeat split; apply hexenc_safe, byte_of_lor; lia.
Qed.

(** [Url::decode] never throws on an encoded URL and gives back the URL,
    every 16-bit character of it, except that a space comes back as the plus
    sign [Url::encode] wrote for it; and the encoded URL has only letters,
    digits, the marks and the escapes. *)
Theorem url_decode_encode (text : list Z) :
  Forall wchar_ok text ->
  decode (encode text) = Ok (plus_for_space <$> text) /\
  Forall (fun c => url_safe c = true) (encode text).
Proof.
  intros Ht. rewrite decode_as_list, encode_flat_map, decode_encode_list by done.
  split; [done |].
  induction Ht as [|c text Hc Ht IH]; cbn [flat_map]; [done |].
  apply Forall_app. split; [by apply encode_char_safe | done].
Qed.

Lemma url_decode_encode_witness :
  decode (encode (bs "a b?c=%" ++ [233; 8364])) = Ok (bs "a+b?c=%" ++ [233; 8364]).
Proof.
  refine (proj1 (url_decode_encode (bs "a b?c=%" ++ [233; 8364]) _)).
  repeat constructor; vm_compute; congruence.
Defined.

Example encode_euro : encode [8364] = bs "%e2%82%ac".
Proof. reflexivity. Qed.

Lemma decode_byte_wchar b st : 0 <= b < 256 ->
  Forall wchar_ok (decoded st) -> Forall wchar_ok (decoded (decode_byte b st)).
Proof.
  intros Hb H. unfold decode_byte.
  assert (Hu : forall x, wchar_ok (u16 x)) by (unfold wchar_ok; auto with kf_bounds).
  repeat case_goal; cbn [decoded]; try done; apply Forall_app; (split; [done |]);
    apply Forall_singleton; try apply Hu; breflect; unfold wchar_ok; lia.
Qed.

Lemma hex_value_range c v : hex_value c = Some v -> 0 <= v < 16.
Proof. unfold hex_value. intros H. case_in H; simplify_eq; breflect; lia. Qed.

Lemma wcstol_0x_byte a b : 0 <= wcstol_0x a b < 256.
Proof.
  unfold wcstol_0x. repeat case_goal;
    repeat match goal with H : hex_value _ = Some _ |- _ => apply hex_value_range in H end; lia.
Qed.

Lemma decode_list_wchar n : forall text st, (length text <= n)%nat ->
  Forall wchar_ok text -> Forall wchar_ok (decoded st) ->
  Forall wchar_ok (decoded (decode_list text st)).
Proof.
  induction n as [|n IH]; intros text st Hn Ht Hs.
  { destruct text; [done | cbn in Hn; lia]. }
  destruct text as [|c [|c2 [|c3 rest]]]; [done | ..]; cbn in Hn;
    rewrite !list.Forall_cons in Ht; destruct_and?.
  - cbn. rewrite Forall_app, Forall_singleton. done.
  - cbn. rewrite !Forall_app, !Forall_singleton. done.
  - destruct (c =? 37) eqn:E; breflect; [subst c; cbn [decode_list] | rewrite decode_plain by done].
    + cbn [Z.eqb Pos.eqb]. apply IH; [lia | done |]. apply decode_byte_wchar; [apply wcstol_0x_byte | done].
    + apply (IH (c2 :: c3 :: rest)); [cbn; lia | by rewrite !list.Forall_cons |].
      cbn. by rewrite Forall_app, Forall_singleton.
Qed.

(** [Url::decode] terminates without an exception on every string the
    server can send, escapes cut short or with characters that are not
    hexadecimal included, and returns a string of 16-bit characters. *)
Theorem url_decode_total (text : list Z) :
  Forall wchar_ok text ->
  exists out, decode text = Ok out /\ Forall wchar_ok out.
Proof.
  intros Ht. rewrite decode_as_list. eexists. split; [done |].
  by apply (decode_list_wchar (length text)).
Qed.

Lemma url_decode_total_witness :
  exists out, decode (bs "%e2%zz%8") = Ok out /\ Forall wchar_ok out.
Proof. refine (url_decode_total (bs "%e2%zz%8") _). repeat constructor; vm_compute; congruence. Defined.
