(* ===== verification/Monitor.v ===== *)
(** * The exclusion lists of the Capture client (capture-client/Monitor.cpp,
    Permission.cpp)

    Every monitor of the client keeps, per event type, a [std::list] of
    pointers to permissions built from the lines of an exclusion list; an event
    is reported unless they allow it.  The permissions are objects of a heap
    and a list is a sequence of nodes with addresses, because
    [clearExclusionList] erases nodes while it iterates.  The regular
    expressions of Boost are a parameter of the model. *)
From Stdlib Require Import ZArith Lia.
From stdpp Require Import base gmap list strings numbers.
From S2P Require Import Prelude.

Local Open Scope Z_scope.

(** [boost::wregex]: [wregex_icase] is the constructor with the flag [icase],
    [None] for the [regex_error] it throws. *)
Class WRegex := {
  wregex : Type;
  wregex_icase : list Z -> option wregex;
  regex_match : list Z -> wregex -> bool
}.

(** the vector [splitLine] *)
Definition tokens (line : bytes) : list (list Z) :=
  (fun t : bytes => widen <$> t) <$> split_on 9 line.

Inductive PERMISSION_CLASSIFICATION := NO_MATCH | ALLOWED | DISALLOWED.

#[global] Instance classification_eq_dec : EqDecision PERMISSION_CLASSIFICATION.
Proof. solve_decision. Defined.

(** ** [prepareStringForExclusion] *)

(** [s.find(from, offset)] *)
Definition find_from (from s : list Z) (offset : nat) : option nat :=
  Nat.add offset <$> str_find from (drop offset s).

(** one of the two loops; every round moves [offset] past a character of the
    original string, so [s.size()] rounds are enough *)
Fixpoint replace_loop (fuel : nat) (from to s : list Z) (offset : nat) : result (list Z) :=
  match find_from from s offset with
  | None => Ok s
  | Some offset =>
    match fuel with
    | O => Fault OutOfFuel
    | S k =>
      s' ← str_replace s offset (length from) to;
      replace_loop k from to s' (offset + length to)
    end
  end.

Definition prepareStringForExclusion (s : list Z) : result (list Z) :=
  s ← replace_loop (length s) [92] [92; 92] s 0;
  replace_loop (length s) [46] [92; 46] s 0.

Section Monitor.
Context `{RX : WRegex}.

Record Permission := mkPermission {
  subjects : list wregex;
  objects : list wregex;
  allow : bool;
  permaneant : bool
}.

(** ** [Permission::Check] *)

Fixpoint check_objects (p_allow : bool) (object : list Z) (l : list wregex)
  : PERMISSION_CLASSIFICATION :=
  match l with
  | [] => NO_MATCH
  | r :: l' =>
    if regex_match (c_str object) r then (if p_allow then ALLOWED else DISALLOWED)
    else check_objects p_allow object l'
  end.

Definition Check (p : Permission) (subject object : list Z) : PERMISSION_CLASSIFICATION :=
  let found := foldl (fun found r => if regex_match (c_str subject) r then true else found)
                 false (subjects p) in
  if negb found then NO_MATCH else check_objects (allow p) object (objects p).

(** ** The monitor: the heap of permissions and the lists of nodes *)

Abbreviation node := (nat * nat)%type.

Record Monitor := mkMonitor {
  heap : gmap nat Permission;
  permissionMap : gmap (list Z) (list node);
  next_addr : nat
}.

Definition newMonitor : Monitor := mkMonitor ∅ ∅ 0.

Definition deref (h : gmap nat Permission) (p : nat) : result Permission :=
  match h !! p with Some q => Ok q | None => Fault UseAfterFree end.

(** the loop of [isEventAllowed] *)
Fixpoint allowed_loop (h : gmap nat Permission) (subject object : list Z) (lp : list node)
    (excluded : PERMISSION_CLASSIFICATION) : result PERMISSION_CLASSIFICATION :=
  match lp with
  | [] => Ok excluded
  | (_, p) :: lp' =>
    q ← deref h p;
    allowed_loop h subject object lp'
      match Check q subject object with
      | ALLOWED => if decide (excluded = DISALLOWED) then excluded else ALLOWED
      | DISALLOWED => DISALLOWED
      | NO_MATCH => excluded
      end
  end.

Definition isEventAllowed (m : Monitor) (eventType subject object : list Z) : result bool :=
  let event_type := tolower <$> eventType in
  excluded ← match permissionMap m !! event_type with
             | Some lp => allowed_loop (heap m) subject object lp NO_MATCH
             | None => Ok NO_MATCH
             end;
  Ok (bool_decide (excluded = ALLOWED)).

(** [addExclusion]; the flag tells that a [regex_error] was thrown, in which
    case the permission just allocated is not in any list. [Permission] declares
    no constructor, so [new Permission()] value-initialises it: [allow] is false
    when [excluded] is none of the four words. *)
Definition addExclusion (m : Monitor) (excluded action subject object : list Z)
    (permaneant : bool) : Monitor * bool :=
  let p := next_addr m in
  let q al subs objs := mkPermission subs objs al permaneant in
  let al := if bytes_eqb excluded (bs "yes") || bytes_eqb excluded (bs "+") then true else false in
  match wregex_icase (c_str subject) with
  | None => (mkMonitor (<[p := q al [] []]> (heap m)) (permissionMap m) (S p), true)
  | Some subjectRegex =>
    match wregex_icase (c_str object) with
    | None => (mkMonitor (<[p := q al [] []]> (heap m)) (permissionMap m) (S p), true)
    | Some objectRegex =>
      let h := <[p := q al [subjectRegex] [objectRegex]]> (heap m) in
      let action_copy := tolower <$> action in
      let n := S p in
      let lp := match permissionMap m !! action_copy with
                | None => [(n, p)]
                | Some lp => lp ++ [(n, p)]
                end in
      (mkMonitor h (<[action_copy := lp]> (permissionMap m)) (S n), false)
    end
  end.

(** the body of the loop of [loadExclusionList] for a line; a [regex_error] is
    caught and logged *)
Definition load_line (m : Monitor) (line : bytes) : Monitor :=
  match line with
  | [] => m
  | c :: _ =>
    if c =? 35 then m
    else if (c =? 43) || (c =? 45) then
      match tokens line with
      | [excluded; action; subject; object] =>
        if bytes_eqb action (bs ".*") || bytes_eqb action (bs ".+") then m
        else (addExclusion m excluded action subject object false).1
      | _ => m
      end
    else m
  end.

(** [loadExclusionList]; [None] when the file cannot be opened *)
Definition loadExclusionList (m : Monitor) (file : option bytes) : Monitor :=
  match file with
  | Some contents => foldl load_line m (split_on 10 contents)
  | None => m
  end.

(** *** [clearExclusionList] *)

(** [*lit]: the iterator holds the address of a node *)
Fixpoint node_value (lp : list node) (lit : nat) : result nat :=
  match lp with
  | [] => Fault UseAfterFree
  | (a, p) :: lp' => if (a =? lit)%nat then Ok p else node_value lp' lit
  end.

Definition begin_ (lp : list node) : option nat := fst <$> head lp.

(** [lit++]: reads the link of the node; [None] is [end()] *)
Fixpoint next_node (lp : list node) (lit : nat) : result (option nat) :=
  match lp with
  | [] => Fault UseAfterFree
  | (a, _) :: lp' => if (a =? lit)%nat then Ok (begin_ lp') else next_node lp' lit
  end.

Fixpoint clear_list (fuel : nat) (h : gmap nat Permission) (lp : list node) (lit : option nat)
  : result (gmap nat Permission * list node) :=
  match lit with
  | None => Ok (h, lp)
  | Some lit =>
    match fuel with
    | O => Fault OutOfFuel
    | S k =>
      p ← node_value lp lit;
      q ← deref h p;
      if negb (permaneant q) then
        let lp := filter (fun n => n.2 <> p) lp in
        let h := delete p h in
        lit ← next_node lp lit;
        clear_list k h lp lit
      else
        lit ← next_node lp lit;
        clear_list k h lp lit
    end
  end.

Fixpoint clear_all (m : Monitor) (entries : list (list Z * list node)) : result Monitor :=
  match entries with
  | [] => Ok m
  | (key, lp) :: rest =>
    '(h, lp') ← clear_list (length lp) (heap m) lp (begin_ lp);
    clear_all (mkMonitor h (<[key := lp']> (permissionMap m)) (next_addr m)) rest
  end.

Definition clearExclusionList (m : Monitor) : result Monitor :=
  clear_all m (map_to_list (permissionMap m)).

(** ** What an exclusion list means *)

(** a permission of an event type *)
Abbreviation rule := (list Z * Permission)%type.

(** the rule a line of the file states *)
Definition rule_of_line (line : bytes) : option rule :=
  match tokens line with
  | [excluded; action; subject; object] =>
    if decide (head line = Some 43 \/ head line = Some 45) then
      if decide (action = bs ".*" \/ action = bs ".+") then None
      else
        s ← wregex_icase (c_str subject);
        o ← wregex_icase (c_str object);
        Some (tolower <$> action, mkPermission [s] [o] (bool_decide (excluded = bs "+")) false)
    else None
  | _ => None
  end.

Definition rules_of_file (file : option bytes) : list rule :=
  match file with
  | Some contents => omap rule_of_line (split_on 10 contents)
  | None => []
  end.

(** a rule applies to an event *)
Definition applies (eventType subject object : list Z) (r : rule) : bool :=
  bool_decide (r.1 = tolower <$> eventType)
  && existsb (regex_match (c_str subject)) (subjects r.2)
  && existsb (regex_match (c_str object)) (objects r.2).

(** allowed: a rule with [+] applies and no rule with [-] does *)
Definition verdict (R : list rule) (eventType subject object : list Z) : bool :=
  existsb (fun r => applies eventType subject object r && allow r.2) R
  && negb (existsb (fun r => applies eventType subject object r && negb (allow r.2)) R).

(** ** The monitor implements its rules *)

Definition nodes (m : Monitor) (key : list Z) : list node :=
  default [] (permissionMap m !! key).

Definition perms_of (key : list Z) (R : list rule) : list Permission :=
  snd <$> filter (fun r => r.1 = key) R.

(** The lists of the monitor hold, per event type and in order, the
    permissions of the rules. *)
Definition denotes (m : Monitor) (R : list rule) : Prop :=
  forall key, Forall2 (fun n q => heap m !! n.2 = Some q) (nodes m key) (perms_of key R).

(** Addresses are fresh when allocated: the nodes of a list differ and every
    address in use is below the next one. *)
Record monitor_inv (m : Monitor) : Prop := {
  inv_heap : forall p q, heap m !! p = Some q -> (p < next_addr m)%nat;
  inv_nodup : forall key, NoDup (nodes m key).*1;
  inv_nodes : forall key n, n ∈ nodes m key -> (n.1 < next_addr m)%nat
}.

Lemma newMonitor_inv : monitor_inv newMonitor.
Proof.
  split; unfold nodes; cbn; intros *; rewrite ?lookup_empty; cbn; try done.
  - constructor.
  - by intros ?%elem_of_nil.
Qed.

Lemma newMonitor_denotes : denotes newMonitor [].
Proof. intros key. unfold nodes. cbn. rewrite lookup_empty. constructor. Qed.

Lemma Check_spec q subject object :
  Check q subject object =
  if existsb (regex_match (c_str subject)) (subjects q)
     && existsb (regex_match (c_str object)) (objects q)
  then (if allow q then ALLOWED else DISALLOWED) else NO_MATCH.
Proof.
  unfold Check.
  assert (H : forall b, foldl (fun found r => if regex_match (c_str subject) r then true else found)
                b (subjects q) = b || existsb (regex_match (c_str subject)) (subjects q)).
  { induction (subjects q) as [|r l IH]; intros b; cbn; [by rewrite orb_false_r |].
    rewrite IH. destruct (regex_match _ r), b; done. }
  rewrite H. cbn. destruct (existsb _ (subjects q)); cbn; [| done].
  induction (objects q) as [|r l IH]; cbn; [done |].
  by destruct (regex_match _ r).
Qed.

(** the rules of a list of permissions, as the loop combines them *)
Definition combine (subject object : list Z) (acc : PERMISSION_CLASSIFICATION)
    (qs : list Permission) : PERMISSION_CLASSIFICATION :=
  let hit q := existsb (regex_match (c_str subject)) (subjects q)
               && existsb (regex_match (c_str object)) (objects q) in
  if bool_decide (acc = DISALLOWED) || existsb (fun q => hit q && negb (allow q)) qs
  then DISALLOWED
  else if bool_decide (acc = ALLOWED) || existsb (fun q => hit q && allow q) qs
  then ALLOWED else NO_MATCH.

Lemma allowed_loop_spec h subject object lp : forall qs acc,
  Forall2 (fun n q => h !! n.2 = Some q) lp qs ->
  allowed_loop h subject object lp acc = Ok (combine subject object acc qs).
Proof.
  induction lp as [|[a p] lp IH]; intros qs acc H.
  - apply Forall2_nil_inv_l in H as ->. by destruct acc.
  - apply Forall2_cons_inv_l in H as (q & qs' & Hq & H & ->). cbn in Hq.
    cbn. unfold deref. rewrite Hq. cbn [mbind result_bind].
    rewrite (IH qs') by done. f_equal. rewrite Check_spec. unfold combine. cbn.
    destruct (existsb _ (subjects q) && existsb _ (objects q)), (allow q), acc; cbn;
      repeat destruct (existsb _ qs'); reflexivity.
Qed.

Lemma perms_of_existsb (f : Permission -> bool) key R :
  existsb f (perms_of key R) = existsb (fun r => bool_decide (r.1 = key) && f r.2) R.
Proof.
  unfold perms_of. induction R as [|[k q] R IH]; [done |].
  rewrite filter_cons. cbn. case_decide; cbn.
  - rewrite bool_decide_true by done. by rewrite <- IH.
  - by rewrite bool_decide_false by done.
Qed.

Lemma existsb_ext {A} (f g : A -> bool) l : (forall x, f x = g x) -> existsb f l = existsb g l.
Proof. intros H. induction l as [|x l IH]; cbn; [done |]. by rewrite H, IH. Qed.

Lemma isEventAllowed_spec m R eventType subject object :
  denotes m R ->
  isEventAllowed m eventType subject object = Ok (verdict R eventType subject object).
Proof.
  intros H. specialize (H (tolower <$> eventType)).
  unfold isEventAllowed, nodes in *.
  assert (E : match permissionMap m !! (tolower <$> eventType) with
              | Some lp => allowed_loop (heap m) subject object lp NO_MATCH
              | None => Ok NO_MATCH
              end = Ok (combine subject object NO_MATCH (perms_of (tolower <$> eventType) R))).
  { destruct (permissionMap m !! _) as [lp|]; cbn in H; [by apply allowed_loop_spec |].
    apply Forall2_nil_inv_l in H as ->. done. }
  rewrite E. cbn [mbind result_bind]. f_equal.
  unfold combine. cbn. rewrite !perms_of_existsb. unfold verdict, applies.
  rewrite (existsb_ext (fun r => _ && _ && _ && negb _)
    (fun r => bool_decide (r.1 = tolower <$> eventType) &&
       (existsb (regex_match (c_str subject)) (subjects r.2)
        && existsb (regex_match (c_str object)) (objects r.2) && negb (allow r.2))))
    by (intros; by rewrite !andb_assoc).
  rewrite (existsb_ext (fun r => _ && _ && _ && allow _)
    (fun r => bool_decide (r.1 = tolower <$> eventType) &&
       (existsb (regex_match (c_str subject)) (subjects r.2)
        && existsb (regex_match (c_str object)) (objects r.2) && allow r.2)))
    by (intros; by rewrite !andb_assoc).
  repeat destruct (existsb _ R); done.
Qed.

(** *** [addExclusion] *)

Lemma Forall2_heap_insert (h : gmap nat Permission) (lp : list node) qs p q :
  h !! p = None ->
  Forall2 (fun n q => h !! n.2 = Some q) lp qs ->
  Forall2 (fun n q' => <[p := q]> h !! n.2 = Some q') lp qs.
Proof.
  intros Hp H. eapply Forall2_impl; [| exact H]. cbn. intros [a p'] q' Hq. cbn in *.
  rewrite lookup_insert_ne by congruence. done.
Qed.

Lemma heap_fresh m : monitor_inv m -> heap m !! next_addr m = None.
Proof.
  intros I. destruct (heap m !! next_addr m) eqn:E; [| done].
  apply (inv_heap _ I) in E. lia.
Qed.

Lemma nodes_insert h M key lp nx key' :
  nodes (mkMonitor h (<[key := lp]> M) nx) key' =
  if decide (key = key') then lp else default [] (M !! key').
Proof.
  unfold nodes. cbn. case_decide; [subst; by rewrite lookup_insert_eq |].
  by rewrite lookup_insert_ne.
Qed.

Lemma perms_of_snoc key R r :
  perms_of key (R ++ [r]) = perms_of key R ++ (if decide (r.1 = key) then [r.2] else []).
Proof.
  unfold perms_of. rewrite list.filter_app, fmap_app. f_equal.
  rewrite filter_cons, filter_nil. by case_decide.
Qed.

(** an allocation that no list refers to changes nothing *)
Lemma alloc_leak m R q :
  monitor_inv m -> denotes m R ->
  let m' := mkMonitor (<[next_addr m := q]> (heap m)) (permissionMap m) (S (next_addr m)) in
  monitor_inv m' /\ denotes m' R.
Proof.
  intros I D. split.
  - split; cbn.
    + intros p q' H. rewrite lookup_insert_Some in H.
      destruct H as [[<- _] | [_ H%(inv_heap _ I)]]; lia.
    + apply (inv_nodup _ I).
    + intros key n H%(inv_nodes _ I). lia.
  - intros key. apply Forall2_heap_insert; [by apply heap_fresh | apply D].
Qed.

(** the rule [addExclusion] adds, if the regular expressions compile *)
Definition rule_of (excluded action subject object : list Z) (perm : bool) : option rule :=
  s ← wregex_icase (c_str subject);
  o ← wregex_icase (c_str object);
  Some (tolower <$> action,
        mkPermission [s] [o] (bool_decide (excluded = bs "yes" \/ excluded = bs "+")) perm).

Lemma allow_flag excluded :
  (if bytes_eqb excluded (bs "yes") || bytes_eqb excluded (bs "+") then true else false)
  = bool_decide (excluded = bs "yes" \/ excluded = bs "+").
Proof. unfold bytes_eqb. repeat case_bool_decide; naive_solver. Qed.

Lemma addExclusion_spec m R excluded action subject object perm :
  monitor_inv m -> denotes m R ->
  let r := addExclusion m excluded action subject object perm in
  let added := rule_of excluded action subject object perm in
  monitor_inv r.1 /\ denotes r.1 (R ++ option_list added) /\
  (r.2 = true <-> added = None).
Proof.
  intros I D. unfold addExclusion, rule_of. rewrite allow_flag.
  destruct (wregex_icase (c_str subject)) as [s|]; cbn.
  2:{ rewrite app_nil_r. destruct (alloc_leak m R
        (mkPermission [] [] (bool_decide (excluded = bs "yes" \/ excluded = bs "+")) perm) I D).
      done. }
  destruct (wregex_icase (c_str object)) as [o|]; cbn.
  2:{ rewrite app_nil_r. destruct (alloc_leak m R
        (mkPermission [] [] (bool_decide (excluded = bs "yes" \/ excluded = bs "+")) perm) I D).
      done. }
  set (q := mkPermission [s] [o] _ perm). set (key := tolower <$> action).
  replace (match permissionMap m !! key with Some lp => _ | None => _ end)
    with (nodes m key ++ [(S (next_addr m), next_addr m)])
    by (unfold nodes; by destruct (permissionMap m !! key)).
  split; [| split; [| done]].
  - split; cbn.
    + intros p q' H. rewrite lookup_insert_Some in H.
      destruct H as [[<- _] | [_ H%(inv_heap _ I)]]; lia.
    + intros key'. rewrite nodes_insert. case_decide; [| apply (inv_nodup _ I)].
      rewrite fmap_app. apply list.NoDup_app. split; [apply (inv_nodup _ I) |]. split.
      * intros x Hx. cbn. rewrite list_elem_of_singleton. intros ->.
        apply list_elem_of_fmap in Hx as (n & E & Hn%(inv_nodes _ I)). lia.
      * apply NoDup_singleton.
    + intros key' n. rewrite nodes_insert. case_decide.
      * rewrite elem_of_app, list_elem_of_singleton. intros [Hn%(inv_nodes _ I) | ->]; cbn; lia.
      * intros Hn. apply (inv_nodes _ I) in Hn. lia.
  - intros key'. rewrite nodes_insert, perms_of_snoc. cbn. case_decide; subst.
    + apply Forall2_app.
      * apply Forall2_heap_insert; [by apply heap_fresh | apply D].
      * repeat constructor. cbn. by rewrite lookup_insert_eq.
    + rewrite app_nil_r. apply Forall2_heap_insert; [by apply heap_fresh | apply D].
Qed.

(** *** [loadExclusionList] *)

Lemma tokens_not_yes line excluded rest :
  tokens line = excluded :: rest -> head line = Some 43 \/ head line = Some 45 ->
  excluded <> bs "yes".
Proof.
  intros H Hh ->. destruct line as [|c line]; [by destruct Hh |].
  unfold tokens in H. cbn in Hh, H.
  destruct Hh as [[= ->] | [= ->]]; cbn in H; destruct (split_on 9 line);
    cbn in H; vm_compute in H; discriminate.
Qed.

Lemma load_line_spec m R line :
  monitor_inv m -> denotes m R ->
  monitor_inv (load_line m line) /\ denotes (load_line m line) (R ++ option_list (rule_of_line line)).
Proof.
  intros I D. unfold load_line, rule_of_line.
  destruct line as [|c line].
  { unfold tokens. cbn. by rewrite app_nil_r. }
  change (head (c :: line)) with (Some c).
  destruct (decide (c = 43 \/ c = 45)) as [Hc|Hc].
  - replace (c =? 35) with false by (symmetry; apply Z.eqb_neq; lia).
    replace ((c =? 43) || (c =? 45)) with true
      by (symmetry; apply orb_true_iff; rewrite !Z.eqb_eq; done).
    destruct (tokens (c :: line)) as [|ex [|ac [|su [|ob [|x l]]]]] eqn:E;
      rewrite ?app_nil_r; try done.
    rewrite (decide_True (P := Some c = Some 43 \/ Some c = Some 45))
      by (destruct Hc as [-> | ->]; auto).
    unfold bytes_eqb. case_decide as Ha.
    { replace (bool_decide _ || bool_decide _) with true; [by rewrite app_nil_r |].
      symmetry. apply orb_true_iff. by rewrite !bool_decide_eq_true. }
    replace (bool_decide _ || bool_decide _) with false.
    2:{ symmetry. apply orb_false_iff. rewrite !bool_decide_eq_false. naive_solver. }
    destruct (addExclusion_spec m R ex ac su ob false I D) as (I' & D' & _).
    split; [done |]. unfold rule_of in D'.
    replace (bool_decide (ex = bs "yes" \/ ex = bs "+")) with (bool_decide (ex = bs "+")) in D';
      [done |].
    apply bool_decide_ext. split; [auto |]. intros [Hy | ?]; [| done].
    destruct (tokens_not_yes _ _ _ E) with (2 := Hy).
    cbn. destruct Hc as [-> | ->]; auto.
  - replace ((c =? 43) || (c =? 45)) with false
      by (symmetry; apply orb_false_iff; rewrite !Z.eqb_neq; naive_solver).
    replace (option_list _) with (@nil rule).
    { rewrite app_nil_r. by destruct (c =? 35). }
    destruct (tokens (c :: line)) as [|ex [|ac [|su [|ob [|x l]]]]]; try done.
    rewrite (decide_False (P := Some c = Some 43 \/ Some c = Some 45)) by naive_solver.
    done.
Qed.

Lemma load_lines_spec lines : forall m R,
  monitor_inv m -> denotes m R ->
  monitor_inv (foldl load_line m lines) /\
  denotes (foldl load_line m lines) (R ++ omap rule_of_line lines).
Proof.
  induction lines as [|line lines IH]; intros m R I D; cbn.
  - by rewrite app_nil_r.
  - destruct (load_line_spec m R line I D) as [I' D'].
    destruct (IH _ _ I' D') as [I'' D'']. split; [done |].
    replace (R ++ _) with ((R ++ option_list (rule_of_line line)) ++ omap rule_of_line lines);
      [done |].
    rewrite <- app_assoc. by destruct (rule_of_line line).
Qed.

(** Loading an exclusion list into a monitor adds exactly the rules the
    well-formed lines of the file state, comments, lines without a sign, with
    another number of fields, with a wildcard action or with a regular
    expression that does not compile aside; and the events the monitor then
    allows are those some [+] rule applies to and no [-] rule applies to, in
    whatever order the lines stand. *)
Theorem exclusion_list_semantics m R file eventType subject object :
  monitor_inv m -> denotes m R ->
  let m' := loadExclusionList m file in
  let R' := R ++ rules_of_file file in
  monitor_inv m' /\ denotes m' R' /\
  isEventAllowed m' eventType subject object = Ok (verdict R' eventType subject object).
Proof.
  intros I D m' R'.
  assert (H : monitor_inv m' /\ denotes m' R').
  { unfold m', R', loadExclusionList, rules_of_file. destruct file; [by apply load_lines_spec |].
    by rewrite app_nil_r. }
  destruct H as [I' D']. split; [done |]. split; [done |]. by apply isEventAllowed_spec.
Qed.

(** *** [clearExclusionList] *)

Lemma node_value_app pre (a p : nat) rest :
  a ∉ pre.*1 -> node_value (pre ++ (a, p) :: rest) a = Ok p.
Proof.
  induction pre as [|[a' p'] pre IH]; cbn; intros H; [by rewrite Nat.eqb_refl |].
  apply not_elem_of_cons in H as [H1 H2].
  rewrite (proj2 (Nat.eqb_neq a' a)) by congruence. by apply IH.
Qed.

Lemma next_node_app pre (a p : nat) rest :
  a ∉ pre.*1 -> next_node (pre ++ (a, p) :: rest) a = Ok (begin_ rest).
Proof.
  induction pre as [|[a' p'] pre IH]; cbn; intros H; [by rewrite Nat.eqb_refl |].
  apply not_elem_of_cons in H as [H1 H2].
  rewrite (proj2 (Nat.eqb_neq a' a)) by congruence. by apply IH.
Qed.

Lemma next_node_freed lp (a : nat) : a ∉ lp.*1 -> next_node lp a = Fault UseAfterFree.
Proof.
  induction lp as [|[a' p'] lp IH]; cbn; intros H; [done |].
  apply not_elem_of_cons in H as [H1 H2].
  rewrite (proj2 (Nat.eqb_neq a' a)) by congruence. by apply IH.
Qed.

(** [lp->remove(p)] frees the node of [p]. *)
Lemma remove_frees (pre rest : list node) (a p : nat) :
  NoDup (pre ++ (a, p) :: rest).*1 ->
  a ∉ (filter (fun n : node => n.2 <> p) (pre ++ (a, p) :: rest)).*1.
Proof.
  intros Hn (n & -> & Hin)%list_elem_of_fmap.
  apply list_elem_of_filter in Hin as [Hp Hin]. apply Hp.
  rewrite fmap_app in Hn. cbn in Hn. apply list.NoDup_app in Hn as (_ & Hd & Hc).
  apply list.NoDup_cons in Hc as [Hc _]. apply elem_of_app in Hin as [Hin | Hin].
  - destruct (Hd n.1); [by apply list_elem_of_fmap_2 | left].
  - apply elem_of_cons in Hin as [-> | Hin]; [done |].
    destruct Hc. by apply list_elem_of_fmap_2.
Qed.

Lemma clear_list_spec h rest : forall fuel pre qs,
  NoDup (pre ++ rest).*1 ->
  Forall2 (fun (n : node) q => h !! n.2 = Some q) rest qs ->
  (length rest <= fuel)%nat ->
  clear_list fuel h (pre ++ rest) (begin_ rest) =
  if forallb permaneant qs then Ok (h, pre ++ rest) else Fault UseAfterFree.
Proof.
  induction rest as [|[a p] rest IH]; intros fuel pre qs Hn H Hf.
  - apply Forall2_nil_inv_l in H as ->. by destruct fuel.
  - apply Forall2_cons_inv_l in H as (q & qs' & Hq & H & ->). cbn in Hq, Hf.
    destruct fuel as [|fuel]; [lia |].
    assert (Ha : a ∉ pre.*1).
    { rewrite fmap_app in Hn. apply list.NoDup_app in Hn as (_ & Hd & _).
      intros Hx. apply (Hd a Hx). left. }
    cbn [begin_ head fmap option_fmap option_map fst clear_list forallb].
    rewrite node_value_app by done. cbn [mbind result_bind].
    unfold deref. rewrite Hq. cbn [mbind result_bind].
    destruct (permaneant q); cbn [negb andb].
    + rewrite next_node_app by done. cbn [mbind result_bind].
      replace (pre ++ (a, p) :: rest) with ((pre ++ [(a, p)]) ++ rest) in *
        by (by rewrite <- app_assoc).
      apply IH; [done | done | lia].
    + by rewrite next_node_freed by by apply remove_frees.
Qed.

Lemma clear_all_spec m R entries :
  monitor_inv m -> denotes m R ->
  (forall key lp, (key, lp) ∈ entries -> permissionMap m !! key = Some lp) ->
  clear_all m entries =
  if forallb (fun e => forallb permaneant (perms_of e.1 R)) entries
  then Ok m else Fault UseAfterFree.
Proof.
  intros I D. induction entries as [|[key lp] entries IH]; intros H; cbn; [done |].
  assert (Hlp : permissionMap m !! key = Some lp) by (apply H; left).
  assert (Hn : nodes m key = lp) by (unfold nodes; by rewrite Hlp).
  assert (E := clear_list_spec (heap m) lp (length lp) [] (perms_of key R)).
  cbn [app] in E. rewrite E; clear E.
  - destruct (forallb permaneant _); cbn; [| done].
    rewrite insert_id by done. destruct m as [h M nx]. cbn in *. apply IH.
    intros key' lp' Hin. apply H. by right.
  - cbn. rewrite <- Hn. apply (inv_nodup _ I).
  - rewrite <- Hn. apply D.
  - done.
Qed.

(** a rule in [R] is the permission of a list of the map *)
Lemma rule_in_entry m R r :
  denotes m R -> r ∈ R -> exists lp, permissionMap m !! r.1 = Some lp /\ r.2 ∈ perms_of r.1 R.
Proof.
  intros D Hr.
  assert (Hp : r.2 ∈ perms_of r.1 R).
  { apply list_elem_of_fmap. exists r. split; [done |]. by apply list_elem_of_filter. }
  specialize (D r.1). unfold nodes in D.
  destruct (permissionMap m !! r.1) as [lp|]; [by exists lp |].
  cbn in D. apply Forall2_nil_inv_l in D. rewrite D in Hp. by apply elem_of_nil in Hp.
Qed.

(** [clearExclusionList] leaves a monitor that has only permanent
    exclusions as it is; when there is any other exclusion, as after loading a
    list, it reads the list node it has just freed. *)
Theorem clear_exclusions m R :
  monitor_inv m -> denotes m R ->
  (Forall (fun r => permaneant r.2 = true) R -> clearExclusionList m = Ok m) /\
  (Exists (fun r => permaneant r.2 = false) R -> clearExclusionList m = Fault UseAfterFree).
Proof.
  intros I D. unfold clearExclusionList. rewrite (clear_all_spec m R) by
    (try done; intros key lp H; by apply elem_of_map_to_list in H).
  split; intros H.
  - replace (forallb _ _) with true; [done |]. symmetry. apply forallb_forall.
    intros [key lp] _. apply forallb_forall. intros q Hq%list_elem_of_In.
    apply list_elem_of_fmap in Hq as (r & -> & Hr). apply list_elem_of_filter in Hr as [_ Hr].
    rewrite list.Forall_forall in H. by apply H.
  - replace (forallb _ _) with false; [done |]. symmetry. apply not_true_iff_false.
    intros Hall. rewrite forallb_forall in Hall.
    apply list.Exists_exists in H as (r & Hr & Hf).
    destruct (rule_in_entry m R r D Hr) as (lp & Hlp & Hin).
    assert (Hin' : In (r.1, lp) (map_to_list (permissionMap m)))
      by (by apply list_elem_of_In, elem_of_map_to_list).
    specialize (Hall _ Hin'). rewrite forallb_forall in Hall.
    rewrite (Hall r.2) in Hf; [done |]. by apply list_elem_of_In.
Qed.
End Monitor.

(** *** [prepareStringForExclusion] *)

Definition escape (c : Z) (to : list Z) (x : Z) : list Z := if x =? c then to else [x].

Lemma escape_absent c to s : c ∉ s -> flat_map (escape c to) s = s.
Proof.
  induction s as [|x s IH]; cbn; intros H; [done |].
  apply not_elem_of_cons in H as [Hx Hs]. unfold escape at 1.
  rewrite (proj2 (Z.eqb_neq x c)) by congruence. cbn. by rewrite IH.
Qed.

(** the loop, started at the end of [pre], escapes what follows *)
Lemma replace_loop_spec c to fuel : forall rest pre,
  (length rest <= fuel)%nat ->
  replace_loop fuel [c] to (pre ++ rest) (length pre) =
  Ok (pre ++ flat_map (escape c to) rest).
Proof.
  induction fuel as [|fuel IH]; intros rest pre Hf.
  { destruct rest; [| cbn in Hf; lia].
    unfold replace_loop, find_from. rewrite drop_app_length. done. }
  cbn [replace_loop]. unfold find_from. rewrite drop_app_length.
  destruct (decide (c ∈ rest)) as [Hc|Hc].
  - apply list_elem_of_split_l in Hc as (a & b & -> & Ha).
    rewrite str_find_char by done. cbn [fmap option_fmap option_map].
    unfold str_replace. rewrite !length_app. cbn [length].
    rewrite (proj2 (Nat.ltb_ge _ _)) by lia. cbn [mbind result_bind].
    replace (take (length pre + length a) (pre ++ a ++ c :: b)) with (pre ++ a).
    2:{ rewrite app_assoc, <- length_app. by rewrite take_app_length. }
    replace (drop (length pre + length a + 1) (pre ++ a ++ c :: b)) with b.
    2:{ replace (pre ++ a ++ c :: b) with ((pre ++ a ++ [c]) ++ b) by (by rewrite <- !app_assoc).
        replace (length pre + length a + 1)%nat with (length (pre ++ a ++ [c]))
          by lengths.
        by rewrite drop_app_length. }
    replace ((pre ++ a) ++ to ++ b) with ((pre ++ a ++ to) ++ b) by (by rewrite <- !app_assoc).
    replace (length pre + length a + length to)%nat with (length (pre ++ a ++ to))
      by lengths.
    rewrite length_app in Hf. cbn in Hf. rewrite IH by lia.
    rewrite flat_map_app, (escape_absent c to a) by done. cbn [flat_map].
    unfold escape at 2. rewrite Z.eqb_refl. by rewrite <- !app_assoc.
  - rewrite str_find_char_None by done. cbn. by rewrite escape_absent.
Qed.

Lemma replace_loop_all c to s :
  replace_loop (length s) [c] to s 0 = Ok (flat_map (escape c to) s).
Proof. exact (replace_loop_spec c to (length s) s [] (Nat.le_refl _)). Qed.

(** [prepareStringForExclusion] terminates and puts a backslash before
    every backslash and every full stop of the string, once, and changes no
    other character: the second loop does not escape the backslashes of the
    first again. *)
Theorem prepare_escapes s :
  prepareStringForExclusion s =
  Ok (flat_map (fun x => if (x =? 92) || (x =? 46) then [92; x] else [x]) s).
Proof.
  unfold prepareStringForExclusion.
  rewrite replace_loop_all. cbn [mbind result_bind]. rewrite replace_loop_all. f_equal.
  induction s as [|x s IH]; cbn [flat_map]; [done |].
  rewrite flat_map_app, IH. f_equal. unfold escape.
  destruct (x =? 92) eqn:E; cbn.
  - apply Z.eqb_eq in E. by subst.
  - destruct (x =? 46) eqn:E'; cbn; rewrite ?E'; cbn; [| done].
    apply Z.eqb_eq in E'. by subst.
Qed.

(** ** Witnesses, with expressions that are [.*] or a literal *)

Definition literal_regex : WRegex := {|
  wregex := list Z;
  wregex_icase s := if decide (head s = Some 42) then None else Some s;
  regex_match s r := bool_decide (r = bs ".*") || bool_decide ((tolower <$> s) = (tolower <$> r))
|}.

Definition tab_join (l : list string) : bytes :=
  foldr (fun s acc => match acc with [] => bs s | _ => bs s ++ [9] ++ acc end) [] l.

(** a file with a comment, three rules, a line with an expression that does
    not compile and a line with a wildcard action *)
Definition sample_list : bytes :=
  bs "#list" ++ [10] ++ tab_join ["+"; "Write"; ".*"; "a.log"] ++ [10]
  ++ tab_join ["-"; "write"; "evil"; ".*"] ++ [10] ++ tab_join ["+"; "write"; ".*"; "*"] ++ [10]
  ++ tab_join ["+"; ".*"; ".*"; ".*"] ++ [10].

Lemma exclusion_list_semantics_witness :
  isEventAllowed (RX := literal_regex)
    (loadExclusionList (RX := literal_regex) newMonitor (Some sample_list))
    (bs "WRITE") (bs "cmd") (bs "a.LOG") = Ok true /\
  isEventAllowed (RX := literal_regex)
    (loadExclusionList (RX := literal_regex) newMonitor (Some sample_list))
    (bs "write") (bs "evil") (bs "a.log") = Ok false.
Proof.
  split.
  - destruct (exclusion_list_semantics (RX := literal_regex) newMonitor [] (Some sample_list)
      (bs "WRITE") (bs "cmd") (bs "a.LOG") newMonitor_inv newMonitor_denotes) as (_ & _ & ->).
    vm_compute. reflexivity.
  - destruct (exclusion_list_semantics (RX := literal_regex) newMonitor [] (Some sample_list)
      (bs "write") (bs "evil") (bs "a.log") newMonitor_inv newMonitor_denotes) as (_ & _ & ->).
    vm_compute. reflexivity.
Defined.

Lemma clear_exclusions_witness :
  clearExclusionList (RX := literal_regex)
    (loadExclusionList (RX := literal_regex) newMonitor (Some sample_list))
  = Fault UseAfterFree.
Proof.
  destruct (load_lines_spec (RX := literal_regex) (split_on 10 sample_list) newMonitor []
              newMonitor_inv newMonitor_denotes) as [I D].
  refine (proj2 (clear_exclusions (RX := literal_regex) _ _ I D) _).
  left. vm_compute. reflexivity.
Defined.
