(* ===== verification/HttpParserDef.v ===== *)
(** * The data of the HTTP parser of the Capture client

    http_parser.h and the first part of http_parser.c: the enumerations, the
    character tables and classes (HTTP_PARSER_STRICT is 1 in the project that
    compiles the file), the parser object, [parse_url_char], and the functions
    on a whole parser.  A [char] is its byte, 0..255: where the source compares
    a signed char with a range of ASCII characters both readings agree. *)
From Stdlib Require Import ZArith Lia Ascii.
From stdpp Require Import base list strings numbers.
From S2P Require Import Prelude.

Local Open Scope Z_scope.

(** ** Enumerations *)

(** HTTP_METHOD_MAP; the number of a constructor is its position. *)
Inductive http_method :=
  | HTTP_DELETE | HTTP_GET | HTTP_HEAD | HTTP_POST | HTTP_PUT
  | HTTP_CONNECT | HTTP_OPTIONS | HTTP_TRACE
  | HTTP_COPY | HTTP_LOCK | HTTP_MKCOL | HTTP_MOVE | HTTP_PROPFIND
  | HTTP_PROPPATCH | HTTP_SEARCH | HTTP_UNLOCK
  | HTTP_REPORT | HTTP_MKACTIVITY | HTTP_CHECKOUT | HTTP_MERGE
  | HTTP_MSEARCH | HTTP_NOTIFY | HTTP_SUBSCRIBE | HTTP_UNSUBSCRIBE
  | HTTP_PATCH | HTTP_PURGE.

#[global] Instance http_method_eq_dec : EqDecision http_method.
Proof. solve_decision. Defined.

Definition method_strings (m : http_method) : bytes :=
  match m with
  | HTTP_DELETE => bs "DELETE" | HTTP_GET => bs "GET" | HTTP_HEAD => bs "HEAD"
  | HTTP_POST => bs "POST" | HTTP_PUT => bs "PUT" | HTTP_CONNECT => bs "CONNECT"
  | HTTP_OPTIONS => bs "OPTIONS" | HTTP_TRACE => bs "TRACE" | HTTP_COPY => bs "COPY"
  | HTTP_LOCK => bs "LOCK" | HTTP_MKCOL => bs "MKCOL" | HTTP_MOVE => bs "MOVE"
  | HTTP_PROPFIND => bs "PROPFIND" | HTTP_PROPPATCH => bs "PROPPATCH"
  | HTTP_SEARCH => bs "SEARCH" | HTTP_UNLOCK => bs "UNLOCK"
  | HTTP_REPORT => bs "REPORT" | HTTP_MKACTIVITY => bs "MKACTIVITY"
  | HTTP_CHECKOUT => bs "CHECKOUT" | HTTP_MERGE => bs "MERGE"
  | HTTP_MSEARCH => bs "M-SEARCH" | HTTP_NOTIFY => bs "NOTIFY"
  | HTTP_SUBSCRIBE => bs "SUBSCRIBE" | HTTP_UNSUBSCRIBE => bs "UNSUBSCRIBE"
  | HTTP_PATCH => bs "PATCH" | HTTP_PURGE => bs "PURGE"
  end.

(** the number of a method, as the callers of the parser see it *)
Definition method_num (m : http_method) : Z :=
  match m with
  | HTTP_DELETE => 0 | HTTP_GET => 1 | HTTP_HEAD => 2 | HTTP_POST => 3
  | HTTP_PUT => 4 | HTTP_CONNECT => 5 | HTTP_OPTIONS => 6 | HTTP_TRACE => 7
  | HTTP_COPY => 8 | HTTP_LOCK => 9 | HTTP_MKCOL => 10 | HTTP_MOVE => 11
  | HTTP_PROPFIND => 12 | HTTP_PROPPATCH => 13 | HTTP_SEARCH => 14
  | HTTP_UNLOCK => 15 | HTTP_REPORT => 16 | HTTP_MKACTIVITY => 17
  | HTTP_CHECKOUT => 18 | HTTP_MERGE => 19 | HTTP_MSEARCH => 20
  | HTTP_NOTIFY => 21 | HTTP_SUBSCRIBE => 22 | HTTP_UNSUBSCRIBE => 23
  | HTTP_PATCH => 24 | HTTP_PURGE => 25
  end.

Inductive http_parser_type := HTTP_REQUEST | HTTP_RESPONSE | HTTP_BOTH.

#[global] Instance http_parser_type_eq_dec : EqDecision http_parser_type.
Proof. solve_decision. Defined.

(** enum flags *)
Definition F_CHUNKED : Z := 1.
Definition F_CONNECTION_KEEP_ALIVE : Z := 2.
Definition F_CONNECTION_CLOSE : Z := 4.
Definition F_TRAILING : Z := 8.
Definition F_UPGRADE : Z := 16.
Definition F_SKIPBODY : Z := 32.

(** [flags & f] as a condition *)
Definition has (flags f : Z) : bool := negb (Z.land flags f =? 0).

(** HTTP_ERRNO_MAP *)
Inductive http_errno :=
  | HPE_OK
  | HPE_CB_message_begin | HPE_CB_url | HPE_CB_header_field | HPE_CB_header_value
  | HPE_CB_headers_complete | HPE_CB_body | HPE_CB_message_complete
  | HPE_INVALID_EOF_STATE | HPE_HEADER_OVERFLOW | HPE_CLOSED_CONNECTION
  | HPE_INVALID_VERSION | HPE_INVALID_STATUS | HPE_INVALID_METHOD
  | HPE_INVALID_URL | HPE_INVALID_HOST | HPE_INVALID_PORT | HPE_INVALID_PATH
  | HPE_INVALID_QUERY_STRING | HPE_INVALID_FRAGMENT | HPE_LF_EXPECTED
  | HPE_INVALID_HEADER_TOKEN | HPE_INVALID_CONTENT_LENGTH
  | HPE_INVALID_CHUNK_SIZE | HPE_INVALID_CONSTANT | HPE_INVALID_INTERNAL_STATE
  | HPE_STRICT | HPE_PAUSED | HPE_UNKNOWN.

#[global] Instance http_errno_eq_dec : EqDecision http_errno.
Proof. solve_decision. Defined.

(** enum state; the first constructor has number 1, the others follow. *)
Inductive state :=
  | s_dead
  | s_start_req_or_res | s_res_or_resp_H | s_start_res
  | s_res_H | s_res_HT | s_res_HTT | s_res_HTTP
  | s_res_first_http_major | s_res_http_major
  | s_res_first_http_minor | s_res_http_minor
  | s_res_first_status_code | s_res_status_code | s_res_status
  | s_res_line_almost_done
  | s_start_req
  | s_req_method | s_req_spaces_before_url
  | s_req_schema | s_req_schema_slash | s_req_schema_slash_slash
  | s_req_server_start | s_req_server | s_req_server_with_at
  | s_req_path | s_req_query_string_start | s_req_query_string
  | s_req_fragment_start | s_req_fragment
  | s_req_http_start | s_req_http_H | s_req_http_HT | s_req_http_HTT
  | s_req_http_HTTP
  | s_req_first_http_major | s_req_http_major
  | s_req_first_http_minor | s_req_http_minor | s_req_line_almost_done
  | s_header_field_start | s_header_field | s_header_value_start
  | s_header_value | s_header_value_lws
  | s_header_almost_done
  | s_chunk_size_start | s_chunk_size | s_chunk_parameters
  | s_chunk_size_almost_done
  | s_headers_almost_done | s_headers_done
  | s_chunk_data | s_chunk_data_almost_done | s_chunk_data_done
  | s_body_identity | s_body_identity_eof
  | s_message_done.

#[global] Instance state_eq_dec : EqDecision state.
Proof. solve_decision. Defined.

(** [state <= s_headers_done]: the states after it are the body states. *)
Definition PARSING_HEADER (s : state) : bool :=
  match s with
  | s_chunk_data | s_chunk_data_almost_done | s_chunk_data_done
  | s_body_identity | s_body_identity_eof | s_message_done => false
  | _ => true
  end.

Inductive header_states :=
  | h_general | h_C | h_CO | h_CON
  | h_matching_connection | h_matching_proxy_connection
  | h_matching_content_length | h_matching_transfer_encoding
  | h_matching_upgrade
  | h_connection | h_content_length | h_transfer_encoding | h_upgrade
  | h_matching_transfer_encoding_chunked | h_matching_connection_keep_alive
  | h_matching_connection_close
  | h_transfer_encoding_chunked | h_connection_keep_alive | h_connection_close.

#[global] Instance header_states_eq_dec : EqDecision header_states.
Proof. solve_decision. Defined.

(** ** The strings the header matchers compare with *)

Definition PROXY_CONNECTION : bytes := bs "proxy-connection".
Definition CONNECTION : bytes := bs "connection".
Definition CONTENT_LENGTH : bytes := bs "content-length".
Definition TRANSFER_ENCODING : bytes := bs "transfer-encoding".
Definition UPGRADE : bytes := bs "upgrade".
Definition CHUNKED : bytes := bs "chunked".
Definition KEEP_ALIVE : bytes := bs "keep-alive".
Definition CLOSE : bytes := bs "close".

(** ** Character tables and classes *)

Definition CR : Z := 13.
Definition LF : Z := 10.

(** The table of token characters, which also lowers them; entries that the
    initialiser leaves out are 0. *)
Definition token_table : list Z :=
  replicate 33 0 ++
  [chr "!"; 0; chr "#"; chr "$"; chr "%"; chr "&"; chr "'"] ++
  [0; 0; chr "*"; chr "+"; 0; chr "-"; chr "."; 0] ++
  bs "0123456789" ++ [0; 0; 0; 0; 0; 0] ++
  [0] ++ bs "abcdefghijklmnopqrstuvwxyz" ++ [0; 0; 0; chr "^"; chr "_"] ++
  [chr "`"] ++ bs "abcdefghijklmnopqrstuvwxyz" ++
  [0; chr "|"; 0; chr "~"; 0].

Definition TOKEN (c : Z) : Z := nth (Z.to_nat c) token_table 0.

(** [unhex]: the initialiser gives 128 values, the other 128 are 0. *)
Definition unhex_table : list Z :=
  replicate 48 (-1) ++ [0; 1; 2; 3; 4; 5; 6; 7; 8; 9] ++ replicate 7 (-1) ++
  [10; 11; 12; 13; 14; 15] ++ replicate 26 (-1) ++
  [10; 11; 12; 13; 14; 15] ++ replicate 25 (-1).

Definition unhex (c : Z) : Z := nth (Z.to_nat c) unhex_table 0.

(** [normal_url_char] with T = 0 *)
Definition normal_url_table : list Z :=
  replicate 33 0 ++ [1; 1; 0; 1; 1; 1; 1] ++ replicate 23 1 ++ [0] ++
  replicate 63 1 ++ [0].

Definition IS_URL_CHAR (c : Z) : bool := negb (nth (Z.to_nat c) normal_url_table 0 =? 0).

Definition LOWER (c : Z) : Z := Z.lor c 32.
Definition IS_ALPHA (c : Z) : bool := (chr "a" <=? LOWER c) && (LOWER c <=? chr "z").
Definition IS_NUM (c : Z) : bool := (chr "0" <=? c) && (c <=? chr "9").
Definition IS_ALPHANUM (c : Z) : bool := IS_ALPHA c || IS_NUM c.
Definition IS_HEX (c : Z) : bool :=
  IS_NUM c || ((chr "a" <=? LOWER c) && (LOWER c <=? chr "f")).
Definition IS_MARK (c : Z) : bool :=
  (c =? chr "-") || (c =? chr "_") || (c =? chr ".") || (c =? chr "!") ||
  (c =? chr "~") || (c =? chr "*") || (c =? chr "'") || (c =? chr "(") ||
  (c =? chr ")").
Definition IS_USERINFO_CHAR (c : Z) : bool :=
  IS_ALPHANUM c || IS_MARK c || (c =? chr "%") || (c =? chr ";") ||
  (c =? chr ":") || (c =? chr "&") || (c =? chr "=") || (c =? chr "+") ||
  (c =? chr "$") || (c =? chr ",").
Definition IS_HOST_CHAR (c : Z) : bool :=
  IS_ALPHANUM c || (c =? chr ".") || (c =? chr "-").

(** [lit[i]] of a C string of known size, the terminating NUL included. *)
Definition c_index (lit : bytes) (i : Z) : result Z :=
  match (lit ++ [0]) !! Z.to_nat i with
  | Some c => Ok c
  | None => Fault OutOfBoundsRead
  end.

(** ** The parser object

    The field [data] is the user state the callbacks carry. *)
Record http_parser := mk_http_parser {
  hp_type : http_parser_type;
  hp_flags : Z;                  (* 6 bits *)
  hp_state : state;
  hp_header_state : header_states;
  hp_index : Z;                  (* unsigned char *)
  hp_nread : Z;                  (* uint32_t *)
  hp_content_length : Z;         (* uint64_t *)
  hp_major : Z;                  (* unsigned short *)
  hp_minor : Z;                  (* unsigned short *)
  hp_status_code : Z;            (* unsigned short *)
  hp_method : http_method;
  hp_errno : http_errno;
  hp_upgrade : bool;
}.

#[global] Instance http_parser_eq_dec : EqDecision http_parser.
Proof. solve_decision. Defined.

Definition set_type v p := mk_http_parser v (hp_flags p) (hp_state p)
  (hp_header_state p) (hp_index p) (hp_nread p) (hp_content_length p) (hp_major p)
  (hp_minor p) (hp_status_code p) (hp_method p) (hp_errno p) (hp_upgrade p).
Definition set_flags v p := mk_http_parser (hp_type p) v (hp_state p)
  (hp_header_state p) (hp_index p) (hp_nread p) (hp_content_length p) (hp_major p)
  (hp_minor p) (hp_status_code p) (hp_method p) (hp_errno p) (hp_upgrade p).
Definition set_state v p := mk_http_parser (hp_type p) (hp_flags p) v
  (hp_header_state p) (hp_index p) (hp_nread p) (hp_content_length p) (hp_major p)
  (hp_minor p) (hp_status_code p) (hp_method p) (hp_errno p) (hp_upgrade p).
Definition set_header_state v p := mk_http_parser (hp_type p) (hp_flags p) (hp_state p)
  v (hp_index p) (hp_nread p) (hp_content_length p) (hp_major p)
  (hp_minor p) (hp_status_code p) (hp_method p) (hp_errno p) (hp_upgrade p).
Definition set_index v p := mk_http_parser (hp_type p) (hp_flags p) (hp_state p)
  (hp_header_state p) (u8 v) (hp_nread p) (hp_content_length p) (hp_major p)
  (hp_minor p) (hp_status_code p) (hp_method p) (hp_errno p) (hp_upgrade p).
Definition set_nread v p := mk_http_parser (hp_type p) (hp_flags p) (hp_state p)
  (hp_header_state p) (hp_index p) (u32 v) (hp_content_length p) (hp_major p)
  (hp_minor p) (hp_status_code p) (hp_method p) (hp_errno p) (hp_upgrade p).
Definition set_content_length v p := mk_http_parser (hp_type p) (hp_flags p) (hp_state p)
  (hp_header_state p) (hp_index p) (hp_nread p) (u64 v) (hp_major p)
  (hp_minor p) (hp_status_code p) (hp_method p) (hp_errno p) (hp_upgrade p).
Definition set_major v p := mk_http_parser (hp_type p) (hp_flags p) (hp_state p)
  (hp_header_state p) (hp_index p) (hp_nread p) (hp_content_length p) (u16 v)
  (hp_minor p) (hp_status_code p) (hp_method p) (hp_errno p) (hp_upgrade p).
Definition set_minor v p := mk_http_parser (hp_type p) (hp_flags p) (hp_state p)
  (hp_header_state p) (hp_index p) (hp_nread p) (hp_content_length p) (hp_major p)
  (u16 v) (hp_status_code p) (hp_method p) (hp_errno p) (hp_upgrade p).
Definition set_status_code v p := mk_http_parser (hp_type p) (hp_flags p) (hp_state p)
  (hp_header_state p) (hp_index p) (hp_nread p) (hp_content_length p) (hp_major p)
  (hp_minor p) (u16 v) (hp_method p) (hp_errno p) (hp_upgrade p).
Definition set_method v p := mk_http_parser (hp_type p) (hp_flags p) (hp_state p)
  (hp_header_state p) (hp_index p) (hp_nread p) (hp_content_length p) (hp_major p)
  (hp_minor p) (hp_status_code p) v (hp_errno p) (hp_upgrade p).
Definition SET_ERRNO v p := mk_http_parser (hp_type p) (hp_flags p) (hp_state p)
  (hp_header_state p) (hp_index p) (hp_nread p) (hp_content_length p) (hp_major p)
  (hp_minor p) (hp_status_code p) (hp_method p) v (hp_upgrade p).
Definition set_upgrade v p := mk_http_parser (hp_type p) (hp_flags p) (hp_state p)
  (hp_header_state p) (hp_index p) (hp_nread p) (hp_content_length p) (hp_major p)
  (hp_minor p) (hp_status_code p) (hp_method p) (hp_errno p) v.

(** [set_*] read in the order of the assignments of the source. *)
Notation "p |> f" := (f p) (at level 50, left associativity, only parsing).

Definition ULLONG_MAX : Z := 18446744073709551615.
Definition HTTP_MAX_HEADER_SIZE : Z := 81920.

(** memset to 0 gives type 0, header state 0, method 0. *)
Definition http_parser_init (t : http_parser_type) : http_parser :=
  mk_http_parser t 0
    (match t with
     | HTTP_REQUEST => s_start_req
     | HTTP_RESPONSE => s_start_res
     | HTTP_BOTH => s_start_req_or_res
     end)
    h_general 0 0 0 0 0 0 HTTP_DELETE HPE_OK false.

Definition http_message_needs_eof (p : http_parser) : bool :=
  if decide (hp_type p = HTTP_REQUEST) then false
  else if (hp_status_code p / 100 =? 1) || (hp_status_code p =? 204) ||
          (hp_status_code p =? 304) || has (hp_flags p) F_SKIPBODY then false
  else if has (hp_flags p) F_CHUNKED || negb (hp_content_length p =? ULLONG_MAX)
  then false
  else true.

Definition http_should_keep_alive (p : http_parser) : bool :=
  if (hp_major p >? 0) && (hp_minor p >? 0) then
    if has (hp_flags p) F_CONNECTION_CLOSE then false
    else negb (http_message_needs_eof p)
  else
    if negb (has (hp_flags p) F_CONNECTION_KEEP_ALIVE) then false
    else negb (http_message_needs_eof p).

Definition start_state (p : http_parser) : state :=
  if decide (hp_type p = HTTP_REQUEST) then s_start_req else s_start_res.

Definition NEW_MESSAGE (p : http_parser) : state :=
  if http_should_keep_alive p then start_state p else s_dead.

Definition http_parser_pause (paused : bool) (p : http_parser) : result http_parser :=
  if decide (hp_errno p = HPE_OK \/ hp_errno p = HPE_PAUSED)
  then Ok (SET_ERRNO (if paused then HPE_PAUSED else HPE_OK) p)
  else Fault AssertFailed.

(** ** The URL automaton *)

(** the cases of the server part, shared by three states *)
Definition parse_server_char (ch : Z) : state :=
  if ch =? chr "/" then s_req_path
  else if ch =? chr "?" then s_req_query_string_start
  else if ch =? chr "@" then s_req_server_with_at
  else if IS_USERINFO_CHAR ch || (ch =? chr "[") || (ch =? chr "]") then s_req_server
  else s_dead.

Definition parse_url_char (s : state) (ch : Z) : state :=
  if (ch =? chr " ") || (ch =? CR) || (ch =? LF) then s_dead
  else if (ch =? 9) || (ch =? 12) then s_dead
  else match s with
  | s_req_spaces_before_url =>
    if (ch =? chr "/") || (ch =? chr "*") then s_req_path
    else if IS_ALPHA ch then s_req_schema
    else s_dead
  | s_req_schema =>
    if IS_ALPHA ch then s
    else if ch =? chr ":" then s_req_schema_slash
    else s_dead
  | s_req_schema_slash =>
    if ch =? chr "/" then s_req_schema_slash_slash else s_dead
  | s_req_schema_slash_slash =>
    if ch =? chr "/" then s_req_server_start else s_dead
  | s_req_server_with_at =>
    if ch =? chr "@" then s_dead else parse_server_char ch
  | s_req_server_start | s_req_server => parse_server_char ch
  | s_req_path =>
    if IS_URL_CHAR ch then s
    else if ch =? chr "?" then s_req_query_string_start
    else if ch =? chr "#" then s_req_fragment_start
    else s_dead
  | s_req_query_string_start | s_req_query_string =>
    if IS_URL_CHAR ch then s_req_query_string
    else if ch =? chr "?" then s_req_query_string
    else if ch =? chr "#" then s_req_fragment_start
    else s_dead
  | s_req_fragment_start =>
    if IS_URL_CHAR ch then s_req_fragment
    else if ch =? chr "?" then s_req_fragment
    else if ch =? chr "#" then s
    else s_dead
  | s_req_fragment =>
    if IS_URL_CHAR ch then s
    else if (ch =? chr "?") || (ch =? chr "#") then s
    else s_dead
  | _ => s_dead
  end.
