(* ===== verification/HttpParserCases.v ===== *)
(** * The cases of the HTTP parser of the Capture client

    One definition per [case] of the switch in [http_parser_execute] of
    http_parser.c: what the case does to the parser object, which of the
    macros MARK, CALLBACK_DATA and CALLBACK_NOTIFY it runs, and how it leaves
    the switch.  The macros themselves and the loop are in HttpParserExec. *)
From Stdlib Require Import ZArith Lia Ascii.
From stdpp Require Import base list strings numbers.
From S2P Require Import Prelude HttpParserDef.

Local Open Scope Z_scope.

(** the four mark variables of [http_parser_execute] *)
Inductive mark := M_header_field | M_header_value | M_url | M_body.

#[global] Instance mark_eq_dec : EqDecision mark.
Proof. solve_decision. Defined.

Inductive notification := N_message_begin | N_message_complete.

#[global] Instance notification_eq_dec : EqDecision notification.
Proof. solve_decision. Defined.

Inductive action :=
  | MARK (m : mark)
  | ADVANCE (n : nat)                     (* p += n *)
  | CALLBACK_DATA_ (m : mark) (l r : nat) (* LEN = p - mark + l, ER = p - data + r *)
  | CALLBACK_NOTIFY (n : notification)
  | HEADERS_COMPLETE.                     (* the callback of s_headers_almost_done *)

Definition CALLBACK_DATA (m : mark) : action := CALLBACK_DATA_ m 0 1.
Definition CALLBACK_DATA_NOADVANCE (m : mark) : action := CALLBACK_DATA_ m 0 0.

Inductive control :=
  | Break         (* the next byte *)
  | Reexecute     (* goto reexecute_byte *)
  | GotoError     (* goto error *)
  | Return.       (* return (p - data) + 1 *)

#[global] Instance control_eq_dec : EqDecision control.
Proof. solve_decision. Defined.

(** A case changes the parser, then runs macros, then leaves. *)
Definition outcome : Type := http_parser * list action * control.

Definition brk (p : http_parser) : outcome := (p, [], Break).
Definition err (e : http_errno) (p : http_parser) : outcome := (SET_ERRNO e p, [], GotoError).
Definition STRICT_CHECK (cond : bool) (p : http_parser) (k : outcome) : outcome :=
  if cond then err HPE_STRICT p else k.

Definition c_assert {A} (cond : bool) (k : result A) : result A :=
  if cond then k else Fault AssertFailed.

(** ** Start of a message, status line *)

Definition case_s_dead (ch : Z) (p : http_parser) : outcome :=
  if (ch =? CR) || (ch =? LF) then brk p else err HPE_CLOSED_CONNECTION p.

Definition case_s_start_req_or_res (ch : Z) (p : http_parser) : outcome :=
  if (ch =? CR) || (ch =? LF) then brk p
  else
    let p := p |> set_flags 0 |> set_content_length ULLONG_MAX in
    if ch =? chr "H" then
      (p |> set_state s_res_or_resp_H, [CALLBACK_NOTIFY N_message_begin], Break)
    else (p |> set_type HTTP_REQUEST |> set_state s_start_req, [], Reexecute).

Definition case_s_res_or_resp_H (ch : Z) (p : http_parser) : outcome :=
  if ch =? chr "T" then brk (p |> set_type HTTP_RESPONSE |> set_state s_res_HT)
  else if negb (ch =? chr "E") then err HPE_INVALID_CONSTANT p
  else brk (p |> set_type HTTP_REQUEST |> set_method HTTP_HEAD |> set_index 2
              |> set_state s_req_method).

Definition case_s_start_res (ch : Z) (p : http_parser) : outcome :=
  let p := p |> set_flags 0 |> set_content_length ULLONG_MAX in
  if ch =? chr "H" then
    (p |> set_state s_res_H, [CALLBACK_NOTIFY N_message_begin], Break)
  else if (ch =? CR) || (ch =? LF) then
    (p, [CALLBACK_NOTIFY N_message_begin], Break)
  else err HPE_INVALID_CONSTANT p.

(** s_res_H, s_res_HT, s_res_HTT, s_res_HTTP and their request twins: one
    expected character *)
Definition expect (c : Z) (next : state) (ch : Z) (p : http_parser) : outcome :=
  STRICT_CHECK (negb (ch =? c)) p (brk (p |> set_state next)).

Definition case_s_res_first_http_major (ch : Z) (p : http_parser) : outcome :=
  if (ch <? chr "0") || (ch >? chr "9") then err HPE_INVALID_VERSION p
  else brk (p |> set_major (ch - chr "0") |> set_state s_res_http_major).

Definition case_s_res_http_major (ch : Z) (p : http_parser) : outcome :=
  if ch =? chr "." then brk (p |> set_state s_res_first_http_minor)
  else if negb (IS_NUM ch) then err HPE_INVALID_VERSION p
  else
    let p := p |> set_major (hp_major p * 10) in
    let p := p |> set_major (hp_major p + (ch - chr "0")) in
    if hp_major p >? 999 then err HPE_INVALID_VERSION p else brk p.

Definition case_s_res_first_http_minor (ch : Z) (p : http_parser) : outcome :=
  if negb (IS_NUM ch) then err HPE_INVALID_VERSION p
  else brk (p |> set_minor (ch - chr "0") |> set_state s_res_http_minor).

Definition case_s_res_http_minor (ch : Z) (p : http_parser) : outcome :=
  if ch =? chr " " then brk (p |> set_state s_res_first_status_code)
  else if negb (IS_NUM ch) then err HPE_INVALID_VERSION p
  else
    let p := p |> set_minor (hp_minor p * 10) in
    let p := p |> set_minor (hp_minor p + (ch - chr "0")) in
    if hp_minor p >? 999 then err HPE_INVALID_VERSION p else brk p.

Definition case_s_res_first_status_code (ch : Z) (p : http_parser) : outcome :=
  if negb (IS_NUM ch) then
    if ch =? chr " " then brk p else err HPE_INVALID_STATUS p
  else brk (p |> set_status_code (ch - chr "0") |> set_state s_res_status_code).

Definition case_s_res_status_code (ch : Z) (p : http_parser) : outcome :=
  if negb (IS_NUM ch) then
    if ch =? chr " " then brk (p |> set_state s_res_status)
    else if ch =? CR then brk (p |> set_state s_res_line_almost_done)
    else if ch =? LF then brk (p |> set_state s_header_field_start)
    else err HPE_INVALID_STATUS p
  else
    let p := p |> set_status_code (hp_status_code p * 10) in
    let p := p |> set_status_code (hp_status_code p + (ch - chr "0")) in
    if hp_status_code p >? 999 then err HPE_INVALID_STATUS p else brk p.

Definition case_s_res_status (ch : Z) (p : http_parser) : outcome :=
  if ch =? CR then brk (p |> set_state s_res_line_almost_done)
  else if ch =? LF then brk (p |> set_state s_header_field_start)
  else brk p.

(** ** Request line *)

(** the method a first character stands for *)
Definition first_method (ch : Z) : option http_method :=
  if ch =? chr "C" then Some HTTP_CONNECT
  else if ch =? chr "D" then Some HTTP_DELETE
  else if ch =? chr "G" then Some HTTP_GET
  else if ch =? chr "H" then Some HTTP_HEAD
  else if ch =? chr "L" then Some HTTP_LOCK
  else if ch =? chr "M" then Some HTTP_MKCOL
  else if ch =? chr "N" then Some HTTP_NOTIFY
  else if ch =? chr "O" then Some HTTP_OPTIONS
  else if ch =? chr "P" then Some HTTP_POST
  else if ch =? chr "R" then Some HTTP_REPORT
  else if ch =? chr "S" then Some HTTP_SUBSCRIBE
  else if ch =? chr "T" then Some HTTP_TRACE
  else if ch =? chr "U" then Some HTTP_UNLOCK
  else None.

Definition case_s_start_req (ch : Z) (p : http_parser) : outcome :=
  if (ch =? CR) || (ch =? LF) then brk p
  else
    let p := p |> set_flags 0 |> set_content_length ULLONG_MAX in
    if negb (IS_ALPHA ch) then err HPE_INVALID_METHOD p
    else
      let p := p |> set_method HTTP_DELETE |> set_index 1 in
      match first_method ch with
      | Some m => (p |> set_method m |> set_state s_req_method,
                   [CALLBACK_NOTIFY N_message_begin], Break)
      | None => err HPE_INVALID_METHOD p
      end.

(** The correction of the guessed method when the character does not match:
    [None] is [goto error] without SET_ERRNO, [Some None] is the invalid
    method error, [Some (Some m)] goes on with [m]. *)
Definition method_branch (m : http_method) (index ch : Z) : option (option http_method) :=
  if decide (m = HTTP_CONNECT) then
    if (index =? 1) && (ch =? chr "H") then Some (Some HTTP_CHECKOUT)
    else if (index =? 2) && (ch =? chr "P") then Some (Some HTTP_COPY)
    else None
  else if decide (m = HTTP_MKCOL) then
    if (index =? 1) && (ch =? chr "O") then Some (Some HTTP_MOVE)
    else if (index =? 1) && (ch =? chr "E") then Some (Some HTTP_MERGE)
    else if (index =? 1) && (ch =? chr "-") then Some (Some HTTP_MSEARCH)
    else if (index =? 2) && (ch =? chr "A") then Some (Some HTTP_MKACTIVITY)
    else None
  else if decide (m = HTTP_SUBSCRIBE) then
    if (index =? 1) && (ch =? chr "E") then Some (Some HTTP_SEARCH)
    else None
  else if (index =? 1) && bool_decide (m = HTTP_POST) then
    if ch =? chr "R" then Some (Some HTTP_PROPFIND)
    else if ch =? chr "U" then Some (Some HTTP_PUT)
    else if ch =? chr "A" then Some (Some HTTP_PATCH)
    else None
  else if index =? 2 then
    if decide (m = HTTP_PUT) then
      if ch =? chr "R" then Some (Some HTTP_PURGE) else Some (Some m)
    else if decide (m = HTTP_UNLOCK) then
      if ch =? chr "S" then Some (Some HTTP_UNSUBSCRIBE) else Some (Some m)
    else Some (Some m)
  else if (index =? 4) && bool_decide (m = HTTP_PROPFIND) && (ch =? chr "P") then
    Some (Some HTTP_PROPPATCH)
  else Some None.

Definition case_s_req_method (ch : Z) (p : http_parser) : result outcome :=
  if ch =? 0 then Ok (err HPE_INVALID_METHOD p)
  else
    c ← c_index (method_strings (hp_method p)) (hp_index p);
    if (ch =? chr " ") && (c =? 0) then
      Ok (brk (p |> set_state s_req_spaces_before_url |> set_index (hp_index p + 1)))
    else if ch =? c then Ok (brk (p |> set_index (hp_index p + 1)))
    else match method_branch (hp_method p) (hp_index p) ch with
         | None => Ok (p, [], GotoError)
         | Some None => Ok (err HPE_INVALID_METHOD p)
         | Some (Some m) => Ok (brk (p |> set_method m |> set_index (hp_index p + 1)))
         end.

(** [parser->state = parse_url_char(...)] and the check that follows *)
Definition url_char (acts : list action) (ch : Z) (p : http_parser) : outcome :=
  let p := p |> set_state (parse_url_char (hp_state p) ch) in
  if decide (hp_state p = s_dead) then (SET_ERRNO HPE_INVALID_URL p, acts, GotoError)
  else (p, acts, Break).

Definition case_s_req_spaces_before_url (ch : Z) (p : http_parser) : outcome :=
  if ch =? chr " " then brk p
  else
    let p := if decide (hp_method p = HTTP_CONNECT)
             then p |> set_state s_req_server_start else p in
    url_char [MARK M_url] ch p.

(** s_req_schema, s_req_schema_slash, s_req_schema_slash_slash,
    s_req_server_start *)
Definition case_url_no_end (ch : Z) (p : http_parser) : outcome :=
  if (ch =? chr " ") || (ch =? CR) || (ch =? LF) then err HPE_INVALID_URL p
  else url_char [] ch p.

(** s_req_server, s_req_server_with_at, s_req_path, s_req_query_string_start,
    s_req_query_string, s_req_fragment_start, s_req_fragment *)
Definition case_url_may_end (ch : Z) (p : http_parser) : outcome :=
  if ch =? chr " " then (p |> set_state s_req_http_start, [CALLBACK_DATA M_url], Break)
  else if (ch =? CR) || (ch =? LF) then
    (p |> set_major 0 |> set_minor 9
       |> set_state (if ch =? CR then s_req_line_almost_done else s_header_field_start),
     [CALLBACK_DATA M_url], Break)
  else url_char [] ch p.

Definition case_s_req_http_start (ch : Z) (p : http_parser) : outcome :=
  if ch =? chr "H" then brk (p |> set_state s_req_http_H)
  else if ch =? chr " " then brk p
  else err HPE_INVALID_CONSTANT p.

Definition case_s_req_first_http_major (ch : Z) (p : http_parser) : outcome :=
  if (ch <? chr "1") || (ch >? chr "9") then err HPE_INVALID_VERSION p
  else brk (p |> set_major (ch - chr "0") |> set_state s_req_http_major).

Definition case_s_req_http_major (ch : Z) (p : http_parser) : outcome :=
  if ch =? chr "." then brk (p |> set_state s_req_first_http_minor)
  else if negb (IS_NUM ch) then err HPE_INVALID_VERSION p
  else
    let p := p |> set_major (hp_major p * 10) in
    let p := p |> set_major (hp_major p + (ch - chr "0")) in
    if hp_major p >? 999 then err HPE_INVALID_VERSION p else brk p.

Definition case_s_req_first_http_minor (ch : Z) (p : http_parser) : outcome :=
  if negb (IS_NUM ch) then err HPE_INVALID_VERSION p
  else brk (p |> set_minor (ch - chr "0") |> set_state s_req_http_minor).

Definition case_s_req_http_minor (ch : Z) (p : http_parser) : outcome :=
  if ch =? CR then brk (p |> set_state s_req_line_almost_done)
  else if ch =? LF then brk (p |> set_state s_header_field_start)
  else if negb (IS_NUM ch) then err HPE_INVALID_VERSION p
  else
    let p := p |> set_minor (hp_minor p * 10) in
    let p := p |> set_minor (hp_minor p + (ch - chr "0")) in
    if hp_minor p >? 999 then err HPE_INVALID_VERSION p else brk p.

Definition case_s_req_line_almost_done (ch : Z) (p : http_parser) : outcome :=
  if negb (ch =? LF) then err HPE_LF_EXPECTED p
  else brk (p |> set_state s_header_field_start).

(** ** Headers *)

Definition case_s_header_field_start (ch : Z) (p : http_parser) : outcome :=
  if ch =? CR then brk (p |> set_state s_headers_almost_done)
  else if ch =? LF then (p |> set_state s_headers_almost_done, [], Reexecute)
  else
    let c := TOKEN ch in
    if c =? 0 then err HPE_INVALID_HEADER_TOKEN p
    else
      let p := p |> set_index 0 |> set_state s_header_field in
      let p :=
        if c =? chr "c" then p |> set_header_state h_C
        else if c =? chr "p" then p |> set_header_state h_matching_proxy_connection
        else if c =? chr "t" then p |> set_header_state h_matching_transfer_encoding
        else if c =? chr "u" then p |> set_header_state h_matching_upgrade
        else p |> set_header_state h_general in
      (p, [MARK M_header_field], Break).

(** [parser->index++] and the comparison with a constant, common to the eight
    matching states: [done] is the state after the last character. *)
Definition match_header (lit : bytes) (done : header_states) (c : Z) (p : http_parser)
  : result http_parser :=
  let p := p |> set_index (hp_index p + 1) in
  let size := Z.of_nat (length lit) + 1 in
  if hp_index p >? size - 1 then Ok (p |> set_header_state h_general)
  else
    x ← c_index lit (hp_index p);
    if negb (c =? x) then Ok (p |> set_header_state h_general)
    else if hp_index p =? size - 2 then Ok (p |> set_header_state done)
    else Ok p.

(** the switch on the header state inside a header name *)
Definition header_field_char (ch c : Z) (p : http_parser) : result http_parser :=
  match hp_header_state p with
  | h_general => Ok p
  | h_C => Ok (p |> set_index (hp_index p + 1)
                 |> set_header_state (if c =? chr "o" then h_CO else h_general))
  | h_CO => Ok (p |> set_index (hp_index p + 1)
                  |> set_header_state (if c =? chr "n" then h_CON else h_general))
  | h_CON => Ok (p |> set_index (hp_index p + 1)
                   |> set_header_state
                        (if c =? chr "n" then h_matching_connection
                         else if c =? chr "t" then h_matching_content_length
                         else h_general))
  | h_matching_connection => match_header CONNECTION h_connection c p
  | h_matching_proxy_connection => match_header PROXY_CONNECTION h_connection c p
  | h_matching_content_length => match_header CONTENT_LENGTH h_content_length c p
  | h_matching_transfer_encoding => match_header TRANSFER_ENCODING h_transfer_encoding c p
  | h_matching_upgrade => match_header UPGRADE h_upgrade c p
  | h_connection | h_content_length | h_transfer_encoding | h_upgrade =>
    Ok (if negb (ch =? chr " ") then p |> set_header_state h_general else p)
  | _ => Fault AssertFailed
  end.

Definition case_s_header_field (ch : Z) (p : http_parser) : result outcome :=
  let c := TOKEN ch in
  if negb (c =? 0) then brk <$> header_field_char ch c p
  else if ch =? chr ":" then
    Ok (p |> set_state s_header_value_start, [CALLBACK_DATA M_header_field], Break)
  else if ch =? CR then
    Ok (p |> set_state s_header_almost_done, [CALLBACK_DATA M_header_field], Break)
  else if ch =? LF then
    Ok (p |> set_state s_header_field_start, [CALLBACK_DATA M_header_field], Break)
  else Ok (err HPE_INVALID_HEADER_TOKEN p).

Definition case_s_header_value_start (ch : Z) (p : http_parser) : outcome :=
  if (ch =? chr " ") || (ch =? 9) then brk p
  else
    let p := p |> set_state s_header_value |> set_index 0 in
    if ch =? CR then
      (p |> set_header_state h_general |> set_state s_header_almost_done,
       [MARK M_header_value; CALLBACK_DATA M_header_value], Break)
    else if ch =? LF then
      (p |> set_state s_header_field_start,
       [MARK M_header_value; CALLBACK_DATA M_header_value], Break)
    else
      let c := LOWER ch in
      match hp_header_state p with
      | h_upgrade =>
        (p |> set_flags (Z.lor (hp_flags p) F_UPGRADE) |> set_header_state h_general,
         [MARK M_header_value], Break)
      | h_transfer_encoding =>
        (p |> set_header_state (if chr "c" =? c then h_matching_transfer_encoding_chunked
                                else h_general),
         [MARK M_header_value], Break)
      | h_content_length =>
        if negb (IS_NUM ch) then
          (SET_ERRNO HPE_INVALID_CONTENT_LENGTH p, [MARK M_header_value], GotoError)
        else (p |> set_content_length (ch - chr "0"), [MARK M_header_value], Break)
      | h_connection =>
        (p |> set_header_state (if c =? chr "k" then h_matching_connection_keep_alive
                                else if c =? chr "c" then h_matching_connection_close
                                else h_general),
         [MARK M_header_value], Break)
      | _ => (p |> set_header_state h_general, [MARK M_header_value], Break)
      end.

(** the switch on the header state inside a header value *)
Definition header_value_char (ch c : Z) (p : http_parser) : result outcome :=
  match hp_header_state p with
  | h_general => Ok (brk p)
  | h_connection | h_transfer_encoding => Fault AssertFailed
  | h_content_length =>
    if ch =? chr " " then Ok (brk p)
    else if negb (IS_NUM ch) then Ok (err HPE_INVALID_CONTENT_LENGTH p)
    else
      let t := hp_content_length p in
      let t := u64 (t * 10) in
      let t := u64 (t + (ch - chr "0")) in
      if (t <? hp_content_length p) || (t =? ULLONG_MAX)
      then Ok (err HPE_INVALID_CONTENT_LENGTH p)
      else Ok (brk (p |> set_content_length t))
  | h_matching_transfer_encoding_chunked =>
    brk <$> match_header CHUNKED h_transfer_encoding_chunked c p
  | h_matching_connection_keep_alive =>
    brk <$> match_header KEEP_ALIVE h_connection_keep_alive c p
  | h_matching_connection_close =>
    brk <$> match_header CLOSE h_connection_close c p
  | h_transfer_encoding_chunked | h_connection_keep_alive | h_connection_close =>
    Ok (brk (if negb (ch =? chr " ") then p |> set_header_state h_general else p))
  | _ => Ok (brk (p |> set_state s_header_value |> set_header_state h_general))
  end.

Definition case_s_header_value (ch : Z) (p : http_parser) : result outcome :=
  if ch =? CR then
    Ok (p |> set_state s_header_almost_done, [CALLBACK_DATA M_header_value], Break)
  else if ch =? LF then
    Ok (p |> set_state s_header_almost_done, [CALLBACK_DATA_NOADVANCE M_header_value],
        Reexecute)
  else header_value_char ch (LOWER ch) p.

Definition case_s_header_almost_done (ch : Z) (p : http_parser) : outcome :=
  STRICT_CHECK (negb (ch =? LF)) p
    (let p := p |> set_state s_header_value_lws in
     match hp_header_state p with
     | h_connection_keep_alive =>
       brk (p |> set_flags (Z.lor (hp_flags p) F_CONNECTION_KEEP_ALIVE))
     | h_connection_close => brk (p |> set_flags (Z.lor (hp_flags p) F_CONNECTION_CLOSE))
     | h_transfer_encoding_chunked => brk (p |> set_flags (Z.lor (hp_flags p) F_CHUNKED))
     | _ => brk p
     end).

Definition case_s_header_value_lws (ch : Z) (p : http_parser) : outcome :=
  if (ch =? chr " ") || (ch =? 9) then brk (p |> set_state s_header_value_start)
  else (p |> set_state s_header_field_start, [], Reexecute).

(** [parser->state = NEW_MESSAGE(); CALLBACK_NOTIFY(message_complete)] *)
Definition new_message (c : control) (p : http_parser) : outcome :=
  (p |> set_state (NEW_MESSAGE p), [CALLBACK_NOTIFY N_message_complete], c).

Definition case_s_headers_almost_done (ch : Z) (p : http_parser) : outcome :=
  STRICT_CHECK (negb (ch =? LF)) p
    (if has (hp_flags p) F_TRAILING then new_message Break p
     else
       (p |> set_state s_headers_done
          |> set_upgrade (has (hp_flags p) F_UPGRADE ||
                          bool_decide (hp_method p = HTTP_CONNECT)),
        [HEADERS_COMPLETE], Reexecute)).

Definition case_s_headers_done (ch : Z) (p : http_parser) : outcome :=
  STRICT_CHECK (negb (ch =? LF)) p
    (let p := p |> set_nread 0 in
     if hp_upgrade p then new_message Return p
     else if has (hp_flags p) F_SKIPBODY then new_message Break p
     else if has (hp_flags p) F_CHUNKED then brk (p |> set_state s_chunk_size_start)
     else if hp_content_length p =? 0 then new_message Break p
     else if negb (hp_content_length p =? ULLONG_MAX) then brk (p |> set_state s_body_identity)
     else if bool_decide (hp_type p = HTTP_REQUEST) || negb (http_message_needs_eof p)
     then new_message Break p
     else brk (p |> set_state s_body_identity_eof)).

(** ** Bodies; [rem] is the number of bytes from [p] to the end of the data. *)

Definition case_s_body_identity (rem : Z) (p : http_parser) : result outcome :=
  let to_read := Z.min (hp_content_length p) rem in
  c_assert (negb (hp_content_length p =? 0) && negb (hp_content_length p =? ULLONG_MAX))
    (let p := p |> set_content_length (hp_content_length p - to_read) in
     if hp_content_length p =? 0 then
       Ok (p |> set_state s_message_done,
           [MARK M_body; ADVANCE (Z.to_nat (to_read - 1)); CALLBACK_DATA_ M_body 1 0],
           Reexecute)
     else Ok (p, [MARK M_body; ADVANCE (Z.to_nat (to_read - 1))], Break)).

Definition case_s_body_identity_eof (rem : Z) (p : http_parser) : outcome :=
  (p, [MARK M_body; ADVANCE (Z.to_nat (rem - 1))], Break).

Definition case_s_message_done (p : http_parser) : outcome := new_message Break p.

Definition case_s_chunk_size_start (ch : Z) (p : http_parser) : result outcome :=
  c_assert (hp_nread p =? 1) (c_assert (has (hp_flags p) F_CHUNKED)
    (let unhex_val := unhex ch in
     if unhex_val =? -1 then Ok (err HPE_INVALID_CHUNK_SIZE p)
     else Ok (brk (p |> set_content_length unhex_val |> set_state s_chunk_size)))).

Definition case_s_chunk_size (ch : Z) (p : http_parser) : result outcome :=
  c_assert (has (hp_flags p) F_CHUNKED)
    (if ch =? CR then Ok (brk (p |> set_state s_chunk_size_almost_done))
     else
       let unhex_val := unhex ch in
       if unhex_val =? -1 then
         if (ch =? chr ";") || (ch =? chr " ")
         then Ok (brk (p |> set_state s_chunk_parameters))
         else Ok (err HPE_INVALID_CHUNK_SIZE p)
       else
         let t := hp_content_length p in
         let t := u64 (t * 16) in
         let t := u64 (t + unhex_val) in
         if (t <? hp_content_length p) || (t =? ULLONG_MAX)
         then Ok (err HPE_INVALID_CONTENT_LENGTH p)
         else Ok (brk (p |> set_content_length t))).

Definition case_s_chunk_parameters (ch : Z) (p : http_parser) : result outcome :=
  c_assert (has (hp_flags p) F_CHUNKED)
    (if ch =? CR then Ok (brk (p |> set_state s_chunk_size_almost_done)) else Ok (brk p)).

Definition case_s_chunk_size_almost_done (ch : Z) (p : http_parser) : result outcome :=
  c_assert (has (hp_flags p) F_CHUNKED)
    (Ok (STRICT_CHECK (negb (ch =? LF)) p
      (let p := p |> set_nread 0 in
       if hp_content_length p =? 0 then
         brk (p |> set_flags (Z.lor (hp_flags p) F_TRAILING)
                |> set_state s_header_field_start)
       else brk (p |> set_state s_chunk_data)))).

Definition case_s_chunk_data (rem : Z) (p : http_parser) : result outcome :=
  let to_read := Z.min (hp_content_length p) rem in
  c_assert (has (hp_flags p) F_CHUNKED)
    (c_assert (negb (hp_content_length p =? 0) && negb (hp_content_length p =? ULLONG_MAX))
      (let p := p |> set_content_length (hp_content_length p - to_read) in
       Ok (if hp_content_length p =? 0 then p |> set_state s_chunk_data_almost_done else p,
           [MARK M_body; ADVANCE (Z.to_nat (to_read - 1))], Break))).

Definition case_s_chunk_data_almost_done (ch : Z) (p : http_parser) : result outcome :=
  c_assert (has (hp_flags p) F_CHUNKED) (c_assert (hp_content_length p =? 0)
    (Ok (STRICT_CHECK (negb (ch =? CR)) p
      (p |> set_state s_chunk_data_done, [CALLBACK_DATA M_body], Break)))).

Definition case_s_chunk_data_done (ch : Z) (p : http_parser) : result outcome :=
  c_assert (has (hp_flags p) F_CHUNKED)
    (Ok (STRICT_CHECK (negb (ch =? LF)) p
      (brk (p |> set_nread 0 |> set_state s_chunk_size_start)))).

(** ** The switch *)

Definition switch (ch rem : Z) (p : http_parser) : result outcome :=
  match hp_state p with
  | s_dead => Ok (case_s_dead ch p)
  | s_start_req_or_res => Ok (case_s_start_req_or_res ch p)
  | s_res_or_resp_H => Ok (case_s_res_or_resp_H ch p)
  | s_start_res => Ok (case_s_start_res ch p)
  | s_res_H => Ok (expect (chr "T") s_res_HT ch p)
  | s_res_HT => Ok (expect (chr "T") s_res_HTT ch p)
  | s_res_HTT => Ok (expect (chr "P") s_res_HTTP ch p)
  | s_res_HTTP => Ok (expect (chr "/") s_res_first_http_major ch p)
  | s_res_first_http_major => Ok (case_s_res_first_http_major ch p)
  | s_res_http_major => Ok (case_s_res_http_major ch p)
  | s_res_first_http_minor => Ok (case_s_res_first_http_minor ch p)
  | s_res_http_minor => Ok (case_s_res_http_minor ch p)
  | s_res_first_status_code => Ok (case_s_res_first_status_code ch p)
  | s_res_status_code => Ok (case_s_res_status_code ch p)
  | s_res_status => Ok (case_s_res_status ch p)
  | s_res_line_almost_done => Ok (expect LF s_header_field_start ch p)
  | s_start_req => Ok (case_s_start_req ch p)
  | s_req_method => case_s_req_method ch p
  | s_req_spaces_before_url => Ok (case_s_req_spaces_before_url ch p)
  | s_req_schema | s_req_schema_slash | s_req_schema_slash_slash
  | s_req_server_start => Ok (case_url_no_end ch p)
  | s_req_server | s_req_server_with_at | s_req_path | s_req_query_string_start
  | s_req_query_string | s_req_fragment_start | s_req_fragment =>
    Ok (case_url_may_end ch p)
  | s_req_http_start => Ok (case_s_req_http_start ch p)
  | s_req_http_H => Ok (expect (chr "T") s_req_http_HT ch p)
  | s_req_http_HT => Ok (expect (chr "T") s_req_http_HTT ch p)
  | s_req_http_HTT => Ok (expect (chr "P") s_req_http_HTTP ch p)
  | s_req_http_HTTP => Ok (expect (chr "/") s_req_first_http_major ch p)
  | s_req_first_http_major => Ok (case_s_req_first_http_major ch p)
  | s_req_http_major => Ok (case_s_req_http_major ch p)
  | s_req_first_http_minor => Ok (case_s_req_first_http_minor ch p)
  | s_req_http_minor => Ok (case_s_req_http_minor ch p)
  | s_req_line_almost_done => Ok (case_s_req_line_almost_done ch p)
  | s_header_field_start => Ok (case_s_header_field_start ch p)
  | s_header_field => case_s_header_field ch p
  | s_header_value_start => Ok (case_s_header_value_start ch p)
  | s_header_value => case_s_header_value ch p
  | s_header_almost_done => Ok (case_s_header_almost_done ch p)
  | s_header_value_lws => Ok (case_s_header_value_lws ch p)
  | s_headers_almost_done => Ok (case_s_headers_almost_done ch p)
  | s_headers_done => Ok (case_s_headers_done ch p)
  | s_body_identity => case_s_body_identity rem p
  | s_body_identity_eof => Ok (case_s_body_identity_eof rem p)
  | s_message_done => Ok (case_s_message_done p)
  | s_chunk_size_start => case_s_chunk_size_start ch p
  | s_chunk_size => case_s_chunk_size ch p
  | s_chunk_parameters => case_s_chunk_parameters ch p
  | s_chunk_size_almost_done => case_s_chunk_size_almost_done ch p
  | s_chunk_data => case_s_chunk_data rem p
  | s_chunk_data_almost_done => case_s_chunk_data_almost_done ch p
  | s_chunk_data_done => case_s_chunk_data_done ch p
  end.
