(* ===== verification/HttpParserExec.v ===== *)
(** * The loop of the HTTP parser of the Capture client

    The macros of http_parser.c that run callbacks, and
    [http_parser_execute]: the checks on entry, the loop over the bytes, the
    callbacks for marks left over and the error exit.  The callbacks of
    http_parser_settings are values of the model; they see and may change the
    parser object and the user state (the object behind [parser->data]). *)
From Stdlib Require Import ZArith Lia Ascii.
From stdpp Require Import base list strings numbers.
From S2P Require Import Prelude HttpParserDef HttpParserCases.

Local Open Scope Z_scope.

(** [http_cb] and [http_data_cb]; the pointer [at] is the buffer and an offset
    into it. *)
Definition http_cb (U : Type) : Type := http_parser -> U -> Z * http_parser * U.
Definition http_data_cb (U : Type) : Type :=
  http_parser -> bytes -> nat -> nat -> U -> Z * http_parser * U.

(** struct http_parser_settings; [None] is a null pointer. *)
Record http_parser_settings (U : Type) := mk_settings {
  on_message_begin : option (http_cb U);
  on_url : option (http_data_cb U);
  on_header_field : option (http_data_cb U);
  on_header_value : option (http_data_cb U);
  on_headers_complete : option (http_cb U);
  on_body : option (http_data_cb U);
  on_message_complete : option (http_cb U);
}.
Arguments mk_settings {U}.
Arguments on_message_begin {U}.
Arguments on_url {U}.
Arguments on_header_field {U}.
Arguments on_header_value {U}.
Arguments on_headers_complete {U}.
Arguments on_body {U}.
Arguments on_message_complete {U}.

Definition on_data {U} (s : http_parser_settings U) (m : mark) : option (http_data_cb U) :=
  match m with
  | M_header_field => on_header_field s
  | M_header_value => on_header_value s
  | M_url => on_url s
  | M_body => on_body s
  end.

Definition on_notify {U} (s : http_parser_settings U) (n : notification) : option (http_cb U) :=
  match n with
  | N_message_begin => on_message_begin s
  | N_message_complete => on_message_complete s
  end.

(** HPE_CB_##FOR *)
Definition data_errno (m : mark) : http_errno :=
  match m with
  | M_header_field => HPE_CB_header_field
  | M_header_value => HPE_CB_header_value
  | M_url => HPE_CB_url
  | M_body => HPE_CB_body
  end.

Definition notify_errno (n : notification) : http_errno :=
  match n with
  | N_message_begin => HPE_CB_message_begin
  | N_message_complete => HPE_CB_message_complete
  end.

(** the locals [header_field_mark] .. [body_mark], as offsets into the data *)
Record marks := mk_marks {
  header_field_mark : option nat;
  header_value_mark : option nat;
  url_mark : option nat;
  body_mark : option nat;
}.

Definition no_marks : marks := mk_marks None None None None.

Definition get_mark (ms : marks) (m : mark) : option nat :=
  match m with
  | M_header_field => header_field_mark ms
  | M_header_value => header_value_mark ms
  | M_url => url_mark ms
  | M_body => body_mark ms
  end.

Definition put_mark (m : mark) (v : option nat) (ms : marks) : marks :=
  match m with
  | M_header_field => mk_marks v (header_value_mark ms) (url_mark ms) (body_mark ms)
  | M_header_value => mk_marks (header_field_mark ms) v (url_mark ms) (body_mark ms)
  | M_url => mk_marks (header_field_mark ms) (header_value_mark ms) v (body_mark ms)
  | M_body => mk_marks (header_field_mark ms) (header_value_mark ms) (url_mark ms) v
  end.

(** the state of a call: the parser object, the locals and the user state *)
Record env (U : Type) := mk_env {
  e_parser : http_parser;
  e_p : nat;               (* p - data *)
  e_marks : marks;
  e_user : U;
}.
Arguments mk_env {U}.
Arguments e_parser {U}.
Arguments e_p {U}.
Arguments e_marks {U}.
Arguments e_user {U}.

(** [Stop n p u]: the function returned [n]. *)
Inductive flow (U : Type) :=
  | Continue (e : env U)
  | Stop (n : nat) (p : http_parser) (u : U).
Arguments Continue {U}.
Arguments Stop {U}.

Section Execute.
Context {U : Type} (settings : http_parser_settings U) (data : bytes).

Definition is_OK (p : http_parser) : bool := bool_decide (hp_errno p = HPE_OK).

(** CALLBACK_NOTIFY_(FOR, ER) *)
Definition callback_notify (n : notification) (er : nat) (e : env U) : result (flow U) :=
  c_assert (is_OK (e_parser e))
    match on_notify settings n with
    | None => Ok (Continue e)
    | Some cb =>
      let '(rc, p, u) := cb (e_parser e) (e_user e) in
      let p := if negb (rc =? 0) then SET_ERRNO (notify_errno n) p else p in
      if is_OK p then Ok (Continue (mk_env p (e_p e) (e_marks e) u))
      else Ok (Stop er p u)
    end.

(** CALLBACK_DATA_(FOR, LEN, ER) with LEN = p - mark + l *)
Definition callback_data (m : mark) (l er : nat) (e : env U) : result (flow U) :=
  c_assert (is_OK (e_parser e))
    match get_mark (e_marks e) m with
    | None => Ok (Continue e)
    | Some at' =>
      match on_data settings m with
      | None => Ok (Continue (mk_env (e_parser e) (e_p e) (put_mark m None (e_marks e))
                                     (e_user e)))
      | Some cb =>
        let '(rc, p, u) := cb (e_parser e) data at' (e_p e - at' + l)%nat (e_user e) in
        let p := if negb (rc =? 0) then SET_ERRNO (data_errno m) p else p in
        if is_OK p
        then Ok (Continue (mk_env p (e_p e) (put_mark m None (e_marks e)) u))
        else Ok (Stop er p u)
      end
    end.

(** MARK(FOR) *)
Definition set_mark (m : mark) (e : env U) : env U :=
  match get_mark (e_marks e) m with
  | None => mk_env (e_parser e) (e_p e) (put_mark m (Some (e_p e)) (e_marks e)) (e_user e)
  | Some _ => e
  end.

(** the call of on_headers_complete in s_headers_almost_done *)
Definition headers_complete (e : env U) : flow U :=
  match on_headers_complete settings with
  | None =>
    if is_OK (e_parser e) then Continue e else Stop (e_p e) (e_parser e) (e_user e)
  | Some cb =>
    let '(rc, p, u) := cb (e_parser e) (e_user e) in
    if rc =? 0 then
      if is_OK p then Continue (mk_env p (e_p e) (e_marks e) u) else Stop (e_p e) p u
    else if rc =? 1 then
      let p := p |> set_flags (Z.lor (hp_flags p) F_SKIPBODY) in
      if is_OK p then Continue (mk_env p (e_p e) (e_marks e) u) else Stop (e_p e) p u
    else Stop (e_p e) (SET_ERRNO HPE_CB_headers_complete p) u
  end.

Definition run_action (a : action) (e : env U) : result (flow U) :=
  match a with
  | MARK m => Ok (Continue (set_mark m e))
  | ADVANCE n => Ok (Continue (mk_env (e_parser e) (e_p e + n) (e_marks e) (e_user e)))
  | CALLBACK_DATA_ m l r => callback_data m l (e_p e + r) e
  | CALLBACK_NOTIFY n => callback_notify n (e_p e + 1) e
  | HEADERS_COMPLETE => Ok (headers_complete e)
  end.

Fixpoint run_actions (acts : list action) (e : env U) : result (flow U) :=
  match acts with
  | [] => Ok (Continue e)
  | a :: acts' =>
    f ← run_action a e;
    match f with
    | Continue e' => run_actions acts' e'
    | Stop _ _ _ => Ok f
    end
  end.

(** the label error *)
Definition error_exit (e : env U) : flow U :=
  let p := e_parser e in
  Stop (e_p e) (if is_OK p then SET_ERRNO HPE_UNKNOWN p else p) (e_user e).

(** the switch with its [goto reexecute_byte]; at most four cases run for one
    byte *)
Fixpoint reexecute_byte (fuel : nat) (ch : Z) (e : env U) : result (flow U) :=
  match fuel with
  | O => Fault OutOfFuel
  | S fuel' =>
    o ← switch ch (Z.of_nat (length data) - Z.of_nat (e_p e)) (e_parser e);
    let '(p, acts, c) := o in
    f ← run_actions acts (mk_env p (e_p e) (e_marks e) (e_user e));
    match f with
    | Stop _ _ _ => Ok f
    | Continue e' =>
      match c with
      | Break => Ok f
      | Reexecute => reexecute_byte fuel' ch e'
      | GotoError => Ok (error_exit e')
      | Return => Ok (Stop (e_p e' + 1) (e_parser e') (e_user e'))
      end
    end
  end.

(** the body of the for loop *)
Definition one_byte (ch : Z) (e : env U) : result (flow U) :=
  if PARSING_HEADER (hp_state (e_parser e)) then
    let p := e_parser e |> set_nread (hp_nread (e_parser e) + 1) in
    let e := mk_env p (e_p e) (e_marks e) (e_user e) in
    if hp_nread p >? HTTP_MAX_HEADER_SIZE then
      Ok (error_exit (mk_env (SET_ERRNO HPE_HEADER_OVERFLOW p) (e_p e) (e_marks e) (e_user e)))
    else reexecute_byte 4 ch e
  else reexecute_byte 4 ch e.

Definition is_set (o : option nat) : nat := if o then 1 else 0.

(** after the loop: the marks left over *)
Definition leftover (e : env U) : result (flow U) :=
  let ms := e_marks e in
  c_assert (is_set (header_field_mark ms) + is_set (header_value_mark ms) +
            is_set (url_mark ms) + is_set (body_mark ms) <=? 1)%nat
    (run_actions [CALLBACK_DATA_NOADVANCE M_header_field;
                  CALLBACK_DATA_NOADVANCE M_header_value;
                  CALLBACK_DATA_NOADVANCE M_url;
                  CALLBACK_DATA_NOADVANCE M_body] e).

Fixpoint exec_loop (fuel : nat) (e : env U) : result (nat * http_parser * U) :=
  if (e_p e =? length data)%nat then
    f ← leftover e;
    match f with
    | Continue e' => Ok (length data, e_parser e', e_user e')
    | Stop n p u => Ok (n, p, u)
    end
  else match fuel with
  | O => Fault OutOfFuel
  | S fuel' =>
    match data !! e_p e with
    | None => Fault OutOfBoundsRead
    | Some ch =>
      f ← one_byte ch e;
      match f with
      | Continue e' => exec_loop fuel' (mk_env (e_parser e') (e_p e' + 1) (e_marks e') (e_user e'))
      | Stop n p u => Ok (n, p, u)
      end
    end
  end.

(** the marks set on entry *)
Definition entry_marks (s : state) : marks :=
  match s with
  | s_header_field => put_mark M_header_field (Some 0%nat) no_marks
  | s_header_value => put_mark M_header_value (Some 0%nat) no_marks
  | s_req_path | s_req_schema | s_req_schema_slash | s_req_schema_slash_slash
  | s_req_server_start | s_req_server | s_req_server_with_at
  | s_req_query_string_start | s_req_query_string | s_req_fragment_start
  | s_req_fragment => put_mark M_url (Some 0%nat) no_marks
  | _ => no_marks
  end.

(** len = 0: the end of the stream *)
Definition execute_eof (p : http_parser) (u : U) : result (nat * http_parser * U) :=
  match hp_state p with
  | s_body_identity_eof =>
    f ← callback_notify N_message_complete 0 (mk_env p 0 no_marks u);
    match f with
    | Continue e' => Ok (0%nat, e_parser e', e_user e')
    | Stop n p' u' => Ok (n, p', u')
    end
  | s_dead | s_start_req_or_res | s_start_res | s_start_req => Ok (0%nat, p, u)
  | _ => Ok (1%nat, SET_ERRNO HPE_INVALID_EOF_STATE p, u)
  end.

(** The loop runs at most once per byte. *)
Definition http_parser_execute (p : http_parser) (u : U) : result (nat * http_parser * U) :=
  if negb (is_OK p) then Ok (0%nat, p, u)
  else match data with
  | [] => execute_eof p u
  | _ => exec_loop (length data) (mk_env p 0 (entry_marks (hp_state p)) u)
  end.

End Execute.
