(* ===== verification/HttpParserInv.v ===== *)
(** * The invariant of the HTTP parser of the Capture client

    The invariant of the parser object between two bytes, the shape of what
    each case of the switch runs, and one lemma per case: started in the
    invariant it fails no assertion, reads inside its constants, and leaves
    the invariant for the next byte or the next case. *)
From Stdlib Require Import ZArith Lia Ascii.
From stdpp Require Import base list strings numbers.
From S2P Require Import Prelude HttpParserDef HttpParserCases HttpParserExec.

Local Open Scope Z_scope.

(** ** Flags *)

Lemma has_lor a b f : has (Z.lor a b) f = has a f || has b f.
Proof.
  unfold has. rewrite Z.land_lor_distr_l.
  destruct (Z.land a f =? 0) eqn:A, (Z.land b f =? 0) eqn:B; breflect;
    rewrite ?A, ?B; cbn; try done;
    destruct (_ =? 0) eqn:E; breflect; try done;
    apply Z.lor_eq_0_iff in E as [? ?]; done.
Qed.

Lemma flags_lor a b : 0 <= a < 64 -> 0 <= b < 64 -> 0 <= Z.lor a b < 64.
Proof.
  intros Ha Hb. assert (0 <= Z.lor a b) by (apply Z.lor_nonneg; lia).
  split; [done |].
  destruct (Z.eq_dec (Z.lor a b) 0) as [->|]; [lia |].
  apply (Z.log2_lt_pow2 _ 6); [lia |]. rewrite Z.log2_lor by lia.
  assert (Hl : forall x, 0 <= x < 64 -> Z.log2 x < 6).
  { intros x Hx. destruct (Z.eq_dec x 0) as [->|]; [done |].
    apply Z.log2_lt_pow2; lia. }
  apply Z.max_lub_lt; by apply Hl.
Qed.

(** ** The invariant *)

(** header states while a header name is read *)
Definition in_field (h : header_states) : bool :=
  match h with
  | h_matching_transfer_encoding_chunked | h_matching_connection_keep_alive
  | h_matching_connection_close | h_transfer_encoding_chunked
  | h_connection_keep_alive | h_connection_close => false
  | _ => true
  end.

(** header states while a header value is read *)
Definition in_value (h : header_states) : bool :=
  match h with h_connection | h_transfer_encoding => false | _ => true end.

(** [n] is the value of nread when a chunk size begins: 0 between two bytes,
    1 once the byte is counted. *)
Definition state_ok (n : Z) (p : http_parser) : Prop :=
  match hp_state p with
  | s_req_method => hp_index p <= Z.of_nat (length (method_strings (hp_method p)))
  | s_header_field => in_field (hp_header_state p) = true
  | s_header_value => in_value (hp_header_state p) = true
  | s_body_identity => hp_content_length p <> 0 /\ hp_content_length p <> ULLONG_MAX
  | s_chunk_size_start => has (hp_flags p) F_CHUNKED = true /\ hp_nread p = n
  | s_chunk_size | s_chunk_parameters | s_chunk_size_almost_done =>
    has (hp_flags p) F_CHUNKED = true /\ hp_content_length p <> ULLONG_MAX
  | s_chunk_data => has (hp_flags p) F_CHUNKED = true /\
                    hp_content_length p <> 0 /\ hp_content_length p <> ULLONG_MAX
  | s_chunk_data_almost_done => has (hp_flags p) F_CHUNKED = true /\ hp_content_length p = 0
  | s_chunk_data_done => has (hp_flags p) F_CHUNKED = true
  | _ => True
  end.

Record fields_ok (p : http_parser) : Prop := {
  fo_flags : 0 <= hp_flags p < 64;
  fo_index : 0 <= hp_index p < 256;
  fo_nread : 0 <= hp_nread p <= HTTP_MAX_HEADER_SIZE;
  fo_length : 0 <= hp_content_length p <= ULLONG_MAX;
  fo_major : 0 <= hp_major p <= 999;
  fo_minor : 0 <= hp_minor p <= 999;
  fo_status : 0 <= hp_status_code p <= 999;
}.

Definition parser_ok (p : http_parser) : Prop := fields_ok p /\ state_ok 0 p.

(** ** The shape of a case *)

(** the mark that is set between two bytes *)
Definition mark_of (s : state) : option mark :=
  match s with
  | s_header_field => Some M_header_field
  | s_header_value => Some M_header_value
  | s_req_path | s_req_schema | s_req_schema_slash | s_req_schema_slash_slash
  | s_req_server_start | s_req_server | s_req_server_with_at
  | s_req_query_string_start | s_req_query_string | s_req_fragment_start
  | s_req_fragment => Some M_url
  | _ => None
  end.

(** states whose case takes many bytes *)
Definition bulk (s : state) : bool :=
  match s with
  | s_body_identity | s_body_identity_eof | s_chunk_data => true
  | _ => false
  end.

(** states after which body bytes may be pending *)
Definition after_chunk (s : state) : bool :=
  match s with s_chunk_data_almost_done => true | _ => false end.

(** how many cases one byte may still run *)
Definition rank (s : state) : nat :=
  match s with
  | s_header_value_lws => 4
  | s_header_field_start => 3
  | s_headers_almost_done | s_header_value | s_start_req_or_res | s_body_identity => 2
  | _ => 1
  end.

Definition continues (c : control) : bool :=
  match c with Break | Reexecute => true | _ => false end.

Inductive shape (rem : Z) (s : state) : list action -> control -> state -> Prop :=
  | sh_plain c s' :
      bulk s = false -> after_chunk s = false -> after_chunk s' = false ->
      continues c = true -> mark_of s' = mark_of s -> shape rem s [] c s'
  | sh_mark m s' :
      bulk s = false -> after_chunk s = false -> after_chunk s' = false ->
      mark_of s = None -> mark_of s' = Some m -> m <> M_body ->
      shape rem s [MARK m] Break s'
  | sh_data m r c s' :
      bulk s = false -> after_chunk s = false -> after_chunk s' = false ->
      mark_of s = Some m -> mark_of s' = None ->
      (c = Break /\ r = 1%nat \/ c = Reexecute /\ r = 0%nat) ->
      shape rem s [CALLBACK_DATA_ m 0 r] c s'
  | sh_empty m s' :
      bulk s = false -> after_chunk s = false -> after_chunk s' = false ->
      mark_of s = None -> mark_of s' = None -> m = M_header_value ->
      shape rem s [MARK m; CALLBACK_DATA_ m 0 1] Break s'
  | sh_notify n c s' :
      bulk s = false -> after_chunk s = false -> after_chunk s' = false ->
      mark_of s = None -> mark_of s' = None -> bulk s' = false ->
      (c = Break \/ c = Return) -> shape rem s [CALLBACK_NOTIFY n] c s'
  | sh_complete :
      s = s_headers_almost_done -> shape rem s [HEADERS_COMPLETE] Reexecute s_headers_done
  | sh_chunk_end :
      s = s_chunk_data_almost_done -> shape rem s [CALLBACK_DATA_ M_body 0 1] Break s_chunk_data_done
  | sh_bulk k s' :
      bulk s = true -> (1 <= k)%nat -> Z.of_nat k <= rem ->
      (bulk s' = true /\ Z.of_nat k = rem \/ s' = s_chunk_data_almost_done) ->
      shape rem s [MARK M_body; ADVANCE (k - 1)] Break s'
  | sh_last k :
      s = s_body_identity -> (1 <= k)%nat -> Z.of_nat k <= rem ->
      shape rem s [MARK M_body; ADVANCE (k - 1); CALLBACK_DATA_ M_body 1 0] Reexecute
            s_message_done
  | sh_error acts s' :
      (acts = [] \/ exists m, acts = [MARK m]) -> shape rem s acts GotoError s'.

(** What the invariant gives after a case: the next byte starts in a state
    the invariant allows, another case of the same byte runs in a state of
    lower rank, an error is not the errno of a pause. *)
Definition after_ok (p p' : http_parser) (c : control) : Prop :=
  match c with
  | Break => fields_ok p' /\ state_ok 0 p' /\ hp_errno p' = hp_errno p
  | Return => fields_ok p' /\ state_ok 0 p' /\ hp_errno p' = hp_errno p /\ hp_upgrade p' = true
  | Reexecute => fields_ok p' /\ (forall n, state_ok n p') /\ hp_errno p' = hp_errno p /\
                 (rank (hp_state p') < rank (hp_state p))%nat /\ bulk (hp_state p') = false
  | GotoError => hp_errno p' <> HPE_PAUSED
  end.

Definition switch_spec (rem : Z) (p : http_parser) (r : result outcome) : Prop :=
  exists p' acts c, r = Ok (p', acts, c) /\
    shape rem (hp_state p) acts c (hp_state p') /\ after_ok p p' c.

(** ** Tactics for the cases *)

(** Evaluates the setters and projections of the parser record. *)
Ltac parser_cbn :=
  cbn [hp_type hp_flags hp_state hp_header_state hp_index hp_nread hp_content_length
       hp_major hp_minor hp_status_code hp_method hp_errno hp_upgrade
       set_type set_flags set_state set_header_state set_index set_nread
       set_content_length set_major set_minor set_status_code set_method SET_ERRNO
       set_upgrade brk err new_message bulk after_chunk mark_of rank continues
       in_field in_value fst snd] in *.

(** Bounds on values that were wrapped to a machine width. *)
Ltac wrap_lia :=
  unfold u8, u16, u32, u64, ULLONG_MAX, HTTP_MAX_HEADER_SIZE in *;
  Z.to_euclidean_division_equations; lia.

Create HintDb http.
#[export] Hint Constructors shape : http.
#[export] Hint Resolve flags_lor : http.

Ltac fields_solve :=
  match goal with
  | F : fields_ok _ |- fields_ok _ =>
    destruct F; constructor; parser_cbn; try assumption;
    try (apply flags_lor; [assumption |];
         unfold F_UPGRADE, F_CHUNKED, F_CONNECTION_KEEP_ALIVE, F_CONNECTION_CLOSE,
           F_TRAILING, F_SKIPBODY; lia);
    try wrap_lia
  end.

(** Names the fields of a parser. *)
Ltac split_parser p := destruct p as [ty fl st hs ix nr cl ma mi sc me er up].

(** Opens a case: the record of the parser with its state known. *)
Ltac open_case p :=
  let F := fresh "F" in let S := fresh "S" in let E := fresh "E" in let St := fresh "St" in
  intros F S E St; split_parser p;
  unfold state_ok in S; parser_cbn; subst.

(** Closes a leaf of a case: the outcome is read off, its shape and the
    invariant after it follow by evaluation. *)
Ltac close_leaf :=
  eexists _, _, _; split; [reflexivity |]; parser_cbn; split;
  [ unfold CALLBACK_DATA, CALLBACK_DATA_NOADVANCE; first [ by apply sh_error; first [by left | by right; eexists]
          | by eauto 10 with http ]
  | unfold after_ok; parser_cbn;
    first [ done
          | split_and!; try done; try fields_solve; try (unfold state_ok; parser_cbn; done);
            try (cbn; lia) ] ].

Lemma NEW_MESSAGE_cases p :
  NEW_MESSAGE p = s_start_req \/ NEW_MESSAGE p = s_start_res \/ NEW_MESSAGE p = s_dead.
Proof. unfold NEW_MESSAGE, start_state. repeat case_goal; auto. Qed.

Lemma parse_url_char_cases s ch :
  parse_url_char s ch = s_dead \/ mark_of (parse_url_char s ch) = Some M_url.
Proof.
  unfold parse_url_char, parse_server_char.
  destruct s; repeat case_goal; auto.
Qed.

(** A state inside a URL imposes nothing on the other fields. *)
Lemma url_state_ok n p : mark_of (hp_state p) = Some M_url -> state_ok n p.
Proof. unfold state_ok. by destruct (hp_state p). Qed.

Lemma url_state_plain s : mark_of s = Some M_url ->
  bulk s = false /\ after_chunk s = false.
Proof. by destruct s. Qed.

Section Cases.
Context (ch rem : Z) (Hch : 0 <= ch < 256) (Hrem : 1 <= rem).
Implicit Type p : http_parser.

(** the premises of every case *)
Local Abbreviation case_ok p s r :=
  (fields_ok p -> state_ok 1 p -> hp_errno p = HPE_OK -> hp_state p = s ->
   switch_spec rem p r).

Lemma dead_ok p : case_ok p s_dead (Ok (case_s_dead ch p)).
Proof. open_case p. unfold case_s_dead. repeat case_goal; close_leaf. Qed.

Lemma start_req_or_res_ok p :
  case_ok p s_start_req_or_res (Ok (case_s_start_req_or_res ch p)).
Proof. open_case p. unfold case_s_start_req_or_res. repeat case_goal; close_leaf. Qed.

Lemma res_or_resp_H_ok p : case_ok p s_res_or_resp_H (Ok (case_s_res_or_resp_H ch p)).
Proof. open_case p. unfold case_s_res_or_resp_H. repeat case_goal; close_leaf. Qed.

Lemma start_res_ok p : case_ok p s_start_res (Ok (case_s_start_res ch p)).
Proof. open_case p. unfold case_s_start_res. repeat case_goal; close_leaf. Qed.

(** states that expect one character and go to a state without data *)
Definition plain (s : state) : bool :=
  match s with
  | s_res_HT | s_res_HTT | s_res_HTTP | s_res_first_http_major | s_header_field_start
  | s_req_http_HT | s_req_http_HTT | s_req_http_HTTP | s_req_first_http_major
  | s_res_H | s_res_line_almost_done | s_req_http_H => true
  | _ => false
  end.

Lemma expect_ok p s c next :
  plain s = true -> plain next = true -> case_ok p s (Ok (expect c next ch p)).
Proof.
  intros Ps Pn. open_case p. unfold expect, STRICT_CHECK.
  case_goal; destruct s, next; try discriminate; close_leaf.
Qed.

Lemma digit_bound : negb (IS_NUM ch) = false -> 48 <= ch <= 57.
Proof. unfold IS_NUM. chars. intros. breflect. lia. Qed.

(** a character outside or inside the digits *)
Local Ltac digit_cases :=
  repeat (case_goal; parser_cbn);
  repeat match goal with
  | H : negb (IS_NUM ch) = false |- _ => apply digit_bound in H
  | H : (_ >? _) = _ |- _ => rewrite Z.gtb_ltb in H
  end; chars; breflect; close_leaf.

Lemma res_first_http_major_ok p :
  case_ok p s_res_first_http_major (Ok (case_s_res_first_http_major ch p)).
Proof. open_case p. unfold case_s_res_first_http_major. digit_cases. Qed.

Lemma res_http_major_ok p : case_ok p s_res_http_major (Ok (case_s_res_http_major ch p)).
Proof. open_case p. unfold case_s_res_http_major. digit_cases. Qed.

Lemma res_first_http_minor_ok p :
  case_ok p s_res_first_http_minor (Ok (case_s_res_first_http_minor ch p)).
Proof. open_case p. unfold case_s_res_first_http_minor. digit_cases. Qed.

Lemma res_http_minor_ok p : case_ok p s_res_http_minor (Ok (case_s_res_http_minor ch p)).
Proof. open_case p. unfold case_s_res_http_minor. digit_cases. Qed.

Lemma res_first_status_code_ok p :
  case_ok p s_res_first_status_code (Ok (case_s_res_first_status_code ch p)).
Proof. open_case p. unfold case_s_res_first_status_code. digit_cases. Qed.

Lemma res_status_code_ok p : case_ok p s_res_status_code (Ok (case_s_res_status_code ch p)).
Proof. open_case p. unfold case_s_res_status_code. digit_cases. Qed.

Lemma res_status_ok p : case_ok p s_res_status (Ok (case_s_res_status ch p)).
Proof. open_case p. unfold case_s_res_status. repeat case_goal; close_leaf. Qed.

Lemma start_req_ok p : case_ok p s_start_req (Ok (case_s_start_req ch p)).
Proof.
  open_case p. unfold case_s_start_req, first_method. repeat case_goal;
    repeat match goal with H : context [if _ then Some _ else _] |- _ => case_in H end;
    simplify_eq; close_leaf.
Qed.

Lemma req_first_http_major_ok p :
  case_ok p s_req_first_http_major (Ok (case_s_req_first_http_major ch p)).
Proof. open_case p. unfold case_s_req_first_http_major. digit_cases. Qed.

Lemma req_http_major_ok p : case_ok p s_req_http_major (Ok (case_s_req_http_major ch p)).
Proof. open_case p. unfold case_s_req_http_major. digit_cases. Qed.

Lemma req_first_http_minor_ok p :
  case_ok p s_req_first_http_minor (Ok (case_s_req_first_http_minor ch p)).
Proof. open_case p. unfold case_s_req_first_http_minor. digit_cases. Qed.

Lemma req_http_minor_ok p : case_ok p s_req_http_minor (Ok (case_s_req_http_minor ch p)).
Proof. open_case p. unfold case_s_req_http_minor. digit_cases. Qed.

Lemma req_http_start_ok p : case_ok p s_req_http_start (Ok (case_s_req_http_start ch p)).
Proof. open_case p. unfold case_s_req_http_start. repeat case_goal; close_leaf. Qed.

Lemma req_line_almost_done_ok p :
  case_ok p s_req_line_almost_done (Ok (case_s_req_line_almost_done ch p)).
Proof. open_case p. unfold case_s_req_line_almost_done. repeat case_goal; close_leaf. Qed.

(** ** The method *)

Lemma c_index_inside lit i :
  0 <= i <= Z.of_nat (length lit) ->
  exists c, c_index lit i = Ok c /\ (i < Z.of_nat (length lit) \/ c = 0).
Proof.
  intros Hi. unfold c_index.
  destruct (decide (i < Z.of_nat (length lit))) as [Hl|Hl].
  - rewrite lookup_app_l by lia.
    destruct (lookup_lt_is_Some_2 lit (Z.to_nat i) ltac:(lia)) as [c ->]. eauto.
  - replace (Z.to_nat i) with (length lit) by lia.
    rewrite lookup_app_r, Nat.sub_diag by lia. cbn. eauto.
Qed.

Lemma method_length m : (3 <= length (method_strings m) <= 11)%nat.
Proof. destruct m; vm_compute; lia. Qed.

(** A correction of the method keeps the index inside the new name. *)
Lemma method_branch_inside m m' i :
  method_branch m i ch = Some (Some m') ->
  i + 1 <= Z.of_nat (length (method_strings m')).
Proof.
  pose proof (method_length m'). unfold method_branch. intros H'. case_in H';
    breflect; simplify_eq; try lia.
  change (Z.of_nat (length (method_strings HTTP_PROPPATCH))) with 9. lia.
Qed.

Lemma req_method_ok p : case_ok p s_req_method (case_s_req_method ch p).
Proof.
  open_case p. unfold case_s_req_method. destruct (ch =? 0) eqn:E0; [close_leaf |].
  parser_cbn. assert (H0 : 0 <= ix <= Z.of_nat (length (method_strings me)))
    by (destruct F; parser_cbn; lia).
  pose proof (method_length me).
  destruct (c_index_inside _ _ H0) as (c & -> & Hc). cbn [mbind result_bind]. breflect.
  destruct ((ch =? chr " ") && (c =? 0)) eqn:E1; [close_leaf |].
  destruct (ch =? c) eqn:E2; breflect.
  - subst c. close_leaf. unfold state_ok. parser_cbn. unfold u8.
    rewrite Z.mod_small; lia.
  - destruct (method_branch me ix ch) as [[m'|]|] eqn:E3; [| close_leaf | close_leaf].
    apply method_branch_inside in E3 as ?. close_leaf.
    unfold state_ok. parser_cbn. unfold u8. rewrite Z.mod_small; lia.
Qed.

(** ** The URL *)

Lemma url_char_ok p acts p0 :
  bulk (hp_state p0) = false -> after_chunk (hp_state p0) = false ->
  (mark_of (hp_state p0) = Some M_url /\ acts = [] \/
   mark_of (hp_state p0) = None /\ acts = [MARK M_url]) ->
  hp_errno p0 = hp_errno p -> fields_ok p ->
  switch_spec rem p0 (Ok (url_char acts ch p)).
Proof.
  intros B A M E F. unfold url_char. case_decide as D; parser_cbn.
  - eexists _, _, _. split; [reflexivity |]. split; [| by cbn].
    apply sh_error. destruct M as [[_ ->]|[_ ->]]; eauto.
  - destruct (parse_url_char_cases (hp_state p) ch) as [?|Hm]; [done |].
    destruct (url_state_plain _ Hm). eexists _, _, _. split; [reflexivity |].
    parser_cbn. split.
    + destruct M as [[M ->]|[M ->]]; [by apply sh_plain; rewrite ?M | by apply sh_mark].
    + unfold after_ok. split; [by fields_solve |]. parser_cbn.
      split; [by apply url_state_ok | done].
Qed.

Lemma req_spaces_before_url_ok p :
  case_ok p s_req_spaces_before_url (Ok (case_s_req_spaces_before_url ch p)).
Proof.
  intros F S E St. unfold case_s_req_spaces_before_url. case_goal.
  - unfold brk. eexists _, _, _. split; [reflexivity |]. rewrite St.
    split; [by eauto with http |]. split_and!; try done. unfold state_ok. by rewrite St.
  - case_decide; apply url_char_ok; rewrite ?St; auto. fields_solve.
Qed.

Lemma url_no_end_ok p s :
  mark_of s = Some M_url -> case_ok p s (Ok (case_url_no_end ch p)).
Proof.
  intros Hm F S E <-. destruct (url_state_plain _ Hm).
  unfold case_url_no_end. case_goal; [close_leaf | apply url_char_ok; auto].
Qed.

Lemma url_may_end_ok p s :
  mark_of s = Some M_url -> case_ok p s (Ok (case_url_may_end ch p)).
Proof.
  intros Hm F S E <-. destruct (url_state_plain _ Hm).
  unfold case_url_may_end. case_goal; [| case_goal; [| apply url_char_ok; auto]].
  - eexists _, _, _. split; [reflexivity |]. split; [by apply sh_data; auto |].
    split_and!; [fields_solve | done | done].
  - eexists _, _, _. split; [reflexivity |].
    split; [apply sh_data; auto; by destruct (ch =? CR) |].
    split_and!; [fields_solve | by destruct (ch =? CR) | done].
Qed.

(** ** Headers *)

Lemma header_field_start_ok p :
  case_ok p s_header_field_start (Ok (case_s_header_field_start ch p)).
Proof.
  open_case p. unfold case_s_header_field_start. cbv zeta.
  repeat (case_goal; parser_cbn); close_leaf.
Qed.

(** A matcher touches the index and the header state only, and reads inside
    its constant. *)
Lemma match_header_ok lit done c p :
  0 <= hp_index p < 256 -> Z.of_nat (length lit) < 256 ->
  exists i h, match_header lit done c p = Ok (p |> set_index i |> set_header_state h) /\
    (h = h_general \/ h = done \/ h = hp_header_state p).
Proof.
  intros Hi Hl. unfold match_header. parser_cbn. pose proof (u8_range (hp_index p + 1)).
  case_goal.
  { eexists _, _. split; [reflexivity | auto]. }
  rewrite Z.gtb_ltb in *. breflect.
  destruct (c_index_inside lit (u8 (hp_index p + 1))) as (x & -> & _); [lia |].
  cbn [mbind result_bind]. repeat case_goal.
  - eexists _, _. split; [reflexivity | auto].
  - eexists _, _. split; [reflexivity | auto].
  - exists (hp_index p + 1), (hp_header_state p). split; [by destruct p | auto].
Qed.

Lemma header_field_char_ok c p :
  fields_ok p -> in_field (hp_header_state p) = true ->
  exists i h, header_field_char ch c p = Ok (p |> set_index i |> set_header_state h) /\
    in_field h = true.
Proof.
  intros F Hf.
  assert (Same : p = p |> set_index (hp_index p) |> set_header_state (hp_header_state p)).
  { destruct p, F. unfold set_index, set_header_state. cbn in *. unfold u8.
    rewrite Z.mod_small by lia. done. }
  assert (Step : forall lit done, Z.of_nat (length lit) < 256 -> in_field done = true ->
    exists i h, match_header lit done c p = Ok (p |> set_index i |> set_header_state h) /\
      in_field h = true).
  { intros lit done Hl Hd. destruct (match_header_ok lit done c p) as (i & h & E & Hh);
      [apply F | done |]. exists i, h. split; [done |]. naive_solver. }
  unfold header_field_char. destruct (hp_header_state p) eqn:H; try discriminate Hf;
    first [ by apply Step
          | eexists (hp_index p), _; split;
            [by f_equal; first [apply Same | case_goal; [symmetry; apply Same|]] | done]
          | eexists _, _; split; [reflexivity |]; repeat case_goal; done
          | idtac ].
  all: rewrite <- H in Same; case_goal;
    [ eexists (hp_index p), _; split; [| by instantiate (1 := h_general)];
      f_equal; rewrite Same at 1; by destruct p
    | eexists (hp_index p), (hp_header_state p); split; [by f_equal; rewrite H in *; done |];
      by rewrite H ].
Qed.

Lemma fields_index_header p i h :
  fields_ok p -> fields_ok (p |> set_index i |> set_header_state h).
Proof. intros F. pose proof (u8_range i). fields_solve. Qed.

Lemma header_field_ok p : case_ok p s_header_field (case_s_header_field ch p).
Proof.
  intros F S E St. unfold state_ok in S. rewrite St in S. unfold case_s_header_field.
  destruct (TOKEN ch =? 0) eqn:T; cbn [negb].
  - split_parser p; parser_cbn; subst; repeat case_goal; close_leaf.
  - destruct (header_field_char_ok (TOKEN ch) p F S) as (i & h & -> & Hh).
    eexists _, _, _. split; [reflexivity |]. parser_cbn. rewrite St.
    split; [by apply sh_plain |].
    split_and!; [by apply fields_index_header | | done].
    unfold state_ok. parser_cbn. by rewrite St.
Qed.

Lemma header_value_start_ok p :
  case_ok p s_header_value_start (Ok (case_s_header_value_start ch p)).
Proof.
  open_case p. unfold case_s_header_value_start. cbv zeta. parser_cbn.
  destruct hs; repeat (case_goal; parser_cbn);
    repeat match goal with
    | H : negb (IS_NUM ch) = false |- _ => apply digit_bound in H
    end; chars; close_leaf.
Qed.

Lemma header_value_char_ok p :
  fields_ok p -> hp_errno p = HPE_OK -> hp_state p = s_header_value ->
  in_value (hp_header_state p) = true ->
  switch_spec rem p (header_value_char ch (LOWER ch) p).
Proof.
  intros F E St Hv.
  assert (Step : forall lit done, Z.of_nat (length lit) < 256 -> in_value done = true ->
    switch_spec rem p (brk <$> match_header lit done (LOWER ch) p)).
  { intros lit done Hl Hd.
    destruct (match_header_ok lit done (LOWER ch) p) as (i & h & -> & Hh);
      [apply F | done |]. eexists _, _, _. split; [reflexivity |]. parser_cbn.
    rewrite St. split; [by apply sh_plain |].
    split_and!; [by apply fields_index_header | | done].
    unfold state_ok. parser_cbn. rewrite St. naive_solver. }
  unfold header_value_char. destruct (hp_header_state p) eqn:H; try discriminate Hv;
    try (by apply Step); split_parser p; parser_cbn; subst;
    repeat (case_goal; parser_cbn); breflect; try close_leaf.
Qed.

Lemma header_value_ok p : case_ok p s_header_value (case_s_header_value ch p).
Proof.
  intros F S E St. unfold state_ok in S. rewrite St in S. unfold case_s_header_value.
  case_goal; [| case_goal; [| by apply header_value_char_ok]];
    split_parser p; parser_cbn; subst; close_leaf.
Qed.

Lemma header_almost_done_ok p :
  case_ok p s_header_almost_done (Ok (case_s_header_almost_done ch p)).
Proof.
  open_case p. unfold case_s_header_almost_done, STRICT_CHECK. parser_cbn.
  destruct hs; repeat (case_goal; parser_cbn); close_leaf.
Qed.

Lemma header_value_lws_ok p :
  case_ok p s_header_value_lws (Ok (case_s_header_value_lws ch p)).
Proof. open_case p. unfold case_s_header_value_lws. repeat case_goal; close_leaf. Qed.

(** ** End of a message *)

Lemma new_message_ok p0 p c :
  c = Break \/ c = Return /\ hp_upgrade p = true ->
  bulk (hp_state p0) = false -> after_chunk (hp_state p0) = false ->
  mark_of (hp_state p0) = None -> fields_ok p -> hp_errno p = hp_errno p0 ->
  switch_spec rem p0 (Ok (new_message c p)).
Proof.
  intros Hc B A M F E. eexists _, _, _. split; [reflexivity |]. parser_cbn.
  destruct (NEW_MESSAGE_cases p) as [->|[->| ->]]; (split; [apply sh_notify; naive_solver |]);
    destruct Hc as [-> | [-> ?]]; split_and!; try done; fields_solve.
Qed.

Lemma headers_almost_done_ok p :
  case_ok p s_headers_almost_done (Ok (case_s_headers_almost_done ch p)).
Proof.
  intros F S E St. unfold case_s_headers_almost_done, STRICT_CHECK.
  case_goal; [close_leaf |]. case_goal; [apply new_message_ok; rewrite ?St; auto |].
  split_parser p; parser_cbn; subst; close_leaf.
Qed.

Lemma headers_done_ok p : case_ok p s_headers_done (Ok (case_s_headers_done ch p)).
Proof.
  intros F S E St. unfold case_s_headers_done, STRICT_CHECK. cbv zeta.
  case_goal; [close_leaf |].
  assert (F' : fields_ok (p |> set_nread 0)) by fields_solve.
  repeat case_goal; try (apply new_message_ok; rewrite ?St; by auto);
    split_parser p; parser_cbn; subst; breflect; close_leaf.
Qed.

Lemma message_done_ok p : case_ok p s_message_done (Ok (case_s_message_done p)).
Proof.
  intros F S E St. unfold case_s_message_done. apply new_message_ok; rewrite ?St; auto.
Qed.

(** ** Bodies *)

Lemma body_identity_ok p : case_ok p s_body_identity (case_s_body_identity rem p).
Proof.
  open_case p. unfold case_s_body_identity. parser_cbn. destruct S as [S1 S2].
  apply Z.eqb_neq in S1 as S1', S2 as S2'. rewrite S1', S2'. cbn [c_assert negb andb].
  assert (L := fo_length _ F). parser_cbn. pose proof (Z.min_spec cl rem) as Hm.
  replace (Z.to_nat (Z.min cl rem - 1)) with (Z.to_nat (Z.min cl rem) - 1)%nat by lia.
  assert (U : u64 (cl - Z.min cl rem) = cl - Z.min cl rem)
    by (apply Z.mod_small; unfold ULLONG_MAX in *; lia).
  rewrite U. case_goal; breflect.
  - eexists _, _, _. split; [reflexivity |]. parser_cbn. split; [apply sh_last; lia || done |].
    split_and!; try done; [fields_solve | cbn; lia].
  - eexists _, _, _. split; [reflexivity |]. parser_cbn.
    split; [apply sh_bulk; try done; try lia; left; split; [done | lia] |].
    split_and!; try done; [fields_solve |]. unfold state_ok. parser_cbn. rewrite U. lia.
Qed.

Lemma body_identity_eof_ok p :
  case_ok p s_body_identity_eof (Ok (case_s_body_identity_eof rem p)).
Proof.
  open_case p. unfold case_s_body_identity_eof. eexists _, _, _. split; [reflexivity |].
  replace (Z.to_nat (rem - 1)) with (Z.to_nat rem - 1)%nat by lia. parser_cbn.
  split; [apply sh_bulk; try done; try lia; left; split; [done | lia] | done].
Qed.

Lemma chunk_data_ok p : case_ok p s_chunk_data (case_s_chunk_data rem p).
Proof.
  open_case p. unfold case_s_chunk_data. parser_cbn. destruct S as (Sc & S1 & S2).
  apply Z.eqb_neq in S1 as S1', S2 as S2'. rewrite S1', S2', Sc. cbn [c_assert negb andb].
  assert (L := fo_length _ F). parser_cbn. pose proof (Z.min_spec cl rem) as Hm.
  replace (Z.to_nat (Z.min cl rem - 1)) with (Z.to_nat (Z.min cl rem) - 1)%nat by lia.
  assert (U : u64 (cl - Z.min cl rem) = cl - Z.min cl rem)
    by (apply Z.mod_small; unfold ULLONG_MAX in *; lia).
  rewrite U. eexists _, _, _. split; [reflexivity |]. case_goal; breflect; parser_cbn.
  - split; [apply sh_bulk; try done; try lia; by right |].
    split_and!; try done; [fields_solve |]. unfold state_ok. parser_cbn. by rewrite U.
  - split; [apply sh_bulk; try done; try lia; left; split; [done | lia] |].
    split_and!; try done; [fields_solve |]. unfold state_ok. parser_cbn. rewrite U.
    split_and!; [done | lia..].
Qed.

Lemma unhex_range : unhex ch = -1 \/ 0 <= unhex ch <= 15.
Proof.
  unfold unhex. destruct (nth_in_or_default (Z.to_nat ch) unhex_table 0) as [H| ->]; [| lia].
  assert (T : forallb (fun v => (v =? -1) || ((0 <=? v) && (v <=? 15))) unhex_table = true)
    by reflexivity.
  rewrite forallb_forall in T. apply T in H. apply orb_true_iff in H as [H|H]; breflect; lia.
Qed.

Lemma chunk_size_start_ok p : case_ok p s_chunk_size_start (case_s_chunk_size_start ch p).
Proof.
  open_case p. unfold case_s_chunk_size_start. parser_cbn. destruct S as [Sc ->].
  rewrite Sc. cbn [c_assert Z.eqb Pos.eqb]. pose proof unhex_range as Hu.
  destruct (unhex ch =? -1) eqn:Eu; breflect; [close_leaf |].
  close_leaf. unfold state_ok. parser_cbn. split; [done |].
  unfold u64. rewrite Z.mod_small; unfold ULLONG_MAX; lia.
Qed.

Lemma chunk_size_ok p : case_ok p s_chunk_size (case_s_chunk_size ch p).
Proof.
  open_case p. unfold case_s_chunk_size. parser_cbn. destruct S as [Sc S2].
  rewrite Sc. cbn [c_assert]. repeat (case_goal; parser_cbn); breflect; close_leaf.
  unfold state_ok. parser_cbn. split; [done |]. unfold u64 in *.
  by rewrite Z.mod_mod by lia.
Qed.

Lemma chunk_parameters_ok p : case_ok p s_chunk_parameters (case_s_chunk_parameters ch p).
Proof.
  open_case p. unfold case_s_chunk_parameters. parser_cbn. destruct S as [Sc S2].
  rewrite Sc. cbn [c_assert]. case_goal; close_leaf.
Qed.

Lemma chunk_size_almost_done_ok p :
  case_ok p s_chunk_size_almost_done (case_s_chunk_size_almost_done ch p).
Proof.
  open_case p. unfold case_s_chunk_size_almost_done, STRICT_CHECK. parser_cbn.
  destruct S as [Sc S2]. rewrite Sc. cbn [c_assert].
  repeat (case_goal; parser_cbn); breflect; close_leaf.
Qed.

Lemma chunk_data_almost_done_ok p :
  case_ok p s_chunk_data_almost_done (case_s_chunk_data_almost_done ch p).
Proof.
  open_case p. unfold case_s_chunk_data_almost_done, STRICT_CHECK. parser_cbn.
  destruct S as [Sc ->]. rewrite Sc. cbn [c_assert Z.eqb]. case_goal; close_leaf.
Qed.

Lemma chunk_data_done_ok p : case_ok p s_chunk_data_done (case_s_chunk_data_done ch p).
Proof.
  open_case p. unfold case_s_chunk_data_done, STRICT_CHECK. parser_cbn.
  rewrite S. cbn [c_assert]. case_goal; close_leaf.
Qed.

(** Every case behaves. *)
Lemma switch_ok p :
  fields_ok p -> state_ok 1 p -> hp_errno p = HPE_OK ->
  switch_spec rem p (switch ch rem p).
Proof.
  intros F S E. unfold switch. destruct (hp_state p) eqn:St;
    try (refine (expect_ok p _ _ _ _ _ F S E St); reflexivity);
    try (refine (url_no_end_ok p _ _ F S E St); reflexivity);
    try (refine (url_may_end_ok p _ _ F S E St); reflexivity);
    eauto using dead_ok, start_req_or_res_ok, res_or_resp_H_ok, start_res_ok,
      res_first_http_major_ok, res_http_major_ok, res_first_http_minor_ok,
      res_http_minor_ok, res_first_status_code_ok, res_status_code_ok, res_status_ok,
      start_req_ok, req_method_ok, req_spaces_before_url_ok, req_http_start_ok, req_first_http_major_ok, req_http_major_ok,
      req_first_http_minor_ok, req_http_minor_ok, req_line_almost_done_ok,
      header_field_start_ok, header_field_ok, header_value_start_ok, header_value_ok,
      header_almost_done_ok, header_value_lws_ok, headers_almost_done_ok,
      headers_done_ok, message_done_ok, body_identity_ok, body_identity_eof_ok,
      chunk_data_ok, chunk_size_start_ok, chunk_size_ok, chunk_parameters_ok,
      chunk_size_almost_done_ok, chunk_data_almost_done_ok, chunk_data_done_ok.
Qed.
End Cases.
