(* ===== verification/HttpParserSafe.v ===== *)
(** * Safety of the HTTP parser of the Capture client

    [http_parser_execute] never fails an assertion, never reads outside the
    data, and returns: for every input and all callbacks that change at most
    the errno of the parser.  The lemmas on one byte keep track of the marks,
    for the theorems that cut the input. *)
From Stdlib Require Import ZArith Lia Ascii.
From stdpp Require Import base list strings numbers.
From S2P Require Import Prelude HttpParserDef HttpParserCases HttpParserExec HttpParserInv.

Local Open Scope Z_scope.

(** ** Callbacks *)

(** Callbacks that leave the parser alone or pause it. *)
Definition leaves_parser (p p' : http_parser) : Prop :=
  p' = p \/ p' = SET_ERRNO HPE_PAUSED p.

Record settings_ok {U} (s : http_parser_settings U) : Prop := {
  so_data : forall m cb, on_data s m = Some cb ->
    forall p d o l u, leaves_parser p (cb p d o l u).1.2;
  so_notify : forall n cb, on_notify s n = Some cb ->
    forall p u, leaves_parser p (cb p u).1.2;
  so_complete : forall cb, on_headers_complete s = Some cb ->
    forall p u, leaves_parser p (cb p u).1.2;
}.

(** What the macros can do to the parser: the errno, and F_SKIPBODY after the
    headers. *)
Definition after_calls (p q : http_parser) : Prop :=
  exists e, q = SET_ERRNO e p \/
    hp_state p = s_headers_done /\
    q = SET_ERRNO e (p |> set_flags (Z.lor (hp_flags p) F_SKIPBODY)).

Lemma after_calls_ok p q : after_calls p q -> fields_ok p -> fields_ok q.
Proof. intros (e & [->|[_ ->]]) F; fields_solve. Qed.

Lemma after_calls_state p q : after_calls p q -> hp_state q = hp_state p.
Proof. by intros (e & [->|[_ ->]]). Qed.

Lemma after_calls_state_ok n p q : after_calls p q -> state_ok n p -> state_ok n q.
Proof. intros (e & [->|[H ->]]) S; [done |]. unfold state_ok. parser_cbn. by rewrite H. Qed.

Lemma after_calls_refl p : after_calls p p.
Proof. exists (hp_errno p). left. by destruct p. Qed.

Lemma is_OK_spec p : is_OK p = true <-> hp_errno p = HPE_OK.
Proof. apply bool_decide_eq_true. Qed.

(** ** Marks *)

(** [pos] is the offset of the next byte and [len] the length of the data. *)
Record marks_ok (len : nat) (s : state) (pos : nat) (ms : marks) : Prop := {
  mo_set : forall m, mark_of s = Some m -> is_Some (get_mark ms m);
  mo_only : forall m o, get_mark ms m = Some o ->
    (o <= pos)%nat /\
    (mark_of s = Some m \/
     m = M_body /\ mark_of s = None /\
     (after_chunk s = true \/ bulk s = true /\ pos = len));
}.

Lemma get_put_mark ms m v m' :
  get_mark (put_mark m v ms) m' = if decide (m' = m) then v else get_mark ms m'.
Proof. by destruct m, m'. Qed.

Lemma marks_ok_none len s pos ms m :
  marks_ok len s pos ms -> mark_of s = None -> after_chunk s = false -> (pos < len)%nat ->
  get_mark ms m = None.
Proof.
  intros M E A L. destruct (get_mark ms m) eqn:G; [| done].
  apply (mo_only _ _ _ _ M) in G as [_ [?|(-> & _ & [?|[_ ?]])]]; try congruence. lia.
Qed.

Lemma marks_ok_intro len s pos ms :
  mark_of s = None -> (forall m, get_mark ms m = None) -> marks_ok len s pos ms.
Proof. intros E N. constructor; intros m; [congruence |]. intros o. by rewrite N. Qed.

Section Safe.
Context {U : Type} (settings : http_parser_settings U) (Hs : settings_ok settings).
Context (data : bytes).
Abbreviation len := (length data).

(** a stop that leaves the parser in the invariant unless it is an error *)
Definition stop_ok (n : nat) (q : http_parser) : Prop :=
  (n <= len)%nat /\
  (hp_errno q = HPE_OK \/ hp_errno q = HPE_PAUSED -> fields_ok q /\ state_ok 0 q).

Definition called (p : http_parser) (P : env U -> Prop) (r : result (flow U)) : Prop :=
  match r with
  | Ok (Continue e) => after_calls p (e_parser e) /\ hp_errno (e_parser e) = HPE_OK /\ P e
  | Ok (Stop n q _) => (n <= len)%nat /\ after_calls p q
  | Fault _ => False
  end.

Lemma callback_data_called m l r p pos ms u :
  hp_errno p = HPE_OK -> (pos + r <= len)%nat ->
  called p (fun e => e_p e = pos /\ e_marks e = put_mark m None ms)
    (callback_data settings data m l (pos + r) (mk_env p pos ms u)).
Proof.
  intros E L. unfold callback_data. cbn [e_parser e_marks e_p e_user].
  rewrite (proj2 (is_OK_spec p) E). cbn [c_assert].
  destruct (get_mark ms m) as [o|] eqn:G.
  2: { cbn. split_and!; auto using after_calls_refl. by destruct m, ms; cbn in *; subst. }
  destruct (on_data settings m) as [cb|] eqn:C.
  2: { cbn. split_and!; auto using after_calls_refl. }
  pose proof (so_data _ Hs m cb C p data o (pos - o + l) u) as Hc.
  destruct (cb p data o (pos - o + l)%nat u) as [[rc q] v]. cbn in Hc.
  assert (A : forall e, after_calls p (SET_ERRNO e q)).
  { intros e. exists e. left. by destruct Hc as [-> | ->]. }
  assert (A' : after_calls p q).
  { destruct Hc as [-> | ->]; [apply after_calls_refl | eexists; by left]. }
  destruct (negb (rc =? 0)); case_goal; cbn; auto;
    rewrite is_OK_spec in *; split_and!; auto.
Qed.

Lemma callback_notify_called n r p pos ms u :
  hp_errno p = HPE_OK -> (pos + r <= len)%nat ->
  called p (fun e => e_p e = pos /\ e_marks e = ms)
    (callback_notify settings n (pos + r) (mk_env p pos ms u)).
Proof.
  intros E L. unfold callback_notify. cbn [e_parser e_marks e_p e_user].
  rewrite (proj2 (is_OK_spec p) E). cbn [c_assert].
  destruct (on_notify settings n) as [cb|] eqn:C.
  2: { cbn. split_and!; auto using after_calls_refl. }
  pose proof (so_notify _ Hs n cb C p u) as Hc.
  destruct (cb p u) as [[rc q] v]. cbn in Hc.
  assert (A : forall e, after_calls p (SET_ERRNO e q)).
  { intros e. exists e. left. by destruct Hc as [-> | ->]. }
  assert (A' : after_calls p q).
  { destruct Hc as [-> | ->]; [apply after_calls_refl | eexists; by left]. }
  destruct (negb (rc =? 0)); case_goal; cbn; auto;
    rewrite is_OK_spec in *; split_and!; auto.
Qed.

Lemma headers_complete_called p pos ms u :
  hp_errno p = HPE_OK -> hp_state p = s_headers_done -> (pos <= len)%nat ->
  called p (fun e => e_p e = pos /\ e_marks e = ms)
    (Ok (headers_complete settings (mk_env p pos ms u))).
Proof.
  intros E St L. unfold headers_complete. cbn [e_parser e_marks e_p e_user].
  destruct (on_headers_complete settings) as [cb|] eqn:C.
  2: { rewrite (proj2 (is_OK_spec p) E). cbn. split_and!; auto using after_calls_refl. }
  pose proof (so_complete _ Hs cb C p u) as Hc.
  destruct (cb p u) as [[rc q] v]. cbn in Hc.
  assert (Q : exists e, q = SET_ERRNO e p).
  { destruct Hc as [-> | ->]; [exists (hp_errno p); by destruct p | by eexists]. }
  destruct Q as [e ->].
  destruct (rc =? 0); [| destruct (rc =? 1)]; try destruct (is_OK _) eqn:K; cbn;
    rewrite ?is_OK_spec in *; split_and!; auto;
    first [ by exists e; left | by exists e; right
          | by exists HPE_CB_headers_complete; left ].
Qed.

(** ** One case *)

Lemma run_last a e : run_actions settings data [a] e = run_action settings data a e.
Proof. cbn. by destruct (run_action settings data a e) as [[]|]. Qed.

Lemma run_MARK m acts e :
  run_actions settings data (MARK m :: acts) e = run_actions settings data acts (set_mark m e).
Proof. done. Qed.

Lemma run_ADVANCE n acts p pos ms u :
  run_actions settings data (ADVANCE n :: acts) (mk_env p pos ms u) =
  run_actions settings data acts (mk_env p (pos + n) ms u).
Proof. done. Qed.

Lemma called_weaken p P Q r :
  called p P r -> (forall e, P e -> Q e) -> called p Q r.
Proof. destruct r as [[e|]|]; cbn; naive_solver. Qed.

(** no mark is set but [m] *)
Definition only_mark (m : mark) (o : nat) (ms : marks) : Prop :=
  forall m', get_mark ms m' = if decide (m' = m) then Some o else None.

Lemma set_mark_fresh m p pos ms (u : U) :
  (forall m', get_mark ms m' = None) ->
  exists ms', set_mark m (mk_env p pos ms u) = mk_env p pos ms' u /\ only_mark m pos ms'.
Proof.
  intros N. unfold set_mark. cbn. rewrite N. eexists. split; [done |].
  intros m'. rewrite get_put_mark. by rewrite N.
Qed.

Lemma only_mark_cleared m o ms : only_mark m o ms ->
  forall m', get_mark (put_mark m None ms) m' = None.
Proof. intros H m'. rewrite get_put_mark, H. by case_decide. Qed.

(** Before a bulk case and before a case without a mark nothing is set. *)
Lemma marks_clear s pos ms :
  marks_ok len s pos ms -> (pos < len)%nat -> mark_of s = None -> after_chunk s = false ->
  forall m, get_mark ms m = None.
Proof. intros M L E A m. by eapply marks_ok_none. Qed.

Lemma bulk_unmarked s : bulk s = true -> mark_of s = None /\ after_chunk s = false.
Proof. by destruct s. Qed.

(** A data callback that ends the marks. *)
Lemma run_data m l r p pos ms u s' :
  hp_errno p = HPE_OK -> (pos + r <= len)%nat -> (pos < len)%nat -> mark_of s' = None ->
  (forall m', m' <> m -> get_mark ms m' = None) ->
  called p (fun e => e_p e = pos /\ forall next, marks_ok len s' next (e_marks e))
    (run_actions settings data [CALLBACK_DATA_ m l r] (mk_env p pos ms u)).
Proof.
  intros E Lr L Hm N. rewrite run_last.
  eapply called_weaken; [by apply callback_data_called |].
  cbn. intros e [-> ->]. split; [done |]. intros next. apply marks_ok_intro; [done |].
  intros m'. rewrite get_put_mark. case_decide; auto.
Qed.

(** A bulk case: the body mark and the new position. *)
Lemma run_bulk s s' k p pos ms u :
  bulk s = true -> (1 <= k)%nat -> Z.of_nat k <= Z.of_nat len - Z.of_nat pos ->
  (bulk s' = true /\ Z.of_nat k = Z.of_nat len - Z.of_nat pos \/
   s' = s_chunk_data_almost_done) ->
  hp_errno p = HPE_OK -> (pos < len)%nat -> marks_ok len s pos ms ->
  called p (fun e => (pos <= e_p e < len)%nat /\ marks_ok len s' (e_p e + 1) (e_marks e))
    (run_actions settings data [MARK M_body; ADVANCE (k - 1)] (mk_env p pos ms u)).
Proof.
  intros B K1 K2 K3 E L M. destruct (bulk_unmarked s B) as [Hm A].
  destruct (set_mark_fresh M_body p pos ms u) as (ms' & Em & O); [by eapply marks_clear |].
  rewrite run_MARK, Em, run_ADVANCE. cbn.
  split_and!; auto using after_calls_refl; try lia.
  assert (Hm' : mark_of s' = None)
    by (destruct K3 as [[K3 _]| ->]; [by apply bulk_unmarked | done]).
  constructor; intros m'; [congruence |]. intros o. rewrite O. case_decide; [| done].
  intros [= <-]. split; [lia |]. right. split_and!; [done | done |].
  destruct K3 as [[K3 ?]| ->]; [right | by left]. split; [done | lia].
Qed.

(** The macros of a case: they run to the end with the marks its shape says,
    or a callback stops the call. *)
Lemma run_shape s s' acts c p pos ms u rem :
  shape rem s acts c s' -> c <> GotoError ->
  rem = Z.of_nat len - Z.of_nat pos -> (pos < len)%nat ->
  hp_errno p = HPE_OK -> hp_state p = s' -> marks_ok len s pos ms ->
  called p (fun e => (pos <= e_p e < len)%nat /\
      marks_ok len s' (match c with Reexecute => e_p e | _ => e_p e + 1 end)%nat (e_marks e))
    (run_actions settings data acts (mk_env p pos ms u)).
Proof.
  intros Sh Hc -> L E St M.
  destruct Sh as [c s' B A A' C Hm|m s' B A A' Hm Hm' Nb|m r c s' B A A' Hm Hm' Hr
    |m s' B A A' Hm Hm' Nb|n c s' B A A' Hm Hm' B' Hn|Hs'|Hs'|k s' B K1 K2 K3|k Hs' K1 K2
    |]; try done; try subst s; rewrite ?run_last.
  - cbn. split_and!; auto using after_calls_refl; try lia.
    constructor; [rewrite Hm; apply M |]. intros m o G.
    apply (mo_only _ _ _ _ M) in G as [Ho [G|(_ & _ & [?|[? ?]])]]; [| congruence..].
    split; [destruct c; lia | rewrite Hm; auto].
  - destruct (set_mark_fresh m p pos ms u) as (ms' & Em & O); [by eapply marks_clear |].
    cbn. rewrite Em. cbn. split_and!; auto using after_calls_refl; try lia.
    constructor; intros m'; rewrite ?O; [rewrite Hm'; intros [= ->]; by rewrite decide_True |].
    intros o. case_decide; [| done]. intros [= <-]. split; [lia | left; congruence].
  - rewrite <- run_last. eapply called_weaken; [apply run_data with (s' := s'); auto; [destruct Hr; naive_solver lia |] |].
    + intros m' Hne. destruct (get_mark ms m') eqn:G; [| done].
      apply (mo_only _ _ _ _ M) in G as [_ [G|(_ & G & _)]]; congruence.
    + intros e [-> Me]. split; [lia | apply Me].
  - destruct (set_mark_fresh m p pos ms u) as (ms' & Em & O); [by eapply marks_clear |].
    rewrite run_MARK, Em. eapply called_weaken; [apply run_data with (s' := s'); auto; [lia |] |].
    + intros m' Hne. rewrite O. by case_decide.
    + intros e [-> Me]. split; [lia | apply Me].
  - eapply called_weaken; [apply callback_notify_called; [done | cbn; lia] |].
    cbn. intros e [-> ->]. split; [lia |]. apply marks_ok_intro; [done |].
    by eapply marks_clear.
  - eapply called_weaken; [apply headers_complete_called; [done | done | lia] |].
    cbn. intros e [-> ->]. split; [lia |]. apply marks_ok_intro; [done |].
    by eapply marks_clear.
  - rewrite <- run_last. eapply called_weaken;
      [apply run_data with (s' := s_chunk_data_done); auto; [lia |] |].
    + intros m' Hne. destruct (get_mark ms m') eqn:G; [| done].
      apply (mo_only _ _ _ _ M) in G as [_ [G|(G & _)]]; [done | congruence].
    + intros e [-> Me]. split; [lia | apply Me].
  - by eapply run_bulk.
  - destruct (set_mark_fresh M_body p pos ms u) as (ms' & Em & O); [by eapply marks_clear |].
    rewrite run_MARK, Em, run_ADVANCE.
    eapply called_weaken; [apply run_data with (s' := s_message_done); auto; [lia.. |] |].
    + intros m' Hne. rewrite O. by case_decide.
    + intros e [-> Me]. split; [lia | apply Me].
Qed.

(** ** One byte *)

(** the invariant at the head of the loop *)
Definition head_ok (e : env U) : Prop :=
  fields_ok (e_parser e) /\ state_ok 0 (e_parser e) /\ hp_errno (e_parser e) = HPE_OK /\
  marks_ok len (hp_state (e_parser e)) (e_p e) (e_marks e).

Definition next_byte (e : env U) : env U :=
  mk_env (e_parser e) (e_p e + 1) (e_marks e) (e_user e).

Definition byte_done (pos : nat) (r : result (flow U)) : Prop :=
  match r with
  | Ok (Continue e) => (pos <= e_p e < len)%nat /\ head_ok (next_byte e)
  | Ok (Stop n q _) => stop_ok n q
  | Fault _ => False
  end.

Lemma called_stop p n q :
  after_calls p q -> (n <= len)%nat -> fields_ok p -> state_ok 0 p -> stop_ok n q.
Proof.
  intros C L F S. split; [done |]. intros _. split; [by eapply after_calls_ok |].
  by eapply after_calls_state_ok.
Qed.

Lemma error_exit_ok (e : env U) : hp_errno (e_parser e) <> HPE_PAUSED -> (e_p e <= len)%nat ->
  exists n q v, error_exit e = Stop n q v /\ stop_ok n q.
Proof.
  intros E L. unfold error_exit. eexists _, _, _. split; [reflexivity |]. split; [done |].
  destruct (is_OK (e_parser e)) eqn:K; cbn; [intros [?|?]; done |].
  intros [H|?]; [| done]. apply is_OK_spec in H. congruence.
Qed.

(** The actions of an error set at most a mark. *)
Lemma run_error rem s s' acts p pos ms u :
  shape rem s acts GotoError s' ->
  exists ms', run_actions settings data acts (mk_env p pos ms u) =
    Ok (Continue (mk_env p pos ms' u)).
Proof.
  inversion 1 as [| | ? ? ? ? ? ? ? ? ? [[? ?]|[? ?]]| | ? ? ? ? ? ? ? ? ? [?|?]| | | | |
    acts' s'' [->|[m ->]]]; subst; try done.
  - by eexists.
  - cbn. unfold set_mark. cbn. case_goal; by eexists.
Qed.

Lemma reexecute_byte_ok fuel ch e :
  (rank (hp_state (e_parser e)) <= fuel)%nat -> 0 <= ch < 256 -> (e_p e < len)%nat ->
  fields_ok (e_parser e) -> state_ok 1 (e_parser e) -> hp_errno (e_parser e) = HPE_OK ->
  marks_ok len (hp_state (e_parser e)) (e_p e) (e_marks e) ->
  byte_done (e_p e) (reexecute_byte settings data fuel ch e).
Proof.
  revert e. induction fuel as [|fuel IH]; intros [p pos ms u]; cbn [e_parser e_p e_marks].
  { destruct (hp_state p); cbn; lia. }
  intros R Hch L F S E M. cbn [reexecute_byte e_parser e_p e_marks e_user].
  assert (Hrem : 1 <= Z.of_nat len - Z.of_nat pos) by lia.
  destruct (switch_ok ch _ Hch Hrem p F S E) as (p' & acts & c & -> & Sh & A).
  cbn [mbind result_bind]. destruct (decide (c = GotoError)) as [->|Hc].
  { destruct (run_error _ _ _ _ p' pos ms u Sh) as [ms' ->]. cbn [mbind result_bind].
    destruct (error_exit_ok (mk_env p' pos ms' u)) as (n & q & v & -> & Hq); [done | cbn; lia |].
    done. }
  assert (Hf : fields_ok p' /\ state_ok 0 p' /\ hp_errno p' = HPE_OK)
    by (unfold after_ok in A; destruct c; naive_solver congruence).
  destruct Hf as (F' & S' & E').
  pose proof (run_shape _ _ _ c p' pos ms u _ Sh Hc eq_refl L E' eq_refl M) as C.
  destruct (run_actions _ _ _ _) as [[e|n q v]|]; [| | done]; cbn in C |- *.
  2: { destruct C. by eapply called_stop. }
  destruct C as (C & Ee & Hp & Me).
  pose proof (after_calls_ok _ _ C F') as Fe. pose proof (after_calls_state _ _ C) as Hst.
  pose proof (after_calls_state_ok _ _ _ C S') as Se.
  destruct c; try done; cbn.
  - split; [done |]. unfold head_ok. cbn. rewrite Hst. auto.
  - destruct A as (_ & Sn & _ & Hr & _). pose proof (IH e) as IH'.
    rewrite Hst in IH'. specialize (IH' ltac:(lia) Hch ltac:(lia) Fe).
    specialize (IH' (after_calls_state_ok _ _ _ C (Sn 1)) Ee Me).
    destruct (reexecute_byte _ _ _ _ _) as [[e'|]|]; cbn in *; [| done..].
    destruct IH'. split; [lia | done].
  - split; [lia | by intros _].
Qed.

Lemma rank_bound s : (rank s <= 4)%nat.
Proof. destruct s; cbn; lia. Qed.

Lemma bump_fields p : fields_ok p -> hp_nread (p |> set_nread (hp_nread p + 1)) <= HTTP_MAX_HEADER_SIZE ->
  fields_ok (p |> set_nread (hp_nread p + 1)).
Proof. intros F H. destruct F. constructor; try done. cbn in *. split; [apply u32_range | done]. Qed.

Lemma bump_state p : fields_ok p -> state_ok 0 p -> state_ok 1 (p |> set_nread (hp_nread p + 1)).
Proof.
  intros F S. unfold state_ok in *. parser_cbn. destruct (hp_state p); try done.
  destruct S as [? ->]. done.
Qed.

Lemma one_byte_ok ch e :
  head_ok e -> 0 <= ch < 256 -> (e_p e < len)%nat ->
  byte_done (e_p e) (one_byte settings data ch e).
Proof.
  intros (F & S & E & M) Hch L. unfold one_byte.
  pose proof (rank_bound (hp_state (e_parser e))).
  destruct (PARSING_HEADER _) eqn:H1.
  - cbv zeta. case_goal.
    + match goal with |- byte_done _ (Ok (error_exit ?e')) =>
        destruct (error_exit_ok e') as (n & q & v & -> & Hq); [done | cbn; lia | done] end.
    + rewrite Z.gtb_ltb in *. breflect.
      match goal with |- byte_done _ (reexecute_byte _ _ _ _ ?e') =>
        apply (reexecute_byte_ok 4 ch e'); cbn [e_parser e_p e_marks]; auto end.
      * by apply bump_fields.
      * by apply bump_state.
  - apply reexecute_byte_ok; auto.
    unfold state_ok in *. by destruct (hp_state (e_parser e)).
Qed.

(** ** The whole call *)

(** a run that kept the parser in the invariant, or a stop *)
Definition kept (r : result (flow U)) : Prop :=
  match r with
  | Ok (Continue e) => fields_ok (e_parser e) /\ state_ok 0 (e_parser e) /\
                       hp_errno (e_parser e) = HPE_OK
  | Ok (Stop n q _) => stop_ok n q
  | Fault _ => False
  end.

Lemma run_flush l e :
  fields_ok (e_parser e) -> state_ok 0 (e_parser e) -> hp_errno (e_parser e) = HPE_OK ->
  (e_p e <= len)%nat -> kept (run_actions settings data (CALLBACK_DATA_NOADVANCE <$> l) e).
Proof.
  revert e. induction l as [|m l IH]; intros [p pos ms u] F S E L; cbn in *; [done |].
  pose proof (callback_data_called m 0 0 p pos ms u E ltac:(lia)) as C.
  destruct (callback_data _ _ _ _ _ _) as [[e'|n q v]|]; [| | done]; cbn in C |- *.
  - destruct C as (C & E' & Hp & _).
    apply IH; [by eapply after_calls_ok | by eapply after_calls_state_ok | done | lia].
  - destruct C. by eapply called_stop.
Qed.

Lemma marks_one s pos ms m m' o o' :
  marks_ok len s pos ms -> get_mark ms m = Some o -> get_mark ms m' = Some o' -> m = m'.
Proof.
  intros M G G'. apply (mo_only _ _ _ _ M) in G as [_ G]. apply (mo_only _ _ _ _ M) in G' as [_ G'].
  naive_solver congruence.
Qed.

Lemma leftover_ok e :
  head_ok e -> (e_p e <= len)%nat -> kept (leftover settings data e).
Proof.
  intros (F & S & E & M) L. unfold leftover.
  assert (One : (is_set (header_field_mark (e_marks e)) + is_set (header_value_mark (e_marks e)) +
    is_set (url_mark (e_marks e)) + is_set (body_mark (e_marks e)) <=? 1)%nat = true).
  { pose proof (fun m m' o o' => marks_one _ _ _ m m' o o' M) as One.
    destruct (e_marks e) as [[a|] [b|] [c|] [d|]]; try done; exfalso;
      first [ discriminate (One M_header_field M_header_value _ _ eq_refl eq_refl)
            | discriminate (One M_header_field M_url _ _ eq_refl eq_refl)
            | discriminate (One M_header_field M_body _ _ eq_refl eq_refl)
            | discriminate (One M_header_value M_url _ _ eq_refl eq_refl)
            | discriminate (One M_header_value M_body _ _ eq_refl eq_refl)
            | discriminate (One M_url M_body _ _ eq_refl eq_refl) ]. }
  rewrite One. cbn [c_assert].
  apply (run_flush [M_header_field; M_header_value; M_url; M_body] e F S E L).
Qed.

Definition call_ok (r : result (nat * http_parser * U)) : Prop :=
  match r with
  | Ok (n, q, _) => stop_ok n q
  | Fault _ => False
  end.

Lemma exec_loop_ok fuel e :
  bytes_ok data -> head_ok e -> (e_p e <= len)%nat -> (len - e_p e <= fuel)%nat ->
  call_ok (exec_loop settings data fuel e).
Proof.
  intros Hd. revert e. induction fuel as [|fuel IH]; intros e He L Lf; cbn [exec_loop];
    (destruct (e_p e =? len)%nat eqn:Ep; breflect;
     [pose proof (leftover_ok e He L) as K; destruct (leftover _ _ _) as [[e'|]|]; cbn in *;
      [split; [lia | naive_solver] | done..] |]); [lia |].
  destruct (lookup_lt_is_Some_2 data (e_p e) ltac:(lia)) as [ch Hch]. rewrite Hch.
  pose proof (Forall_lookup_1 _ _ _ _ Hd Hch) as Hb.
  pose proof (one_byte_ok ch e He Hb ltac:(lia)) as K.
  destruct (one_byte _ _ _ _) as [[e'|]|]; cbn in *; [| done..].
  apply IH; [apply K | cbn; lia..].
Qed.

Lemma entry_marks_ok s : marks_ok len s 0 (entry_marks s).
Proof.
  destruct s; constructor; intros []; cbn; intros; simplify_eq; auto.
Qed.

Lemma callback_notify_eof p u :
  fields_ok p -> state_ok 0 p -> hp_errno p = HPE_OK ->
  kept (callback_notify settings N_message_complete 0 (mk_env p 0 no_marks u)).
Proof.
  intros F S E. pose proof (callback_notify_called N_message_complete 0 p 0 no_marks u E) as C.
  specialize (C ltac:(lia)).
  destruct (callback_notify _ _ _ _) as [[e'|n q v]|]; [| | done]; cbn in C |- *.
  - destruct C as (C & E' & _). split_and!; [by eapply after_calls_ok | | done].
    by eapply after_calls_state_ok.
  - destruct C. by eapply called_stop.
Qed.
End Safe.

(** The invariant holds of a fresh parser. *)
Lemma init_ok t : parser_ok (http_parser_init t).
Proof. destruct t; (split; [constructor; cbn; unfold HTTP_MAX_HEADER_SIZE, ULLONG_MAX; lia | done]). Qed.

Lemma execute_ok {U} (settings : http_parser_settings U) data p u :
  settings_ok settings -> bytes_ok data -> parser_ok p ->
  exists n q v, http_parser_execute settings data p u = Ok (n, q, v) /\
    (n <= Nat.max 1 (length data))%nat /\
    (hp_errno q = HPE_OK \/ hp_errno q = HPE_PAUSED -> parser_ok q).
Proof.
  intros Hs Hd [F S]. unfold http_parser_execute.
  destruct (is_OK p) eqn:E; cbn [negb];
    [apply is_OK_spec in E | by eexists _, _, _; split_and!; [done | lia |]].
  destruct data as [|b data]; [| set (d := b :: data) in *].
  - unfold execute_eof. destruct (hp_state p) eqn:St;
      try (by eexists _, _, _; split_and!; [done | cbn; lia | cbn; intros [?|?]]);
      try (by eexists _, _, _; split_and!; [done | cbn; lia |]).
    pose proof (callback_notify_eof settings Hs [] p u F S E) as K.
    destruct (callback_notify _ _ _ _) as [[e'|n q v]|]; cbn in *; [| | done].
    + eexists _, _, _. split_and!; [done | lia |]. intros _. split; apply K.
    + destruct K as [K1 K2]. eexists _, _, _. split_and!; [done | cbn in K1; lia | done].
  - pose proof (exec_loop_ok settings Hs d (length d) (mk_env p 0 (entry_marks (hp_state p)) u) Hd)
      as K. change (match d with [] => _ | _ => ?x end) with x.
    destruct (exec_loop _ _ _ _) as [[[n q] v]|]; cbn [call_ok] in K.
    + destruct K as [K1 K2].
      * split_and!; auto using entry_marks_ok.
      * cbn; lia.
      * cbn; lia.
      * eexists _, _, _. split_and!; [done | lia | done].
    + destruct K; [| cbn; lia..]. split_and!; auto using entry_marks_ok.
Qed.

(** C3: The HTTP parser is memory safe and total: started in its invariant (as
    every fresh parser is), on any bytes and with callbacks that at most pause
    it, [http_parser_execute] fails no assertion, reads inside the data and its
    constants, and returns; it reports no more bytes than it was given (one for
    an end of stream it did not expect); and unless it reports an error the
    parser is in its invariant again, ready for the next call. *)
Theorem http_parser_safe {U} (settings : http_parser_settings U) data p u :
  settings_ok settings -> bytes_ok data -> parser_ok p ->
  exists n q v, http_parser_execute settings data p u = Ok (n, q, v) /\
    (n <= Nat.max 1 (length data))%nat /\
    (hp_errno q = HPE_OK \/ hp_errno q = HPE_PAUSED -> parser_ok q).
Proof. apply execute_ok. Qed.

(** a callback that pauses the parser at the end of the headers *)
Definition pausing : http_parser_settings nat :=
  mk_settings None None None None
    (Some (fun p u => (0, SET_ERRNO HPE_PAUSED p, S u))) None None.

Lemma pausing_ok : settings_ok pausing.
Proof.
  split.
  - by intros [].
  - by intros [].
  - intros cb [= <-] p u. by right.
Qed.

Lemma http_parser_safe_witness :
  parser_ok (http_parser_init HTTP_REQUEST) /\
  exists n q v, http_parser_execute pausing
      (bs "GET / HTTP/1.1" ++ [13; 10; 13; 10; 71]) (http_parser_init HTTP_REQUEST) 0%nat =
      Ok (n, q, v) /\
    (n <= 19)%nat /\ (hp_errno q = HPE_OK \/ hp_errno q = HPE_PAUSED -> parser_ok q).
Proof.
  split; [apply init_ok |].
  apply (http_parser_safe pausing (bs "GET / HTTP/1.1" ++ [13; 10; 13; 10; 71])
    (http_parser_init HTTP_REQUEST) 0%nat).
  - exact pausing_ok.
  - by apply bytes_okb_spec.
  - apply init_ok.
Defined.
