(* ===== verification/HttpParserStream.v ===== *)
(** * The HTTP parser of the Capture client on a stream

    What the parser reports does not depend on how the input is cut into calls
    of [http_parser_execute], for callbacks that only collect what they are
    given.  A call is compared with another one that started later in the
    same bytes: they run in lockstep, and differ only in the marks they have
    not yet reported. *)
From Stdlib Require Import ZArith Lia Ascii.
From stdpp Require Import base list strings numbers.
From S2P Require Import Prelude HttpParserDef HttpParserCases HttpParserExec.
From S2P Require Import HttpParserInv HttpParserSafe.

Local Open Scope Z_scope.

(** ** Collecting callbacks *)

(** A collector folds what the callbacks are given into the user state: data
    in pieces counts like data in one piece. *)
Class Collector (U : Type) := {
  on_bytes : mark -> bytes -> U -> U;
  on_event : notification -> U -> U;
  on_complete : U -> U;
  on_bytes_nil : forall m u, on_bytes m [] u = u;
  on_bytes_app : forall m a b u, on_bytes m (a ++ b) u = on_bytes m b (on_bytes m a u);
}.

Section Stream.
Context {U : Type} `{Collector U}.
Implicit Type (d : bytes) (u v : U) (p : http_parser).

Definition collect_data (m : mark) : http_data_cb U :=
  fun p d o l u => (0, p, on_bytes m (take l (drop o d)) u).

(** the settings whose callbacks collect and return 0 *)
Definition collecting : http_parser_settings U :=
  mk_settings (Some (fun p u => (0, p, on_event N_message_begin u)))
    (Some (collect_data M_url)) (Some (collect_data M_header_field))
    (Some (collect_data M_header_value)) (Some (fun p u => (0, p, on_complete u)))
    (Some (collect_data M_body)) (Some (fun p u => (0, p, on_event N_message_complete u))).

Lemma collecting_ok : settings_ok collecting.
Proof.
  split.
  - intros [] cb [= <-]; by left.
  - intros [] cb [= <-]; by left.
  - intros cb [= <-]. by left.
Qed.

Lemma on_data_collecting m : on_data collecting m = Some (collect_data m).
Proof. by destruct m. Qed.

Lemma on_notify_collecting n :
  on_notify collecting n = Some (fun p u => (0, p, on_event n u)).
Proof. by destruct n. Qed.

(** ** Pending data *)

Definition pend d ms pos (m : mark) u : U :=
  match get_mark ms m with
  | Some o => on_bytes m (take (pos - o) (drop o d)) u
  | None => u
  end.

(** the user state once the data behind the marks is reported *)
Definition flush d ms pos u : U :=
  pend d ms pos M_body (pend d ms pos M_url (pend d ms pos M_header_value
    (pend d ms pos M_header_field u))).

Lemma flush_none d ms pos u : (forall m, get_mark ms m = None) -> flush d ms pos u = u.
Proof. intros N. unfold flush, pend. by rewrite !N. Qed.

Lemma flush_only d ms pos u m o :
  only_mark m o ms -> flush d ms pos u = on_bytes m (take (pos - o) (drop o d)) u.
Proof. intros O. unfold flush, pend. rewrite !O. by destruct m. Qed.

(** The marks are clear or exactly one is set. *)
Lemma marks_cases len s pos ms :
  marks_ok len s pos ms ->
  mark_of s = None /\ (forall m, get_mark ms m = None) \/
  exists m o, only_mark m o ms /\ (o <= pos)%nat /\
    (mark_of s = Some m \/
     m = M_body /\ mark_of s = None /\
     (after_chunk s = true \/ bulk s = true /\ pos = len)).
Proof.
  intros M.
  assert (D : (exists m o, get_mark ms m = Some o) \/ forall m, get_mark ms m = None).
  { destruct ms as [[o|] [o1|] [o2|] [o3|]];
      first [ by right; intros [] | left; by exists M_header_field, o
            | left; by exists M_header_value, o1 | left; by exists M_url, o2
            | left; by exists M_body, o3 ]. }
  destruct D as [(m & o & Hm)|N'].
  - right. exists m, o. destruct (mo_only _ _ _ _ M _ _ Hm) as [Ho Hc].
    split; [| by auto]. intros m'. case_decide as D; [by subst |].
    destruct (get_mark ms m') as [o'|] eqn:G; [| done]. destruct D.
    destruct (mo_only _ _ _ _ M _ _ G) as [_ Hc']. naive_solver congruence.
  - left. split; [| done]. destruct (mark_of s) as [m|] eqn:E; [| done].
    apply (mo_set _ _ _ _ M) in E as [? E]. by rewrite N' in E.
Qed.

(** ** The macros on a stream *)

Fixpoint advance (acts : list action) : nat :=
  match acts with
  | [] => 0
  | ADVANCE n :: acts => n + advance acts
  | _ :: acts => advance acts
  end.

(** what the actions of a case do to the reported state; [taken] are the
    bytes from the current one to the new position *)
Fixpoint report (taken : bytes) (acts : list action) u : U :=
  match acts with
  | [] => u
  | CALLBACK_DATA_ m (S _) _ :: acts => report taken acts (on_bytes m taken u)
  | CALLBACK_NOTIFY n :: acts => report taken acts (on_event n u)
  | HEADERS_COMPLETE :: acts => report taken acts (on_complete u)
  | _ :: acts => report taken acts u
  end.

Definition bulk_read (acts : list action) : bool :=
  match acts with MARK M_body :: _ => true | _ => false end.

(** ... and what the bytes taken add when the byte is finished *)
Definition report_end (taken : bytes) (acts : list action) (c : control) (s' : state) u : U :=
  let u := report taken acts u in
  match c with
  | Reexecute | GotoError => u
  | _ => match mark_of s' with
         | Some m => on_bytes m taken u
         | None => if bulk_read acts then on_bytes M_body taken u else u
         end
  end.

Lemma callback_data_stream d m l r p pos ms u :
  hp_errno p = HPE_OK ->
  callback_data collecting d m l r (mk_env p pos ms u) =
  Ok (Continue (mk_env p pos (put_mark m None ms)
    match get_mark ms m with
    | Some o => on_bytes m (take (pos - o + l) (drop o d)) u
    | None => u
    end)).
Proof.
  intros E. unfold callback_data. cbn [e_parser e_marks e_p e_user].
  apply is_OK_spec in E as K. rewrite K. cbn [c_assert].
  destruct (get_mark ms m) as [o|] eqn:G.
  - rewrite on_data_collecting. cbn. by rewrite K.
  - f_equal. f_equal. f_equal. by destruct m, ms; cbn in *; subst.
Qed.

Lemma callback_notify_stream n r p pos ms u :
  hp_errno p = HPE_OK ->
  callback_notify collecting n r (mk_env p pos ms u) =
  Ok (Continue (mk_env p pos ms (on_event n u))).
Proof.
  intros E. unfold callback_notify. cbn [e_parser e_marks e_p e_user].
  apply is_OK_spec in E as K. rewrite K. cbn [c_assert].
  rewrite on_notify_collecting. cbn. by rewrite K.
Qed.

Lemma headers_complete_stream p pos ms u :
  hp_errno p = HPE_OK ->
  headers_complete collecting (mk_env p pos ms u) =
  Continue (mk_env p pos ms (on_complete u)).
Proof.
  intros E. unfold headers_complete. cbn. apply is_OK_spec in E as K. by rewrite K.
Qed.

(** one more byte behind a mark *)
Lemma take_next d o pos :
  (o <= pos)%nat ->
  take (pos + 1 - o) (drop o d) = take (pos - o) (drop o d) ++ take 1 (drop pos d).
Proof.
  intros L. replace (pos + 1 - o)%nat with ((pos - o) + 1)%nat by lia.
  rewrite <- take_take_drop, drop_drop. do 3 f_equal. lia.
Qed.

(** A data callback reports what is pending behind its mark. *)
Lemma run_data_stream d m r p pos ms u s :
  hp_errno p = HPE_OK -> marks_ok (length d) s pos ms -> (pos < length d)%nat ->
  (mark_of s = Some m \/ m = M_body /\ after_chunk s = true) ->
  exists ms', run_actions collecting d [CALLBACK_DATA_ m 0 r] (mk_env p pos ms u) =
    Ok (Continue (mk_env p pos ms' (flush d ms pos u))) /\
    forall m', get_mark ms' m' = None.
Proof.
  intros E M L Hm. rewrite run_last. cbn [run_action].
  rewrite callback_data_stream by done. eexists. split; [do 2 f_equal | ].
  - destruct (marks_cases _ _ _ _ M) as [[Hn N]|(m' & o & O & Ho & Hcs)].
    + by rewrite N, flush_none.
    + assert (m' = m) as -> by (destruct s; naive_solver).
      rewrite O, decide_True, (flush_only _ _ _ _ _ _ O), Nat.add_0_r by done. done.
  - intros m'. rewrite get_put_mark. case_decide as D; [done |].
    destruct (marks_cases _ _ _ _ M) as [[Hn N]|(m1 & o & O & Ho & Hcs)]; [done |].
    rewrite O. case_decide; [| done]. destruct s; naive_solver.
Qed.

(** The start of a mark: nothing is pending before it. *)
Lemma start_mark d s m p pos ms u :
  marks_ok (length d) s pos ms -> (pos < length d)%nat ->
  mark_of s = None -> after_chunk s = false ->
  exists ms', set_mark m (mk_env p pos ms u) = mk_env p pos ms' u /\ only_mark m pos ms' /\
    flush d ms pos u = u.
Proof.
  intros M L Hm A. pose proof (marks_clear d s pos ms M L Hm A) as N.
  destruct (set_mark_fresh m p pos ms u N) as (ms' & ? & ?).
  exists ms'. by rewrite flush_none.
Qed.

(** The macros of a case report the same whatever was pending: only the bytes
    taken and the state reported so far count. *)
Lemma run_stream d s s' acts c p pos ms u :
  shape (Z.of_nat (length d) - Z.of_nat pos) s acts c s' -> c <> GotoError ->
  (pos < length d)%nat -> hp_errno p = HPE_OK -> marks_ok (length d) s pos ms ->
  let taken := take (advance acts + 1) (drop pos d) in
  exists ms' u', run_actions collecting d acts (mk_env p pos ms u) =
    Ok (Continue (mk_env p (pos + advance acts) ms' u')) /\
    flush d ms' (match c with Reexecute => pos + advance acts
                 | _ => pos + advance acts + 1 end)%nat u' =
    report_end taken acts c s' (flush d ms pos u).
Proof.
  intros Sh Hc L E M.
  destruct Sh as [c s' B A A' C Hm|m s' B A A' Hm Hm' Nb|m r c s' B A A' Hm Hm' Hr
    |m s' B A A' Hm Hm' Nb|n c s' B A A' Hm Hm' B' Hn|Hs'|Hs'|k s' B K1 K2 K3|k Hs' K1 K2
    |]; try done; try subst s; cbn [advance].
  - exists ms, u. rewrite Nat.add_0_r. split; [done |]. unfold report_end. cbn [report bulk_read].
    destruct (marks_cases _ _ _ _ M) as [[Hn N]|(m & o & O & Ho & Hcs)].
    + rewrite !flush_none, Hm, Hn by done. by destruct c.
    + assert (Hms : mark_of s = Some m).
      { destruct Hcs as [?|(_ & _ & [?|[? ?]])]; [done | congruence | lia]. }
      rewrite !(flush_only _ _ _ _ _ _ O), Hm, Hms. destruct c; try done.
      by rewrite take_next, on_bytes_app by done.
  - destruct (start_mark d s m p pos ms u M L Hm A) as (ms' & Em & O & Fl).
    exists ms', u. rewrite run_MARK, Em, Nat.add_0_r. split; [done |].
    unfold report_end. cbn [report]. rewrite Hm', Fl, (flush_only _ _ _ _ _ _ O).
    by replace (pos + 1 - pos)%nat with 1%nat by lia.
  - destruct (run_data_stream d m r p pos ms u s E M L (or_introl Hm)) as (ms' & -> & N).
    rewrite Nat.add_0_r. eexists _, _. split; [done |]. rewrite flush_none by done.
    unfold report_end. cbn. rewrite Hm'. by destruct c.
  - destruct (start_mark d s m p pos ms u M L Hm A) as (ms' & Em & O & Fl).
    rewrite run_MARK, Em, run_last, Nat.add_0_r. cbn [run_action].
    rewrite callback_data_stream by done. eexists _, _. split; [done |].
    rewrite O, decide_True, Nat.sub_diag, on_bytes_nil by done.
    rewrite flush_none by (by eapply only_mark_cleared).
    unfold report_end. cbn [report bulk_read]. rewrite Hm', Fl. by destruct m.
  - rewrite run_last, Nat.add_0_r. cbn [run_action]. rewrite callback_notify_stream by done.
    pose proof (marks_clear d s pos ms M L Hm A) as N.
    eexists _, _. split; [done |]. unfold report_end. cbn. rewrite Hm', !flush_none by done.
    by destruct c.
  - rewrite run_last, Nat.add_0_r. cbn [run_action]. rewrite headers_complete_stream by done.
    pose proof (marks_clear d _ pos ms M L eq_refl eq_refl) as N.
    eexists _, _. split; [done |]. unfold report_end. cbn. by rewrite !flush_none.
  - destruct (run_data_stream d M_body 1 p pos ms u _ E M L) as (ms' & -> & N); [by right |].
    rewrite Nat.add_0_r. eexists _, _. split; [done |]. by rewrite flush_none.
  - destruct (bulk_unmarked s B) as [Hm A].
    destruct (start_mark d s M_body p pos ms u M L Hm A) as (ms' & Em & O & Fl).
    rewrite run_MARK, Em, run_ADVANCE. exists ms', u. rewrite Nat.add_0_r. split; [done |].
    assert (Hm' : mark_of s' = None)
      by (destruct K3 as [[K3 _]| ->]; [by apply bulk_unmarked | done]).
    unfold report_end. cbn [report bulk_read]. rewrite Hm', Fl, (flush_only _ _ _ _ _ _ O).
    do 2 f_equal. lia.
  - destruct (start_mark d _ M_body p pos ms u M L eq_refl eq_refl) as (ms' & Em & O & Fl).
    rewrite run_MARK, Em, run_ADVANCE, run_last. cbn [run_action].
    rewrite callback_data_stream, Nat.add_0_r by done. eexists _, _. split; [done |].
    rewrite O, decide_True by done. rewrite flush_none by (by eapply only_mark_cleared).
    unfold report_end. cbn [report]. rewrite Fl. do 2 f_equal. lia.
Qed.

(** ** Two calls in lockstep *)

(** Outside the bodies a case does not look at the number of bytes left. *)
Lemma switch_rem ch rem rem' p :
  bulk (hp_state p) = false -> switch ch rem p = switch ch rem' p.
Proof. unfold switch. by destruct (hp_state p). Qed.

Lemma shape_advance rem s acts c s' :
  shape rem s acts c s' -> bulk s = false -> advance acts = 0%nat.
Proof. destruct 1; intros; subst; try done; try congruence; naive_solver. Qed.

Lemma shape_return rem s acts s' :
  shape rem s acts Return s' -> mark_of s' = None /\ after_chunk s' = false /\ bulk s' = false.
Proof. inversion 1; subst; try done; naive_solver. Qed.

(** The next case of both calls sees the same bytes and does the same. *)
Definition sync ch p d pos d' pos' : Prop :=
  exists q acts c,
    switch ch (Z.of_nat (length d) - Z.of_nat pos) p = Ok (q, acts, c) /\
    switch ch (Z.of_nat (length d') - Z.of_nat pos') p = Ok (q, acts, c) /\
    take (advance acts + 1) (drop pos d) = take (advance acts + 1) (drop pos' d').

Lemma sync_plain ch p d pos d' pos' :
  0 <= ch < 256 -> fields_ok p -> state_ok 1 p -> hp_errno p = HPE_OK ->
  bulk (hp_state p) = false -> (pos < length d)%nat ->
  take 1 (drop pos d) = take 1 (drop pos' d') -> sync ch p d pos d' pos'.
Proof.
  intros Hch F S E B L T.
  destruct (switch_ok ch (Z.of_nat (length d) - Z.of_nat pos) Hch ltac:(lia) p F S E)
    as (q & acts & c & Sw & Sh & _).
  exists q, acts, c. split; [done |]. split; [by rewrite <- Sw; apply switch_rem |].
  by rewrite (shape_advance _ _ _ _ _ Sh B).
Qed.

Definition lockstep d pos d' pos' (r r' : result (flow U)) : Prop :=
  match r, r' with
  | Ok (Continue e), Ok (Continue e') =>
    e_parser e = e_parser e' /\ (e_p e + pos' = e_p e' + pos)%nat /\
    flush d (e_marks e) (e_p e + 1) (e_user e) = flush d' (e_marks e') (e_p e' + 1) (e_user e')
  | Ok (Stop n q v), Ok (Stop n' q' v') =>
    q = q' /\ (n + pos' = n' + pos)%nat /\ (hp_errno q = HPE_OK -> v = v')
  | _, _ => False
  end.

Lemma take_later d d' n pos pos' :
  take (n + 1) (drop pos d) = take (n + 1) (drop pos' d') ->
  take 1 (drop (pos + n) d) = take 1 (drop (pos' + n) d').
Proof.
  intros T. rewrite <- (drop_drop d), <- (drop_drop d').
  rewrite (take_drop_commute (drop pos d)), (take_drop_commute (drop pos' d')). by rewrite T.
Qed.

(** [run_stream] with the marks it leaves *)
Lemma run_marked d s s' acts c p pos ms u :
  shape (Z.of_nat (length d) - Z.of_nat pos) s acts c s' -> c <> GotoError ->
  (pos < length d)%nat -> hp_errno p = HPE_OK -> hp_state p = s' ->
  marks_ok (length d) s pos ms ->
  exists ms1 u1, run_actions collecting d acts (mk_env p pos ms u) =
    Ok (Continue (mk_env p (pos + advance acts) ms1 u1)) /\
    (pos + advance acts < length d)%nat /\
    (let next := match c with Reexecute => pos + advance acts
                 | _ => pos + advance acts + 1 end in
     marks_ok (length d) s' next ms1 /\
     flush d ms1 next u1 =
     report_end (take (advance acts + 1) (drop pos d)) acts c s' (flush d ms pos u))%nat.
Proof.
  intros Sh Hc L E St M.
  destruct (run_stream d s s' acts c p pos ms u Sh Hc L E M) as (ms1 & u1 & R & Fl).
  pose proof (run_shape collecting collecting_ok d s s' acts c p pos ms u _ Sh Hc eq_refl L E St M)
    as C. rewrite R in C. cbn in C. destruct C as (_ & _ & ? & Me).
  exists ms1, u1. split_and!; auto; lia.
Qed.
Lemma reexecute_lockstep fuel ch d d' p pos pos' ms ms' u u' :
  (rank (hp_state p) <= fuel)%nat -> 0 <= ch < 256 ->
  (pos < length d)%nat -> (pos' < length d')%nat ->
  fields_ok p -> state_ok 1 p -> hp_errno p = HPE_OK ->
  marks_ok (length d) (hp_state p) pos ms -> marks_ok (length d') (hp_state p) pos' ms' ->
  flush d ms pos u = flush d' ms' pos' u' -> sync ch p d pos d' pos' ->
  lockstep d pos d' pos'
    (reexecute_byte collecting d fuel ch (mk_env p pos ms u))
    (reexecute_byte collecting d' fuel ch (mk_env p pos' ms' u')).
Proof.
  revert p pos pos' ms ms' u u'. induction fuel as [|fuel IH];
    intros p pos pos' ms ms' u u' R Hch L L' F S E M M' Fl (q & acts & c & Sw & Sw' & T).
  { destruct (hp_state p); cbn in R; lia. }
  pose proof (switch_ok ch (Z.of_nat (length d) - Z.of_nat pos) Hch ltac:(lia) p F S E) as K.
  pose proof (switch_ok ch (Z.of_nat (length d') - Z.of_nat pos') Hch ltac:(lia) p F S E) as K'.
  rewrite Sw in K. rewrite Sw' in K'.
  destruct K as (? & ? & ? & [= <- <- <-] & Sh & A).
  destruct K' as (? & ? & ? & [= <- <- <-] & Sh' & _).
  cbn [reexecute_byte e_parser e_p e_marks e_user]. rewrite Sw, Sw'. cbn [mbind result_bind].
  destruct (decide (c = GotoError)) as [->|Hc].
  { destruct (run_error collecting d _ _ _ _ q pos ms u Sh) as [m1 ->].
    destruct (run_error collecting d' _ _ _ _ q pos' ms' u' Sh') as [m2 ->].
    cbn. split_and!; [done | lia |]. destruct (is_OK q) eqn:O; [done |].
    intros ?%is_OK_spec. congruence. }
  assert (Hq : fields_ok q /\ hp_errno q = HPE_OK)
    by (unfold after_ok in A; destruct c; naive_solver congruence).
  destruct Hq as [F' E'].
  destruct (run_marked d _ _ acts c q pos ms u Sh Hc L E' eq_refl M)
    as (m1 & u1 & -> & L1 & Mk & Fl1).
  destruct (run_marked d' _ _ acts c q pos' ms' u' Sh' Hc L' E' eq_refl M')
    as (m2 & u2 & -> & L2 & Mk' & Fl2).
  rewrite T, Fl, <- Fl2 in Fl1. cbn [mbind result_bind]. destruct c; try done.
  - cbn. split_and!; [done | lia | done].
  - destruct A as (_ & Sn & _ & Hr & B).
    assert (Sy : sync ch q d (pos + advance acts) d' (pos' + advance acts))
      by (apply sync_plain; auto using take_later).
    specialize (IH q (pos + advance acts)%nat (pos' + advance acts)%nat m1 m2 u1 u2
      ltac:(lia) Hch L1 L2 F' (Sn 1) E' Mk Mk' Fl1 Sy).
    unfold lockstep in *. repeat case_goal; naive_solver lia.
  - cbn. split_and!; [done | lia |]. intros _.
    destruct (shape_return _ _ _ _ Sh) as (H1 & H2 & H3).
    rewrite !flush_none in Fl1; [done | |]; intros m.
    + destruct (get_mark m2 m) eqn:G; [| done].
      apply (mo_only _ _ _ _ Mk') in G as [_ G]. naive_solver congruence.
    + destruct (get_mark m1 m) eqn:G; [| done].
      apply (mo_only _ _ _ _ Mk) in G as [_ G]. naive_solver congruence.
Qed.

Lemma one_byte_lockstep ch d d' p pos pos' ms ms' u u' :
  0 <= ch < 256 -> (pos < length d)%nat -> (pos' < length d')%nat ->
  fields_ok p -> state_ok 0 p -> hp_errno p = HPE_OK ->
  marks_ok (length d) (hp_state p) pos ms -> marks_ok (length d') (hp_state p) pos' ms' ->
  flush d ms pos u = flush d' ms' pos' u' ->
  (bulk (hp_state p) = false -> take 1 (drop pos d) = take 1 (drop pos' d')) ->
  (bulk (hp_state p) = true -> sync ch p d pos d' pos') ->
  lockstep d pos d' pos'
    (one_byte collecting d ch (mk_env p pos ms u))
    (one_byte collecting d' ch (mk_env p pos' ms' u')).
Proof.
  intros Hch L L' F S E M M' Fl T B. unfold one_byte. cbn [e_parser e_p e_marks e_user].
  pose proof (rank_bound (hp_state p)). destruct (PARSING_HEADER _) eqn:P.
  - assert (Bf : bulk (hp_state p) = false) by (by destruct (hp_state p)).
    case_goal; [by cbn; split_and!; [| lia |] |]. rewrite Z.gtb_ltb in *. breflect.
    apply reexecute_lockstep; auto using bump_fields, bump_state.
    apply sync_plain; auto using bump_fields, bump_state.
  - assert (S1 : state_ok 1 p) by (unfold state_ok in *; by destruct (hp_state p)).
    apply reexecute_lockstep; auto. destruct (bulk (hp_state p)) eqn:Bk; [by apply B |].
    apply sync_plain; auto.
Qed.

(** ** Whole calls in lockstep *)

(** Two calls that started at different places of the same bytes: the same
    parser, the same place reached, and the same reports unless the call ends
    in an error, where what is behind a mark is dropped. *)
Definition same_call (pos pos' : nat) (r r' : result (nat * http_parser * U)) : Prop :=
  match r, r' with
  | Ok (n, q, v), Ok (n', q', v') =>
    q = q' /\ (n + pos' = n' + pos)%nat /\ (hp_errno q = HPE_OK -> v = v')
  | _, _ => False
  end.

Lemma pend_eq d ms pos m l r p u :
  hp_errno p = HPE_OK ->
  run_actions collecting d (CALLBACK_DATA_ m 0 r :: l) (mk_env p pos ms u) =
  run_actions collecting d l (mk_env p pos (put_mark m None ms) (pend d ms pos m u)).
Proof.
  intros E. cbn [run_actions run_action mbind result_bind].
  rewrite callback_data_stream by done. cbn [mbind result_bind]. unfold pend.
  destruct (get_mark ms m); [| done]. by rewrite Nat.add_0_r.
Qed.

Lemma leftover_stream d p pos ms u :
  head_ok d (mk_env p pos ms u) -> (pos <= length d)%nat ->
  leftover collecting d (mk_env p pos ms u) =
  Ok (Continue (mk_env p pos no_marks (flush d ms pos u))).
Proof.
  intros Hh L. pose proof (leftover_ok collecting collecting_ok d _ Hh L) as K.
  unfold leftover in *. destruct (_ <=? 1)%nat; [| done]. cbn [c_assert].
  destruct Hh as (_ & _ & E & _). cbn in E. clear K.
  unfold CALLBACK_DATA_NOADVANCE. rewrite !pend_eq by done. done.
Qed.

Lemma loop_end d p ms u fuel :
  head_ok d (mk_env p (length d) ms u) ->
  exec_loop collecting d fuel (mk_env p (length d) ms u) =
  Ok (length d, p, flush d ms (length d) u).
Proof.
  intros Hh. destruct fuel; cbn [exec_loop e_p]; rewrite Nat.eqb_refl,
    leftover_stream by done; done.
Qed.

Lemma drop_same d d' pos pos' n n' :
  drop pos d = drop pos' d' -> (pos <= n)%nat -> (n + pos' = n' + pos)%nat ->
  drop n d = drop n' d'.
Proof.
  intros D L Hn. replace n with (pos + (n - pos))%nat by lia.
  replace n' with (pos' + (n - pos))%nat by lia. rewrite <- !drop_drop. by rewrite D.
Qed.

Lemma drop_same_length d d' pos pos' :
  drop pos d = drop pos' d' -> (pos <= length d)%nat -> (pos' <= length d')%nat ->
  (length d + pos' = length d' + pos)%nat.
Proof. intros D L L'. apply (f_equal length) in D. rewrite !length_drop in D. lia. Qed.

Lemma sync_same ch p d pos d' pos' :
  0 <= ch < 256 -> fields_ok p -> state_ok 1 p -> hp_errno p = HPE_OK ->
  (pos < length d)%nat -> (pos' < length d')%nat -> drop pos d = drop pos' d' ->
  sync ch p d pos d' pos'.
Proof.
  intros Hch F S E L L' D.
  destruct (switch_ok ch (Z.of_nat (length d) - Z.of_nat pos) Hch ltac:(lia) p F S E)
    as (q & acts & c & Sw & _).
  pose proof (drop_same_length _ _ _ _ D ltac:(lia) ltac:(lia)).
  exists q, acts, c. split_and!; [done | | by rewrite D].
  rewrite <- Sw. f_equal. lia.
Qed.

Lemma bulk_state_ok n n' p : bulk (hp_state p) = true -> state_ok n p -> state_ok n' p.
Proof. unfold state_ok. by destruct (hp_state p). Qed.

Lemma loop_lockstep fuel fuel' d d' p pos pos' ms ms' u u' :
  bytes_ok d -> bytes_ok d' ->
  head_ok d (mk_env p pos ms u) -> head_ok d' (mk_env p pos' ms' u') ->
  flush d ms pos u = flush d' ms' pos' u' -> drop pos d = drop pos' d' ->
  (pos <= length d)%nat -> (pos' <= length d')%nat ->
  (length d - pos <= fuel)%nat -> (length d' - pos' <= fuel')%nat ->
  same_call pos pos' (exec_loop collecting d fuel (mk_env p pos ms u))
    (exec_loop collecting d' fuel' (mk_env p pos' ms' u')).
Proof.
  intros B B'. revert fuel' p pos pos' ms ms' u u'.
  induction fuel as [|fuel IH]; intros fuel' p pos pos' ms ms' u u' Hh Hh' Fl D L L' Lf Lf';
    pose proof (drop_same_length _ _ _ _ D L L') as Hl;
    (destruct (decide (pos = length d)) as [Hp|Hp];
     [ assert (Hp' : pos' = length d') by lia; subst pos pos';
       rewrite !loop_end by done; cbn; split_and!; [done | lia | done] |]); [lia |].
  destruct fuel' as [|fuel']; [lia |]. cbn [exec_loop e_p].
  rewrite (proj2 (Nat.eqb_neq pos (length d))), (proj2 (Nat.eqb_neq pos' (length d'))) by lia.
  destruct (lookup_lt_is_Some_2 d pos ltac:(lia)) as [ch Hch].
  assert (Hch' : d' !! pos' = Some ch).
  { rewrite <- Hch, <- (Nat.add_0_r pos), <- (Nat.add_0_r pos'), <- !lookup_drop. by rewrite D. }
  rewrite Hch, Hch'. pose proof (Forall_lookup_1 _ _ _ _ B Hch) as Hb.
  pose proof (one_byte_ok collecting collecting_ok d ch _ Hh Hb ltac:(cbn; lia)) as K.
  pose proof (one_byte_ok collecting collecting_ok d' ch _ Hh' Hb ltac:(cbn; lia)) as K'.
  destruct Hh as (F & S & E & M), Hh' as (_ & _ & _ & M'). cbn in F, S, E, M, M'.
  assert (Lk : lockstep d pos d' pos' (one_byte collecting d ch (mk_env p pos ms u))
    (one_byte collecting d' ch (mk_env p pos' ms' u'))).
  { apply one_byte_lockstep; auto; [lia | lia | by rewrite D |].
    intros Bk. apply sync_same; auto; [by eapply bulk_state_ok | lia | lia]. }
  destruct (one_byte collecting d ch _) as [[[q np nm nu]|]|], (one_byte collecting d' ch _)
    as [[[q' np' nm' nu']|]|]; cbn in K, K', Lk |- *; try done.
  destruct Lk as (<- & Hp1 & Fl1), K as [K Hn], K' as [K' Hn'].
  assert (R : same_call (np + 1) (np' + 1)
    (exec_loop collecting d fuel (mk_env q (np + 1) nm nu))
    (exec_loop collecting d' fuel' (mk_env q (np' + 1) nm' nu'))).
  { apply IH; auto; try lia. eapply drop_same; [done | lia | lia]. }
  unfold same_call in *. repeat case_goal; naive_solver lia.
Qed.

(** ** One byte more *)

Lemma execute_nonempty d p u :
  d <> [] -> hp_errno p = HPE_OK ->
  http_parser_execute collecting d p u =
  exec_loop collecting d (length d) (mk_env p 0 (entry_marks (hp_state p)) u).
Proof.
  intros Hd E. unfold http_parser_execute. apply is_OK_spec in E. rewrite E. by destruct d.
Qed.

Lemma entry_head_ok d p u :
  parser_ok p -> hp_errno p = HPE_OK -> head_ok d (mk_env p 0 (entry_marks (hp_state p)) u).
Proof. intros [F S] E. split_and!; auto using entry_marks_ok. Qed.

Lemma flush_entry d s u : flush d (entry_marks s) 0 u = u.
Proof. destruct s; unfold flush, pend; cbn; by rewrite ?take_0, ?on_bytes_nil. Qed.

(** A body that goes on after the next byte, and the parser after that byte *)
Definition long p : bool :=
  match hp_state p with
  | s_body_identity_eof => true
  | s_body_identity | s_chunk_data => 1 <? hp_content_length p
  | _ => false
  end.

Definition rest p : http_parser :=
  match hp_state p with
  | s_body_identity_eof => p
  | _ => p |> set_content_length (hp_content_length p - 1)
  end.

Lemma rest_ok p : parser_ok p -> long p = true ->
  parser_ok (rest p) /\ hp_errno (rest p) = hp_errno p /\ hp_state (rest p) = hp_state p.
Proof.
  intros [F S] G. unfold long, rest in *. destruct (hp_state p) eqn:St; try done; breflect.
  all: assert (U64 : u64 (hp_content_length p - 1) = hp_content_length p - 1)
    by (apply Z.mod_small; destruct F; unfold ULLONG_MAX in *; lia).
  all: assert (F' : fields_ok (p |> set_content_length (hp_content_length p - 1)))
    by fields_solve.
  all: (split; [split; [done |] | by split]); unfold state_ok in *;
    cbn [hp_state set_content_length] in *; rewrite St in *; parser_cbn;
    rewrite ?U64; destruct F; unfold ULLONG_MAX in *; split_and?; try lia; apply S.
Qed.

(** the bulk case on one byte, on [rem + 1] bytes, and on the [rem] bytes that
    follow the first *)
Lemma bulk_outcomes ch ch' rem p :
  parser_ok p -> long p = true -> 1 <= rem ->
  switch ch 1 p = Ok (rest p, [MARK M_body; ADVANCE 0], Break) /\
  exists k q tail c,
    switch ch (rem + 1) p = Ok (q, MARK M_body :: ADVANCE (S k) :: tail, c) /\
    switch ch' rem (rest p) = Ok (q, MARK M_body :: ADVANCE k :: tail, c) /\
    (tail = [] /\ c = Break /\ mark_of (hp_state q) = None \/
     tail = [CALLBACK_DATA_ M_body 1 0] /\ c = Reexecute /\ hp_state q = s_message_done).
Proof.
  intros [F S] G Hr. unfold long, rest, switch in *. split_parser p. parser_cbn.
  unfold state_ok in S. pose proof (fo_length _ F) as Hl. parser_cbn.
  unfold ULLONG_MAX in *. destruct st; try done; parser_cbn.
  3: { split; [done |]. unfold case_s_body_identity_eof.
       eexists (Z.to_nat (rem - 1)), _, _, _. split_and!; [| reflexivity | by auto].
       replace (Datatypes.S (Z.to_nat (rem - 1))) with (Z.to_nat (rem + 1 - 1)) by lia. done. }
  all: breflect; assert (H1 : u64 (cl - 1) = cl - 1) by (apply Z.mod_small; lia).
  all: assert (Hm : Z.min (cl - 1) rem = Z.min cl (rem + 1) - 1) by lia.
  all: assert (H2 : u64 (cl - Z.min cl (rem + 1)) = cl - Z.min cl (rem + 1))
    by (apply Z.mod_small; lia).
  all: unfold case_s_chunk_data, case_s_body_identity; parser_cbn.
  all: rewrite ?(proj1 S), H1, (Z.min_r cl 1), Hm, H1 by lia.
  all: replace (cl - 1 - (Z.min cl (rem + 1) - 1)) with (cl - Z.min cl (rem + 1)) by lia.
  all: rewrite H2; unfold ULLONG_MAX.
  all: rewrite (proj2 (Z.eqb_neq cl 0)), (proj2 (Z.eqb_neq cl 18446744073709551615)),
    (proj2 (Z.eqb_neq (cl - 1) 0)), (proj2 (Z.eqb_neq (cl - 1) 18446744073709551615)) by lia.
  all: cbn [c_assert negb andb]; (split; [done |]).
  all: eexists (Z.to_nat (Z.min cl (rem + 1) - 1 - 1)).
  all: replace (Datatypes.S (Z.to_nat (Z.min cl (rem + 1) - 1 - 1)))
    with (Z.to_nat (Z.min cl (rem + 1) - 1)) by lia.
  all: case_goal; eexists _, _, _; split_and!; try reflexivity; auto.
Qed.

Lemma message_done_any_byte fuel ch ch' d e :
  hp_state (e_parser e) = s_message_done ->
  reexecute_byte collecting d fuel ch e = reexecute_byte collecting d fuel ch' e.
Proof.
  intros St. destruct fuel; [done |]. cbn [reexecute_byte]. unfold switch. by rewrite St.
Qed.

(** A bulk read at the start of a call. *)
Lemma bulk_run d p u ch q acts c :
  parser_ok p -> hp_errno p = HPE_OK -> bulk (hp_state p) = true -> d <> [] ->
  0 <= ch < 256 -> switch ch (Z.of_nat (length d)) p = Ok (q, acts, c) ->
  c = Break \/ c = Reexecute ->
  after_ok p q c /\ exists ms u',
    one_byte collecting d ch (mk_env p 0 no_marks u) =
    (match c with
     | Reexecute => reexecute_byte collecting d 3 ch (mk_env q (advance acts) ms u')
     | _ => Ok (Continue (mk_env q (advance acts) ms u'))
     end) /\
    (let next := match c with Reexecute => advance acts | _ => advance acts + 1 end in
     (advance acts < length d)%nat /\ marks_ok (length d) (hp_state q) next ms /\
     flush d ms next u' = report_end (take (advance acts + 1) d) acts c (hp_state q) u)%nat.
Proof.
  intros [F S] E B Hd Hch Sw Hc. assert (L : (0 < length d)%nat) by (destruct d; cbn; [done | lia]).
  destruct (bulk_unmarked _ B) as [Hm Ha].
  assert (M : marks_ok (length d) (hp_state p) 0 no_marks)
    by (apply marks_ok_intro; [done | by intros []]).
  pose proof (switch_ok ch (Z.of_nat (length d)) Hch ltac:(lia) p F
    (bulk_state_ok 0 1 p B S) E) as (? & ? & ? & Sw' & Sh & A).
  rewrite Sw in Sw'. injection Sw' as <- <- <-. split; [done |].
  assert (Eq : hp_errno q = HPE_OK) by (destruct Hc as [-> | ->]; cbn in A; naive_solver congruence).
  rewrite <- (Z.sub_0_r (Z.of_nat (length d))) in Sh. change 0 with (Z.of_nat 0) in Sh.
  destruct (run_marked d _ _ acts c q 0 no_marks u Sh ltac:(by destruct Hc as [-> | ->]) L Eq eq_refl M)
    as (ms & u' & R & L1 & Mk & Fl).
  exists ms, u'. rewrite (flush_none d no_marks) in Fl by (by intros []). split_and!; auto.
  unfold one_byte. assert (PH : PARSING_HEADER (hp_state p) = false) by (by destruct (hp_state p)).
  cbn [e_parser e_p e_marks e_user]. rewrite PH. cbn [reexecute_byte e_parser e_p e_marks e_user].
  rewrite Z.sub_0_r, Sw. cbn [mbind result_bind]. rewrite R. by destruct Hc as [-> | ->].
Qed.

(** The two bulk reads of a body that goes on: with its first byte, and after
    it was reported by a call of its own. *)
Lemma bulk_lockstep b b' r p u :
  parser_ok p -> hp_errno p = HPE_OK -> long p = true -> 0 <= b < 256 -> 0 <= b' < 256 ->
  r <> [] ->
  lockstep (b :: r) 1 r 0
    (one_byte collecting (b :: r) b (mk_env p 0 no_marks u))
    (one_byte collecting r b' (mk_env (rest p) 0 no_marks (on_bytes M_body [b] u))).
Proof.
  intros Hp E G Hb Hb' Hr. destruct (rest_ok p Hp G) as (Hp' & E' & St'). rewrite E in E'.
  assert (Bk : bulk (hp_state p) = true) by (unfold long in G; by destruct (hp_state p)).
  assert (Lr : (0 < length r)%nat) by (destruct r; cbn; [done | lia]).
  destruct (bulk_outcomes b b' (Z.of_nat (length r)) p Hp G ltac:(lia))
    as (_ & k & q & tail & c & Sw & Sw' & Hc).
  replace (Z.of_nat (length r) + 1) with (Z.of_nat (length (b :: r))) in Sw by (cbn; lia).
  destruct (bulk_run (b :: r) p u b q _ c Hp E Bk ltac:(done) Hb Sw ltac:(naive_solver))
    as (A & m1 & u1 & -> & L1 & Mk1 & Fl1).
  destruct (bulk_run r (rest p) (on_bytes M_body [b] u) b' q _ c Hp' E'
    ltac:(by rewrite St') Hr Hb' Sw' ltac:(naive_solver)) as (_ & m2 & u2 & -> & L2 & Mk2 & Fl2).
  assert (T : forall n, on_bytes M_body (take (n + 1) r) (on_bytes M_body [b] u) =
                        on_bytes M_body (take (Datatypes.S n + 1) (b :: r)) u)
    by (intros n; by rewrite <- on_bytes_app).
  destruct Hc as [(-> & -> & Hm)|(-> & -> & Hq)]; cbn [advance Nat.add] in *.
  - cbn. rewrite !Nat.add_0_r in *. split_and!; [done | lia |].
    refine (eq_trans Fl1 (eq_trans _ (eq_sym Fl2))).
    unfold report_end. cbn [report bulk_read]. by rewrite Hm, T.
  - rewrite !Nat.add_0_r in *. destruct A as (F & Sn & Eq & _ & B). rewrite E in Eq.
    rewrite (message_done_any_byte 3 b' b) by done.
    assert (Lk : lockstep (b :: r) (Datatypes.S k) r k
      (reexecute_byte collecting (b :: r) 3 b (mk_env q (Datatypes.S k) m1 u1))
      (reexecute_byte collecting r 3 b (mk_env q k m2 u2))).
    { apply reexecute_lockstep; auto; [rewrite Hq; cbn; lia | |].
      - refine (eq_trans Fl1 (eq_trans _ (eq_sym Fl2))).
        unfold report_end. cbn [report]. by rewrite T.
      - by apply sync_plain. }
    unfold lockstep in *. repeat case_goal; naive_solver lia.
Qed.

(** What a call on one byte says about a longer call: it stops both, or the
    longer call goes on like a new call after it. *)
Lemma loop_step fuel fuel' d d' e e' ch ch' pos0 pos0' :
  bytes_ok d -> bytes_ok d' -> d !! e_p e = Some ch -> d' !! e_p e' = Some ch' ->
  head_ok d e -> head_ok d' e' -> drop pos0 d = drop pos0' d' -> (pos0 <= e_p e + 1)%nat ->
  lockstep d pos0 d' pos0' (one_byte collecting d ch e) (one_byte collecting d' ch' e') ->
  (length d - e_p e <= S fuel)%nat -> (length d' - e_p e' <= S fuel')%nat ->
  same_call pos0 pos0' (exec_loop collecting d (S fuel) e) (exec_loop collecting d' (S fuel') e').
Proof.
  intros B B' Hc Hc' Hh Hh' D Hp Lk Lf Lf'. cbn [exec_loop].
  pose proof (lookup_lt_Some _ _ _ Hc). pose proof (lookup_lt_Some _ _ _ Hc').
  rewrite (proj2 (Nat.eqb_neq (e_p e) (length d))),
    (proj2 (Nat.eqb_neq (e_p e') (length d'))), Hc, Hc' by lia.
  pose proof (one_byte_ok collecting collecting_ok d ch _ Hh
    (Forall_lookup_1 _ _ _ _ B Hc) ltac:(lia)) as K.
  pose proof (one_byte_ok collecting collecting_ok d' ch' _ Hh'
    (Forall_lookup_1 _ _ _ _ B' Hc') ltac:(lia)) as K'.
  destruct (one_byte collecting d ch _) as [[[q np nm nu]|]|], (one_byte collecting d' ch' _)
    as [[[q' np' nm' nu']|]|]; cbn in K, K', Lk |- *; try done.
  destruct Lk as (<- & Hp1 & Fl1), K as [K Hn], K' as [K' Hn'].
  assert (R : same_call (np + 1) (np' + 1)
    (exec_loop collecting d fuel (mk_env q (np + 1) nm nu))
    (exec_loop collecting d' fuel' (mk_env q (np' + 1) nm' nu'))).
  { apply loop_lockstep; auto; try lia. eapply drop_same; [done | lia | lia]. }
  unfold same_call in *. repeat case_goal; naive_solver lia.
Qed.

(** A call with collecting callbacks stops early in an error or an upgrade. *)
Lemma reexecute_stop fuel ch d p pos ms u n q v :
  0 <= ch < 256 -> (pos < length d)%nat ->
  fields_ok p -> state_ok 1 p -> hp_errno p = HPE_OK -> marks_ok (length d) (hp_state p) pos ms ->
  reexecute_byte collecting d fuel ch (mk_env p pos ms u) = Ok (Stop n q v) ->
  hp_errno q = HPE_OK -> hp_upgrade q = true.
Proof.
  intros Hch. revert p pos ms u. induction fuel as [|fuel IH]; [done |].
  intros p pos ms u L F S E M. cbn [reexecute_byte e_parser e_p e_marks e_user].
  destruct (switch_ok ch (Z.of_nat (length d) - Z.of_nat pos) Hch ltac:(lia) p F S E)
    as (q' & acts & c & -> & Sh & A). cbn [mbind result_bind].
  destruct (decide (c = GotoError)) as [->|Hc].
  { destruct (run_error collecting d _ _ _ _ q' pos ms u Sh) as [m1 ->]. cbn.
    intros [= <- <- <-]. destruct (is_OK q') eqn:K; [done |]. intros ?%is_OK_spec. congruence. }
  assert (Hf : fields_ok q' /\ hp_errno q' = HPE_OK)
    by (unfold after_ok in A; destruct c; naive_solver congruence).
  destruct Hf as [F' E'].
  destruct (run_marked d _ _ acts c q' pos ms u Sh Hc L E' eq_refl M)
    as (m1 & u1 & -> & L1 & Mk & _). cbn [mbind result_bind]. destruct c; try done.
  - destruct A as (_ & Sn & _). intros R. exact (IH q' _ m1 u1 L1 F' (Sn 1) E' Mk R).
  - intros [= <- <- <-] _. apply A.
Qed.

Lemma one_byte_stop ch d e n q v :
  head_ok d e -> 0 <= ch < 256 -> (e_p e < length d)%nat ->
  one_byte collecting d ch e = Ok (Stop n q v) -> hp_errno q = HPE_OK -> hp_upgrade q = true.
Proof.
  destruct e as [p pos ms u]. intros (F & S & E & M) Hch L. cbn in F, S, E, M, L.
  unfold one_byte. cbn [e_parser e_p e_marks e_user]. destruct (PARSING_HEADER _) eqn:P.
  - case_goal; [by intros [= <- <- <-] |]. rewrite Z.gtb_ltb in *. breflect.
    apply reexecute_stop; auto using bump_fields, bump_state.
  - apply reexecute_stop; auto. unfold state_ok in *. by destruct (hp_state p).
Qed.

(** The last byte of a body is read alike from a long and a short buffer. *)
Lemma sync_short b r p :
  parser_ok p -> hp_errno p = HPE_OK -> bulk (hp_state p) = true -> long p = false ->
  sync b p [b] 0 (b :: r) 0.
Proof.
  intros [F S] E B G. unfold sync, long, switch, state_ok in *. split_parser p. parser_cbn.
  pose proof (fo_length _ F) as Hl. parser_cbn.
  destruct st; try done; breflect; assert (cl = 1) as -> by lia;
    unfold case_s_chunk_data, case_s_body_identity; parser_cbn; rewrite ?(proj1 S);
    rewrite (Z.min_l 1) by (cbn; lia); rewrite (Z.min_l 1) by (cbn; lia);
    cbn; eexists _, _, _; split_and!; reflexivity.
Qed.

Lemma exec_loop_next d fuel e ch e' :
  one_byte collecting d ch e = Ok (Continue e') -> d !! e_p e = Some ch ->
  exec_loop collecting d (S fuel) e = exec_loop collecting d fuel (next_byte e').
Proof.
  intros R Hc. cbn [exec_loop]. pose proof (lookup_lt_Some _ _ _ Hc).
  rewrite (proj2 (Nat.eqb_neq _ _)), Hc, R by lia. done.
Qed.

Lemma exec_loop_stop d fuel e ch n q v :
  one_byte collecting d ch e = Ok (Stop n q v) -> d !! e_p e = Some ch ->
  exec_loop collecting d (S fuel) e = Ok (n, q, v).
Proof.
  intros R Hc. cbn [exec_loop]. pose proof (lookup_lt_Some _ _ _ Hc).
  rewrite (proj2 (Nat.eqb_neq _ _)), Hc, R by lia. done.
Qed.

(** A call on one byte that goes on reports what is pending and ends. *)
Lemma one_byte_call b p u p1 ms1 u1 :
  parser_ok p -> hp_errno p = HPE_OK -> 0 <= b < 256 ->
  one_byte collecting [b] b (mk_env p 0 (entry_marks (hp_state p)) u) =
    Ok (Continue (mk_env p1 0 ms1 u1)) ->
  http_parser_execute collecting [b] p u = Ok (1%nat, p1, flush [b] ms1 1 u1) /\
  parser_ok p1 /\ hp_errno p1 = HPE_OK.
Proof.
  intros Hp E Hb R. pose proof (entry_head_ok [b] p u Hp E) as Hh.
  pose proof (one_byte_ok collecting collecting_ok [b] b _ Hh Hb ltac:(cbn; lia)) as K.
  rewrite R in K. destruct K as [_ Hn]. rewrite execute_nonempty by done.
  change (length [b]) with 1%nat. rewrite (exec_loop_next _ _ _ b _ R eq_refl).
  pose proof Hn as (F & S & E' & _). split; [apply (loop_end [b]), Hn | by split].
Qed.

(** The call on one byte goes on: the longer call does what a new call does. *)
Definition goes_on b p u p1 u1 : Prop :=
  http_parser_execute collecting [b] p u = Ok (1%nat, p1, u1) /\
  parser_ok p1 /\ hp_errno p1 = HPE_OK /\
  forall r, r <> [] -> bytes_ok r ->
    same_call 1 0 (http_parser_execute collecting (b :: r) p u)
      (http_parser_execute collecting r p1 u1).

Lemma execute_cons_long b p u :
  parser_ok p -> hp_errno p = HPE_OK -> 0 <= b < 256 -> long p = true ->
  exists p1 u1, goes_on b p u p1 u1.
Proof.
  intros Hp E Hb G. destruct (bulk_outcomes b b 1 p Hp G ltac:(lia)) as [Sw _].
  assert (Bk : bulk (hp_state p) = true) by (unfold long in G; by destruct (hp_state p)).
  assert (Em : entry_marks (hp_state p) = no_marks) by (by destruct (hp_state p)).
  destruct (bulk_run [b] p u b _ _ _ Hp E Bk ltac:(done) Hb Sw ltac:(by left))
    as (_ & ms & u' & R & _ & _ & Fl).
  rewrite <- Em in R. destruct (one_byte_call b p u _ _ _ Hp E Hb R) as (Ex & Hp1 & E1).
  eexists _, _. split_and!; [exact Ex | done | done |]. intros r Hr Br.
  cbn [advance Nat.add] in Fl. rewrite Fl.
  destruct (rest_ok p Hp G) as (_ & _ & St). destruct r as [|b' r]; [done |].
  rewrite !execute_nonempty, St, Em by done. pose proof (proj1 (list.Forall_cons _ _ _) Br) as Br'.
  apply (loop_step _ _ _ _ _ _ b b'); auto; try done.
  - by apply list.Forall_cons.
  - rewrite <- Em. by apply entry_head_ok.
  - rewrite <- Em, <- St. by apply entry_head_ok.
  - assert (Hm : mark_of (hp_state p) = None) by (by destruct (hp_state p)).
    unfold report_end. cbn [report bulk_read]. rewrite Hm.
    apply bulk_lockstep; auto. apply Br'.
Qed.

Lemma short_lockstep b r p u :
  parser_ok p -> hp_errno p = HPE_OK -> 0 <= b < 256 -> long p = false ->
  lockstep [b] 0 (b :: r) 0
    (one_byte collecting [b] b (mk_env p 0 (entry_marks (hp_state p)) u))
    (one_byte collecting (b :: r) b (mk_env p 0 (entry_marks (hp_state p)) u)).
Proof.
  intros Hp E Hb G. pose proof Hp as [F S].
  apply one_byte_lockstep; auto using entry_marks_ok; [cbn; lia |].
  intros Bk. by apply sync_short.
Qed.

Lemma execute_cons_short b p u p1 ms1 u1 :
  parser_ok p -> hp_errno p = HPE_OK -> 0 <= b < 256 -> long p = false ->
  one_byte collecting [b] b (mk_env p 0 (entry_marks (hp_state p)) u) =
    Ok (Continue (mk_env p1 0 ms1 u1)) ->
  goes_on b p u p1 (flush [b] ms1 1 u1).
Proof.
  intros Hp E Hb G R. destruct (one_byte_call b p u _ _ _ Hp E Hb R) as (Ex & Hp1 & E1).
  split_and!; [exact Ex | done | done |]. intros r Hr Br.
  pose proof (short_lockstep b r p u Hp E Hb G) as Lk. rewrite R in Lk.
  pose proof (one_byte_ok collecting collecting_ok (b :: r) b _
    (entry_head_ok (b :: r) p u Hp E) Hb ltac:(cbn; lia)) as K'.
  destruct (one_byte collecting (b :: r) b _) as [[[p1' np' ms1' u1']|]|] eqn:R'; [| done..].
  cbn in Lk. destruct Lk as (<- & Hnp & Fl). assert (np' = 0%nat) as -> by lia.
  rewrite !execute_nonempty by done. cbn [length].
  rewrite (exec_loop_next _ _ _ b _ R' eq_refl).
  apply loop_lockstep; cbn; auto; try lia.
  - by apply list.Forall_cons.
  - apply K'.
  - by apply entry_head_ok.
  - by rewrite flush_entry.
Qed.

(** The call on one byte stops: so does the longer call. *)
Lemma execute_cons_stop b p u n q v :
  parser_ok p -> hp_errno p = HPE_OK -> 0 <= b < 256 ->
  one_byte collecting [b] b (mk_env p 0 (entry_marks (hp_state p)) u) = Ok (Stop n q v) ->
  (hp_errno q = HPE_OK -> hp_upgrade q = true) /\
  forall r, same_call 0 0 (http_parser_execute collecting (b :: r) p u) (Ok (n, q, v)).
Proof.
  intros Hp E Hb R. split.
  - exact (one_byte_stop b [b] _ n q v (entry_head_ok [b] p u Hp E) Hb Nat.lt_0_1 R).
  - intros r. assert (G : long p = false).
    { destruct (long p) eqn:G; [| done].
      destruct (bulk_outcomes b b 1 p Hp G ltac:(lia)) as [Sw _].
      assert (Bk : bulk (hp_state p) = true) by (unfold long in G; by destruct (hp_state p)).
      destruct (bulk_run [b] p u b _ _ _ Hp E Bk ltac:(done) Hb Sw ltac:(by left))
        as (_ & ms & u' & R' & _).
      assert (Em : entry_marks (hp_state p) = no_marks) by (by destruct (hp_state p)).
      rewrite Em, R' in R. done. }
    pose proof (short_lockstep b r p u Hp E Hb G) as Lk. rewrite R in Lk.
    destruct (one_byte collecting (b :: r) b _) as [[|n' q' v']|] eqn:R'; [done | | done].
    rewrite execute_nonempty by done. cbn [length].
    rewrite (exec_loop_stop _ _ _ b _ _ _ R' eq_refl). cbn in Lk |- *. naive_solver lia.
Qed.

(** What a call on one byte says about a longer call. *)
Lemma execute_cons b p u :
  parser_ok p -> hp_errno p = HPE_OK -> 0 <= b < 256 ->
  (exists p1 u1, goes_on b p u p1 u1) \/
  (exists n q v, (hp_errno q = HPE_OK -> hp_upgrade q = true) /\
     forall r, same_call 0 0 (http_parser_execute collecting (b :: r) p u) (Ok (n, q, v))).
Proof.
  intros Hp E Hb. destruct (long p) eqn:G; [left; by apply execute_cons_long |].
  pose proof (one_byte_ok collecting collecting_ok [b] b _ (entry_head_ok [b] p u Hp E) Hb
    ltac:(cbn; lia)) as K.
  destruct (one_byte collecting [b] b _) as [[[p1 np ms1 u1]|n q v]|] eqn:R; [| |done].
  - left. destruct K as [K Hn]. cbn in K. assert (np = 0%nat) as -> by lia.
    eexists _, _. by eapply execute_cons_short.
  - right. exists n, q, v. by apply execute_cons_stop.
Qed.

Lemma same_call_trans a b c r1 r2 r3 :
  same_call a b r1 r2 -> same_call c 0 r2 r3 -> same_call (a + c) b r1 r3.
Proof. unfold same_call. repeat case_goal; naive_solver lia. Qed.

(** a call that took all of its input and is not done *)
Definition took_all d (r : result (nat * http_parser * U)) p1 u1 : Prop :=
  r = Ok (length d, p1, u1) /\ hp_errno p1 = HPE_OK /\ hp_upgrade p1 = false.

Lemma execute_app d1 d2 p u p1 u1 :
  d1 <> [] -> d2 <> [] -> bytes_ok d1 -> bytes_ok d2 -> parser_ok p -> hp_errno p = HPE_OK ->
  took_all d1 (http_parser_execute collecting d1 p u) p1 u1 ->
  same_call (length d1) 0 (http_parser_execute collecting (d1 ++ d2) p u)
    (http_parser_execute collecting d2 p1 u1).
Proof.
  intros Hd1 Hd2 B1 B2. revert p u. induction d1 as [|b r IH]; [done |].
  intros p u Hp E (Ex & E1 & Up). pose proof (proj1 (list.Forall_cons _ _ _) B1) as [Hb Br].
  destruct (execute_cons b p u Hp E Hb) as [(pb & ub & Ex1 & Hpb & Eb & Co)|(n & q & v & Hu & Co)].
  - destruct (decide (r = [])) as [->|Hr].
    + rewrite Ex in Ex1. injection Ex1 as -> ->. apply Co; done.
    + pose proof (Co r Hr Br) as C1. rewrite Ex in C1.
      destruct (http_parser_execute collecting r pb ub) as [[[n2 q2] v2]|] eqn:Ex2; [| done].
      cbn [same_call] in C1. destruct C1 as (<- & Hn2 & Hv). rewrite Hv in Ex by done.
      apply (same_call_trans 1 0 (length r) _ (http_parser_execute collecting (r ++ d2) pb ub)).
      * apply Co; [by destruct r | by apply Forall_app].
      * apply IH; auto. split_and!; auto. rewrite Ex2. rewrite Hv by done. do 3 f_equal. cbn in Hn2. lia.
  - exfalso. pose proof (Co r) as C1. rewrite Ex in C1. cbn [same_call] in C1.
    destruct C1 as (<- & Hn1 & _). rewrite Hu in Up by done. done.
Qed.

End Stream.

(** ** A log of what was reported, byte by byte *)

Inductive item :=
  | Byte (m : mark) (b : Z)
  | Notified (n : notification)
  | HeadersComplete.

#[global] Instance item_eq_dec : EqDecision item.
Proof. solve_decision. Defined.

#[global] Instance log_collector : Collector (list item) := {|
  on_bytes m l u := u ++ (Byte m <$> l);
  on_event n u := u ++ [Notified n];
  on_complete u := u ++ [HeadersComplete];
  on_bytes_nil m u := app_nil_r u;
  on_bytes_app m a b u :=
    eq_trans (f_equal (fun l => u ++ l) (fmap_app (Byte m) a b)) (app_assoc _ _ _);
|}.

(** ** The theorem *)

(** C4: The parser does not depend on how the stream is cut: for callbacks that
    collect what they are given, if a call takes all of [d1] without an error
    or an upgrade, then one call on [d1 ++ d2] ends in the same parser as the
    call on [d2] that follows it, at the same byte, and (unless it ends in an
    error) with the same reports. *)
Theorem http_parser_split {U} `{Collector U} d1 d2 p u p1 u1 :
  d1 <> [] -> d2 <> [] -> bytes_ok d1 -> bytes_ok d2 -> parser_ok p ->
  http_parser_execute collecting d1 p u = Ok (length d1, p1, u1) ->
  hp_errno p1 = HPE_OK -> hp_upgrade p1 = false ->
  exists n q v v', http_parser_execute collecting (d1 ++ d2) p u = Ok (n, q, v) /\
    http_parser_execute collecting d2 p1 u1 = Ok ((n - length d1)%nat, q, v') /\
    (length d1 <= n)%nat /\ (hp_errno q = HPE_OK -> v = v').
Proof.
  intros Hd1 Hd2 B1 B2 Hp Ex E1 Up.
  assert (E : hp_errno p = HPE_OK).
  { destruct (is_OK p) eqn:K; [by apply is_OK_spec |].
    unfold http_parser_execute in Ex. rewrite K in Ex. injection Ex as ? _ _. by destruct d1. }
  pose proof (execute_app d1 d2 p u p1 u1 Hd1 Hd2 B1 B2 Hp E (conj Ex (conj E1 Up))) as S.
  unfold same_call in S.
  destruct (http_parser_execute collecting (d1 ++ d2) p u) as [[[n q] v]|]; [| done].
  destruct (http_parser_execute collecting d2 p1 u1) as [[[n' q'] v']|]; [| done].
  destruct S as (-> & Hn & Hv). eexists _, _, _, _. split_and!; [done | | lia | exact Hv].
  do 3 f_equal. lia.
Qed.


Lemma http_parser_split_witness :
  parser_ok (http_parser_init HTTP_REQUEST) /\
  exists n q v v',
    http_parser_execute collecting (bs "GET /in" ++ bs "dex HTTP/1.1")
      (http_parser_init HTTP_REQUEST) [] = Ok (n, q, v) /\
    (7 <= n)%nat /\ (hp_errno q = HPE_OK -> v = v').
Proof.
  split; [apply init_ok |].
  destruct (http_parser_split (bs "GET /in") (bs "dex HTTP/1.1")
    (http_parser_init HTTP_REQUEST) []
    (mk_http_parser HTTP_REQUEST 0 s_req_path h_general 4 7 ULLONG_MAX 0 0 0 HTTP_GET HPE_OK false)
    (Notified N_message_begin :: (Byte M_url <$> bs "/in")))
    as (n & q & v & v' & H1 & _ & H3 & H4).
  - discriminate.
  - discriminate.
  - by apply bytes_okb_spec.
  - by apply bytes_okb_spec.
  - apply init_ok.
  - vm_compute. reflexivity.
  - reflexivity.
  - reflexivity.
  - exists n, q, v, v'. exact (conj H1 (conj H3 H4)).
Defined.
