(* ===== verification/HttpParserStep.v ===== *)
(** * The HTTP parser of the Capture client, a byte at a time

    With collecting callbacks a call on one byte is a function of the parser,
    the byte and the reports so far, [step]; running it over a list of bytes
    is what a call on the list does ([run_execute]).  The theorems on whole
    messages evaluate [step]. *)
From Stdlib Require Import ZArith Lia Ascii.
From stdpp Require Import base list strings numbers.
From S2P Require Import Prelude HttpParserDef HttpParserCases HttpParserExec.
From S2P Require Import HttpParserInv HttpParserSafe HttpParserStream.

Local Open Scope Z_scope.

Section Step.
Context {U : Type} `{Collector U}.
Implicit Type (d : bytes) (u v : U) (p q : http_parser).

(** the cases one byte runs, with what they report *)
Fixpoint cases (fuel : nat) (b : Z) p u : option (http_parser * U) :=
  match fuel with
  | O => None
  | S fuel' =>
    match switch b 1 p with
    | Ok (q, acts, c) =>
      let u' := report_end [b] acts c (hp_state q) u in
      match c with
      | Break => Some (q, u')
      | Reexecute => cases fuel' b q u'
      | _ => None
      end
    | Fault _ => None
    end
  end.

(** More fuel changes nothing. *)
Lemma cases_more k b p u r : cases k b p u = Some r -> cases (S k) b p u = Some r.
Proof.
  revert p u. induction k as [|k IH]; intros p u; [done |].
  remember (S k) as k'. intros E. subst k'. cbn [cases] in E |- *.
  destruct (switch b 1 p) as [[[q acts] c]|]; [| done]. destruct c; try done. by apply IH.
Qed.

(** one byte; [None] when the call stops *)
Definition step (b : Z) p u : option (http_parser * U) :=
  if PARSING_HEADER (hp_state p) then
    let p := p |> set_nread (hp_nread p + 1) in
    if hp_nread p >? HTTP_MAX_HEADER_SIZE then None else cases 4 b p u
  else cases 4 b p u.

Fixpoint run d p u : option (http_parser * U) :=
  match d with
  | [] => Some (p, u)
  | b :: d' => match step b p u with
               | Some (p1, u1) => run d' p1 u1
               | None => None
               end
  end.

Lemma run_app d1 d2 p u :
  run (d1 ++ d2) p u =
  match run d1 p u with Some (p1, u1) => run d2 p1 u1 | None => None end.
Proof.
  revert p u. induction d1 as [|b d1 IH]; intros p u; cbn; [done |].
  destruct (step b p u) as [[p1 u1]|]; [apply IH | done].
Qed.

(** ** One byte is a call *)

Lemma shape_one s acts c s' : shape 1 s acts c s' -> advance acts = 0%nat.
Proof. destruct 1; try done; cbn; try lia. naive_solver. Qed.

Lemma cases_run fuel b p u ms v q w :
  0 <= b < 256 -> fields_ok p -> state_ok 1 p -> hp_errno p = HPE_OK ->
  marks_ok 1 (hp_state p) 0 ms -> flush [b] ms 0 u = v -> cases fuel b p v = Some (q, w) ->
  exists ms1 u1, reexecute_byte collecting [b] fuel b (mk_env p 0 ms u) =
    Ok (Continue (mk_env q 0 ms1 u1)) /\ flush [b] ms1 1 u1 = w.
Proof.
  intros Hb. revert p u ms v. induction fuel as [|fuel IH]; [done |].
  intros p u ms v F S E M Fl. cbn [cases reexecute_byte e_parser e_p e_marks e_user length].
  change (Z.of_nat 1 - Z.of_nat 0) with 1.
  destruct (switch_ok b 1 Hb ltac:(lia) p F S E) as (q' & acts & c & -> & Sh & A).
  cbn [mbind result_bind]. intros C.
  assert (Hc : c = Break \/ c = Reexecute) by (destruct c; auto; discriminate C).
  assert (Hq : fields_ok q' /\ hp_errno q' = HPE_OK)
    by (unfold after_ok in A; destruct c; naive_solver congruence).
  destruct Hq as [F' E'].
  destruct (run_marked [b] _ _ acts c q' 0 ms u Sh ltac:(by destruct Hc as [-> | ->])
    ltac:(cbn; lia) E' eq_refl M) as (ms1 & u1 & -> & _ & Mk & Fl1).
  rewrite (shape_one _ _ _ _ Sh), Fl in *. cbn [mbind result_bind Nat.add] in *.
  destruct Hc as [-> | ->].
  - injection C as <- <-. by exists ms1, u1.
  - destruct A as (_ & Sn & _). eapply IH; eauto.
Qed.

Lemma step_one_byte b p u p1 u1 :
  parser_ok p -> hp_errno p = HPE_OK -> 0 <= b < 256 -> step b p u = Some (p1, u1) ->
  exists ms1 v, one_byte collecting [b] b (mk_env p 0 (entry_marks (hp_state p)) u) =
    Ok (Continue (mk_env p1 0 ms1 v)) /\ flush [b] ms1 1 v = u1.
Proof.
  intros [F S] E Hb St. unfold step in St. unfold one_byte. cbn [e_parser e_p e_marks e_user].
  destruct (PARSING_HEADER _) eqn:P.
  - cbv zeta in *. destruct (_ >? _) eqn:G; [done |]. rewrite Z.gtb_ltb in *. breflect.
    eapply cases_run; eauto using bump_fields, bump_state, entry_marks_ok, flush_entry.
    exact (entry_marks_ok [b] (hp_state p)).
  - eapply cases_run; eauto using flush_entry; [| exact (entry_marks_ok [b] (hp_state p))].
    unfold state_ok in *. by destruct (hp_state p).
Qed.

(** A successful [step] is the call on one byte, and longer calls go on after
    it. *)
Lemma step_goes_on b p u p1 u1 :
  parser_ok p -> hp_errno p = HPE_OK -> 0 <= b < 256 -> step b p u = Some (p1, u1) ->
  goes_on b p u p1 u1.
Proof.
  intros Hp E Hb St. destruct (step_one_byte b p u p1 u1 Hp E Hb St) as (ms1 & v & R & <-).
  destruct (long p) eqn:G; [| by apply execute_cons_short].
  destruct (execute_cons_long b p u Hp E Hb G) as (q & w & Ex & Go).
  destruct (one_byte_call b p u _ _ _ Hp E Hb R) as (Ex' & _).
  rewrite Ex in Ex'. injection Ex' as -> ->. by split.
Qed.

(** A run is one call on its bytes. *)
Lemma run_execute d p u p1 u1 :
  parser_ok p -> hp_errno p = HPE_OK -> bytes_ok d -> d <> [] -> run d p u = Some (p1, u1) ->
  http_parser_execute collecting d p u = Ok (length d, p1, u1) /\
  parser_ok p1 /\ hp_errno p1 = HPE_OK.
Proof.
  revert p u. induction d as [|b d IH]; intros p u Hp E B Hd; [done |]. cbn [run].
  destruct (step b p u) as [[q v]|] eqn:St; [| done].
  pose proof (proj1 (list.Forall_cons _ _ _) B) as [Hb B'].
  destruct (step_goes_on b p u q v Hp E Hb St) as (Ex & Hq & Eq & Go).
  destruct (decide (d = [])) as [->|Hd']; [by intros [= <- <-] |]. intros R.
  destruct (IH q v Hq Eq B' Hd' R) as (Ex' & Hp1 & E1). split; [| done].
  pose proof (Go d Hd' B') as C. rewrite Ex' in C. unfold same_call in C.
  destruct (http_parser_execute collecting (b :: d) p u) as [[[n q'] v']|]; [| done].
  destruct C as (-> & Hn & Hv). rewrite Hv by done. do 3 f_equal. cbn. lia.
Qed.

(** ** Where no step is possible the call stops *)

Lemma cases_none fuel b p u ms :
  (rank (hp_state p) <= fuel)%nat -> 0 <= b < 256 -> fields_ok p -> state_ok 1 p ->
  hp_errno p = HPE_OK -> marks_ok 1 (hp_state p) 0 ms -> cases fuel b p (flush [b] ms 0 u) = None ->
  exists n q w, reexecute_byte collecting [b] fuel b (mk_env p 0 ms u) = Ok (Stop n q w).
Proof.
  intros Hf Hb. revert p u ms Hf.
  induction fuel as [|fuel IH]; intros p u ms Hf F S E M; [destruct (hp_state p); cbn in Hf; lia |].
  cbn [cases reexecute_byte e_parser e_p e_marks e_user length].
  change (Z.of_nat 1 - Z.of_nat 0) with 1.
  destruct (switch_ok b 1 Hb ltac:(lia) p F S E) as (q' & acts & c & -> & Sh & A).
  cbn [mbind result_bind]. destruct (decide (c = GotoError)) as [->|Hc].
  { destruct (run_error collecting [b] _ _ _ _ q' 0 ms u Sh) as [m1 ->]. cbn. by eauto. }
  assert (Hq : fields_ok q' /\ hp_errno q' = HPE_OK)
    by (unfold after_ok in A; destruct c; naive_solver congruence).
  destruct Hq as [F' E'].
  destruct (run_marked [b] _ _ acts c q' 0 ms u Sh Hc ltac:(cbn; lia) E' eq_refl M)
    as (ms1 & u1 & -> & _ & Mk & Fl1).
  rewrite (shape_one _ _ _ _ Sh) in *. cbn [mbind result_bind Nat.add] in *.
  destruct c; try done; [| by eauto]. destruct A as (_ & Sn & _ & Hr & _).
  rewrite drop_0 in Fl1. change (take 1 [b]) with [b] in Fl1. intros C.
  apply IH; auto; [lia |]. by rewrite Fl1.
Qed.

Lemma step_none b p u :
  parser_ok p -> hp_errno p = HPE_OK -> 0 <= b < 256 -> step b p u = None ->
  exists n q w, one_byte collecting [b] b (mk_env p 0 (entry_marks (hp_state p)) u) =
    Ok (Stop n q w).
Proof.
  intros [F S] E Hb St. unfold step in St. unfold one_byte. cbn [e_parser e_p e_marks e_user].
  pose proof (rank_bound (hp_state p)). pose proof (entry_marks_ok [b] (hp_state p)) as M.
  rewrite <- (flush_entry [b] (hp_state p) u) in St. destruct (PARSING_HEADER _) eqn:P.
  - cbv zeta in *. destruct (_ >? _) eqn:G; [by eauto |]. rewrite Z.gtb_ltb in *. breflect.
    apply cases_none; auto using bump_fields, bump_state.
  - apply cases_none; auto. unfold state_ok in *. by destruct (hp_state p).
Qed.

(** A call that takes its data without an error or an upgrade is a run. *)
Lemma execute_run d p u n q v :
  parser_ok p -> hp_errno p = HPE_OK -> bytes_ok d -> d <> [] ->
  http_parser_execute collecting d p u = Ok (n, q, v) -> hp_errno q = HPE_OK ->
  hp_upgrade q = false -> run d p u = Some (q, v).
Proof.
  revert p u n. induction d as [|b d IH]; intros p u n Hp E B Hd Ex Eq Up; [done |]. cbn [run].
  pose proof (proj1 (list.Forall_cons _ _ _) B) as [Hb B'].
  destruct (step b p u) as [[p1 u1]|] eqn:St.
  - destruct (step_goes_on b p u p1 u1 Hp E Hb St) as (Ex1 & Hp1 & E1 & Go).
    destruct (decide (d = [])) as [->|Hd']; [cbn; congruence |].
    pose proof (Go d Hd' B') as C. rewrite Ex in C. unfold same_call in C.
    destruct (http_parser_execute collecting d p1 u1) as [[[n' q'] v']|] eqn:Ex2; [| done].
    destruct C as (<- & _ & Hv). rewrite <- Hv in Ex2 by done. by eapply IH.
  - exfalso. destruct (step_none b p u Hp E Hb St) as (n' & q' & w & R).
    destruct (execute_cons_stop b p u n' q' w Hp E Hb R) as [Hu Co].
    pose proof (Co d) as C. rewrite Ex in C. destruct C as (<- & _). rewrite Hu in Up by done. done.
Qed.

(** ** Evaluation of steps *)

(** the parser with a state, a header state, an index and a count of bytes *)
Definition at_state p (s : state) (h : header_states) (i n : Z) : http_parser :=
  mk_http_parser (hp_type p) (hp_flags p) s h i n (hp_content_length p) (hp_major p)
    (hp_minor p) (hp_status_code p) (hp_method p) (hp_errno p) (hp_upgrade p).

Lemma at_state_self p :
  p = at_state p (hp_state p) (hp_header_state p) (hp_index p) (hp_nread p).
Proof. by destruct p. Qed.

(** Below the limit the byte is counted and its cases run. *)
Lemma step_header b p s h i n u :
  PARSING_HEADER s = true -> 0 <= n < HTTP_MAX_HEADER_SIZE ->
  step b (at_state p s h i n) u = cases 4 b (at_state p s h i (n + 1)) u.
Proof.
  intros P L. unfold step. cbn [hp_state at_state]. rewrite P. unfold HTTP_MAX_HEADER_SIZE in *.
  assert (E : at_state p s h i n |> set_nread (hp_nread (at_state p s h i n) + 1) =
              at_state p s h i (n + 1)).
  { unfold set_nread, at_state. cbn. by rewrite u32_small by lia. }
  rewrite E. cbv zeta. cbn [hp_nread at_state]. rewrite Z.gtb_ltb.
  destruct (_ <? _) eqn:G; breflect; [lia | done].
Qed.
End Step.

(** Evaluates the step of a known byte in a known header state; the count of
    bytes, the reports and the other fields may be variables. *)
Ltac header_step :=
  cbn [run];
  match goal with
  | |- context [step ?b (mk_http_parser ?a1 ?a2 ?s ?h ?i ?n ?a7 ?a8 ?a9 ?b1 ?b2 ?b3 ?b4) ?u] =>
    change (step b (mk_http_parser a1 a2 s h i n a7 a8 a9 b1 b2 b3 b4) u)
      with (step b (at_state (mk_http_parser a1 a2 s h i n a7 a8 a9 b1 b2 b3 b4) s h i n) u);
    rewrite step_header by (first [reflexivity | unfold HTTP_MAX_HEADER_SIZE in *; lia]);
    unfold at_state;
    cbn [hp_type hp_flags hp_state hp_header_state hp_index hp_nread hp_content_length
         hp_major hp_minor hp_status_code hp_method hp_errno hp_upgrade];
    let N := fresh "N" in set (N := n + 1);
    let V := fresh "V" in set (V := u);
    let r := eval cbv -[N V on_bytes on_event on_complete] in
      (cases 4 b (mk_http_parser a1 a2 s h i N a7 a8 a9 b1 b2 b3 b4) V) in
    change (cases 4 b (mk_http_parser a1 a2 s h i N a7 a8 a9 b1 b2 b3 b4) V) with r;
    subst N V
  end.
