(* ===== verification/HttpParserHeaders.v ===== *)
(** * Header names of the HTTP parser of the Capture client

    The matchers of s_header_field_start and s_header_field (an index into a
    constant and a header state) decide equality of the whole name with the
    headers the parser acts on, whatever the case of the letters. *)
From Stdlib Require Import ZArith Lia Ascii.
From stdpp Require Import base list strings numbers.
From S2P Require Import Prelude HttpParserDef HttpParserCases HttpParserExec.
From S2P Require Import HttpParserInv HttpParserSafe HttpParserStream HttpParserStep.

Local Open Scope Z_scope.

(** ** The header state a lower-case name should lead to *)

Definition special (w : bytes) : option header_states :=
  if bytes_eqb w CONNECTION || bytes_eqb w PROXY_CONNECTION then Some h_connection
  else if bytes_eqb w CONTENT_LENGTH then Some h_content_length
  else if bytes_eqb w TRANSFER_ENCODING then Some h_transfer_encoding
  else if bytes_eqb w UPGRADE then Some h_upgrade
  else None.

(** ... and the state of the matchers after part of a name *)
Definition name_state (w : bytes) : header_states :=
  match special w with
  | Some h => h
  | None =>
    if bytes_eqb w (bs "c") then h_C
    else if bytes_eqb w (bs "co") then h_CO
    else if bytes_eqb w (bs "con") then h_CON
    else if prefixb w CONNECTION then h_matching_connection
    else if prefixb w CONTENT_LENGTH then h_matching_content_length
    else if prefixb w PROXY_CONNECTION then h_matching_proxy_connection
    else if prefixb w TRANSFER_ENCODING then h_matching_transfer_encoding
    else if prefixb w UPGRADE then h_matching_upgrade
    else h_general
  end.

(** every name the matchers are not done with *)
Definition prefixes : list bytes :=
  w ← [CONNECTION; CONTENT_LENGTH; PROXY_CONNECTION; TRANSFER_ENCODING; UPGRADE];
  k ← seq 1 (length w); [take k w].

(** one character of a name on the header state and the index alone *)
Definition name_step (h : header_states) (i ch : Z) : header_states * Z :=
  match header_field_char ch (TOKEN ch)
          (mk_http_parser HTTP_REQUEST 0 s_header_field h i 0 0 0 0 0 HTTP_GET HPE_OK false) with
  | Ok p => (hp_header_state p, hp_index p)
  | Fault _ => (h, i)
  end.

Definition first_step (ch : Z) : header_states :=
  let c := TOKEN ch in
  if c =? chr "c" then h_C
  else if c =? chr "p" then h_matching_proxy_connection
  else if c =? chr "t" then h_matching_transfer_encoding
  else if c =? chr "u" then h_matching_upgrade
  else h_general.

(** One character after one prefix. *)
Definition table_entry (w : bytes) (ch : Z) : bool :=
  (TOKEN ch =? 0) ||
  (let '(h, i) := name_step (name_state w) (Z.of_nat (length w) - 1) ch in
   bool_decide (h = name_state (w ++ [TOKEN ch])) &&
   (bool_decide (h = h_general) || bool_decide (special (w ++ [TOKEN ch]) = Some h) ||
    (i =? Z.of_nat (length w)))).

(** The table of all prefixes against all characters. *)
Lemma table_checked :
  forallb (fun w => forallb (fun k => table_entry w (Z.of_nat k)) (seq 0 256)) prefixes = true.
Proof. vm_compute. reflexivity. Qed.

(** ** From the table to all names *)

Lemma elem_prefixes w X :
  X ∈ [CONNECTION; CONTENT_LENGTH; PROXY_CONNECTION; TRANSFER_ENCODING; UPGRADE] ->
  w <> [] -> prefixb w X = true -> w ∈ prefixes.
Proof.
  intros HX Hw Hp. unfold prefixes. apply list_elem_of_bind. exists X. split; [| done].
  apply list_elem_of_bind. exists (length w). split.
  - apply list_elem_of_singleton. symmetry. by apply prefixb_take.
  - apply elem_of_seq. pose proof (prefixb_length _ _ Hp). destruct w; [done | cbn in *; lia].
Qed.

(** membership of a closed element in a closed list *)
Ltac closed_elem := apply (bool_decide_unpack _); vm_compute; exact I.

Lemma special_prefix w h : special w = Some h -> w ∈ prefixes.
Proof.
  unfold special. intros E. case_in E; breflect;
    repeat match goal with H : _ \/ _ |- _ => destruct H end;
    repeat match goal with H : bytes_eqb _ _ = true |- _ => apply bytes_eqb_eq in H end; subst;
    closed_elem.
Qed.

Lemma name_state_prefix w : w <> [] -> name_state w <> h_general -> w ∈ prefixes.
Proof.
  intros Hw. unfold name_state. destruct (special w) eqn:Sp; [intros _; by eapply special_prefix |].
  repeat match goal with
  | |- context [if bytes_eqb w ?x then _ else _] =>
    destruct (bytes_eqb w x) eqn:?;
    [intros _; match goal with H : bytes_eqb w x = true |- _ => apply bytes_eqb_eq in H as -> end;
     apply (elem_prefixes _ CONNECTION); [closed_elem | done | reflexivity] |]
  | |- context [if prefixb w ?x then _ else _] =>
    destruct (prefixb w x) eqn:?; [intros _; apply (elem_prefixes _ x); [closed_elem | done | done] |]
  end.
  done.
Qed.

(** Once the name is no prefix it stays unknown. *)
Lemma name_state_general w c :
  w <> [] -> name_state w = h_general -> name_state (w ++ [c]) = h_general.
Proof.
  intros Hw E. destruct (decide (name_state (w ++ [c]) = h_general)) as [?|N]; [done |].
  apply name_state_prefix in N; [| by destruct w].
  assert (T : forallb (fun v => (length v <=? 1)%nat ||
    negb (bool_decide (name_state (take (length v - 1) v) = h_general))) prefixes = true)
    by (vm_compute; reflexivity).
  rewrite forallb_forall in T. apply list_elem_of_In, T in N.
  replace (length (w ++ [c]) - 1)%nat with (length w) in N by lengths.
  rewrite take_app_length, E in N. rewrite bool_decide_true in N by done.
  rewrite orb_false_r in N. breflect. rewrite length_app in N. destruct w; [done | cbn in N; lia].
Qed.

Lemma table_spec w ch :
  w ∈ prefixes -> 0 <= ch < 256 -> TOKEN ch <> 0 ->
  let '(h, i) := name_step (name_state w) (Z.of_nat (length w) - 1) ch in
  h = name_state (w ++ [TOKEN ch]) /\
  (h = h_general \/ special (w ++ [TOKEN ch]) = Some h \/ i = Z.of_nat (length w)).
Proof.
  intros Hw Hc Ht. apply list_elem_of_In in Hw.
  pose proof (proj1 (forallb_forall _ _) table_checked w Hw) as T.
  apply check_below with (x := ch) in T; [| done]. unfold table_entry in T.
  rewrite (proj2 (Z.eqb_neq _ _) Ht) in T. cbn [orb] in T.
  destruct (name_step _ _ ch) as [h i]. breflect.
  apply bool_decide_eq_true in H. split; [done |].
  destruct H0 as [H0|H0]; [apply orb_true_iff in H0 as [H0|H0]; apply bool_decide_eq_true in H0 |
    apply Z.eqb_eq in H0]; auto.
Qed.

(** A name in a special or unknown state leaves it for the unknown one. *)
Lemma name_step_done h i ch :
  (h = h_general \/ h = h_connection \/ h = h_content_length \/ h = h_transfer_encoding \/
   h = h_upgrade) -> TOKEN ch <> 0 -> name_step h i ch = (h_general, i).
Proof.
  intros Hh Ht. assert (ch <> 32) by (intros ->; by apply Ht).
  unfold name_step, header_field_char. cbn [hp_header_state].
  destruct Hh as [->|[->|[->|[->| ->]]]]; cbn; try done;
    destruct (ch =? chr " ") eqn:E; breflect; chars; done.
Qed.

(** the state of the matchers after a whole name *)
Definition after_name (w : bytes) (h : header_states) (i : Z) : Prop :=
  h = name_state w /\
  (h = h_general \/ special w = Some h \/ i = Z.of_nat (length w) - 1).

Lemma name_step_after w h i ch :
  w <> [] -> after_name w h i -> 0 <= ch < 256 -> TOKEN ch <> 0 ->
  let '(h', i') := name_step h i ch in after_name (w ++ [TOKEN ch]) h' i'.
Proof.
  intros Hw [-> Hi] Hc Ht.
  destruct (decide (name_state w = h_general)) as [G|G].
  - rewrite G, name_step_done by auto. split; [| by left]. symmetry. by apply name_state_general.
  - pose proof (name_state_prefix w Hw G) as Hp. pose proof (table_spec w ch Hp Hc Ht) as T.
    destruct Hi as [?|[Hs| ->]]; [done | |].
    + assert (D : name_state w = h_connection \/ name_state w = h_content_length \/
        name_state w = h_transfer_encoding \/ name_state w = h_upgrade).
      { unfold name_state. rewrite Hs. unfold special in Hs. case_in Hs; naive_solver. }
      rewrite name_step_done in T |- * by tauto. destruct T as [T _]. split; [done | by left].
    + destruct (name_step _ _ ch) as [h i]. destruct T as [T1 T2]. split; [done |].
      rewrite length_app. cbn. naive_solver lia.
Qed.

Lemma first_step_after ch :
  0 <= ch < 256 -> TOKEN ch <> 0 -> after_name [TOKEN ch] (first_step ch) 0.
Proof.
  intros Hc Ht. apply Z.eqb_neq in Ht.
  set (P := fun c => (TOKEN c =? 0) || bool_decide (first_step c = name_state [TOKEN c])).
  assert (T : P ch = true)
    by (apply (check_below P 256); [vm_compute; reflexivity | done]). unfold P in T. rewrite Ht in T. apply bool_decide_eq_true in T. split; [done | by auto].
Qed.

(** ** A name on the parser *)

Lemma header_field_char_at p h i n ch :
  in_field h = true ->
  header_field_char ch (TOKEN ch) (at_state p s_header_field h i n) =
  Ok (at_state p s_header_field (name_step h i ch).1 (name_step h i ch).2 n).
Proof.
  intros Hf. unfold name_step. generalize (TOKEN ch) as c. intros c.
  unfold header_field_char, at_state, match_header.
  cbn [hp_header_state]. destruct h; try discriminate Hf; try done; parser_cbn;
    repeat match goal with
    | |- context [c_index ?l ?x] => destruct (c_index l x) eqn:?
    | |- context [if ?b then _ else _] => destruct b eqn:?
    end; cbn [mbind result_bind]; try done; repeat (case_goal; try done).
  all: match goal with
  | E : c_index ?l ?x = Fault _, G : (?x >? _) = false |- _ =>
    exfalso; rewrite Z.gtb_ltb in G; breflect;
    pose proof (u8_range (i + 1));
    destruct (c_index_inside l x) as (? & E' & _); [lia | congruence]
  end.
Qed.

Lemma name_state_in_field w : in_field (name_state w) = true.
Proof.
  unfold name_state. destruct (special w) eqn:Sp; [| repeat case_goal; done].
  unfold special in Sp. case_in Sp; by simplify_eq.
Qed.

(** a character that starts or continues a name *)
Definition token_ok (ch : Z) : Prop := 0 <= ch < 256 /\ TOKEN ch <> 0.

Definition token_okb (ch : Z) : bool := (0 <=? ch) && (ch <? 256) && negb (TOKEN ch =? 0).

Lemma token_okb_spec l : forallb token_okb l = true -> Forall token_ok l.
Proof.
  intros H. apply (Forall_forallb _ _ _ H). unfold token_okb, token_ok. intros. breflect. lia.
Qed.

Lemma token_not ch : token_ok ch ->
  (ch =? CR) = false /\ (ch =? LF) = false /\ (ch =? chr " ") = false /\ (ch =? 9) = false.
Proof.
  intros [_ Ht]. split_and!; apply Z.eqb_neq; intros ->; by apply Ht.
Qed.

(** the states in which a header line may begin *)
Definition line_start (s : state) : bool :=
  match s with s_header_field_start | s_header_value_lws => true | _ => false end.

Section Names.
Context {U : Type} `{Collector U}.
Implicit Type (u : U) (p : http_parser).

Lemma cases_first ch p s h i n u :
  line_start s = true -> token_ok ch ->
  cases 4 ch (at_state p s h i n) u =
  Some (at_state p s_header_field (first_step ch) 0 n, on_bytes M_header_field [ch] u).
Proof.
  intros Hs Ht. destruct (token_not ch Ht) as (E1 & E2 & E3 & E4). destruct Ht as [_ Ht].
  apply Z.eqb_neq in Ht. unfold at_state, first_step.
  destruct s; try discriminate Hs; cbn [cases switch hp_state].
  - unfold case_s_header_field_start. rewrite E1, E2, Ht. cbv zeta. repeat case_goal; done.
  - unfold case_s_header_value_lws. rewrite E3, E4. cbn [orb cases switch hp_state set_state].
    unfold case_s_header_field_start. rewrite E1, E2, Ht. cbv zeta. repeat case_goal; done.
Qed.

Lemma cases_name ch p h i n u :
  in_field h = true -> token_ok ch ->
  cases 4 ch (at_state p s_header_field h i n) u =
  Some (at_state p s_header_field (name_step h i ch).1 (name_step h i ch).2 n,
        on_bytes M_header_field [ch] u).
Proof.
  intros Hf [_ Ht]. apply Z.eqb_neq in Ht. cbn [cases]. unfold switch. cbn [hp_state at_state].
  change (hp_state (at_state p s_header_field h i n)) with s_header_field.
  unfold case_s_header_field. rewrite Ht. cbn [negb].
  rewrite header_field_char_at by done. done.
Qed.

Lemma run_name_rest name p w h i n u :
  Forall token_ok name -> w <> [] -> after_name w h i ->
  0 <= n -> n + Z.of_nat (length name) <= HTTP_MAX_HEADER_SIZE ->
  exists h' i', run name (at_state p s_header_field h i n) u =
    Some (at_state p s_header_field h' i' (n + Z.of_nat (length name)),
          on_bytes M_header_field name u) /\ after_name (w ++ (TOKEN <$> name)) h' i'.
Proof.
  revert w h i n u. induction name as [|ch name IH]; intros w h i n u Hn Hw Ha H0 HL.
  { exists h, i. cbn. rewrite on_bytes_nil, app_nil_r, Z.add_0_r. done. }
  apply list.Forall_cons in Hn as [Hc Hn]. cbn [run length fmap list_fmap] in *.
  rewrite step_header by (first [done | lia]).
  rewrite cases_name by (first [done | rewrite (proj1 Ha); apply name_state_in_field]).
  pose proof (name_step_after w h i ch Hw Ha (proj1 Hc) (proj2 Hc)) as Ha'.
  destruct (name_step h i ch) as [h1 i1]. cbn [fst snd].
  destruct (IH (w ++ [TOKEN ch]) h1 i1 (n + 1) (on_bytes M_header_field [ch] u))
    as (h' & i' & R & Ha2); [done | by destruct w | done | lia | lia |].
  exists h', i'. rewrite R, <- on_bytes_app, <- app_assoc in *.
  split; [| done]. do 3 f_equal. lia.
Qed.

Lemma run_name name p s h i n u :
  line_start s = true -> name <> [] -> Forall token_ok name ->
  0 <= n -> n + Z.of_nat (length name) <= HTTP_MAX_HEADER_SIZE ->
  exists h' i', run name (at_state p s h i n) u =
    Some (at_state p s_header_field h' i' (n + Z.of_nat (length name)),
          on_bytes M_header_field name u) /\ after_name (TOKEN <$> name) h' i'.
Proof.
  intros Hs Hne Hn H0 HL. destruct name as [|ch name]; [done |].
  apply list.Forall_cons in Hn as [Hc Hn]. cbn [run length] in *.
  rewrite step_header by (first [by destruct s | lia]). rewrite cases_first by done.
  destruct (run_name_rest name p [TOKEN ch] (first_step ch) 0 (n + 1)
    (on_bytes M_header_field [ch] u)) as (h' & i' & R & Ha);
    [done | done | by apply first_step_after; apply Hc | lia | lia |].
  exists h', i'. rewrite R, <- on_bytes_app. split; [| done]. do 3 f_equal. lia.
Qed.
End Names.

Lemma name_state_special w h :
  (h = h_connection \/ h = h_content_length \/ h = h_transfer_encoding \/ h = h_upgrade) ->
  name_state w = h <-> special w = Some h.
Proof.
  intros Hh. unfold name_state. destruct (special w) as [h'|]; [naive_solver |].
  split; [| done]. repeat case_goal; naive_solver.
Qed.

(** Header names are recognised exactly: after a whole header name, of any
    token characters, the matchers of the parser are in the state of
    Connection, Content-Length, Transfer-Encoding or Upgrade if and only if
    the name, with its letters lowered, is one of these (or Proxy-Connection
    for the first); the name is reported as it was written. *)
Theorem header_names_exact {U} `{Collector U} name p u :
  parser_ok p -> hp_errno p = HPE_OK -> hp_state p = s_header_field_start ->
  name <> [] -> Forall token_ok name ->
  hp_nread p + Z.of_nat (length name) <= HTTP_MAX_HEADER_SIZE ->
  exists q, http_parser_execute collecting name p u =
      Ok (length name, q, on_bytes M_header_field name u) /\
    hp_state q = s_header_field /\
    forall h, (h = h_connection \/ h = h_content_length \/ h = h_transfer_encoding \/
               h = h_upgrade) ->
      hp_header_state q = h <-> special (TOKEN <$> name) = Some h.
Proof.
  intros Hp E St Hne Ht HL. pose proof (fo_nread _ (proj1 Hp)).
  destruct (run_name name p s_header_field_start (hp_header_state p) (hp_index p)
    (hp_nread p) u) as (h' & i' & R & Hh & _); [done | done | done | lia | done |].
  rewrite <- St, <- at_state_self in R.
  assert (B : bytes_ok name) by (apply (list.Forall_impl token_ok); [done | by intros c [? _]]).
  destruct (run_execute name p u _ _ Hp E B Hne R) as (Ex & _).
  eexists. split_and!; [exact Ex | done |]. intros h Hs. cbn. rewrite Hh.
  by apply name_state_special.
Qed.

(** a fresh parser that has read the first line *)
Definition after_line : http_parser :=
  at_state (http_parser_init HTTP_REQUEST) s_header_field_start h_general 0 16.

Lemma header_names_exact_witness :
  parser_ok after_line /\
  exists q, http_parser_execute collecting (bs "CONTENT-length") after_line [] =
      Ok (length (bs "CONTENT-length"), q,
          on_bytes M_header_field (bs "CONTENT-length") ([] : list item)) /\
    hp_state q = s_header_field /\
    forall h, (h = h_connection \/ h = h_content_length \/ h = h_transfer_encoding \/
               h = h_upgrade) ->
      hp_header_state q = h <-> special (TOKEN <$> bs "CONTENT-length") = Some h.
Proof.
  assert (Hp : parser_ok after_line).
  { destruct (init_ok HTTP_REQUEST) as [F _]. split; [| done]. destruct F.
    constructor; cbn in *; unfold HTTP_MAX_HEADER_SIZE in *; lia. }
  split; [done |].
  apply (header_names_exact (bs "CONTENT-length") after_line ([] : list item)).
  - done.
  - reflexivity.
  - reflexivity.
  - discriminate.
  - by apply token_okb_spec.
  - vm_compute. discriminate.
Defined.
