(* ===== verification/HttpParserMessage.v ===== *)
(** * Whole messages of the HTTP parser of the Capture client

    A request written the usual way (method, URL, HTTP/1.1, headers, a length
    and a body) is parsed back into its parts, in any cut of the bytes. *)
From Stdlib Require Import ZArith Lia Ascii.
From stdpp Require Import base list strings numbers.
From S2P Require Import Prelude HttpParserDef HttpParserCases HttpParserExec.
From S2P Require Import HttpParserInv HttpParserSafe HttpParserStream HttpParserStep.
From S2P Require Import HttpParserHeaders.

Local Open Scope Z_scope.

(** Evaluates a string constant of the goal. *)
Ltac strings :=
  repeat match goal with
  | |- context [bs ?s] => let r := eval vm_compute in (bs s) in change (bs s) with r
  end.

(** Evaluates a run over known bytes in known header states. *)
Ltac run_known :=
  unfold at_state; cbn [hp_type hp_flags hp_state hp_header_state hp_index hp_nread
    hp_content_length hp_major hp_minor hp_status_code hp_method hp_errno hp_upgrade];
  repeat header_step; cbn [run].

Section Message.
Context {U : Type} `{Collector U}.
Implicit Type (u : U) (p : http_parser).

(** ** The request line *)

(** the parser after the method *)
Definition with_method p (m : http_method) : http_parser :=
  p |> set_flags 0 |> set_content_length ULLONG_MAX |> set_method m.

Lemma run_method m p h i n u :
  m <> HTTP_CONNECT -> 0 <= n -> n + 12 <= HTTP_MAX_HEADER_SIZE ->
  run (method_strings m ++ bs " ") (at_state p s_start_req h i n) u =
  Some (at_state (with_method p m) s_req_spaces_before_url h
          (Z.of_nat (length (method_strings m)) + 1)
          (n + Z.of_nat (length (method_strings m)) + 1),
        on_event N_message_begin u).
Proof.
  intros Hm Hn HL. unfold HTTP_MAX_HEADER_SIZE in HL. destruct p.
  destruct m; try done; cbn [method_strings]; strings; cbn [app]; run_known;
    do 2 f_equal; unfold at_state, with_method; cbn; f_equal; lia.
Qed.

(** the state a URL leads to *)
Definition url_state (url : bytes) : state :=
  foldl parse_url_char s_req_spaces_before_url url.

(** a URL the parser accepts: no character is refused and it may end there *)
Definition url_ends (s : state) : bool :=
  match s with
  | s_req_server | s_req_server_with_at | s_req_path | s_req_query_string_start
  | s_req_query_string | s_req_fragment_start | s_req_fragment => true
  | _ => false
  end.

Lemma parse_url_dead url : foldl parse_url_char s_dead url = s_dead.
Proof.
  induction url as [|c url IH]; [done |]. cbn.
  enough (parse_url_char s_dead c = s_dead) as -> by done.
  unfold parse_url_char. repeat case_goal; done.
Qed.

Lemma parse_url_blank s c : parse_url_char s c <> s_dead ->
  (c =? chr " ") = false /\ (c =? CR) = false /\ (c =? LF) = false.
Proof.
  unfold parse_url_char. intros Hn.
  destruct ((c =? chr " ") || (c =? CR) || (c =? LF)) eqn:E; [done |].
  apply orb_false_iff in E as [E ?]. by apply orb_false_iff in E as [? ?].
Qed.

Lemma run_url_rest url p s h i n u :
  mark_of s = Some M_url -> foldl parse_url_char s url <> s_dead ->
  0 <= n -> n + Z.of_nat (length url) <= HTTP_MAX_HEADER_SIZE ->
  run url (at_state p s h i n) u =
  Some (at_state p (foldl parse_url_char s url) h i (n + Z.of_nat (length url)),
        on_bytes M_url url u).
Proof.
  revert s n u. induction url as [|c url IH]; intros s n u Hm Hd Hn HL; cbn [run foldl length] in *.
  { by rewrite on_bytes_nil, Z.add_0_r. }
  assert (Hc : parse_url_char s c <> s_dead) by (intros E; by rewrite E, parse_url_dead in Hd).
  destruct (parse_url_blank s c Hc) as (E1 & E2 & E3).
  rewrite step_header by (first [by destruct s | lia]).
  assert (C : cases 4 c (at_state p s h i (n + 1)) u =
    Some (at_state p (parse_url_char s c) h i (n + 1), on_bytes M_url [c] u)).
  { destruct (parse_url_char_cases s c) as [?|Hm']; [done |].
    destruct s; try discriminate Hm; cbn [cases]; unfold switch, at_state; cbn [hp_state];
      unfold case_url_no_end, case_url_may_end, url_char; rewrite E1, E2, E3; cbn [orb];
      parser_cbn; rewrite decide_False by done; unfold report_end; cbn [report hp_state set_state];
      parser_cbn; by rewrite Hm'. }
  rewrite C, IH; [| by destruct (parse_url_char_cases s c) | done | lia | lia].
  rewrite <- on_bytes_app. do 3 f_equal. lia.
Qed.

Lemma run_url url p h i n u :
  url <> [] -> url_state url <> s_dead -> hp_method p <> HTTP_CONNECT ->
  0 <= n -> n + Z.of_nat (length url) <= HTTP_MAX_HEADER_SIZE ->
  run url (at_state p s_req_spaces_before_url h i n) u =
  Some (at_state p (url_state url) h i (n + Z.of_nat (length url)), on_bytes M_url url u).
Proof.
  unfold url_state. intros Hu Hd Hm Hn HL. destruct url as [|c url]; [done |].
  cbn [run foldl length] in *.
  assert (Hc : parse_url_char s_req_spaces_before_url c <> s_dead)
    by (intros E; by rewrite E, parse_url_dead in Hd).
  destruct (parse_url_blank _ c Hc) as (E1 & E2 & E3).
  rewrite step_header by (first [done | lia]).
  assert (C : cases 4 c (at_state p s_req_spaces_before_url h i (n + 1)) u =
    Some (at_state p (parse_url_char s_req_spaces_before_url c) h i (n + 1), on_bytes M_url [c] u)).
  { destruct (parse_url_char_cases s_req_spaces_before_url c) as [?|Hm']; [done |].
    cbn [cases]; unfold switch, at_state; cbn [hp_state].
    unfold case_s_req_spaces_before_url, url_char. rewrite E1. parser_cbn.
    rewrite (decide_False (P := hp_method p = HTTP_CONNECT)) by done. parser_cbn.
    rewrite decide_False by done. unfold report_end. cbn [report]. parser_cbn. by rewrite Hm'. }
  rewrite C, run_url_rest; [| by destruct (parse_url_char_cases s_req_spaces_before_url c)
    | done | lia | lia].
  rewrite <- on_bytes_app. do 3 f_equal. lia.
Qed.

(** the version, and the end of the line *)
Lemma run_version p s h i n u :
  url_ends s = true -> 0 <= n -> n + 11 <= HTTP_MAX_HEADER_SIZE ->
  run (bs " HTTP/1.1" ++ [CR; LF]) (at_state p s h i n) u =
  Some (at_state (p |> set_major 1 |> set_minor 1) s_header_field_start h i (n + 11), u).
Proof.
  intros Hs Hn HL. unfold HTTP_MAX_HEADER_SIZE in HL. destruct p. strings. cbn [app].
  destruct s; try discriminate Hs; run_known; do 2 f_equal; unfold at_state; cbn; f_equal; lia.
Qed.

(** ** Headers *)

Definition value_char (c : Z) : Prop := 0 <= c < 256 /\ c <> CR /\ c <> LF.

(** A value: not empty, no blank in front, no line end inside. *)
Definition value_ok (v : bytes) : Prop :=
  match v with
  | [] => False
  | c :: _ => c <> 32 /\ c <> 9 /\ Forall value_char v
  end.

(** a header whose name the parser does not act on *)
Definition header_ok (hd : bytes * bytes) : Prop :=
  hd.1 <> [] /\ Forall token_ok hd.1 /\ special (TOKEN <$> hd.1) = None /\ value_ok hd.2.

Definition header_line (hd : bytes * bytes) : bytes :=
  hd.1 ++ bs ": " ++ hd.2 ++ [CR; LF].

Lemma value_char_not c : value_char c -> (c =? CR) = false /\ (c =? LF) = false.
Proof. intros (_ & ? & ?). by rewrite !Z.eqb_neq. Qed.

Lemma run_value_rest v p n u :
  Forall value_char v -> 0 <= n -> n + Z.of_nat (length v) <= HTTP_MAX_HEADER_SIZE ->
  run v (at_state p s_header_value h_general 0 n) u =
  Some (at_state p s_header_value h_general 0 (n + Z.of_nat (length v)),
        on_bytes M_header_value v u).
Proof.
  revert n u. induction v as [|c v IH]; intros n u Hv Hn HL; cbn [run length] in *.
  { by rewrite on_bytes_nil, Z.add_0_r. }
  apply list.Forall_cons in Hv as [Hc Hv]. destruct (value_char_not c Hc) as [E1 E2].
  rewrite step_header by (first [done | lia]). cbn [cases]. unfold switch.
  change (hp_state (at_state p s_header_value h_general 0 (n + 1))) with s_header_value.
  cbn iota beta. unfold case_s_header_value. rewrite E1, E2. cbn [header_value_char hp_header_state at_state].
  change (hp_header_state (at_state p s_header_value h_general 0 (n + 1))) with h_general.
  unfold brk, report_end. cbn [report mark_of hp_state at_state].
  rewrite IH by (first [done | lia]). rewrite <- on_bytes_app. do 3 f_equal. lia.
Qed.

(** a header state that a value of any kind leaves for [h_general] *)
Definition plain_header (h : header_states) : Prop :=
  h <> h_upgrade /\ h <> h_transfer_encoding /\ h <> h_content_length /\ h <> h_connection.

Lemma name_state_plain w : special w = None -> plain_header (name_state w).
Proof.
  intros E. unfold plain_header. rewrite !name_state_special, E by auto. by split_and!.
Qed.

Lemma run_value v p h i n u :
  value_ok v -> plain_header h -> 0 <= n -> n + Z.of_nat (length v) <= HTTP_MAX_HEADER_SIZE ->
  run v (at_state p s_header_value_start h i n) u =
  Some (at_state p s_header_value h_general 0 (n + Z.of_nat (length v)),
        on_bytes M_header_value v u).
Proof.
  intros Hv Hh Hn HL. destruct v as [|c v]; [done |]. destruct Hv as (H1 & H2 & Hv).
  apply list.Forall_cons in Hv as [Hc Hv]. destruct (value_char_not c Hc) as [E1 E2].
  apply Z.eqb_neq in H1, H2. cbn [run length] in *.
  rewrite step_header by (first [done | lia]).
  assert (C : cases 4 c (at_state p s_header_value_start h i (n + 1)) u =
    Some (at_state p s_header_value h_general 0 (n + 1), on_bytes M_header_value [c] u)).
  { destruct Hh as (N1 & N2 & N3 & N4). unfold at_state. cbn [cases]. unfold switch.
    cbn [hp_state]. unfold case_s_header_value_start. chars. rewrite H1, H2, E1, E2.
    cbn [orb]. parser_cbn. destruct h; done. }
  rewrite C, run_value_rest by (first [done | lia]). rewrite <- on_bytes_app. do 3 f_equal. lia.
Qed.

(** after the name: the colon and a blank *)
Lemma run_colon p h i n u :
  0 <= n -> n + 2 <= HTTP_MAX_HEADER_SIZE ->
  run (bs ": ") (at_state p s_header_field h i n) u =
  Some (at_state p s_header_value_start h i (n + 2), u).
Proof.
  intros Hn HL. unfold HTTP_MAX_HEADER_SIZE in HL. destruct p. strings. run_known.
  do 2 f_equal. unfold at_state. cbn. f_equal. lia.
Qed.

(** after a value of no consequence: the end of the line *)
Lemma run_eol p i n u :
  0 <= n -> n + 2 <= HTTP_MAX_HEADER_SIZE ->
  run [CR; LF] (at_state p s_header_value h_general i n) u =
  Some (at_state p s_header_value_lws h_general i (n + 2), u).
Proof.
  intros Hn HL. unfold HTTP_MAX_HEADER_SIZE in HL. destruct p. run_known.
  do 2 f_equal. unfold at_state. cbn. f_equal. lia.
Qed.

Lemma run_header hd p s h i n u :
  header_ok hd -> line_start s = true ->
  0 <= n -> n + Z.of_nat (length (header_line hd)) <= HTTP_MAX_HEADER_SIZE ->
  run (header_line hd) (at_state p s h i n) u =
  Some (at_state p s_header_value_lws h_general 0 (n + Z.of_nat (length (header_line hd))),
        on_bytes M_header_value hd.2 (on_bytes M_header_field hd.1 u)).
Proof.
  intros (Hne & Ht & Hsp & Hv) Hs Hn HL. destruct hd as [name v]. unfold header_line in *.
  cbn [fst snd] in *. change (length (bs ": ")) with 2%nat in *.
  rewrite !length_app, !Nat2Z.inj_add in *. change (Z.of_nat (length (bs ": "))) with 2 in *.
  change (Z.of_nat (length [CR; LF])) with 2 in *. rewrite run_app.
  destruct (run_name name p s h i n u) as (h' & i' & -> & Ha); [done | done | done | lia | lia |].
  rewrite run_app, run_colon, run_app by lia. rewrite run_value by (try done; try lia; rewrite (proj1 Ha);
    by apply name_state_plain). rewrite run_eol by lia. do 3 f_equal. lia.
Qed.

Fixpoint report_headers (hs : list (bytes * bytes)) u : U :=
  match hs with
  | [] => u
  | hd :: hs => report_headers hs (on_bytes M_header_value hd.2 (on_bytes M_header_field hd.1 u))
  end.

Definition header_lines (hs : list (bytes * bytes)) : bytes := concat (header_line <$> hs).

Lemma run_headers hs p s h i n u :
  Forall header_ok hs -> line_start s = true ->
  0 <= n -> n + Z.of_nat (length (header_lines hs)) <= HTTP_MAX_HEADER_SIZE ->
  exists s' h' i', run (header_lines hs) (at_state p s h i n) u =
    Some (at_state p s' h' i' (n + Z.of_nat (length (header_lines hs))), report_headers hs u) /\
    line_start s' = true.
Proof.
  unfold header_lines. revert s h i n u.
  induction hs as [|hd hs IH]; intros s h i n u Hh Hs Hn HL; cbn [fmap list_fmap concat] in *.
  { exists s, h, i. cbn. by rewrite Z.add_0_r. }
  apply list.Forall_cons in Hh as [Hd Hh]. rewrite length_app, Nat2Z.inj_add in *.
  rewrite run_app, run_header by (first [done | lia]).
  destruct (IH s_header_value_lws h_general 0 (n + Z.of_nat (length (header_line hd)))
    (on_bytes M_header_value hd.2 (on_bytes M_header_field hd.1 u))) as (s' & h' & i' & R & ?);
    [done | done | lia | lia |].
  exists s', h', i'. rewrite R. split; [| done]. cbn. do 3 f_equal. lia.
Qed.

(** ** The length of the body *)

Definition with_length p (c : Z) : http_parser :=
  mk_http_parser (hp_type p) (hp_flags p) (hp_state p) (hp_header_state p) (hp_index p)
    (hp_nread p) c (hp_major p) (hp_minor p) (hp_status_code p) (hp_method p) (hp_errno p)
    (hp_upgrade p).

(** the number that digits add to *)
Definition dec_value (c : Z) (ds : bytes) : Z := foldl (fun a d => 10 * a + (d - 48)) c ds.

Lemma dec_value_mono ds c : 0 <= c -> Forall digit_ok ds -> c <= dec_value c ds.
Proof.
  unfold dec_value. revert c. induction ds as [|d ds IH]; intros c Hc Hd; cbn; [lia |].
  apply list.Forall_cons in Hd as [Hd Hds]. unfold digit_ok in Hd.
  specialize (IH (10 * c + (d - 48)) ltac:(lia) Hds). lia.
Qed.

Lemma digit_facts d : digit_ok d ->
  (d =? CR) = false /\ (d =? LF) = false /\ (d =? chr " ") = false /\ (d =? 9) = false /\
  IS_NUM d = true.
Proof.
  unfold digit_ok, IS_NUM, CR, LF. chars. intros Hd. split_and!; try (apply Z.eqb_neq; lia).
  apply andb_true_iff. rewrite !Z.leb_le. lia.
Qed.

Lemma run_digits_rest ds p c n u :
  Forall digit_ok ds -> 0 <= c -> dec_value c ds < ULLONG_MAX ->
  0 <= n -> n + Z.of_nat (length ds) <= HTTP_MAX_HEADER_SIZE ->
  run ds (at_state (with_length p c) s_header_value h_content_length 0 n) u =
  Some (at_state (with_length p (dec_value c ds)) s_header_value h_content_length 0
          (n + Z.of_nat (length ds)), on_bytes M_header_value ds u).
Proof.
  revert c n u. induction ds as [|d ds IH]; intros c n u Hd Hc HV Hn HL; cbn [run length] in *.
  { by rewrite on_bytes_nil, Z.add_0_r. }
  apply list.Forall_cons in Hd as [Hd Hds]. destruct (digit_facts d Hd) as (E1 & E2 & E3 & E4 & E5).
  unfold digit_ok in Hd.
  pose proof (dec_value_mono ds (10 * c + (d - 48)) ltac:(lia) Hds) as Hm.
  change (dec_value c (d :: ds)) with (dec_value (10 * c + (d - 48)) ds) in *.
  rewrite step_header by (first [done | lia]).
  assert (C : cases 4 d (at_state (with_length p c) s_header_value h_content_length 0 (n + 1)) u =
    Some (at_state (with_length p (10 * c + (d - 48))) s_header_value h_content_length 0 (n + 1),
          on_bytes M_header_value [d] u)).
  { unfold at_state, with_length. cbn [cases]. unfold switch. parser_cbn.
    unfold case_s_header_value. rewrite E1, E2. unfold header_value_char. parser_cbn.
    rewrite E3, E5. cbn [negb]. cbv zeta. chars. unfold ULLONG_MAX, u64 in *.
    rewrite (Z.mod_small (c * 10)), (Z.mod_small (c * 10 + (d - 48))) by lia.
    destruct (_ || _) eqn:G; [breflect; lia |]. unfold brk, set_content_length, u64. parser_cbn.
    rewrite Z.mod_small by lia. do 4 f_equal. lia. }
  rewrite C, IH by (first [done | lia]). rewrite <- on_bytes_app. do 3 f_equal. lia.
Qed.

Lemma run_digits ds p i n u :
  ds <> [] -> Forall digit_ok ds -> dec_value 0 ds < ULLONG_MAX ->
  0 <= n -> n + Z.of_nat (length ds) <= HTTP_MAX_HEADER_SIZE ->
  run ds (at_state p s_header_value_start h_content_length i n) u =
  Some (at_state (with_length p (dec_value 0 ds)) s_header_value h_content_length 0
          (n + Z.of_nat (length ds)), on_bytes M_header_value ds u).
Proof.
  intros Hne Hd HV Hn HL. destruct ds as [|d ds]; [done |]. cbn [run length] in *.
  apply list.Forall_cons in Hd as [Hd Hds]. destruct (digit_facts d Hd) as (E1 & E2 & E3 & E4 & E5).
  unfold digit_ok in Hd. change (dec_value 0 (d :: ds)) with (dec_value (d - 48) ds) in *.
  rewrite step_header by (first [done | lia]).
  assert (C : cases 4 d (at_state p s_header_value_start h_content_length i (n + 1)) u =
    Some (at_state (with_length p (d - 48)) s_header_value h_content_length 0 (n + 1),
          on_bytes M_header_value [d] u)).
  { unfold at_state, with_length. cbn [cases]. unfold switch. parser_cbn.
    unfold case_s_header_value_start. rewrite E1, E2, E3, E4, E5. cbn [orb negb]. parser_cbn.
    chars. unfold set_content_length, set_state, set_index, u64. parser_cbn.
    rewrite (Z.mod_small (d - 48)) by lia. done. }
  rewrite C, run_digits_rest by (first [done | lia]). rewrite <- on_bytes_app. do 3 f_equal. lia.
Qed.

Definition length_line (c : Z) : bytes := bs "Content-Length: " ++ print_dec c ++ [CR; LF].

Lemma run_length_line c p s h i n u :
  line_start s = true -> 0 <= c < ULLONG_MAX ->
  0 <= n -> n + Z.of_nat (length (length_line c)) <= HTTP_MAX_HEADER_SIZE ->
  run (length_line c) (at_state p s h i n) u =
  Some (at_state (with_length p c) s_header_value_lws h_content_length 0
          (n + Z.of_nat (length (length_line c))),
        on_bytes M_header_value (print_dec c) (on_bytes M_header_field (bs "Content-Length") u)).
Proof.
  intros Hs Hc Hn HL. unfold length_line in *.
  change (bs "Content-Length: ") with (bs "Content-Length" ++ bs ": ") in *.
  rewrite <- app_assoc in *. rewrite !length_app, !Nat2Z.inj_add in *.
  change (Z.of_nat (length (bs "Content-Length"))) with 14 in *.
  change (Z.of_nat (length (bs ": "))) with 2 in *.
  change (Z.of_nat (length [CR; LF])) with 2 in *.
  destruct (run_name (bs "Content-Length") p s h i n u) as (h' & i' & R & Ha & _);
    [done | done | by apply token_okb_spec | lia | change (Z.of_nat (length (bs "Content-Length"))) with 14; lia |].
  rewrite run_app, R, run_app.
  change (Z.of_nat (length (bs "Content-Length"))) with 14 in *.
  rewrite run_colon, run_app by lia.
  assert (h' = h_content_length) as -> by (rewrite Ha; vm_compute; reflexivity).
  assert (V : dec_value 0 (print_dec c) = c) by (apply print_dec_value; unfold ULLONG_MAX in *; lia).
  rewrite run_digits; [| apply print_nat_fuel_nonempty | apply print_dec_digits; lia | lia | lia | lia].
  rewrite V. set (w := with_length p c). unfold HTTP_MAX_HEADER_SIZE in HL.
  destruct w. run_known. do 2 f_equal. unfold at_state. cbn. f_equal. lia.
Qed.

(** ** End of the headers and the body *)

(** a request of HTTP/1.1 without headers the parser acts on but the length *)
Record plain_request p : Prop := {
  pr_type : hp_type p = HTTP_REQUEST;
  pr_flags : hp_flags p = 0;
  pr_major : hp_major p = 1;
  pr_minor : hp_minor p = 1;
  pr_method : hp_method p <> HTTP_CONNECT;
}.

Lemma plain_keeps_alive p s h i n c up :
  plain_request p ->
  NEW_MESSAGE (at_state (set_upgrade up (with_length p c)) s h i n) = s_start_req.
Proof.
  intros []. unfold NEW_MESSAGE, http_should_keep_alive, http_message_needs_eof, start_state.
  cbn. rewrite pr_type0, pr_flags0, pr_major0, pr_minor0. done.
Qed.

Lemma cases_headers_end p c h i n u :
  plain_request p -> c <> ULLONG_MAX ->
  cases 3 LF (at_state (with_length p c) s_headers_almost_done h i n) u =
  Some (if c =? 0
        then (at_state (set_upgrade false (with_length p c)) s_start_req h i 0,
              on_event N_message_complete (on_complete u))
        else (at_state (set_upgrade false (with_length p c)) s_body_identity h i 0,
              on_complete u)).
Proof.
  intros Pr Hc. pose proof (fun s n => plain_keeps_alive p s h i n c false Pr) as K.
  destruct Pr. unfold at_state, with_length in *. split_parser p. parser_cbn.
  cbn [cases]. unfold switch. parser_cbn. unfold case_s_headers_almost_done, STRICT_CHECK.
  parser_cbn. rewrite bool_decide_false by done. subst fl. change (negb (LF =? LF)) with false.
  change (has 0 F_TRAILING) with false. change (has 0 F_UPGRADE) with false.
  cbn [cases orb]. unfold switch. parser_cbn. unfold case_s_headers_done, STRICT_CHECK. parser_cbn.
  change (negb (LF =? LF)) with false. change (has 0 F_SKIPBODY) with false.
  change (has 0 F_CHUNKED) with false. cbn iota.
  destruct (c =? 0) eqn:E; [| rewrite (proj2 (Z.eqb_neq c ULLONG_MAX)) by done; done].
  specialize (K s_headers_done 0). unfold new_message, set_nread, set_upgrade, set_state in *.
  parser_cbn. change (u32 0) with 0. rewrite K. done.
Qed.

Lemma run_headers_end p c s h i n u :
  plain_request p -> c <> ULLONG_MAX -> line_start s = true ->
  0 <= n -> n + 2 <= HTTP_MAX_HEADER_SIZE ->
  run [CR; LF] (at_state (with_length p c) s h i n) u =
  Some (if c =? 0
        then (at_state (set_upgrade false (with_length p c)) s_start_req h i 0,
              on_event N_message_complete (on_complete u))
        else (at_state (set_upgrade false (with_length p c)) s_body_identity h i 0,
              on_complete u)).
Proof.
  intros Pr Hc Hs Hn HL. cbn [run]. rewrite step_header by (first [by destruct s | lia]).
  assert (C : cases 4 CR (at_state (with_length p c) s h i (n + 1)) u =
    Some (at_state (with_length p c) s_headers_almost_done h i (n + 1), u))
    by (by destruct s).
  rewrite C, step_header by (first [done | lia]).
  pose proof (cases_headers_end p c h i (n + 1 + 1) u Pr Hc) as D.
  apply cases_more in D. rewrite D. by destruct (c =? 0).
Qed.

Lemma run_body body p h i n u :
  plain_request p -> body <> [] -> Z.of_nat (length body) < ULLONG_MAX ->
  run body (at_state (with_length p (Z.of_nat (length body))) s_body_identity h i n) u =
  Some (at_state (with_length p 0) s_start_req h i n,
        on_event N_message_complete (on_bytes M_body body u)).
Proof.
  intros Pr. revert u. induction body as [|b body IH]; intros u Hne HL; [done |].
  cbn [run]. unfold step. cbn [hp_state at_state PARSING_HEADER].
  set (l := Z.of_nat (length (b :: body))) in *. cbn [length] in l.
  assert (Hl : 1 <= l) by lia. cbn [cases]. unfold switch.
  change (hp_state (at_state (with_length p l) s_body_identity h i n)) with s_body_identity.
  cbn iota. unfold case_s_body_identity.
  change (hp_content_length (at_state (with_length p l) s_body_identity h i n)) with l.
  rewrite (proj2 (Z.eqb_neq l 0)), (proj2 (Z.eqb_neq l ULLONG_MAX)), Z.min_r by lia.
  cbn [c_assert negb andb]. unfold set_content_length, at_state, with_length. parser_cbn.
  unfold ULLONG_MAX in HL. assert (U1 : u64 (l - 1) = l - 1) by (apply Z.mod_small; lia).
  rewrite U1. destruct (decide (body = [])) as [->|Hb].
  - change (l - 1) with 0. cbn [Z.eqb]. cbn [cases]. unfold switch. parser_cbn.
    unfold case_s_message_done, new_message.
    pose proof (plain_keeps_alive p s_message_done h i n 0 (hp_upgrade p) Pr) as K.
    unfold at_state, with_length, set_upgrade, set_state in *. parser_cbn. rewrite K. done.
  - assert (l - 1 <> 0) by (destruct body; [done | cbn in l; lia]).
    rewrite (proj2 (Z.eqb_neq (l - 1) 0)) by done. unfold report_end. cbn [report mark_of bulk_read].
    parser_cbn. specialize (IH (on_bytes M_body [b] u) Hb ltac:(unfold ULLONG_MAX; lia)).
    replace (l - 1) with (Z.of_nat (length body)) by lia. unfold at_state, with_length in IH.
    parser_cbn. rewrite IH, <- on_bytes_app. done.
Qed.

(** ** Requests *)

Definition encode_request (m : http_method) (url : bytes) (hs : list (bytes * bytes))
  (body : bytes) : bytes :=
  (method_strings m ++ bs " ") ++ url ++ (bs " HTTP/1.1" ++ [CR; LF]) ++
  header_lines hs ++ length_line (Z.of_nat (length body)) ++ [CR; LF] ++ body.

(** what the callbacks are given for it *)
Definition report_request (url : bytes) (hs : list (bytes * bytes)) (body : bytes) u : U :=
  on_event N_message_complete (on_bytes M_body body (on_complete
    (on_bytes M_header_value (print_dec (Z.of_nat (length body)))
      (on_bytes M_header_field (bs "Content-Length")
        (report_headers hs (on_bytes M_url url (on_event N_message_begin u))))))).

(** the size of the part of a request that counts against the limit *)
Definition head_size (m : http_method) (url : bytes) (hs : list (bytes * bytes))
  (body : bytes) : Z :=
  Z.of_nat (length (method_strings m)) + Z.of_nat (length url) +
  Z.of_nat (length (header_lines hs)) +
  Z.of_nat (length (length_line (Z.of_nat (length body)))) + 14.

Definition request_ok (m : http_method) (url : bytes) (hs : list (bytes * bytes)) (body : bytes)
  : Prop :=
  m <> HTTP_CONNECT /\ url <> [] /\ url_ends (url_state url) = true /\ Forall header_ok hs /\
  Z.of_nat (length body) < ULLONG_MAX.

Lemma run_request m url hs body p u :
  request_ok m url hs body -> hp_type p = HTTP_REQUEST -> hp_state p = s_start_req ->
  0 <= hp_nread p -> hp_nread p + head_size m url hs body <= HTTP_MAX_HEADER_SIZE ->
  exists q, run (encode_request m url hs body) p u = Some (q, report_request url hs body u) /\
    hp_state q = s_start_req /\ hp_method q = m /\ hp_upgrade q = false /\ hp_nread q = 0.
Proof.
  intros (Hm & Hu & He & Hh & HB) Ht St Hn HL. unfold head_size in HL.
  pose proof (method_length m). assert (Hd : url_state url <> s_dead) by (by destruct (url_state url)).
  rewrite (at_state_self p), St. unfold encode_request. set (n := hp_nread p) in *.
  rewrite run_app, run_method by (first [done | lia]).
  rewrite run_app, run_url by (first [done | lia]).
  rewrite run_app, run_version by (first [done | lia]).
  rewrite run_app. set (p1 := with_method p m |> set_major 1 |> set_minor 1).
  edestruct (run_headers hs p1 s_header_field_start) as (s' & h' & i' & -> & Hs');
    [done | done | | | ]; [lia | lia |].
  rewrite run_app, run_length_line by (first [done | lia]).
  assert (Pr : plain_request p1) by (by constructor).
  rewrite run_app, run_headers_end by (first [done | lia]).
  unfold report_request. destruct (Z.of_nat (length body) =? 0) eqn:B; breflect.
  - assert (body = []) as -> by (by destruct body). cbn [run]. eexists.
    split; [rewrite on_bytes_nil; reflexivity | done].
  - assert (Pr' : plain_request (set_upgrade false p1)) by (by constructor).
    change (set_upgrade false (with_length p1 (Z.of_nat (length body)))) with
      (with_length (set_upgrade false p1) (Z.of_nat (length body))).
    rewrite run_body; [| done | by destruct body | done]. eexists. by split.
Qed.
End Message.

Lemma bytes_ok_app a b : bytes_ok a -> bytes_ok b -> bytes_ok (a ++ b).
Proof. intros. by apply Forall_app. Qed.

Lemma header_lines_bytes hs : Forall header_ok hs -> bytes_ok (header_lines hs).
Proof.
  unfold header_lines. induction 1 as [|[name v] hs (_ & Ht & _ & Hv) _ IH]; [constructor |].
  cbn. apply bytes_ok_app; [| done]. unfold header_line. cbn [fst snd] in *.
  repeat apply bytes_ok_app; try (by apply bytes_okb_spec).
  - apply (list.Forall_impl token_ok); [done | by intros c [? _]].
  - destruct v; [done |]. destruct Hv as (_ & _ & Hv).
    apply (list.Forall_impl value_char); [done | by intros c [? _]].
Qed.

(** C5: A request written by [encode_request] is parsed back: a parser at the
    start of a message that is fed the bytes of any method but CONNECT, any
    URL it accepts, headers it does not act on, the length of the body and
    the body, in one call (and so, by [http_parser_split], in any cut), takes
    all of them, reports exactly the URL, the headers, their end, the body and
    the end of the message, in this order, and is at the start of a message
    again with the method recorded. *)
Theorem request_roundtrip {U} `{Collector U} m url hs body p u :
  request_ok m url hs body -> bytes_ok url -> bytes_ok body ->
  parser_ok p -> hp_errno p = HPE_OK -> hp_type p = HTTP_REQUEST -> hp_state p = s_start_req ->
  hp_nread p + head_size m url hs body <= HTTP_MAX_HEADER_SIZE ->
  exists q, http_parser_execute collecting (encode_request m url hs body) p u =
      Ok (length (encode_request m url hs body), q, report_request url hs body u) /\
    hp_state q = s_start_req /\ hp_method q = m /\ hp_errno q = HPE_OK /\
    hp_upgrade q = false /\ parser_ok q.
Proof.
  intros Hr Hbu Hbb Hp E Ht St HL. pose proof (fo_nread _ (proj1 Hp)) as Hn.
  destruct (run_request m url hs body p u Hr Ht St ltac:(lia) HL) as (q & R & H1 & H2 & H3 & _).
  assert (B : bytes_ok (encode_request m url hs body)).
  { destruct Hr as (_ & _ & _ & Hh & _). unfold encode_request, length_line.
    repeat apply bytes_ok_app; try (by apply bytes_okb_spec); auto using header_lines_bytes.
    - apply bytes_okb_spec. by destruct m.
    - apply (list.Forall_impl digit_ok); [apply print_dec_digits; lia |].
      unfold digit_ok, byte_ok. lia. }
  destruct (run_execute _ p u _ _ Hp E B ltac:(by destruct m) R) as (Ex & Hq & Eq).
  exists q. by split_and!.
Qed.

Lemma request_roundtrip_witness :
  request_ok HTTP_POST (bs "/up?x=1") [(bs "Host", bs "a b")] (bs "hi") /\
  exists q, http_parser_execute collecting
      (encode_request HTTP_POST (bs "/up?x=1") [(bs "Host", bs "a b")] (bs "hi"))
      (http_parser_init HTTP_REQUEST) ([] : list item) =
      Ok (length (encode_request HTTP_POST (bs "/up?x=1") [(bs "Host", bs "a b")] (bs "hi")), q,
          report_request (bs "/up?x=1") [(bs "Host", bs "a b")] (bs "hi") []) /\
    hp_state q = s_start_req /\ hp_method q = HTTP_POST /\ hp_errno q = HPE_OK /\
    hp_upgrade q = false /\ parser_ok q.
Proof.
  assert (Hr : request_ok HTTP_POST (bs "/up?x=1") [(bs "Host", bs "a b")] (bs "hi")).
  { split; [discriminate |]. split; [discriminate |]. split; [reflexivity |].
    split; [| vm_compute; reflexivity]. constructor; [| constructor].
    split; [discriminate |]. split; [by apply token_okb_spec |]. split; [reflexivity |].
    split; [discriminate |]. split; [discriminate |].
    apply (Forall_forallb (fun c => (0 <=? c) && (c <? 256) && negb (c =? 13) && negb (c =? 10)));
      [reflexivity |]. unfold value_char, CR, LF. intros. breflect. lia. }
  split; [exact Hr |].
  apply (request_roundtrip HTTP_POST (bs "/up?x=1") [(bs "Host", bs "a b")] (bs "hi")
    (http_parser_init HTTP_REQUEST) ([] : list item)).
  - exact Hr.
  - by apply bytes_okb_spec.
  - by apply bytes_okb_spec.
  - apply init_ok.
  - reflexivity.
  - reflexivity.
  - reflexivity.
  - vm_compute. discriminate.
Defined.
