(* ===== verification/HttpParserMethods.v ===== *)
(** * Methods and lengths as the HTTP parser of the Capture client reads them

    Which words the parser takes for a method, and what its overflow checks
    let through: the places where it accepts more than its comments say. *)
From Stdlib Require Import ZArith Lia Ascii.
From stdpp Require Import base list strings numbers.
From S2P Require Import Prelude HttpParserDef HttpParserCases HttpParserExec.
From S2P Require Import HttpParserInv HttpParserSafe HttpParserStream HttpParserStep.
From S2P Require Import HttpParserHeaders HttpParserMessage.

Local Open Scope Z_scope.

(** ** Methods *)

(** [w] is the name of [m] but for its third character. *)
Definition names (w : bytes) (m : http_method) : Prop :=
  forall i c, (i <> 2)%nat -> w !! i = Some c -> method_strings m !! i = Some c.

Lemma c_index_lookup lit i c : c_index lit i = Ok c -> c <> 0 -> lit !! Z.to_nat i = Some c.
Proof.
  unfold c_index. destruct ((lit ++ [0]) !! Z.to_nat i) as [x|] eqn:E; [| done].
  intros [= ->] Hc. destruct (decide (Z.to_nat i < length lit)%nat).
  - by rewrite lookup_app_l in E.
  - rewrite lookup_app_r in E by lia.
    destruct (Z.to_nat i - length lit)%nat as [|k]; cbn in E; [congruence | by destruct k].
Qed.

Lemma c_index_end lit i : 0 <= i -> c_index lit i = Ok 0 -> ~ In 0 lit -> Z.to_nat i = length lit.
Proof.
  unfold c_index. intros Hi. destruct ((lit ++ [0]) !! Z.to_nat i) as [x|] eqn:E; [| done].
  intros [= ->] Hn. destruct (decide (Z.to_nat i < length lit)%nat) as [L|L].
  - rewrite lookup_app_l in E by done. destruct Hn. apply list_elem_of_In.
    by eapply list_elem_of_lookup_2.
  - rewrite lookup_app_r in E by lia.
    destruct (Z.to_nat i - length lit)%nat as [|k] eqn:K; [lia | by destruct k].
Qed.

(** A correction keeps what was read and agrees with the character, except at
    the third place. *)
Definition branch_ok (m m' : http_method) (i : nat) (ch : Z) : bool :=
  bool_decide (take i (method_strings m) = take i (method_strings m')) &&
  ((i =? 2)%nat || bool_decide (method_strings m' !! i = Some ch)).

Lemma method_branch_names m m' i ch :
  0 <= i -> method_branch m i ch = Some (Some m') -> branch_ok m m' (Z.to_nat i) ch = true.
Proof.
  intros Hi. unfold method_branch. intros E. case_in E; breflect;
    repeat match goal with
    | H : bool_decide _ = true |- _ => apply bool_decide_eq_true in H
    end; simplify_eq; chars; try (vm_compute; reflexivity).
  all: unfold branch_ok; change (Z.to_nat 2) with 2%nat; rewrite bool_decide_true by done; done.
Qed.

Lemma method_chars m : forallb (fun c => negb (c =? 0) && negb (c =? 32)) (method_strings m) = true.
Proof. by destruct m. Qed.

Lemma method_no_nul m : ~ In 0 (method_strings m).
Proof.
  intros Hin. pose proof (method_chars m) as T. rewrite forallb_forall in T.
  apply T in Hin. done.
Qed.

Lemma names_snoc w m m' c i :
  names w m -> length w = i -> take i (method_strings m) = take i (method_strings m') ->
  (i <> 2%nat -> method_strings m' !! i = Some c) -> names (w ++ [c]) m'.
Proof.
  intros Hn Hl Ht Hc j x Hj. destruct (decide (j < length w)%nat) as [L|L].
  - rewrite lookup_app_l by done. intros E. apply Hn in E; [| done].
    rewrite <- (lookup_take_lt _ i) by lia. rewrite <- Ht. by rewrite lookup_take_lt by lia.
  - rewrite lookup_app_r by lia. destruct (j - length w)%nat as [|k] eqn:K; [| by destruct k].
    intros [= ->]. assert (j = i) as -> by lia. by apply Hc.
Qed.

Section Methods.
Context {U : Type} `{Collector U}.
Implicit Type (u v : U) (p q : http_parser).

(** one more character of a method *)
Lemma step_method c p u q v w :
  hp_state p = s_req_method -> 0 <= hp_index p < 12 -> 0 < c < 256 -> c <> 32 ->
  step c p u = Some (q, v) ->
  names w (hp_method p) -> Z.of_nat (length w) = hp_index p ->
  hp_state q = s_req_method /\ v = u /\ hp_index q = hp_index p + 1 /\ names (w ++ [c]) (hp_method q).
Proof.
  intros St Hi Hc H32 Sp Hn Hl. unfold step in Sp. rewrite St in Sp. cbn [PARSING_HEADER] in Sp.
  cbv zeta in Sp. destruct (_ >? _); [done |]. cbn [cases] in Sp. unfold switch in Sp.
  set (p' := p |> set_nread (hp_nread p + 1)) in *.
  change (hp_state p') with (hp_state p) in Sp. rewrite St in Sp.
  unfold case_s_req_method in Sp. change (hp_method p') with (hp_method p) in Sp.
  change (hp_index p') with (hp_index p) in Sp. rewrite (proj2 (Z.eqb_neq c 0)) in Sp by lia.
  destruct (c_index (method_strings (hp_method p)) (hp_index p)) as [x|] eqn:Ci; [| done].
  cbn [mbind result_bind] in Sp. chars. rewrite (proj2 (Z.eqb_neq c 32)) in Sp by lia.
  cbn [andb] in Sp.
  assert (U8 : u8 (hp_index p + 1) = hp_index p + 1) by (apply Z.mod_small; lia).
  destruct (c =? x) eqn:Ex; breflect.
  - subst x. unfold brk, report_end in Sp. cbn in Sp. rewrite St in Sp. injection Sp as <- <-. cbn.
    split_and!; [done | done | done |].
    eapply names_snoc; [done | reflexivity | done |]. intros _.
    apply c_index_lookup in Ci; [| lia]. rewrite <- Ci. f_equal. lia.
  - destruct (method_branch (hp_method p) (hp_index p) c) as [[m'|]|] eqn:Mb; [| done..].
    unfold brk, report_end in Sp. cbn in Sp. rewrite St in Sp. injection Sp as <- <-. cbn.
    split_and!; [done | done | done |]. apply method_branch_names in Mb; [| lia].
    unfold branch_ok in Mb. breflect. apply bool_decide_eq_true in H0.
    eapply names_snoc; [done | reflexivity | |].
    + replace (length w) with (Z.to_nat (hp_index p)) by lia. done.
    + intros N2. destruct H1 as [H1|H1]; breflect; [lia |]. apply bool_decide_eq_true in H1.
      rewrite <- H1. f_equal. lia.
Qed.

Lemma run_method_word w' p u q v w :
  hp_state p = s_req_method -> parser_ok p -> hp_errno p = HPE_OK ->
  Forall (fun c => 0 < c < 256 /\ c <> 32) w' -> run w' p u = Some (q, v) ->
  names w (hp_method p) -> Z.of_nat (length w) = hp_index p ->
  hp_state q = s_req_method /\ v = u /\ hp_index q = hp_index p + Z.of_nat (length w') /\
  names (w ++ w') (hp_method q).
Proof.
  revert p u w. induction w' as [|c w' IH]; intros p u w St Hp E Hw R Hn Hl.
  { injection R as <- <-. rewrite app_nil_r. cbn. split_and!; [done | done | lia | done]. }
  apply list.Forall_cons in Hw as [[Hc H32] Hw]. cbn [run] in R.
  destruct (step c p u) as [[p1 u1]|] eqn:Sp; [| done].
  assert (Hi : 0 <= hp_index p < 12).
  { destruct Hp as [F S]. unfold state_ok in S. rewrite St in S.
    pose proof (method_length (hp_method p)). destruct F. lia. }
  destruct (step_goes_on c p u p1 u1 Hp E ltac:(lia) Sp) as (_ & Hp1 & E1 & _).
  destruct (step_method c p u p1 u1 w St Hi Hc H32 Sp Hn Hl) as (St1 & -> & Hi1 & Hn1).
  destruct (IH p1 u (w ++ [c]) St1 Hp1 E1 Hw R Hn1) as (A1 & A2 & A3 & A4);
    [rewrite length_app; cbn; lia |].
  rewrite <- app_assoc in A4. cbn [length]. split_and!; [done | done | lia | done].
Qed.

(** the first character *)
Lemma step_first_method c p u q v :
  hp_state p = s_start_req -> c <> CR -> c <> LF -> step c p u = Some (q, v) ->
  hp_state q = s_req_method /\ v = on_event N_message_begin u /\ hp_index q = 1 /\
  names [c] (hp_method q).
Proof.
  intros St H13 H10 Sp. unfold step in Sp. rewrite St in Sp. cbn [PARSING_HEADER] in Sp.
  cbv zeta in Sp. destruct (_ >? _); [done |]. cbn [cases] in Sp. unfold switch in Sp.
  change (hp_state (p |> set_nread (hp_nread p + 1))) with (hp_state p) in Sp. rewrite St in Sp.
  unfold case_s_start_req in Sp.
  rewrite (proj2 (Z.eqb_neq c CR)), (proj2 (Z.eqb_neq c LF)) in Sp by done. cbn [orb] in Sp.
  cbv zeta in Sp. destruct (negb (IS_ALPHA c)); [done |].
  destruct (first_method c) as [m|] eqn:Fm; [| done]. injection Sp as <- <-. cbn.
  split_and!; [done | done | done |].
  intros [|i] x Hi; cbn; [| by destruct i]. intros [= <-].
  unfold first_method in Fm. case_in Fm; breflect; simplify_eq; vm_compute; reflexivity.
Qed.

(** the blank that ends a method *)
Lemma step_method_end p u q v :
  hp_state p = s_req_method -> 0 <= hp_index p -> step 32 p u = Some (q, v) ->
  hp_state q = s_req_spaces_before_url ->
  hp_index p = Z.of_nat (length (method_strings (hp_method p))) /\
  hp_method q = hp_method p /\ v = u.
Proof.
  intros St Hi Sp Sq. unfold step in Sp. rewrite St in Sp. cbn [PARSING_HEADER] in Sp.
  cbv zeta in Sp. destruct (_ >? _); [done |]. cbn [cases] in Sp. unfold switch in Sp.
  set (p' := p |> set_nread (hp_nread p + 1)) in *.
  change (hp_state p') with (hp_state p) in Sp. rewrite St in Sp.
  unfold case_s_req_method in Sp. change (hp_method p') with (hp_method p) in Sp.
  change (hp_index p') with (hp_index p) in Sp. chars.
  change (32 =? 0) with false in Sp. change (32 =? 32) with true in Sp. cbn [andb] in Sp.
  destruct (c_index (method_strings (hp_method p)) (hp_index p)) as [x|] eqn:Ci; [| done].
  cbn [mbind result_bind] in Sp. destruct (x =? 0) eqn:Ex; breflect.
  - subst x. injection Sp as <- <-. cbn.
    apply c_index_end in Ci; [| done | apply method_no_nul]. split_and!; [lia | done | done].
  - exfalso. destruct (32 =? x) eqn:E32; breflect.
    + subst x. apply c_index_lookup in Ci; [| done].
      pose proof (method_chars (hp_method p)) as T. rewrite forallb_forall in T.
      apply list_elem_of_lookup_2, list_elem_of_In, T in Ci. done.
    + destruct (method_branch _ _ _) as [[m'|]|]; [| done..].
      unfold brk, report_end in Sp. cbn in Sp. rewrite St in Sp. injection Sp as <- <-.
      cbn in Sq. congruence.
Qed.
End Methods.

(** What the parser takes for a method: when a word without blanks and line
    ends, followed by a blank, brings a parser at the start of a request to
    the URL without an error, the word has the length of the method that is
    recorded and equals it at every place but the third one, and the start of
    the message was reported once. *)
Theorem method_words {U} `{Collector U} w p u n q v :
  parser_ok p -> hp_errno p = HPE_OK -> hp_state p = s_start_req ->
  w <> [] -> Forall (fun c => 0 < c < 256 /\ c <> 32 /\ c <> 13 /\ c <> 10) w ->
  http_parser_execute collecting (w ++ [32]) p u = Ok (n, q, v) ->
  hp_errno q = HPE_OK -> hp_upgrade q = false -> hp_state q = s_req_spaces_before_url ->
  length w = length (method_strings (hp_method q)) /\ names w (hp_method q) /\
  v = on_event N_message_begin u.
Proof.
  intros Hp E St Hne Hw Ex Eq Up Sq. destruct w as [|c w]; [done |].
  assert (B : bytes_ok ((c :: w) ++ [32])).
  { apply bytes_ok_app; [| by apply bytes_okb_spec].
    eapply list.Forall_impl; [exact Hw |]. unfold byte_ok. lia. }
  pose proof (execute_run _ p u n q v Hp E B ltac:(done) Ex Eq Up) as R.
  apply list.Forall_cons in Hw as [(Hc & H32 & H13 & H10) Hw].
  change ((c :: w) ++ [32]) with (c :: (w ++ [32])) in R. cbn [run] in R.
  destruct (step c p u) as [[p1 u1]|] eqn:Sp; [| done].
  destruct (step_goes_on c p u p1 u1 Hp E ltac:(lia) Sp) as (_ & Hp1 & E1 & _).
  destruct (step_first_method c p u p1 u1 St H13 H10 Sp) as (St1 & -> & Hi1 & Hn1).
  rewrite run_app in R. destruct (run w p1 (on_event N_message_begin u)) as [[p2 u2]|] eqn:R2; [| done].
  assert (Hw' : Forall (fun c => 0 < c < 256 /\ c <> 32) w)
    by (eapply list.Forall_impl; [exact Hw |]; cbn; lia).
  destruct (run_method_word w p1 _ p2 u2 [c] St1 Hp1 E1 Hw' R2 Hn1 ltac:(cbn; lia))
    as (St2 & -> & Hi2 & Hn2).
  cbn [run] in R. destruct (step 32 p2 (on_event N_message_begin u)) as [[p3 u3]|] eqn:Sp3; [| done].
  injection R as <- <-.
  destruct (step_method_end p2 _ p3 u3 St2 ltac:(lia) Sp3 Sq) as (Hi3 & -> & ->).
  split_and!; [cbn; lia | done | done].
Qed.

Lemma method_words_witness :
  parser_ok (http_parser_init HTTP_REQUEST) /\
  (forall n q v,
     http_parser_execute collecting (bs "PURGE" ++ [32]) (http_parser_init HTTP_REQUEST)
       ([] : list item) = Ok (n, q, v) ->
     hp_errno q = HPE_OK -> hp_upgrade q = false -> hp_state q = s_req_spaces_before_url ->
     5%nat = length (method_strings (hp_method q)) /\ names (bs "PURGE") (hp_method q) /\
     v = on_event N_message_begin []) /\
  exists n q v,
    http_parser_execute collecting (bs "PURGE" ++ [32]) (http_parser_init HTTP_REQUEST)
      ([] : list item) = Ok (n, q, v) /\
    hp_errno q = HPE_OK /\ hp_upgrade q = false /\ hp_state q = s_req_spaces_before_url.
Proof.
  split; [apply init_ok |]. split.
  - intros n q v Ex E Up St. refine (method_words (bs "PURGE") (http_parser_init HTTP_REQUEST)
      ([] : list item) n q v (init_ok _) eq_refl eq_refl _ _ Ex E Up St); [discriminate |].
    apply (Forall_forallb (fun c => (0 <? c) && (c <? 256) && negb (c =? 32) &&
      negb (c =? 13) && negb (c =? 10))); [vm_compute; reflexivity |].
    intros. breflect. lia.
  - eexists _, _, _. split; [vm_compute; reflexivity |]. split_and!; reflexivity.
Defined.

(** the parser after GE, a character and a blank *)
Definition after_get : http_parser :=
  mk_http_parser HTTP_REQUEST 0 s_req_spaces_before_url h_general 4 4 ULLONG_MAX
    0 0 0 HTTP_GET HPE_OK false.

Definition third_ok (c : Z) : bool :=
  (c =? 0) || bool_decide (http_parser_execute collecting (bs "GE" ++ [c; 32])
    (http_parser_init HTTP_REQUEST) ([] : list item) =
    Ok (4%nat, after_get, [Notified N_message_begin])).

Lemma third_checked : forallb (fun k => third_ok (Z.of_nat k)) (seq 0 256) = true.
Proof. vm_compute. reflexivity. Qed.

(** The third character of a method is not checked: GE followed by any byte
    but NUL and by a blank is a GET request. *)
Theorem third_character_free c :
  1 <= c < 256 ->
  exists q, http_parser_execute collecting (bs "GE" ++ [c; 32]) (http_parser_init HTTP_REQUEST)
      ([] : list item) = Ok (4%nat, q, [Notified N_message_begin]) /\
    hp_errno q = HPE_OK /\ hp_method q = HTTP_GET /\ hp_state q = s_req_spaces_before_url.
Proof.
  intros Hc. exists after_get.
  pose proof (check_below third_ok 256 third_checked c ltac:(lia)) as T.
  unfold third_ok in T. apply orb_true_iff in T as [T|T]; [apply Z.eqb_eq in T; lia |].
  apply bool_decide_eq_true in T. split; [exact T |]. split_and!; reflexivity.
Qed.

Lemma third_character_free_witness :
  1 <= 88 < 256 /\
  exists q, http_parser_execute collecting (bs "GE" ++ [88; 32]) (http_parser_init HTTP_REQUEST)
      ([] : list item) = Ok (4%nat, q, [Notified N_message_begin]) /\
    hp_errno q = HPE_OK /\ hp_method q = HTTP_GET /\ hp_state q = s_req_spaces_before_url.
Proof. split; [lia |]. apply (third_character_free 88). lia. Defined.

(** ** Lengths *)

(** a parser in the headers of a POST request *)
Definition in_headers : http_parser :=
  at_state (with_method (http_parser_init HTTP_REQUEST) HTTP_POST) s_header_field_start
    h_general 0 20.

(** the length of a chunk is being read *)
Definition in_chunk_size : http_parser :=
  at_state (set_flags F_CHUNKED (with_method (http_parser_init HTTP_REQUEST) HTTP_POST))
    s_chunk_size_start h_general 0 0.

(** The overflow checks of the two lengths are not enough: a length that is
    20 digits long wraps to another one without an error, and a chunk size is
    also read from bytes above 127, as zeros. *)
Theorem lengths_wrap :
  (exists q v, http_parser_execute collecting (bs "Content-Length: 30000000000000000000" ++ [13; 10])
     in_headers ([] : list item) = Ok (38%nat, q, v) /\
   hp_errno q = HPE_OK /\ hp_content_length q = 11553255926290448384) /\
  (exists q v, http_parser_execute collecting (bs "27777777777777777" ++ [13; 10])
     in_chunk_size ([] : list item) = Ok (19%nat, q, v) /\
   hp_errno q = HPE_OK /\ hp_content_length q = 8608480567731124087) /\
  (exists q v, http_parser_execute collecting [200; 53; 13; 10]
     in_chunk_size ([] : list item) = Ok (4%nat, q, v) /\
   hp_errno q = HPE_OK /\ hp_content_length q = 5 /\ hp_state q = s_chunk_data).
Proof.
  split_and!; eexists _, _; (split; [vm_compute; reflexivity |]); split_and!; reflexivity.
Qed.
