(* ===== verification/HttpParserPassive.v ===== *)
(** * The HTTP parser of the Capture client under passive callbacks

    Callbacks that return 0 and leave the parser alone do not change its
    course; only the user state differs from one set of callbacks to another.
    This file follows the user state exactly where the web service needs it:
    bytes that report nothing of interest ([quiet_run]), the URL of a request
    ([url_run]) and a body of known length ([body_rest], [body_last]); and it
    bounds the places the callbacks are given ([execute_tracked]). *)
From Stdlib Require Import ZArith Lia Ascii.
From stdpp Require Import base list strings numbers.
From S2P Require Import Prelude HttpParserDef HttpParserCases HttpParserExec.
From S2P Require Import HttpParserInv HttpParserSafe HttpParserStream HttpParserStep.
From S2P Require Import HttpParserMessage.

Local Open Scope Z_scope.

Record passive {U} (s : http_parser_settings U) : Prop := {
  pa_data : forall m cb, on_data s m = Some cb -> forall p d o l u, (cb p d o l u).1 = (0, p);
  pa_notify : forall n cb, on_notify s n = Some cb -> forall p u, (cb p u).1 = (0, p);
  pa_complete : forall cb, on_headers_complete s = Some cb -> forall p u, (cb p u).1 = (0, p);
}.

Lemma passive_ok {U} (s : http_parser_settings U) : passive s -> settings_ok s.
Proof.
  intros [D N C]. split; intros.
  - left. by erewrite D.
  - left. by erewrite N.
  - left. by erewrite C.
Qed.

Lemma bump_at_state p s h i n : 0 <= n < HTTP_MAX_HEADER_SIZE ->
  at_state p s h i n |> set_nread (hp_nread (at_state p s h i n) + 1) = at_state p s h i (n + 1).
Proof.
  intros L. unfold HTTP_MAX_HEADER_SIZE in *. unfold set_nread, at_state. cbn.
  by rewrite u32_small by lia.
Qed.

Lemma below_limit n : 0 <= n < HTTP_MAX_HEADER_SIZE -> (n + 1 >? HTTP_MAX_HEADER_SIZE) = false.
Proof. rewrite Z.gtb_ltb. intros. apply Z.ltb_ge. lia. Qed.

(** ** Loudness: a collector that notes whether anything but headers and the
    begin of a message was reported *)

Definition is_loud (m : mark) (l : bytes) : bool :=
  match m, l with
  | M_url, _ :: _ | M_body, _ :: _ => true
  | _, _ => false
  end.

#[global] Instance loud_collector : Collector bool.
Proof.
  refine {| on_bytes m l u := is_loud m l || u;
            on_event n u := match n with N_message_begin => u | N_message_complete => true end;
            on_complete u := u |}.
  - by intros [] u.
  - intros [] [|x a] [|y b] []; done.
Defined.

Lemma report_loud taken acts : report taken acts true = true.
Proof.
  induction acts as [|a acts IH]; [done |]. destruct a as [m|n|m [|l] r|[]|]; cbn; auto.
  by rewrite orb_true_r.
Qed.

Lemma report_end_loud taken acts c s : report_end taken acts c s true = true.
Proof.
  unfold report_end. rewrite report_loud. destruct c; try done;
    (destruct (mark_of s); [cbn; apply orb_true_r | by destruct (bulk_read acts); cbn; rewrite ?orb_true_r]).
Qed.

Lemma cases_loud fuel b p q : cases fuel b p true <> Some (q, false).
Proof.
  revert p. induction fuel as [|fuel IH]; intros p; [done |]. cbn [cases].
  destruct (switch b 1 p) as [[[q' acts] c]|]; [| done]. rewrite report_end_loud.
  destruct c; by auto.
Qed.

Lemma step_loud b p q : step b p true <> Some (q, false).
Proof. unfold step. cbv zeta. repeat case_goal; try done; apply cases_loud. Qed.

Lemma run_loud d p q : run d p true <> Some (q, false).
Proof.
  revert p. induction d as [|b d IH]; intros p; cbn [run]; [congruence |].
  destruct (step b p true) as [[p1 []]|] eqn:St; [apply IH | by apply step_loud in St | done].
Qed.

Lemma execute_split {U} (s : http_parser_settings U) d p u :
  hp_errno p = HPE_OK ->
  http_parser_execute s d p u =
  if (length d =? 0)%nat then execute_eof s p u
  else exec_loop s d (length d) (mk_env p 0 (entry_marks (hp_state p)) u).
Proof.
  intros E. unfold http_parser_execute. apply is_OK_spec in E. rewrite E. by destruct d.
Qed.

Section Passive.
Context {U : Type} (s : http_parser_settings U) (Ps : passive s) (d : bytes).
Implicit Type (u : U) (p q : http_parser).

(** ** The macros *)

Definition data_eff (m : mark) p (o l : nat) u : U :=
  match on_data s m with Some cb => (cb p d o l u).2 | None => u end.

Definition notify_eff (n : notification) p u : U :=
  match on_notify s n with Some cb => (cb p u).2 | None => u end.

Definition complete_eff p u : U :=
  match on_headers_complete s with Some cb => (cb p u).2 | None => u end.

Lemma callback_data_passive m l r p pos ms u :
  hp_errno p = HPE_OK ->
  callback_data s d m l r (mk_env p pos ms u) =
  Ok (Continue (mk_env p pos (put_mark m None ms)
    match get_mark ms m with
    | Some o => data_eff m p o (pos - o + l) u
    | None => u
    end)).
Proof.
  intros E. unfold callback_data, data_eff. cbn [e_parser e_marks e_p e_user].
  apply is_OK_spec in E as K. rewrite K. cbn [c_assert].
  destruct (get_mark ms m) as [o|] eqn:G.
  - destruct (on_data s m) as [cb|] eqn:C; [| done].
    pose proof (pa_data _ Ps m cb C p d o (pos - o + l)%nat u) as R.
    destruct (cb p d o _ u) as [[rc p'] u']. cbn in R. injection R as -> ->. cbn. by rewrite K.
  - f_equal. f_equal. f_equal. by destruct m, ms; cbn in *; subst.
Qed.

Lemma callback_notify_passive n r p pos ms u :
  hp_errno p = HPE_OK ->
  callback_notify s n r (mk_env p pos ms u) =
  Ok (Continue (mk_env p pos ms (notify_eff n p u))).
Proof.
  intros E. unfold callback_notify, notify_eff. cbn [e_parser e_marks e_p e_user].
  apply is_OK_spec in E as K. rewrite K. cbn [c_assert].
  destruct (on_notify s n) as [cb|] eqn:C; [| done].
  pose proof (pa_notify _ Ps n cb C p u) as R.
  destruct (cb p u) as [[rc p'] u']. cbn in R. injection R as -> ->. cbn. by rewrite K.
Qed.

Lemma headers_complete_passive p pos ms u :
  hp_errno p = HPE_OK ->
  headers_complete s (mk_env p pos ms u) = Continue (mk_env p pos ms (complete_eff p u)).
Proof.
  intros E. unfold headers_complete, complete_eff. cbn [e_parser e_marks e_p e_user].
  apply is_OK_spec in E as K.
  destruct (on_headers_complete s) as [cb|] eqn:C; [| by rewrite K].
  pose proof (pa_complete _ Ps cb C p u) as R.
  destruct (cb p u) as [[rc p'] u']. cbn in R. injection R as -> ->. cbn. by rewrite K.
Qed.

(** An action that does not stop the call, as a function. *)
Definition act (a : action) (e : env U) : env U :=
  match a with
  | MARK m => set_mark m e
  | ADVANCE n => mk_env (e_parser e) (e_p e + n) (e_marks e) (e_user e)
  | CALLBACK_DATA_ m l r =>
    mk_env (e_parser e) (e_p e) (put_mark m None (e_marks e))
      match get_mark (e_marks e) m with
      | Some o => data_eff m (e_parser e) o (e_p e - o + l) (e_user e)
      | None => e_user e
      end
  | CALLBACK_NOTIFY n =>
    mk_env (e_parser e) (e_p e) (e_marks e) (notify_eff n (e_parser e) (e_user e))
  | HEADERS_COMPLETE =>
    mk_env (e_parser e) (e_p e) (e_marks e) (complete_eff (e_parser e) (e_user e))
  end.

Lemma act_parser a e : e_parser (act a e) = e_parser e.
Proof. destruct a; cbn; try done. unfold set_mark. by case_goal. Qed.

Lemma acts_parser acts e : e_parser (foldl (fun e a => act a e) e acts) = e_parser e.
Proof.
  revert e. induction acts as [|a acts IH]; intros e; [done |]. cbn. by rewrite IH, act_parser.
Qed.

Lemma run_actions_passive acts e :
  hp_errno (e_parser e) = HPE_OK ->
  run_actions s d acts e = Ok (Continue (foldl (fun e a => act a e) e acts)).
Proof.
  revert e. induction acts as [|a acts IH]; intros e E; [done |]. cbn [run_actions foldl].
  assert (R : run_action s d a e = Ok (Continue (act a e))).
  { destruct e as [p pos ms u], a; try done.
    - by apply callback_data_passive.
    - by apply callback_notify_passive.
    - cbn. by rewrite headers_complete_passive. }
  rewrite R. cbn [mbind result_bind]. apply IH. by rewrite act_parser.
Qed.
End Passive.

(** ** Bytes that report nothing but headers *)

Definition unmarked (ms : marks) : Prop := get_mark ms M_url = None /\ get_mark ms M_body = None.

Lemma unmarked_put m v ms : unmarked ms -> is_loud m [0] = false -> unmarked (put_mark m v ms).
Proof. by intros [? ?]; destruct m. Qed.

(** settings that only look at URLs, bodies and the end of a message *)
Record headerless {U} (s : http_parser_settings U) : Prop := {
  hl_passive : passive s;
  hl_begin : on_message_begin s = None;
  hl_field : on_header_field s = None;
  hl_value : on_header_value s = None;
  hl_complete : on_headers_complete s = None;
}.

Section Quiet.
Context {U : Type} (s : http_parser_settings U) (Hs : headerless s) (d : bytes).
Implicit Type (u : U) (p q : http_parser).

Local Abbreviation len := (length d).

Lemma data_eff_header m p o l u : is_loud m [0] = false -> data_eff s d m p o l u = u.
Proof. destruct Hs. unfold data_eff. destruct m; cbn; intros; congruence || by case_goal; simplify_eq. Qed.

(** One case of a quiet byte: the user state and the marks of the URL and of
    the body stay as they are. *)
Lemma quiet_actions rem s0 acts c p pos ms u b :
  shape rem s0 acts c (hp_state p) -> c = Break \/ c = Reexecute ->
  marks_ok len s0 pos ms -> unmarked ms ->
  report_end [b] acts c (hp_state p) false = false ->
  exists ms', foldl (fun e a => act s d a e) (mk_env p pos ms u) acts = mk_env p pos ms' u /\
    unmarked ms'.
Proof.
  intros Sh Hc M Un. remember (hp_state p) as s1 eqn:St.
  destruct Sh as [c s' B A A' C Hm|m s' B A A' Hm Hm' Nb|m r c s' B A A' Hm Hm' Hr
    |m s' B A A' Hm Hm' Nb|n c s' B A A' Hm Hm' B' Hn|Hs'|Hs'|k s' B K1 K2 K3|k Hs' K1 K2
    |]; cbn [foldl act].
  - by exists ms.
  - unfold report_end. cbn [report]. rewrite Hm'. intros L. unfold set_mark. cbn.
    assert (is_loud m [0] = false) by (by destruct m).
    case_goal; eexists; split; try reflexivity; auto using unmarked_put.
  - intros _. cbn. assert (is_loud m [0] = false).
    { destruct (mo_set _ _ _ _ M m Hm) as [o Ho]. destruct Un. destruct m; cbn in *; congruence. }
    eexists. split; [| by apply unmarked_put].
    case_goal; [by rewrite data_eff_header |done].
  - subst m. intros _. unfold set_mark. cbn. eexists. split.
    + destruct (header_value_mark ms) eqn:G; cbn; rewrite ?G; by rewrite data_eff_header.
    + destruct (header_value_mark ms) eqn:G; cbn; auto using unmarked_put; by destruct Un.
  - unfold report_end. cbn. intros L. destruct n.
    + exists ms. split; [| done]. unfold notify_eff. cbn. by rewrite (hl_begin _ Hs).
    + exfalso. by destruct Hn as [-> | ->]; rewrite Hm' in L.
  - intros _. exists ms. split; [| done]. unfold complete_eff. by rewrite (hl_complete _ Hs).
  - intros _. eexists. destruct Un as [U1 U2]. cbn in U2 |- *. rewrite U2. split; [done |].
    by split.
  - intros L. exfalso. unfold report_end in L. cbn in L.
    assert (Hm' : mark_of s' = None) by (destruct K3 as [[K3 _]| ->]; [by apply bulk_unmarked | done]).
    by rewrite Hm' in L.
  - intros L. by unfold report_end in L.
  - destruct Hc; congruence.
Qed.

Lemma quiet_bulk b acts c q p :
  0 <= b < 256 -> fields_ok p -> state_ok 1 p -> hp_errno p = HPE_OK -> c = Break \/ c = Reexecute ->
  switch b 1 p = Ok (q, acts, c) -> report_end [b] acts c (hp_state q) false = false ->
  bulk (hp_state p) = false.
Proof.
  intros Hb F S E Hc Sw.
  destruct (switch_ok b 1 Hb ltac:(lia) p F S E) as (q' & acts' & c' & Sw' & Sh & _).
  rewrite Sw in Sw'. injection Sw' as <- <- <-.
  clear Sw. remember (hp_state q) as s1 eqn:St. clear St.
  destruct Sh as [| | | | |Hs'|Hs'|k s' B K1 K2 K3|k Hs' K1 K2|]; try done; try (by rewrite Hs').
  - intros L. exfalso. unfold report_end in L. cbn in L.
    assert (Hm' : mark_of s' = None) by (destruct K3 as [[K3 _]| ->]; [by apply bulk_unmarked | done]).
    by rewrite Hm' in L.
  - destruct Hc; congruence.
Qed.

Lemma quiet_cases fuel b p pos ms u q :
  0 <= b < 256 -> (pos < len)%nat -> fields_ok p -> state_ok 1 p -> hp_errno p = HPE_OK ->
  marks_ok len (hp_state p) pos ms -> unmarked ms -> cases fuel b p false = Some (q, false) ->
  exists ms', reexecute_byte s d fuel b (mk_env p pos ms u) =
    Ok (Continue (mk_env q pos ms' u)) /\ unmarked ms'.
Proof.
  intros Hb L. pose proof (hl_passive _ Hs) as Ps. revert p ms.
  induction fuel as [|fuel IH]; [done |]. intros p ms F S E M Un C.
  cbn [cases] in C. cbn [reexecute_byte e_parser e_p e_marks e_user].
  destruct (switch b 1 p) as [[[q' acts] c]|] eqn:Sw; [| done].
  assert (Hc : c = Break \/ c = Reexecute) by (destruct c; auto; discriminate C).
  assert (Q : report_end [b] acts c (hp_state q') false = false).
  { destruct (report_end _ _ _ _ _) eqn:R; [exfalso | done].
    destruct Hc as [-> | ->]; [congruence | by apply cases_loud in C]. }
  pose proof (quiet_bulk b acts c q' p Hb F S E Hc Sw Q) as Bf.
  rewrite (switch_rem b _ 1) by done.
  destruct (switch_ok b 1 Hb ltac:(lia) p F S E) as (q2 & a2 & c2 & Sw' & Sh & A).
  rewrite Sw in Sw' |- *. injection Sw' as <- <- <-.
  assert (Sh' : shape (Z.of_nat len - Z.of_nat pos) (hp_state p) acts c (hp_state q')).
  { destruct (switch_ok b (Z.of_nat len - Z.of_nat pos) Hb ltac:(lia) p F S E)
      as (q2 & a2 & c2 & Sw2 & Sh2 & _).
    rewrite (switch_rem b _ 1), Sw in Sw2 by done. by injection Sw2 as <- <- <-. }
  assert (Hq : fields_ok q' /\ hp_errno q' = HPE_OK)
    by (unfold after_ok in A; destruct c; naive_solver congruence).
  destruct Hq as [F' E']. cbn [mbind result_bind].
  destruct (quiet_actions _ _ _ _ q' pos ms u b Sh Hc M Un Q) as (ms' & Fd & Un').
  pose proof (run_shape s (passive_ok _ Ps) d _ _ _ c q' pos ms u _ Sh'
    ltac:(by destruct Hc as [-> | ->]) eq_refl L E' eq_refl M) as Cl.
  rewrite run_actions_passive, Fd in Cl |- * by done. cbn [mbind result_bind].
  destruct Cl as (_ & _ & _ & M'). cbn [e_p e_marks] in M'.
  destruct Hc as [-> | ->].
  - injection C as -> _. by exists ms'.
  - destruct A as (_ & Sn & _). rewrite Q in C. by apply (IH q' ms').
Qed.

Lemma quiet_byte b p pos ms u q :
  0 <= b < 256 -> (pos < len)%nat -> fields_ok p -> state_ok 0 p -> hp_errno p = HPE_OK ->
  marks_ok len (hp_state p) pos ms -> unmarked ms -> step b p false = Some (q, false) ->
  exists ms', one_byte s d b (mk_env p pos ms u) = Ok (Continue (mk_env q pos ms' u)) /\
    unmarked ms'.
Proof.
  intros Hb L F S E M Un St. unfold step in St. unfold one_byte. cbn [e_parser e_p e_marks e_user].
  destruct (PARSING_HEADER _) eqn:P.
  - cbv zeta in *. destruct (_ >? _) eqn:G; [done |]. rewrite Z.gtb_ltb in *. breflect.
    apply quiet_cases; auto using bump_fields, bump_state.
  - apply quiet_cases; auto. unfold state_ok in *. by destruct (hp_state p).
Qed.

(** One iteration of the loop. *)
Lemma loop_next b e e' fuel :
  bytes_ok d -> head_ok d e -> d !! e_p e = Some b -> one_byte s d b e = Ok (Continue e') ->
  (len - e_p e <= fuel)%nat ->
  head_ok d (next_byte e') /\ (e_p e <= e_p e' < len)%nat /\
  exists fuel', exec_loop s d fuel e = exec_loop s d fuel' (next_byte e') /\
    (len - (e_p e' + 1) <= fuel')%nat.
Proof.
  intros B Hh Hb R Lf. pose proof (lookup_lt_Some _ _ _ Hb) as L.
  pose proof (Forall_lookup_1 _ _ _ _ B Hb) as Bb.
  pose proof (one_byte_ok s (passive_ok _ (hl_passive _ Hs)) d b _ Hh Bb L) as K.
  rewrite R in K. destruct K as [Lp K]. split; [done |]. split; [done |].
  destruct fuel as [|fuel]; [lia |]. exists fuel. cbn [exec_loop].
  rewrite (proj2 (Nat.eqb_neq _ _)), Hb, R by lia. split; [done | lia].
Qed.

Lemma lookup_of_drop pos b r : drop pos d = b :: r -> d !! pos = Some b /\ drop (pos + 1) d = r.
Proof.
  intros D. split; [by rewrite <- (Nat.add_0_r pos), <- lookup_drop, D |].
  by rewrite <- drop_drop, D.
Qed.

(** the loop from one place of the data to another *)
Definition reaches (e e' : env U) : Prop :=
  head_ok d e' /\
  forall fuel, (len - e_p e <= fuel)%nat -> exists fuel',
    exec_loop s d fuel e = exec_loop s d fuel' e' /\ (len - e_p e' <= fuel')%nat.

Lemma reaches_refl e : head_ok d e -> reaches e e.
Proof. intros Hh. split; [done |]. by eauto. Qed.

Lemma reaches_trans e1 e2 e3 : reaches e1 e2 -> reaches e2 e3 -> reaches e1 e3.
Proof.
  intros [_ R1] [H3 R2]. split; [done |]. intros fuel Lf.
  destruct (R1 fuel Lf) as (f1 & -> & L1). by apply R2.
Qed.

Lemma reaches_byte b e e' :
  bytes_ok d -> head_ok d e -> d !! e_p e = Some b -> one_byte s d b e = Ok (Continue e') ->
  reaches e (next_byte e').
Proof.
  intros B Hh Hb R. split.
  - by destruct (loop_next b e e' (len - e_p e) B Hh Hb R ltac:(lia)).
  - intros fuel Lf. by destruct (loop_next b e e' fuel B Hh Hb R Lf) as (_ & _ & ?).
Qed.

(** A quiet stretch of the data: the loop goes over it with the user state
    unchanged. *)
Lemma quiet_run h r p pos ms u q :
  bytes_ok d -> drop pos d = h ++ r -> head_ok d (mk_env p pos ms u) -> unmarked ms ->
  run h p false = Some (q, false) ->
  exists ms', reaches (mk_env p pos ms u) (mk_env q (pos + length h) ms' u) /\ unmarked ms'.
Proof.
  intros B. revert p pos ms. induction h as [|b h IH]; intros p pos ms D Hh Un R.
  { injection R as <-. exists ms. rewrite Nat.add_0_r. auto using reaches_refl. }
  cbn [run] in R. destruct (step b p false) as [[p1 v]|] eqn:St; [| done].
  destruct v; [by apply run_loud in R |].
  destruct (lookup_of_drop pos b (h ++ r) D) as [Hb D'].
  pose proof (lookup_lt_Some _ _ _ Hb) as L. pose proof (Forall_lookup_1 _ _ _ _ B Hb) as Bb.
  pose proof Hh as (F & S0 & E & M). cbn in F, S0, E, M.
  destruct (quiet_byte b p pos ms u p1 Bb L F S0 E M Un St) as (ms1 & R1 & Un1).
  pose proof (reaches_byte b _ _ B Hh Hb R1) as Rb. unfold next_byte in Rb. cbn in Rb.
  destruct (IH p1 (pos + 1)%nat ms1 D' (proj1 Rb) Un1 R) as (ms' & R2 & Un2).
  exists ms'. split; [| done]. cbn [length].
  replace (pos + S (length h))%nat with (pos + 1 + length h)%nat by lia.
  by eapply reaches_trans.
Qed.

(** ** The marks left over *)

Definition left_eff p (ms : marks) (pos : nat) (m : mark) u : U :=
  match get_mark ms m with Some o => data_eff s d m p o (pos - o) u | None => u end.

Lemma leftover_passive p pos ms u :
  head_ok d (mk_env p pos ms u) -> (pos <= len)%nat ->
  leftover s d (mk_env p pos ms u) =
  Ok (Continue (mk_env p pos no_marks (left_eff p ms pos M_body (left_eff p ms pos M_url u)))).
Proof.
  intros Hh L. pose proof (hl_passive _ Hs) as Ps.
  pose proof (leftover_ok s (passive_ok _ Ps) d _ Hh L) as K.
  unfold leftover in *. destruct (_ <=? 1)%nat; [| done]. cbn [c_assert]. clear K.
  destruct Hh as (_ & _ & E & _). cbn in E.
  rewrite run_actions_passive by done. unfold left_eff.
  cbn -[data_eff Nat.sub Nat.add]. rewrite ?Nat.add_0_r.
  destruct (header_field_mark ms), (header_value_mark ms), (url_mark ms), (body_mark ms);
    by rewrite ?Nat.add_0_r, ?(data_eff_header M_header_field), ?(data_eff_header M_header_value).
Qed.

Lemma loop_end_passive p ms u fuel :
  head_ok d (mk_env p len ms u) ->
  exec_loop s d fuel (mk_env p len ms u) =
  Ok (len, p, left_eff p ms len M_body (left_eff p ms len M_url u)).
Proof.
  intros Hh. destruct fuel; cbn [exec_loop e_p]; rewrite Nat.eqb_refl, leftover_passive by done; done.
Qed.

Lemma loop_end_quiet p ms u fuel :
  head_ok d (mk_env p len ms u) -> unmarked ms ->
  exec_loop s d fuel (mk_env p len ms u) = Ok (len, p, u).
Proof.
  intros Hh [U1 U2]. rewrite loop_end_passive by done. unfold left_eff. by rewrite U1, U2.
Qed.

(** ** The URL *)

Lemma url_byte c p s0 h i n pos ms u :
  mark_of s0 = Some M_url -> parse_url_char s0 c <> s_dead -> 0 <= n < HTTP_MAX_HEADER_SIZE ->
  one_byte s d c (mk_env (at_state p s0 h i n) pos ms u) =
  Ok (Continue (mk_env (at_state p (parse_url_char s0 c) h i (n + 1)) pos ms u)).
Proof.
  intros Hm Hd Hn. destruct (parse_url_blank s0 c Hd) as (E1 & E2 & E3).
  unfold one_byte. cbn [e_parser e_p e_marks e_user hp_state at_state].
  assert (P : PARSING_HEADER s0 = true) by (by destruct s0). rewrite P.
  rewrite bump_at_state by done. cbv zeta. cbn [hp_nread at_state].
  rewrite below_limit by done.
  cbn [reexecute_byte e_parser e_p e_marks e_user].
  destruct s0; try discriminate Hm; unfold switch, at_state; cbn [hp_state];
    unfold case_url_no_end, case_url_may_end, url_char; rewrite E1, E2, E3; cbn [orb];
    parser_cbn; rewrite decide_False by done; reflexivity.
Qed.

Lemma url_first_byte c p h i n pos ms u :
  parse_url_char s_req_spaces_before_url c <> s_dead -> hp_method p <> HTTP_CONNECT ->
  0 <= n < HTTP_MAX_HEADER_SIZE -> get_mark ms M_url = None ->
  one_byte s d c (mk_env (at_state p s_req_spaces_before_url h i n) pos ms u) =
  Ok (Continue (mk_env (at_state p (parse_url_char s_req_spaces_before_url c) h i (n + 1)) pos
                  (put_mark M_url (Some pos) ms) u)).
Proof.
  intros Hd Hm Hn Hu. destruct (parse_url_blank _ c Hd) as (E1 & E2 & E3).
  unfold one_byte. cbn [e_parser e_p e_marks e_user hp_state at_state PARSING_HEADER].
  rewrite bump_at_state by done. cbv zeta. cbn [hp_nread at_state].
  rewrite below_limit by done.
  cbn [reexecute_byte e_parser e_p e_marks e_user].
  unfold switch, at_state; cbn [hp_state]. unfold case_s_req_spaces_before_url, url_char.
  rewrite E1. parser_cbn. rewrite (decide_False (P := hp_method p = HTTP_CONNECT)) by done.
  parser_cbn. rewrite decide_False by done. cbn. unfold set_mark. cbn in Hu |- *. by rewrite Hu.
Qed.

Lemma url_run url r p s0 h i n pos ms u :
  bytes_ok d -> drop pos d = url ++ r -> mark_of s0 = Some M_url ->
  foldl parse_url_char s0 url <> s_dead -> 0 <= n ->
  n + Z.of_nat (length url) <= HTTP_MAX_HEADER_SIZE ->
  head_ok d (mk_env (at_state p s0 h i n) pos ms u) ->
  reaches (mk_env (at_state p s0 h i n) pos ms u)
    (mk_env (at_state p (foldl parse_url_char s0 url) h i (n + Z.of_nat (length url)))
       (pos + length url) ms u).
Proof.
  intros B. revert s0 n pos. induction url as [|c url IH]; intros s0 n pos D Hm Hd Hn HL Hh.
  { cbn. rewrite Z.add_0_r, Nat.add_0_r. by apply reaches_refl. }
  cbn [foldl length app] in *.
  assert (Hc : parse_url_char s0 c <> s_dead) by (intros E; by rewrite E, parse_url_dead in Hd).
  destruct (lookup_of_drop pos c (url ++ r) D) as [Hb D'].
  pose proof (reaches_byte c _ _ B Hh Hb (url_byte c p s0 h i n pos ms u Hm Hc ltac:(lia))) as Rb.
  unfold next_byte in Rb. cbn [e_parser e_p e_marks e_user] in Rb. eapply reaches_trans; [done |].
  replace (n + Z.of_nat (S (length url))) with (n + 1 + Z.of_nat (length url)) by lia.
  replace (pos + S (length url))%nat with (pos + 1 + length url)%nat by lia.
  apply IH; auto; [by destruct (parse_url_char_cases s0 c) | lia | lia | apply Rb].
Qed.

(** the blank after the URL *)
Lemma url_end p s0 h i n pos ms u o :
  url_ends s0 = true -> 0 <= n < HTTP_MAX_HEADER_SIZE -> get_mark ms M_url = Some o ->
  hp_errno p = HPE_OK ->
  one_byte s d (chr " ") (mk_env (at_state p s0 h i n) pos ms u) =
  Ok (Continue (mk_env (at_state p s_req_http_start h i (n + 1)) pos (put_mark M_url None ms)
        (data_eff s d M_url (at_state p s_req_http_start h i (n + 1)) o (pos - o) u))).
Proof.
  intros Hm Hn Hu E.
  unfold one_byte. cbn [e_parser e_p e_marks e_user hp_state at_state].
  assert (P : PARSING_HEADER s0 = true) by (by destruct s0). rewrite P.
  rewrite bump_at_state by done. cbv zeta. cbn [hp_nread at_state].
  rewrite below_limit by done.
  assert (Sw : switch (chr " ") (Z.of_nat len - Z.of_nat pos) (at_state p s0 h i (n + 1)) =
    Ok (at_state p s_req_http_start h i (n + 1), [CALLBACK_DATA M_url], Break))
    by (destruct s0; try discriminate Hm; reflexivity).
  cbn [reexecute_byte e_parser e_p e_marks e_user]. rewrite Sw. cbn [mbind result_bind].
  pose proof (hl_passive _ Hs) as Ps.
  rewrite run_actions_passive by done. cbn -[data_eff Nat.sub Nat.add]. cbn in Hu. rewrite Hu, Nat.add_0_r. done.
Qed.

(** ** A body of known length *)

Lemma switch_body b c rem p h i n :
  0 < c < ULLONG_MAX -> 0 < rem <= c ->
  switch b rem (at_state (with_length p c) s_body_identity h i n) =
  Ok (if c =? rem
      then (at_state (with_length p 0) s_message_done h i n,
            [MARK M_body; ADVANCE (Z.to_nat (rem - 1)); CALLBACK_DATA_ M_body 1 0], Reexecute)
      else (at_state (with_length p (c - rem)) s_body_identity h i n,
            [MARK M_body; ADVANCE (Z.to_nat (rem - 1))], Break)).
Proof.
  intros Hc Hr. unfold switch. cbn [hp_state at_state]. unfold case_s_body_identity.
  change (hp_content_length (at_state (with_length p c) s_body_identity h i n)) with c.
  unfold ULLONG_MAX in *. rewrite (proj2 (Z.eqb_neq c 0)), (proj2 (Z.eqb_neq c _)), Z.min_r by lia.
  cbn [negb andb c_assert]. unfold set_content_length, at_state, with_length. parser_cbn.
  assert (W : u64 (c - rem) = c - rem) by (apply Z.mod_small; lia). rewrite W.
  destruct (c =? rem) eqn:Q; breflect.
  - subst c. by rewrite Z.sub_diag.
  - by rewrite (proj2 (Z.eqb_neq (c - rem) 0)) by lia.
Qed.

Lemma body_marks p c h i n pos ms u :
  head_ok d (mk_env (at_state (with_length p c) s_body_identity h i n) pos ms u) ->
  (pos < len)%nat -> ms = no_marks.
Proof.
  intros (_ & _ & _ & M) L. cbn in M.
  pose proof (marks_clear d _ pos ms M L eq_refl eq_refl) as N.
  destruct ms as [a b1 c1 d1]. pose proof (N M_header_field). pose proof (N M_header_value).
  pose proof (N M_url). pose proof (N M_body). cbn in *. by subst.
Qed.

(** data that ends before the body does *)
Lemma body_rest p c h i n pos ms u fuel :
  bytes_ok d -> (pos < len)%nat -> Z.of_nat (len - pos) < c < ULLONG_MAX ->
  head_ok d (mk_env (at_state (with_length p c) s_body_identity h i n) pos ms u) ->
  (len - pos <= fuel)%nat ->
  let q := at_state (with_length p (c - Z.of_nat (len - pos))) s_body_identity h i n in
  exec_loop s d fuel (mk_env (at_state (with_length p c) s_body_identity h i n) pos ms u) =
  Ok (len, q, data_eff s d M_body q pos (len - pos) u).
Proof.
  intros B L Hc Hh Lf q. pose proof (body_marks _ _ _ _ _ _ _ _ Hh L) as ->.
  destruct (lookup_lt_is_Some_2 d pos L) as [b Hb]. pose proof (hl_passive _ Hs) as Ps.
  assert (R : one_byte s d b (mk_env (at_state (with_length p c) s_body_identity h i n) pos no_marks u)
    = Ok (Continue (mk_env q (len - 1) (put_mark M_body (Some pos) no_marks) u))).
  { unfold one_byte. cbn [e_parser e_p e_marks e_user hp_state at_state PARSING_HEADER].
    cbn [reexecute_byte e_parser e_p e_marks e_user]. rewrite switch_body by lia.
    rewrite (proj2 (Z.eqb_neq c _)) by lia. cbn [mbind result_bind].
    replace (Z.of_nat len - Z.of_nat pos) with (Z.of_nat (len - pos)) by lia. fold q.
    rewrite run_actions_passive by (first [done | apply Hh]). cbn. repeat f_equal. lia. }
  destruct (loop_next b _ _ fuel B Hh Hb R Lf) as (Hn & _ & f' & -> & _).
  unfold next_byte in *. cbn [e_parser e_p e_marks e_user] in *.
  replace (len - 1 + 1)%nat with len in * by lia. rewrite loop_end_passive by done. reflexivity.
Qed.

(** data that ends with the body *)
Lemma body_last p c h i n pos ms u fuel :
  bytes_ok d -> (pos < len)%nat -> Z.of_nat (len - pos) = c -> c < ULLONG_MAX -> plain_request p ->
  head_ok d (mk_env (at_state (with_length p c) s_body_identity h i n) pos ms u) ->
  (len - pos <= fuel)%nat ->
  let p1 := at_state (with_length p 0) s_message_done h i n in
  let q := at_state (with_length p 0) s_start_req h i n in
  exec_loop s d fuel (mk_env (at_state (with_length p c) s_body_identity h i n) pos ms u) =
  Ok (len, q, notify_eff s N_message_complete q (data_eff s d M_body p1 pos (len - pos) u)).
Proof.
  intros B L Hc Hl Pr Hh Lf p1 q. pose proof (body_marks _ _ _ _ _ _ _ _ Hh L) as ->.
  destruct (lookup_lt_is_Some_2 d pos L) as [b Hb]. pose proof (hl_passive _ Hs) as Ps.
  assert (E : hp_errno p = HPE_OK) by apply Hh.
  assert (R : one_byte s d b (mk_env (at_state (with_length p c) s_body_identity h i n) pos no_marks u)
    = Ok (Continue (mk_env q (len - 1) no_marks
        (notify_eff s N_message_complete q (data_eff s d M_body p1 pos (len - pos) u))))).
  { assert (Sw : forall rem, switch b rem p1 = Ok (q, [CALLBACK_NOTIFY N_message_complete], Break)).
    { intros rem. unfold p1, switch. cbn [hp_state at_state]. unfold case_s_message_done, new_message.
      pose proof (plain_keeps_alive p s_message_done h i n 0 (hp_upgrade p) Pr) as K.
      unfold q, at_state, with_length, set_upgrade, set_state in *. parser_cbn. by rewrite K. }
    assert (E1 : hp_errno p1 = HPE_OK) by done. assert (Eq : hp_errno q = HPE_OK) by done.
    unfold one_byte. cbn [e_parser e_p e_marks e_user hp_state at_state PARSING_HEADER].
    cbn [reexecute_byte e_parser e_p e_marks e_user]. rewrite switch_body by lia.
    rewrite (proj2 (Z.eqb_eq c _)) by lia. cbn [mbind result_bind]. fold p1. clearbody p1 q.
    rewrite run_actions_passive by done.
    cbn -[data_eff notify_eff Nat.sub Nat.add run_actions switch]. rewrite Sw.
    cbn [mbind result_bind]. rewrite run_actions_passive by done.
    cbn -[data_eff notify_eff Nat.sub Nat.add]. unfold no_marks. repeat f_equal; lia. }
  destruct (loop_next b _ _ fuel B Hh Hb R Lf) as (Hn & _ & f' & -> & _).
  unfold next_byte in *. cbn [e_parser e_p e_marks e_user] in *.
  replace (len - 1 + 1)%nat with len in * by lia. by rewrite loop_end_quiet.
Qed.
End Quiet.

(** ** The places the callbacks are given *)

Section Tracked.
Context {U : Type} (s : http_parser_settings U) (Ps : passive s) (d : bytes).
Implicit Type (u : U) (p q : http_parser).

Local Abbreviation len := (length d).

(** [J lo u]: what was reported to [u] lies before the offset [lo]. *)
Context (J : nat -> U -> Prop).
Context (J_mono : forall lo lo' u, (lo <= lo')%nat -> J lo u -> J lo' u).
Context (J_data : forall m p lo o l u, (lo <= o)%nat -> (o + l <= len)%nat -> J lo u ->
  J (o + l) (data_eff s d m p o l u)).
Context (J_notify : forall n p lo u, J lo u -> J lo (notify_eff s n p u)).
Context (J_complete : forall p lo u, J lo u -> J lo (complete_eff s p u)).

(** the marks are behind what was reported *)
Definition tracked (st : state) (e : env U) : Prop :=
  exists lo, J lo (e_user e) /\ (forall m o, get_mark (e_marks e) m = Some o -> (lo <= o)%nat) /\
    ((lo <= e_p e)%nat \/ st = s_message_done /\ (lo <= e_p e + 1)%nat).

(** the same at the head of the loop *)
Definition tracked_head (e : env U) : Prop :=
  exists lo, J lo (e_user e) /\ (forall m o, get_mark (e_marks e) m = Some o -> (lo <= o)%nat) /\
    (lo <= e_p e)%nat.

Definition tracked_flow (r : result (flow U)) : Prop :=
  match r with
  | Ok (Continue e) => tracked_head (next_byte e)
  | Ok (Stop _ _ u) => J len u
  | Fault _ => False
  end.

(** At most one mark is set. *)
Definition one_mark (pos : nat) (ms : marks) : Prop :=
  forall m m' o o', get_mark ms m = Some o -> get_mark ms m' = Some o' -> m = m' /\ (o <= pos)%nat.

Lemma marks_ok_one st pos ms : marks_ok len st pos ms -> one_mark pos ms.
Proof.
  intros M m m' o o' G G'. split; [by eapply marks_one | by apply (mo_only _ _ _ _ M) in G as [? _]].
Qed.

(** After the data of a mark is reported no mark is set. *)
Lemma tracked_clear m l p pos ms u lo o :
  one_mark pos ms -> get_mark ms m = Some o -> (lo <= o)%nat -> (pos + l <= len)%nat ->
  J lo u ->
  J (pos + l) (data_eff s d m p o (pos - o + l) u) /\
  forall m' o', get_mark (put_mark m None ms) m' = Some o' -> False.
Proof.
  intros M G Lo L Ju. split.
  - destruct (M m m o o G G) as [_ Ho].
    pose proof (J_data m p lo o (pos - o + l) u Lo ltac:(lia) Ju) as R.
    by replace (pos + l)%nat with (o + (pos - o + l))%nat by lia.
  - intros m' o'. rewrite get_put_mark. case_decide; [done |]. intros G'.
    destruct (M m m' o o' G G'). congruence.
Qed.

Lemma tracked_actions s0 acts c p pos ms u lo :
  shape (Z.of_nat len - Z.of_nat pos) s0 acts c (hp_state p) -> (pos < len)%nat ->
  marks_ok len s0 pos ms -> J lo u -> (forall m o, get_mark ms m = Some o -> (lo <= o)%nat) ->
  (lo <= pos)%nat ->
  tracked (hp_state p) (foldl (fun e a => act s d a e) (mk_env p pos ms u) acts).
Proof.
  intros Sh L M Ju Lo Lp. unfold tracked.
  assert (Mk : forall m e, get_mark (e_marks (set_mark m (mk_env p pos ms u))) = e ->
    e_user (set_mark m (mk_env p pos ms u)) = u /\ e_p (set_mark m (mk_env p pos ms u)) = pos /\
    forall m' o, e m' = Some o -> (lo <= o)%nat).
  { intros m e <-. unfold set_mark. cbn. destruct (get_mark ms m) eqn:G; cbn; [by auto |].
    split_and!; [done.. |]. intros m' o. rewrite get_put_mark. case_decide; [| apply Lo].
    by intros [= <-]. }
  remember (hp_state p) as s1 eqn:St.
  destruct Sh as [c s' B A A' C Hm|m s' B A A' Hm Hm' Nb|m r c s' B A A' Hm Hm' Hr
    |m s' B A A' Hm Hm' Nb|n c s' B A A' Hm Hm' B' Hn|Hs'|Hs'|k s' B K1 K2 K3|k Hs' K1 K2
    |acts s' Ha]; cbn [foldl act e_user e_marks e_p e_parser].
  - exists lo. auto.
  - destruct (Mk m _ eq_refl) as (-> & -> & ?). exists lo. auto.
  - destruct (mo_set _ _ _ _ M m Hm) as [o Ho]. rewrite Ho.
    destruct (tracked_clear m 0 p pos ms u lo o (marks_ok_one _ _ _ M) Ho (Lo _ _ Ho) ltac:(lia) Ju) as [J1 N].
    exists (pos + 0)%nat. split; [done |]. split; [intros m' o' G; by apply N in G | left; lia].
  - destruct (set_mark_fresh m p pos ms u) as (ms' & Em & O); [by eapply marks_clear |].
    rewrite Em. cbn [e_user e_marks e_p e_parser]. rewrite O, decide_True by done.
    exists (pos + (pos - pos + 0))%nat. split; [apply (J_data _ _ lo); auto; lia |].
    split; [| left; lia]. intros m' o'. rewrite get_put_mark, O. by repeat case_decide.
  - exists lo. auto.
  - exists lo. auto.
  - destruct (get_mark ms M_body) as [o|] eqn:Ho.
    + destruct (tracked_clear M_body 0 p pos ms u lo o (marks_ok_one _ _ _ M) Ho (Lo _ _ Ho) ltac:(lia) Ju) as [J1 N].
      exists (pos + 0)%nat. split; [done |]. split; [intros m' o' G; by apply N in G | left; lia].
    + exists lo. split; [done |]. split; [| by left]. intros m' o'. rewrite get_put_mark.
      case_decide; [done | apply Lo].
  - destruct (Mk M_body _ eq_refl) as (-> & -> & ?). exists lo. split_and!; auto. left. lia.
  - destruct (set_mark_fresh M_body p pos ms u) as (ms' & Em & O); [subst s0; by eapply marks_clear |].
    rewrite Em. cbn [e_user e_marks e_p e_parser]. rewrite O, decide_True by done.
    exists (pos + (pos + (k - 1) - pos + 1))%nat. split; [apply (J_data _ _ lo); auto; lia |].
    split; [| right; split; [done | lia]]. intros m' o'. rewrite get_put_mark, O. by repeat case_decide.
  - destruct Ha as [-> | [m ->]]; cbn [foldl act e_user e_marks e_p].
    + exists lo. auto.
    + destruct (Mk m _ eq_refl) as (-> & -> & ?). exists lo. auto.
Qed.

Lemma tracked_next st e : tracked st e -> tracked_head (next_byte e).
Proof. intros (lo & Ju & Lo & L). exists lo. split; [done |]. split; [done |]. cbn. lia. Qed.

Lemma tracked_len st e : tracked st e -> (e_p e < len)%nat -> J len (e_user e).
Proof. intros (lo & Ju & _ & L) Hp. apply (J_mono lo); [lia | done]. Qed.

Lemma reexecute_tracked fuel ch e :
  (rank (hp_state (e_parser e)) <= fuel)%nat -> 0 <= ch < 256 -> (e_p e < len)%nat ->
  fields_ok (e_parser e) -> state_ok 1 (e_parser e) -> hp_errno (e_parser e) = HPE_OK ->
  marks_ok len (hp_state (e_parser e)) (e_p e) (e_marks e) ->
  tracked (hp_state (e_parser e)) e ->
  tracked_flow (reexecute_byte s d fuel ch e).
Proof.
  revert e. induction fuel as [|fuel IH]; intros [p pos ms u]; cbn [e_parser e_p e_marks].
  { destruct (hp_state p); cbn; lia. }
  intros R Hch L F S E M T. cbn [reexecute_byte e_parser e_p e_marks e_user].
  destruct (switch_ok ch (Z.of_nat len - Z.of_nat pos) Hch ltac:(lia) p F S E)
    as (q & acts & c & Sw & Sh & A).
  destruct (decide (hp_state p = s_message_done)) as [Hd|Hd].
  { assert (Sd : switch ch (Z.of_nat len - Z.of_nat pos) p = Ok (case_s_message_done p))
      by (unfold switch; by rewrite Hd).
    rewrite Sd. unfold case_s_message_done, new_message. cbn [mbind result_bind].
    rewrite run_actions_passive by done. cbn. destruct T as (lo & Ju & Lo & Lp). cbn in Ju, Lo, Lp.
    exists lo. cbn. split; [by apply J_notify |]. split; [done | lia]. }
  rewrite Sw. cbn [mbind result_bind].
  destruct T as (lo & Ju & Lo & [Lp|[Lp _]]); [| done]. cbn in Ju, Lo, Lp.
  pose proof (tracked_actions _ _ _ q pos ms u lo Sh L M Ju Lo Lp) as T.
  destruct (decide (c = GotoError)) as [->|Hc].
  { destruct (run_error s d _ _ _ _ q pos ms u Sh) as [ms' ->]. cbn. apply (J_mono lo); [lia | done]. }
  assert (Hf : fields_ok q /\ state_ok 0 q /\ hp_errno q = HPE_OK)
    by (unfold after_ok in A; destruct c; naive_solver congruence).
  destruct Hf as (F' & S' & E').
  pose proof (run_shape s (passive_ok _ Ps) d _ _ _ c q pos ms u _ Sh Hc eq_refl L E' eq_refl M) as C.
  rewrite run_actions_passive in C |- * by done. cbn [mbind result_bind called] in C |- *.
  assert (Pq : e_parser (foldl (fun e a => act s d a e) (mk_env q pos ms u) acts) = q).
  { apply (acts_parser s d acts (mk_env q pos ms u)). }
  set (e' := foldl _ _ _) in *. destruct C as (_ & _ & Le & Me).
  destruct c; [by eapply tracked_next | | done | apply (tracked_len _ _ T); lia].
  destruct A as (_ & Sn & _ & Hr & _).
  apply IH; rewrite ?Pq; auto; lia.
Qed.

Lemma one_byte_tracked ch e :
  head_ok d e -> 0 <= ch < 256 -> (e_p e < len)%nat -> tracked_head e ->
  tracked_flow (one_byte s d ch e).
Proof.
  intros (F & S & E & M) Hch L T.
  assert (T' : forall st p, tracked st (mk_env p (e_p e) (e_marks e) (e_user e))).
  { destruct T as (lo & Ju & Lo & Lp). intros st p. exists lo. by auto. }
  unfold one_byte. pose proof (rank_bound (hp_state (e_parser e))).
  destruct (PARSING_HEADER _) eqn:H1.
  - cbv zeta. case_goal.
    + destruct T as (lo & Ju & Lo & Lp). cbn. apply (J_mono lo); [lia | done].
    + rewrite Z.gtb_ltb in *. breflect.
      match goal with |- tracked_flow (reexecute_byte _ _ _ _ ?e') =>
        apply (reexecute_tracked 4 ch e'); cbn [e_parser e_p e_marks]; auto end.
      * by apply bump_fields.
      * by apply bump_state.
  - apply reexecute_tracked; auto.
    + unfold state_ok in *. by destruct (hp_state (e_parser e)).
    + destruct e. apply T'.
Qed.

Lemma flush_tracked l e :
  one_mark (e_p e) (e_marks e) -> (e_p e <= len)%nat -> tracked_head e ->
  J len (e_user (foldl (fun e a => act s d a e) e (CALLBACK_DATA_NOADVANCE <$> l))).
Proof.
  revert e. induction l as [|m l IH]; intros [p pos ms u] M L (lo & Ju & Lo & Lp);
    cbn [e_p e_marks e_user] in *; [apply (J_mono lo); [lia | done] |].
  cbn [fmap list_fmap foldl act CALLBACK_DATA_NOADVANCE]. apply IH; cbn [e_p e_marks e_user]; [| done |].
  - intros m1 m2 o1 o2. rewrite !get_put_mark. repeat case_decide; try done. apply M.
  - destruct (get_mark ms m) as [o|] eqn:G.
    + destruct (tracked_clear m 0 p pos ms u lo o M G (Lo _ _ G) ltac:(lia) Ju) as [J1 N].
      exists (pos + 0)%nat. cbn. split; [done |]. split; [| lia]. intros m' o' G'. by apply N in G'.
    + exists lo. cbn. split; [done |]. split; [| done]. intros m' o'. rewrite get_put_mark.
      case_decide; [done | apply Lo].
Qed.

Lemma leftover_tracked e :
  head_ok d e -> (e_p e <= len)%nat -> tracked_head e ->
  match leftover s d e with
  | Ok (Continue e') => J len (e_user e')
  | _ => False
  end.
Proof.
  intros Hh L T. pose proof (leftover_ok s (passive_ok _ Ps) d _ Hh L) as K.
  unfold leftover in *. destruct (_ <=? 1)%nat; [| done]. cbn [c_assert]. clear K.
  destruct Hh as (_ & _ & E & M). rewrite run_actions_passive by done.
  apply (flush_tracked [M_header_field; M_header_value; M_url; M_body]); eauto using marks_ok_one.
Qed.

Lemma exec_loop_tracked fuel e :
  bytes_ok d -> head_ok d e -> (e_p e <= len)%nat -> (len - e_p e <= fuel)%nat -> tracked_head e ->
  match exec_loop s d fuel e with Ok (_, _, u) => J len u | Fault _ => False end.
Proof.
  intros B. revert e. induction fuel as [|fuel IH]; intros e He L Lf T; cbn [exec_loop];
    (destruct (e_p e =? len)%nat eqn:Ep; breflect;
     [pose proof (leftover_tracked e He L T) as K; by destruct (leftover _ _ _) as [[e'|]|] |]);
    [lia |].
  destruct (lookup_lt_is_Some_2 d (e_p e) ltac:(lia)) as [ch Hch]. rewrite Hch.
  pose proof (Forall_lookup_1 _ _ _ _ B Hch) as Hb.
  pose proof (one_byte_ok s (passive_ok _ Ps) d ch e He Hb ltac:(lia)) as K.
  pose proof (one_byte_tracked ch e He Hb ltac:(lia) T) as K'.
  destruct (one_byte _ _ _ _) as [[e'|]|]; cbn in *; [| done..].
  apply IH; [apply K | cbn; lia.. | done].
Qed.

Lemma execute_tracked p u :
  bytes_ok d -> parser_ok p -> J 0 u ->
  match http_parser_execute s d p u with Ok (_, _, v) => J len v | Fault _ => False end.
Proof.
  intros B [F S] Ju. assert (Jl : J len u) by (apply (J_mono 0); [lia | done]).
  destruct (is_OK p) eqn:E; [| by unfold http_parser_execute; rewrite E].
  apply is_OK_spec in E. rewrite execute_split by done.
  destruct (_ =? 0)%nat.
  - unfold execute_eof. destruct (hp_state p); try done.
    rewrite callback_notify_passive by done. cbn. by apply J_notify.
  - apply exec_loop_tracked; cbn; try lia; [done | |].
    + split_and!; auto using entry_marks_ok.
    + exists 0%nat. split; [done |]. split; [lia | done].
Qed.
End Tracked.
