(* ===== verification/WebService.v ===== *)
(** * The web service of the Capture client (WebService.cpp)

    A connection is handled by [sockethandler]: it receives until the HTTP
    parser has seen a complete message, then [serve] dispatches on the URI.
    The parser is the one of the HttpParser files; its user state is the
    [http_message] of the connection's thread.  Windows (sockets, files,
    processes, InternetCanonicalizeUrlA) is the class [Windows]: operations on
    an abstract world, of which nothing is assumed here.  The first buffer and
    the message are allocated; the growth of the buffer may fail. *)
From Stdlib Require Import ZArith Lia Ascii.
From stdpp Require Import base list strings numbers.
From S2P Require Import Prelude HttpParserDef HttpParserCases HttpParserExec.

Local Open Scope Z_scope.

(** the calls of the operating system; a handle or a stream is [None] when the
    call fails *)
Class Windows := {
  world : Type;
  handle : Type;
  find_handle : Type;
  (* Winsock, on the socket of the connection *)
  send : Z -> bytes -> world -> Z * world;
  recv : Z -> Z -> world -> bytes * world;      (* socket, room; [] for a count <= 0 *)
  shutdown : Z -> world -> world;
  closesocket : Z -> world -> world;
  TlsSetValue : world -> bool * world;
  (* wininet, with ICU_DECODE | ICU_NO_ENCODE and a buffer of MAX_URI_SIZE *)
  InternetCanonicalizeUrlA : bytes -> option bytes;
  (* whether realloc to so many bytes succeeds *)
  realloc : Z -> world -> bool;
  (* files *)
  GetFileAttributesA : bytes -> world -> Z;
  OpenFileA : bytes -> world -> option handle * world;    (* CreateFileA, OPEN_EXISTING *)
  CreateFileA : bytes -> world -> option handle * world;  (* CreateFileA, CREATE_ALWAYS *)
  GetFileSize : handle -> world -> Z;                     (* the low 32 bits *)
  ReadFile : handle -> Z -> world -> option bytes * world;
  WriteFile : handle -> bytes -> world -> option Z * world;
  CloseHandle : handle -> world -> world;
  DeleteFileA : bytes -> world -> world;
  FindFirstFileA : bytes -> world -> option (find_handle * (Z * bytes)) * world;
  FindNextFileA : find_handle -> world -> option (Z * bytes) * world;
  FindClose : option find_handle -> world -> world;
  fopen_r : bytes -> world -> option handle * world;
  ftell_end : handle -> world -> Z;
  fread : handle -> Z -> world -> bytes * world;
  fclose : handle -> world -> world;
  (* processes, ICMP, the mutex *)
  CreateProcessA : bytes -> world -> bool * world;
  ShellExecuteA : bytes -> world -> Z * world;
  IcmpCreateFile : world -> bool * world;
  IcmpSendEcho2 : Z -> world -> Z * world;
  WaitForSingleObject : world -> world;
}.

Definition SERVER_BUFLEN : Z := 8192.
Definition SERVER_BUFSTEP : Z := 8388608.
Definition MAX_FILE_SIZE : Z := 104857600.
Definition MAX_URI_SIZE : Z := 1024.
Definition URI_FILE : bytes := bs "/file/".
Definition URI_RUN : bytes := bs "/run/".
Definition URI_OPEN : bytes := bs "/open/".
Definition URI_EXPLORER : bytes := bs "/explorer/".
Definition URI_CLEANTEMP : bytes := bs "/cleantemp/".
Definition URI_START : bytes := bs "/start/".
Definition URI_STOP : bytes := bs "/stop/".
Definition URI_SCREENSHOT : bytes := bs "/screenshot/".
Definition URI_EVENTS : bytes := bs "/events/".
Definition URI_SIGCHECK : bytes := bs "/sigcheck/".
Definition URI_PING : bytes := bs "/ping/".
Definition URI_DATA_POLLUTION : bytes := bs "/data_pollution/".
Definition FILE_DATA_POLLUTION : bytes := bs "C:\data_pollution.log".
Definition TEMP_FILE_FOLDER : bytes := bs "C:\WINDOWS\Temp\".

(** WEBSVC_HTTP_PARTIAL, WEBSVC_HTTP_SUCCESS *)
Inductive websvc_status := PARTIAL | SUCCESS.

(** [request_uri] is the string in the array; [post_data] is a pointer into the
    receive buffer, as an offset, or null. *)
Record http_message := mk_message {
  m_method : Z;
  m_request_uri : bytes;
  m_post_data : option Z;
  m_post_data_len : Z;
  m_status : websvc_status;
}.

Definition set_post_data (o : option Z) (m : http_message) : http_message :=
  mk_message (m_method m) (m_request_uri m) o (m_post_data_len m) (m_status m).

(** strncpy_s(dest, size, src, count): calls the invalid parameter handler
    when the characters and the terminator do not fit. *)
Definition strncpy_s (size : Z) (src : bytes) : result bytes :=
  let s := c_str src in
  if Z.of_nat (length s) <? size then Ok s else Fault InvalidParameter.

(** sprintf(file, "%s%s", ...) into an array of [size] characters *)
Definition sprintf_path (size : Z) (dir name : bytes) : result bytes :=
  if Z.of_nat (length (dir ++ name)) <? size then Ok (dir ++ name) else Fault OutOfBoundsWrite.

(** [len] bytes of the receive buffer from an offset *)
Definition read_buf (buf : bytes) (off len : Z) : result bytes :=
  if (0 <=? off) && (off + len <=? Z.of_nat (length buf))
  then Ok (take (Z.to_nat len) (drop (Z.to_nat off) buf))
  else Fault OutOfBoundsRead.

Definition INVALID_FILE_ATTRIBUTES : Z := 4294967295.
Definition FILE_ATTRIBUTE_DIRECTORY : Z := 16.

(** [dwAttrib != INVALID_FILE_ATTRIBUTES && !(dwAttrib & FILE_ATTRIBUTE_DIRECTORY)] *)
Definition isFile (dwAttrib : Z) : bool :=
  negb (dwAttrib =? INVALID_FILE_ATTRIBUTES) &&
  (Z.land dwAttrib FILE_ATTRIBUTE_DIRECTORY =? 0).

Definition crlf2 : bytes := [CR; LF; CR; LF].

Section Callbacks.
Context `{Windows}.

(** The user state of the parser is the message, or the fault that ended the
    process in a callback. *)
Abbreviation user := (result http_message).

Definition callback_uri : http_data_cb user :=
  fun parser data pos len u =>
    (0, parser,
     m ← u;
     uri_buf ← strncpy_s MAX_URI_SIZE (take len (drop pos data));
     match InternetCanonicalizeUrlA uri_buf with
     | Some uri => Ok (mk_message (m_method m) uri (m_post_data m) (m_post_data_len m) (m_status m))
     | None => Ok m
     end).

(** The data of a call starts at offset [datasize] of the buffer. *)
Definition callback_body (datasize : Z) : http_data_cb user :=
  fun parser data pos len u =>
    (0, parser,
     m ← u;
     Ok (mk_message (m_method m) (m_request_uri m)
           (Some (datasize + Z.of_nat pos + Z.of_nat len))
           (u32 (m_post_data_len m + Z.of_nat len)) (m_status m))).

Definition callback_complete : http_cb user :=
  fun parser u =>
    (0, parser,
     m ← u;
     Ok (mk_message (method_num (hp_method parser)) (m_request_uri m) (m_post_data m)
           (m_post_data_len m) SUCCESS)).

Definition settings (datasize : Z) : http_parser_settings user :=
  mk_settings None (Some callback_uri) None None None (Some (callback_body datasize))
    (Some callback_complete).
End Callbacks.

Section Serve.
Context `{Windows}.
(** the slots of the signal, see Visitor *)
Context (onCMDEvent : bytes -> bytes -> world -> result world).

Definition serve_error (clientSocket : Z) (status : bytes) (w : world) : Z * world :=
  send clientSocket (bs "HTTP/1.0 " ++ status ++ crlf2 ++ status) w.

Definition file_header : bytes :=
  bs "HTTP/1.0 200 OK" ++ [CR; LF] ++ bs "Content-Transfer-Encoding: binary" ++ [CR; LF] ++
  bs "Content-Type: application/octet-stream" ++ crlf2.

Definition serve_file (clientSocket : Z) (filepath : bytes) (w : world) : Z * world :=
  if isFile (GetFileAttributesA filepath w) then
    let '(hFile, w) := OpenFileA filepath w in
    match hFile with
    | Some hFile =>
      let filesize := GetFileSize hFile w in
      if filesize >? MAX_FILE_SIZE then
        let w := CloseHandle hFile w in
        serve_error clientSocket (bs "403 Forbidden (file too large)") w
      else
        let '(bytecount, w) := send clientSocket file_header w in
        let '(buf, w) := ReadFile hFile filesize w in
        let w := CloseHandle hFile w in
        match buf with
        | None => serve_error clientSocket (bs "403 Forbidden (file read error)") w
        | Some buf => let '(n, w) := send clientSocket buf w in (bytecount + n, w)
        end
    | None => serve_error clientSocket (bs "403 Forbidden (file open error)") w
    end
  else serve_error clientSocket (bs "404 Not found") w.

(** [buf] is the receive buffer [post_data] points into. *)
Definition recv_file (clientSocket : Z) (message : http_message) (buf filepath : bytes)
  (w : world) : result (Z * world) :=
  match m_post_data message with
  | Some post_data =>
    if m_post_data_len message =? 0 then
      Ok (serve_error clientSocket (bs "400 Bad Request (no file received)") w)
    else
      file ← sprintf_path 1024 TEMP_FILE_FOLDER filepath;
      let '(hFile, w) := CreateFileA file w in
      match hFile with
      | Some hFile =>
        data ← read_buf buf post_data (m_post_data_len message);
        let '(bytecount_file, w) := WriteFile hFile data w in
        match bytecount_file with
        | Some bytecount_file =>
          if bytecount_file =? m_post_data_len message then
            let '(bytecount, w) := send clientSocket (bs "HTTP/1.0 201 Created" ++ crlf2) w in
            Ok (bytecount, CloseHandle hFile w)
          else Ok (serve_error clientSocket (bs "403 Forbidden (file write error)")
                     (CloseHandle hFile w))
        | None => Ok (serve_error clientSocket (bs "403 Forbidden (file write error)")
                        (CloseHandle hFile w))
        end
      | None => Ok (serve_error clientSocket (bs "403 Forbidden (file open error)") w)
      end
  | None => Ok (serve_error clientSocket (bs "400 Bad Request (no file received)") w)
  end.

(** InternetCheck.cpp *)
Definition InternetCheckPing (ip : Z) (w : world) : Z * world :=
  let '(hIcmp, w) := IcmpCreateFile w in
  if negb hIcmp then (0, w) else IcmpSendEcho2 ip w.

Definition http_ok : bytes := bs "HTTP/1.0 200 OK" ++ crlf2.
Definition http_created : bytes := bs "HTTP/1.0 201 Created" ++ crlf2 ++ bs "201 Created".

(** inet_addr("8.8.8.8") *)
Definition ping_addr : Z := 134744072.

Definition serve_ping (clientSocket : Z) (w : world) : Z * world :=
  let '(retval, w) := InternetCheckPing ping_addr w in
  if negb (retval =? 0) then send clientSocket http_ok w
  else serve_error clientSocket (bs "404 Not found") w.

(** [strrchr(name, '.')] *)
Definition file_ext (name : bytes) : option bytes :=
  (fun i => drop i name) <$> str_find_last (chr ".") name.

(** the body of the do loop for one entry *)
Definition clean_entry (clientSocket : Z) (ffd : Z * bytes) (num_files bytecount : Z) (w : world)
  : Z * Z * world :=
  let '(dwFileAttributes, cFileName) := ffd in
  if Z.land dwFileAttributes FILE_ATTRIBUTE_DIRECTORY =? 0 then
    match file_ext cFileName with
    | Some ext =>
      if bytes_eqb ext (bs ".dat") then (num_files, bytecount, w)
      else
        let w := DeleteFileA cFileName w in
        let num_files := num_files + 1 in
        let '(bytecount, w) :=
          if num_files =? 1 then
            let '(n, w) := send clientSocket (bs "HTTP/1.0 400 Deleted" ++ crlf2) w in
            (bytecount + n, w)
          else (bytecount, w) in
        let '(n, w) := send clientSocket (cFileName ++ [CR; LF]) w in
        (num_files, bytecount + n, w)
    | None => (num_files, bytecount, w)
    end
  else (num_files, bytecount, w).

(** the do loop; one unit of fuel per entry of the directory *)
Fixpoint clean_loop (fuel : nat) (clientSocket : Z) (h : find_handle) (ffd : Z * bytes)
  (num_files bytecount : Z) (w : world) : result (Z * Z * world) :=
  match fuel with
  | O => Fault OutOfFuel
  | S fuel' =>
    let '(num_files, bytecount, w) := clean_entry clientSocket ffd num_files bytecount w in
    let '(next, w) := FindNextFileA h w in
    match next with
    | Some ffd => clean_loop fuel' clientSocket h ffd num_files bytecount w
    | None => Ok (num_files, bytecount, w)
    end
  end.

Definition serve_cleantemp (fuel : nat) (clientSocket : Z) (w : world) : result (Z * world) :=
  let '(hFindALL, w) := FindFirstFileA (bs "C:\Windows\Temp\*") w in
  r ← match hFindALL with
      | Some (h, ffd) => clean_loop fuel clientSocket h ffd 0 0 w
      | None => Ok (0, 0, w)
      end;
  let '(num_files, bytecount, w) := r in
  let w := FindClose (fst <$> hFindALL) w in
  if num_files >? 0 then Ok (bytecount, w)
  else Ok (send clientSocket (http_ok ++ bs "200 OK") w).

Definition serve_run (clientSocket : Z) (filepath : bytes) (w : world) : Z * world :=
  if isFile (GetFileAttributesA filepath w) then
    let '(created, w) := CreateProcessA filepath w in
    if negb created
    then serve_error clientSocket (bs "403 Forbidden (process creation error)") w
    else send clientSocket http_created w
  else serve_error clientSocket (bs "404 Not found") w.

Definition serve_open (clientSocket : Z) (filepath : bytes) (w : world) : Z * world :=
  if isFile (GetFileAttributesA filepath w) then
    let '(retval, w) := ShellExecuteA filepath w in
    if retval <=? 32
    then serve_error clientSocket (bs "403 Forbidden (process creation error)") w
    else send clientSocket http_created w
  else serve_error clientSocket (bs "404 Not found") w.

(** The buffer holds [filesize] bytes of which [fread] fills a prefix; what it
    does not fill is uninitialised. *)
Definition serve_data_pollution (clientSocket : Z) (w : world) : result (Z * world) :=
  let file := isFile (GetFileAttributesA FILE_DATA_POLLUTION w) in
  let w := WaitForSingleObject w in
  if file then
    let '(fp, w) := fopen_r FILE_DATA_POLLUTION w in
    match fp with
    | None => Ok (serve_error clientSocket (bs "403 Error open file!)") w)
    | Some fp =>
      let filesize := ftell_end fp w in
      let '(buf, w) := fread fp filesize w in
      let w := fclose fp w in
      if negb (filesize =? 0) then
        let '(bytecount, w) := send clientSocket
          (bs "HTTP/1.0 200 OK" ++ [CR; LF] ++ bs "Content-Type: text/plain; charset=utf-16" ++
           crlf2) w in
        if Z.of_nat (length buf) <? filesize then Fault UninitRead
        else let '(n, w) := send clientSocket (take (Z.to_nat filesize) buf) w in
             Ok (bytecount + n, w)
      else Ok (serve_error clientSocket
                 (bs "404 something goes wrong! data pollution log file size is !") w)
    end
  else Ok (serve_error clientSocket (bs "404 No data pollution data file") w).

(** [uri.find_first_of('/', strlen(URI_FILE))]: [None] is npos, for which
    [found + 1] is 0 and the length [found - strlen(URI_FILE)] is unbounded. *)
Definition split_uri (uri : bytes) : result (bytes * bytes) :=
  match str_find [chr "/"] (drop 6 uri) with
  | Some i =>
    app ← str_substr uri 6 i;
    filepath ← str_substr_from uri (6 + i + 1);
    Ok (app, filepath)
  | None =>
    app ← str_substr_from uri 6;
    filepath ← str_substr_from uri 0;
    Ok (app, filepath)
  end.

(** [entries] bounds the entries of the temporary directory. *)
Definition serve (entries : nat) (clientSocket : Z) (message : http_message) (buf : bytes)
  (w : world) : result (Z * world) :=
  let uri := m_request_uri message in
  if prefixb URI_FILE uri then
    r ← split_uri uri;
    let '(app, filepath) := r in
    if m_method message =? 1 then Ok (serve_file clientSocket filepath w)
    else if m_method message =? 3 then
      r ← recv_file clientSocket message buf filepath w;
      let '(bytecount, w) := r in
      if bytecount >? 0 then w ← onCMDEvent app filepath w; Ok (bytecount, w)
      else Ok (bytecount, w)
    else Ok (serve_error clientSocket (bs "400 Bad Request") w)
  else if prefixb URI_SIGCHECK uri then Ok (0, w)
  else if prefixb URI_PING uri then Ok (serve_ping clientSocket w)
  else if prefixb URI_RUN uri then Ok (serve_run clientSocket (drop 5 uri) w)
  else if prefixb URI_OPEN uri then Ok (serve_open clientSocket (drop 6 uri) w)
  else if prefixb URI_EXPLORER uri then Ok (0, w)
  else if prefixb URI_CLEANTEMP uri then serve_cleantemp entries clientSocket w
  else if prefixb URI_START uri then Ok (0, w)
  else if prefixb URI_STOP uri then Ok (0, w)
  else if prefixb URI_SCREENSHOT uri then Ok (0, w)
  else if prefixb URI_EVENTS uri then Ok (0, w)
  else if prefixb URI_DATA_POLLUTION uri then serve_data_pollution clientSocket w
  else Ok (serve_error clientSocket (bs "400 Bad Request") w).

(** the locals of [sockethandler]; [c_buf] is what was received, so that its
    length is [datasize] *)
Record connection := mk_connection {
  c_parser : http_parser;
  c_buf : bytes;
  c_buflen : Z;
  c_message : http_message;
}.

Definition INT_MAX : Z := 2147483647.

(** the growth of the buffer at the head of the loop: [buflen + SERVER_BUFSTEP]
    is an int, and the result of realloc is used unchecked, so that recv would
    write to the address [datasize] *)
Definition grow (w : world) (c : connection) : result connection :=
  if Z.of_nat (length (c_buf c)) =? c_buflen c then
    if INT_MAX <? c_buflen c + SERVER_BUFSTEP then Fault IntOverflow
    else if realloc (c_buflen c + SERVER_BUFSTEP) w
    then Ok (mk_connection (c_parser c) (c_buf c) (c_buflen c + SERVER_BUFSTEP)
               (set_post_data None (c_message c)))
    else Fault NullDeref
  else Ok c.

(** what one piece of input does *)
Definition receive (piece : bytes) (c : connection) : result connection :=
  r ← http_parser_execute (settings (Z.of_nat (length (c_buf c)))) piece (c_parser c)
        (Ok (c_message c));
  let '(_, p, u) := r in
  m ← u;
  Ok (mk_connection p (c_buf c ++ piece) (c_buflen c) m).

(** the do loop; one unit of fuel per call of recv *)
Fixpoint recv_loop (fuel : nat) (clientSocket : Z) (c : connection) (w : world)
  : result (connection * world) :=
  match fuel with
  | O => Fault OutOfFuel
  | S fuel' =>
    c ← grow w c;
    let '(piece, w) := recv clientSocket (c_buflen c - Z.of_nat (length (c_buf c))) w in
    match piece with
    | [] => Ok (c, w)
    | _ =>
      c ← receive piece c;
      match m_status (c_message c) with
      | PARTIAL => recv_loop fuel' clientSocket c w
      | SUCCESS => Ok (c, w)
      end
    end
  end.

(** a connection that has received nothing *)
Definition new_connection : connection :=
  mk_connection (http_parser_init HTTP_REQUEST) [] SERVER_BUFLEN
    (mk_message 0 [] None 0 PARTIAL).

(** [message->post_data -= message->post_data_len] *)
Definition rewind (m : http_message) : http_message :=
  match m_post_data m with
  | Some pos => if m_post_data_len m =? 0 then m
                else set_post_data (Some (pos - m_post_data_len m)) m
  | None => m
  end.

Definition finish (clientSocket : Z) (w : world) : world :=
  closesocket clientSocket (shutdown clientSocket w).

Definition sockethandler (fuel entries : nat) (clientSocket : Z) (w : world) : result world :=
  let '(ok, w) := TlsSetValue w in
  if negb ok then Ok (finish clientSocket w)
  else
    r ← recv_loop fuel clientSocket new_connection w;
    let '(c, w) := r in
    match m_status (c_message c) with
    | PARTIAL => Ok (finish clientSocket w)
    | SUCCESS =>
      r ← serve entries clientSocket (rewind (c_message c)) (c_buf c) w;
      Ok (finish clientSocket (snd r))
    end.
End Serve.
