(* ===== verification/WebServiceSafe.v ===== *)
(** * Safety of the web service

    Whatever a client sends, the receive loop keeps the parser and the message
    in their invariant, [post_data] never leaves the receive buffer, and the
    only ways a connection can end the process are named. *)
From Stdlib Require Import ZArith Lia Ascii.
From stdpp Require Import base list strings numbers.
From S2P Require Import Prelude HttpParserDef HttpParserCases HttpParserExec.
From S2P Require Import HttpParserInv HttpParserSafe HttpParserStream HttpParserStep.
From S2P Require Import HttpParserMessage HttpParserPassive WebService.

Local Open Scope Z_scope.

Section Safe.
Context `{Windows}.

Lemma settings_passive n : passive (settings n).
Proof.
  split.
  - by intros [] cb [= <-].
  - by intros [] cb [= <-].
  - by intros cb [=].
Qed.

Lemma settings_headerless n : headerless (settings n).
Proof. by split; [apply settings_passive | ..]. Qed.

(** ** The message *)

(** what was reported lies before [hi] in the buffer *)
Definition message_ok (hi : Z) (m : http_message) : Prop :=
  0 <= m_post_data_len m <= hi /\
  forall e, m_post_data m = Some e -> m_post_data_len m <= e <= hi.

Definition user_ok (base : Z) (lo : nat) (u : result http_message) : Prop :=
  match u with
  | Ok m => message_ok (base + Z.of_nat lo) m
  | Fault f => f = InvalidParameter
  end.

Lemma message_ok_mono hi hi' m : hi <= hi' -> message_ok hi m -> message_ok hi' m.
Proof. intros L [? E]. split; [lia |]. intros e G. specialize (E e G). lia. Qed.

Lemma u32_le x : 0 <= x -> 0 <= u32 x <= x.
Proof. intros. unfold u32. split; [by apply Z.mod_pos_bound | by apply Z.mod_le]. Qed.

Lemma user_ok_mono base lo lo' u : (lo <= lo')%nat -> user_ok base lo u -> user_ok base lo' u.
Proof. intros L. destruct u; [| done]. apply message_ok_mono. lia. Qed.

Lemma user_ok_data base d m p lo o l u :
  0 <= base -> (lo <= o)%nat -> (o + l <= length d)%nat -> user_ok base lo u ->
  user_ok base (o + l) (data_eff (settings base) d m p o l u).
Proof.
  intros Hb Lo L K. unfold data_eff.
  assert (Ku : user_ok base (o + l) u).
  { eapply user_ok_mono; [| done]. lia. }
  destruct m; cbn; try done; (destruct u as [m0|f]; [| done]); cbn in *.
  - unfold strncpy_s. case_match; [| done]. cbn. by destruct (InternetCanonicalizeUrlA _).
  - destruct K as [K1 _]. pose proof (u32_le (m_post_data_len m0 + Z.of_nat l) ltac:(lia)).
    split; cbn; [lia |]. intros e [= <-]. lia.
Qed.

Lemma user_ok_notify base n p lo u :
  user_ok base lo u -> user_ok base lo (notify_eff (settings base) n p u).
Proof. intros K. unfold notify_eff. destruct n; cbn; [done |]. by destruct u. Qed.

(** ** The connection *)

Record connection_ok (c : connection) : Prop := {
  co_parser : hp_errno (c_parser c) = HPE_OK -> parser_ok (c_parser c);
  co_message : message_ok (Z.of_nat (length (c_buf c))) (c_message c);
  co_fits : Z.of_nat (length (c_buf c)) <= c_buflen c;
  co_int : c_buflen c <= 2147483647;
}.

Lemma execute_refuses {U} (s : http_parser_settings U) d p u :
  hp_errno p <> HPE_OK -> http_parser_execute s d p u = Ok (0%nat, p, u).
Proof.
  intros E. unfold http_parser_execute. destruct (is_OK p) eqn:K; [| done].
  by apply is_OK_spec in K.
Qed.

Lemma receive_ok piece c :
  bytes_ok piece -> Z.of_nat (length piece) <= c_buflen c - Z.of_nat (length (c_buf c)) ->
  connection_ok c ->
  match receive piece c with
  | Ok c' => connection_ok c' /\ c_buf c' = c_buf c ++ piece
  | Fault f => f = InvalidParameter
  end.
Proof.
  intros B Fit [Hp Hm Hf Hi]. unfold receive. set (base := Z.of_nat (length (c_buf c))) in *.
  assert (Grow : message_ok (base + Z.of_nat (length piece)) (c_message c))
    by (eapply message_ok_mono; [| done]; lia).
  assert (Len : Z.of_nat (length (c_buf c ++ piece)) = base + Z.of_nat (length piece))
    by (rewrite length_app; lia).
  destruct (decide (hp_errno (c_parser c) = HPE_OK)) as [E|E].
  - specialize (Hp E).
    destruct (execute_ok (settings base) piece (c_parser c) (Ok (c_message c))
      (passive_ok _ (settings_passive base)) B Hp) as (n & q & v & Ex & _ & Hq).
    pose proof (execute_tracked (settings base) (settings_passive base) piece (user_ok base)
      (user_ok_mono base) (fun m p lo o l u => user_ok_data base piece m p lo o l u ltac:(lia))
      (user_ok_notify base) (fun p lo u x => x)
      (c_parser c) (Ok (c_message c)) B Hp) as T.
    rewrite Ex in T |- *. cbn [mbind result_bind].
    specialize (T ltac:(cbn; rewrite Z.add_0_r; exact Hm)).
    destruct v as [m|f]; cbn; [| done]. split; [| done]. split; cbn; rewrite ?Len; [by auto | done | lia | done].
  - rewrite execute_refuses by done. cbn. split; [| done]. split; cbn; rewrite ?Len; [done | done | lia | done].
Qed.

(** The growth fails, or there is room for at least one byte after it; the
    length of the buffer stays an int. *)
Lemma grow_ok w c : connection_ok c ->
  match grow w c with
  | Ok g => connection_ok g /\ c_buf g = c_buf c /\ 0 < c_buflen g - Z.of_nat (length (c_buf g))
  | Fault f => f = IntOverflow \/ f = NullDeref
  end.
Proof.
  intros [Hp [H1 H2] Hf Hi]. unfold grow, SERVER_BUFSTEP, INT_MAX in *. destruct (_ =? c_buflen c) eqn:E; breflect.
  - destruct (2147483647 <? _) eqn:E1; breflect; [by left |]. destruct (realloc _ w); [| by right].
    split; [| split; [done | cbn; lia]]. split; [done | by split | cbn; lia | cbn; lia].
  - split; [by split | split; [done | lia]].
Qed.

Lemma new_connection_ok : connection_ok new_connection.
Proof. split; [intros _; apply init_ok | by split | done | done]. Qed.

(** ** Receiving *)

(** recv returns bytes, and no more than there is room for *)
Class RecvLaws : Prop := {
  recv_bytes : forall s room w, bytes_ok (recv s room w).1;
  recv_room : forall s room w, 0 < room -> Z.of_nat (length (recv s room w).1) <= room;
}.
Context `{RecvLaws}.

(** the peer closes, or the connection fails, after at most [n] pieces *)
Fixpoint closes (n : nat) (s : Z) (w : world) : Prop :=
  forall room, 0 < room ->
    (recv s room w).1 = [] \/
    match n with O => False | S n' => closes n' s (recv s room w).2 end.

(** the faults of the receive loop *)
Definition recv_fault (f : fault) : Prop := f = InvalidParameter \/ f = IntOverflow \/ f = NullDeref.

Lemma recv_loop_ok fuel s c w n :
  closes n s w -> (n < fuel)%nat -> connection_ok c ->
  match recv_loop fuel s c w with
  | Ok (c', _) => connection_ok c'
  | Fault f => recv_fault f
  end.
Proof.
  revert c w n. induction fuel as [|fuel IH]; intros c w n Cl L Hc; [lia |]. cbn [recv_loop].
  pose proof (grow_ok w c Hc) as Hg. destruct (grow w c) as [g|f]; cbn [mbind result_bind];
    [destruct Hg as (Hg & Eb & Room) | unfold recv_fault; tauto].
  pose proof (recv_bytes s (c_buflen g - Z.of_nat (length (c_buf g))) w) as B.
  pose proof (recv_room s (c_buflen g - Z.of_nat (length (c_buf g))) w Room) as R.
  assert (Cl' := Cl). destruct n; destruct (Cl' _ Room) as [E|E]; try done;
    (destruct (recv s _ w) as [piece w'] eqn:Er; cbn in B, R, E).
  1, 2: by subst piece.
  destruct piece as [|b piece]; [done |]. set (d := b :: piece) in *.
  pose proof (receive_ok d g B R Hg) as K. destruct (receive d g) as [c'|f]; cbn; [| by left].
  destruct K as [K _]. destruct (m_status (c_message c')); [| done]. eapply IH; eauto. lia.
Qed.

(** ** Serving *)

Lemma rewind_reads c :
  connection_ok c ->
  forall o, m_post_data (rewind (c_message c)) = Some o ->
    m_post_data_len (rewind (c_message c)) <> 0 ->
    exists data, read_buf (c_buf c) o (m_post_data_len (rewind (c_message c))) = Ok data.
Proof.
  intros [_ [L E] _ _] o. unfold rewind. destruct (m_post_data (c_message c)) as [e|] eqn:P; [| congruence].
  case_match; breflect; cbn; intros G N; [congruence |]. injection G as <-. specialize (E e eq_refl).
  unfold read_buf. rewrite (proj2 (Z.leb_le 0 _)), (proj2 (Z.leb_le (_ + _) _)) by lia.
  by eexists.
Qed.

Lemma split_uri_ok uri : prefixb URI_FILE uri = true -> exists app path, split_uri uri = Ok (app, path).
Proof.
  intros P. apply prefixb_spec in P as [r ->]. unfold split_uri.
  assert (L : (6 <= length (URI_FILE ++ r))%nat) 
    by (rewrite length_app; change (length URI_FILE) with 6%nat; lia).
  unfold str_substr, str_substr_from. destruct (str_find _ _) as [i|] eqn:F.
  - apply str_find_bound in F as [F|F]; [| done]. rewrite length_drop in F. cbn [length] in F.
    rewrite !(proj2 (Nat.ltb_ge _ _)) by lia. cbn. eauto.
  - rewrite !(proj2 (Nat.ltb_ge _ _)) by lia. cbn. eauto.
Qed.

Context (onCMDEvent : bytes -> bytes -> world -> result world).

(** the faults of [serve] *)
Definition serve_fault (f : fault) : Prop :=
  f = OutOfBoundsWrite \/ f = UninitRead \/ exists app path w, onCMDEvent app path w = Fault f.

(** A listing of the temporary directory ends: [entries_left] counts the entries still
    to come, each FindNextFileA takes one of them, and the answers sent and the
    files deleted meanwhile add none; there are at most [entries] at the start. *)
Class Listing (entries : nat) : Type := {
  entries_left : find_handle -> world -> nat;
  left_first : forall p w h e w', FindFirstFileA p w = (Some (h, e), w') -> (entries_left h w' < entries)%nat;
  left_next : forall h w e w', FindNextFileA h w = (Some e, w') -> (entries_left h w' < entries_left h w)%nat;
  left_send : forall h s b w, (entries_left h (send s b w).2 <= entries_left h w)%nat;
  left_delete : forall h p w, (entries_left h (DeleteFileA p w) <= entries_left h w)%nat;
}.

Lemma recv_file_fault s c path w f :
  connection_ok c -> recv_file s (rewind (c_message c)) (c_buf c) path w = Fault f ->
  f = OutOfBoundsWrite.
Proof.
  intros Hc. unfold recv_file. destruct (m_post_data _) as [o|] eqn:P; [| done].
  destruct (_ =? 0) eqn:N; [done |]. unfold sprintf_path. case_match; cbn; [| congruence].
  destruct (CreateFileA _ w) as [[h|] w1]; [| done]. breflect.
  destruct (rewind_reads c Hc o P ltac:(done)) as [data ->]. cbn.
  destruct (WriteFile h data w1) as [[n|] w2]; [| done]. case_match; [| done].
  by destruct (send _ _ _).
Qed.

Lemma clean_entry_left `{!Listing entries} s h ffd n b w :
  (entries_left h (clean_entry s ffd n b w).2 <= entries_left h w)%nat.
Proof.
  unfold clean_entry. destruct ffd as [at' nm]. case_match; [| done]. destruct (file_ext nm) as [ext|]; [| done].
  destruct (bytes_eqb ext (bs ".dat")); [done |]. pose proof (left_delete h nm w) as Hd.
  destruct (n + 1 =? 1).
  - pose proof (left_send h s (bs "HTTP/1.0 400 Deleted" ++ crlf2) (DeleteFileA nm w)) as Ha.
    destruct (send s _ (DeleteFileA nm w)) as [k1 w1]. cbn in Ha |- *.
    pose proof (left_send h s (nm ++ [CR; LF]) w1) as Hb. destruct (send s _ w1) as [k2 w2]. cbn in *. lia.
  - pose proof (left_send h s (nm ++ [CR; LF]) (DeleteFileA nm w)) as Hb.
    destruct (send s _ (DeleteFileA nm w)) as [k2 w2]. cbn in *. lia.
Qed.

Lemma clean_loop_ends `{!Listing entries} fuel s h ffd n b w :
  (entries_left h w < fuel)%nat -> is_ok (clean_loop fuel s h ffd n b w).
Proof.
  revert ffd n b w. induction fuel as [|fuel IH]; intros ffd n b w L; [lia |]. cbn [clean_loop].
  pose proof (clean_entry_left s h ffd n b w) as Hl. destruct (clean_entry s ffd n b w) as [[n1 b1] w1].
  destruct (FindNextFileA h w1) as [[e|] w2] eqn:E; [| done].
  apply IH. apply left_next in E. cbn in Hl. lia.
Qed.

Lemma serve_fault_ok `{!Listing entries} s c w f :
  connection_ok c -> serve onCMDEvent entries s (rewind (c_message c)) (c_buf c) w = Fault f ->
  serve_fault f.
Proof.
  intros Hc. unfold serve. destruct (prefixb URI_FILE _) eqn:P.
  { destruct (split_uri_ok _ P) as (app & path & ->). cbn [mbind result_bind].
    case_match; [done |]. case_match; [| done].
    destruct (recv_file _ _ _ _ _) as [[n w1]|f'] eqn:R; cbn.
    - case_match; [| done]. destruct (onCMDEvent app path w1) as [w2|f'] eqn:O; cbn; [done |].
      intros [= <-]. do 2 right. by eauto.
    - intros [= <-]. left. by eapply recv_file_fault. }
  repeat (case_match; [try done |]); try done; intros F.
  - unfold serve_cleantemp in F. destruct (FindFirstFileA _ w) as [[[h ffd]|] w1] eqn:Ff; cbn in F; [| done].
    apply left_first in Ff. pose proof (clean_loop_ends entries s h ffd 0 0 w1 Ff) as C.
    destruct (clean_loop _ _ _ _ _ _ _) as [[[n b] w2]|f']; [| done]. cbn in F. by case_match.
  - unfold serve_data_pollution in F. case_match; [| done].
    destruct (fopen_r _ _) as [[fp|] w1]; [| done]. destruct (fread _ _ _) as [buf w2].
    case_match; [| done]. destruct (send _ _ _) as [k w3]. case_match; [| by destruct (send _ _ _)].
    injection F as <-. right. by left.
Qed.
End Safe.

(** ** The theorem *)


(** ** A world to run in: pieces that arrive, answers, files, events *)

Record sim := mk_sim {
  sim_in : list bytes;
  sim_out : list bytes;
  sim_files : list (bytes * bytes);
  sim_closed : bool;
}.

Definition sim_recv (room : Z) (w : sim) : bytes * sim :=
  match sim_in w with
  | [] => ([], w)
  | d :: ds =>
    (u8 <$> take (Z.to_nat room) d,
     mk_sim (match drop (Z.to_nat room) d with [] => ds | r => r :: ds end)
       (sim_out w) (sim_files w) (sim_closed w))
  end.

#[local] Instance Sim : Windows := {|
  world := sim; handle := bytes; find_handle := unit;
  send s b w := (Z.of_nat (length b), mk_sim (sim_in w) (sim_out w ++ [b]) (sim_files w) (sim_closed w));
  recv s room w := sim_recv room w;
  shutdown s w := w;
  closesocket s w := mk_sim (sim_in w) (sim_out w) (sim_files w) true;
  TlsSetValue w := (true, w);
  InternetCanonicalizeUrlA u := Some u;
  realloc n w := true;
  GetFileAttributesA p w := INVALID_FILE_ATTRIBUTES;
  OpenFileA p w := (None, w);
  CreateFileA p w := (Some p, w);
  GetFileSize h w := 0;
  ReadFile h n w := (None, w);
  WriteFile h b w := (Some (Z.of_nat (length b)),
                      mk_sim (sim_in w) (sim_out w) (sim_files w ++ [(h, b)]) (sim_closed w));
  CloseHandle h w := w;
  DeleteFileA p w := w;
  FindFirstFileA p w := (None, w);
  FindNextFileA h w := (None, w);
  FindClose h w := w;
  fopen_r p w := (None, w);
  ftell_end h w := 0;
  fread h n w := ([], w);
  fclose h w := w;
  CreateProcessA p w := (false, w);
  ShellExecuteA p w := (0, w);
  IcmpCreateFile w := (false, w);
  IcmpSendEcho2 ip w := (0, w);
  WaitForSingleObject w := w;
|}.

#[local] Instance Sim_listing n : Listing (H := Sim) n.
Proof. refine {| entries_left := fun _ _ => 0%nat |}; (done || (intros; lia)). Defined.

#[local] Instance Sim_recv : RecvLaws (H := Sim).
Proof.
  split.
  - intros s room w. cbn. unfold sim_recv. destruct (sim_in w); [constructor |]. cbn.
    apply Forall_fmap, Forall_true. intros x. apply u8_range.
  - intros s room w R. cbn. unfold sim_recv. destruct (sim_in w); cbn; [lia |].
    rewrite length_fmap, length_take. lia.
Qed.

Lemma sim_closes n s (w : sim) : (length (concat (sim_in w)) <= n)%nat -> closes (H := Sim) n s w.
Proof.
  revert w. induction n as [|n IH]; intros w L room R; cbn; unfold sim_recv;
    (destruct (sim_in w) as [|d ds] eqn:E; [by left |]; destruct d as [|b d]; [left; by destruct (Z.to_nat room) |]);
    cbn in L; [lia |]. right. apply IH. cbn.
  assert (Hr : Z.to_nat room = S (Z.to_nat room - 1)) by lia. rewrite Hr. cbn [drop skipn].
  rewrite length_app in L.
  pose proof (length_drop d (Z.to_nat room - 1)) as Ld.
  destruct (drop _ d) eqn:D; cbn in *; rewrite ?length_app; lia.
Qed.

(** a GET in two pieces *)
Definition sim_get : sim :=
  mk_sim [bs "GET /none HTT"; bs "P/1.0" ++ crlf2] [] [] false.

