(* ===== verification/WebServiceUpload.v ===== *)
(** * Uploads to the web service

    A POST of a file, received in any pieces that do not cut its request line,
    stores exactly the body ([upload_exact]); a URL cut between two pieces
    loses its first part ([cut_uri]). *)
From Stdlib Require Import ZArith Lia Ascii.
From stdpp Require Import base list strings numbers.
From S2P Require Import Prelude HttpParserDef HttpParserCases HttpParserExec.
From S2P Require Import HttpParserInv HttpParserSafe HttpParserStream HttpParserStep.
From S2P Require Import HttpParserHeaders HttpParserMessage HttpParserPassive.
From S2P Require Import WebService WebServiceSafe.

Local Open Scope Z_scope.

Section Upload.
Context `{Windows}.
Implicit Type (p q : http_parser) (m : http_message) (c : connection).

(** the parser before [body] when nothing but [body] is left *)
Definition before_body (mth : http_method) (body : bytes) q : Prop :=
  exists p0 h i n, q = at_state (with_length p0 (Z.of_nat (length body))) s_body_identity h i n /\
    plain_request p0 /\ hp_method p0 = mth.

(** the parser before [head ++ body]: [head] is quiet and then the body starts *)
Definition before (mth : http_method) (head body : bytes) p : Prop :=
  exists q, run head p false = Some (q, false) /\ before_body mth body q.

(** the message after [k] bytes of the body, the last of them at [e] *)
Definition took (k e : Z) m : http_message :=
  if k =? 0 then m
  else mk_message (m_method m) (m_request_uri m) (Some e) (m_post_data_len m + k) (m_status m).

Definition completed (mth : http_method) m : http_message :=
  mk_message (method_num mth) (m_request_uri m) (m_post_data m) (m_post_data_len m) SUCCESS.

Lemma run_split d1 d2 p q :
  run (d1 ++ d2) p false = Some (q, false) ->
  exists p1, run d1 p false = Some (p1, false) /\ run d2 p1 false = Some (q, false).
Proof.
  rewrite run_app. destruct (run d1 p false) as [[p1 []]|] eqn:R; [intros R'| |]; try done.
  - by apply run_loud in R'.
  - by exists p1.
Qed.

(** Two ways to cut a list. *)
Lemma app_cut {A} (x r h b : list A) :
  x ++ r = h ++ b ->
  (exists h', h = x ++ h' /\ r = h' ++ b) \/ (exists b', b' <> [] /\ x = h ++ b' /\ b = b' ++ r).
Proof.
  intros E. destruct (decide (length x <= length h)%nat) as [L|L].
  - left. exists (drop (length x) h). split.
    + rewrite <- (take_drop (length x) h) at 1. f_equal.
      apply (f_equal (take (length x))) in E. by rewrite !take_app_le, take_ge in E by lia.
    + apply (f_equal (drop (length x))) in E. by rewrite drop_app_length, drop_app_le in E by lia.
  - right. exists (drop (length h) x). split_and!.
    + intros N. apply (f_equal length) in N. rewrite length_drop in N. cbn in N. lia.
    + rewrite <- (take_drop (length h) x) at 1. f_equal.
      apply (f_equal (take (length h))) in E. by rewrite !take_app_le, (take_ge h) in E by lia.
    + apply (f_equal (drop (length h))) in E. by rewrite drop_app_length, drop_app_le in E by lia.
Qed.

Section Piece.
Context (base : Z) (d : bytes).
Local Abbreviation len := (length d).

Lemma body_eff q o l m :
  0 <= m_post_data_len m -> (0 < l)%nat -> m_post_data_len m + Z.of_nat l < 4294967296 ->
  data_eff (settings base) d M_body q o l (Ok m) =
  Ok (took (Z.of_nat l) (base + Z.of_nat (o + l)) m).
Proof.
  intros H0 Hl Hb. unfold data_eff, took. cbn. rewrite (proj2 (Z.eqb_neq _ _)), u32_small by lia.
  do 2 f_equal. f_equal. lia.
Qed.

(** The rest of a piece from a place after the URL: it ends in the head, in the
    body, or with the message. *)
Lemma piece_rest mth p pos ms m r head body fuel :
  bytes_ok d -> head_ok d (mk_env p pos ms (Ok m)) -> unmarked ms -> (pos <= len)%nat ->
  drop pos d ++ r = head ++ body -> body <> [] -> before mth head body p ->
  0 <= m_post_data_len m -> m_post_data_len m + Z.of_nat (length body) < 4294967296 ->
  (len - pos <= fuel)%nat ->
  (exists p' head' body', exec_loop (settings base) d fuel (mk_env p pos ms (Ok m)) =
      Ok (len, p', Ok (took (Z.of_nat (length body) - Z.of_nat (length body'))
        (base + Z.of_nat len) m)) /\
    r = head' ++ body' /\ body' <> [] /\ before mth head' body' p' /\
    mark_of (hp_state p') <> Some M_url /\ hp_errno p' = HPE_OK /\
    (length body' <= length body)%nat) \/
  (exists p', r = [] /\ exec_loop (settings base) d fuel (mk_env p pos ms (Ok m)) =
      Ok (len, p', Ok (completed mth (took (Z.of_nat (length body)) (base + Z.of_nat len) m)))).
Proof.
  intros B Hh Un L D Hb (q & R & p0 & h & i & n & Hq & Pr & Em) H0 Hlt Lf.
  pose proof (settings_headerless base) as Hs.
  destruct (app_cut _ _ _ _ D) as [(h' & -> & Hr)|(b' & Nb & Dx & Db)].
  - left. destruct (run_split _ _ _ _ R) as (p1 & R1 & R2).
    destruct (quiet_run (settings base) Hs d (drop pos d) [] p pos ms (Ok m) p1 B
      ltac:(by rewrite app_nil_r) Hh Un R1) as (ms' & [Hh' Rc] & Un').
    destruct (Rc fuel Lf) as (f' & -> & _). rewrite length_drop in *.
    replace (pos + (len - pos))%nat with len in * by lia.
    exists p1, h', body. rewrite loop_end_quiet by done. rewrite Z.sub_diag.
    split_and!; [done | done | done | | | apply Hh' | lia].
    + exists q. split; [done |]. by exists p0, h, i, n.
    + intros Hm. destruct Hh' as (_ & _ & _ & M). destruct (mo_set _ _ _ _ M _ Hm) as [o Ho].
      destruct Un'. cbn in Ho. cbn in *. congruence.
  - assert (Lr : length (drop pos d) = (length head + length b')%nat) by (by rewrite Dx, length_app).
    rewrite length_drop in Lr. assert (0 < length b')%nat by (destruct b'; [done | cbn; lia]).
    destruct (quiet_run (settings base) Hs d head b' p pos ms (Ok m) q B Dx Hh Un R)
      as (ms' & [Hh' Rc] & Un').
    destruct (Rc fuel Lf) as (f' & -> & Lf'). cbn [e_p] in Lf'. subst q body.
    rewrite length_app in *. destruct r as [|r0 r].
    + right. rewrite app_nil_r in *. rewrite Nat.add_0_r in *. eexists. split; [done |].
      rewrite (body_last (settings base) Hs d p0 (Z.of_nat (length b')))
        by (first [done | unfold ULLONG_MAX; lia]).
      rewrite body_eff by lia. cbn [notify_eff on_notify settings on_message_complete].
      replace (len - (pos + length head))%nat with (length b') by lia.
      replace (pos + length head + length b')%nat with len by lia.
      rewrite <- Em. reflexivity.
    + left. set (r' := r0 :: r) in *. assert (0 < length r')%nat by (cbn; lia).
      assert (Nr : r' <> []) by done. clearbody r'. eexists _, [], r'.
      rewrite (body_rest (settings base) Hs d p0 (Z.of_nat (length b' + length r')))
        by (first [done | unfold ULLONG_MAX; lia]).
      rewrite body_eff by lia.
      replace (len - (pos + length head))%nat with (length b') in * by lia.
      replace (pos + length head + length b')%nat with len by lia.
      replace (Z.of_nat (length b' + length r') - Z.of_nat (length r')) with (Z.of_nat (length b')) by lia.
      split_and!; [reflexivity | done | done | | done | apply Hh' | lia].
      eexists. split; [reflexivity |]. exists p0, h, i, n. split; [| done]. do 2 f_equal. lia.
Qed.
End Piece.

(** ** Later pieces *)

(** a connection that waits for [head ++ body], with [k] bytes of the body
    received *)
Record uploading (mth : http_method) (head body : bytes) (k : Z) (uri : bytes) c : Prop := {
  up_parser : parser_ok (c_parser c);
  up_errno : hp_errno (c_parser c) = HPE_OK;
  up_before : before mth head body (c_parser c);
  up_mark : mark_of (hp_state (c_parser c)) <> Some M_url;
  up_body : body <> [];
  up_uri : m_request_uri (c_message c) = uri;
  up_count : m_post_data_len (c_message c) = k;
  up_status : m_status (c_message c) = PARTIAL;
}.

(** the message of a complete upload whose body ends at [e] *)
Definition uploaded (mth : http_method) (uri : bytes) (e k : Z) m : Prop :=
  m = mk_message (method_num mth) uri (Some e) k SUCCESS.

Definition extends c d c' : Prop := c_buf c' = c_buf c ++ d /\ c_buflen c' = c_buflen c.

Lemma entry_unmarked s : mark_of s <> Some M_url -> unmarked (entry_marks s).
Proof. by destruct s. Qed.

Lemma took_fields k e m :
  m_request_uri (took k e m) = m_request_uri m /\ m_post_data_len (took k e m) = m_post_data_len m + k /\
  m_status (took k e m) = m_status m.
Proof. unfold took. destruct (k =? 0) eqn:E; breflect; cbn; [| done]. split_and!; auto; lia. Qed.

(** What a piece does, from what its call of the parser does. *)
Lemma receive_outcome mth d c x r (body : bytes) uri k :
  bytes_ok d -> d <> [] -> parser_ok (c_parser c) -> hp_errno (c_parser c) = HPE_OK ->
  http_parser_execute (settings (Z.of_nat (length (c_buf c)))) d (c_parser c) (Ok (c_message c)) = x ->
  forall m, m_request_uri m = uri -> m_post_data_len m = k -> m_status m = PARTIAL -> body <> [] ->
  ((exists p' head' body', x =
      Ok (length d, p', Ok (took (Z.of_nat (length body) - Z.of_nat (length body'))
        (Z.of_nat (length (c_buf c)) + Z.of_nat (length d)) m)) /\
    r = head' ++ body' /\ body' <> [] /\ before mth head' body' p' /\
    mark_of (hp_state p') <> Some M_url /\ hp_errno p' = HPE_OK /\
    (length body' <= length body)%nat) \/
   (exists p', r = [] /\ x = Ok (length d, p', Ok (completed mth (took (Z.of_nat (length body))
      (Z.of_nat (length (c_buf c)) + Z.of_nat (length d)) m))))) ->
  exists c', receive d c = Ok c' /\ extends c d c' /\
   ((exists head' body', r = head' ++ body' /\
      uploading mth head' body' (k + Z.of_nat (length body) - Z.of_nat (length body')) uri c' /\
      (length body' <= length body)%nat) \/
    (r = [] /\ uploaded mth uri (Z.of_nat (length (c_buf c'))) (k + Z.of_nat (length body)) (c_message c'))).
Proof.
  intros B Hd Hp E Ex m Hu Hk Hs Hb [(p' & h' & b' & Hr & -> & Nb & Hbf & Hm & E' & L)|(p' & -> & Hr)].
  - assert (Hp' : parser_ok p').
    { destruct (execute_ok (settings (Z.of_nat (length (c_buf c)))) d (c_parser c) (Ok (c_message c))
        (passive_ok _ (settings_passive _)) B Hp) as (n & q & v & Ex' & _ & Hq).
      rewrite Ex, Hr in Ex'. injection Ex' as <- <- <-. auto. }
    unfold receive. rewrite Ex, Hr. cbn [mbind result_bind]. eexists. split; [done |]. split; [done |].
    left. exists h', b'. split; [done |]. split; [| done].
    destruct (took_fields (Z.of_nat (length body) - Z.of_nat (length b'))
      (Z.of_nat (length (c_buf c)) + Z.of_nat (length d)) m) as (T1 & T2 & T3).
    split; cbn [c_parser c_message]; auto; rewrite ?T1, ?T2, ?T3; auto; lia.
  - unfold receive. rewrite Ex, Hr. cbn [mbind result_bind]. eexists. split; [done |]. split; [done |].
    right. split; [done |]. unfold uploaded, completed, took. cbn [c_message c_buf].
    rewrite (proj2 (Z.eqb_neq _ _)) by (destruct body; [done | cbn; lia]).
    cbn. rewrite Hu, Hk, length_app. do 2 f_equal. lia.
Qed.

Lemma receive_rest mth d c r head body k uri :
  bytes_ok d -> d <> [] -> uploading mth head body k uri c -> d ++ r = head ++ body ->
  0 <= k -> k + Z.of_nat (length body) < 4294967296 ->
  exists c', receive d c = Ok c' /\ extends c d c' /\
   ((exists head' body', r = head' ++ body' /\
      uploading mth head' body' (k + Z.of_nat (length body) - Z.of_nat (length body')) uri c' /\
      (length body' <= length body)%nat) \/
    (r = [] /\ uploaded mth uri (Z.of_nat (length (c_buf c'))) (k + Z.of_nat (length body)) (c_message c'))).
Proof.
  intros B Hd [Hp E Hbf Hm Hb Hu Hk Hs] D K0 K1.
  refine (receive_outcome mth d c _ r body uri k B Hd Hp E eq_refl (c_message c) Hu Hk Hs Hb _).
  rewrite execute_split by done. rewrite (proj2 (Nat.eqb_neq _ _)) by (by destruct d).
  subst k. apply (piece_rest _ d mth _ 0 _ _ r head body); auto; try lia.
  - split_and!; auto using entry_marks_ok; apply Hp.
  - by apply entry_unmarked.
Qed.

(** the buffer after a growth that succeeds *)
Definition grown (c : connection) : connection :=
  if Z.of_nat (length (c_buf c)) =? c_buflen c
  then mk_connection (c_parser c) (c_buf c) (c_buflen c + SERVER_BUFSTEP)
         (set_post_data None (c_message c))
  else c.

Lemma grow_uploading mth head body k uri c :
  uploading mth head body k uri c -> uploading mth head body k uri (grown c).
Proof. intros []. unfold grown. case_match; by split. Qed.

(** realloc succeeds as long as the size is an int *)
Class Memory : Prop := realloc_succeeds : forall n w, 0 < n <= INT_MAX -> realloc n w = true.
Context `{Memory}.

(** ** Arrival *)

(** the pieces recv returns when it has room for them *)
Inductive arrives (s : Z) : list bytes -> world -> world -> Prop :=
  | arrives_nil w : arrives s [] w w
  | arrives_cons d ds w w1 w2 :
      (forall room, Z.of_nat (length d) <= room -> recv s room w = (d, w1)) ->
      arrives s ds w1 w2 -> arrives s (d :: ds) w w2.

(** each piece fits into the buffer as it is when the piece arrives, and the
    length of the buffer stays an int *)
Fixpoint fits (datasize buflen : Z) (ds : list bytes) : Prop :=
  match ds with
  | [] => True
  | d :: ds =>
    let buflen := if datasize =? buflen then buflen + SERVER_BUFSTEP else buflen in
    (d <> [] /\ buflen <= INT_MAX) /\ Z.of_nat (length d) <= buflen - datasize /\
    fits (datasize + Z.of_nat (length d)) buflen ds
  end.

Lemma grow_fields c :
  c_buf (grown c) = c_buf c /\
  c_buflen (grown c) = (if Z.of_nat (length (c_buf c)) =? c_buflen c
                       then c_buflen c + SERVER_BUFSTEP else c_buflen c).
Proof. unfold grown. by case_match. Qed.

Lemma recv_loop_step fuel s c w w1 d :
  (forall room, Z.of_nat (length d) <= room -> recv s room w = (d, w1)) ->
  d <> [] /\ c_buflen (grown c) <= INT_MAX ->
  Z.of_nat (length d) <= c_buflen (grown c) - Z.of_nat (length (c_buf (grown c))) ->
  recv_loop (S fuel) s c w =
  (c' ← receive d (grown c);
   match m_status (c_message c') with
   | PARTIAL => recv_loop fuel s c' w1
   | SUCCESS => Ok (c', w1)
   end).
Proof.
  intros R [Hd Hi] Hf. cbn [recv_loop].
  assert (grow w c = Ok (grown c)) as ->.
  { unfold grow, grown in *. destruct (_ =? c_buflen c) eqn:E; [| done]. cbn [c_buflen] in Hi.
    breflect. rewrite (proj2 (Z.ltb_ge _ _)) by done. rewrite realloc_succeeds; [done |].
    unfold SERVER_BUFSTEP, INT_MAX in *. lia. }
  cbn [mbind result_bind]. rewrite R by done. destruct d; [done | reflexivity].
Qed.

Lemma recv_loop_upload mth fuel s c w w' ds head body k uri :
  arrives s ds w w' -> uploading mth head body k uri c -> concat ds = head ++ body ->
  Forall bytes_ok ds -> fits (Z.of_nat (length (c_buf c))) (c_buflen c) ds -> (length ds <= fuel)%nat ->
  0 <= k -> k + Z.of_nat (length body) < 4294967296 ->
  exists c', recv_loop fuel s c w = Ok (c', w') /\ c_buf c' = c_buf c ++ concat ds /\
    uploaded mth uri (Z.of_nat (length (c_buf c'))) (k + Z.of_nat (length body)) (c_message c').
Proof.
  intros A. revert fuel c head body k. induction A as [|d ds w w1 w2 R A IH];
    intros fuel c head body k Hc D B Fi L K0 K1.
  { destruct (up_body _ _ _ _ _ _ Hc). cbn in D. symmetry in D. by apply app_eq_nil in D as [_ ->]. }
  cbn [fits concat length] in *. destruct Fi as (Nd & Fd & Fi). apply list.Forall_cons in B as [Bd B].
  destruct fuel as [|fuel]; [lia |]. destruct (grow_fields c) as [G1 G2].
  rewrite (recv_loop_step fuel s c w w1 d R) by (rewrite ?G1, G2; done || lia). destruct Nd as [Nd _].
  destruct (receive_rest mth d (grown c) (concat ds) head body k uri Bd Nd
    (grow_uploading _ _ _ _ _ _ Hc) D K0 K1) as (c' & -> & [X1 X2] & [(h' & b' & Hr & Hc' & Lb)|[Hr Hu]]);
    cbn [mbind result_bind].
  - rewrite (up_status _ _ _ _ _ _ Hc').
    destruct (IH fuel c' h' b' _ Hc' Hr B) as (c2 & -> & Bf & U2).
    + rewrite X1, X2, G1, G2, length_app, Nat2Z.inj_add. done.
    + lia.
    + lia.
    + lia.
    + exists c2. split; [done |]. split; [by rewrite Bf, X1, G1, app_assoc |].
      replace (k + Z.of_nat (length body)) with
        (k + Z.of_nat (length body) - Z.of_nat (length b') + Z.of_nat (length b')) by lia. done.
  - assert (ds = []) as ->.
    { destruct ds as [|d2 ds]; [done |]. cbn in Fi. destruct Fi as ([N2 _] & _). cbn in Hr.
      by apply app_eq_nil in Hr as [-> _]. }
    inversion A; subst. rewrite (f_equal m_status Hu). cbn [m_status].
    exists c'. split; [done |]. split; [| done]. cbn. by rewrite X1, G1, app_nil_r.
Qed.

(** ** The head of a request *)

Definition request_line (mth : http_method) (url : bytes) : bytes :=
  method_strings mth ++ bs " " ++ url ++ bs " ".

Definition rest_head (hs : list (bytes * bytes)) (body : bytes) : bytes :=
  bs "HTTP/1.1" ++ [CR; LF] ++ header_lines hs ++ length_line (Z.of_nat (length body)) ++ [CR; LF].

Lemma encode_request_parts mth url hs body :
  encode_request mth url hs body = request_line mth url ++ rest_head hs body ++ body.
Proof.
  unfold encode_request, request_line, rest_head.
  change (bs " HTTP/1.1") with (bs " " ++ bs "HTTP/1.1"). by rewrite <- !app_assoc.
Qed.

Lemma report_headers_quiet hs : report_headers hs false = false.
Proof. induction hs as [|hd hs IH]; [done | exact IH]. Qed.

Lemma run_http p h i n :
  0 <= n -> n + 10 <= HTTP_MAX_HEADER_SIZE ->
  run (bs "HTTP/1.1" ++ [CR; LF]) (at_state p s_req_http_start h i n) false =
  Some (at_state (p |> set_major 1 |> set_minor 1) s_header_field_start h i (n + 10), false).
Proof.
  intros Hn HL. unfold HTTP_MAX_HEADER_SIZE in HL. destruct p. strings. cbn [app].
  run_known; do 2 f_equal; unfold at_state; cbn; f_equal; lia.
Qed.

Lemma before_rest mth hs body p h i n :
  Forall header_ok hs -> body <> [] -> Z.of_nat (length body) < ULLONG_MAX ->
  hp_type p = HTTP_REQUEST -> hp_flags p = 0 -> hp_method p = mth -> mth <> HTTP_CONNECT ->
  0 <= n -> n + Z.of_nat (length (rest_head hs body)) <= HTTP_MAX_HEADER_SIZE ->
  before mth (rest_head hs body) body (at_state p s_req_http_start h i n).
Proof.
  intros Hh Hb HB Ht Hf Hm Nc Hn HL. unfold before, rest_head in *. rewrite !length_app in HL.
  change (length (bs "HTTP/1.1")) with 8%nat in HL. change (length [CR; LF]) with 2%nat in HL.
  rewrite (app_assoc (bs "HTTP/1.1")), run_app, run_http by lia. rewrite run_app.
  set (p1 := p |> set_major 1 |> set_minor 1).
  destruct (run_headers hs p1 s_header_field_start h i (n + 10) false)
    as (s' & h' & i' & -> & Hs'); [done | done | lia | lia |].
  rewrite report_headers_quiet, run_app, run_length_line by (first [done | lia]).
  assert (Pr : plain_request p1) by (constructor; try done; by rewrite <- Hm in Nc).
  assert (Bz : (Z.of_nat (length body) =? 0) = false) by (destruct body; [done | by cbn]).
  rewrite run_headers_end by (first [done | lia]). rewrite Bz.
  eexists. split; [done |]. exists (set_upgrade false p1). eexists _, _, _. split; [done |].
  split; [by constructor; destruct Pr | done].
Qed.

(** ** The URL *)

Lemma parse_url_nul s : parse_url_char s 0 = s_dead.
Proof. by destruct s. Qed.

Lemma url_c_str s url : foldl parse_url_char s url <> s_dead -> c_str url = url.
Proof.
  revert s. induction url as [|b url IH]; intros s D; [done |]. cbn in *.
  destruct (b =? 0) eqn:Z; breflect; [subst b; by rewrite parse_url_nul, parse_url_dead in D |].
  f_equal. by eapply IH.
Qed.

Definition set_uri (uri : bytes) m : http_message :=
  mk_message (m_method m) uri (m_post_data m) (m_post_data_len m) (m_status m).

Lemma uri_eff base d q o l m url uri s0 :
  take l (drop o d) = url -> foldl parse_url_char s0 url <> s_dead ->
  Z.of_nat (length url) < MAX_URI_SIZE -> InternetCanonicalizeUrlA url = Some uri ->
  data_eff (settings base) d M_url q o l (Ok m) = Ok (set_uri uri m).
Proof.
  intros T D L C. unfold data_eff. cbn. rewrite T. unfold strncpy_s.
  rewrite (url_c_str s0) by done. rewrite (proj2 (Z.ltb_lt _ _)) by done. cbn. by rewrite C.
Qed.

(** the rest [b] of a URL and the blank that ends it *)
Lemma url_tail base d b r p s0 h i n pos ms u o :
  bytes_ok d -> drop pos d = b ++ chr " " :: r -> mark_of s0 = Some M_url ->
  url_ends (foldl parse_url_char s0 b) = true -> get_mark ms M_url = Some o ->
  hp_errno p = HPE_OK -> 0 <= n -> n + Z.of_nat (length b) + 1 <= HTTP_MAX_HEADER_SIZE ->
  head_ok d (mk_env (at_state p s0 h i n) pos ms u) ->
  reaches (settings base) d (mk_env (at_state p s0 h i n) pos ms u)
    (let q := at_state p s_req_http_start h i (n + Z.of_nat (length b) + 1) in
     mk_env q (pos + length b + 1) (put_mark M_url None ms)
       (data_eff (settings base) d M_url q o (pos + length b - o) u)).
Proof.
  intros B D Hm He Ho E Hn HL Hh. pose proof (settings_headerless base) as Hs.
  assert (Nd : foldl parse_url_char s0 b <> s_dead) by (by destruct (foldl parse_url_char s0 b)).
  pose proof (url_run (settings base) Hs d b _ p s0 h i n pos ms u B D Hm Nd Hn ltac:(lia) Hh) as R.
  eapply reaches_trans; [exact R |].
  assert (Hb : d !! (pos + length b)%nat = Some (chr " ")).
  { rewrite <- lookup_drop, D, lookup_app_r, Nat.sub_diag by lia. done. }
  apply (reaches_byte (settings base) Hs d (chr " ") _
    (mk_env _ (pos + length b) (put_mark M_url None ms) _) B (proj1 R) Hb).
  apply (url_end (settings base) Hs d p _ h i _ _ ms u o); auto; lia.
Qed.

(** ** The first piece *)

(** the method and the start of a URL *)
Lemma url_begin base d mth a y u (l := (length (method_strings mth) + 1)%nat) :
  bytes_ok d -> d = (method_strings mth ++ bs " ") ++ a ++ y -> mth <> HTTP_CONNECT -> a <> [] ->
  url_state a <> s_dead -> Z.of_nat (l + length a) <= HTTP_MAX_HEADER_SIZE ->
  exists h i ms,
    reaches (settings base) d (mk_env (http_parser_init HTTP_REQUEST) 0 no_marks u)
      (mk_env (at_state (with_method (http_parser_init HTTP_REQUEST) mth) (url_state a) h i
                 (Z.of_nat (l + length a)))
         (l + length a) (put_mark M_url (Some l) ms) u) /\
    unmarked ms.
Proof.
  intros B D0 Nc Na Nd HL. pose proof (settings_headerless base) as Hs.
  assert (Hh : head_ok d (mk_env (http_parser_init HTTP_REQUEST) 0 no_marks u)).
  { pose proof (entry_head_ok d (http_parser_init HTTP_REQUEST) tt (init_ok _) eq_refl) as (F & S & E & M).
    split_and!; [exact F | exact S | exact E | exact M]. }
  pose proof (run_method mth (http_parser_init HTTP_REQUEST) h_general 0 0 false Nc
    ltac:(lia) ltac:(by vm_compute)) as Rm. cbn [on_event loud_collector] in Rm.
  set (i := Z.of_nat (length (method_strings mth)) + 1) in Rm.
  destruct (quiet_run (settings base) Hs d _ _ _ 0 no_marks u _ B D0 Hh (conj eq_refl eq_refl) Rm)
    as (ms & R1 & [U1 U2]).
  rewrite length_app in R1. change (length (bs " ")) with 1%nat in R1. fold l in R1.
  cbn [Nat.add] in R1. destruct a as [|c a]; [done |].
  assert (D1 : drop l d = c :: a ++ y).
  { rewrite D0. apply drop_app_length'. by rewrite length_app. }
  unfold url_state in Nd. cbn [foldl length] in *.
  assert (Hc : parse_url_char s_req_spaces_before_url c <> s_dead)
    by (intros Ed; by rewrite Ed, parse_url_dead in Nd).
  set (p := with_method (http_parser_init HTTP_REQUEST) mth) in *.
  assert (R2 := url_first_byte (settings base) d c p h_general i
    (0 + Z.of_nat (length (method_strings mth)) + 1) l ms u Hc Nc ltac:(lia) U1).
  destruct (lookup_of_drop d l c (a ++ y) D1) as [Hl D2].
  pose proof (reaches_byte (settings base) Hs d c _ _ B (proj1 R1) Hl R2) as R2'.
  unfold next_byte in R2'. cbn [e_parser e_p e_marks e_user] in R2'.
  pose proof (url_run (settings base) Hs d a y p _ h_general i
    (0 + Z.of_nat (length (method_strings mth)) + 1 + 1) (l + 1) (put_mark M_url (Some l) ms) u B D2
    ltac:(by destruct (parse_url_char_cases s_req_spaces_before_url c)) Nd
    ltac:(lia) ltac:(lia) (proj1 R2')) as R3.
  exists h_general, i, ms. split; [| done].
  replace (l + S (length a))%nat with (l + 1 + length a)%nat by lia.
  replace (Z.of_nat (l + 1 + length a)) with
    (0 + Z.of_nat (length (method_strings mth)) + 1 + 1 + Z.of_nat (length a)) by lia.
  exact (reaches_trans _ _ _ _ _ R1 (reaches_trans _ _ _ _ _ R2' R3)).
Qed.

Lemma line_run base d mth url x u :
  bytes_ok d -> d = request_line mth url ++ x -> mth <> HTTP_CONNECT -> url <> [] ->
  url_ends (url_state url) = true ->
  Z.of_nat (length (request_line mth url)) <= HTTP_MAX_HEADER_SIZE ->
  let p := with_method (http_parser_init HTTP_REQUEST) mth in
  let k := Z.of_nat (length (request_line mth url)) in
  let l := (length (method_strings mth) + 1)%nat in
  exists h i ms,
    let q := at_state p s_req_http_start h i k in
    reaches (settings base) d (mk_env (http_parser_init HTTP_REQUEST) 0 no_marks u)
      (mk_env q (length (request_line mth url)) ms
         (data_eff (settings base) d M_url q l (length url) u)) /\
    unmarked ms.
Proof.
  intros B D Nc Nu He HL p k l. subst k.
  assert (Ll : length (request_line mth url) = (l + length url + 1)%nat).
  { unfold request_line, l. rewrite !length_app. change (length (bs " ")) with 1%nat. lia. }
  rewrite Ll in *.
  assert (Nd : url_state url <> s_dead) by (intros Ed; by rewrite Ed in He).
  assert (D' : d = (method_strings mth ++ bs " ") ++ url ++ chr " " :: x).
  { rewrite D. unfold request_line. by rewrite <- !app_assoc. }
  destruct (url_begin base d mth url (chr " " :: x) u B D' Nc Nu Nd ltac:(lia))
    as (h & i & ms & R & [U1 U2]). fold l in R. fold p in R.
  assert (D2 : drop (l + length url) d = [] ++ chr " " :: x).
  { rewrite D', app_assoc. apply drop_app_length'. rewrite !length_app. done. }
  pose proof (url_tail base d [] x p (url_state url) h i (Z.of_nat (l + length url)) (l + length url)
    (put_mark M_url (Some l) ms) u l B D2
    ltac:(by destruct (url_state url)) He eq_refl eq_refl ltac:(lia) ltac:(cbn; lia) (proj1 R)) as R2.
  exists h, i, (put_mark M_url None (put_mark M_url (Some l) ms)).
  split; [| by split]. cbv zeta in *. cbn [length] in R2. rewrite Nat.add_0_r, Z.add_0_r in R2.
  replace (l + length url - l)%nat with (length url) in R2 by lia.
  replace (Z.of_nat (l + length url + 1)) with (Z.of_nat (l + length url) + 1) by lia.
  exact (reaches_trans _ _ _ _ _ R R2).
Qed.

(** what makes a request one this file speaks about *)
Record upload_request (mth : http_method) (url : bytes) (hs : list (bytes * bytes)) (body uri : bytes)
  : Prop := {
  ur_request : request_ok mth url hs body;
  ur_body : body <> [];
  ur_size : Z.of_nat (length body) < 4294967296;
  ur_head : Z.of_nat (length (request_line mth url)) + Z.of_nat (length (rest_head hs body)) <=
    HTTP_MAX_HEADER_SIZE;
  ur_url : Z.of_nat (length url) < MAX_URI_SIZE;
  ur_uri : InternetCanonicalizeUrlA url = Some uri;
}.

Lemma receive_first mth url hs body x r uri (d := request_line mth url ++ x) :
  upload_request mth url hs body uri -> bytes_ok d -> x ++ r = rest_head hs body ++ body ->
  exists c', receive d new_connection = Ok c' /\ extends new_connection d c' /\
   ((exists head' body', r = head' ++ body' /\
      uploading mth head' body' (0 + Z.of_nat (length body) - Z.of_nat (length body')) uri c' /\
      (length body' <= length body)%nat) \/
    (r = [] /\ uploaded mth uri (Z.of_nat (length (c_buf c'))) (0 + Z.of_nat (length body)) (c_message c'))).
Proof.
  intros [(Nc & Nu & He & Hh & _) Hb Hs HL Hu Hc] B D.
  assert (Nd : d <> []) by (unfold d, request_line; by destruct mth).
  set (m := set_uri uri (c_message new_connection)).
  refine (receive_outcome mth d new_connection _ r body uri 0 B Nd (init_ok _) eq_refl eq_refl m
    eq_refl eq_refl eq_refl Hb _).
  rewrite execute_split by done. rewrite (proj2 (Nat.eqb_neq _ _)) by (by destruct d).
  destruct (line_run (Z.of_nat (length (c_buf new_connection))) d mth url x
    (Ok (c_message new_connection)) B eq_refl Nc Nu He ltac:(lia)) as (h & i & ms & [Hd Rc] & Un).
  destruct (Rc (length d) ltac:(cbn; lia)) as (f & Ex & Lf). cbn [e_p] in Lf.
  change (entry_marks (hp_state (c_parser new_connection))) with no_marks.
  change (c_parser new_connection) with (http_parser_init HTTP_REQUEST). rewrite Ex.
  set (k := length (request_line mth url)) in *.
  assert (Nd' : foldl parse_url_char s_req_spaces_before_url url <> s_dead)
    by (unfold url_state in He; intros E; by rewrite E in He).
  assert (Ue : forall q, data_eff (settings (Z.of_nat (length (c_buf new_connection)))) d M_url q
    (length (method_strings mth) + 1) (length url) (Ok (c_message new_connection)) = Ok m).
  { intros q. apply (uri_eff _ _ _ _ _ _ url uri s_req_spaces_before_url); try done.
    unfold d, request_line. rewrite (app_assoc (method_strings mth)), <- app_assoc.
    rewrite drop_app_length' by (rewrite length_app; change (length (bs " ")) with 1%nat; lia).
    rewrite <- app_assoc. apply take_app_length. }
  clear Rc Ex. rewrite Ue in Hd |- *.
  apply (piece_rest _ d mth _ k ms m r (rest_head hs body) body); auto; try done.
  - unfold d. rewrite length_app. lia.
  - unfold d, k. by rewrite drop_app_length.
  - apply before_rest; auto; try done; try lia. unfold ULLONG_MAX. lia.
Qed.

(** The receive loop takes in a whole request, in pieces of which the first
    holds at least the method and the URL. *)
Lemma recv_loop_request mth url hs body uri x ds fuel s w w' :
  upload_request mth url hs body uri ->
  arrives s ((request_line mth url ++ x) :: ds) w w' ->
  x ++ concat ds = rest_head hs body ++ body ->
  Forall bytes_ok ((request_line mth url ++ x) :: ds) ->
  fits 0 SERVER_BUFLEN ((request_line mth url ++ x) :: ds) -> (length ds < fuel)%nat ->
  exists c, recv_loop fuel s new_connection w = Ok (c, w') /\
    c_buf c = encode_request mth url hs body /\
    uploaded mth uri (Z.of_nat (length (c_buf c))) (Z.of_nat (length body)) (c_message c).
Proof.
  intros Hr A D B Fi L. set (d := request_line mth url ++ x) in *.
  inversion A as [|? ? ? w1 ? R A']; subst. destruct Fi as (Nd & Fd & Fi).
  change (0 =? SERVER_BUFLEN) with false in *. cbv iota in *.
  apply list.Forall_cons in B as [Bd B]. destruct fuel as [|fuel]; [lia |].
  assert (G : grown new_connection = new_connection) by done.
  rewrite (recv_loop_step fuel s new_connection w w1 d R) by (rewrite G; done || (cbn; lia)). rewrite G. destruct Nd as [Nd _].
  assert (Bu : d ++ concat ds = encode_request mth url hs body).
  { unfold d. by rewrite <- app_assoc, D, encode_request_parts. }
  destruct (receive_first mth url hs body x (concat ds) uri Hr Bd D)
    as (c' & Rc & [X1 X2] & [(h' & b' & Hh & Hc' & Lb)|[Hn Hu]]); fold d in Rc, X1; rewrite Rc;
    cbn [mbind result_bind].
  - rewrite (up_status _ _ _ _ _ _ Hc'). pose proof (ur_size _ _ _ _ _ Hr).
    destruct (recv_loop_upload mth fuel s c' w1 w' ds h' b' _ uri A' Hc' Hh B) as (c2 & Rl & Bf & U2).
    + rewrite X1, X2. exact Fi.
    + lia.
    + lia.
    + lia.
    + exists c2. split; [done |]. rewrite Bf, X1 in *. split; [exact Bu |].
      replace (Z.of_nat (length body)) with
        (0 + Z.of_nat (length body) - Z.of_nat (length b') + Z.of_nat (length b')) by lia. done.
  - assert (ds = []) as ->.
    { destruct ds as [|d2 ds]; [done |]. cbn in Fi. destruct Fi as ([N2 _] & _). cbn in Hn.
      by apply app_eq_nil in Hn as [-> _]. }
    inversion A'; subst. rewrite (f_equal m_status Hu). cbn [m_status].
    exists c'. split; [done |]. rewrite X1 in *. by rewrite app_nil_r in Bu.
Qed.

(** ** A URL in two pieces *)

Lemma entry_url_mark s : mark_of s = Some M_url -> entry_marks s = put_mark M_url (Some 0%nat) no_marks.
Proof. by destruct s. Qed.

Lemma url_state_mark a : a <> [] -> url_state a <> s_dead -> mark_of (url_state a) = Some M_url.
Proof.
  destruct a as [|c a] using rev_ind; [done |]. intros _. unfold url_state.
  rewrite foldl_app. cbn. intros N. by destruct (parse_url_char_cases (foldl parse_url_char s_req_spaces_before_url a) c).
Qed.

(** the method and the start of the URL *)
Lemma receive_cut mth a ua (d := (method_strings mth ++ bs " ") ++ a) :
  bytes_ok d -> mth <> HTTP_CONNECT -> a <> [] -> url_state a <> s_dead ->
  Z.of_nat (length d) <= HTTP_MAX_HEADER_SIZE -> Z.of_nat (length a) < MAX_URI_SIZE ->
  InternetCanonicalizeUrlA a = Some ua ->
  exists h i,
    receive d new_connection =
    Ok (mk_connection (at_state (with_method (http_parser_init HTTP_REQUEST) mth) (url_state a) h i
          (Z.of_nat (length d))) d SERVER_BUFLEN (set_uri ua (c_message new_connection))).
Proof.
  intros B Nc Na Nd HL Hu Hc. set (l := (length (method_strings mth) + 1)%nat).
  assert (Ld : length d = (l + length a)%nat).
  { unfold d, l. rewrite !length_app. change (length (bs " ")) with 1%nat. lia. }
  assert (D : d = (method_strings mth ++ bs " ") ++ a ++ []) by (by rewrite app_nil_r).
  destruct (url_begin 0 d mth a [] (Ok (c_message new_connection)) B D Nc Na Nd)
    as (h & i & ms & [Hh R] & [U1 U2]); [fold l; lia |]. fold l in Hh, R.
  exists h, i. unfold receive. change (Z.of_nat (length (c_buf new_connection))) with 0.
  rewrite execute_split by done.
  rewrite (proj2 (Nat.eqb_neq _ _)) by (rewrite Ld; unfold l; lia).
  destruct (R (length d) ltac:(cbn; lia)) as (f & Ex & _).
  change (entry_marks (hp_state (c_parser new_connection))) with no_marks.
  change (c_parser new_connection) with (http_parser_init HTTP_REQUEST). rewrite Ex. clear Ex R.
  rewrite <- Ld in *. rewrite (loop_end_passive (settings 0) (settings_headerless 0)) by done.
  unfold left_eff. cbn [get_mark put_mark body_mark url_mark]. cbn [get_mark body_mark] in U2. rewrite U2.
  rewrite (uri_eff 0 d _ _ _ _ a ua s_req_spaces_before_url) by
    (first [done | rewrite Ld; unfold d; rewrite drop_app_length', take_ge by
       (rewrite ?length_app; unfold l; change (length (bs " ")) with 1%nat; lia); done]).
  done.
Qed.

(** the rest of the URL and of the request *)
Lemma receive_after_cut mth a b hs body ub c p h i ua
  (d := b ++ chr " " :: rest_head hs body ++ body)
  (k := Z.of_nat (length (method_strings mth ++ bs " " ++ a))) :
  request_ok mth (a ++ b) hs body -> body <> [] -> Z.of_nat (length body) < 4294967296 -> a <> [] ->
  k + Z.of_nat (length b) + 1 + Z.of_nat (length (rest_head hs body)) <= HTTP_MAX_HEADER_SIZE ->
  Z.of_nat (length b) < MAX_URI_SIZE -> InternetCanonicalizeUrlA b = Some ub -> bytes_ok d ->
  c_parser c = at_state p (url_state a) h i k -> parser_ok (c_parser c) ->
  hp_type p = HTTP_REQUEST -> hp_flags p = 0 -> hp_method p = mth -> hp_errno p = HPE_OK ->
  c_message c = set_uri ua (c_message new_connection) ->
  exists c', receive d c = Ok c' /\ extends c d c' /\
    uploaded mth ub (Z.of_nat (length (c_buf c'))) (0 + Z.of_nat (length body)) (c_message c').
Proof.
  intros (Nc & _ & He & Hh & HB) Nb Hs Na HL Hu Hc B Hp Ok' Ht Hf Hm E Em.
  unfold url_state in He. rewrite foldl_app in He. fold (url_state a) in He.
  assert (Nd : foldl parse_url_char (url_state a) b <> s_dead) by (intros X; by rewrite X in He).
  assert (Ma : mark_of (url_state a) = Some M_url).
  { apply url_state_mark; [done |]. intros X. by rewrite X, parse_url_dead in Nd. }
  assert (Dn : d <> []) by (unfold d; by destruct b).
  assert (E' : hp_errno (c_parser c) = HPE_OK) by (by rewrite Hp).
  destruct (receive_outcome mth d c _ [] body ub 0 B Dn Ok' E' eq_refl
    (set_uri ub (c_message new_connection)) eq_refl eq_refl eq_refl Nb)
    as (c' & R & X & [(h' & b' & Hr & Hc' & _)|[_ Hd]]); [| | by exists c'].
  - set (base := Z.of_nat (length (c_buf c))). rewrite execute_split, Em by done.
    rewrite (proj2 (Nat.eqb_neq _ _)) by (by destruct d).
    assert (Hhd : head_ok d (mk_env (c_parser c) 0 (entry_marks (hp_state (c_parser c)))
      (Ok (set_uri ua (c_message new_connection)) : result http_message)))
      by (split_and!; auto using entry_marks_ok; apply Ok').
    rewrite Hp in *. cbn [hp_state at_state] in *. rewrite entry_url_mark in * by done.
    destruct (url_tail base d b (rest_head hs body ++ body) p (url_state a) h i k 0
      (put_mark M_url (Some 0%nat) no_marks) (Ok (set_uri ua (c_message new_connection))) 0 B eq_refl
      Ma He eq_refl E ltac:(lia) ltac:(lia) Hhd) as [Hh2 R2].
    destruct (R2 (length d) ltac:(cbn; lia)) as (f & -> & Lf). clear R2. cbv zeta in *.
    rewrite (uri_eff base d _ _ _ _ b ub (url_state a)) in Hh2 |- * by
      (first [done | cbn [drop Nat.add]; rewrite Nat.sub_0_r; unfold d; apply take_app_length]).
    cbn [Nat.add e_p] in Lf, Hh2 |- *.
    refine (piece_rest base d mth _ (length b + 1) (put_mark M_url None (put_mark M_url (Some 0%nat) no_marks))
      (set_uri ub (set_uri ua (c_message new_connection))) [] (rest_head hs body) body f B Hh2
      _ _ _ Nb _ _ _ Lf).
    + by split.
    + unfold d. rewrite length_app. cbn. lia.
    + rewrite app_nil_r. unfold d. rewrite <- drop_drop, drop_app_length. done.
    + apply before_rest; auto; try lia.
    + done.
    + done.
  - symmetry in Hr. apply app_eq_nil in Hr as [-> ->]. by destruct (up_body _ _ _ _ _ _ Hc').
Qed.

(** ** Serving an upload *)

Definition file_uri (app name : bytes) : bytes := URI_FILE ++ app ++ bs "/" ++ name.

Lemma split_file_uri app name : chr "/" ∉ app -> split_uri (file_uri app name) = Ok (app, name).
Proof.
  intros N. unfold split_uri, file_uri.
  change (drop 6 (URI_FILE ++ app ++ bs "/" ++ name)) with (app ++ chr "/" :: name).
  rewrite str_find_char by done. unfold str_substr, str_substr_from.
  assert (L : length (URI_FILE ++ app ++ bs "/" ++ name) = (6 + length app + 1 + length name)%nat).
  { rewrite !length_app. change (length URI_FILE) with 6%nat. change (length (bs "/")) with 1%nat. lia. }
  rewrite !(proj2 (Nat.ltb_ge _ _)) by (rewrite L; lia). cbn [mbind result_bind].
  do 2 f_equal.
  - change (drop 6 (URI_FILE ++ app ++ bs "/" ++ name)) with (app ++ bs "/" ++ name).
    by rewrite take_app_length.
  - rewrite <- !drop_drop. change (drop 6 (URI_FILE ++ app ++ bs "/" ++ name)) with (app ++ bs "/" ++ name).
    by rewrite drop_app_length.
Qed.

(** the answer of an upload that succeeds, and the event *)
Definition upload_world (onCMDEvent : bytes -> bytes -> world -> result world) (s : Z)
  (app name : bytes) (h : handle) (w : world) : result world :=
  let '(n, w) := send s (bs "HTTP/1.0 201 Created" ++ crlf2) w in
  let w := CloseHandle h w in
  w ← (if n >? 0 then onCMDEvent app name w else Ok w);
  Ok (finish s w).

Lemma rewind_uploaded mth uri e k m : 0 < k -> uploaded mth uri e k m ->
  rewind m = mk_message (method_num mth) uri (Some (e - k)) k SUCCESS.
Proof.
  intros Hk ->. unfold rewind, set_post_data. cbn. by rewrite (proj2 (Z.eqb_neq _ _)) by lia.
Qed.

Lemma read_body mth url hs body :
  read_buf (encode_request mth url hs body)
    (Z.of_nat (length (encode_request mth url hs body)) - Z.of_nat (length body))
    (Z.of_nat (length body)) = Ok body.
Proof.
  rewrite encode_request_parts, app_assoc, length_app. set (h := request_line mth url ++ _).
  unfold read_buf. rewrite length_app, !Nat2Z.inj_add.
  rewrite (proj2 (Z.leb_le 0 _)), (proj2 (Z.leb_le (_ + _) _)) by lia. cbn [andb].
  replace (Z.to_nat (Z.of_nat (length h) + Z.of_nat (length body) - Z.of_nat (length body)))
    with (length h) by lia.
  by rewrite Nat2Z.id, drop_app_length, take_ge.
Qed.

(** From the arrival of an upload to [recv_file]. *)
Lemma sockethandler_upload onCMDEvent url hs body app name x ds fuel entries s w w1 w2 :
  upload_request HTTP_POST url hs body (file_uri app name) -> chr "/" ∉ app ->
  TlsSetValue w = (true, w1) ->
  arrives s ((request_line HTTP_POST url ++ x) :: ds) w1 w2 ->
  x ++ concat ds = rest_head hs body ++ body ->
  Forall bytes_ok ((request_line HTTP_POST url ++ x) :: ds) ->
  fits 0 SERVER_BUFLEN ((request_line HTTP_POST url ++ x) :: ds) -> (length ds < fuel)%nat ->
  let buf := encode_request HTTP_POST url hs body in
  let k := Z.of_nat (length body) in
  0 < k /\ read_buf buf (Z.of_nat (length buf) - k) k = Ok body /\
  sockethandler onCMDEvent fuel entries s w =
  (r ← recv_file s (mk_message 3 (file_uri app name) (Some (Z.of_nat (length buf) - k)) k SUCCESS)
         buf name w2;
   let '(bytecount, w) := r in
   w ← (if bytecount >? 0 then onCMDEvent app name w else Ok w);
   Ok (finish s w)).
Proof.
  intros Hr Na Ht A D B Fi L buf k. unfold sockethandler. rewrite Ht. cbn [negb].
  destruct (recv_loop_request HTTP_POST url hs body _ x ds fuel s w1 w2 Hr A D B Fi L)
    as (c & -> & Eb & Hu). cbn [mbind result_bind].
  pose proof (ur_body _ _ _ _ _ Hr) as Nb. assert (Hk : 0 < k) by (unfold k; by destruct body).
  split; [done |]. split; [apply read_body |].
  rewrite (f_equal m_status Hu), (rewind_uploaded _ _ _ _ _ Hk Hu), Eb. cbn [m_status].
  unfold serve. cbn [m_request_uri m_method method_num].
  rewrite (proj2 (prefixb_spec _ _)) by (by eexists). rewrite split_file_uri by done.
  cbn [mbind result_bind]. change (3 =? 1) with false. change (3 =? 3) with true. cbv iota.
  fold buf k. destruct (recv_file _ _ _ _ _) as [[n w3]|]; [| done]. cbn [mbind result_bind].
  destruct (n >? 0); [| done]. by destruct (onCMDEvent app name w3).
Qed.
End Upload.

(** An upload stores exactly the body: when a POST of [body] for the URI
    /file/[app]/[name] arrives in any pieces of which the first holds the
    method and the URL, and the file can be created and written,
    [sockethandler] writes the bytes of [body], no more and no fewer, to the
    file [name] of the temporary folder, answers 201, fires onCMDEvent with
    [app] and [name] when the answer was sent, and closes the connection. *)
Lemma upload_exact `{Windows} `{!Memory} onCMDEvent url hs body app name x ds fuel entries s w w1 w2 w3 w4 h :
  upload_request HTTP_POST url hs body (file_uri app name) -> chr "/" ∉ app ->
  Z.of_nat (length name) < 1024 - 16 ->
  TlsSetValue w = (true, w1) ->
  arrives s ((request_line HTTP_POST url ++ x) :: ds) w1 w2 ->
  x ++ concat ds = rest_head hs body ++ body ->
  Forall bytes_ok ((request_line HTTP_POST url ++ x) :: ds) ->
  fits 0 SERVER_BUFLEN ((request_line HTTP_POST url ++ x) :: ds) -> (length ds < fuel)%nat ->
  CreateFileA (TEMP_FILE_FOLDER ++ name) w2 = (Some h, w3) ->
  WriteFile h body w3 = (Some (Z.of_nat (length body)), w4) ->
  sockethandler onCMDEvent fuel entries s w = upload_world onCMDEvent s app name h w4.
Proof.
  intros Hr Na Hn Ht A D B Fi L Cr Wr.
  destruct (sockethandler_upload onCMDEvent url hs body app name x ds fuel entries s w w1 w2
    Hr Na Ht A D B Fi L) as (Hk & Rb & ->).
  unfold recv_file. cbn [m_post_data m_post_data_len].
  rewrite (proj2 (Z.eqb_neq _ _)) by lia. unfold sprintf_path.
  rewrite (proj2 (Z.ltb_lt _ _)) by (rewrite length_app; change (length TEMP_FILE_FOLDER) with 16%nat; lia).
  cbn [mbind result_bind]. rewrite Cr, Rb. cbn [mbind result_bind]. rewrite Wr, Z.eqb_refl.
  unfold upload_world. by destruct (send _ _ w4) as [n w5].
Qed.

(** What an upload that cannot be stored does: a [name] of 1008 characters
    or more overflows the array of the path, before anything is checked; and
    when the file cannot be created the client is told 403, but onCMDEvent is
    fired all the same, for a file that is not there. *)
Theorem upload_not_stored `{Windows} `{!Memory} onCMDEvent url hs body app name x ds fuel entries s w w1 w2 :
  upload_request HTTP_POST url hs body (file_uri app name) -> chr "/" ∉ app ->
  TlsSetValue w = (true, w1) ->
  arrives s ((request_line HTTP_POST url ++ x) :: ds) w1 w2 ->
  x ++ concat ds = rest_head hs body ++ body ->
  Forall bytes_ok ((request_line HTTP_POST url ++ x) :: ds) ->
  fits 0 SERVER_BUFLEN ((request_line HTTP_POST url ++ x) :: ds) -> (length ds < fuel)%nat ->
  (1024 - 16 <= Z.of_nat (length name) ->
   sockethandler onCMDEvent fuel entries s w = Fault OutOfBoundsWrite) /\
  (forall w3 n w4, Z.of_nat (length name) < 1024 - 16 ->
   CreateFileA (TEMP_FILE_FOLDER ++ name) w2 = (None, w3) ->
   serve_error s (bs "403 Forbidden (file open error)") w3 = (n, w4) -> 0 < n ->
   sockethandler onCMDEvent fuel entries s w =
   (w5 ← onCMDEvent app name w4; Ok (finish s w5))).
Proof.
  intros Hr Na Ht A D B Fi L.
  destruct (sockethandler_upload onCMDEvent url hs body app name x ds fuel entries s w w1 w2
    Hr Na Ht A D B Fi L) as (Hk & Rb & ->).
  unfold recv_file. cbn [m_post_data m_post_data_len]. rewrite (proj2 (Z.eqb_neq _ _)) by lia.
  unfold sprintf_path. rewrite length_app. change (length TEMP_FILE_FOLDER) with 16%nat. split.
  - intros Hn. by rewrite (proj2 (Z.ltb_ge _ _)) by lia.
  - intros w3 n w4 Hn Cr Se Np. rewrite (proj2 (Z.ltb_lt _ _)) by lia. cbn [mbind result_bind].
    rewrite Cr, Se. cbn [mbind result_bind]. rewrite Z.gtb_ltb, (proj2 (Z.ltb_lt 0 n)) by lia. done.
Qed.

(** A URL cut between two pieces loses its first part: when the first recv
    ends inside the URL (or just behind it), the request is complete after the
    second one but its URI is what the second piece holds of it, canonicalized
    alone; an upload then goes to another file, or to none. *)
Theorem cut_uri `{Windows} `{!Memory} mth a b hs body ua ub fuel s w w' :
  let d1 := (method_strings mth ++ bs " ") ++ a in
  let d2 := b ++ chr " " :: rest_head hs body ++ body in
  request_ok mth (a ++ b) hs body -> body <> [] -> Z.of_nat (length body) < 4294967296 -> a <> [] ->
  Z.of_nat (length d1) + Z.of_nat (length b) + 1 + Z.of_nat (length (rest_head hs body)) <=
    HTTP_MAX_HEADER_SIZE ->
  Z.of_nat (length (a ++ b)) < MAX_URI_SIZE ->
  InternetCanonicalizeUrlA a = Some ua -> InternetCanonicalizeUrlA b = Some ub ->
  arrives s [d1; d2] w w' -> Forall bytes_ok [d1; d2] -> fits 0 SERVER_BUFLEN [d1; d2] ->
  (1 < fuel)%nat ->
  d1 ++ d2 = encode_request mth (a ++ b) hs body /\
  exists c, recv_loop fuel s new_connection w = Ok (c, w') /\
    uploaded mth ub (Z.of_nat (length (d1 ++ d2))) (Z.of_nat (length body)) (c_message c).
Proof.
  intros d1 d2 Hr Nb Hs Na HL Hu Hca Hcb A B Fi L. split.
  { unfold d1, d2. rewrite encode_request_parts. unfold request_line.
    change (chr " " :: rest_head hs body ++ body) with (bs " " ++ rest_head hs body ++ body).
    by rewrite <- !app_assoc. }
  inversion A as [|? ? ? w1 ? R1 A1]; subst. inversion A1 as [|? ? ? w2 ? R2 A2]; subst.
  inversion A2; subst. destruct fuel as [|[|fuel]]; [lia.. |].
  apply list.Forall_cons in B as [B1 B]. apply list.Forall_cons in B as [B2 _].
  cbn [fits] in Fi. change (0 =? SERVER_BUFLEN) with false in Fi. cbv iota in Fi.
  destruct Fi as (N1 & F1 & N2 & F2 & _).
  assert (Nd : url_state a <> s_dead).
  { destruct Hr as (_ & _ & He & _). unfold url_state in *. rewrite foldl_app in He. intros X.
    by rewrite X, parse_url_dead in He. }
  rewrite length_app in Hu.
  destruct (receive_cut mth a ua B1 (proj1 Hr) Na Nd) as (h & i & Rc); [fold d1; lia | lia | done |].
  fold d1 in Rc. assert (G : grown new_connection = new_connection) by done.
  rewrite (recv_loop_step _ s new_connection w w1 d1 R1) by (rewrite G; done || (cbn; lia)).
  rewrite G, Rc. cbn [mbind result_bind c_message set_uri m_status new_connection].
  match type of Rc with _ = Ok ?c => set (c1 := c) in * end.
  destruct (grow_fields c1) as [G1 G2].
  rewrite (recv_loop_step _ s c1 w1 w' d2 R2) by (rewrite ?G1, G2; first [exact N2 | exact F2]).
  assert (P1 : parser_ok (c_parser c1)).
  { pose proof (receive_ok d1 new_connection B1 ltac:(cbn; lia) new_connection_ok) as K.
    rewrite Rc in K. by apply K. }
  assert (Ek : Z.of_nat (length d1) = Z.of_nat (length (method_strings mth ++ bs " " ++ a)))
    by (unfold d1; by rewrite <- app_assoc).
  assert (Gp : c_parser (grown c1) = c_parser c1) by (unfold grown; by case_match).
  destruct (receive_after_cut mth a b hs body ub (grown c1)
    (with_method (http_parser_init HTTP_REQUEST) mth) h i ua Hr Nb Hs Na) as (c2 & R3 & [X1 _] & U2);
    try done; try lia.
  - by rewrite Gp, <- Ek.
  - by rewrite Gp.
  - unfold grown. by case_match.
  - fold d2 in R3, X1. rewrite R3. cbn [mbind result_bind]. rewrite (f_equal m_status U2).
    cbn [m_status]. exists c2. split; [done |]. by rewrite X1, G1 in U2.
Qed.

(** ** Witnesses: a small upload in three pieces *)

#[local] Existing Instance Sim.

#[local] Instance Sim_memory : Memory (H := Sim).
Proof. done. Qed.

Lemma sim_arrives s ds out files closed :
  Forall bytes_ok ds -> Forall (fun d => d <> []) ds ->
  arrives (H := Sim) s ds (mk_sim ds out files closed) (mk_sim [] out files closed).
Proof.
  induction ds as [|d ds IH]; intros B N; [constructor |].
  apply list.Forall_cons in B as [Bd B]. apply list.Forall_cons in N as [Nd N].
  econstructor; [| by apply IH]. intros room L. cbn. unfold sim_recv. cbn [sim_in sim_out sim_files sim_closed].
  rewrite take_ge, drop_ge by lia. f_equal.
  induction Bd as [|x l Hx _ IHl] in Nd |- *; [done |]. cbn. f_equal; [by apply Z.mod_small |].
  destruct l; [done | by apply IHl].
Qed.

Definition w_url : bytes := bs "/file/reader/a.txt".
Definition w_headers : list (bytes * bytes) := [(bs "Host", bs "h")].
Definition w_body : bytes := bs "hello".
Definition w_pieces (x : bytes) (ds : list bytes) : list bytes :=
  (request_line HTTP_POST w_url ++ x) :: ds.
Definition w_rest : bytes := rest_head w_headers w_body ++ w_body.

Lemma w_request_ok : request_ok HTTP_POST w_url w_headers w_body.
Proof.
  split; [discriminate |]. split; [discriminate |]. split; [reflexivity |].
  split; [| vm_compute; reflexivity]. constructor; [| constructor].
  split; [discriminate |]. split; [by apply token_okb_spec |]. split; [reflexivity |].
  split; [discriminate |]. split; [discriminate |].
  apply (Forall_forallb (fun c => (0 <=? c) && (c <? 256) && negb (c =? 13) && negb (c =? 10)));
    [reflexivity |]. unfold value_char, CR, LF. intros. breflect. lia.
Qed.

Lemma w_upload : upload_request HTTP_POST w_url w_headers w_body (file_uri (bs "reader") (bs "a.txt")).
Proof.
  split; [exact w_request_ok | discriminate | vm_compute; reflexivity | vm_compute; discriminate
         | vm_compute; reflexivity | reflexivity].
Qed.

Lemma upload_exact_witness :
  sockethandler (fun _ _ w => Ok w) 4 0 0
    (mk_sim (w_pieces (take 9 w_rest) [take 33 (drop 9 w_rest); drop 42 w_rest]) [] [] false) =
  Ok (mk_sim [] [bs "HTTP/1.0 201 Created" ++ crlf2]
        [(TEMP_FILE_FOLDER ++ bs "a.txt", w_body)] true).
Proof.
  assert (B : Forall bytes_ok (w_pieces (take 9 w_rest) [take 33 (drop 9 w_rest); drop 42 w_rest])).
  { repeat (constructor; [apply bytes_okb_spec; vm_compute; reflexivity |]). constructor. }
  rewrite (upload_exact (H := Sim) (fun _ _ w => Ok w) w_url w_headers w_body (bs "reader") (bs "a.txt")
    (take 9 w_rest) [take 33 (drop 9 w_rest); drop 42 w_rest] 4 0 0 _
    (mk_sim (w_pieces (take 9 w_rest) [take 33 (drop 9 w_rest); drop 42 w_rest]) [] [] false)
    (mk_sim [] [] [] false) (mk_sim [] [] [] false)
    (mk_sim [] [] [(TEMP_FILE_FOLDER ++ bs "a.txt", w_body)] false) (TEMP_FILE_FOLDER ++ bs "a.txt")).
  - reflexivity.
  - exact w_upload.
  - apply (bool_decide_unpack _). vm_compute. exact I.
  - vm_compute. reflexivity.
  - reflexivity.
  - apply sim_arrives; [exact B |].
    apply (bool_decide_unpack _). vm_compute. exact I.
  - vm_compute. reflexivity.
  - exact B.
  - vm_compute. repeat split; discriminate.
  - cbn. lia.
  - reflexivity.
  - reflexivity.
Defined.

Lemma cut_uri_witness :
  exists c, recv_loop 3 0 new_connection
      (mk_sim [(method_strings HTTP_POST ++ bs " ") ++ bs "/file/reader";
               bs "/a.txt" ++ chr " " :: rest_head w_headers w_body ++ w_body] [] [] false) =
      Ok (c, mk_sim [] [] [] false) /\
    m_request_uri (c_message c) = bs "/a.txt".
Proof.
  assert (B : Forall bytes_ok [(method_strings HTTP_POST ++ bs " ") ++ bs "/file/reader";
               bs "/a.txt" ++ chr " " :: rest_head w_headers w_body ++ w_body]).
  { repeat (constructor; [apply bytes_okb_spec; vm_compute; reflexivity |]). constructor. }
  destruct (cut_uri (H := Sim) HTTP_POST (bs "/file/reader") (bs "/a.txt") w_headers w_body
    (bs "/file/reader") (bs "/a.txt") 3 0 (mk_sim [(method_strings HTTP_POST ++ bs " ") ++ bs "/file/reader";
               bs "/a.txt" ++ chr " " :: rest_head w_headers w_body ++ w_body] [] [] false)
    (mk_sim [] [] [] false)) as (_ & c & R & U).
  - exact w_request_ok.
  - discriminate.
  - vm_compute. reflexivity.
  - discriminate.
  - vm_compute. discriminate.
  - vm_compute. reflexivity.
  - reflexivity.
  - reflexivity.
  - apply sim_arrives; [exact B |].
    apply (bool_decide_unpack _). vm_compute. exact I.
  - exact B.
  - vm_compute. repeat split; discriminate.
  - lia.
  - exists c. split; [exact R |]. exact (f_equal m_request_uri U).
Defined.

Definition w_long : bytes := replicate 1008 (chr "a").
Definition w_long_url : bytes := file_uri (bs "r") w_long.

Lemma upload_not_stored_witness :
  sockethandler (fun _ _ w => Ok w) 2 0 0
    (mk_sim [request_line HTTP_POST w_long_url ++ w_rest] [] [] false) = Fault OutOfBoundsWrite.
Proof.
  assert (B : Forall bytes_ok [request_line HTTP_POST w_long_url ++ w_rest]).
  { constructor; [apply bytes_okb_spec; vm_compute; reflexivity |]. constructor. }
  destruct (upload_not_stored (H := Sim) (fun _ _ w => Ok w) w_long_url w_headers w_body (bs "r") w_long
    w_rest [] 2 0 0 (mk_sim [request_line HTTP_POST w_long_url ++ w_rest] [] [] false)
    (mk_sim [request_line HTTP_POST w_long_url ++ w_rest] [] [] false) (mk_sim [] [] [] false)) as [K _].
  - split; [| discriminate | vm_compute; reflexivity | vm_compute; discriminate
           | vm_compute; reflexivity | reflexivity].
    destruct w_request_ok as (H1 & _ & _ & H4 & H5). split; [exact H1 |]. split; [discriminate |].
    split; [vm_compute; reflexivity |]. split; [exact H4 | exact H5].
  - apply (bool_decide_unpack _). vm_compute. exact I.
  - reflexivity.
  - apply sim_arrives; [exact B |]. apply (bool_decide_unpack _). vm_compute. exact I.
  - vm_compute. reflexivity.
  - exact B.
  - vm_compute. repeat split; discriminate.
  - cbn. lia.
  - apply K. vm_compute. discriminate.
Defined.

(** A chunked upload stores the framing of its last chunk instead of the data:
    of the chunks ab and cde the file gets five bytes, CR LF cde. *)
Example chunked_upload :
  sim_files <$> (match sockethandler (fun _ _ w => Ok w) 2 0 0
    (mk_sim [request_line HTTP_POST w_url ++ bs "HTTP/1.1" ++ [CR; LF] ++
             bs "Transfer-Encoding: chunked" ++ crlf2 ++ bs "2" ++ [CR; LF] ++ bs "ab" ++ [CR; LF] ++
             bs "3" ++ [CR; LF] ++ bs "cde" ++ [CR; LF] ++ bs "0" ++ crlf2] [] [] false) with
    | Ok w => Some w | Fault _ => None end) =
  Some [(TEMP_FILE_FOLDER ++ bs "a.txt", [CR; LF] ++ bs "cde")].
Proof. vm_compute. reflexivity. Qed.
