(* ===== verification/Base64.v ===== *)
(** * Base64 of the Capture client (CaptureGlobal.cpp)

    The encoder and the decoder with their index loops, a reference encoder by
    blocks of three bytes, and what survives a round trip: the decoder does not
    know the padding character, so a text whose length is not a multiple of
    three comes back with one or two bytes more. *)
From Stdlib Require Import ZArith Lia Ascii.
From stdpp Require Import base list strings numbers.
From S2P Require Import Prelude.

Local Open Scope Z_scope.

Definition b64_list : bytes :=
  bs "ABCDEFGHIJKLMNOPQRSTUVWXYZabcdefghijklmnopqrstuvwxyz0123456789+/".

Definition XX : Z := 100.

(** b64_index: the position in b64_list, XX for the other characters *)
Definition b64_index (c : Z) : Z :=
  if (chr "A" <=? c) && (c <=? chr "Z") then c - chr "A"
  else if (chr "a" <=? c) && (c <=? chr "z") then c - chr "a" + 26
  else if (chr "0" <=? c) && (c <=? chr "9") then c - chr "0" + 52
  else if c =? chr "+" then 62
  else if c =? chr "/" then 63
  else XX.

(** [b64_index[encoded[k]]]: [encoded] has type char, which is signed, so a
    character above 127 is a negative index *)
Definition index_of (encoded : bytes) (k : nat) : result Z :=
  match encoded !! k with
  | Some c => if c <? 128 then Ok (b64_index c) else Fault OutOfBoundsRead
  | None => Fault UninitRead
  end.

(** the three bytes of a full group *)
Definition decode_group (encoded : bytes) : result bytes :=
  i0 ← index_of encoded 0;
  i1 ← index_of encoded 1;
  i2 ← index_of encoded 2;
  i3 ← index_of encoded 3;
  Ok [u8 (Z.lor (Z.shiftl i0 2) (Z.shiftr i1 4));
      u8 (Z.lor (Z.shiftl i1 4) (Z.shiftr i2 2));
      u8 (Z.lor (Z.shiftl i2 6) i3)].

(** [encoded[i%4] = c], on the characters written so far *)
Definition put_encoded (encoded : bytes) (k : nat) (c : Z) : bytes :=
  if (k <? length encoded)%nat then <[k := c]> encoded else encoded ++ [c].

(** the for loop: [i] runs from 0 to [len] included, where the terminator is *)
Fixpoint decode_loop (fuel : nat) (s : bytes) (i : nat) (encoded buffer : bytes) : result bytes :=
  if (i <? length s + 1)%nat then
    match fuel with
    | O => Fault OutOfFuel
    | S fuel' =>
      buffer ← (if (0 <? i)%nat && (i mod 4 =? 0)%nat
                then g ← decode_group encoded; Ok (buffer ++ g) else Ok buffer);
      decode_loop fuel' s (i + 1) (put_encoded encoded (i mod 4) (str_at s i)) buffer
    end
  else Ok buffer.

(** Base64::decode: the bytes written to the buffer of [len] bytes; one turn
    per character and one for the terminator *)
Definition decode (s : bytes) : result bytes :=
  buffer ← decode_loop (length s + 1) s 0 [] [];
  if (length buffer <=? length s)%nat then Ok buffer else Fault OutOfBoundsWrite.

Definition b64_char (v : Z) : Z := default 0 (b64_list !! Z.to_nat (Z.land v 63)).

(** the block of the bytes from [i] on *)
Definition block_at (l : bytes) (i : nat) : Z :=
  let block := Z.shiftl (str_at l i) 16 in
  let block := if (i + 1 <? length l)%nat then Z.lor block (Z.shiftl (str_at l (i + 1)) 8) else block in
  if (i + 2 <? length l)%nat then Z.lor block (str_at l (i + 2)) else block.

Definition encode_block (block : Z) : bytes :=
  [b64_char (Z.shiftr block 18); b64_char (Z.shiftr block 12);
   b64_char (Z.shiftr block 6); b64_char block].

Fixpoint encode_loop (fuel : nat) (l : bytes) (i : nat) (out : bytes) : result bytes :=
  if (i <? length l)%nat then
    match fuel with
    | O => Fault OutOfFuel
    | S fuel' => encode_loop fuel' l (i + 3) (out ++ encode_block (block_at l i))
    end
  else Ok out.

(** [encodedBuffer[k-(3-i)] = '='] for [i] from [remainder] to 2 *)
Definition put_padding (remainder : nat) (out : bytes) : bytes :=
  let k := length out in
  foldl (fun out i => <[(k - (3 - i))%nat := chr "="]> out) out (seq remainder (3 - remainder)).

(** Base64::encode; the buffer has [nBlocks*4 + 2] bytes *)
Definition encode (l : bytes) : result bytes :=
  let remainder := (length l mod 3)%nat in
  let nBlocks := (length l / 3 + (if (remainder =? 0)%nat then 0 else 1))%nat in
  out ← encode_loop (length l) l 0 [];
  if (length out <=? nBlocks * 4 + 2)%nat then
    Ok (if (0 <? remainder)%nat then put_padding remainder out else out)
  else Fault OutOfBoundsWrite.

Example encode_1 : encode (bs "Man") = Ok (bs "TWFu"). Proof. vm_compute. reflexivity. Qed.
Example encode_2 : encode (bs "Ma") = Ok (bs "TWE="). Proof. vm_compute. reflexivity. Qed.
Example encode_3 : encode (bs "M") = Ok (bs "TQ=="). Proof. vm_compute. reflexivity. Qed.
Example decode_1 : decode (bs "TWFu") = Ok (bs "Man"). Proof. vm_compute. reflexivity. Qed.
Example decode_2 : decode (bs "TQ==") = Ok (bs "M" ++ [25; 100]). Proof. vm_compute. reflexivity. Qed.

(** ** References *)

Definition blk (a b c : Z) : Z := a * 65536 + b * 256 + c.

(** the blocks of a text, without padding *)
Fixpoint blocks (l : bytes) : bytes :=
  match l with
  | [] => []
  | [a] => encode_block (blk a 0 0)
  | [a; b] => encode_block (blk a b 0)
  | a :: b :: c :: r => encode_block (blk a b c) ++ blocks r
  end.

(** the groups of four characters of an encoded text *)
Fixpoint decode_ref (s : bytes) : result bytes :=
  match s with
  | c0 :: c1 :: c2 :: c3 :: r =>
    g ← decode_group [c0; c1; c2; c3];
    t ← decode_ref r;
    Ok (g ++ t)
  | _ => Ok []
  end.

(** Induction by groups of three and of four elements. *)
Lemma list_ind3 {A} (P : list A -> Prop) :
  P [] -> (forall a, P [a]) -> (forall a b, P [a; b]) ->
  (forall a b c r, P r -> P (a :: b :: c :: r)) -> forall l, P l.
Proof.
  intros H0 H1 H2 H3. fix IH 1. intros [|a [|b [|c r]]]; [done | apply H1 | apply H2 | apply H3, IH].
Qed.

(** ** The loops *)

Lemma block_at_blk l i a b c r :
  drop i l = a :: b :: c :: r -> 0 <= b < 256 -> 0 <= c < 256 -> block_at l i = blk a b c.
Proof.
  intros D Hb Hc. assert (L : length (drop i l) = (3 + length r)%nat) by (by rewrite D).
  rewrite length_drop in L. unfold block_at, blk, str_at.
  rewrite !(proj2 (Nat.ltb_lt _ _)) by lia.
  rewrite <- (Nat.add_0_r i) at 1. rewrite <- !lookup_drop, D. cbn.
  rewrite <- Z.lor_assoc, lor_shiftl_add; [| lia |].
  - rewrite lor_shiftl_add by lia. lia.
  - rewrite lor_shiftl_add by lia. lia.
Qed.

Lemma block_at_two l i a b : drop i l = [a; b] -> 0 <= b < 256 -> block_at l i = blk a b 0.
Proof.
  intros D Hb. assert (L : length (drop i l) = 2%nat) by (by rewrite D).
  rewrite length_drop in L. unfold block_at, blk, str_at.
  rewrite (proj2 (Nat.ltb_lt (i + 1) _)), (proj2 (Nat.ltb_ge (i + 2) _)) by lia.
  rewrite <- (Nat.add_0_r i) at 1. rewrite <- !lookup_drop, D. cbn.
  rewrite (Z.shiftl_mul_pow2 b) by lia. rewrite lor_shiftl_add by lia. lia.
Qed.

Lemma block_at_one l i a : drop i l = [a] -> block_at l i = blk a 0 0.
Proof.
  intros D. assert (L : length (drop i l) = 1%nat) by (by rewrite D).
  rewrite length_drop in L. unfold block_at, blk, str_at.
  rewrite (proj2 (Nat.ltb_ge (i + 1) _)), (proj2 (Nat.ltb_ge (i + 2) _)) by lia.
  rewrite <- (Nat.add_0_r i) at 1. rewrite <- !lookup_drop, D. cbn.
  rewrite Z.shiftl_mul_pow2 by lia. lia.
Qed.

Lemma encode_loop_blocks fuel l i out :
  bytes_ok l -> (length l - i <= fuel)%nat ->
  encode_loop fuel l i out = Ok (out ++ blocks (drop i l)).
Proof.
  intros B. revert i out. induction fuel as [|fuel IH]; intros i out L; cbn [encode_loop].
  { rewrite (proj2 (Nat.ltb_ge _ _)), drop_ge by lia. by rewrite app_nil_r. }
  destruct (i <? length l)%nat eqn:Hi; breflect; [| by rewrite drop_ge, app_nil_r by lia].
  rewrite IH by lia. assert (Bd : bytes_ok (drop i l)) by (by apply Forall_drop).
  assert (D3 : drop (i + 3) l = drop 3 (drop i l)) by (by rewrite drop_drop).
  rewrite D3, <- app_assoc. do 2 f_equal.
  destruct (drop i l) as [|a [|b [|c r]]] eqn:D.
  - apply (f_equal length) in D. rewrite length_drop in D. cbn in D. lia.
  - by rewrite (block_at_one l i a D), app_nil_r.
  - apply list.Forall_cons in Bd as [_ Bd]. apply list.Forall_cons in Bd as [Hb _].
    by rewrite (block_at_two l i a b D Hb), app_nil_r.
  - apply list.Forall_cons in Bd as [_ Bd]. apply list.Forall_cons in Bd as [Hb Bd].
    apply list.Forall_cons in Bd as [Hc _]. by rewrite (block_at_blk l i a b c r D Hb Hc).
Qed.

Lemma blocks_length l : length (blocks l) = ((length l + 2) / 3 * 4)%nat.
Proof.
  induction l as [|a|a b|a b c r IH] using list_ind3; try done. cbn [blocks].
  rewrite length_app, IH. cbn [length encode_block].
  replace (S (S (S (length r))) + 2)%nat with (length r + 2 + 1 * 3)%nat by lia.
  rewrite Nat.div_add by lia. lia.
Qed.

Lemma put_encoded_group (e : bytes) c0 c1 c2 c3 :
  e = [] \/ length e = 4%nat ->
  put_encoded (put_encoded (put_encoded (put_encoded e 0 c0) 1 c1) 2 c2) 3 c3 = [c0; c1; c2; c3].
Proof. intros [->|L]; [done |]. by destruct e as [|x0 [|x1 [|x2 [|x3 []]]]]. Qed.

(** the group that waits for its turn *)
Definition pending (j : nat) (e : bytes) : result bytes :=
  if (j =? 0)%nat then Ok [] else decode_group e.

Lemma mod4 j k : (k < 4)%nat -> ((4 * j + k) mod 4)%nat = k.
Proof. intros. rewrite Nat.add_comm, Nat.mul_comm, Nat.Div0.mod_add. by apply Nat.mod_small. Qed.

Lemma str_at_drop s i x r : drop i s = x :: r -> str_at s i = x /\ drop (i + 1) s = r.
Proof.
  intros D. unfold str_at. split.
  - by rewrite <- (Nat.add_0_r i), <- lookup_drop, D.
  - by rewrite <- drop_drop, D.
Qed.

(** One turn of the decoder inside the text or at its terminator. *)
Lemma decode_turn fuel s i e buf g :
  (i <= length s)%nat ->
  (if (0 <? i)%nat && (i mod 4 =? 0)%nat then decode_group e else Ok []) = Ok g ->
  decode_loop (S fuel) s i e buf =
  decode_loop fuel s (i + 1) (put_encoded e (i mod 4) (str_at s i)) (buf ++ g).
Proof.
  intros L G. cbn [decode_loop]. rewrite (proj2 (Nat.ltb_lt _ _)) by lia.
  destruct (_ && _); [rewrite G; done |]. injection G as <-. by rewrite app_nil_r.
Qed.

Lemma decode_turn_fault fuel s i e buf f :
  (i <= length s)%nat -> (0 < i)%nat -> (i mod 4 = 0)%nat -> decode_group e = Fault f ->
  decode_loop (S fuel) s i e buf = Fault f.
Proof.
  intros L Hi Hm G. cbn [decode_loop]. rewrite (proj2 (Nat.ltb_lt i _)) by lia.
  rewrite Hm, (proj2 (Nat.ltb_lt 0 i)) by lia. cbn. by rewrite G.
Qed.

(** A turn between two multiples of four. *)
Lemma decode_mid fuel s j k e buf x r :
  (0 < k < 4)%nat -> drop (4 * j + k) s = x :: r ->
  decode_loop (S fuel) s (4 * j + k) e buf =
  decode_loop fuel s (4 * j + (k + 1)) (put_encoded e k x) buf.
Proof.
  intros Hk D. assert (L : (4 * j + k < length s)%nat).
  { apply (f_equal length) in D. rewrite length_drop in D. cbn in D. lia. }
  destruct (str_at_drop _ _ _ _ D) as [A _].
  rewrite (decode_turn _ _ _ _ _ []) by (first [lia | rewrite mod4, (proj2 (Nat.eqb_neq k 0)), andb_false_r by lia; done]).
  rewrite mod4, A, app_nil_r by lia. by rewrite Nat.add_assoc.
Qed.

(** The loop between two multiples of four, when the text ends there. *)
Lemma decode_tail fuel s j k e buf :
  (0 < k <= 4)%nat -> (length s < 4 * j + 4)%nat -> (length s + 1 - (4 * j + k) <= fuel)%nat ->
  decode_loop fuel s (4 * j + k) e buf = Ok buf.
Proof.
  revert k e. induction fuel as [|fuel IH]; intros k e Hk L Lf; cbn [decode_loop].
  { by rewrite (proj2 (Nat.ltb_ge _ _)) by lia. }
  destruct (_ <? length s + 1)%nat eqn:Hi; [| done]. breflect.
  assert (Hk4 : (k < 4)%nat) by lia.
  rewrite mod4, (proj2 (Nat.eqb_neq k 0)), andb_false_r by lia. cbn [mbind result_bind].
  rewrite <- Nat.add_assoc. apply IH; lia.
Qed.

(** The decoder is its reference. *)
Lemma decode_loop_ref fuel s j e buf :
  e = [] /\ j = 0%nat \/ length e = 4%nat -> (4 * j <= length s)%nat ->
  (length s + 1 - 4 * j <= fuel)%nat ->
  decode_loop fuel s (4 * j) e buf =
  (g ← pending j e; t ← decode_ref (drop (4 * j) s); Ok (buf ++ g ++ t)).
Proof.
  revert j e buf. induction fuel as [fuel IH] using lt_wf_ind. intros j e buf He Lj Lf.
  destruct fuel as [|fuel]; [lia |].
  destruct (pending j e) as [g|f] eqn:P; cbn [mbind result_bind].
  2: { unfold pending in P. destruct (j =? 0)%nat eqn:Z; [done |]. breflect.
       apply decode_turn_fault; [done | lia | | done]. rewrite <- (Nat.add_0_r (4 * j)). by apply mod4; lia. }
  rewrite (decode_turn _ _ _ _ _ g); [| done |].
  2: { unfold pending in P. replace ((4 * j) mod 4)%nat with 0%nat
         by (rewrite <- (Nat.add_0_r (4 * j)); by rewrite mod4 by lia).
       destruct j; cbn in *; [done |]. done. }
  replace ((4 * j) mod 4)%nat with 0%nat by (rewrite <- (Nat.add_0_r (4 * j)); by rewrite mod4 by lia).
  destruct (decide (4 * j + 4 <= length s)%nat) as [L4|L4].
  - assert (Ld : length (drop (4 * j) s) = (length s - 4 * j)%nat) by (by rewrite length_drop).
    destruct (drop (4 * j) s) as [|c0 [|c1 [|c2 [|c3 r]]]] eqn:D; cbn in Ld; try lia.
    destruct (str_at_drop _ _ _ _ D) as [A0 D1]. destruct (str_at_drop _ _ _ _ D1) as [_ D2].
    rewrite <- Nat.add_assoc in D2. destruct (str_at_drop _ _ _ _ D2) as [_ D3].
    rewrite <- Nat.add_assoc in D3. destruct (str_at_drop _ _ _ _ D3) as [_ D4].
    rewrite <- Nat.add_assoc in D4. cbn [Nat.add] in D2, D3, D4. rewrite A0.
    destruct fuel as [|[|[|fuel]]]; [lia.. |].
    rewrite (decode_mid _ _ j 1 _ _ c1 _ ltac:(lia) D1).
    rewrite (decode_mid _ _ j 2 _ _ c2 _ ltac:(lia) D2).
    rewrite (decode_mid _ _ j 3 _ _ c3 _ ltac:(lia) D3).
    rewrite put_encoded_group by (destruct He as [[-> _]|]; auto).
    replace (4 * j + (3 + 1))%nat with (4 * S j)%nat by lia.
    rewrite IH by (first [by right | lia]).
    replace (4 * S j)%nat with (4 * j + 4)%nat by lia. rewrite D4. cbn [pending Nat.eqb decode_ref].
    destruct (decode_group _) as [g'|]; [| done]. cbn [mbind result_bind].
    destruct (decode_ref r) as [t|]; [| done]. cbn [mbind result_bind]. by rewrite <- !app_assoc.
  - rewrite decode_tail by lia.
    assert (Ld : length (drop (4 * j) s) = (length s - 4 * j)%nat) by (by rewrite length_drop).
    destruct (drop (4 * j) s) as [|c0 [|c1 [|c2 [|c3 r]]]]; cbn in Ld; try lia;
      cbn [decode_ref mbind result_bind]; by rewrite app_nil_r.
Qed.

(** ** Groups *)

Lemma index_char v : 0 <= v -> b64_index (b64_char v) = v mod 64 /\ 0 <= b64_char v < 128.
Proof.
  intros Hv. unfold b64_char. change 63 with (Z.ones 6). rewrite Z.land_ones by lia.
  change (2 ^ 6) with 64. pose proof (Z.mod_pos_bound v 64 ltac:(lia)) as Hm.
  revert Hm. generalize (v mod 64). intros x Hx.
  pose proof (check_below (fun x => (b64_index (default 0 (b64_list !! Z.to_nat x)) =? x) &&
    (0 <=? default 0 (b64_list !! Z.to_nat x)) && (default 0 (b64_list !! Z.to_nat x) <? 128)) 64
    eq_refl x Hx) as C. cbv beta in C. breflect. lia.
Qed.

Lemma index_of_char l k c : l !! k = Some c -> 0 <= c < 128 -> index_of l k = Ok (b64_index c).
Proof. intros E H. unfold index_of. rewrite E. by rewrite (proj2 (Z.ltb_lt _ _)) by lia. Qed.

(** the sextets of a block *)
Definition sextets (a b c : Z) : Z * Z * Z * Z :=
  (a / 4, a mod 4 * 16 + b / 16, b mod 16 * 4 + c / 64, c mod 64).

Lemma block_index a b c :
  byte_ok a -> byte_ok b -> byte_ok c ->
  let '(s0, s1, s2, s3) := sextets a b c in
  exists c0 c1 c2 c3, encode_block (blk a b c) = [c0; c1; c2; c3] /\
    Forall (fun x => 0 <= x < 128) [c0; c1; c2; c3] /\
    b64_index c0 = s0 /\ b64_index c1 = s1 /\ b64_index c2 = s2 /\ b64_index c3 = s3.
Proof.
  unfold byte_ok, sextets, blk, encode_block. intros Ha Hb Hc.
  assert (P : 0 <= a * 65536 + b * 256 + c) by lia. rewrite !Z.shiftr_div_pow2 by lia.
  change (2 ^ 18) with 262144. change (2 ^ 12) with 4096. change (2 ^ 6) with 64.
  destruct (index_char ((a * 65536 + b * 256 + c) / 262144)) as [E0 B0]; [by apply Z.div_pos |].
  destruct (index_char ((a * 65536 + b * 256 + c) / 4096)) as [E1 B1]; [by apply Z.div_pos |].
  destruct (index_char ((a * 65536 + b * 256 + c) / 64)) as [E2 B2]; [by apply Z.div_pos |].
  destruct (index_char (a * 65536 + b * 256 + c) P) as [E3 B3].
  eexists _, _, _, _. split; [reflexivity |]. split; [repeat (apply Forall_cons_2; [done |]); apply Forall_nil_2 |].
  rewrite E0, E1, E2, E3. split_and!; Z.div_mod_to_equations; lia.
Qed.

(** the bytes of a group from its indices *)
Lemma group_bytes c0 c1 c2 c3 i0 i1 i2 i3 :
  Forall (fun x => 0 <= x < 128) [c0; c1; c2; c3] ->
  b64_index c0 = i0 -> b64_index c1 = i1 -> b64_index c2 = i2 -> b64_index c3 = i3 ->
  decode_group [c0; c1; c2; c3] =
  Ok [u8 (Z.lor (Z.shiftl i0 2) (Z.shiftr i1 4)); u8 (Z.lor (Z.shiftl i1 4) (Z.shiftr i2 2));
      u8 (Z.lor (Z.shiftl i2 6) i3)].
Proof.
  intros B <- <- <- <-. apply list.Forall_cons in B as [B0 B]. apply list.Forall_cons in B as [B1 B].
  apply list.Forall_cons in B as [B2 B]. apply list.Forall_cons in B as [B3 _].
  unfold decode_group. rewrite (index_of_char _ 0 c0), (index_of_char _ 1 c1),
    (index_of_char _ 2 c2), (index_of_char _ 3 c3) by done. done.
Qed.

Lemma first_byte a b : byte_ok a -> byte_ok b ->
  u8 (Z.lor (Z.shiftl (a / 4) 2) (Z.shiftr (a mod 4 * 16 + b / 16) 4)) = a.
Proof.
  unfold byte_ok. intros Ha Hb. rewrite Z.shiftr_div_pow2 by lia. change (2 ^ 4) with 16.
  rewrite lor_shiftl_add; unfold u8; Z.div_mod_to_equations; lia.
Qed.

Lemma second_byte a b c : byte_ok a -> byte_ok b -> byte_ok c ->
  u8 (Z.lor (Z.shiftl (a mod 4 * 16 + b / 16) 4) (Z.shiftr (b mod 16 * 4 + c / 64) 2)) = b.
Proof.
  unfold byte_ok. intros Ha Hb Hc. rewrite Z.shiftr_div_pow2 by lia. change (2 ^ 2) with 4.
  rewrite lor_shiftl_add; unfold u8; Z.div_mod_to_equations; lia.
Qed.

Lemma third_byte b c : byte_ok b -> byte_ok c ->
  u8 (Z.lor (Z.shiftl (b mod 16 * 4 + c / 64) 6) (c mod 64)) = c.
Proof.
  unfold byte_ok. intros Hb Hc.
  rewrite lor_shiftl_add; unfold u8; Z.div_mod_to_equations; lia.
Qed.

(** ** The round trip *)

(** the text [encode] makes *)
Fixpoint encode_ref (l : bytes) : bytes :=
  match l with
  | [] => []
  | [a] => take 2 (encode_block (blk a 0 0)) ++ bs "=="
  | [a; b] => take 3 (encode_block (blk a b 0)) ++ bs "="
  | a :: b :: c :: r => encode_block (blk a b c) ++ encode_ref r
  end.

Lemma put_padding_blocks l :
  (if (0 <? length l mod 3)%nat then put_padding (length l mod 3) (blocks l) else blocks l) =
  encode_ref l.
Proof.
  induction l as [|a|a b|a b c r IH] using list_ind3; try done. cbn [blocks encode_ref].
  rewrite <- IH. replace (length (a :: b :: c :: r) mod 3)%nat with (length r mod 3)%nat.
  2: { cbn [length]. replace (S (S (S (length r)))) with (length r + 1 * 3)%nat by lia.
       by rewrite Nat.Div0.mod_add. }
  destruct (0 <? length r mod 3)%nat eqn:Z; [| done]. breflect.
  assert (Hr : r <> []) by (destruct r; [cbn in Z; lia | done]).
  assert (Hl : (4 <= length (blocks r))%nat).
  { rewrite blocks_length. assert ((length r + 2) / 3 <> 0)%nat; [| lia].
    intros E. apply Nat.div_small_iff in E; [| lia]. destruct r; [done | cbn in E; lia]. }
  unfold put_padding. rewrite length_app. set (g := encode_block _). set (t := blocks r) in *.
  assert (Lg : length g = 4%nat) by done. pose proof (Nat.mod_upper_bound (length r) 3 ltac:(lia)) as Hm.
  destruct (length r mod 3)%nat as [|[|[|]]]; [lia | | | lia]; cbn [seq Nat.sub foldl];
    rewrite ?insert_app_r_alt by (rewrite ?length_insert; lia); repeat f_equal; lia.
Qed.

Lemma decode_encode_ref l :
  bytes_ok l -> exists pad, decode_ref (encode_ref l) = Ok (l ++ pad) /\
    length pad = ((3 - length l mod 3) mod 3)%nat.
Proof.
  induction l as [|a|a b|a b c r IH] using list_ind3; intros B.
  - by exists [].
  - apply list.Forall_cons in B as [Ha _]. assert (H0 : byte_ok 0) by (unfold byte_ok; lia).
    destruct (block_index a 0 0 Ha H0 H0) as (c0 & c1 & c2 & c3 & E & Hb & I0 & I1 & _).
    cbn [encode_ref]. rewrite E. cbn [take app]. change (bs "==") with [61; 61]. cbn [app decode_ref].
    apply list.Forall_cons in Hb as [B0 Hb]. apply list.Forall_cons in Hb as [B1 _].
    rewrite (group_bytes c0 c1 61 61 _ _ _ _ ltac:(repeat (apply Forall_cons_2; [lia |]); apply Forall_nil_2) I0 I1 eq_refl eq_refl).
    cbn [mbind result_bind]. rewrite first_byte by done. by eexists.
  - apply list.Forall_cons in B as [Ha B]. apply list.Forall_cons in B as [Hb' _].
    assert (H0 : byte_ok 0) by (unfold byte_ok; lia).
    destruct (block_index a b 0 Ha Hb' H0) as (c0 & c1 & c2 & c3 & E & Hb & I0 & I1 & I2 & _).
    cbn [encode_ref]. rewrite E. cbn [take app]. change (bs "=") with [61]. cbn [app decode_ref].
    apply list.Forall_cons in Hb as [B0 Hb]. apply list.Forall_cons in Hb as [B1 Hb].
    apply list.Forall_cons in Hb as [B2 _].
    rewrite (group_bytes c0 c1 c2 61 _ _ _ _ ltac:(repeat (apply Forall_cons_2; [lia |]); apply Forall_nil_2) I0 I1 I2 eq_refl).
    cbn [mbind result_bind]. rewrite first_byte, second_byte by done. by eexists.
  - apply list.Forall_cons in B as [Ha B]. apply list.Forall_cons in B as [Hb' B].
    apply list.Forall_cons in B as [Hc B]. destruct (IH B) as (pad & Er & Lp).
    destruct (block_index a b c Ha Hb' Hc) as (c0 & c1 & c2 & c3 & E & Hb & I0 & I1 & I2 & I3).
    cbn [encode_ref]. rewrite E. cbn [app decode_ref].
    rewrite (group_bytes c0 c1 c2 c3 _ _ _ _ Hb I0 I1 I2 I3). cbn [mbind result_bind]. rewrite Er.
    cbn [mbind result_bind]. rewrite first_byte, second_byte, third_byte by done.
    exists pad. split; [done |]. rewrite Lp. cbn [length].
    replace (S (S (S (length r)))) with (length r + 1 * 3)%nat by lia. by rewrite Nat.Div0.mod_add.
Qed.

Lemma encode_ok l : bytes_ok l -> encode l = Ok (encode_ref l).
Proof.
  intros B. unfold encode. rewrite encode_loop_blocks by (first [done | lia]).
  cbn [mbind result_bind app]. rewrite drop_0, blocks_length.
  assert (Hd : ((length l + 2) / 3 * 4 <= (length l / 3 + (if (length l mod 3 =? 0) then 0 else 1)) * 4 + 2)%nat).
  { assert ((length l + 2) / 3 <= length l / 3 + (if (length l mod 3 =? 0) then 0 else 1))%nat; [| lia].
    pose proof (Nat.div_mod_eq (length l) 3) as Q. pose proof (Nat.mod_upper_bound (length l) 3 ltac:(lia)).
    pose proof (Nat.div_mod_eq (length l + 2) 3) as Q2.
    pose proof (Nat.mod_upper_bound (length l + 2) 3 ltac:(lia)).
    destruct (Nat.eqb_spec (length l mod 3) 0); lia. }
  rewrite (proj2 (Nat.leb_le _ _)) by done. by rewrite put_padding_blocks.
Qed.

Lemma encode_ref_length l : length (encode_ref l) = ((length l + 2) / 3 * 4)%nat.
Proof.
  induction l as [|a|a b|a b c r IH] using list_ind3; try done. cbn [encode_ref].
  rewrite length_app, IH. cbn [length encode_block].
  replace (S (S (S (length r))) + 2)%nat with (length r + 2 + 1 * 3)%nat by lia.
  rewrite Nat.div_add by lia. lia.
Qed.

Lemma decode_ok s t : decode_ref s = Ok t -> (length t <= length s)%nat -> decode s = Ok t.
Proof.
  intros E L. unfold decode.
  pose proof (decode_loop_ref (length s + 1) s 0 [] [] (or_introl (conj eq_refl eq_refl)) ltac:(lia) ltac:(lia)) as R.
  rewrite Nat.mul_0_r in R. rewrite R. cbn [pending Nat.eqb mbind result_bind]. rewrite drop_0, E.
  cbn [mbind result_bind app]. by rewrite (proj2 (Nat.leb_le _ _)) by done.
Qed.

(** C17: Base64 round trip: encoding any bytes succeeds inside its buffer with
    four characters for every three bytes begun, and decoding gives the bytes
    back, followed by one or two bytes that were not there when their number is
    not a multiple of three (the decoder takes the padding for data). *)
Theorem base64_roundtrip l :
  bytes_ok l ->
  exists e pad, encode l = Ok e /\ length e = ((length l + 2) / 3 * 4)%nat /\
    decode e = Ok (l ++ pad) /\ length pad = ((3 - length l mod 3) mod 3)%nat.
Proof.
  intros B. destruct (decode_encode_ref l B) as (pad & D & Lp). exists (encode_ref l), pad.
  split; [by apply encode_ok |]. split; [apply encode_ref_length |]. split; [| done].
  apply decode_ok; [done |]. rewrite length_app, encode_ref_length, Lp.
  pose proof (Nat.div_mod_eq (length l) 3) as Q. pose proof (Nat.div_mod_eq (length l + 2) 3) as Q2.
  pose proof (Nat.mod_upper_bound (length l) 3 ltac:(lia)).
  pose proof (Nat.mod_upper_bound (length l + 2) 3 ltac:(lia)).
  destruct (length l mod 3)%nat as [|[|[|]]]; [| | | lia]; cbn [Nat.sub]; cbn -[Nat.div Nat.mul]; lia.
Qed.

Lemma base64_roundtrip_witness :
  exists e pad, encode (bs "Wxyz") = Ok e /\ length e = 8%nat /\
    decode e = Ok (bs "Wxyz" ++ pad) /\ length pad = 2%nat.
Proof. apply (base64_roundtrip (bs "Wxyz")). by apply bytes_okb_spec. Defined.
