(* ===== verification/Element.v ===== *)
(** * XML elements of the Capture client (Element.h)

    The tree the client builds from the server's documents and prints to its
    own: attributes, children, data, and the printer [toString]. A wide
    character is its code, a [std::wstring] a list of them. The parent pointer
    of an element is not a field here: EventController.v keeps the chain of
    parents of the element under construction. *)
From Stdlib Require Import ZArith Lia.
From stdpp Require Import base list strings numbers.
From S2P Require Import Prelude.

Local Open Scope Z_scope.

Abbreviation wstring := (list Z).

(** ** boost::lexical_cast *)

(** lexical_cast of an int to a string *)
Definition print_int (x : Z) : wstring := if x <? 0 then 45 :: print_dec (- x) else print_dec x.

(** the value of a string of digits *)
Fixpoint digits_value (acc : Z) (s : wstring) : option Z :=
  match s with
  | [] => Some acc
  | c :: s' => if (48 <=? c) && (c <=? 57) then digits_value (acc * 10 + (c - 48)) s' else None
  end.

(** lexical_cast<int> of a string *)
Definition lexical_cast_int (s : wstring) : result Z :=
  let '(neg, t) := match s with
                   | 45 :: t => (true, t)
                   | 43 :: t => (false, t)
                   | _ => (false, s)
                   end in
  match t, digits_value 0 t with
  | _ :: _, Some v =>
    let v := if neg : bool then - v else v in
    if (-2147483648 <=? v) && (v <=? 2147483647) then Ok v else Fault BadCast
  | _, _ => Fault BadCast
  end.

(** ** Elements *)

Record Attribute := mkAttribute { a_name : wstring; a_value : wstring }.

Inductive Element := mkElement {
  name : wstring;
  attributes : list Attribute;
  data : bytes;
  childElements : list Element
}.

#[global] Instance Attribute_eq_dec : EqDecision Attribute.
Proof. solve_decision. Defined.

(** Element::Element() *)
Definition newElement : Element := mkElement [] [] [] [].

Definition addAttribute (e : Element) (n v : wstring) : Element :=
  mkElement (name e) (attributes e ++ [mkAttribute n v]) (data e) (childElements e).

(** getAttributeValue: the first attribute of the name, else the empty string *)
Fixpoint attribute_value (l : list Attribute) (n : wstring) : wstring :=
  match l with
  | [] => []
  | a :: l' => if bytes_eqb (a_name a) n then a_value a else attribute_value l' n
  end.
Definition getAttributeValue (e : Element) (n : wstring) : wstring :=
  attribute_value (attributes e) n.

Definition addChildElement (e child : Element) : Element :=
  mkElement (name e) (attributes e) (data e) (childElements e ++ [child]).

Definition setData (e : Element) (d : bytes) : Element :=
  mkElement (name e) (attributes e) d (childElements e).

Definition setName (e : Element) (n : wstring) : Element :=
  mkElement n (attributes e) (data e) (childElements e).

(** [ name="value"], with the value as it is *)
Definition print_attribute (a : Attribute) : wstring :=
  bs " " ++ a_name a ++ [61; 34] ++ a_value a ++ [34].

(** the data, widened character by character and appended as a C string; the
    two [_ASSERT]s are compiled in debug builds only *)
Definition print_data (d : bytes) : wstring :=
  if (0 <? length d)%nat then c_str (widen <$> d) else [].

Fixpoint toStringWithoutNewLine (e : Element) : wstring :=
  match e with
  | mkElement n atts d children =>
    bs "<" ++ n ++ concat (print_attribute <$> atts) ++ bs ">" ++
    concat (map toStringWithoutNewLine children) ++ print_data d ++
    bs "</" ++ n ++ bs ">"
  end.

Definition toString (e : Element) : wstring := toStringWithoutNewLine e ++ [13; 10].

Example toString_1 :
  toString (setData (addAttribute (setName newElement (bs "part")) (bs "name") (bs "a.exe")) (bs "TWFu"))
  = bs "<part name=" ++ [34] ++ bs "a.exe" ++ [34] ++ bs ">TWFu</part>" ++ [13; 10].
Proof. reflexivity. Qed.

(** Induction over an element and its children. *)
Lemma Element_ind' (P : Element -> Prop) :
  (forall n atts d children, Forall P children -> P (mkElement n atts d children)) ->
  forall e, P e.
Proof.
  intros H. fix IH 1. intros [n atts d children]. apply H.
  induction children as [|c r IHr]; [apply Forall_nil_2 | apply Forall_cons_2; [apply IH | apply IHr]].
Qed.
