(* ===== verification/Server.v ===== *)
(** * The connection to the server (Server.cpp, ServerReceive.cpp)

    What the Capture client sends (XML of its own printing, escaped) and how it
    cuts what it receives into documents. Winsock, the conversion to UTF-8 and
    the slots of the connection signal are the class [Peer], over a state that
    is its own type. *)
From Stdlib Require Import ZArith Lia.
From stdpp Require Import base list strings numbers.
From S2P Require Import Prelude Element.

Local Open Scope Z_scope.

Class Peer := {
  sworld : Type;
  utf8 : wstring -> bytes;                  (* WideCharToMultiByte, CP_UTF8; [] when it fails *)
  wcstombs : wstring -> bytes;
  s_send : bytes -> sworld -> Z * sworld;   (* on serverSocket *)
  s_recv : sworld -> (Z * bytes) * sworld;  (* with room for MAX_RECEIVE_BUFFER bytes *)
  s_closesocket : sworld -> sworld;
  s_socket : sworld -> sworld;
  s_connect : sworld -> bool * sworld;
  s_getaddrinfo : bytes -> bytes -> sworld -> bool * sworld;
  WSAStartup : sworld -> (Z * Z) * sworld;  (* the error and wVersion *)
  WSACleanup : sworld -> sworld;
  Sleep : Z -> sworld -> sworld;
  signalSetConnected : bool -> sworld -> sworld;
  receiver_start : sworld -> sworld;        (* serverReceive->start() *)
  receiver_running : sworld -> bool;        (* ServerReceive::running, cleared by other threads *)
}.

Definition SOCKET_ERROR : Z := -1.

(** ** Escaping *)

(** the replacement of the character, if it has one *)
Definition entity (c : Z) : option wstring :=
  if c =? 38 then Some (bs "&amp;")
  else if c =? 60 then Some (bs "&lt;")
  else if c =? 62 then Some (bs "&gt;")
  else if c =? 34 then Some (bs "&quot;")
  else if c =? 39 then Some (bs "&apos;")
  else None.

(** the for loop of xml_escape: [n] turns are left, at the position [i] of the
    string being escaped *)
Fixpoint escape_loop (n : nat) (i : nat) (escaped : wstring) : result wstring :=
  match n with
  | O => Ok escaped
  | S n' =>
    match escaped !! i with
    | None => Fault OutOfRange
    | Some c =>
      match entity c with
      | Some e => escaped ← str_replace escaped i 1 e; escape_loop n' (i + 1) escaped
      | None => escape_loop n' (i + 1) escaped
      end
    end
  end.

Definition xml_escape (xml : wstring) : result wstring := escape_loop (length xml) 0 xml.

Fixpoint print_escaped (atts : list Attribute) : result wstring :=
  match atts with
  | [] => Ok []
  | a :: atts' =>
    v ← xml_escape (a_value a);
    r ← print_escaped atts';
    Ok (bs " " ++ a_name a ++ [61; 34] ++ v ++ [34] ++ r)
  end.

(** the document sendXML sends *)
Definition xml_document (elementName : wstring) (atts : list Attribute) : result wstring :=
  r ← print_escaped atts;
  Ok (bs "<" ++ elementName ++ r ++ bs "/>" ++ [13; 10]).

Section Server.
Context `{Peer}.

Record Server := mkServer {
  connected : bool;
  reconnecting : bool;
  port : Z;
  serverAddress : wstring;
}.

Definition newServer (sAddress : wstring) (p : Z) : Server := mkServer false false p sAddress.

Definition setConnected (c : bool) (s : Server) (w : sworld) : Server * sworld :=
  (mkServer c (reconnecting s) (port s) (serverAddress s), signalSetConnected c w).

Definition sendData (data : bytes) (s : Server) (w : sworld) : Server * sworld :=
  if connected s then
    let '(r, w) := s_send data w in
    if r =? SOCKET_ERROR then setConnected false s w else (s, w)
  else (s, w).

Definition sendMessage (message : wstring) (s : Server) (w : sworld) : Server * sworld :=
  if connected s then
    let szMessage := utf8 message in
    if (0 <? length szMessage)%nat then
      let '(r, w) := s_send szMessage w in
      if r =? SOCKET_ERROR then setConnected false s w else (s, w)
    else (s, w)
  else (s, w).

Definition sendElement (e : Element) (s : Server) (w : sworld) : Server * sworld :=
  if connected s then sendMessage (toString e) s w else (s, w).

Definition sendXML (elementName : wstring) (atts : list Attribute) (s : Server) (w : sworld)
  : result (Server * sworld) :=
  if connected s then
    xmlDocument ← xml_document elementName atts;
    Ok (sendMessage xmlDocument s w)
  else Ok (s, w).

(** ** Connecting *)

Definition initialiseWinsock2 (w : sworld) : bool * sworld :=
  let '(error, wVersion, w) := WSAStartup w in
  if error =? 0 then
    if (Z.land wVersion 255 =? 2) || (Z.land (Z.shiftr wVersion 8) 255 =? 0) then (true, w)
    else (false, WSACleanup w)
  else (false, w).

(** [_itoa_s(port, sport, 6, 10)] *)
Definition itoa_s (p : Z) : result bytes :=
  let s := if p <? 0 then 45 :: print_dec (- p) else print_dec p in
  if (length s <=? 5)%nat then Ok s else Fault InvalidParameter.

(** [wcstombs_s] to 512 bytes of the array *)
Definition server_name (a : wstring) : result bytes :=
  if (length a <? 512)%nat then Ok (wcstombs a) else Fault InvalidParameter.

(** the while loop, [count] of the ten attempts left *)
Fixpoint connect_loop (count : nat) (startSenderAndReciever : bool) (s : Server) (w : sworld)
  : bool * (Server * sworld) :=
  match count with
  | O => (false, (s, w))
  | S count' =>
    let '(ok, w) := s_connect w in
    if ok then
      let '(s, w) := setConnected true s w in
      (true, (s, if startSenderAndReciever then receiver_start w else w))
    else connect_loop count' startSenderAndReciever s (Sleep 1000 w)
  end.

Definition connectToServer (startSenderAndReciever : bool) (s : Server) (w : sworld)
  : result (bool * (Server * sworld)) :=
  let '(ok, w) := initialiseWinsock2 w in
  if ok then
    sport ← itoa_s (port s);
    szServerAddress ← server_name (serverAddress s);
    let '(found, w) := s_getaddrinfo szServerAddress sport w in
    if found then
      match connect_loop 10 startSenderAndReciever s (s_socket w) with
      | (true, r) => Ok (true, r)
      | (false, (s, w)) => Ok (false, setConnected false s w)
      end
    else Ok (false, setConnected false s w)
  else Ok (false, setConnected false s w).

Definition disconnectFromServer (s : Server) (w : sworld) : Server * sworld :=
  let w := WSACleanup (s_closesocket w) in
  if connected s then setConnected false s w else (s, w).

Definition reconnect (s : Server) (w : sworld) : result (bool * (Server * sworld)) :=
  let s := mkServer (connected s) true (port s) (serverAddress s) in
  let '(s, w) := disconnectFromServer s (WSACleanup w) in
  r ← connectToServer false s w;
  let '(_, (s, w)) := r in
  Ok (true, (mkServer true (reconnecting s) (port s) (serverAddress s), w)).

(** ** Receiving *)

(** EventController::receiveServerEvent and the listeners it calls *)
Variable receiveServerEvent : bytes -> sworld -> result sworld.

(** the for loop over the bytes of one recv *)
Fixpoint receive_bytes (buffer : bytes) (xmlDocument : bytes) (w : sworld) : result (bytes * sworld) :=
  match buffer with
  | [] => Ok (xmlDocument, w)
  | c :: buffer' =>
    if negb (c =? 0) then receive_bytes buffer' (xmlDocument ++ [c]) w
    else w ← receiveServerEvent xmlDocument w; receive_bytes buffer' [] w
  end.

(** the inner while loop: the last count of recv; one unit of fuel per recv *)
Fixpoint receive_loop (fuel : nat) (bytesRecv : Z) (xmlDocument : bytes) (w : sworld)
  : result (Z * sworld) :=
  if receiver_running w then
    match fuel with
    | O => Fault OutOfFuel
    | S fuel' =>
      let '((bytesRecv, buffer), w) := s_recv w in
      if 2 <? bytesRecv then
        r ← receive_bytes (take (Z.to_nat bytesRecv) buffer) xmlDocument w;
        let '(xmlDocument, w) := r in
        receive_loop fuel' bytesRecv xmlDocument (Sleep 100 w)
      else Ok (bytesRecv, w)
    end
  else Ok (bytesRecv, w).

(** ServerReceive::run; [turns] bounds the outer loop, [fuel] each inner one *)
Fixpoint receiver_run (turns fuel : nat) (s : Server) (w : sworld) : result (Server * sworld) :=
  if receiver_running w && connected s then
    match turns with
    | O => Fault OutOfFuel
    | S turns' =>
      r ← receive_loop fuel 0 [] w;
      let '(bytesRecv, w) := r in
      if bytesRecv <? 0 then
        r ← reconnect s w;
        let '(_, (s, w)) := r in
        receiver_run turns' fuel s w
      else receiver_run turns' fuel s w
    end
  else Ok (s, w).
End Server.

(** ** What escaping does *)

(** The characters as far as the escaped text stays within [budget]
    characters are escaped, what follows is left as it is. *)
Fixpoint escape_within (budget : nat) (v : wstring) : wstring :=
  match v with
  | [] => []
  | c :: v' =>
    if (budget =? 0)%nat then v
    else match entity c with
         | Some e => e ++ escape_within (budget - length e) v'
         | None => c :: escape_within (budget - 1) v'
         end
  end.

(** Every special character escaped. *)
Definition escape_all (v : wstring) : wstring := v ≫= (fun c => default [c] (entity c)).

(** the escape loop reaches every special character *)
Fixpoint escape_fits (budget : nat) (v : wstring) : bool :=
  match v with
  | [] => true
  | c :: v' =>
    match entity c with
    | Some e => (0 <? budget)%nat && escape_fits (budget - length e) v'
    | None => escape_fits (budget - 1) v'
    end
  end.

(** an entity is an ampersand and characters that are not escaped *)
Lemma entity_shape c e : entity c = Some e -> exists t, e = 38 :: t /\ Forall (fun x => entity x = None) t.
Proof.
  unfold entity at 1. intros E.
  repeat (case_match; [injection E as <-; eexists; split; [reflexivity |];
    repeat (apply Forall_cons_2; [reflexivity |]); apply Forall_nil_2 |]). done.
Qed.

(** the loop over characters that are not escaped *)
Lemma escape_skip t n a b :
  Forall (fun x => entity x = None) t ->
  escape_loop n (length a) (a ++ t ++ b) =
    escape_loop (n - length t) (length a + length t) (a ++ t ++ b).
Proof.
  intros F. revert n a. induction F as [|x t Hx F IH]; intros n a; [by rewrite Nat.add_0_r, Nat.sub_0_r |].
  destruct n as [|n]; [done |]. cbn [escape_loop length app].
  rewrite list_lookup_middle by done. rewrite Hx.
  replace (a ++ x :: t ++ b) with ((a ++ [x]) ++ t ++ b) by (by rewrite <- app_assoc).
  replace (length a + 1)%nat with (length (a ++ [x])) by (rewrite length_app; done).
  rewrite IH, length_app. cbn [length]. f_equal; lia.
Qed.

Lemma escape_loop_within v n a :
  (n <= length v)%nat -> escape_loop n (length a) (a ++ v) = Ok (a ++ escape_within n v).
Proof.
  revert n a. induction v as [|c v IH]; intros n a L; [by destruct n; [rewrite !app_nil_r | cbn in L; lia] |].
  destruct n as [|n]; [done |]. cbn [escape_loop escape_within Nat.eqb].
  rewrite list_lookup_middle by done. destruct (entity c) as [e|] eqn:E.
  - unfold str_replace. rewrite length_app. cbn [length] in L |- *.
    rewrite (proj2 (Nat.ltb_ge _ _)) by lia. cbn [mbind result_bind].
    rewrite take_app_length. rewrite (drop_app_ge a) by lia.
    replace (length a + 1 - length a)%nat with 1%nat by lia. change (drop 1 (c :: v)) with (drop 0 v). rewrite drop_0.
    destruct (entity_shape c e E) as (t & -> & F).
    replace (a ++ (38 :: t) ++ v) with ((a ++ [38]) ++ t ++ v) by (by rewrite <- !app_assoc).
    replace (length a + 1)%nat with (length (a ++ [38])) by (rewrite length_app; done).
    rewrite escape_skip by done. rewrite (app_assoc _ t v), <- length_app.
    rewrite IH by lia. cbn [length Nat.sub]. by rewrite <- !app_assoc.
  - replace (a ++ c :: v) with ((a ++ [c]) ++ v) by (by rewrite <- app_assoc).
    replace (length a + 1)%nat with (length (a ++ [c])) by (rewrite length_app; done).
    cbn [length] in L. rewrite IH by lia. rewrite <- app_assoc. cbn [app].
    by replace (S n - 1)%nat with n by lia.
Qed.

Lemma escape_within_all budget v : escape_fits budget v = true -> escape_within budget v = escape_all v.
Proof.
  revert budget. induction v as [|c v IH]; intros budget F; [done |].
  unfold escape_all. cbn in F |- *. fold (escape_all v).
  destruct (entity c) as [e|] eqn:E; cbn.
  - apply andb_true_iff in F as [P F]. destruct budget as [|b]; [done |]. cbn [Nat.eqb]. by rewrite IH.
  - destruct budget as [|b]; cbn; [| by rewrite IH]. rewrite <- (IH 0%nat) by done. by destruct v.
Qed.

(** ** A reader of the documents the client sends *)

(** The text of an attribute value, entities resolved; [None] where XML does
    not allow it. *)
Fixpoint unescape (fuel : nat) (s : wstring) : option wstring :=
  match s with
  | [] => Some []
  | c :: s' =>
    match fuel with
    | O => None
    | S fuel' =>
      if c =? 38 then
        match filter (fun p => prefixb p.2 s)
                [(38, bs "&amp;"); (60, bs "&lt;"); (62, bs "&gt;"); (34, bs "&quot;"); (39, bs "&apos;")] with
        | (x, e) :: _ => cons x <$> unescape fuel' (drop (length e) s)
        | [] => None
        end
      else if c =? 60 then None
      else cons c <$> unescape fuel' s'
    end
  end.

(** the characters up to the first of [stop], and the rest *)
Fixpoint read_until (stop : Z -> bool) (s : wstring) : wstring * wstring :=
  match s with
  | [] => ([], [])
  | c :: s' => if stop c then ([], s) else let '(t, r) := read_until stop s' in (c :: t, r)
  end.

(** a character that ends a name: white space, [=], [/] or [>] *)
Definition name_end (c : Z) : bool := (c =? 32) || (c =? 61) || (c =? 47) || (c =? 62).
Definition quote (c : Z) : bool := c =? 34.

(** the attributes up to [/>] and the end of the line *)
Fixpoint read_attributes (fuel : nat) (s : wstring) : option (list Attribute) :=
  match fuel with
  | O => None
  | S fuel' =>
    if bytes_eqb s (bs "/>" ++ [13; 10]) then Some []
    else if prefixb (bs " ") s then
      let '(n, r) := read_until name_end (drop 1 s) in
      if prefixb [61; 34] r then
        let '(t, r) := read_until quote (drop 2 r) in
        v ← unescape (length t) t;
        if prefixb [34] r then cons (mkAttribute n v) <$> read_attributes fuel' (drop 1 r) else None
      else None
    else None
  end.

Definition read_element (s : wstring) : option (wstring * list Attribute) :=
  if prefixb (bs "<") s then
    let '(n, r) := read_until name_end (drop 1 s) in
    atts ← read_attributes (length r) r;
    Some (n, atts)
  else None.

Definition name_ok (n : wstring) : bool := forallb (fun c => negb (name_end c)) n.

Definition attribute_ok (a : Attribute) : bool :=
  name_ok (a_name a) && escape_fits (length (a_value a)) (a_value a).

Lemma read_until_app stop t r :
  forallb (fun c => negb (stop c)) t = true -> stop (str_at r 0) = true -> r <> [] ->
  read_until stop (t ++ r) = (t, r).
Proof.
  intros F S N. induction t as [|c t IH]; cbn in *.
  - destruct r; [done |]. cbn in *. by rewrite S.
  - apply andb_true_iff in F as [F1 F]. apply negb_true_iff in F1. by rewrite F1, IH.
Qed.

Lemma escape_all_no_quote v : forallb (fun c => negb (quote c)) (escape_all v) = true.
Proof.
  induction v as [|c v IH]; [done |]. unfold escape_all. cbn. fold (escape_all v).
  rewrite forallb_app, IH, andb_true_r. unfold entity, quote.
  repeat (case_match; [reflexivity |]). cbn. by rewrite andb_true_r, H2.
Qed.

Lemma unescape_entity c e fuel r :
  entity c = Some e -> unescape (S fuel) (e ++ r) = cons c <$> unescape fuel r.
Proof.
  unfold entity. intros E.
  repeat (case_match; [breflect; simplify_eq; reflexivity |]). done.
Qed.

Lemma unescape_all v fuel : (length (escape_all v) <= fuel)%nat -> unescape fuel (escape_all v) = Some v.
Proof.
  revert fuel. induction v as [|c v IH]; intros fuel; [by destruct fuel |].
  unfold escape_all. cbn. fold (escape_all v). rewrite length_app. intros L.
  destruct (entity c) as [e|] eqn:E; cbn in L |- *.
  - destruct (entity_shape c e E) as (t & -> & _). cbn [length] in L.
    destruct fuel as [|fuel]; [lia |]. rewrite (unescape_entity c) by done. by rewrite IH by lia.
  - destruct fuel as [|fuel]; [lia |]. unfold entity in E. cbn.
    destruct (c =? 38); [done |]. destruct (c =? 60); [done |]. by rewrite IH by lia.
Qed.

Lemma xml_escape_within v : xml_escape v = Ok (escape_within (length v) v).
Proof. exact (escape_loop_within v (length v) [] ltac:(lia)). Qed.

Lemma xml_document_ok elementName atts : exists d, xml_document elementName atts = Ok d /\ d <> [].
Proof.
  assert (K : exists r, print_escaped atts = Ok r).
  { induction atts as [|a atts [r IH]]; [by eexists |]. cbn. rewrite xml_escape_within. cbn.
    rewrite IH. by eexists. }
  destruct K as [r K]. unfold xml_document. rewrite K. by eexists.
Qed.

Lemma print_escaped_fits atts :
  forallb attribute_ok atts = true ->
  print_escaped atts =
    Ok (atts ≫= (fun a => bs " " ++ a_name a ++ [61; 34] ++ escape_all (a_value a) ++ [34])).
Proof.
  induction atts as [|a atts IH]; intros F; [done |]. cbn in F |- *.
  apply andb_true_iff in F as [Fa F]. apply andb_true_iff in Fa as [_ Fv].
  rewrite xml_escape_within. cbn. rewrite IH by done. cbn.
  rewrite escape_within_all by done. repeat (rewrite <- app_assoc; cbn [app]). done.
Qed.

Lemma read_attributes_print atts fuel :
  forallb attribute_ok atts = true -> (length atts < fuel)%nat ->
  read_attributes fuel
    ((atts ≫= (fun a => bs " " ++ a_name a ++ [61; 34] ++ escape_all (a_value a) ++ [34]))
     ++ bs "/>" ++ [13; 10]) = Some atts.
Proof.
  revert fuel. induction atts as [|[n v] atts IH]; intros fuel F L; (destruct fuel as [|fuel]; [cbn in L; lia |]).
  - done.
  - cbn [forallb length] in F, L. apply andb_true_iff in F as [Fa F]. apply andb_true_iff in Fa as [Fn Fv].
    cbn [a_name a_value] in Fn. cbn [mbind list_bind a_name a_value]. rewrite <- !app_assoc.
    cbn [read_attributes]. change (bs " ") with [32].
    case_match eqn:Q; [by apply bytes_eqb_eq in Q |].
    rewrite prefixb_self. cbn [app]. rewrite skipn_cons, drop_0.
    rewrite (read_until_app name_end n) by done. cbn [prefixb]. rewrite !Z.eqb_refl. cbn [andb].
    rewrite !skipn_cons, drop_0. rewrite (read_until_app quote (escape_all v)) by (first [done | apply escape_all_no_quote]).
    rewrite unescape_all by lia. cbn [mbind option_bind]. rewrite Z.eqb_refl.
    by rewrite IH by (first [done | lia]).
Qed.

(** C16: XML round trip: when the loop of [xml_escape] reaches every special
    character of the attribute values, [sendXML] sends a document from which a
    reader of XML gets the element name and the attributes back. *)
Theorem xml_document_roundtrip elementName atts :
  name_ok elementName = true -> forallb attribute_ok atts = true ->
  exists d, xml_document elementName atts = Ok d /\ read_element d = Some (elementName, atts).
Proof.
  intros Fn F. unfold xml_document. rewrite print_escaped_fits by done. eexists. split; [reflexivity |].
  unfold read_element. rewrite prefixb_self. change (bs "<") with [60]. cbn [app]. rewrite skipn_cons, drop_0.
  set (t := (_ ≫= _) ++ _).
  assert (N : name_end (str_at t 0) = true /\ t <> []) by (by destruct atts).
  destruct N as [N1 N2]. rewrite read_until_app by done. unfold t.
  rewrite read_attributes_print; [done | done |].
  clear. rewrite length_app. change (length (bs "/>" ++ [13; 10])) with 4%nat.
  induction atts as [|a atts IH]; [cbn; lia |].
  cbn [mbind list_bind]. rewrite !length_app. change (length (bs " ")) with 1%nat. cbn [length] in *. lia.
Qed.

Lemma xml_document_roundtrip_witness :
  exists d, xml_document (bs "file") [mkAttribute (bs "name") (bs "C:\R&D plan.txt")] = Ok d /\
    read_element d = Some (bs "file", [mkAttribute (bs "name") (bs "C:\R&D plan.txt")]).
Proof. apply xml_document_roundtrip; vm_compute; reflexivity. Defined.

(** What the loop does not reach is sent as it is: here the second character
    of the value, and the document is not XML. *)
Example escape_short :
  xml_escape (bs "&<") = Ok (bs "&amp;<") /\
  read_element (bs "<file name=" ++ [34] ++ bs "&amp;<" ++ [34] ++ bs "/>" ++ [13; 10]) = None.
Proof. by vm_compute. Qed.

(** ** What the receiver hands over *)

Section Receive.
Context `{Peer} (receiveServerEvent : bytes -> sworld -> result sworld).

(** A view of the state in which [incoming] are the pieces the next calls of
    recv return and [heard] the documents handed to the event controller, and
    in which the receiver is not stopped. *)
Class Inbox := {
  incoming : sworld -> list bytes;
  heard : sworld -> list bytes;
  recv_next : forall w p ps, incoming w = p :: ps ->
    exists w', s_recv w = ((Z.of_nat (length p), p), w') /\ incoming w' = ps /\
      heard w' = heard w /\ receiver_running w' = receiver_running w;
  sleep_same : forall n w, incoming (Sleep n w) = incoming w /\
    heard (Sleep n w) = heard w /\ receiver_running (Sleep n w) = receiver_running w;
  event_heard : forall d w, exists w', receiveServerEvent d w = Ok w' /\ incoming w' = incoming w /\
    heard w' = heard w ++ [d] /\ receiver_running w' = receiver_running w;
}.
Context `{Inbox}.

(** the complete documents of a text and what is open at its end *)
Fixpoint cut (text doc : bytes) : list bytes * bytes :=
  match text with
  | [] => ([], doc)
  | c :: text' =>
    if c =? 0 then let '(ds, d) := cut text' [] in (doc :: ds, d) else cut text' (doc ++ [c])
  end.

Lemma cut_app a b doc :
  cut (a ++ b) doc =
    let '(ds, d) := cut a doc in let '(es, e) := cut b d in (ds ++ es, e).
Proof.
  revert doc. induction a as [|c a IH]; intros doc; cbn; [by destruct (cut b doc) |].
  destruct (c =? 0); rewrite IH; [| done]. destruct (cut a []) as [ds d]. by destruct (cut b d).
Qed.

Lemma cut_split text doc :
  exists t ts, split_on 0 text = t :: ts /\ (cut text doc).1 ++ [(cut text doc).2] = (doc ++ t) :: ts.
Proof.
  revert doc. induction text as [|c text IH]; intros doc; cbn; [exists [], []; by rewrite app_nil_r |].
  destruct (c =? 0).
  - destruct (IH []) as (t & ts & -> & E). destruct (cut text []). cbn in *.
    rewrite E. eexists [], _. by rewrite app_nil_r.
  - destruct (IH (doc ++ [c])) as (t & ts & -> & ->). eexists _, _. split; [done |]. by rewrite <- app_assoc.
Qed.

Lemma cut_documents text : (cut text []).1 = removelast (split_on 0 text).
Proof.
  destruct (cut_split text []) as (t & ts & -> & E). cbn in E. rewrite <- E.
  by rewrite removelast_last.
Qed.

Lemma receive_bytes_cut buffer doc w :
  exists w', receive_bytes receiveServerEvent buffer doc w = Ok ((cut buffer doc).2, w') /\
    incoming w' = incoming w /\ heard w' = heard w ++ (cut buffer doc).1 /\
    receiver_running w' = receiver_running w.
Proof.
  revert doc w. induction buffer as [|c buffer IH]; intros doc w; cbn;
    [exists w; by rewrite app_nil_r |].
  destruct (c =? 0); cbn; [| apply IH].
  destruct (event_heard doc w) as (w1 & -> & I1 & H1 & R1). cbn.
  destruct (IH [] w1) as (w2 & -> & I2 & H2 & R2). exists w2. destruct (cut buffer []). cbn in *.
  rewrite H2, H1, <- app_assoc. split_and!; first [done | congruence].
Qed.

Lemma receive_loop_cut ps last rest doc n0 fuel w :
  receiver_running w = true -> incoming w = ps ++ last :: rest ->
  Forall (fun p : bytes => 2 < length p)%nat ps -> (length last <= 2)%nat -> (length ps < fuel)%nat ->
  exists w', receive_loop receiveServerEvent fuel n0 doc w = Ok (Z.of_nat (length last), w') /\
    heard w' = heard w ++ (cut (concat ps) doc).1 /\ incoming w' = rest /\ receiver_running w' = true.
Proof.
  intros R I F L. revert doc n0 fuel w R I.
  induction F as [|p ps Lp F IH]; intros doc n0 fuel w R I Lf; (destruct fuel as [|fuel]; [lia |]);
    cbn [receive_loop]; rewrite R; destruct (recv_next w _ _ I) as (w1 & -> & I1 & H1 & R1).
  - rewrite (proj2 (Z.ltb_ge _ _)) by lia. exists w1. cbn. rewrite app_nil_r. split_and!; congruence.
  - rewrite (proj2 (Z.ltb_lt _ _)) by lia. rewrite Nat2Z.id, take_ge by lia.
    destruct (receive_bytes_cut p doc w1) as (w2 & -> & I2 & H2 & R2). cbn [mbind result_bind].
    destruct (sleep_same 100 w2) as (I3 & H3 & R3). cbn [length] in Lf.
    destruct (IH (cut p doc).2 (Z.of_nat (length p)) fuel (Sleep 100 w2)) as (w4 & -> & H4 & I4 & R4);
      [congruence | by rewrite I3, I2 | lia |].
    exists w4. split_and!; [done | | done | done]. cbn [concat]. rewrite cut_app.
    destruct (cut p doc) as [ds d]. cbn in *. destruct (cut (concat ps) d) as [es e]. cbn in *.
    by rewrite H4, H3, H2, H1, <- app_assoc.
Qed.

(** C15: Framing: however the server's stream is cut, as long as every call of
    recv returns more than two bytes the documents handed over are exactly the
    pieces of the stream that end in a NUL; a call that returns one or two
    bytes ends the loop, and these bytes are lost with the document that is
    open (after a NUL at the end of the stream nothing is open). *)
Theorem receive_documents ps last rest fuel w :
  receiver_running w = true -> incoming w = ps ++ last :: rest ->
  Forall (fun p : bytes => 2 < length p)%nat ps -> (length last <= 2)%nat -> (length ps < fuel)%nat ->
  exists w', receive_loop receiveServerEvent fuel 0 [] w = Ok (Z.of_nat (length last), w') /\
    heard w' = heard w ++ removelast (split_on 0 (concat ps)) /\ incoming w' = rest.
Proof.
  intros R I F L Lf. destruct (receive_loop_cut ps last rest [] 0 fuel w R I F L Lf) as (w' & E & Hh & Hi & _).
  exists w'. by rewrite <- cut_documents.
Qed.
End Receive.

(** ** What the client sends *)

(** A view of the state in which [outbox] are the messages sent, and sending
    does not fail. *)
Class Outbox `{Peer} := {
  outbox : sworld -> list bytes;
  send_kept : forall b w, exists n w', s_send b w = (n, w') /\ n <> SOCKET_ERROR /\
    outbox w' = outbox w ++ [b];
  utf8_some : forall m, m <> [] -> utf8 m <> [];
}.

Lemma sendMessage_sent `{Outbox} m s w :
  connected s = true -> m <> [] ->
  exists w', sendMessage m s w = (s, w') /\ outbox w' = outbox w ++ [utf8 m].
Proof.
  intros C N. unfold sendMessage. rewrite C. pose proof (utf8_some m N) as U.
  destruct (utf8 m) as [|b l] eqn:E; [done |]. cbn [length Nat.ltb Nat.leb].
  destruct (send_kept (b :: l) w) as (n & w' & -> & Nn & O). exists w'.
  by rewrite (proj2 (Z.eqb_neq _ _)).
Qed.

Lemma sendXML_sent `{Outbox} elementName atts s w :
  connected s = true ->
  exists d w', xml_document elementName atts = Ok d /\ sendXML elementName atts s w = Ok (s, w') /\
    outbox w' = outbox w ++ [utf8 d].
Proof.
  intros C. destruct (xml_document_ok elementName atts) as (d & E & N).
  destruct (sendMessage_sent d s w C N) as (w' & S & O).
  exists d, w'. unfold sendXML. rewrite C, E. cbn. by rewrite S.
Qed.

Lemma sendElement_sent `{Outbox} e s w :
  connected s = true ->
  exists w', sendElement e s w = (s, w') /\ outbox w' = outbox w ++ [utf8 (toString e)].
Proof.
  intros C. unfold sendElement. rewrite C. apply sendMessage_sent; [done |].
  unfold toString. by destruct e.
Qed.

(** ** A peer to run against: pieces that arrive, documents heard, messages sent *)

Record link := mk_link {
  link_in : list bytes;
  link_heard : list bytes;
  link_sent : list bytes;
}.

#[local] Instance Link : Peer := {|
  sworld := link;
  utf8 m := u8 <$> m;
  wcstombs m := u8 <$> m;
  s_send b w := (Z.of_nat (length b), mk_link (link_in w) (link_heard w) (link_sent w ++ [b]));
  s_recv w := match link_in w with
              | [] => ((0, []), w)
              | p :: ps => ((Z.of_nat (length p), p), mk_link ps (link_heard w) (link_sent w))
              end;
  s_closesocket w := w;
  s_socket w := w;
  s_connect w := (true, w);
  s_getaddrinfo a p w := (true, w);
  WSAStartup w := ((0, 2), w);
  WSACleanup w := w;
  Sleep n w := w;
  signalSetConnected c w := w;
  receiver_start w := w;
  receiver_running w := true;
|}.

Definition link_event (d : bytes) (w : link) : result link :=
  Ok (mk_link (link_in w) (link_heard w ++ [d]) (link_sent w)).

#[local] Instance Link_inbox : Inbox (H := Link) link_event.
Proof.
  refine {| incoming := (link_in : sworld -> _); heard := (link_heard : sworld -> _) |}.
  - intros w p ps E. cbn in *. rewrite E. by eexists.
  - done.
  - intros d w. by eexists.
Defined.

Definition link_pieces : link :=
  mk_link [bs "<vi"; bs "sit/>" ++ [0] ++ bs "<op"; bs "tion/" ; bs ">"; [0]] [] [].

Lemma receive_documents_witness :
  exists w', receive_loop (H := Link) link_event 4 0 [] link_pieces = Ok (1, w') /\
    heard link_event w' = [bs "<visit/>"] /\ incoming link_event w' = [[0]].
Proof.
  destruct (receive_documents (H := Link) link_event
           [bs "<vi"; bs "sit/>" ++ [0] ++ bs "<op"; bs "tion/"] (bs ">") [[0]] 4 link_pieces)
    as (w' & E & Hh & Hi); [reflexivity | reflexivity | | vm_compute; lia | vm_compute; lia |].
  - repeat (apply Forall_cons_2; [vm_compute; lia |]). apply Forall_nil_2.
  - exists w'. split; [exact E |]. split; [rewrite Hh; reflexivity | exact Hi].
Defined.
