(* ===== verification/EventController.v ===== *)
(** * Event dispatch of the Capture client (EventController.cpp)

    The SAX callbacks that build an element tree from a document of the server
    and hand it to the listeners of its name. The XML parser (expat) is a
    function from a document to its callbacks. The element under construction
    and the chain of its parents are a zipper: the C++ code adds a new element
    to its parent at once and then changes it through [currentElement], here
    it is added when it is left; nobody looks at a parent in between. *)
From Stdlib Require Import ZArith Lia.
From stdpp Require Import base gmap list strings numbers.
From S2P Require Import Prelude Element.

Local Open Scope Z_scope.

(** what expat reports *)
Inductive sax_event :=
  | StartElement (n : bytes) (atts : list (bytes * bytes))
  | EndElement (n : bytes)
  | CharData (s : bytes).

(** [*currentElement] and its parents, the nearest first *)
Record cursor := mkCursor { c_elem : Element; c_parents : list Element }.

Section Controller.
(** the slots, and whether assert is compiled out *)
Context {slot : Type} (ndebug : bool).

Record EventController := mkController {
  onServerEventMap : gmap wstring (list slot);
  currentElement : option cursor;
}.

Definition newController : EventController := mkController ∅ None.

Definition with_current (c : option cursor) (ec : EventController) : EventController :=
  mkController (onServerEventMap ec) c.

(** a new slot of an event type is called after those that are there *)
Definition connect_onServerEvent (eventType : wstring) (s : slot) (ec : EventController)
  : EventController :=
  match onServerEventMap ec !! eventType with
  | Some l => mkController (<[eventType := l ++ [s]]> (onServerEventMap ec)) (currentElement ec)
  | None => mkController (<[eventType := [s]]> (onServerEventMap ec)) (currentElement ec)
  end.

(** the calls of slots with their element, in order *)
Definition notifyListeners (c : cursor) (ec : EventController)
  : EventController * list (slot * Element) :=
  if (0 <? length (name (c_elem c)))%nat then
    (with_current None ec,
     (fun s => (s, c_elem c)) <$> default [] (onServerEventMap ec !! name (c_elem c)))
  else (with_current (Some c) ec, []).

(** startElement; mbstowcs_s in the C locale makes a wide character of each
    byte *)
Definition startElement (n : bytes) (atts : list (bytes * bytes)) (ec : EventController)
  : EventController :=
  let c := match currentElement ec with
           | None => mkCursor newElement []
           | Some c => if negb (bytes_eqb (name (c_elem c)) n)
                       then mkCursor newElement (c_elem c :: c_parents c) else c
           end in
  let e := setName (c_elem c) n in
  let e := foldl (fun e a => addAttribute e a.1 a.2) e atts in
  with_current (Some (mkCursor e (c_parents c))) ec.

Definition endElement (n : bytes) (ec : EventController)
  : result (EventController * list (slot * Element)) :=
  match currentElement ec with
  | None => Fault NullDeref
  | Some c =>
    match c_parents c with
    | [] => Ok (notifyListeners c ec)
    | p :: ps =>
      if bytes_eqb (name (c_elem c)) n
      then Ok (with_current (Some (mkCursor (addChildElement p (c_elem c)) ps)) ec, [])
      else if ndebug then Ok (ec, []) else Fault AssertFailed
    end
  end.

Definition charData (s : bytes) (ec : EventController) : result EventController :=
  match currentElement ec with
  | None => Fault NullDeref
  | Some c => Ok (with_current (Some (mkCursor (setData (c_elem c) s) (c_parents c))) ec)
  end.

Definition handle (ev : sax_event) (ec : EventController)
  : result (EventController * list (slot * Element)) :=
  match ev with
  | StartElement n atts => Ok (startElement n atts ec, [])
  | EndElement n => endElement n ec
  | CharData s => ec ← charData s ec; Ok (ec, [])
  end.

Fixpoint handle_all (evs : list sax_event) (ec : EventController)
  : result (EventController * list (slot * Element)) :=
  match evs with
  | [] => Ok (ec, [])
  | ev :: evs' =>
    r ← handle ev ec;
    r' ← handle_all evs' r.1;
    Ok (r'.1, r.2 ++ r'.2)
  end.

(** receiveServerEvent, with the callbacks expat makes for a document *)
Definition receiveServerEvent (parseString : bytes -> list sax_event) (xmlDocument : bytes)
  (ec : EventController) : result (EventController * list (slot * Element)) :=
  handle_all (parseString xmlDocument) ec.
End Controller.
Arguments EventController : clear implicits.

(** ** Documents and the trees they stand for *)

Inductive xml :=
  | Node (n : bytes) (atts : list (bytes * bytes)) (content : list xml)
  | Text (s : bytes).

(** the callbacks of a document: a start, the content, an end; a text is
    reported in one or several pieces *)
Fixpoint events (x : xml) : list sax_event :=
  match x with
  | Node n atts content => StartElement n atts :: concat (map events content) ++ [EndElement n]
  | Text s => [CharData s]
  end.

Definition attributes_of (atts : list (bytes * bytes)) : list Attribute :=
  (fun a => mkAttribute a.1 a.2) <$> atts.

(** what an item of the content does to the element around it *)
Definition absorb (absorb_node : xml -> Element) (e : Element) (x : xml) : Element :=
  match x with
  | Node _ _ _ => addChildElement e (absorb_node x)
  | Text s => setData e s
  end.

(** the element of a document: its children in order, and as data the last
    piece of text alone *)
Fixpoint element_of (x : xml) : Element :=
  match x with
  | Node n atts content =>
    fold_left (absorb element_of) content (mkElement n (attributes_of atts) [] [])
  | Text s => newElement
  end.

Definition named (n : bytes) (x : xml) : bool :=
  match x with Node m _ _ => bytes_eqb m n | Text _ => false end.

(** no element has the name of its parent *)
Fixpoint distinct (x : xml) : bool :=
  match x with
  | Node n _ content => forallb (fun y => negb (named n y) && distinct y) content
  | Text _ => true
  end.

Lemma xml_ind' (P : xml -> Prop) :
  (forall n atts content, Forall P content -> P (Node n atts content)) ->
  (forall s, P (Text s)) -> forall x, P x.
Proof.
  intros HN HT. fix IH 1. intros [n atts content | s]; [| apply HT]. apply HN.
  induction content as [|c r IHr]; [apply Forall_nil_2 | apply Forall_cons_2; [apply IH | apply IHr]].
Qed.

(** ** Delivery *)

Section Delivery.
Context {slot : Type} (ndebug : bool).
Implicit Types ec : EventController slot.

Lemma handle_all_app a b ec :
  handle_all ndebug (a ++ b) ec =
    (r ← handle_all ndebug a ec; r' ← handle_all ndebug b r.1; Ok (r'.1, r.2 ++ r'.2)).
Proof.
  revert ec. induction a as [|ev a IH]; intros ec; cbn.
  - by destruct (handle_all ndebug b ec) as [[]|].
  - destruct (handle ndebug ev ec) as [[ec1 c1]|]; cbn; [| done]. rewrite IH.
    destruct (handle_all ndebug a ec1) as [[ec2 c2]|]; cbn; [| done].
    destruct (handle_all ndebug b ec2) as [[ec3 c3]|]; cbn; [| done]. by rewrite app_assoc.
Qed.

Lemma foldl_addAttribute atts e :
  foldl (fun e a => addAttribute e a.1 a.2) e atts =
    mkElement (name e) (attributes e ++ attributes_of atts) (data e) (childElements e).
Proof.
  revert e. induction atts as [|a atts IH]; intros e; cbn; [by destruct e; cbn; rewrite app_nil_r |].
  rewrite IH. cbn. by rewrite <- app_assoc.
Qed.

(** a start callback below an element of another name opens a child *)
Lemma start_child n atts e ps ec :
  name e <> n ->
  startElement n atts (with_current (Some (mkCursor e ps)) ec) =
    with_current (Some (mkCursor (mkElement n (attributes_of atts) [] []) (e :: ps))) ec.
Proof.
  intros N. unfold startElement. cbn. case_match eqn:Q; cbn; rewrite foldl_addAttribute; [done |].
  apply negb_false_iff, bytes_eqb_eq in Q. done.
Qed.

Lemma start_root n atts ec :
  startElement n atts (with_current None ec) =
    with_current (Some (mkCursor (mkElement n (attributes_of atts) [] []) [])) ec.
Proof. unfold startElement. cbn. by rewrite foldl_addAttribute. Qed.

Lemma absorb_name f content e : name (fold_left (absorb f) content e) = name e.
Proof. revert e. induction content as [|x content IH]; intros e; cbn; [done |]. rewrite IH. by destruct x. Qed.

Lemma absorb_attributes f content e : attributes (fold_left (absorb f) content e) = attributes e.
Proof. revert e. induction content as [|x content IH]; intros e; cbn; [done |]. rewrite IH. by destruct x. Qed.

(** the callbacks of an item inside an element are absorbed by it *)
Definition absorbed (x : xml) : Prop :=
  forall e ps ec, distinct x = true -> named (name e) x = false ->
    handle_all ndebug (events x) (with_current (Some (mkCursor e ps)) ec) =
      Ok (with_current (Some (mkCursor (absorb element_of e x) ps)) ec, []).

Lemma content_absorbed content e ps ec :
  Forall absorbed content ->
  forallb (fun y => negb (named (name e) y) && distinct y) content = true ->
  handle_all ndebug (concat (map events content)) (with_current (Some (mkCursor e ps)) ec) =
    Ok (with_current (Some (mkCursor (fold_left (absorb element_of) content e) ps)) ec, []).
Proof.
  intros F. revert e. induction F as [|x content Hx F IH]; intros e D; cbn; [done |].
  cbn in D. apply andb_true_iff in D as [Dx D]. apply andb_true_iff in Dx as [Nx Dx].
  apply negb_true_iff in Nx. rewrite handle_all_app, Hx by done. cbn.
  rewrite IH; [done |]. by destruct x.
Qed.

Lemma xml_absorbed x : absorbed x.
Proof.
  induction x as [n atts content IH | s] using xml_ind'; intros e ps ec D N; [| done].
  cbn in D, N. cbn [events handle_all handle mbind result_bind fst snd].
  assert (Ne : name e <> n).
  { intros <-. by rewrite bytes_eqb_refl in N. }
  rewrite start_child by done. rewrite handle_all_app, content_absorbed by done.
  cbn [mbind result_bind fst snd handle_all handle endElement currentElement with_current
       onServerEventMap c_parents c_elem].
  rewrite absorb_name. cbn [name]. rewrite bytes_eqb_refl. done.
Qed.

(** a whole document with no element under construction *)
Lemma root_delivered n atts content ec :
  n <> [] -> distinct (Node n atts content) = true ->
  handle_all ndebug (events (Node n atts content)) (with_current None ec) =
    Ok (with_current None ec,
        (fun s => (s, element_of (Node n atts content))) <$> default [] (onServerEventMap ec !! n)).
Proof.
  intros Nn D. cbn [events handle_all handle mbind result_bind fst snd]. rewrite start_root.
  rewrite handle_all_app, content_absorbed; [| by apply Forall_true, xml_absorbed | done].
  cbn [mbind result_bind fst snd handle_all handle endElement currentElement with_current
       onServerEventMap c_parents c_elem]. unfold notifyListeners.
  cbn [c_elem]. rewrite absorb_name. cbn [name]. rewrite (proj2 (Nat.ltb_lt _ _)) by (destruct n; cbn; [done | lia]).
  by rewrite app_nil_r.
Qed.

(** the slots of an event type after a connection *)
Lemma connect_slots ty (s : slot) ec n :
  default [] (onServerEventMap (connect_onServerEvent ty s ec) !! n) =
    if bytes_eqb ty n then default [] (onServerEventMap ec !! n) ++ [s]
    else default [] (onServerEventMap ec !! n).
Proof.
  unfold connect_onServerEvent. destruct (bytes_eqb ty n) eqn:Q.
  - apply bytes_eqb_eq in Q as ->. destruct (onServerEventMap ec !! n) eqn:E; cbn; by rewrite lookup_insert_eq.
  - assert (N : ty <> n) by (intros <-; by rewrite bytes_eqb_refl in Q).
    destruct (onServerEventMap ec !! ty); cbn; by rewrite lookup_insert_ne.
Qed.

(** the calls for a document *)
Definition calls_for ec (x : xml) : list (slot * Element) :=
  match x with
  | Node n _ _ => (fun s => (s, element_of x)) <$> default [] (onServerEventMap ec !! n)
  | Text _ => []
  end.

Definition deliverable (x : xml) : Prop :=
  match x with Node n _ _ => n <> [] /\ distinct x = true | Text _ => False end.

(** documents one after the other *)
Fixpoint receive_all (parseString : bytes -> list sax_event) (docs : list bytes) ec
  : result (EventController slot * list (slot * Element)) :=
  match docs with
  | [] => Ok (ec, [])
  | d :: docs' =>
    r ← receiveServerEvent ndebug parseString d ec;
    r' ← receive_all parseString docs' r.1;
    Ok (r'.1, r.2 ++ r'.2)
  end.

Lemma current_self ec : with_current (currentElement ec) ec = ec.
Proof. by destruct ec. Qed.

Lemma end_without_current content n ec :
  Forall (fun y => match y with Node m _ _ => m <> [] /\ distinct y = true | Text _ => True end) content ->
  handle_all ndebug (concat (map events content) ++ [EndElement n]) (with_current None ec) =
    Fault NullDeref.
Proof.
  induction 1 as [|[m atts inner | s] content Hx _ IH]; [done | | done].
  cbn [map concat]. rewrite <- app_assoc, handle_all_app. destruct Hx as [Nm D].
  rewrite root_delivered by done. cbn [mbind result_bind fst]. by rewrite IH.
Qed.

(** an element opened again by a start callback with its own name *)
Lemma start_again n atts e ps ec :
  name e = n ->
  startElement n atts (with_current (Some (mkCursor e ps)) ec) =
    with_current (Some (mkCursor (mkElement n (attributes e ++ attributes_of atts) (data e)
      (childElements e)) ps)) ec.
Proof.
  intros N. unfold startElement. cbn. rewrite N, bytes_eqb_refl. cbn.
  by rewrite foldl_addAttribute.
Qed.
End Delivery.

(** C19: Dispatch: when no element of the server's documents has the name of its
    parent, every document reaches the listeners of its name, in order, as
    exactly its tree: the attributes, the children, and of the text of an
    element the last piece the parser reported. The controller is ready for
    the next document. *)
Theorem documents_delivered {slot} ndebug parseString docs trees (ec : EventController slot) :
  Forall2 (fun d x => parseString d = events x) docs trees -> Forall deliverable trees ->
  currentElement ec = None ->
  receive_all ndebug parseString docs ec = Ok (ec, concat (map (calls_for ec) trees)).
Proof.
  intros F. induction F as [|d x docs trees Hd F IH]; intros D C; [done |].
  apply list.Forall_cons in D as [Dx D]. cbn [receive_all map concat]. unfold receiveServerEvent.
  destruct x as [n atts content |]; [| done]. destruct Dx as [Nn Dx].
  rewrite <- (current_self ec) at 1. rewrite C, Hd, root_delivered by done.
  cbn [mbind result_bind fst snd]. rewrite <- C, current_self, IH by done. done.
Qed.

(** An element inside an element of its own name: when the root of a
    document has a child of its name, the end of the child is taken for the end
    of the document, and the callbacks that follow dereference the null
    [currentElement]. *)
Theorem same_name_crashes {slot} ndebug n atts before atts' inner after (ec : EventController slot) :
  n <> [] ->
  forallb (fun y => negb (named n y) && distinct y) (before ++ inner) = true ->
  Forall (fun y => match y with Node m _ _ => m <> [] /\ distinct y = true | Text _ => True end) after ->
  currentElement ec = None ->
  handle_all ndebug (events (Node n atts (before ++ Node n atts' inner :: after))) ec = Fault NullDeref.
Proof.
  intros Nn D A C. rewrite forallb_app in D. apply andb_true_iff in D as [D1 D2].
  rewrite <- (current_self ec), C. cbn [events handle_all handle mbind result_bind fst snd].
  rewrite start_root, map_app, concat_app, <- app_assoc, handle_all_app.
  rewrite content_absorbed; [| by apply Forall_true, xml_absorbed | done].
  cbn [mbind result_bind fst snd map concat events app handle_all handle].
  rewrite start_again by (by rewrite absorb_name). rewrite <- !app_assoc, handle_all_app.
  rewrite content_absorbed; [| by apply Forall_true, xml_absorbed | done].
  cbn [mbind result_bind fst snd app handle_all handle endElement currentElement with_current
       onServerEventMap c_parents]. unfold notifyListeners. cbn [c_elem].
  rewrite absorb_name. cbn [name]. rewrite (proj2 (Nat.ltb_lt _ _)) by (destruct n; cbn; [done | lia]).
  cbn [mbind result_bind fst snd]. by rewrite end_without_current.
Qed.

(** A document that is cut off silences the controller: its element stays
    the current one, and every later document whose root has another name is
    added below it and reaches no listener. *)
Theorem cut_off_silences {slot} ndebug parseString d docs n atts content trees (ec : EventController slot) :
  parseString d = StartElement n atts :: concat (map events content) ->
  distinct (Node n atts content) = true ->
  Forall2 (fun d x => parseString d = events x) docs trees ->
  Forall (fun x => distinct x = true /\ named n x = false) trees ->
  currentElement ec = None ->
  exists ec', receive_all ndebug parseString (d :: docs) ec = Ok (ec', []) /\
    currentElement ec' =
      Some (mkCursor (fold_left (absorb element_of) trees (element_of (Node n atts content))) []).
Proof.
  intros Hd D F T C. cbn [receive_all]. unfold receiveServerEvent at 1. rewrite Hd.
  rewrite <- (current_self ec), C. cbn [handle_all handle mbind result_bind fst snd].
  rewrite start_root, content_absorbed; [| by apply Forall_true, xml_absorbed | done].
  cbn [mbind result_bind fst snd app]. change (fold_left _ content _) with (element_of (Node n atts content)).
  assert (Ne : name (element_of (Node n atts content)) = n) by (cbn; by rewrite absorb_name).
  revert Ne. generalize (element_of (Node n atts content)). clear Hd D.
  induction F as [|d' x docs trees Hx F IH]; intros e Ne; cbn [receive_all].
  - by eexists.
  - apply list.Forall_cons in T as [[Dx Nx] T]. unfold receiveServerEvent at 1.
    rewrite Hx, xml_absorbed by (by rewrite ?Ne). cbn [mbind result_bind fst snd].
    destruct (IH T (absorb element_of e x)) as (ec' & E & R); [by destruct x |].
    exists ec'. split; [| done]. destruct (receive_all _ _ docs _) as [[ec2 c2]|]; [| done].
    cbn in E |- *. done.
Qed.

(** ** Sample documents *)

Definition sample_visit : xml :=
  Node (bs "visit") [(bs "type", bs "start")]
    [Text (bs " "); Node (bs "item") [(bs "url", bs "http://a/")] []; Text [10]].

Definition sample_option : xml := Node (bs "option") [(bs "name", bs "a"); (bs "value", bs "b")] [].

(** a parser that knows three documents *)
Definition sample_parse (d : bytes) : list sax_event :=
  match d with
  | [1] => events sample_visit
  | [2] => events sample_option
  | _ => [StartElement (bs "visit") []; CharData (bs "x")]
  end.

Definition sample_controller : EventController nat :=
  connect_onServerEvent (bs "option") 2%nat
    (connect_onServerEvent (bs "visit") 1%nat
      (connect_onServerEvent (bs "visit") 0%nat newController)).

Lemma documents_delivered_witness :
  receive_all true sample_parse [[1]; [2]] sample_controller =
    Ok (sample_controller, [(0%nat, element_of sample_visit); (1%nat, element_of sample_visit);
                            (2%nat, element_of sample_option)]).
Proof.
  apply (documents_delivered true sample_parse [[1]; [2]] [sample_visit; sample_option] sample_controller).
  - repeat constructor.
  - apply Forall_cons_2; [split; [discriminate | vm_compute; reflexivity] |].
    apply Forall_cons_2; [split; [discriminate | vm_compute; reflexivity] |]. apply Forall_nil_2.
  - reflexivity.
Defined.

Lemma same_name_crashes_witness :
  handle_all true (events (Node (bs "visit") [] ([] ++ Node (bs "visit") [] [] :: [sample_option])))
    sample_controller = Fault NullDeref.
Proof.
  apply (same_name_crashes true (bs "visit") [] [] [] [] [sample_option] sample_controller).
  - discriminate.
  - reflexivity.
  - apply Forall_cons_2; [split; [discriminate | vm_compute; reflexivity] |]. apply Forall_nil_2.
  - reflexivity.
Defined.

Lemma cut_off_silences_witness :
  exists ec', receive_all true sample_parse [[3]; [2]; [2]] sample_controller = Ok (ec', []) /\
    currentElement ec' = Some (mkCursor (fold_left (absorb element_of) [sample_option; sample_option]
      (element_of (Node (bs "visit") [] [Text (bs "x")]))) []).
Proof.
  apply (cut_off_silences true sample_parse [3] [[2]; [2]] (bs "visit") [] [Text (bs "x")]
           [sample_option; sample_option] sample_controller).
  - reflexivity.
  - reflexivity.
  - repeat constructor.
  - repeat (apply Forall_cons_2; [vm_compute; done |]). apply Forall_nil_2.
  - reflexivity.
Defined.
