(* ===== verification/FileUploader.v ===== *)
(** * Uploading a file to the server (FileUploader.cpp)

    The file is announced, and when the server accepts it, sent in parts of
    8192 bytes, each an element with the bytes in base64. The uploader is used
    by one thread; the answers of the server arrive while it waits. *)
From Stdlib Require Import ZArith Lia.
From stdpp Require Import base list strings numbers.
From S2P Require Import Prelude Base64 Element Server.

Local Open Scope Z_scope.

(** an open FILE: its bytes, the position and the end-of-file indicator *)
Record FILE := mkFILE { f_bytes : bytes; f_pos : nat; f_eof : bool }.

Definition i32 (x : Z) : Z := let y := u32 x in if y <? 2147483648 then y else y - 4294967296.

(** fseek(f, offset, SEEK_SET): fails for a negative offset *)
Definition fseek (f : FILE) (offset : Z) : FILE :=
  if i32 offset <? 0 then f else mkFILE (f_bytes f) (Z.to_nat (i32 offset)) false.

Definition fread (f : FILE) (size : nat) : bytes * FILE :=
  let d := take size (drop (f_pos f) (f_bytes f)) in
  (d, mkFILE (f_bytes f) (f_pos f + length d) (f_eof f || (length d <? size)%nat)).

Section Uploader.
Context `{Peer}.

(** GetFileSizeEx and _wfopen_s(.., "rb") of a file *)
Variable file_size : wstring -> option Z.
Variable wfopen_rb : wstring -> option bytes.

(** WaitForSingleObject(hFileAcknowledged, 5000): whether it was signalled,
    and the answers the receiver handled meanwhile, true for file-accept *)
Variable wait_acknowledged : sworld -> (bool * list bool) * sworld.

(** [pFileStream] with [fileOpened]: the stream while it is true *)
Record FileUploader := mkUploader {
  fileAccepted : bool;
  pFileStream : option FILE;
  busy : bool;
  fileName : wstring;
}.

Definition newUploader : FileUploader := mkUploader false None false [].

(** the 8192 bytes of a part *)
Definition part_size : nat := Z.to_nat 8192.

Definition onReceiveFileAcceptEvent (u : FileUploader) : FileUploader :=
  mkUploader true (pFileStream u) (busy u) (fileName u).

Definition onReceiveFileRejectEvent (u : FileUploader) : FileUploader := u.

(** the answers that arrive during the wait *)
Definition answered (answers : list bool) (u : FileUploader) : FileUploader :=
  foldl (fun u (a : bool) => if a then onReceiveFileAcceptEvent u else onReceiveFileRejectEvent u) u answers.

(** the element of a part *)
Definition part_element (file : wstring) (offset : Z) (part : bytes) (encoded : bytes) : Element :=
  let e := setName newElement (bs "part") in
  let e := addAttribute e (bs "name") file in
  let e := addAttribute e (bs "part-start") (print_dec offset) in
  let e := addAttribute e (bs "encoding") (bs "base64") in
  let e := addAttribute e (bs "part-end") (print_int (i32 (offset + Z.of_nat (length part)))) in
  setData e encoded.

Definition sendFilePart (offset : Z) (size : nat) (u : FileUploader) (s : Server) (w : sworld)
  : result (Z * FileUploader * (Server * sworld)) :=
  match pFileStream u with
  | None => Ok (0, u, (s, w))
  | Some f =>
    let '(part, f) := fread (fseek f offset) size in
    encoded ← encode part;
    let sw := if (0 <? length part)%nat
              then sendElement (part_element (fileName u) offset part encoded) s w else (s, w) in
    Ok (if f_eof f then 0 else Z.of_nat (length part),
        mkUploader (fileAccepted u) (Some f) (busy u) (fileName u), sw)
  end.

(** the do loop; one unit of fuel per part *)
Fixpoint send_parts (fuel : nat) (offset : Z) (u : FileUploader) (s : Server) (w : sworld)
  : result (FileUploader * (Server * sworld)) :=
  match fuel with
  | O => Fault OutOfFuel
  | S fuel' =>
    r ← sendFilePart offset part_size u s w;
    let '(bytesRead, u, (s, w)) := r in
    if 0 <? bytesRead then send_parts fuel' (u32 (offset + bytesRead)) u s w
    else Ok (u, (s, w))
  end.

(** [file.substr(file.find_last_of(".")+1)] *)
Definition extension (file : wstring) : wstring :=
  match str_find_last 46 file with Some i => drop (i + 1) file | None => file end.

Definition file_attributes (file : wstring) (size : Z) : list Attribute :=
  [mkAttribute (bs "name") file; mkAttribute (bs "size") (print_dec size);
   mkAttribute (bs "type") (extension file)].

Definition closed (u : FileUploader) : FileUploader :=
  mkUploader (fileAccepted u) None false (fileName u).

Definition sendFile (fuel : nat) (file : wstring) (u : FileUploader) (s : Server) (w : sworld)
  : result (bool * FileUploader * (Server * sworld)) :=
  if negb (connected s) then Ok (false, u, (s, w))
  else
    match file_size file with
    | None => Ok (false, mkUploader (fileAccepted u) (pFileStream u) false file, (s, w))
    | Some size =>
      match wfopen_rb file with
      | None => Ok (false, mkUploader (fileAccepted u) (pFileStream u) false file, (s, w))
      | Some content =>
        let u := mkUploader (fileAccepted u) (Some (mkFILE content 0 false)) true file in
        let atts := file_attributes file size in
        sw ← sendXML (bs "file") atts s w;
        let '(s, w) := sw in
        let '((signalled, answers), w) := wait_acknowledged w in
        let u := answered answers u in
        if negb signalled || negb (fileAccepted u) then Ok (false, closed u, (s, w))
        else
          r ← send_parts fuel 0 u s w;
          let '(u, (s, w)) := r in
          sw ← sendXML (bs "file-finished") atts s w;
          Ok (true, closed u, sw)
      end
    end.

(** the last value of an attribute, as an int; 0 without one *)
Definition int_attribute (n : wstring) (atts : list Attribute) : result Z :=
  foldl (fun r a => v ← r; if bytes_eqb (a_name a) n then lexical_cast_int (a_value a) else Ok v)
    (Ok 0) atts.

Definition onReceiveFileErrorEvent (e : Element) (u : FileUploader) (s : Server) (w : sworld)
  : result (FileUploader * (Server * sworld)) :=
  start ← int_attribute (bs "part-start") (attributes e);
  end_ ← int_attribute (bs "part-end") (attributes e);
  if negb (start =? 0) && negb (end_ =? 0) then
    r ← sendFilePart (u32 start) (Z.to_nat (u32 end_)) u s w;
    let '(_, u, sw) := r in Ok (u, sw)
  else Ok (u, (s, w)).
End Uploader.

(** ** What is sent *)

(** consecutive parts, each of one byte at least and of a part at most *)
Fixpoint parts_at (offset : nat) (parts : list (nat * bytes)) : Prop :=
  match parts with
  | [] => True
  | (o, d) :: parts' => o = offset /\ (0 < length d <= part_size)%nat /\ parts_at (offset + length d) parts'
  end.

Section Sent.
Context `{Outbox}.

(** the message of a part *)
Definition part_message (file : wstring) (p : nat * bytes) (b : bytes) : Prop :=
  exists encoded, encode p.2 = Ok encoded /\
    b = utf8 (toString (part_element file (Z.of_nat p.1) p.2 encoded)).

Lemma part_size_Z : Z.of_nat part_size = 8192.
Proof. reflexivity. Qed.

Lemma i32_small x : 0 <= x < 2147483648 -> i32 x = x.
Proof. intros Hx. unfold i32. rewrite u32_small by lia. by rewrite (proj2 (Z.ltb_lt _ _)) by lia. Qed.

(** the part at [offset] of a stream of fewer than 2^31 bytes *)
Lemma sendFilePart_spec off size u s w f :
  pFileStream u = Some f -> connected s = true -> bytes_ok (f_bytes f) ->
  (off <= length (f_bytes f))%nat -> Z.of_nat (length (f_bytes f)) < 2147483648 ->
  let part := take size (drop off (f_bytes f)) in
  exists e w', encode part = Ok e /\
    sendFilePart (Z.of_nat off) size u s w =
      Ok (if (length part <? size)%nat then 0 else Z.of_nat (length part),
          mkUploader (fileAccepted u)
            (Some (mkFILE (f_bytes f) (off + length part) (length part <? size)%nat)) (busy u) (fileName u),
          (s, w')) /\
    outbox w' = outbox w ++
      (if (0 <? length part)%nat then [utf8 (toString (part_element (fileName u) (Z.of_nat off) part e))] else []).
Proof.
  intros P C B Lo Ls part. exists (encode_ref part).
  assert (Eo : encode part = Ok (encode_ref part)).
  { apply encode_ok. by apply Forall_take, Forall_drop. }
  unfold sendFilePart. rewrite P. unfold fseek. rewrite i32_small by lia.
  rewrite (proj2 (Z.ltb_ge _ _)) by lia. unfold fread. cbn [f_pos f_bytes f_eof orb].
  rewrite Nat2Z.id. fold part. rewrite Eo. cbn [mbind result_bind].
  destruct (0 <? length part)%nat eqn:L.
  - destruct (sendElement_sent (part_element (fileName u) (Z.of_nat off) part (encode_ref part)) s w C)
      as (w' & -> & O). exists w'. by rewrite O.
  - exists w. by rewrite app_nil_r.
Qed.

Lemma send_parts_spec fuel off u s w f :
  pFileStream u = Some f -> connected s = true -> bytes_ok (f_bytes f) ->
  (off <= length (f_bytes f))%nat -> Z.of_nat (length (f_bytes f)) < 2147483648 ->
  (length (f_bytes f) - off < fuel * part_size)%nat ->
  exists parts msgs u' w', send_parts fuel (Z.of_nat off) u s w = Ok (u', (s, w')) /\
    fileAccepted u' = fileAccepted u /\ fileName u' = fileName u /\
    parts_at off parts /\ concat (snd <$> parts) = drop off (f_bytes f) /\
    Forall2 (part_message (fileName u)) parts msgs /\ outbox w' = outbox w ++ msgs.
Proof.
  revert off u w f. induction fuel as [|fuel IH]; intros off u w f P C B Lo Ls Lf; [lia |].
  destruct (sendFilePart_spec off part_size u s w f P C B Lo Ls) as (e & w1 & Ee & E1 & O1).
  set (part := take part_size (drop off (f_bytes f))) in *.
  assert (Lp : length part = Nat.min part_size (length (f_bytes f) - off)).
  { unfold part. by rewrite length_take, length_drop. }
  pose proof part_size_Z as PZ.
  cbn [send_parts]. rewrite E1. cbn [mbind result_bind].
  destruct (length part <? part_size)%nat eqn:Short; breflect.
  - rewrite (proj2 (Z.ltb_ge 0 0)) by lia.
    assert (D : part = drop off (f_bytes f)).
    { unfold part. apply take_ge. rewrite length_drop. lia. }
    destruct (0 <? length part)%nat eqn:L; breflect.
    + eexists [(off, part)], _, _, _. split_and!; [done | done | done | cbn; lia | by cbn; rewrite app_nil_r | | exact O1].
      constructor; [| constructor]. by exists e.
    + eexists [], [], _, _. split_and!; [done | done | done | done | | constructor | exact O1].
      rewrite <- D. by destruct part; [| cbn in L; lia].
  - rewrite (proj2 (Z.ltb_lt _ _)) by lia. rewrite (proj2 (Nat.ltb_lt _ _)) in O1 by lia.
    replace (u32 (Z.of_nat off + Z.of_nat (length part))) with (Z.of_nat (off + length part))
      by (rewrite u32_small; lia).
    destruct (IH (off + length part)%nat (mkUploader (fileAccepted u)
        (Some (mkFILE (f_bytes f) (off + length part) false)) (busy u) (fileName u)) w1
        (mkFILE (f_bytes f) (off + length part) false))
      as (parts & msgs & u' & w' & E & A & Nm & Pa & Co & Fo & O); cbn [f_bytes]; try done; [lia | lia |].
    cbn in A, Nm, Co, Fo. eexists ((off, part) :: parts), (_ :: msgs), u', w'.
    split_and!; [exact E | done | done | | | | ].
    + cbn. split_and!; [done | lia | lia | done].
    + cbn. rewrite Co. unfold part. rewrite length_take, length_drop.
      rewrite <- (take_drop part_size (drop off (f_bytes f))) at 2. rewrite drop_drop.
      do 2 f_equal. lia.
    + constructor; [| done]. by exists e.
    + rewrite O, O1, <- app_assoc. done.
Qed.
End Sent.

(** C20: An upload sends the file: when the client is connected, sending does
    not fail and the server accepts, [sendFile] of a file of fewer than 2^31
    bytes announces it, sends consecutive parts of at most 8192 bytes whose
    concatenation is the file, each in base64 with its offsets, ends with
    file-finished and returns true with the file closed. *)
Theorem upload_file `{Outbox} file_size wfopen_rb wait_acknowledged fuel file size content u s w :
  connected s = true -> file_size file = Some size -> wfopen_rb file = Some content ->
  bytes_ok content -> Z.of_nat (length content) < 2147483648 -> (length content < fuel * part_size)%nat ->
  (forall w, (wait_acknowledged w).1 = (true, [true]) /\ outbox (wait_acknowledged w).2 = outbox w) ->
  exists announce parts msgs finish w',
    sendFile file_size wfopen_rb wait_acknowledged fuel file u s w =
      Ok (true, mkUploader true None false file, (s, w')) /\
    outbox w' = outbox w ++ [utf8 announce] ++ msgs ++ [utf8 finish] /\
    xml_document (bs "file") (file_attributes file size) = Ok announce /\
    xml_document (bs "file-finished") (file_attributes file size) = Ok finish /\
    parts_at 0 parts /\ concat (snd <$> parts) = content /\ Forall2 (part_message file) parts msgs.
Proof.
  intros C Sz Op B Ls Lf Wt. unfold sendFile. rewrite C, Sz, Op. cbn [negb].
  destruct (sendXML_sent (bs "file") (file_attributes file size) s w C) as (d1 & w1 & E1 & -> & O1).
  cbn [mbind result_bind]. destruct (Wt w1) as [W1 W2].
  destruct (wait_acknowledged w1) as [[sig ans] w2]. cbn in W1, W2. injection W1 as -> ->.
  cbn [answered foldl onReceiveFileAcceptEvent fileAccepted negb orb pFileStream busy fileName].
  destruct (send_parts_spec fuel 0 (mkUploader true (Some (mkFILE content 0 false)) true file) s w2
    (mkFILE content 0 false)) as (parts & msgs & u' & w3 & E3 & A & Nm & Pa & Co & Fo & O3); cbn [f_bytes]; try done; [lia | lia |].
  change (Z.of_nat 0) with 0 in E3. unfold onReceiveFileAcceptEvent.
  cbn [pFileStream busy fileName]. rewrite E3. cbn [mbind result_bind].
  destruct (sendXML_sent (bs "file-finished") (file_attributes file size) s w3 C) as (d2 & w4 & E2 & -> & O4).
  cbn [mbind result_bind]. exists d1, parts, msgs, d2, w4. cbn in A, Nm, Fo.
  unfold closed. rewrite A, Nm. split_and!; try done.
  rewrite O4, O3, W2, O1, <- !app_assoc. done.
Qed.

(** A part asked for again is sent with its end for its length: from [start],
    as many bytes as [end] says, or what the file has. *)
Lemma resend_length `{Outbox} start end_ e u s w f :
  pFileStream u = Some f -> connected s = true -> bytes_ok (f_bytes f) ->
  Z.of_nat (length (f_bytes f)) < 2147483648 ->
  int_attribute (bs "part-start") (attributes e) = Ok (Z.of_nat start) ->
  int_attribute (bs "part-end") (attributes e) = Ok (Z.of_nat end_) ->
  (0 < start < end_)%nat -> (end_ <= length (f_bytes f))%nat ->
  let part := take end_ (drop start (f_bytes f)) in
  exists encoded u' w', encode part = Ok encoded /\
    onReceiveFileErrorEvent e u s w = Ok (u', (s, w')) /\
    outbox w' = outbox w ++ [utf8 (toString (part_element (fileName u) (Z.of_nat start) part encoded))].
Proof.
  intros P C B Ls As Ae L1 L2 part. unfold onReceiveFileErrorEvent. rewrite As, Ae. cbn [mbind result_bind].
  rewrite !(proj2 (Z.eqb_neq _ _)) by lia. cbn [negb andb]. rewrite !u32_small by lia. rewrite Nat2Z.id.
  destruct (sendFilePart_spec start end_ u s w f P C B ltac:(lia) Ls) as (enc & w' & Ee & -> & O).
  fold part in Ee, O |- *. rewrite (proj2 (Nat.ltb_lt _ _)) in O
    by (unfold part; rewrite length_take, length_drop; lia).
  eexists _, _, _. cbn [mbind result_bind]. by split_and!.
Qed.

(** ** A server that accepts *)

#[local] Existing Instance Link.

#[local] Instance Link_outbox : Outbox (H := Link).
Proof.
  refine {| outbox := (link_sent : sworld -> _) |}.
  - intros b w. eexists _, _. split; [reflexivity |]. split; [| reflexivity]. unfold SOCKET_ERROR. lia.
  - intros m N. by destruct m.
Defined.

Definition link_accepts (w : link) : (bool * list bool) * link := ((true, [true]), w).

Definition link_empty : link := mk_link [] [] [].

Lemma upload_file_witness :
  exists announce parts msgs finish w',
    sendFile (H := Link) (fun _ => Some 5) (fun _ => Some (bs "hello")) link_accepts 1 (bs "a.txt")
      newUploader (mkServer true false 7070 []) link_empty =
      Ok (true, mkUploader true None false (bs "a.txt"), (mkServer true false 7070 [], w')) /\
    outbox w' = outbox (link_empty : sworld) ++ [utf8 announce] ++ msgs ++ [utf8 finish] /\
    xml_document (bs "file") (file_attributes (bs "a.txt") 5) = Ok announce /\
    xml_document (bs "file-finished") (file_attributes (bs "a.txt") 5) = Ok finish /\
    parts_at 0 parts /\ concat (snd <$> parts) = bs "hello" /\
    Forall2 (part_message (bs "a.txt")) parts msgs.
Proof.
  apply (upload_file (H := Link) (fun _ => Some 5) (fun _ => Some (bs "hello")) link_accepts 1 (bs "a.txt") 5
           (bs "hello") newUploader (mkServer true false 7070 []) link_empty); try reflexivity.
  - by apply bytes_okb_spec.
  - pose proof part_size_Z. change (length (bs "hello")) with 5%nat. lia.
  - by split.
Defined.
