(* ===== verification/Options.v ===== *)
(** * Options of the Capture client (OptionsManager.cpp, _tmain of
    CaptureClient.cpp)

    The map of options, the events of the server that change it and the command
    line that fills it. A change is signalled by the name of the option; the
    names signalled are part of the result. *)
From Stdlib Require Import ZArith Lia Ascii.
From stdpp Require Import base gmap list strings numbers.
From S2P Require Import Prelude Element.

Local Open Scope Z_scope.

Record OptionsManager := mkOptions { optionsMap : gmap wstring wstring }.

Definition newOptions : OptionsManager := mkOptions ∅.

Definition getOption (om : OptionsManager) (option : wstring) : wstring :=
  default [] (optionsMap om !! option).

(** addOption: the option is signalled also when the value is the old one *)
Definition addOption (option value : wstring) (om : OptionsManager) : OptionsManager * list wstring :=
  match optionsMap om !! option with
  | None => (mkOptions (<[option := value]> (optionsMap om)), [option])
  | Some _ => (mkOptions (<[option := value]> (optionsMap om)), [option])
  end.

(** the last value of the attribute *)
Definition last_attribute (n : wstring) (atts : list Attribute) : wstring :=
  foldl (fun v a => if bytes_eqb (a_name a) n then a_value a else v) [] atts.

Definition onOptionEvent (e : Element) (om : OptionsManager) : OptionsManager * list wstring :=
  if bytes_eqb (name e) (bs "option") then
    let option := last_attribute (bs "name") (attributes e) in
    let value := last_attribute (bs "value") (attributes e) in
    if negb (bytes_eqb option []) && negb (bytes_eqb value []) then addOption option value om
    else (om, [])
  else (om, []).

(** ** The command line *)

Record arguments := mkArguments {
  serverIp : wstring;
  serverPort : wstring;
  vmServerId : wstring;
  vmId : wstring;
  logSystemEventsFile : wstring;
  arg_collect : wstring;
  arg_capture : wstring;
}.

Definition default_arguments : arguments :=
  mkArguments [] (bs "7070") [] [] [] (bs "false") (bs "false").

Definition with_serverIp v a := mkArguments v (serverPort a) (vmServerId a) (vmId a) (logSystemEventsFile a) (arg_collect a) (arg_capture a).
Definition with_serverPort v a := mkArguments (serverIp a) v (vmServerId a) (vmId a) (logSystemEventsFile a) (arg_collect a) (arg_capture a).
Definition with_vmServerId v a := mkArguments (serverIp a) (serverPort a) v (vmId a) (logSystemEventsFile a) (arg_collect a) (arg_capture a).
Definition with_vmId v a := mkArguments (serverIp a) (serverPort a) (vmServerId a) v (logSystemEventsFile a) (arg_collect a) (arg_capture a).
Definition with_log v a := mkArguments (serverIp a) (serverPort a) (vmServerId a) (vmId a) v (arg_collect a) (arg_capture a).
Definition with_collect v a := mkArguments (serverIp a) (serverPort a) (vmServerId a) (vmId a) (logSystemEventsFile a) v (arg_capture a).
Definition with_capture v a := mkArguments (serverIp a) (serverPort a) (vmServerId a) (vmId a) (logSystemEventsFile a) (arg_collect a) v.

(** the letters of a group such as [-cn]; [wpcap] tells whether wpcap.dll is
    there, [exit(1)] otherwise *)
Fixpoint flag_letters (wpcap : bool) (letters : wstring) (a : arguments) : result arguments :=
  match letters with
  | [] => Ok a
  | c :: letters' =>
    if c =? chr "c" then flag_letters wpcap letters' (with_collect (bs "true") a)
    else if c =? chr "n" then
      if wpcap then flag_letters wpcap letters' (with_capture (bs "true") a) else Fault ExitFailure
    else flag_letters wpcap letters' a
  end.

(** what an option with a value sets *)
Definition valued (opt : wstring) : option (wstring -> arguments -> arguments) :=
  if bytes_eqb opt (bs "-s") then Some with_serverIp
  else if bytes_eqb opt (bs "-p") then Some with_serverPort
  else if bytes_eqb opt (bs "-a") then Some with_vmServerId
  else if bytes_eqb opt (bs "-b") then Some with_vmId
  else if bytes_eqb opt (bs "-l") then Some with_log
  else None.

(** the loop over argv[1..]; [--help] and [-h] exit *)
Fixpoint parse_args (wpcap : bool) (args : list wstring) (a : arguments) : result arguments :=
  match args with
  | [] => Ok a
  | option :: args' =>
    if bytes_eqb option (bs "--help") || bytes_eqb option (bs "-h") then Fault ExitFailure
    else match valued option with
         | Some set =>
           match args' with
           | v :: args'' =>
             if negb (str_at v 0 =? chr "-") then parse_args wpcap args'' (set v a)
             else parse_args wpcap args' a
           | [] => Ok a
           end
         | None =>
           if str_at option 0 =? chr "-" then
             a ← flag_letters wpcap (drop 1 option) a; parse_args wpcap args' a
           else parse_args wpcap args' a
         end
  end.

Definition put (option value : wstring) (om : OptionsManager) : OptionsManager :=
  (addOption option value om).1.

(** the options the client starts with; nothing listens yet *)
Definition initial_options (a : arguments) : OptionsManager :=
  foldl (fun om o => put o.1 o.2 om) newOptions
    [(bs "server", serverIp a); (bs "port", serverPort a);
     (bs "vm-server-id", vmServerId a); (bs "vm-id", vmId a);
     (bs "log-system-events-file", logSystemEventsFile a);
     (bs "collect-modified-files", arg_collect a);
     (bs "capture-network-packets", arg_capture a);
     (bs "capture-network-packets-malicious", bs "false");
     (bs "capture-network-packets-benign", bs "false")].

(** ** Lemmas *)

Lemma addOption_spec option value om :
  addOption option value om = (mkOptions (<[option := value]> (optionsMap om)), [option]).
Proof. unfold addOption. by case_match. Qed.

Lemma getOption_add o v om o' :
  getOption (mkOptions (<[o := v]> (optionsMap om))) o' = if bytes_eqb o o' then v else getOption om o'.
Proof.
  unfold getOption. cbn. case_match eqn:Q.
  - apply bytes_eqb_eq in Q as ->. by rewrite lookup_insert_eq.
  - rewrite lookup_insert_ne; [done |]. intros ->. by rewrite bytes_eqb_refl in Q.
Qed.

Lemma getOption_put o v om o' :
  getOption (put o v om) o' = if bytes_eqb o o' then v else getOption om o'.
Proof. unfold put. rewrite addOption_spec. apply getOption_add. Qed.

(** the options in the order of the map *)
Definition keys_of (om : OptionsManager) : list wstring := (map_to_list (optionsMap om)).*1.

Lemma keys_of_dom om o : o ∈ keys_of om <-> o ∈ dom (optionsMap om).
Proof.
  unfold keys_of. rewrite elem_of_dom, list_elem_of_fmap. split.
  - intros ([k v] & -> & E%elem_of_map_to_list). by exists v.
  - intros [v E]. exists (o, v). split; [done |]. by apply elem_of_map_to_list.
Qed.
