(* ===== verification/Analyzer.v ===== *)
(** * The analyzer of the Capture client (Analyzer.cpp)

    It reacts to options, decides from the events of the monitors whether the
    system is in a malicious state, and at the end collects, uploads and
    deletes what was recorded. What it asks of the monitors, of the packet
    dumper and of the file system is the list of its actions. *)
From Stdlib Require Import ZArith Lia.
From stdpp Require Import base gmap list strings numbers.
From S2P Require Import Prelude Element Server Options Monitor.

Local Open Scope Z_scope.

(** [networkPacketDumper]: null, an object, or a pointer to a deleted one *)
Inductive dumper := Null | Live | Dangling.

#[global] Instance dumper_eq_dec : EqDecision dumper.
Proof. solve_decision. Defined.

(** what the analyzer asks for *)
Inductive action :=
  | CreateDirectory (p : wstring)
  | DumperStart
  | DumperStop
  | DeleteAdapterFiles
  | ConnectMonitors
  | DisconnectMonitors
  | SetMonitorModifiedFiles (b : bool)
  | CopyCreatedFiles
  | DeleteTree (p : wstring)
  | Compress (zip : wstring)
  | SendFile (zip : wstring)
  | DeleteFile (zip : wstring).

#[global] Instance action_eq_dec : EqDecision action.
Proof. solve_decision. Defined.

Record SYSTEMTIME := mkTime { wDay : Z; wMonth : Z; wYear : Z; wHour : Z; wMinute : Z }.

Section Analyzer.
Context `{RX : WRegex}.

Record Analyzer := mkAnalyzer {
  captureNetworkPackets : bool;
  collectModifiedFiles : bool;
  networkPacketDumper : dumper;
  malicious : option bool;             (* not initialised before start *)
  processMonitor : Monitor;
  registryMonitor : Monitor;
  fileMonitor : Monitor;
  networkMonitor : Monitor;
}.

Definition with_dump (c : bool) (d : dumper) (a : Analyzer) : Analyzer :=
  mkAnalyzer c (collectModifiedFiles a) d (malicious a) (processMonitor a) (registryMonitor a)
    (fileMonitor a) (networkMonitor a).
Definition with_modified (c : bool) (a : Analyzer) : Analyzer :=
  mkAnalyzer (captureNetworkPackets a) c (networkPacketDumper a) (malicious a) (processMonitor a)
    (registryMonitor a) (fileMonitor a) (networkMonitor a).
Definition with_malicious (m : bool) (a : Analyzer) : Analyzer :=
  mkAnalyzer (captureNetworkPackets a) (collectModifiedFiles a) (networkPacketDumper a) (Some m)
    (processMonitor a) (registryMonitor a) (fileMonitor a) (networkMonitor a).
Definition with_monitors (p r f n : Monitor) (a : Analyzer) : Analyzer :=
  mkAnalyzer (captureNetworkPackets a) (collectModifiedFiles a) (networkPacketDumper a) (malicious a) p r f n.

Definition is_true (v : wstring) : bool := bytes_eqb v (bs "true").

(** [delete networkPacketDumper] *)
Definition delete_dumper (d : dumper) : result dumper :=
  match d with Null => Ok Null | Live => Ok Dangling | Dangling => Fault UseAfterFree end.

Definition capture_option (o : wstring) : bool :=
  bytes_eqb o (bs "capture-network-packets-malicious") ||
  bytes_eqb o (bs "capture-network-packets-benign") || bytes_eqb o (bs "capture-network-packets").

Definition onOptionChanged (om : OptionsManager) (o : wstring) (a : Analyzer)
  : result (Analyzer * list action) :=
  let value := getOption om o in
  if capture_option o then
    if is_true value then
      Ok (with_dump true (match networkPacketDumper a with Null => Live | d => d end) a, [])
    else if negb (captureNetworkPackets a) &&
            negb (is_true (getOption om (bs "capture-network-packets-malicious"))) &&
            negb (is_true (getOption om (bs "capture-network-packets-benign")))
    then
      d ← (match networkPacketDumper a with Null => Ok Null | d => delete_dumper d end);
      Ok (with_dump false d a, [])
    else Ok (a, [])
  else if bytes_eqb o (bs "collect-modified-files") then
    Ok (with_modified (is_true value) a, [SetMonitorModifiedFiles (is_true value)])
  else if bytes_eqb o (bs "send-exclusion-lists") then
    if is_true value then
      p ← clearExclusionList (processMonitor a);
      r ← clearExclusionList (registryMonitor a);
      f ← clearExclusionList (fileMonitor a);
      n ← clearExclusionList (networkMonitor a);
      Ok (with_monitors p r f n a, [])
    else Ok (a, [])
  else Ok (a, []).

(** one call per signalled option *)
Fixpoint options_changed (om : OptionsManager) (l : list wstring) (a : Analyzer)
  : result (Analyzer * list action) :=
  match l with
  | [] => Ok (a, [])
  | o :: l' =>
    r ← onOptionChanged om o a;
    r' ← options_changed om l' r.1;
    Ok (r'.1, r.2 ++ r'.2)
  end.

(** Analyzer::Analyzer, with the monitors it creates; connecting the slot
    signals every option there is, in the order [keys] of the hash map *)
Definition newAnalyzer (om : OptionsManager) (keys : list wstring) (p r f n : Monitor)
  : result (Analyzer * list action) :=
  options_changed om keys
    (mkAnalyzer (is_true (getOption om (bs "capture-network-packets"))) false Null None p r f n).

(** [networkPacketDumper->...] *)
Definition use_dumper (d : dumper) : result () :=
  match d with Null => Fault NullDeref | Live => Ok () | Dangling => Fault UseAfterFree end.

Definition start (a : Analyzer) : result (Analyzer * list action) :=
  _ ← (if captureNetworkPackets a then use_dumper (networkPacketDumper a) else Ok ());
  Ok (with_malicious false a,
      [CreateDirectory (bs "logs")] ++
      (if captureNetworkPackets a then [DumperStart] else []) ++
      [ConnectMonitors] ++
      (if collectModifiedFiles a then [SetMonitorModifiedFiles true] else [])).

Definition zip_name (st : SYSTEMTIME) : wstring :=
  bs "capture_" ++ print_dec (wDay st) ++ print_dec (wMonth st) ++ print_dec (wYear st) ++ bs "_" ++
  print_dec (wHour st) ++ print_dec (wMinute st) ++ bs ".zip".

(** deleteAdapterFiles, when there is a dumper *)
Definition delete_pcap (d : dumper) : result (list action) :=
  match d with Null => Ok [] | Live => Ok [DeleteAdapterFiles] | Dangling => Fault UseAfterFree end.

(** the part of stop that runs with a server; [created] tells whether 7za.exe
    could be started ([exit(0)] otherwise), [connected] whether the client is
    connected *)
Definition collect (om : OptionsManager) (st : SYSTEMTIME) (created connected : bool) (malicious : bool)
  (a : Analyzer) : result (list action) :=
  let opt_malicious := getOption om (bs "capture-network-packets-malicious") in
  let opt_benign := getOption om (bs "capture-network-packets-benign") in
  if collectModifiedFiles a || captureNetworkPackets a then
    a1 ← (if malicious && bytes_eqb opt_malicious (bs "false")
          then delete_pcap (networkPacketDumper a) else Ok []);
    a2 ← (if negb malicious && bytes_eqb opt_benign (bs "false")
          then delete_pcap (networkPacketDumper a) else Ok []);
    let a3 := if negb malicious
              then [DeleteTree (bs "logs\deleted_files"); DeleteTree (bs "logs\modified_files")] else [] in
    let zip := zip_name st in
    a4 ← (if (malicious && collectModifiedFiles a) || (negb malicious && is_true opt_benign) ||
             (malicious && is_true opt_malicious)
          then if created then
                 Ok ([Compress zip] ++ (if connected then [SendFile zip] else []) ++ [DeleteFile zip])
               else Fault ExitFailure
          else Ok []);
    Ok (a1 ++ a2 ++ a3 ++ a4)
  else Ok [].

Definition stop (om : OptionsManager) (st : SYSTEMTIME) (created connected : bool) (a : Analyzer)
  : result (list action) :=
  _ ← (if captureNetworkPackets a then use_dumper (networkPacketDumper a) else Ok ());
  let acts := [DisconnectMonitors] ++
    (if captureNetworkPackets a then [DumperStop] else []) ++
    (if collectModifiedFiles a then [SetMonitorModifiedFiles false; CopyCreatedFiles] else []) in
  if negb (bytes_eqb (getOption om (bs "server")) []) then
    m ← (if collectModifiedFiles a || captureNetworkPackets a
         then match malicious a with Some m => Ok m | None => Fault UninitRead end else Ok false);
    c ← collect om st created connected m a;
    Ok (acts ++ c ++ [DeleteTree (bs "logs")])
  else Ok acts.

(** ** Events of the monitors *)

Inductive system_event :=
  | ProcessEvent (eventType : Z) (time : wstring) (parentProcessId : Z) (parentProcess : wstring)
      (processId : Z) (process : wstring)
  | RegistryEvent (eventType time : wstring) (processId : Z) (process path : wstring)
  | FileEvent (eventType time : wstring) (processId : Z) (process path : wstring)
  | ConnectionEvent (eventType time : wstring) (processId : Z) (process src dst : wstring).

Definition process_type (eventType : Z) : wstring :=
  if eventType =? 1 then bs "created"
  else if eventType =? 2 then bs "terminated"
  else if eventType =? 3 then bs "injected"
  else [].

Definition event_attributes (type time : wstring) (processId : Z) (process action object1 object2 : wstring)
  : list Attribute :=
  [mkAttribute (bs "time") time; mkAttribute (bs "type") type;
   mkAttribute (bs "processId") (print_dec processId); mkAttribute (bs "process") process;
   mkAttribute (bs "action") action; mkAttribute (bs "object1") object1;
   mkAttribute (bs "object2") object2].

(** the attributes of the document the handler sends *)
Definition attributes_for (ev : system_event) : list Attribute :=
  match ev with
  | ProcessEvent ty time ppid pprocess pid process =>
    event_attributes (bs "process") time ppid pprocess (process_type ty) (print_dec pid) process
  | RegistryEvent ty time pid process path =>
    event_attributes (bs "registry") time pid process ty path (bs "-1")
  | FileEvent ty time pid process path =>
    event_attributes (bs "file") time pid process ty path (bs "-1")
  | ConnectionEvent ty time pid process src dst =>
    event_attributes (bs "connection") time pid process ty src dst
  end.

(** a connection is reported but does not make the state malicious *)
Definition suspicious (ev : system_event) : bool :=
  match ev with ConnectionEvent _ _ _ _ _ _ => false | _ => true end.

(** onProcessEvent, onRegistryEvent, onFileEvent, onConnectionEvent with
    sendSystemEvent; [log_event] writes the event to the log or to stdout *)
Definition on_event `{Peer} (log_event : list Attribute -> sworld -> sworld) (ev : system_event)
  (a : Analyzer) (s : Server) (w : sworld) : result (Analyzer * (Server * sworld)) :=
  let a := if suspicious ev then with_malicious true a else a in
  let w := log_event (attributes_for ev) w in
  sw ← sendXML (bs "system-event") (attributes_for ev) s w;
  Ok (a, sw).

Fixpoint on_events `{Peer} log_event (evs : list system_event) (a : Analyzer) (s : Server) (w : sworld)
  : result (Analyzer * (Server * sworld)) :=
  match evs with
  | [] => Ok (a, (s, w))
  | ev :: evs' =>
    r ← on_event log_event ev a s w;
    let '(a, (s, w)) := r in
    on_events log_event evs' a s w
  end.
End Analyzer.

(** ** Options *)

Section AnalyzerOptions.
Context `{RX : WRegex}.

(** capturing and dumper agree *)
Definition analyzer_ok (a : Analyzer) : Prop :=
  networkPacketDumper a = if captureNetworkPackets a then Live else Null.

(** no dumper without capturing, and none deleted *)
Definition analyzer_weak (a : Analyzer) : Prop :=
  networkPacketDumper a = Null \/ networkPacketDumper a = Live /\ captureNetworkPackets a = true.

(** the option switches capturing on *)
Definition captures (om : OptionsManager) (o : wstring) : bool :=
  capture_option o && is_true (getOption om o).

Definition clears (om : OptionsManager) (o : wstring) : bool :=
  bytes_eqb o (bs "send-exclusion-lists") && is_true (getOption om o).

(** the effect of one signalled option *)
Lemma onOptionChanged_spec om o a :
  analyzer_weak a -> clears om o = false ->
  exists a' acts, onOptionChanged om o a = Ok (a', acts) /\ analyzer_weak a' /\
    captureNetworkPackets a' = captureNetworkPackets a || captures om o /\
    (networkPacketDumper a' = Live <-> networkPacketDumper a = Live \/ captures om o = true) /\
    collectModifiedFiles a' =
      (if bytes_eqb o (bs "collect-modified-files") then is_true (getOption om o)
       else collectModifiedFiles a) /\
    malicious a' = malicious a.
Proof.
  intros W Cl. unfold onOptionChanged, captures, clears in *.
  destruct (capture_option o) eqn:Co; cbn [andb].
  - assert (Nc : bytes_eqb o (bs "collect-modified-files") = false).
    { destruct (bytes_eqb o (bs "collect-modified-files")) eqn:Q; [| done].
      apply bytes_eqb_eq in Q as ->. by vm_compute in Co. }
    rewrite Nc. destruct (is_true (getOption om o)).
    + eexists _, _. split; [done |]. rewrite orb_true_r. unfold analyzer_weak. cbn.
      destruct W as [-> | [-> _]]; intuition congruence.
    + rewrite orb_false_r. destruct (captureNetworkPackets a) eqn:Ca; cbn [negb andb].
      * eexists _, _. split; [done |]. intuition congruence.
      * destruct W as [Wn | [_ ?]]; [| congruence]. rewrite Wn.
        case_match; (eexists _, _; split; [reflexivity |]); unfold analyzer_weak; cbn; intuition congruence.
  - rewrite orb_false_r. destruct (bytes_eqb o (bs "collect-modified-files")).
    + eexists _, _. split; [done |]. unfold analyzer_weak in *. cbn. intuition congruence.
    + destruct (bytes_eqb o (bs "send-exclusion-lists")); [cbn in Cl; rewrite Cl |];
        (eexists _, _; split; [done |]); intuition congruence.
Qed.

Lemma options_changed_spec om l a :
  analyzer_weak a -> existsb (clears om) l = false ->
  exists a' acts, options_changed om l a = Ok (a', acts) /\ analyzer_weak a' /\
    captureNetworkPackets a' = captureNetworkPackets a || existsb (captures om) l /\
    (networkPacketDumper a' = Live <->
       networkPacketDumper a = Live \/ existsb (captures om) l = true) /\
    collectModifiedFiles a' =
      (if bool_decide (bs "collect-modified-files" ∈ l)
       then is_true (getOption om (bs "collect-modified-files")) else collectModifiedFiles a) /\
    malicious a' = malicious a.
Proof.
  revert a. induction l as [|o l IH]; intros a W Cl; cbn [options_changed existsb] in *.
  - eexists _, _. split; [done |]. rewrite orb_false_r. intuition congruence.
  - apply orb_false_iff in Cl as [Co Cl].
    destruct (onOptionChanged_spec om o a W Co) as (a1 & acts1 & -> & W1 & Ca1 & D1 & M1 & N1).
    destruct (IH a1 W1 Cl) as (a2 & acts2 & E2 & W2 & Ca2 & D2 & M2 & N2). cbn [mbind result_bind fst snd].
    rewrite E2. cbn [mbind result_bind fst snd]. eexists _, _. split; [done |].
    split_and!; [done | by rewrite Ca2, Ca1, orb_assoc | | | congruence].
    + rewrite D2, D1, orb_true_iff. tauto.
    + rewrite M2. destruct (bytes_eqb o (bs "collect-modified-files")) eqn:Q.
      * apply bytes_eqb_eq in Q as ->. rewrite (bool_decide_eq_true_2 (_ ∈ _ :: _)) by apply list_elem_of_here.
        case_match; [done |]. by rewrite M1, ?bytes_eqb_refl.
      * rewrite M1, ?Q. assert (Hn : bs "collect-modified-files" <> o).
        { intros <-. by rewrite bytes_eqb_refl in Q. }
        rewrite (bool_decide_ext _ (bs "collect-modified-files" ∈ o :: l)); [done |].
        rewrite elem_of_cons. tauto.
Qed.

(** the options of the events, one after the other *)
Fixpoint apply_options (evs : list (wstring * wstring)) (om : OptionsManager) (a : Analyzer)
  : result (OptionsManager * Analyzer * list action) :=
  match evs with
  | [] => Ok (om, a, [])
  | (o, v) :: evs' =>
    let '(om, signalled) := addOption o v om in
    r ← options_changed om signalled a;
    r' ← apply_options evs' om r.1;
    Ok (r'.1, r.2 ++ r'.2)
  end.

Lemma ok_weak a : analyzer_ok a <-> analyzer_weak a /\ (captureNetworkPackets a = true -> networkPacketDumper a = Live).
Proof. unfold analyzer_ok, analyzer_weak. destruct (captureNetworkPackets a), (networkPacketDumper a); intuition congruence. Qed.

(** an event that switches capturing on *)
Definition switches_on (ev : wstring * wstring) : bool := capture_option ev.1 && is_true ev.2.

Definition sends_lists (ev : wstring * wstring) : bool :=
  bytes_eqb ev.1 (bs "send-exclusion-lists") && is_true ev.2.

(** the map after the events *)
Definition updated (evs : list (wstring * wstring)) (om : OptionsManager) : OptionsManager :=
  foldl (fun om ev => mkOptions (<[ev.1 := ev.2]> (optionsMap om))) om evs.

Lemma apply_options_spec evs om a :
  analyzer_ok a -> collectModifiedFiles a = is_true (getOption om (bs "collect-modified-files")) ->
  existsb sends_lists evs = false ->
  exists a' acts, apply_options evs om a = Ok (updated evs om, a', acts) /\ analyzer_ok a' /\
    captureNetworkPackets a' = captureNetworkPackets a || existsb switches_on evs /\
    collectModifiedFiles a' = is_true (getOption (updated evs om) (bs "collect-modified-files")).
Proof.
  revert om a. induction evs as [|[o v] evs IH]; intros om a I M S; cbn [apply_options existsb] in *.
  - eexists _, _. split; [done |]. by rewrite orb_false_r.
  - apply orb_false_iff in S as [S0 S]. rewrite addOption_spec.
    set (om1 := mkOptions (<[o := v]> (optionsMap om))).
    assert (G : getOption om1 o = v) by (unfold om1; rewrite getOption_add; by rewrite bytes_eqb_refl).
    apply ok_weak in I as [W I].
    destruct (options_changed_spec om1 [o] a W) as (a1 & acts1 & -> & W1 & C1 & D1 & M1 & _).
    { cbn. rewrite orb_false_r. unfold clears. by rewrite G. }
    cbn [existsb] in C1, D1. rewrite orb_false_r in C1, D1. unfold captures in C1, D1. rewrite G in C1, D1.
    cbn [mbind result_bind fst snd]. destruct (IH om1 a1) as (a2 & acts2 & -> & I2 & C2 & M2); [| | done |].
    + apply ok_weak. split; [done |]. rewrite C1, orb_true_iff. rewrite D1. intuition.
    + rewrite M1. unfold om1. rewrite getOption_add.
      destruct (bytes_eqb o (bs "collect-modified-files")) eqn:Q.
      * apply bytes_eqb_eq in Q as ->. by rewrite bool_decide_eq_true_2 by apply list_elem_of_here.
      * rewrite bool_decide_eq_false_2; [done |]. intros Hq%list_elem_of_singleton.
        by rewrite <- Hq, bytes_eqb_refl in Q.
    + cbn [mbind result_bind fst snd]. eexists _, _. split; [done |]. split; [done |].
      split; [| done]. by rewrite C2, C1, orb_assoc.
Qed.

Lemma newAnalyzer_spec om keys p r f n :
  (forall o, o ∈ keys <-> o ∈ dom (optionsMap om)) -> existsb (clears om) keys = false ->
  exists a acts, newAnalyzer om keys p r f n = Ok (a, acts) /\ analyzer_ok a /\
    captureNetworkPackets a = existsb (captures om) keys /\
    collectModifiedFiles a = is_true (getOption om (bs "collect-modified-files")).
Proof.
  intros K Cl. unfold newAnalyzer.
  destruct (options_changed_spec om keys (mkAnalyzer (is_true (getOption om (bs "capture-network-packets")))
    false Null None p r f n) ltac:(by left) Cl) as (a & acts & E & W & C & D & M & _). cbn in C, D, M.
  assert (Absent : forall o, o ∉ keys -> getOption om o = []).
  { intros o Ho. unfold getOption. rewrite (not_elem_of_dom_1 (optionsMap om) o); [done |]. by rewrite <- K. }
  assert (Sub : is_true (getOption om (bs "capture-network-packets")) = true -> existsb (captures om) keys = true).
  { intros T. apply existsb_exists. exists (bs "capture-network-packets"). split.
    - destruct (decide (bs "capture-network-packets" ∈ keys)) as [|N]; [by apply list_elem_of_In |].
      by rewrite (Absent _ N) in T.
    - unfold captures. by rewrite T. }
  exists a, acts. split; [done |]. split; [| split].
  - apply ok_weak. split; [done |]. rewrite C, orb_true_iff, D. tauto.
  - rewrite C. destruct (is_true (getOption om (bs "capture-network-packets"))); [by rewrite Sub | done].
  - rewrite M. case_bool_decide as Hc; [done |]. by rewrite (Absent _ Hc).
Qed.
End AnalyzerOptions.

(** C22: What the options do: from the constructor on, whatever options the
    server sets, except send-exclusion-lists to true (which calls
    [clearExclusionList], see Monitor.v), and when that option is not true at
    the start either, the analyzer captures packets exactly if some
    capture option was true at the start or was ever set to true - it cannot
    be switched off again -, it has a packet dumper exactly when it captures,
    so that [start] and [stop] can use it, and it collects modified files
    exactly if that option is true now. *)
Theorem option_history `{RX : WRegex} om keys p r f n evs :
  (forall o, o ∈ keys <-> o ∈ dom (optionsMap om)) -> existsb (clears om) keys = false ->
  existsb sends_lists evs = false ->
  exists a acts a' acts', newAnalyzer om keys p r f n = Ok (a, acts) /\
    apply_options evs om a = Ok (updated evs om, a', acts') /\
    captureNetworkPackets a' = existsb (captures om) keys || existsb switches_on evs /\
    networkPacketDumper a' = (if captureNetworkPackets a' then Live else Null) /\
    collectModifiedFiles a' = is_true (getOption (updated evs om) (bs "collect-modified-files")) /\
    is_ok (start a').
Proof.
  intros K Cl S. destruct (newAnalyzer_spec om keys p r f n K Cl) as (a & acts & E & I & C & M).
  destruct (apply_options_spec evs om a I M S) as (a' & acts' & E' & I' & C' & M').
  exists a, acts, a', acts'. split_and!; [done | done | by rewrite C', C | done | done |].
  unfold start. rewrite I'. by destruct (captureNetworkPackets a').
Qed.

(** ** The report *)

Section Report.
Context `{RX : WRegex}.

Lemma start_spec a : analyzer_ok a -> exists acts, start a = Ok (with_malicious false a, acts).
Proof. intros I. unfold start. rewrite I. destruct (captureNetworkPackets a); by eexists. Qed.

(** the events set the flag and nothing else of the analyzer *)
Lemma on_events_spec `{Peer} log_event evs a m s w r :
  malicious a = Some m -> on_events log_event evs a s w = Ok r ->
  r.1 = with_malicious (m || existsb suspicious evs) a.
Proof.
  revert a m s w. induction evs as [|ev evs IH]; intros a m s w Hm E; cbn in E.
  - injection E as <-. cbn. rewrite orb_false_r. destruct a; cbn in *. by rewrite Hm.
  - unfold on_event in E. destruct (sendXML _ _ _ _) as [[s1 w1]|]; [| done]. cbn in E.
    destruct (suspicious ev) eqn:Q.
    + rewrite (IH (with_malicious true a) true s1 w1 eq_refl E). cbn. by rewrite Q, orb_true_r.
    + rewrite (IH a m s1 w1 Hm E). cbn. by rewrite Q.
Qed.

(** sending events never fails *)
Lemma on_events_ok `{Peer} log_event evs a s w : is_ok (on_events log_event evs a s w).
Proof.
  revert a s w. induction evs as [|ev evs IH]; intros a s w; cbn; [done |]. unfold on_event, sendXML.
  destruct (connected s); [| apply IH].
  destruct (xml_document_ok (bs "system-event") (attributes_for ev)) as (d & -> & _). cbn.
  destruct (sendMessage d s _) as [s1 w1]. cbn. apply IH.
Qed.

(** the report is sent *)
Definition reports (om : OptionsManager) (m : bool) (a : Analyzer) : bool :=
  (m && collectModifiedFiles a) ||
  ((collectModifiedFiles a || captureNetworkPackets a) &&
   is_true (getOption om (if m then bs "capture-network-packets-malicious"
                          else bs "capture-network-packets-benign"))).

(** the captured packets are deleted *)
Definition drops_packets (om : OptionsManager) (m : bool) (a : Analyzer) : bool :=
  captureNetworkPackets a &&
  bytes_eqb (getOption om (if m then bs "capture-network-packets-malicious"
                           else bs "capture-network-packets-benign")) (bs "false").

Lemma collect_spec om st connected m a :
  analyzer_ok a ->
  exists acts, collect om st true connected m a = Ok acts /\
    (SendFile (zip_name st) ∈ acts <-> connected = true /\ reports om m a = true) /\
    (DeleteAdapterFiles ∈ acts <-> drops_packets om m a = true) /\
    (forall z, DeleteFile z ∈ acts -> Compress z ∈ acts).
Proof.
  intros I. unfold collect, reports, drops_packets. rewrite I.
  generalize (zip_name st) as z. intros z.
  destruct (collectModifiedFiles a), (captureNetworkPackets a), m; cbn [orb andb negb delete_pcap];
    repeat match goal with
           | |- context [bytes_eqb (getOption om ?o) (bs "false")] =>
             destruct (bytes_eqb (getOption om o) (bs "false"))
           | |- context [is_true (getOption om ?o)] => destruct (is_true (getOption om o))
           end; destruct connected; cbn;
    (eexists; split; [reflexivity |]); cbn; split_and!;
    repeat setoid_rewrite elem_of_cons; repeat setoid_rewrite elem_of_nil; intuition (congruence || discriminate || eauto).
Qed.
End Report.

Lemma stop_server `{RX : WRegex} om st connected m a :
  analyzer_ok a -> malicious a = Some m -> getOption om (bs "server") <> [] ->
  exists before acts, stop om st true connected a = Ok (before ++ acts ++ [DeleteTree (bs "logs")]) /\
    collect om st true connected m a = Ok acts /\
    (forall z, SendFile z ∉ before) /\ DeleteAdapterFiles ∉ before.
Proof.
  intros I Hm Ns. destruct (collect_spec om st connected m a I) as (acts & E & _).
  unfold stop. rewrite I, Hm. destruct (bytes_eqb (getOption om (bs "server")) []) eqn:Q;
    [by apply bytes_eqb_eq in Q |].
  exists ([DisconnectMonitors] ++ (if captureNetworkPackets a then [DumperStop] else []) ++
    (if collectModifiedFiles a then [SetMonitorModifiedFiles false; CopyCreatedFiles] else [])), acts.
  cbn [negb mbind result_bind].
  destruct (captureNetworkPackets a) eqn:Qc, (collectModifiedFiles a) eqn:Qm; cbn [mbind result_bind orb];
    try (rewrite E; cbn [mbind result_bind]);
    try (assert (acts = []) as -> by (unfold collect in E; rewrite Qc, Qm in E; by injection E as <-);
         unfold collect; rewrite Qc, Qm; cbn [mbind result_bind orb]);
    (split_and!; [done | done | |]);
    cbn; intros; repeat (apply not_elem_of_cons; split; [done |]); apply not_elem_of_nil.
Qed.

(** whether 7za.exe can be started matters only when the report is zipped *)
Lemma stop_created `{RX : WRegex} om st connected m a :
  analyzer_ok a -> malicious a = Some m -> getOption om (bs "server") <> [] ->
  stop om st false connected a =
    if reports om m a then Fault ExitFailure else stop om st true connected a.
Proof.
  intros I Hm Ns. unfold stop, collect, reports, analyzer_ok in *.
  destruct a as [cap col d mal p r f n]. cbn [networkPacketDumper captureNetworkPackets collectModifiedFiles malicious] in *.
  subst d mal.
  destruct (bytes_eqb (getOption om (bs "server")) []) eqn:Q; [by apply bytes_eqb_eq in Q |]. cbn [negb].
  destruct cap, col, m; cbn [orb andb negb mbind result_bind delete_pcap use_dumper];
    repeat match goal with
           | |- context [bytes_eqb (getOption om ?o) (bs "false")] =>
             destruct (bytes_eqb (getOption om o) (bs "false"))
           | |- context [is_true (getOption om ?o)] => destruct (is_true (getOption om o))
           end; done.
Qed.

(** C21: The report of a session.  With a server, options that do not change
    between start and stop, and a dumper that is there exactly when packets are
    captured: after [start], whatever the monitors report, the zipped log is to
    be sent either when files are collected and an event other than a
    connection occurred, or when something is recorded and the capture option
    of the verdict is true.  If it is to be sent and 7za.exe cannot be started,
    [stop] ends the client by exit before anything is sent or the log directory
    deleted.  In every other case [stop] returns; it sends the zipped log
    exactly when it is to be sent and the client is connected, it deletes the
    captured packets exactly when the option of the verdict is false, and its
    last action is to delete the log directory. *)
Theorem session_report `{RX : WRegex} `{Peer} log_event om st created connected evs a s w :
  analyzer_ok a -> getOption om (bs "server") <> [] ->
  exists a1 acts1 a2 sw,
    start a = Ok (a1, acts1) /\ on_events log_event evs a1 s w = Ok (a2, sw) /\
    if reports om (existsb suspicious evs) a && negb created
    then stop om st created connected a2 = Fault ExitFailure
    else exists acts, stop om st created connected a2 = Ok (acts ++ [DeleteTree (bs "logs")]) /\
      (SendFile (zip_name st) ∈ acts <-> connected = true /\ reports om (existsb suspicious evs) a = true) /\
      (DeleteAdapterFiles ∈ acts <-> drops_packets om (existsb suspicious evs) a = true).
Proof.
  intros I Ns. destruct (start_spec a I) as [acts1 E1].
  pose proof (on_events_ok log_event evs (with_malicious false a) s w) as K.
  destruct (on_events log_event evs (with_malicious false a) s w) as [[a2 sw]|] eqn:E2; [| done].
  pose proof (on_events_spec log_event evs (with_malicious false a) false s w _ eq_refl E2) as Ea. cbn in Ea.
  set (m := existsb suspicious evs) in *.
  assert (I2 : analyzer_ok a2) by (subst a2; exact I).
  assert (M2 : malicious a2 = Some m) by (by subst a2).
  destruct (stop_server om st connected m a2 I2 M2 Ns) as (before & acts & E3 & Ec & N1 & N2).
  destruct (collect_spec om st connected m a2 I2) as (acts' & Ec' & R & D & _).
  rewrite Ec in Ec'. injection Ec' as <-.
  assert (Er : reports om m a = reports om m a2) by by subst a2.
  eexists _, _, _, _. split; [exact E1 |]. split; [exact E2 |]. rewrite Er.
  assert (Hs : stop om st created connected a2 =
    if reports om m a2 && negb created then Fault ExitFailure else stop om st true connected a2).
  { destruct created; [by rewrite andb_false_r |]. rewrite andb_true_r. by apply stop_created. }
  rewrite Hs. destruct (reports om m a2 && negb created); [done |].
  exists (before ++ acts). rewrite <- app_assoc. split; [exact E3 |].
  assert (Ed : drops_packets om m a = drops_packets om m a2) by by subst a2. rewrite Ed.
  split; rewrite elem_of_app; [rewrite R | rewrite D]; split; [intros [X|X] | | intros [X|X] |]; try done; try tauto.
  by destruct (N1 (zip_name st)).
Qed.

(** Packets captured because of the command line alone are never kept:
    with a server, whatever else the command line says and whatever the
    monitors report, the client that was started with [-n] deletes the captured
    packets before it stops, although it captures them. *)
Theorem packets_never_kept `{RX : WRegex} `{Peer} log_event wpcap args arg keys p r f n st connected evs s w :
  parse_args wpcap args default_arguments = Ok arg -> serverIp arg <> [] -> arg_capture arg = bs "true" ->
  (forall o, o ∈ keys <-> o ∈ dom (optionsMap (initial_options arg))) ->
  exists a acts0 a1 acts1 a2 sw acts, newAnalyzer (initial_options arg) keys p r f n = Ok (a, acts0) /\
    start a = Ok (a1, acts1) /\ on_events log_event evs a1 s w = Ok (a2, sw) /\
    stop (initial_options arg) st true connected a2 = Ok acts /\
    captureNetworkPackets a = true /\ DeleteAdapterFiles ∈ acts.
Proof.
  intros _ Ns Hn K. set (om := initial_options arg) in *.
  assert (G : forall o, getOption om o = getOption (initial_options arg) o) by done.
  assert (Cl : existsb (clears om) keys = false).
  { apply not_true_iff_false. intros (o & _ & C)%existsb_exists. unfold clears in C.
    apply andb_true_iff in C as [Q C]. apply bytes_eqb_eq in Q as ->.
    unfold om, initial_options in C. cbn [foldl fst snd] in C. rewrite !getOption_put in C. by vm_compute in C. }
  destruct (newAnalyzer_spec om keys p r f n K Cl) as (a & acts0 & E0 & I & C & _).
  assert (Ca : captureNetworkPackets a = true).
  { rewrite C. apply existsb_exists. exists (bs "capture-network-packets"). split.
    - apply list_elem_of_In, K. unfold om, initial_options, put. cbn [foldl fst snd].
      rewrite !addOption_spec. cbn. rewrite !dom_insert. set_solver.
    - unfold captures, om, initial_options. cbn [foldl fst snd]. rewrite !getOption_put.
      rewrite Hn. by vm_compute. }
  destruct (start_spec a I) as [acts1 E1].
  pose proof (on_events_ok log_event evs (with_malicious false a) s w) as Ok2.
  destruct (on_events log_event evs (with_malicious false a) s w) as [[a2 sw]|] eqn:E2; [| done].
  pose proof (on_events_spec log_event evs (with_malicious false a) false s w _ eq_refl E2) as Ea. cbn in Ea.
  assert (I2 : analyzer_ok a2) by (subst a2; exact I).
  assert (Sv : getOption om (bs "server") <> []).
  { unfold om, initial_options. cbn [foldl fst snd]. rewrite !getOption_put. exact Ns. }
  destruct (stop_server om st connected (existsb suspicious evs) a2 I2) as (before & acts & E3 & Ec & _);
    [by subst a2 | done |].
  destruct (collect_spec om st connected (existsb suspicious evs) a2 I2) as (acts' & Ec' & _ & D & _).
  rewrite Ec in Ec'. injection Ec' as <-.
  eexists _, _, _, _, _, _, _. split_and!; [exact E0 | exact E1 | exact E2 | exact E3 | done |].
  rewrite !elem_of_app. right. left. apply D. unfold drops_packets. subst a2. cbn. rewrite Ca. cbn.
  unfold om, initial_options. cbn [foldl fst snd]. destruct (existsb suspicious evs); rewrite !getOption_put; by vm_compute.
Qed.

(** ** A client to run *)

#[local] Existing Instances Link literal_regex.

Definition sample_options : OptionsManager := initial_options (with_serverIp (bs "10.0.0.1") default_arguments).

Definition sample_changes : list (wstring * wstring) :=
  [(bs "capture-network-packets", bs "true"); (bs "capture-network-packets", bs "false");
   (bs "collect-modified-files", bs "true")].

Lemma option_history_witness :
  exists a acts a' acts', newAnalyzer sample_options (keys_of sample_options) newMonitor newMonitor newMonitor
      newMonitor = Ok (a, acts) /\
    apply_options sample_changes sample_options a = Ok (updated sample_changes sample_options, a', acts') /\
    captureNetworkPackets a' = existsb (captures sample_options) (keys_of sample_options) ||
      existsb switches_on sample_changes /\
    networkPacketDumper a' = (if captureNetworkPackets a' then Live else Null) /\
    collectModifiedFiles a' = is_true (getOption (updated sample_changes sample_options) (bs "collect-modified-files")) /\
    is_ok (start a').
Proof.
  apply (option_history (RX := literal_regex) sample_options (keys_of sample_options) newMonitor newMonitor
    newMonitor newMonitor sample_changes); [apply keys_of_dom | vm_compute; reflexivity | reflexivity].
Defined.

(** an analyzer that collects files and captures packets *)
Definition sample_analyzer : Analyzer :=
  mkAnalyzer true true Live None newMonitor newMonitor newMonitor newMonitor.

Definition sample_events : list system_event :=
  [ConnectionEvent (bs "tcp") [] 4 (bs "a.exe") [] []; FileEvent (bs "write") [] 4 (bs "a.exe") (bs "b")].

Definition sample_world : @sworld Link := mk_link [] [] [].

Lemma session_report_witness :
  exists a1 acts1 a2 sw,
    start sample_analyzer = Ok (a1, acts1) /\
    on_events (fun _ w => w) sample_events a1 (mkServer true false 7070 []) sample_world = Ok (a2, sw) /\
    exists acts, stop sample_options (mkTime 1 2 2010 3 4) true true a2 = Ok (acts ++ [DeleteTree (bs "logs")]) /\
    (SendFile (zip_name (mkTime 1 2 2010 3 4)) ∈ acts <->
       true = true /\ reports sample_options (existsb suspicious sample_events) sample_analyzer = true) /\
    (DeleteAdapterFiles ∈ acts <->
       drops_packets sample_options (existsb suspicious sample_events) sample_analyzer = true).
Proof.
  destruct (session_report (RX := literal_regex) (H := Link) (fun _ w => w) sample_options
    (mkTime 1 2 2010 3 4) true true sample_events sample_analyzer (mkServer true false 7070 [])
    sample_world) as (a1 & acts1 & a2 & sw & E1 & E2 & E3); [reflexivity | vm_compute; discriminate |].
  rewrite andb_false_r in E3. exists a1, acts1, a2, sw. split; [exact E1 |]. split; [exact E2 | exact E3].
Defined.

Definition sample_arguments : arguments := with_capture (bs "true") (with_serverIp (bs "10.0.0.1") default_arguments).

Lemma packets_never_kept_witness :
  exists a acts0 a1 acts1 a2 sw acts,
    newAnalyzer (initial_options sample_arguments) (keys_of (initial_options sample_arguments))
      newMonitor newMonitor newMonitor newMonitor = Ok (a, acts0) /\
    start a = Ok (a1, acts1) /\
    on_events (fun _ w => w) sample_events a1 (mkServer true false 7070 []) sample_world = Ok (a2, sw) /\
    stop (initial_options sample_arguments) (mkTime 1 2 2010 3 4) true true a2 = Ok acts /\
    captureNetworkPackets a = true /\ DeleteAdapterFiles ∈ acts.
Proof.
  apply (packets_never_kept (RX := literal_regex) (H := Link) (fun _ w => w) true
    [bs "-s"; bs "10.0.0.1"; bs "-n"] sample_arguments (keys_of (initial_options sample_arguments))
    newMonitor newMonitor newMonitor newMonitor (mkTime 1 2 2010 3 4) true sample_events
    (mkServer true false 7070 []) sample_world);
    [reflexivity | vm_compute; discriminate | reflexivity | apply keys_of_dom].
Defined.
