(* ===== verification/Visitor.v ===== *)
(** * The visitor of the Capture client (Visitor.cpp)

    Two queues - commands of the web service and visit events of the server -,
    the plug-ins with the applications they support, and the loop that hands
    commands to plug-ins. A plug-in is a number with its priority and the names
    it supports; what it is given is the trace of the loop. *)
From Stdlib Require Import ZArith Lia.
From stdpp Require Import base gmap list strings numbers.
From S2P Require Import Prelude HttpParserDef HttpParserExec WebService Url Element.

Local Open Scope Z_scope.

(** class VisitCmdEvent *)
Record VisitCmdEvent := mkCmdEvent { cmd_program : wstring; cmd_parameter : wstring }.

(** class VisitEvent, as far as onServerEvent fills it *)
Record VisitEvent := mkVisitEvent {
  identifier : wstring;
  visit_program : wstring;
  urls : list Url;
}.

(** an ApplicationPlugin object *)
Record plugin := mkPlugin {
  plugin_id : nat;
  getPriority : Z;
  getSupportedApplicationNames : list wstring;
}.

Record Visitor := mkVisitor {
  toVisit : list VisitEvent;
  VisitQueue : list VisitCmdEvent;
  applicationMap : gmap wstring plugin;
  visiting : bool;
}.

Definition with_VisitQueue (q : list VisitCmdEvent) (v : Visitor) : Visitor :=
  mkVisitor (toVisit v) q (applicationMap v) (visiting v).
Definition with_toVisit (q : list VisitEvent) (v : Visitor) : Visitor :=
  mkVisitor q (VisitQueue v) (applicationMap v) (visiting v).
Definition with_applicationMap (m : gmap wstring plugin) (v : Visitor) : Visitor :=
  mkVisitor (toVisit v) (VisitQueue v) m (visiting v).

(** multiByteStringToWideString, in the C locale *)
Definition multiByteStringToWideString (s : bytes) : wstring := c_str s.

Definition onCMDEvent (application parameter : bytes) (v : Visitor) : result Visitor :=
  file ← sprintf_path 1024 TEMP_FILE_FOLDER (c_str parameter);
  let wsfile := multiByteStringToWideString file in
  let wsapp := multiByteStringToWideString application in
  Ok (with_VisitQueue (VisitQueue v ++ [mkCmdEvent wsapp wsfile]) v).

(** ** Plug-ins *)

(** one supported name of a plug-in *)
Definition add_application (p : plugin) (m : gmap wstring plugin) (n : wstring) : gmap wstring plugin :=
  match m !! n with
  | Some q => if getPriority p >? getPriority q then <[n := p]> (delete n m) else m
  | None => <[n := p]> m
  end.

Definition add_plugin (m : gmap wstring plugin) (p : plugin) : gmap wstring plugin :=
  foldl (add_application p) m (getSupportedApplicationNames p).

(** loadClientPlugins: one turn per file that matches, each of which loads
    the same library; [New i] is the object the library creates on turn [i],
    [None] when the library or the object cannot be had *)
Definition loadClientPlugins (New : nat -> option plugin) (files : nat) (v : Visitor) : Visitor :=
  with_applicationMap (foldl add_plugin (applicationMap v) (omap New (seq 0 files))) v.

Definition getApplicationPlugin (applicationName : wstring) (v : Visitor) : option plugin :=
  applicationMap v !! applicationName.

(** ** Events of the server *)

(** the loop over the attributes of an item: url, program and time *)
Fixpoint url_attributes (atts : list Attribute) (u : wstring) (program : wstring) (time : Z)
  : result (wstring * wstring * Z) :=
  match atts with
  | [] => Ok (u, program, time)
  | a :: atts' =>
    if bytes_eqb (a_name a) (bs "url") then url_attributes atts' (a_value a) program time
    else if bytes_eqb (a_name a) (bs "program") then url_attributes atts' u (a_value a) time
    else if bytes_eqb (a_name a) (bs "time") then
      t ← lexical_cast_int (a_value a); url_attributes atts' u program t
    else url_attributes atts' u program time
  end.

Definition createUrl (atts : list Attribute) : result Url :=
  r ← url_attributes atts [] [] 0;
  let '(u, program, time) := r in
  d ← decode u;
  Ok (newUrl d program time).

(** setVisitTime and setProgram *)
Definition forced (t : Z) (prog : wstring) (u : Url) : Url :=
  mkUrl (url u) prog t (processId u) (visited u) (malicious u) (majorErrorCode u) (minorErrorCode u).

Fixpoint visit_urls (visitTime : Z) (program : wstring) (children : list Element) : result (list Url) :=
  match children with
  | [] => Ok []
  | e :: children' =>
    if bytes_eqb (name e) (bs "item") then
      u ← createUrl (attributes e);
      us ← visit_urls visitTime program children';
      Ok (forced visitTime program u :: us)
    else visit_urls visitTime program children'
  end.

(** the VisitEvent of an element, without URLs for other elements *)
Definition visit_of (e : Element) : result VisitEvent :=
  if bytes_eqb (name e) (bs "visit-event") then
    visitTime ← lexical_cast_int (getAttributeValue e (bs "time"));
    us ← visit_urls visitTime (getAttributeValue e (bs "program")) (childElements e);
    Ok (mkVisitEvent (getAttributeValue e (bs "identifier")) (getAttributeValue e (bs "program")) us)
  else Ok (mkVisitEvent [] [] []).

Definition onServerEvent (e : Element) (v : Visitor) : result Visitor :=
  ev ← visit_of e;
  if (0 <? length (urls ev))%nat then Ok (with_toVisit (toVisit v ++ [ev]) v) else Ok v.

(** ** The loop *)

(** one turn of run: the plug-in and the event it is given, if any; an
    exception of the plug-in is swallowed.  For a program no plug-in supports
    the log line gets the std::wstring object itself for its %ls. *)
Definition run_turn (v : Visitor) : result (Visitor * list (plugin * VisitCmdEvent)) :=
  match VisitQueue v with
  | [] => Ok (v, [])
  | ev :: q =>
    match getApplicationPlugin (cmd_program ev) v with
    | Some p => Ok (mkVisitor (toVisit v) q (applicationMap v) false, [(p, ev)])
    | None => Fault FormatMismatch
    end
  end.

(** what happens to the visitor: a command, an event of the server, a turn,
    each as a whole; the queues have no lock of their own *)
Inductive input :=
  | Command (application parameter : bytes)
  | ServerEvent (e : Element)
  | Turn.

Definition input_step (i : input) (v : Visitor) : result (Visitor * list (plugin * VisitCmdEvent)) :=
  match i with
  | Command app par => v ← onCMDEvent app par v; Ok (v, [])
  | ServerEvent e => v ← onServerEvent e v; Ok (v, [])
  | Turn => run_turn v
  end.

Fixpoint visitor_run (l : list input) (v : Visitor) : result (Visitor * list (plugin * VisitCmdEvent)) :=
  match l with
  | [] => Ok (v, [])
  | i :: l' =>
    r ← input_step i v;
    r' ← visitor_run l' r.1;
    Ok (r'.1, r.2 ++ r'.2)
  end.

(** ** Which plug-in visits *)

Lemma add_application_lookup p m n k :
  add_application p m n !! k =
    if bytes_eqb n k then
      match m !! n with
      | Some q => if getPriority p >? getPriority q then Some p else Some q
      | None => Some p
      end
    else m !! k.
Proof.
  unfold add_application. destruct (bytes_eqb n k) eqn:Q.
  - apply bytes_eqb_eq in Q as <-. destruct (m !! n) as [q|] eqn:E; [| by rewrite lookup_insert_eq].
    case_match; [by rewrite lookup_insert_eq | done].
  - assert (N : n <> k) by (intros <-; by rewrite bytes_eqb_refl in Q).
    destruct (m !! n) as [q|] eqn:E; [| by rewrite lookup_insert_ne].
    case_match; [| done]. by rewrite lookup_insert_ne, lookup_delete_ne.
Qed.

Lemma add_plugin_lookup p m k :
  add_plugin m p !! k =
    if bool_decide (k ∈ getSupportedApplicationNames p) then
      match m !! k with
      | Some q => if getPriority p >? getPriority q then Some p else Some q
      | None => Some p
      end
    else m !! k.
Proof.
  unfold add_plugin. generalize (getSupportedApplicationNames p) as ns. intros ns. revert m.
  induction ns as [|n ns IH]; intros m; cbn [foldl]; [done |]. rewrite IH, !add_application_lookup.
  destruct (bytes_eqb n k) eqn:Q.
  - apply bytes_eqb_eq in Q as ->. rewrite (bool_decide_eq_true_2 (k ∈ k :: ns)) by apply list_elem_of_here.
    assert (Nn : (getPriority p >? getPriority p) = false) by (rewrite Z.gtb_ltb; apply Z.ltb_irrefl).
    case_bool_decide; [| done]. destruct (m !! k) as [q|]; [| by rewrite Nn].
    destruct (getPriority p >? getPriority q) eqn:G; [by rewrite Nn | by rewrite G].
  - assert (N : k <> n) by (intros <-; by rewrite bytes_eqb_refl in Q).
    rewrite (bool_decide_ext _ (k ∈ n :: ns)); [done |]. rewrite elem_of_cons. tauto.
Qed.

(** [p] supports [k], was created after plug-ins of less priority only, and
    none of those created later has more *)
Definition chosen (ps : list plugin) (k : wstring) (p : plugin) : Prop :=
  exists before after, ps = before ++ p :: after /\ k ∈ getSupportedApplicationNames p /\
    Forall (fun q => k ∈ getSupportedApplicationNames q -> getPriority q < getPriority p) before /\
    Forall (fun q => k ∈ getSupportedApplicationNames q -> getPriority q <= getPriority p) after.

Lemma plugins_lookup ps k :
  match foldl add_plugin ∅ ps !! k with
  | Some p => chosen ps k p
  | None => Forall (fun q => k ∉ getSupportedApplicationNames q) ps
  end.
Proof.
  induction ps as [|p ps IH] using rev_ind; [cbn [foldl]; by rewrite lookup_empty |].
  rewrite foldl_snoc, add_plugin_lookup. case_bool_decide as S.
  - destruct (foldl add_plugin ∅ ps !! k) as [q|]; [destruct (getPriority p >? getPriority q) eqn:G |].
    + destruct IH as (b & a & -> & Sq & Fb & Fa). exists (b ++ q :: a), []. split_and!; [done | done | | constructor].
      rewrite Z.gtb_ltb in G. apply Z.ltb_lt in G. apply Forall_app. split.
      * eapply list.Forall_impl; [exact Fb |]. cbn. intros x Hx Hs. specialize (Hx Hs). lia.
      * apply Forall_cons_2; [done |]. eapply list.Forall_impl; [exact Fa |]. cbn. intros x Hx Hs.
        specialize (Hx Hs). lia.
    + destruct IH as (b & a & -> & Sq & Fb & Fa). exists b, (a ++ [p]).
      rewrite Z.gtb_ltb in G. apply Z.ltb_ge in G.
      split_and!; [by rewrite <- app_assoc | done | done |]. apply Forall_app. split; [done |].
      apply Forall_cons_2; [by intros _ | constructor].
    + exists ps, []. split_and!; [done | done | | constructor].
      eapply list.Forall_impl; [exact IH |]. cbn. intros x Hx Hs. done.
  - destruct (foldl add_plugin ∅ ps !! k) as [q|].
    + destruct IH as (b & a & -> & Sq & Fb & Fa). exists b, (a ++ [p]).
      split_and!; [by rewrite <- app_assoc | done | done |]. apply Forall_app. split; [done |].
      apply Forall_cons_2; [done | constructor].
    + apply Forall_app. split; [done |]. apply Forall_cons_2; [done | constructor].
Qed.

(** ** What is visited *)

(** the event of a command *)
Definition command_event (application parameter : bytes) : VisitCmdEvent :=
  mkCmdEvent (c_str application) (c_str (TEMP_FILE_FOLDER ++ c_str parameter)).

Definition commands (l : list input) : list VisitCmdEvent :=
  omap (fun i => match i with Command a p => Some (command_event a p) | _ => None end) l.

(** the events of the server that have URLs *)
Definition server_visits (l : list input) : list VisitEvent :=
  omap (fun i => match i with
                 | ServerEvent e => match visit_of e with
                                    | Ok ev => if (0 <? length (urls ev))%nat then Some ev else None
                                    | Fault _ => None
                                    end
                 | _ => None
                 end) l.

(** some plug-in supports the program of the event *)
Definition supported (m : gmap wstring plugin) (ev : VisitCmdEvent) : Prop := is_Some (m !! cmd_program ev).

(** the plug-in registered for the program is the one given the event *)
Definition visit_right (m : gmap wstring plugin) (x : plugin * VisitCmdEvent) : Prop :=
  m !! cmd_program x.2 = Some x.1.

(** the path fits its array and the program is supported, the numbers of the
    event are numbers *)
Definition input_ok (m : gmap wstring plugin) (i : input) : Prop :=
  match i with
  | Command a p => (length (c_str p) < 1008)%nat /\ supported m (command_event a p)
  | ServerEvent e => is_ok (visit_of e)
  | Turn => True
  end.

Lemma input_step_spec i v :
  input_ok (applicationMap v) i -> Forall (supported (applicationMap v)) (VisitQueue v) ->
  exists v' tr, input_step i v = Ok (v', tr) /\ applicationMap v' = applicationMap v /\
    tr.*2 ++ VisitQueue v' = VisitQueue v ++ commands [i] /\
    Forall (visit_right (applicationMap v)) tr /\ Forall (supported (applicationMap v)) (VisitQueue v') /\
    toVisit v' = toVisit v ++ server_visits [i].
Proof.
  destruct i as [a p | e |]; cbn [input_ok input_step]; intros I F.
  - destruct I as [I Su]. unfold onCMDEvent, sprintf_path. rewrite (proj2 (Z.ltb_lt _ _))
      by (rewrite length_app; change (length TEMP_FILE_FOLDER) with 16%nat; lia).
    eexists _, _. split; [done |]. cbn. rewrite app_nil_r. split_and!; [done | done | constructor | | done].
    apply Forall_app. split; [done |]. by apply list.Forall_singleton.
  - unfold onServerEvent. destruct (visit_of e) as [ev|] eqn:E; [| done]. cbn [mbind result_bind].
    unfold server_visits. cbn [omap list_omap]. rewrite E.
    destruct (0 <? length (urls ev))%nat; (eexists _, _; split; [done |]); cbn; rewrite ?app_nil_r;
      split_and!; (done || constructor).
  - unfold run_turn. destruct (VisitQueue v) as [|ev q] eqn:Q.
    + eexists _, _. split; [done |]. cbn. rewrite Q, app_nil_r. split_and!; (done || constructor).
    + apply list.Forall_cons in F as [[p Hp] F]. unfold getApplicationPlugin. rewrite Hp.
      eexists _, _. split; [done |]. cbn. rewrite !app_nil_r. split_and!; try done.
      by apply list.Forall_singleton.
Qed.

Lemma visitor_run_spec l v :
  Forall (input_ok (applicationMap v)) l -> Forall (supported (applicationMap v)) (VisitQueue v) ->
  exists v' tr, visitor_run l v = Ok (v', tr) /\ applicationMap v' = applicationMap v /\
    tr.*2 ++ VisitQueue v' = VisitQueue v ++ commands l /\
    Forall (visit_right (applicationMap v)) tr /\ Forall (supported (applicationMap v)) (VisitQueue v') /\
    toVisit v' = toVisit v ++ server_visits l.
Proof.
  revert v. induction l as [|i l IH]; intros v F Q; cbn [visitor_run].
  - eexists _, _. split; [done |]. cbn. rewrite !app_nil_r. split_and!; (done || constructor).
  - apply list.Forall_cons in F as [Hi F].
    destruct (input_step_spec i v Hi Q) as (v1 & t1 & -> & M1 & T1 & R1 & Q1 & S1). cbn [mbind result_bind fst snd].
    destruct (IH v1) as (v2 & t2 & -> & M2 & T2 & R2 & Q2 & S2); rewrite ?M1 in *; [done | done |].
    cbn [mbind result_bind fst snd]. eexists _, _. split; [done |].
    change (i :: l) with ([i] ++ l). unfold commands, server_visits in *. rewrite !omap_app.
    split_and!; [done | | by apply Forall_app | done | by rewrite S2, S1, app_assoc].
    rewrite fmap_app, <- app_assoc, T2, !app_assoc. by rewrite T1.
Qed.

(** a turn takes one event off the queue *)
Lemma turns_empty k v v' tr :
  (length (VisitQueue v) <= k)%nat -> visitor_run (replicate k Turn) v = Ok (v', tr) -> VisitQueue v' = [].
Proof.
  revert v tr. induction k as [|k IH]; intros v tr L E; cbn in E.
  - injection E as <- _. by destruct (VisitQueue v); [| cbn in L; lia].
  - destruct (run_turn v) as [[v1 t1]|] eqn:E1; [| done]. cbn in E.
    destruct (visitor_run (replicate k Turn) v1) as [[v2 t2]|] eqn:E2; [| done].
    injection E as <- _. apply (IH v1 t2); [| done].
    unfold run_turn in E1. destruct (VisitQueue v) as [|ev q] eqn:Q; cbn in L.
    + injection E1 as <- _. rewrite Q. cbn. lia.
    + destruct (getApplicationPlugin _ _); [| done]. injection E1 as <- _. cbn. lia.
Qed.

Lemma visitor_run_app a b v :
  visitor_run (a ++ b) v =
    (r ← visitor_run a v; r' ← visitor_run b r.1; Ok (r'.1, r.2 ++ r'.2)).
Proof.
  revert v. induction a as [|i a IH]; intros v; cbn; [by destruct (visitor_run b v) as [[]|] |].
  destruct (input_step i v) as [[v1 t1]|]; cbn; [| done]. rewrite IH.
  destruct (visitor_run a v1) as [[v2 t2]|]; cbn; [| done].
  destruct (visitor_run b v2) as [[v3 t3]|]; cbn; [| done]. by rewrite app_assoc.
Qed.


(** The plug-in of an application: after [loadClientPlugins] the map has,
    for every application some plug-in object supports, the one of the highest
    priority, of those of the same priority the one created first, and nothing
    for the others. *)
Theorem plugin_choice New files v k :
  applicationMap v = ∅ ->
  match getApplicationPlugin k (loadClientPlugins New files v) with
  | Some p => chosen (omap New (seq 0 files)) k p
  | None => Forall (fun q => k ∉ getSupportedApplicationNames q) (omap New (seq 0 files))
  end.
Proof. intros E. unfold getApplicationPlugin, loadClientPlugins. cbn. rewrite E. apply plugins_lookup. Qed.

(** ** Samples *)

Definition empty_visitor : Visitor := mkVisitor [] [] ∅ false.

Definition sample_plugin (i : nat) : option plugin :=
  Some (mkPlugin i (Z.of_nat (Nat.modulo i 2)) [bs "reader"; bs "player"]).

Lemma plugin_choice_witness :
  applicationMap empty_visitor = ∅ /\
  match getApplicationPlugin (bs "reader") (loadClientPlugins sample_plugin 4 empty_visitor) with
  | Some p => chosen (omap sample_plugin (seq 0 4)) (bs "reader") p
  | None => Forall (fun q => bs "reader" ∉ getSupportedApplicationNames q) (omap sample_plugin (seq 0 4))
  end.
Proof. split; [reflexivity |]. apply (plugin_choice sample_plugin 4 empty_visitor (bs "reader")). reflexivity. Defined.

Definition sample_visitor : Visitor := loadClientPlugins sample_plugin 2 empty_visitor.

Definition sample_visit_element : Element :=
  mkElement (bs "visit-event") [mkAttribute (bs "program") (bs "reader"); mkAttribute (bs "time") (bs "30")] []
    [mkElement (bs "item") [mkAttribute (bs "url") (bs "http%3A%2F%2Fa")] [] []].

Definition sample_inputs : list input :=
  [Command (bs "reader") (bs "a.pdf"); ServerEvent sample_visit_element; Turn; Command (bs "player") (bs "b")].


(** A command for a program no plug-in supports. *)
Example unsupported_program :
  visitor_run [Command (bs "none") (bs "b"); Turn] sample_visitor = Fault FormatMismatch.
Proof. vm_compute. reflexivity. Qed.
