(* ===== verification/VisitorUpload.v ===== *)
(** * From an upload to a visit (WebService.cpp with Visitor.cpp)

    The web service fires onCMDEvent, the visitor's slot queues a command and
    its loop hands it to a plug-in: the composition of the two components for
    an upload. *)
From Stdlib Require Import ZArith Lia Ascii.
From stdpp Require Import base gmap list strings numbers.
From S2P Require Import Prelude HttpParserDef HttpParserCases HttpParserExec.
From S2P Require Import HttpParserInv HttpParserSafe HttpParserStream HttpParserStep.
From S2P Require Import HttpParserHeaders HttpParserMessage HttpParserPassive.
From S2P Require Import WebService WebServiceSafe WebServiceUpload Visitor.

Local Open Scope Z_scope.

Section Compose.
Context `{Windows}.

(** What can be seen of the machine: the visitor, the buffers passed to send on
    a socket and the contents of the files.  The laws say what the calls of the
    operating system do to it - a file created and written as a whole holds
    what was written -, and that [slot], connected to the signal of the web
    service, does what [onCMDEvent] of the visitor does. *)
Class MachineView (visitor : world -> Visitor) (sent : Z -> world -> list bytes)
    (stored : bytes -> world -> option bytes) (slot : bytes -> bytes -> world -> result world) := {
  view_tls : forall w, visitor (TlsSetValue w).2 = visitor w /\
    forall s, sent s (TlsSetValue w).2 = sent s w;
  view_recv : forall t room w, visitor (recv t room w).2 = visitor w /\
    forall s, sent s (recv t room w).2 = sent s w;
  view_create : forall p w, visitor (CreateFileA p w).2 = visitor w /\
    forall s, sent s (CreateFileA p w).2 = sent s w;
  view_write : forall h b w, visitor (WriteFile h b w).2 = visitor w /\
    forall s, sent s (WriteFile h b w).2 = sent s w;
  view_stored : forall p w h w1 b w2, CreateFileA p w = (Some h, w1) ->
    WriteFile h b w1 = (Some (Z.of_nat (length b)), w2) -> stored p w2 = Some b;
  view_send : forall s b w, visitor (send s b w).2 = visitor w /\
    sent s (send s b w).2 = sent s w ++ [b] /\ forall p, stored p (send s b w).2 = stored p w;
  view_close : forall h w, visitor (CloseHandle h w) = visitor w /\
    (forall s, sent s (CloseHandle h w) = sent s w) /\ forall p, stored p (CloseHandle h w) = stored p w;
  view_finish : forall t w, visitor (finish t w) = visitor w /\
    (forall s, sent s (finish t w) = sent s w) /\ forall p, stored p (finish t w) = stored p w;
  view_slot : forall app name w v, onCMDEvent app name (visitor w) = Ok v ->
    exists w', slot app name w = Ok w' /\ visitor w' = v /\
      (forall s, sent s w' = sent s w) /\ forall p, stored p w' = stored p w;
}.

Lemma arrives_view visitor sent stored slot `{!MachineView visitor sent stored slot} t ds w w' :
  arrives t ds w w' -> visitor w' = visitor w /\ forall s, sent s w' = sent s w.
Proof.
  induction 1 as [|d ds w w1 w2 R A [IH1 IH2]]; [done |].
  specialize (R (Z.of_nat (length d)) ltac:(lia)).
  destruct (view_recv t (Z.of_nat (length d)) w) as [V1 V2]. rewrite R in V1, V2. cbn in V1, V2.
  split; [congruence |]. intros s. by rewrite IH2, V2.
Qed.
End Compose.

(** the turns the visitor needs to get to the last of its commands *)
Lemma last_command_visited v q ev p :
  VisitQueue v = q ++ [ev] -> Forall (supported (applicationMap v)) q ->
  applicationMap v !! cmd_program ev = Some p ->
  exists v' tr, visitor_run (replicate (S (length q)) Turn) v = Ok (v', tr ++ [(p, ev)]) /\ tr.*2 = q.
Proof.
  intros Q Sq Ap.
  destruct (visitor_run_spec (replicate (S (length q)) Turn) v) as (v' & tr & E & _ & T & R & _).
  { by apply Forall_replicate. }
  { rewrite Q. apply Forall_app. split; [done |]. apply list.Forall_singleton. by eexists. }
  assert (commands (replicate (S (length q)) Turn) = []) as Nc by (clear; by induction (S (length q))).
  assert (VisitQueue v' = []) as Qe by (eapply turns_empty; [| exact E]; rewrite Q, length_app; cbn; lia).
  rewrite Nc, app_nil_r, Qe, app_nil_r, Q in T.
  destruct tr as [|[p' ev'] tr _] using rev_ind; [by destruct q |].
  rewrite fmap_app in T. apply app_inj_tail in T as [T1 T2]. cbn in T2. subst ev'.
  apply Forall_app in R as [_ R]. apply list.Forall_cons in R as [R _].
  assert (p' = p) as -> by (unfold visit_right in R; cbn [fst snd] in R; congruence). exists v', tr. by split.
Qed.


(** ** A machine with a visitor *)

(** an operation of the machine without the visitor *)
Definition lift {A} (f : sim -> A * sim) (w : sim * Visitor) : A * (sim * Visitor) :=
  let '(a, w1) := f w.1 in (a, (w1, w.2)).
Definition lift0 (f : sim -> sim) (w : sim * Visitor) : sim * Visitor := (f w.1, w.2).

#[local] Instance SimVisitor : Windows := {|
  world := sim * Visitor; handle := handle (Windows := Sim); find_handle := find_handle (Windows := Sim);
  send s b := lift (send (Windows := Sim) s b);
  recv s room := lift (recv (Windows := Sim) s room);
  shutdown s := lift0 (shutdown (Windows := Sim) s);
  closesocket s := lift0 (closesocket (Windows := Sim) s);
  TlsSetValue := lift (TlsSetValue (Windows := Sim));
  InternetCanonicalizeUrlA := InternetCanonicalizeUrlA (Windows := Sim);
  realloc n w := true;
  GetFileAttributesA p w := GetFileAttributesA (Windows := Sim) p w.1;
  OpenFileA p := lift (OpenFileA (Windows := Sim) p);
  CreateFileA p := lift (CreateFileA (Windows := Sim) p);
  GetFileSize h w := GetFileSize (Windows := Sim) h w.1;
  ReadFile h n := lift (ReadFile (Windows := Sim) h n);
  WriteFile h b := lift (WriteFile (Windows := Sim) h b);
  CloseHandle h := lift0 (CloseHandle (Windows := Sim) h);
  DeleteFileA p := lift0 (DeleteFileA (Windows := Sim) p);
  FindFirstFileA p := lift (FindFirstFileA (Windows := Sim) p);
  FindNextFileA h := lift (FindNextFileA (Windows := Sim) h);
  FindClose h := lift0 (FindClose (Windows := Sim) h);
  fopen_r p := lift (fopen_r (Windows := Sim) p);
  ftell_end h w := ftell_end (Windows := Sim) h w.1;
  fread h n := lift (fread (Windows := Sim) h n);
  fclose h := lift0 (fclose (Windows := Sim) h);
  CreateProcessA p := lift (CreateProcessA (Windows := Sim) p);
  ShellExecuteA p := lift (ShellExecuteA (Windows := Sim) p);
  IcmpCreateFile := lift (IcmpCreateFile (Windows := Sim));
  IcmpSendEcho2 ip := lift (IcmpSendEcho2 (Windows := Sim) ip);
  WaitForSingleObject := lift0 (WaitForSingleObject (Windows := Sim));
|}.

Definition sim_visitor (w : world (Windows := SimVisitor)) : Visitor := w.2.
Definition sim_slot (app name : bytes) (w : world (Windows := SimVisitor)) : result (world (Windows := SimVisitor)) :=
  v ← onCMDEvent app name w.2; Ok (w.1, v).

Definition sim_sent (s : Z) (w : world (Windows := SimVisitor)) : list bytes := sim_out w.1.
Definition sim_stored (p : bytes) (w : world (Windows := SimVisitor)) : option bytes :=
  (fun f => f.2.2) <$> list_find (fun f => f.1 = p) (reverse (sim_files w.1)).

#[local] Instance sim_memory : Memory (H := SimVisitor).
Proof. done. Qed.

#[local] Instance sim_view : MachineView (H := SimVisitor) sim_visitor sim_sent sim_stored sim_slot.
Proof.
  split; try done.
  - intros t room [w v]. cbn. unfold lift, sim_recv. cbn. by destruct (sim_in w).
  - intros p w h w1 b w2 E1 E2. destruct w as [w v]. cbn in E1. unfold lift in E1. cbn in E1.
    injection E1 as <- <-. cbn in E2. unfold lift in E2. cbn in E2. injection E2 as <-.
    unfold sim_stored. cbn [fst sim_files]. rewrite reverse_snoc. cbn [list_find fst]. by rewrite decide_True.
  - intros app name w v E. unfold sim_slot, sim_visitor in *. rewrite E. by eexists.
Qed.

Lemma arrives_lift s ds w w' v :
  arrives (H := Sim) s ds w w' -> arrives (H := SimVisitor) s ds (w, v) (w', v).
Proof.
  induction 1 as [|d ds w w1 w2 R A IH]; econstructor; [| exact IH].
  intros room L. change (lift (recv (Windows := Sim) s room) (w, v) = (d, (w1, v))).
  unfold lift. cbn [fst]. by rewrite R.
Qed.

Lemma lift_upload :
  upload_request (H := SimVisitor) HTTP_POST w_url w_headers w_body (file_uri (bs "reader") (bs "a.txt")).
Proof.
  split; [exact w_request_ok | discriminate | vm_compute; reflexivity | vm_compute; discriminate
         | vm_compute; reflexivity | reflexivity].
Qed.

Definition sample_store : list (bytes * bytes) := [(TEMP_FILE_FOLDER ++ bs "a.txt", w_body)].

