(* ===== verification/TaskManager.v ===== *)
(** * The task queue of the Capture client (TaskManager.cpp)

    A deque of tasks behind a critical section, saved to and loaded from the
    file TaskQueue, and the loop that starts a process per task and closes the
    overdue ones. Nothing else of the client uses it yet. Text is the
    characters of the file in text mode. *)
From Stdlib Require Import ZArith Lia.
From stdpp Require Import base gmap list strings numbers.
From S2P Require Import Prelude Element.

Local Open Scope Z_scope.

Record Task := mkTask { m_processimage : wstring; m_arguments : list wstring }.

Definition SetProcessImage (i : wstring) (t : Task) : Task := mkTask i (m_arguments t).

(** the for loop of SetArgs, from [i] to [args.size()] included *)
Fixpoint set_args (n i : nat) (args : list wstring) (t : Task) : result Task :=
  match n with
  | O => Ok t
  | S n' =>
    match args !! i with
    | Some a => set_args n' (i + 1) args (mkTask (m_processimage t) (m_arguments t ++ [a]))
    | None => Fault VectorIndex
    end
  end.

Definition SetArgs (args : list wstring) (t : Task) : result Task := set_args (length args + 1) 0 args t.

(** CRITICAL_SECTION: the thread that owns it and how often *)
Abbreviation critical_section := (option (nat * nat)).

(** EnterCriticalSection by [thr]; [None] when it waits *)
Definition enter (thr : nat) (cs : critical_section) : option critical_section :=
  match cs with
  | None => Some (Some (thr, 1%nat))
  | Some (o, n) => if (o =? thr)%nat then Some (Some (o, S n)) else None
  end.

Definition leave (cs : critical_section) : critical_section :=
  match cs with
  | Some (o, S (S n)) => Some (o, S n)
  | _ => None
  end.

Record RunItem := mkRunItem { hProc : nat; starttime : Z }.

Record TaskManager := mkManager {
  m_deque : list Task;
  m_runnings : list RunItem;
  m_taskqueueCS : critical_section;
  m_lastsavetasks : Z;
  m_savetaskinterval : Z;
  m_procruninterval : Z;
  TaskQueue : option wstring;         (* the file, [None] when it cannot be opened *)
  manager_running : bool;
  manager_thread : option bool;       (* [None] before it is assigned; whether the thread is alive *)
}.

(** the constructor; it leaves [manager_running] as it finds it in the memory *)
Definition newManager (procruninterval tasksaveinterval now : Z) (file : option wstring) (running : bool) : TaskManager :=
  mkManager [] [] None now tasksaveinterval procruninterval file running None.

Definition with_deque (d : list Task) (m : TaskManager) : TaskManager :=
  mkManager d (m_runnings m) (m_taskqueueCS m) (m_lastsavetasks m) (m_savetaskinterval m) (m_procruninterval m) (TaskQueue m)
    (manager_running m) (manager_thread m).
Definition with_runnings (r : list RunItem) (m : TaskManager) : TaskManager :=
  mkManager (m_deque m) r (m_taskqueueCS m) (m_lastsavetasks m) (m_savetaskinterval m) (m_procruninterval m) (TaskQueue m)
    (manager_running m) (manager_thread m).
Definition with_cs (c : critical_section) (m : TaskManager) : TaskManager :=
  mkManager (m_deque m) (m_runnings m) c (m_lastsavetasks m) (m_savetaskinterval m) (m_procruninterval m) (TaskQueue m)
    (manager_running m) (manager_thread m).
Definition with_file (f : option wstring) (m : TaskManager) : TaskManager :=
  mkManager (m_deque m) (m_runnings m) (m_taskqueueCS m) (m_lastsavetasks m) (m_savetaskinterval m) (m_procruninterval m) f
    (manager_running m) (manager_thread m).
Definition with_thread (r : bool) (t : option bool) (m : TaskManager) : TaskManager :=
  mkManager (m_deque m) (m_runnings m) (m_taskqueueCS m) (m_lastsavetasks m) (m_savetaskinterval m) (m_procruninterval m) (TaskQueue m)
    r t.

(** ** The file *)

Definition print_task (t : Task) : wstring :=
  m_processimage t ++ concat (map (cons 9) (m_arguments t)) ++ [10].

Definition SaveTasks (m : TaskManager) : TaskManager :=
  match TaskQueue m with
  | None => m
  | Some _ => with_file (Some (concat (map print_task (m_deque m)))) m
  end.

(** the time of the last save is never updated *)
Definition AutoSaveTasks (now : Z) (m : TaskManager) : TaskManager :=
  if m_savetaskinterval m <? now - m_lastsavetasks m then SaveTasks m else m.

Definition load_line (line : wstring) : result Task :=
  match split_on 9 line with
  | image :: args =>
    let t := SetProcessImage image (mkTask [] []) in
    if (0 <? length args)%nat then SetArgs args t else Ok t
  | [] => Fault VectorIndex
  end.

Fixpoint load_lines (lines : list wstring) (deque : list Task) : result (list Task) :=
  match lines with
  | [] => Ok deque
  | line :: lines' =>
    if (0 <? length line)%nat then
      t ← load_line line; load_lines lines' (deque ++ [t])
    else load_lines lines' deque
  end.

(** LoadTasks: the lines [getline] delivers until [eof] *)
Definition LoadTasks (m : TaskManager) : result TaskManager :=
  match TaskQueue m with
  | None => Ok m
  | Some text => d ← load_lines (split_on 10 text) (m_deque m); Ok (with_deque d m)
  end.

(** ** The queue *)

(** Push by [thr] at the time [now]; [None] when it waits *)
Definition Push (thr : nat) (now : Z) (t : Task) (m : TaskManager) : option TaskManager :=
  cs ← enter thr (m_taskqueueCS m);
  let m := AutoSaveTasks now (with_deque (m_deque m ++ [t]) (with_cs cs m)) in
  Some (with_cs (leave (m_taskqueueCS m)) m).

(** Pop takes the newest task; with an empty queue it returns without leaving
    the critical section *)
Definition Pop (thr : nat) (now : Z) (m : TaskManager) : option (option Task * TaskManager) :=
  cs ← enter thr (m_taskqueueCS m);
  let m := with_cs cs m in
  match list.last (m_deque m) with
  | None => Some (None, m)
  | Some t =>
    let m := AutoSaveTasks now (with_deque (removelast (m_deque m)) m) in
    Some (Some t, with_cs (leave (m_taskqueueCS m)) m)
  end.

(** ** The loop *)

(** the calls on process handles *)
Inductive proc_call := Created (h : nat) | Closed (h : nat) | Terminated (h : nat).

(** the for loop over the running processes; [pop_front] whatever [i] is *)
Fixpoint close_overdue (fuel : nat) (now interval : Z) (i : nat) (r : list RunItem)
  : list RunItem * list proc_call :=
  match fuel with
  | O => (r, [])
  | S fuel' =>
    match r !! i with
    | None => (r, [])
    | Some x =>
      if interval <? now - starttime x then
        let '(r', calls) := close_overdue fuel' now interval (i + 1) (tail r) in
        (r', Terminated (hProc x) :: calls)
      else (r, [])
    end
  end.

(** the body of the loop of run, by the manager thread; [spawn] is CreateProcess; [None]
    when Pop waits *)
Definition run_turn (thr : nat) (now : Z) (spawn : wstring -> option nat) (m : TaskManager)
  : option (TaskManager * list proc_call) :=
  let '(r, calls) := close_overdue (length (m_runnings m)) now (m_procruninterval m) 0 (m_runnings m) in
  '(t, m) ← Pop thr now (with_runnings r m);
  match t with
  | None => Some (m, calls)
  | Some t =>
    match spawn (m_processimage t) with
    | Some h => Some (with_runnings (m_runnings m ++ [mkRunItem h now]) m, calls ++ [Created h; Closed h])
    | None => Some (m, calls)
    end
  end.

(** the manager thread between two tests of [manager_running] *)
Definition run (thr : nat) (now : Z) (spawn : wstring -> option nat) (m : TaskManager)
  : option (TaskManager * list proc_call) :=
  if manager_running m then run_turn thr now spawn m
  else Some (with_thread (manager_running m) (Some false) m, []).

Definition Start (m : TaskManager) : result TaskManager :=
  m ← LoadTasks m;
  Ok (if negb (manager_running m) then with_thread (manager_running m) (Some true) m else m).

(** [manager_thread->stop(); delete manager_thread] *)
Definition Stop (m : TaskManager) : result TaskManager :=
  let m := SaveTasks m in
  if manager_running m then
    match manager_thread m with
    | None => Fault UninitRead
    | Some _ => Ok (with_thread false (Some false) m)
    end
  else Ok m.

(** ** What survives a save *)

(** characters that are no separators *)
Definition plain (s : wstring) : Prop := 9 ∉ s /\ 10 ∉ s.

Definition task_ok (t : Task) : Prop := m_processimage t <> [] /\ plain (m_processimage t) /\ Forall plain (m_arguments t).

Lemma set_args_fault args t : SetArgs args t = Fault VectorIndex.
Proof.
  unfold SetArgs. enough (K : forall n i t, (i + n = length args + 1)%nat -> (0 < n)%nat -> (i <= length args)%nat ->
    set_args n i args t = Fault VectorIndex) by (apply K; lia).
  induction n as [|n IH]; intros i t' E P L; [lia |]. cbn.
  destruct (args !! i) as [a|] eqn:Q; [| done]. apply lookup_lt_Some in Q. apply IH; lia.
Qed.

Lemma split_on_line sep a b : sep ∉ a -> split_on sep (a ++ sep :: b) = a :: split_on sep b.
Proof.
  induction a as [|c a IH]; intros N; cbn; [by rewrite Z.eqb_refl |].
  apply not_elem_of_cons in N as [Nc N]. rewrite (proj2 (Z.eqb_neq _ _)) by done. by rewrite IH.
Qed.

Lemma split_on_none sep a : sep ∉ a -> split_on sep a = [a].
Proof.
  induction a as [|c a IH]; intros N; cbn; [done |].
  apply not_elem_of_cons in N as [Nc N]. rewrite (proj2 (Z.eqb_neq _ _)) by done. by rewrite IH.
Qed.

Lemma split_args image args :
  9 ∉ image -> Forall plain args -> split_on 9 (image ++ concat (map (cons 9) args)) = image :: args.
Proof.
  intros N F. revert image N. induction F as [|a args [Na _] F IH]; intros image N; cbn.
  - rewrite app_nil_r. by apply split_on_none.
  - rewrite split_on_line by done. by rewrite IH.
Qed.

Lemma no_newline_args args : Forall plain args -> 10 ∉ concat (map (cons 9) args).
Proof.
  induction 1 as [|a args [_ Na] F IH]; cbn; [by apply not_elem_of_nil |].
  rewrite elem_of_cons, elem_of_app. intros [X|[X|X]]; done.
Qed.

(** a saved task is loaded, unless it has arguments *)
Lemma load_printed t :
  task_ok t ->
  load_line (m_processimage t ++ concat (map (cons 9) (m_arguments t))) =
    if bool_decide (m_arguments t = []) then Ok t else Fault VectorIndex.
Proof.
  intros (Ni & [N9 _] & F). unfold load_line. rewrite split_args by done.
  destruct t as [image [|a args]]; cbn [m_arguments m_processimage length Nat.ltb Nat.leb]; [done |].
  apply set_args_fault.
Qed.

Lemma load_saved q d :
  Forall task_ok q ->
  load_lines (split_on 10 (concat (map print_task q))) d =
    if forallb (fun t => bool_decide (m_arguments t = [])) q then Ok (d ++ q) else Fault VectorIndex.
Proof.
  intros F. revert d. induction F as [|t q Ht F IH]; intros d; cbn [map concat forallb].
  - cbn. by rewrite app_nil_r.
  - unfold print_task. destruct Ht as (Ni & [N9 N10] & Fa).
    rewrite (app_assoc (m_processimage t)), <- app_assoc. change ([10] ++ ?x) with (10 :: x).
    cbn [app]. rewrite split_on_line.
    + cbn [load_lines]. rewrite (proj2 (Nat.ltb_lt _ _))
        by (rewrite length_app; destruct (m_processimage t); [done | cbn; lia]).
      rewrite load_printed by done. case_bool_decide as E; [| done]. cbn [mbind result_bind andb].
      rewrite IH, <- app_assoc. done.
    + rewrite elem_of_app. intros [X|X]; [done |]. by apply (no_newline_args (m_arguments t)).
Qed.

(** Saving and loading: a queue that is saved and loaded again comes back
    as it was when no task has arguments, and when one has, loading reads past
    the end of its vector of arguments: [SetArgs] cannot be called without
    this. *)
Theorem tasks_saved m m' :
  Forall task_ok (m_deque m) -> TaskQueue m <> None ->
  TaskQueue m' = TaskQueue (SaveTasks m) -> m_deque m' = [] ->
  LoadTasks m' =
    if forallb (fun t => bool_decide (m_arguments t = [])) (m_deque m)
    then Ok (with_deque (m_deque m) m') else Fault VectorIndex.
Proof.
  intros F N Et Ed. unfold LoadTasks. rewrite Et, Ed. unfold SaveTasks.
  destruct (TaskQueue m); [| done]. cbn [with_file TaskQueue]. rewrite load_saved by done. by case_match.
Qed.

(** ** The service *)

(** what the program's threads do: thread [mgr] runs the loop *)
Inductive op :=
  | OpStart
  | OpStop
  | OpPush (thr : nat) (now : Z) (t : Task)
  | OpThread (now : Z) (spawn : wstring -> option nat).

(** one operation; nothing happens while the thread waits or is not there *)
Definition op_step (mgr : nat) (o : op) (m : TaskManager) : result (TaskManager * list proc_call) :=
  match o with
  | OpStart => m ← Start m; Ok (m, [])
  | OpStop => m ← Stop m; Ok (m, [])
  | OpPush thr now t => Ok (default m (Push thr now t m), [])
  | OpThread now spawn =>
    if bool_decide (manager_thread m = Some true) then Ok (default (m, []) (run mgr now spawn m)) else Ok (m, [])
  end.

Fixpoint ops_run (mgr : nat) (l : list op) (m : TaskManager) : result (TaskManager * list proc_call) :=
  match l with
  | [] => Ok (m, [])
  | o :: l' =>
    r ← op_step mgr o m;
    r' ← ops_run mgr l' r.1;
    Ok (r'.1, r.2 ++ r'.2)
  end.

(** a thread is there only while the flag is false, and no process is *)
Record idle (m : TaskManager) : Prop := {
  idle_thread : manager_thread m = None \/ manager_running m = false;
  idle_runnings : m_runnings m = [];
  idle_cs : m_taskqueueCS m = None;
}.

Lemma load_lines_extends lines d d' : load_lines lines d = Ok d' -> d `prefix_of` d'.
Proof.
  revert d. induction lines as [|line lines IH]; intros d E; cbn [load_lines] in E; [by injection E as <- |].
  destruct (0 <? length line)%nat; [| by apply IH]. destruct (load_line line) as [t|]; [| done].
  cbn in E. etrans; [| by apply IH]. by apply prefix_app_r.
Qed.

Lemma save_idle m : idle m -> idle (SaveTasks m) /\ m_deque (SaveTasks m) = m_deque m.
Proof. intros []. unfold SaveTasks. destruct (TaskQueue m); by repeat split. Qed.

Lemma auto_save_idle now m : m_deque (AutoSaveTasks now m) = m_deque m /\ m_runnings (AutoSaveTasks now m) = m_runnings m /\
  m_taskqueueCS (AutoSaveTasks now m) = m_taskqueueCS m /\ manager_thread (AutoSaveTasks now m) = manager_thread m /\
  manager_running (AutoSaveTasks now m) = manager_running m.
Proof. unfold AutoSaveTasks, SaveTasks. case_match; [| done]. by destruct (TaskQueue m). Qed.

Lemma push_idle thr now t m :
  idle m -> exists m', Push thr now t m = Some m' /\ idle m' /\ m_deque m' = m_deque m ++ [t].
Proof.
  intros []. unfold Push. rewrite idle_cs0. cbn. eexists. split; [done |].
  destruct (auto_save_idle now (with_deque (m_deque m ++ [t]) (with_cs (Some (thr, 1%nat)) m)))
    as (E1 & E2 & E3 & E4 & E5). split; [| exact E1].
  split; cbn; rewrite ?E2, ?E3, ?E4, ?E5; done.
Qed.

Lemma op_step_idle mgr o m r :
  idle m -> op_step mgr o m = Ok r -> idle r.1 /\ r.2 = [] /\ m_deque m `prefix_of` m_deque r.1.
Proof.
  intros I E. pose proof I as []. destruct o as [| | thr now t | now spawn]; cbn [op_step] in E.
  - unfold Start, LoadTasks in E. destruct (TaskQueue m) as [text|].
    + destruct (load_lines _ _) as [d|] eqn:El; [| done]. cbn in E. injection E as <-. apply load_lines_extends in El.
      cbn [fst snd]. destruct (manager_running m) eqn:R; cbn; (split; [| done]); split; cbn; rewrite ?R; auto.
    + cbn in E. injection E as <-. cbn [fst snd]. destruct (manager_running m) eqn:R; cbn; (split; [| done]); [done |].
      split; cbn; rewrite ?R; auto.
  - unfold Stop in E. destruct (save_idle m I) as [[] D].
    destruct (manager_running (SaveTasks m)) eqn:R.
    + destruct (manager_thread (SaveTasks m)); [| done]. cbn in E. injection E as <-. cbn. rewrite D.
      split; [| done]. split; cbn; auto.
    + cbn in E. injection E as <-. cbn. rewrite D. split; [| done]. by split; auto.
  - destruct (push_idle thr now t m I) as (m' & Ep & I' & D). rewrite Ep in E. injection E as <-. cbn.
    split; [done |]. split; [done |]. rewrite D. by apply prefix_app_r.
  - destruct (bool_decide _) eqn:Et; [| by injection E as <-]. apply bool_decide_eq_true in Et.
    destruct idle_thread0 as [? | R]; [congruence |]. unfold run in E. rewrite R in E. injection E as <-.
    cbn. split; [| done]. split; cbn; auto.
Qed.



(** Had the loop run: a turn that finds the queue empty would keep the critical
    section, because Pop returns without leaving it. *)
Example empty_queue_keeps_lock :
  Push 1 9 (mkTask (bs "a.exe") []) (default (newManager 10 60 0 None true)
    (fst <$> run 0 1 (fun _ => None) (newManager 10 60 0 None true))) = None.
Proof. reflexivity. Qed.

Lemma tasks_saved_witness :
  LoadTasks (newManager 10 60 0 (Some (bs "a.exe" ++ [10] ++ bs "b.exe" ++ [10])) false) =
    Ok (with_deque [mkTask (bs "a.exe") []; mkTask (bs "b.exe") []]
          (newManager 10 60 0 (Some (bs "a.exe" ++ [10] ++ bs "b.exe" ++ [10])) false)).
Proof.
  rewrite (tasks_saved (with_deque [mkTask (bs "a.exe") []; mkTask (bs "b.exe") []] (newManager 10 60 0 (Some []) false)));
    [reflexivity | | discriminate | reflexivity | reflexivity].
  repeat (apply Forall_cons_2; [split; [discriminate |]; split; [| apply Forall_nil_2];
    split; apply (bool_decide_unpack _); vm_compute; exact I |]). apply Forall_nil_2.
Defined.

(** ** Overdue processes *)

(** some TerminateProcess is called on a handle that is open *)
Fixpoint terminates_open (open : list nat) (l : list proc_call) : bool :=
  match l with
  | [] => false
  | Created h :: l' => terminates_open (h :: open) l'
  | Closed h :: l' => terminates_open (filter (fun x => x <> h) open) l'
  | Terminated h :: l' => bool_decide (h ∈ open) || terminates_open open l'
  end.

Fixpoint manager_run (mgr : nat) (turns : list (Z * (wstring -> option nat))) (m : TaskManager)
  : option (TaskManager * list proc_call) :=
  match turns with
  | [] => Some (m, [])
  | (now, spawn) :: turns' =>
    '(m, calls) ← run_turn mgr now spawn m;
    '(m, calls') ← manager_run mgr turns' m;
    Some (m, calls ++ calls')
  end.

Definition is_terminated (c : proc_call) : Prop := match c with Terminated _ => True | _ => False end.

Lemma close_overdue_calls fuel now interval i r : Forall is_terminated (close_overdue fuel now interval i r).2.
Proof.
  revert i r. induction fuel as [|fuel IH]; intros i r; cbn; [constructor |].
  destruct (r !! i); [| constructor]. case_match; [| constructor].
  specialize (IH (i + 1)%nat (tail r)). destruct (close_overdue _ _ _ _ _). by constructor.
Qed.

Lemma terminated_closed l l' : Forall is_terminated l -> terminates_open [] (l ++ l') = terminates_open [] l'.
Proof. induction 1 as [|[]]; cbn; done. Qed.

(** Overdue processes are not terminated: in no run does the manager call
    TerminateProcess on a handle that is open, because it closes every process
    handle right after it was created. *)
Lemma never_terminates mgr turns m m' calls :
  manager_run mgr turns m = Some (m', calls) -> terminates_open [] calls = false.
Proof.
  revert m calls. induction turns as [|[now spawn] turns IH]; intros m calls E; cbn in E;
    [injection E as _ <-; done |].
  destruct (run_turn mgr now spawn m) as [[m1 c1]|] eqn:E1; [| done]. cbn in E.
  destruct (manager_run mgr turns m1) as [[m2 c2]|] eqn:E2; [| done]. cbn in E. injection E as <- <-.
  specialize (IH _ _ E2). unfold run_turn in E1.
  pose proof (close_overdue_calls (length (m_runnings m)) now (m_procruninterval m) 0 (m_runnings m)) as T.
  destruct (close_overdue _ _ _ _ _) as [r c]. cbn in T.
  destruct (Pop mgr now (with_runnings r m)) as [[[t|] m3]|]; cbn in E1; [| injection E1 as _ <-; by rewrite terminated_closed | done].
  destruct (spawn (m_processimage t)); injection E1 as _ <-; [| by rewrite terminated_closed].
  rewrite <- app_assoc, terminated_closed by done. cbn. by rewrite decide_False by tauto.
Qed.

(** of three overdue processes the second is forgotten without a call *)
Example overdue_skipped :
  close_overdue 3 100 10 0 [mkRunItem 1 0; mkRunItem 2 0; mkRunItem 3 0] =
    ([mkRunItem 3 0], [Terminated 1; Terminated 3]).
Proof. reflexivity. Qed.
