(* ===== verification/ProcessManager.v ===== *)
(** * Process paths of the Capture client (ProcessManager.cpp)

    The monitors ask the manager which program a process id belongs to. It
    answers from a map that is filled by the events of the process monitor,
    waits when the id is not there yet, and asks Windows in the end. Kernel
    paths (\Device\HarddiskVolume1\...) are turned into DOS paths. *)
From Stdlib Require Import ZArith Lia.
From stdpp Require Import base gmap list strings numbers.
From S2P Require Import Prelude Element Monitor.

Local Open Scope Z_scope.

(** what the manager asks Windows: the device of a drive, the long form of a
    path, whether a process can be opened and the path of its image *)
Class Processes := {
  QueryDosDevice : wstring -> option wstring;
  GetLongPathName : wstring -> option wstring;
  OpenProcess : Z -> bool;
  GetProcessImageFileName : Z -> option wstring;
  EnumProcessModules : Z -> bool;
}.

(** the backslash *)
Definition bsl : Z := 92.

Section Paths.
Context `{Processes}.

(** the loop from A to Z *)
Fixpoint find_drive (drives : list Z) (devicePath : wstring) : wstring :=
  match drives with
  | [] => bs "?:"
  | drive :: ds =>
    if (match QueryDosDevice [drive; 58] with
        | Some szTarget => bytes_eqb (c_str devicePath) szTarget
        | None => false
        end)
    then [drive; 58] else find_drive ds devicePath
  end.

Definition drives : list Z := (fun i => 65 + Z.of_nat i) <$> seq 0 26.

Definition convertDevicePathToDOSDrive (devicePath : wstring) : wstring := find_drive drives devicePath.

(** [find(L'\\', find(L'\\', 1) + 1)]; [npos + 1] is 0 *)
Definition path_offset (p : wstring) : option nat :=
  match find_from [bsl] p 1 with
  | Some i => find_from [bsl] p (i + 1)
  | None => find_from [bsl] p 0
  end.

(** [substr(npos)] throws *)
Definition convertFileObjectPathToDOSPath (p : wstring) : result wstring :=
  if bool_decide (str_find [bsl] p = Some 0%nat) then
    if (23 <? length p)%nat then
      match path_offset p with
      | None => Fault OutOfRange
      | Some pathOffset =>
        devicePath ← str_substr p 0 pathOffset;
        rest ← str_substr_from p pathOffset;
        let dosPath := convertDevicePathToDOSDrive devicePath ++ rest in
        match GetLongPathName (c_str dosPath) with
        | Some szTemp => if Z.of_nat (length szTemp) <? 2048 then Ok szTemp else Fault UninitRead
        | None => Ok dosPath
        end
      end
    else Ok p
  else Ok p.

(** ** The map *)

Record ProcessManager := mkProcesses {
  processMap : gmap Z wstring;
  cacheHits : Z;
  cacheMisses : Z;
  cacheFailures : Z;
}.

Definition with_processMap (m : gmap Z wstring) (pm : ProcessManager) : ProcessManager :=
  mkProcesses m (cacheHits pm) (cacheMisses pm) (cacheFailures pm).
Definition count_hit (pm : ProcessManager) : ProcessManager :=
  mkProcesses (processMap pm) (cacheHits pm + 1) (cacheMisses pm) (cacheFailures pm).
Definition count_miss (pm : ProcessManager) : ProcessManager :=
  mkProcesses (processMap pm) (cacheHits pm) (cacheMisses pm + 1) (cacheFailures pm).
Definition count_failure (pm : ProcessManager) : ProcessManager :=
  mkProcesses (processMap pm) (cacheHits pm) (cacheMisses pm) (cacheFailures pm + 1).

Definition insertProcess (processId : Z) (processPath : wstring) (pm : ProcessManager)
  : result ProcessManager :=
  processCompletePath ← convertFileObjectPathToDOSPath processPath;
  Ok (with_processMap (<[processId := processCompletePath]> (delete processId (processMap pm))) pm).

(** the types of the process monitor's events *)
Definition EventProcess_Create : Z := 1.
Definition EventProcess_Terminate : Z := 2.
Definition EventThread_Inject : Z := 3.

Definition ProcessManager_onProcessEvent (type processId : Z) (process : wstring) (pm : ProcessManager)
  : result ProcessManager :=
  if type =? EventProcess_Create then
    path ← convertFileObjectPathToDOSPath process;
    insertProcess processId path pm
  else Ok pm.

(** the do loop of getProcessPath: [waited i] is what the other threads make of
    the map during the i-th wait *)
Fixpoint find_process (retryCount i : nat) (waited : nat -> gmap Z wstring -> gmap Z wstring)
    (processId : Z) (pm : ProcessManager) : option wstring * ProcessManager :=
  match retryCount with
  | O => (None, pm)
  | S n =>
    match processMap pm !! processId with
    | Some path => (Some path, count_hit pm)
    | None => find_process n (S i) waited processId (with_processMap (waited i (processMap pm)) pm)
    end
  end.

Definition getProcessPath (waited : nat -> gmap Z wstring -> gmap Z wstring) (processId : Z)
    (pm : ProcessManager) : result (wstring * ProcessManager) :=
  if processId =? 4 then Ok (bs "System", pm)
  else
    match find_process 10 0 waited processId pm with
    | (Some path, pm) => Ok (path, pm)
    | (None, pm) =>
      let pm := count_miss pm in
      let unknown pm := path ← convertFileObjectPathToDOSPath (bs "UNKNOWN"); Ok (path, count_failure pm) in
      if OpenProcess processId then
        match GetProcessImageFileName processId with
        | Some processPath =>
          pm ← insertProcess processId processPath pm;
          path ← convertFileObjectPathToDOSPath processPath;
          Ok (path, pm)
        | None => unknown pm
        end
      else unknown pm
    end.

(** the part of a path after its last backslash *)
Definition module_name (processPath : wstring) : wstring :=
  match str_find_last bsl processPath with
  | Some i => drop (i + 1) processPath
  | None => bs "UNKNOWN"
  end.

Definition getProcessModuleName (waited : nat -> gmap Z wstring -> gmap Z wstring) (processId : Z)
    (pm : ProcessManager) : result (wstring * ProcessManager) :=
  r ← getProcessPath waited processId pm;
  Ok (module_name r.1, r.2).

(** initialiseProcessMap, for the ids EnumProcesses found; when the path of the
    image cannot be had, the buffer that is then used was never written *)
Fixpoint initialiseProcessMap (aProcesses : list Z) (pm : ProcessManager) : result ProcessManager :=
  match aProcesses with
  | [] => Ok pm
  | processId :: ids =>
    pm ← (if processId =? 0 then Ok pm
          else
            processPath ← (if OpenProcess processId && EnumProcessModules processId then
                             match GetProcessImageFileName processId with
                             | Some processPathTemp => Ok processPathTemp
                             | None => Fault UninitRead
                             end
                           else Ok (bs "<unknown>"));
            insertProcess processId processPath pm);
    initialiseProcessMap ids pm
  end.

(** ProcessManager::ProcessManager *)
Definition newProcessManager (aProcesses : list Z) : result ProcessManager :=
  initialiseProcessMap aProcesses (mkProcesses ∅ 0 0 0).
End Paths.

(** ** Paths *)

(** GetLongPathName keeps the drive, and its result is shorter than the buffer *)
Class LongPaths `{Processes} := {
  long_drive : forall d p q, GetLongPathName (d :: 58 :: p) = Some q ->
    head q = Some d /\ Z.of_nat (length q) < 2048;
}.

Section PathLemmas.
Context `{LongPaths}.

Lemma find_first p : str_find [bsl] p = Some 0%nat <-> head p = Some bsl.
Proof.
  destruct p as [|c p]; [done |]. cbn [str_find prefixb head]. rewrite andb_true_r.
  destruct (bsl =? c) eqn:Q; [apply Z.eqb_eq in Q as <-; done |].
  split; [destruct (str_find [bsl] p); cbn; discriminate |]. intros [= ->]. by rewrite Z.eqb_refl in Q.
Qed.

(** a path that does not start with a backslash is left alone *)
Lemma convert_dos p : head p <> Some bsl -> convertFileObjectPathToDOSPath p = Ok p.
Proof.
  intros N. unfold convertFileObjectPathToDOSPath. rewrite bool_decide_eq_false_2; [done |].
  by rewrite find_first.
Qed.

Lemma find_drive_shape ds device :
  Forall (fun d => 65 <= d <= 90) ds -> exists d, find_drive ds device = [d; 58] /\ 63 <= d <= 90.
Proof.
  induction 1 as [|d ds B F IH]; cbn; [by exists 63 |].
  case_match; [| done]. exists d. split; [done | lia].
Qed.

Lemma convertDevice_shape device :
  exists d, convertDevicePathToDOSDrive device = [d; 58] /\ 63 <= d <= 90.
Proof.
  apply find_drive_shape. unfold drives. apply Forall_fmap, list.Forall_forall. intros i Hi%elem_of_seq. cbn. lia.
Qed.

(** what a conversion gives is not converted again *)
Lemma convert_idempotent p q :
  convertFileObjectPathToDOSPath p = Ok q -> convertFileObjectPathToDOSPath q = Ok q.
Proof.
  intros E. destruct (decide (q = p)) as [-> | Nq]; [done |]. apply convert_dos.
  unfold convertFileObjectPathToDOSPath in E. case_bool_decide; [| by injection E as ->].
  destruct (23 <? _)%nat; [| by injection E as ->]. destruct (path_offset p) as [o|]; [| done].
  destruct (str_substr p 0 o) as [dev|]; [| done]. destruct (str_substr_from p o) as [rest|]; [| done].
  cbn [mbind result_bind] in E. destruct (convertDevice_shape dev) as (d & Ed & B).
  rewrite Ed in E. cbn [app c_str] in E.
  rewrite (proj2 (Z.eqb_neq d 0)) in E by lia. cbn [c_str Z.eqb Pos.eqb] in E.
  destruct (GetLongPathName _) as [l|] eqn:G.
  - apply long_drive in G as [Hd _]. destruct (_ <? 2048); [| done]. injection E as <-.
    rewrite Hd. intros [= K]. unfold bsl in K. lia.
  - injection E as <-. cbn. intros [= K]. unfold bsl in K. lia.
Qed.

(** a path \a\b\... of more than 23 characters: its device is \a\b *)
Lemma path_offset_spec a b rest :
  bsl ∉ a -> bsl ∉ b -> path_offset (bsl :: a ++ bsl :: b ++ bsl :: rest) = Some (2 + length a + length b)%nat.
Proof.
  intros Na Nb. unfold path_offset, find_from. cbn [skipn]. rewrite drop_0, (str_find_char bsl a _ Na). cbn [fmap option_fmap option_map].
  replace (drop (1 + length a + 1) (bsl :: a ++ bsl :: b ++ bsl :: rest)) with (b ++ bsl :: rest).
  - rewrite (str_find_char bsl b rest Nb). cbn. f_equal. lia.
  - replace (1 + length a + 1)%nat with (S (length a + 1)) by lia. cbn [skipn].
    by rewrite drop_app_add.
Qed.

(** a kernel path is the drive of its device and the rest, in its long form *)
Lemma convert_kernel a b rest :
  bsl ∉ a -> bsl ∉ b -> (23 < 3 + length a + length b + length rest)%nat ->
  let dos := convertDevicePathToDOSDrive (bsl :: a ++ bsl :: b) ++ bsl :: rest in
  convertFileObjectPathToDOSPath (bsl :: a ++ bsl :: b ++ bsl :: rest) =
  Ok (default dos (GetLongPathName (c_str dos))).
Proof.
  intros Na Nb L dos. unfold convertFileObjectPathToDOSPath.
  rewrite bool_decide_eq_true_2 by done. rewrite (proj2 (Nat.ltb_lt 23 _)) by (cbn; rewrite !length_app; cbn; rewrite !length_app; cbn; lia).
  rewrite path_offset_spec by done.
  assert (Ld : length (bsl :: a ++ bsl :: b) = (2 + length a + length b)%nat) by (cbn; rewrite length_app; cbn; lia).
  replace (bsl :: a ++ bsl :: b ++ bsl :: rest) with ((bsl :: a ++ bsl :: b) ++ bsl :: rest)
    by (cbn; by rewrite <- app_assoc).
  rewrite <- Ld. unfold dos. clear dos L Ld. generalize (bsl :: a ++ bsl :: b) as dev. intros dev.
  set (dos := convertDevicePathToDOSDrive dev ++ bsl :: rest).
  unfold str_substr, str_substr_from. rewrite length_app, (proj2 (Nat.ltb_ge _ 0)) by lia.
  rewrite (proj2 (Nat.ltb_ge _ (length dev))) by lia. cbn [mbind result_bind].
  rewrite drop_0, take_app_length, drop_app_length. fold dos.
  assert (Hd : exists d t, c_str dos = d :: 58 :: t).
  { unfold dos. destruct (convertDevice_shape dev) as (d & -> & B). cbn [app c_str].
    rewrite (proj2 (Z.eqb_neq d 0)) by lia. by eexists _, _. }
  clearbody dos. destruct Hd as (d & t & Hd). rewrite Hd.
  destruct (GetLongPathName (d :: 58 :: t)) as [l|] eqn:G; [| done].
  apply long_drive in G as [_ Ll]. by rewrite (proj2 (Z.ltb_lt _ _) Ll).
Qed.

(** a path of more than 23 characters with exactly two backslashes throws *)
Lemma convert_throws a b :
  bsl ∉ a -> bsl ∉ b -> (23 < 2 + length a + length b)%nat ->
  convertFileObjectPathToDOSPath (bsl :: a ++ bsl :: b) = Fault OutOfRange.
Proof.
  intros Na Nb L. unfold convertFileObjectPathToDOSPath. rewrite bool_decide_eq_true_2 by done.
  rewrite (proj2 (Nat.ltb_lt 23 _)) by (cbn; rewrite length_app; cbn; lia).
  unfold path_offset, find_from. cbn [skipn]. rewrite drop_0, (str_find_char bsl a _ Na). cbn [fmap option_fmap option_map].
  replace (1 + length a + 1)%nat with (S (length a + 1)) by lia. cbn [skipn].
  rewrite drop_app_add. cbn [skipn]. by rewrite drop_0, (str_find_char_None bsl b Nb).
Qed.
End PathLemmas.

(** ** Which program an id belongs to *)

Section Attribution.
Context `{LongPaths}.

(** the process events, one after the other: type, process id and path *)
Fixpoint process_events (evs : list (Z * Z * wstring)) (pm : ProcessManager) : result ProcessManager :=
  match evs with
  | [] => Ok pm
  | (type, pid, path) :: evs' =>
    pm ← ProcessManager_onProcessEvent type pid path pm;
    process_events evs' pm
  end.

(** the path of the last creation of [pid] *)
Definition creation (pid : Z) (ev : Z * Z * wstring) : Prop :=
  ev.1.1 = EventProcess_Create /\ ev.1.2 = pid.

#[global] Instance creation_dec pid ev : Decision (creation pid ev).
Proof. unfold creation. apply _. Defined.

Definition created (pid : Z) (evs : list (Z * Z * wstring)) : option wstring :=
  snd <$> list.last (filter (creation pid) evs).

(** the paths of created processes can be converted *)
Definition convertible (ev : Z * Z * wstring) : Prop :=
  ev.1.1 = EventProcess_Create -> is_ok (convertFileObjectPathToDOSPath ev.2).

(** the DOS path, where there is one *)
Definition dos_path (p : wstring) : wstring :=
  match convertFileObjectPathToDOSPath p with Ok q => q | Fault _ => p end.

Lemma onProcessEvent_spec type pid path pm :
  convertible (type, pid, path) ->
  ProcessManager_onProcessEvent type pid path pm =
  Ok (if type =? EventProcess_Create then with_processMap (<[pid := dos_path path]> (processMap pm)) pm else pm).
Proof.
  unfold convertible, ProcessManager_onProcessEvent, dos_path. cbn. intros C.
  destruct (Z.eqb_spec type EventProcess_Create) as [E|]; [| done]. specialize (C E).
  destruct (convertFileObjectPathToDOSPath path) as [q|] eqn:Q; [| done].
  cbn. unfold insertProcess. rewrite (convert_idempotent _ _ Q). cbn. by rewrite insert_delete_eq.
Qed.

Lemma created_cons pid ev evs :
  created pid (ev :: evs) =
  match created pid evs with
  | Some p => Some p
  | None => if decide (creation pid ev) then Some ev.2 else None
  end.
Proof.
  unfold created. rewrite filter_cons. destruct (decide (creation pid ev)).
  - rewrite last_cons. by destruct (list.last (filter (creation pid) evs)).
  - by destruct (list.last (filter (creation pid) evs)).
Qed.

Lemma process_events_spec evs pm :
  Forall convertible evs ->
  exists pm', process_events evs pm = Ok pm' /\
    (forall pid, processMap pm' !! pid =
      match created pid evs with Some p => Some (dos_path p) | None => processMap pm !! pid end) /\
    cacheHits pm' = cacheHits pm /\ cacheMisses pm' = cacheMisses pm /\ cacheFailures pm' = cacheFailures pm.
Proof.
  intros F. revert pm. induction F as [|[[type pid] path] evs C F IH]; intros pm; cbn; [by exists pm |].
  rewrite onProcessEvent_spec by done. cbn.
  destruct (IH (if type =? EventProcess_Create
                then with_processMap (<[pid := dos_path path]> (processMap pm)) pm else pm))
    as (pm' & -> & M & Hs). exists pm'. split; [done |]. split.
  - intros pid'. rewrite M, created_cons. destruct (created pid' evs); [done |].
    unfold creation. cbn. destruct (Z.eqb_spec type EventProcess_Create) as [->|N].
    + destruct (decide _) as [[_ ->]|D]; cbn; [by rewrite lookup_insert_eq |].
      apply lookup_insert_ne. intros ->. by destruct D.
    + destruct (decide _) as [[? _]|]; done.
  - by destruct (type =? EventProcess_Create).
Qed.

Lemma find_process_waits n i waited pid pm k path :
  (k < n)%nat ->
  (forall m j, (j < i + k)%nat -> waited j m !! pid = None \/ j = (i + k - 1)%nat) ->
  (k = 0%nat -> processMap pm !! pid = Some path) ->
  (k <> 0%nat -> processMap pm !! pid = None /\ forall m, waited (i + k - 1)%nat m !! pid = Some path) ->
  exists pm', find_process n i waited pid pm = (Some path, pm') /\ cacheHits pm' = cacheHits pm + 1.
Proof.
  revert i pm k. induction n as [|n IH]; intros i pm k L W K0 K1; [lia |]. cbn.
  destruct k as [|k]; [rewrite K0 by done; by eexists |].
  destruct (K1 ltac:(done)) as [-> A]. destruct (IH (S i) (with_processMap (waited i (processMap pm)) pm) k)
    as (pm' & E & Hh); [lia | | | | by exists pm'].
  - intros m j Hj. destruct (W m j) as [|]; [lia | by left | right; lia].
  - intros ->. cbn. replace (i + 1 - 1)%nat with i in A by lia. apply A.
  - intros Nk. split; [| intros m; replace (S i + k - 1)%nat with (i + S k - 1)%nat by lia; apply A].
    cbn. destruct (W (processMap pm) i) as [|]; [lia | done | lia].
Qed.
End Attribution.

(** Attribution: after any process events whose paths can be converted, a
    process (but the system process 4) is known under the DOS path of its last
    creation, whether or not it has ended since: the monitors get this path at
    once. When the creation of a process is still on its way, the request waits
    and gets the path if it comes during the first nine waits. *)
Theorem process_attribution `{LongPaths} waited evs pm pid :
  Forall convertible evs -> pid <> 4 ->
  exists pm', process_events evs pm = Ok pm' /\
    (forall path, created pid evs = Some path ->
       getProcessPath waited pid pm' = Ok (dos_path path, count_hit pm')) /\
    (forall k path, created pid evs = None -> processMap pm !! pid = None -> (k < 9)%nat ->
       (forall m j, (j < k)%nat -> waited j m !! pid = None) -> (forall m, waited k m !! pid = Some path) ->
       exists pm'', getProcessPath waited pid pm' = Ok (path, pm'') /\ cacheHits pm'' = cacheHits pm + 1).
Proof.
  intros F N. destruct (process_events_spec evs pm F) as (pm' & E & M & Hh & _). exists pm'. split; [done |].
  unfold getProcessPath. rewrite (proj2 (Z.eqb_neq pid 4) N). split.
  - intros path C. cbn [find_process]. by rewrite M, C.
  - intros k path C A Lk W Wk.
    destruct (find_process_waits 10 0 waited pid pm' (S k) path) as (pm'' & E' & Hh').
    + lia.
    + intros m j Hj. destruct (decide (j = k)) as [->|]; [right; lia | left; apply W; lia].
    + done.
    + intros _. rewrite M, C. split; [done |]. intros m. replace (0 + S k - 1)%nat with k by lia. apply Wk.
    + rewrite E'. exists pm''. split; [done | congruence].
Qed.

(** ** A system to run *)

(** drive C: is the first volume; paths are long already *)
#[local] Instance Machine : Processes := {|
  QueryDosDevice d := if bytes_eqb d (bs "C:") then Some (bs "\Device\HarddiskVolume1") else None;
  GetLongPathName p := if Z.of_nat (length p) <? 2048 then Some p else None;
  OpenProcess pid := pid =? 8;
  GetProcessImageFileName pid := Some (bs "\Device\HarddiskVolume1\WINDOWS\b.exe");
  EnumProcessModules pid := true;
|}.

#[local] Instance Machine_long : LongPaths.
Proof.
  split. intros d p q. cbn [GetLongPathName Machine]. destruct (Z.ltb_spec (Z.of_nat (length (d :: 58 :: p))) 2048); [| done].
  by intros [= <-].
Qed.

Definition sample_process_events : list (Z * Z * wstring) :=
  [(1, 100, bs "\Device\HarddiskVolume1\WINDOWS\a.exe"); (2, 100, bs "\Device\HarddiskVolume1\WINDOWS\a.exe")].

Lemma process_attribution_witness :
  exists pm', process_events sample_process_events (mkProcesses ∅ 0 0 0) = Ok pm' /\
    getProcessPath (fun _ m => m) 100 pm' = Ok (bs "C:\WINDOWS\a.exe", count_hit pm').
Proof.
  destruct (process_attribution (H := Machine) (fun _ m => m) sample_process_events (mkProcesses ∅ 0 0 0) 100)
    as (pm' & E & A & _).
  - repeat constructor; vm_compute; done.
  - lia.
  - exists pm'. split; [exact E |]. exact (A (bs "\Device\HarddiskVolume1\WINDOWS\a.exe") eq_refl).
Defined.

(** a process that was not seen being created is looked up *)
Example image_looked_up :
  getProcessPath (fun _ m => m) 8 (mkProcesses ∅ 0 0 0) =
  Ok (bs "C:\WINDOWS\b.exe", mkProcesses {[8 := bs "C:\WINDOWS\b.exe"]} 0 1 0).
Proof. vm_compute. reflexivity. Qed.

(** the path of a volume throws *)
Example volume_path_throws :
  convertFileObjectPathToDOSPath (bs "\Device\HarddiskVolume12") = Fault OutOfRange.
Proof. vm_compute. reflexivity. Qed.
