(* ===== verification/DriverEvents.v ===== *)
(** * Buffers of events between the kernel drivers and the monitors

    The registry and the file driver queue their events and copy as many whole
    events as fit into the buffer of a request (HandleIoctlGetRegEvents,
    MessageCallback); the monitors walk the buffer by the lengths the events
    hold (RegistryMonitor::run, FileMonitor::run). Both formats are instances of
    one class. *)
From Stdlib Require Import ZArith Lia.
From stdpp Require Import base gmap list strings numbers.
From S2P Require Import Prelude PacketDef Element.

Local Open Scope Z_scope.

(** ** Memory: little-endian numbers and wide strings *)

Definition le16 (x : Z) : bytes := [x mod 256; x / 256 mod 256].
Definition le32 (x : Z) : bytes :=
  [x mod 256; x / 256 mod 256; x / 65536 mod 256; x / 16777216 mod 256].

Definition read_le16 (m : bytes) (off : nat) : result Z :=
  lo ← read8 m off; hi ← read8 m (off + 1); Ok (lo + 256 * hi).

(** the [WCHAR]s of some bytes *)
Fixpoint words (b : bytes) : list Z :=
  match b with
  | lo :: hi :: b' => (lo + 256 * hi) :: words b'
  | _ => []
  end.

Definition wide (s : wstring) : bytes := s ≫= le16.

(** [std::wstring((wchar_t* )p)]: reads up to the terminator *)
Definition wide_at (m : bytes) (off : nat) : result wstring :=
  let w := words (drop off m) in
  if bool_decide (0 ∈ w) then Ok (c_str w) else Fault OutOfBoundsRead.

(** ** Time *)

Record TIME_FIELDS := mkTimeFields {
  tYear : Z; tMonth : Z; tDay : Z; tHour : Z; tMinute : Z; tSecond : Z; tMilliseconds : Z; tWeekday : Z
}.

Definition timefieldToString (t : TIME_FIELDS) : wstring :=
  print_dec (tDay t) ++ bs "/" ++ print_dec (tMonth t) ++ bs "/" ++ print_dec (tYear t) ++ bs " " ++
  print_dec (tHour t) ++ bs ":" ++ print_dec (tMinute t) ++ bs ":" ++ print_dec (tSecond t) ++ bs "." ++
  print_dec (tMilliseconds t).

Definition time_bytes (t : TIME_FIELDS) : bytes :=
  le16 (tYear t) ++ le16 (tMonth t) ++ le16 (tDay t) ++ le16 (tHour t) ++ le16 (tMinute t) ++
  le16 (tSecond t) ++ le16 (tMilliseconds t) ++ le16 (tWeekday t).

Definition read_time (m : bytes) (off : nat) : result TIME_FIELDS :=
  y ← read_le16 m off; mo ← read_le16 m (off + 2); d ← read_le16 m (off + 4); h ← read_le16 m (off + 6);
  mi ← read_le16 m (off + 8); s ← read_le16 m (off + 10); ms ← read_le16 m (off + 12);
  wd ← read_le16 m (off + 14); Ok (mkTimeFields y mo d h mi s ms wd).

(** ** Events *)

Record REGISTRY_EVENT := mkRegistryEvent {
  r_eventType : Z; r_time : TIME_FIELDS; r_processId : Z; r_dataType : Z; r_path : wstring; r_data : bytes
}.

(** the event in the driver's pool; the path is followed by a terminator *)
Definition registry_bytes (e : REGISTRY_EVENT) : bytes :=
  le32 (r_eventType e) ++ time_bytes (r_time e) ++ le32 (r_processId e) ++ le32 (r_dataType e) ++
  le32 (Z.of_nat (length (r_data e))) ++ le32 (2 * Z.of_nat (length (r_path e)) + 2) ++
  wide (r_path e) ++ [0; 0] ++ r_data e.

(** the fields the monitor reads, the path and the data it copies, and how far
    it goes on *)
Definition read_registry_event (m : bytes) (off : nat) : result (REGISTRY_EVENT * nat) :=
  eventType ← read_le32 m off;
  time ← read_time m (off + 4);
  processId ← read_le32 m (off + 20);
  dataType ← read_le32 m (off + 24);
  dataLengthB ← read_le32 m (off + 28);
  registryPathLengthB ← read_le32 m (off + 32);
  szRegistryPath ← read_slice m (off + 36) (Z.to_nat registryPathLengthB);
  path ← wide_at szRegistryPath 0;
  data ← read_slice m (off + 36 + Z.to_nat registryPathLengthB) (Z.to_nat dataLengthB);
  Ok (mkRegistryEvent eventType time processId dataType path data,
      (36 + Z.to_nat registryPathLengthB + Z.to_nat dataLengthB)%nat).

Record FILE_EVENT := mkFileEvent {
  f_major : Z; f_minor : Z; f_status : Z; f_information : Z; f_flags : Z; f_time : TIME_FIELDS;
  f_processId : Z; f_path : wstring
}.

Definition file_bytes (e : FILE_EVENT) : bytes :=
  [f_major e; f_minor e; 0; 0] ++ le32 (f_status e) ++ le32 (f_information e) ++ le32 (f_flags e) ++
  time_bytes (f_time e) ++ le32 (f_processId e) ++ le32 (2 * Z.of_nat (length (f_path e)) + 2) ++
  wide (f_path e) ++ [0; 0].

Definition read_file_event (m : bytes) (off : nat) : result (FILE_EVENT * nat) :=
  major ← read8 m off;
  minor ← read8 m (off + 1);
  status ← read_le32 m (off + 4);
  information ← read_le32 m (off + 8);
  flags ← read_le32 m (off + 12);
  time ← read_time m (off + 16);
  processId ← read_le32 m (off + 32);
  filePathLength ← read_le32 m (off + 36);
  path ← wide_at m (off + 40);
  Ok (mkFileEvent major minor status information flags time processId path,
      (40 + Z.to_nat filePathLength)%nat).

(** ** The interface of driver and monitor *)

Class DriverRecord (E : Type) := {
  sizeof : nat;                            (* of the fixed part *)
  pooled : E -> bytes;                     (* the event in the driver's pool *)
  read_event : bytes -> nat -> result (E * nat);
}.

#[global] Instance RegistryRecord : DriverRecord REGISTRY_EVENT := {|
  sizeof := 36; pooled := registry_bytes; read_event := read_registry_event
|}.

#[global] Instance FileRecord : DriverRecord FILE_EVENT := {|
  sizeof := 40; pooled := file_bytes; read_event := read_file_event
|}.

Section Driver.
Context {E : Type} `{DriverRecord E}.

(** the loop of the driver: the queue that is left and the bytes it wrote *)
Fixpoint fill (bufferSpace : nat) (queue : list E) (out : bytes) : list E * bytes :=
  match queue with
  | [] => ([], out)
  | e :: queue' =>
    if (length out <? bufferSpace)%nat && (sizeof <=? bufferSpace - length out)%nat then
      if (length (pooled e) <=? bufferSpace - length out)%nat
      then fill bufferSpace queue' (out ++ pooled e)
      else (queue, out)
    else (queue, out)
  end.

(** the do loop of the monitor; [body] is what it does with an event *)
Fixpoint walk {S} (fuel : nat) (buffer : bytes) (offset dwReturn : nat) (body : E -> S -> result S) (s : S)
  : result S :=
  match fuel with
  | O => Fault OutOfFuel
  | S fuel' =>
    r ← read_event buffer offset;
    s ← body r.1 s;
    if (offset + r.2 <? dwReturn)%nat then walk fuel' buffer (offset + r.2) dwReturn body s else Ok s
  end.

(** one turn of the monitor: the zeroed buffer, the request, the walk *)
Definition poll {S} (bufferSpace : nat) (queue : list E) (body : E -> S -> result S) (s : S)
  : result (list E * S) :=
  let '(queue, out) := fill bufferSpace queue [] in
  s ← (if (sizeof <=? length out)%nat
       then walk (length out) (out ++ replicate (bufferSpace - length out) 0) 0 (length out) body s
       else Ok s);
  Ok (queue, s).

Fixpoint polls {S} (n bufferSpace : nat) (queue : list E) (body : E -> S -> result S) (s : S)
  : result (list E * S) :=
  match n with
  | O => Ok (queue, s)
  | S n' => r ← poll bufferSpace queue body s; polls n' bufferSpace r.1 body r.2
  end.

(** the events handled one after the other *)
Fixpoint handle_events {S} (body : E -> S -> result S) (l : list E) (s : S) : result S :=
  match l with
  | [] => Ok s
  | e :: l' => s ← body e s; handle_events body l' s
  end.
End Driver.

(** what the two sides promise each other: the monitor reads back an event
    wherever it lies, and steps over exactly its bytes *)
Class DriverLaws (E : Type) `{DriverRecord E} (event_ok : E -> Prop) := {
  sizeof_pos : (0 < sizeof)%nat;
  pooled_size : forall e, event_ok e -> (sizeof <= length (pooled e))%nat;
  read_pooled : forall pre e post, event_ok e ->
    read_event (pre ++ pooled e ++ post) (length pre) = Ok (e, length (pooled e));
}.

(** ** Delivery *)

Section Delivery.
Context {E : Type} `{DriverLaws E event_ok}.

Lemma fill_spec bufferSpace queue : forall out,
  Forall event_ok queue -> (length out <= bufferSpace)%nat ->
  exists taken rest, queue = taken ++ rest /\
    fill bufferSpace queue out = (rest, out ++ concat (pooled <$> taken)) /\
    (length (out ++ concat (pooled <$> taken)) <= bufferSpace)%nat /\
    (forall e, head queue = Some e -> (length (pooled e) <= bufferSpace - length out)%nat -> taken <> []).
Proof.
  induction queue as [|e queue IH]; intros out F L; cbn [fill].
  - exists [], []. cbn. by rewrite app_nil_r.
  - apply list.Forall_cons in F as [Fe F]. pose proof (pooled_size e Fe) as Ps. pose proof sizeof_pos.
    destruct (Nat.leb_spec (length (pooled e)) (bufferSpace - length out)) as [Le|Gt].
    + rewrite (proj2 (Nat.ltb_lt _ _)), (proj2 (Nat.leb_le sizeof _)) by lia. cbn [andb].
      destruct (IH (out ++ pooled e) F) as (taken & rest & -> & -> & Lo & _); [rewrite length_app; lia |].
      exists (e :: taken), rest. cbn [fmap list_fmap concat app]. by rewrite app_assoc.
    + exists [], (e :: queue). cbn. rewrite app_nil_r.
      split_and!; [done | by destruct (_ && _) | done |]. intros ? [= <-]. lia.
Qed.

Lemma walk_spec {S} (body : E -> S -> result S) taken : forall fuel pre post s,
  Forall event_ok taken -> taken <> [] -> (length taken <= fuel)%nat ->
  walk fuel (pre ++ concat (pooled <$> taken) ++ post) (length pre)
    (length pre + length (concat (pooled <$> taken))) body s = handle_events body taken s.
Proof.
  induction taken as [|e taken IH]; intros fuel pre post s F N L; [done |].
  destruct fuel as [|fuel]; [cbn in L; lia |]. apply list.Forall_cons in F as [Fe F].
  cbn [walk fmap list_fmap concat]. rewrite <- app_assoc, read_pooled by done. cbn [mbind result_bind fst snd handle_events].
  destruct (body e s) as [s'|]; [| done]. cbn [mbind result_bind]. rewrite length_app.
  destruct taken as [|e' taken]; [cbn [fmap list_fmap concat length]; rewrite (proj2 (Nat.ltb_ge _ _)) by lia; done |].
  assert (Lp : (0 < length (concat (pooled <$> e' :: taken)))%nat).
  { cbn. rewrite length_app. apply list.Forall_cons in F as [Fe' _].
    pose proof (pooled_size e' Fe'). pose proof sizeof_pos. lia. }
  rewrite (proj2 (Nat.ltb_lt _ _)) by lia. rewrite app_assoc.
  replace (length pre + length (pooled e))%nat with (length (pre ++ pooled e)) by apply length_app.
  rewrite Nat.add_assoc, <- length_app. apply IH; [done | done | cbn in L |- *; lia].
Qed.

Lemma concat_pooled_length taken :
  Forall event_ok taken -> (length taken * sizeof <= length (concat (pooled <$> taken)))%nat.
Proof.
  induction 1 as [|e taken Fe F IH]; cbn; [lia |]. rewrite length_app. pose proof (pooled_size e Fe). lia.
Qed.

(** one request hands over a prefix of the queue, and something of it when its
    first event fits into the buffer *)
Lemma poll_spec {S} bufferSpace queue (body : E -> S -> result S) s :
  Forall event_ok queue ->
  exists taken rest, queue = taken ++ rest /\
    poll bufferSpace queue body s = (s' ← handle_events body taken s; Ok (rest, s')) /\
    (forall e, head queue = Some e -> (length (pooled e) <= bufferSpace)%nat -> taken <> []) /\
    (forall e, head queue = Some e -> (bufferSpace < length (pooled e))%nat -> taken = []).
Proof.
  intros F. destruct (fill_spec bufferSpace queue [] F) as (taken & rest & Q & Ef & L & Hd); [cbn; lia |].
  exists taken, rest. split; [done |]. unfold poll. rewrite Ef. cbn [app] in *.
  assert (Ft : Forall event_ok taken) by (subst queue; by apply Forall_app in F as [F _]).
  pose proof (concat_pooled_length taken Ft) as Lc. pose proof sizeof_pos as Sp. split_and!.
  - destruct taken as [|e taken].
    + cbn [fmap list_fmap concat length]. rewrite (proj2 (Nat.leb_gt _ _)) by lia. done.
    + rewrite (proj2 (Nat.leb_le _ _)) by (cbn in Lc |- *; lia).
      pose proof (walk_spec body (e :: taken) (length (concat (pooled <$> e :: taken))) []
        (replicate (bufferSpace - length (concat (pooled <$> e :: taken))) 0) s Ft) as W.
      cbn [app length Nat.add] in W. rewrite W; [done | done |]. cbn [length] in Lc |- *. nia.
  - intros e He Le. apply (Hd e He). rewrite Nat.sub_0_r. done.
  - intros e He Lt. destruct taken as [|e' taken]; [done |]. subst queue. injection He as ->.
    cbn in L. rewrite length_app in L. lia.
Qed.

Lemma handle_events_app {S} (body : E -> S -> result S) a b s :
  handle_events body (a ++ b) s = (s' ← handle_events body a s; handle_events body b s').
Proof.
  revert s. induction a as [|e a IH]; intros s; cbn; [done |]. destruct (body e s); cbn; [apply IH | done].
Qed.

(** nothing is lost, duplicated or reordered *)
Lemma polls_spec {S} n bufferSpace queue (body : E -> S -> result S) s :
  Forall event_ok queue -> Forall (fun e => (length (pooled e) <= bufferSpace)%nat) queue ->
  (length queue <= n)%nat ->
  polls n bufferSpace queue body s = (s' ← handle_events body queue s; Ok ([], s')).
Proof.
  revert queue s. induction n as [|n IH]; intros queue s F B L; cbn [polls].
  - destruct queue; [done | cbn in L; lia].
  - destruct (poll_spec bufferSpace queue body s F) as (taken & rest & -> & -> & Hd & _).
    rewrite handle_events_app. destruct (handle_events body taken s) as [s'|]; [| done].
    cbn [mbind result_bind fst snd]. apply Forall_app in F as [Ft Fr], B as [Bt Br].
    apply IH; [done | done |]. rewrite length_app in L. destruct taken as [|e taken].
    + destruct rest as [|e rest]; [cbn; lia |]. apply list.Forall_cons in Br as [Be _].
      by destruct (Hd e eq_refl Be).
    + cbn in L. lia.
Qed.

Lemma polls_stuck {S} n bufferSpace e queue (body : E -> S -> result S) s :
  Forall event_ok (e :: queue) -> (bufferSpace < length (pooled e))%nat ->
  polls n bufferSpace (e :: queue) body s = Ok (e :: queue, s).
Proof.
  intros F L. induction n as [|n IH]; cbn [polls]; [done |].
  destruct (poll_spec bufferSpace (e :: queue) body s F) as (taken & rest & Q & -> & _ & Hs).
  rewrite (Hs e eq_refl L) in *. cbn in Q. subst rest. cbn. exact IH.
Qed.
End Delivery.

(** ** The two formats *)

Definition u16_ok (x : Z) : Prop := 0 <= x < 65536.
Definition u32_ok (x : Z) : Prop := 0 <= x < 4294967296.
Definition char_ok (c : Z) : Prop := 0 < c < 65536.

Definition time_ok (t : TIME_FIELDS) : Prop :=
  Forall u16_ok [tYear t; tMonth t; tDay t; tHour t; tMinute t; tSecond t; tMilliseconds t; tWeekday t].

(** strings without NUL, numbers within their fields *)
Definition registry_ok (e : REGISTRY_EVENT) : Prop :=
  Forall u32_ok [r_eventType e; r_processId e; r_dataType e; Z.of_nat (length (r_data e));
                 2 * Z.of_nat (length (r_path e)) + 2] /\ time_ok (r_time e) /\ Forall char_ok (r_path e).

Definition file_ok (e : FILE_EVENT) : Prop :=
  Forall u32_ok [f_status e; f_information e; f_flags e; f_processId e; 2 * Z.of_nat (length (f_path e)) + 2] /\
  time_ok (f_time e) /\ Forall char_ok (f_path e).

Section Formats.

Lemma read8_front pre front x rest :
  read8 (pre ++ front ++ x :: rest) (length pre + length front) = Ok x.
Proof. rewrite read8_app. unfold read8. by rewrite list_lookup_middle. Qed.

Lemma read8_front_at k pre front x rest :
  length front = k -> read8 (pre ++ front ++ x :: rest) (length pre + k) = Ok x.
Proof. intros <-. apply read8_front. Qed.

Lemma le32_value x : u32_ok x ->
  x mod 256 + 256 * (x / 256 mod 256) + 65536 * (x / 65536 mod 256) + 16777216 * (x / 16777216 mod 256) = x.
Proof. unfold u32_ok. intros. Z.div_mod_to_equations. lia. Qed.

Lemma field32 pre front x rest :
  u32_ok x -> read_le32 (pre ++ front ++ le32 x ++ rest) (length pre + length front) = Ok x.
Proof.
  intros B. unfold read_le32, le32. cbn [app]. rewrite read8_front. cbn [mbind result_bind].
  set (a := x mod 256). set (b := x / 256 mod 256). set (c := x / 65536 mod 256). set (d := x / 16777216 mod 256).
  assert (E : forall k tl y rest', (k = length tl)%nat -> front ++ a :: b :: c :: d :: rest = (front ++ tl) ++ y :: rest' ->
    read8 (pre ++ front ++ a :: b :: c :: d :: rest) (length pre + length front + k) = Ok y).
  { intros k tl y rest' -> ->. rewrite <- Nat.add_assoc. apply read8_front_at. by rewrite length_app. }
  rewrite (E 1%nat [a] b (c :: d :: rest)) by (done || by rewrite <- app_assoc). cbn [mbind result_bind].
  rewrite (E 2%nat [a; b] c (d :: rest)) by (done || by rewrite <- app_assoc). cbn [mbind result_bind].
  rewrite (E 3%nat [a; b; c] d rest) by (done || by rewrite <- app_assoc). cbn [mbind result_bind].
  f_equal. exact (le32_value x B).
Qed.

Lemma field16 pre front x rest :
  u16_ok x -> read_le16 (pre ++ front ++ le16 x ++ rest) (length pre + length front) = Ok x.
Proof.
  intros B. unfold read_le16, le16. cbn [app]. rewrite read8_front. cbn [mbind result_bind].
  rewrite <- Nat.add_assoc. replace (front ++ x mod 256 :: x / 256 mod 256 :: rest)
    with ((front ++ [x mod 256]) ++ x / 256 mod 256 :: rest) by (by rewrite <- app_assoc).
  rewrite read8_front_at by (rewrite length_app; done). cbn [mbind result_bind]. f_equal.
  unfold u16_ok in B. Z.div_mod_to_equations. lia.
Qed.

Lemma time_read pre front t rest :
  time_ok t -> read_time (pre ++ front ++ time_bytes t ++ rest) (length pre + length front) = Ok t.
Proof.
  unfold time_ok. intros T. rewrite !list.Forall_cons in T. destruct T as (T1 & T2 & T3 & T4 & T5 & T6 & T7 & T8 & _).
  unfold read_time.
  assert (E : forall k tl x rest', k = length tl -> u16_ok x -> time_bytes t ++ rest = tl ++ le16 x ++ rest' ->
    read_le16 (pre ++ front ++ time_bytes t ++ rest) (length pre + length front + k) = Ok x).
  { intros k tl x rest' -> B ->. rewrite (app_assoc front), <- Nat.add_assoc, <- length_app. by apply field16. }
  rewrite <- (Nat.add_0_r (length pre + length front)) at 1.
  rewrite (E 0%nat [] (tYear t) _ eq_refl T1 eq_refl). cbn [mbind result_bind].
  rewrite (E 2%nat (le16 (tYear t)) (tMonth t) _ eq_refl T2 eq_refl). cbn [mbind result_bind].
  rewrite (E 4%nat (le16 (tYear t) ++ le16 (tMonth t)) (tDay t) _ eq_refl T3 eq_refl). cbn [mbind result_bind].
  rewrite (E 6%nat (le16 (tYear t) ++ le16 (tMonth t) ++ le16 (tDay t)) (tHour t) _ eq_refl T4 eq_refl).
  cbn [mbind result_bind].
  rewrite (E 8%nat (le16 (tYear t) ++ le16 (tMonth t) ++ le16 (tDay t) ++ le16 (tHour t)) (tMinute t) _ eq_refl T5 eq_refl).
  cbn [mbind result_bind].
  rewrite (E 10%nat (le16 (tYear t) ++ le16 (tMonth t) ++ le16 (tDay t) ++ le16 (tHour t) ++ le16 (tMinute t))
    (tSecond t) _ eq_refl T6 eq_refl). cbn [mbind result_bind].
  rewrite (E 12%nat (le16 (tYear t) ++ le16 (tMonth t) ++ le16 (tDay t) ++ le16 (tHour t) ++ le16 (tMinute t) ++
    le16 (tSecond t)) (tMilliseconds t) _ eq_refl T7 eq_refl). cbn [mbind result_bind].
  rewrite (E 14%nat (le16 (tYear t) ++ le16 (tMonth t) ++ le16 (tDay t) ++ le16 (tHour t) ++ le16 (tMinute t) ++
    le16 (tSecond t) ++ le16 (tMilliseconds t)) (tWeekday t) _ eq_refl T8 eq_refl). cbn [mbind result_bind].
  by destruct t.
Qed.

Lemma words_wide s rest : Forall char_ok s -> words (wide s ++ 0 :: 0 :: rest) = s ++ 0 :: words rest.
Proof.
  induction 1 as [|c s B F IH]; [done |]. unfold wide in *. cbn [mbind list_bind le16 app words]. rewrite IH.
  cbn. f_equal. unfold char_ok in B. Z.div_mod_to_equations. lia.
Qed.

Lemma c_str_nul s rest : Forall char_ok s -> c_str (s ++ 0 :: rest) = s.
Proof.
  induction 1 as [|c s B F IH]; cbn; [done |]. unfold char_ok in B.
  rewrite (proj2 (Z.eqb_neq c 0)) by lia. by rewrite IH.
Qed.

Lemma wide_at_front pre s rest :
  Forall char_ok s -> wide_at (pre ++ wide s ++ 0 :: 0 :: rest) (length pre) = Ok s.
Proof.
  intros F. unfold wide_at. rewrite drop_app_length, words_wide by done.
  rewrite bool_decide_eq_true_2 by set_solver. by rewrite c_str_nul.
Qed.

Lemma wide_length s : length (wide s) = (2 * length s)%nat.
Proof. induction s as [|c s IH]; [done |]. unfold wide in *. cbn [mbind list_bind le16 app length]. lia. Qed.

Lemma slice_front pre front d rest :
  read_slice (pre ++ front ++ d ++ rest) (length pre + length front) (length d) = Ok d.
Proof.
  unfold read_slice. rewrite !length_app, (proj2 (Nat.ltb_ge _ _)) by lia.
  by rewrite app_assoc, <- length_app, drop_app_length, take_app_length.
Qed.

Lemma registry_split e post :
  registry_bytes e ++ post =
  le32 (r_eventType e) ++ time_bytes (r_time e) ++ le32 (r_processId e) ++ le32 (r_dataType e) ++
  le32 (Z.of_nat (length (r_data e))) ++ le32 (2 * Z.of_nat (length (r_path e)) + 2) ++
  (wide (r_path e) ++ [0; 0]) ++ r_data e ++ post.
Proof. unfold registry_bytes. by rewrite <- !app_assoc. Qed.

Lemma registry_read pre e post :
  registry_ok e ->
  read_registry_event (pre ++ registry_bytes e ++ post) (length pre) = Ok (e, length (registry_bytes e)).
Proof.
  intros (U & T & P). rewrite !list.Forall_cons in U. destruct U as (U1 & U2 & U3 & U4 & U5 & _).
  assert (Le : length (registry_bytes e) = (36 + (2 * length (r_path e) + 2) + length (r_data e))%nat).
  { rewrite <- (app_nil_r (registry_bytes e)), registry_split, !length_app, wide_length. cbn. lia. }
  rewrite Le, registry_split. destruct e as [et t pid dt path data]. cbn [r_eventType r_time r_processId r_dataType r_path r_data] in *.
  set (dl := Z.of_nat (length data)) in *. set (pl := 2 * Z.of_nat (length path) + 2) in *.
  set (hd := le32 et ++ time_bytes t ++ le32 pid ++ le32 dt ++ le32 dl ++ le32 pl).
  match goal with |- context [pre ++ ?x] => set (m := x) end.
  assert (E : forall front x rest k, k = length front -> u32_ok x -> m = front ++ le32 x ++ rest ->
    read_le32 (pre ++ m) (length pre + k) = Ok x).
  { intros front x rest k -> B ->. by apply field32. }
  unfold read_registry_event. rewrite <- (Nat.add_0_r (length pre)) at 1.
  rewrite (E [] et _ 0%nat eq_refl U1 eq_refl). cbn [mbind result_bind].
  assert (Et : read_time (pre ++ m) (length pre + 4) = Ok t) by exact (time_read pre (le32 et) t _ T).
  rewrite Et. cbn [mbind result_bind].
  rewrite (E (le32 et ++ time_bytes t) pid _ 20%nat eq_refl U2 eq_refl). cbn [mbind result_bind].
  rewrite (E (le32 et ++ time_bytes t ++ le32 pid) dt _ 24%nat eq_refl U3 eq_refl). cbn [mbind result_bind].
  rewrite (E (le32 et ++ time_bytes t ++ le32 pid ++ le32 dt) dl _ 28%nat eq_refl U4 eq_refl). cbn [mbind result_bind].
  rewrite (E (le32 et ++ time_bytes t ++ le32 pid ++ le32 dt ++ le32 dl) pl _ 32%nat eq_refl U5 eq_refl).
  cbn [mbind result_bind].
  assert (Lw : Z.to_nat pl = length (wide path ++ [0; 0])).
  { unfold pl. rewrite length_app, wide_length. cbn. lia. }
  assert (Ew : read_slice (pre ++ m) (length pre + 36) (Z.to_nat pl) = Ok (wide path ++ [0; 0])).
  { rewrite Lw. exact (slice_front pre hd (wide path ++ [0; 0]) (data ++ post)). }
  rewrite Ew. cbn [mbind result_bind].
  assert (Ep : wide_at (wide path ++ [0; 0]) 0 = Ok path) by exact (wide_at_front [] path [] P).
  rewrite Ep. cbn [mbind result_bind].
  assert (Ed : read_slice (pre ++ m) (length pre + 36 + Z.to_nat pl) (Z.to_nat dl) = Ok data).
  { unfold dl at 1. rewrite Nat2Z.id, Lw. change m with (hd ++ (wide path ++ [0; 0]) ++ data ++ post).
    rewrite (app_assoc hd), <- Nat.add_assoc. change 36%nat with (length hd). rewrite <- length_app. apply slice_front. }
  rewrite Ed. cbn [mbind result_bind]. do 2 f_equal. unfold dl, pl. lia.
Qed.

Lemma file_split e post :
  file_bytes e ++ post =
  [f_major e; f_minor e; 0; 0] ++ le32 (f_status e) ++ le32 (f_information e) ++ le32 (f_flags e) ++
  time_bytes (f_time e) ++ le32 (f_processId e) ++ le32 (2 * Z.of_nat (length (f_path e)) + 2) ++
  wide (f_path e) ++ 0 :: 0 :: post.
Proof. unfold file_bytes. by rewrite <- !app_assoc. Qed.

Lemma file_read pre e post :
  file_ok e -> read_file_event (pre ++ file_bytes e ++ post) (length pre) = Ok (e, length (file_bytes e)).
Proof.
  intros (U & T & P). rewrite !list.Forall_cons in U. destruct U as (U1 & U2 & U3 & U4 & U5 & _).
  assert (Le : length (file_bytes e) = (40 + (2 * length (f_path e) + 2))%nat).
  { rewrite <- (app_nil_r (file_bytes e)), file_split, !length_app, wide_length. cbn. lia. }
  rewrite Le, file_split. destruct e as [ma mi st inf fl t pid path].
  cbn [f_major f_minor f_status f_information f_flags f_time f_processId f_path] in *.
  set (n := 2 * Z.of_nat (length path) + 2) in *.
  match goal with |- context [pre ++ ?x] => set (m := x) end.
  assert (E : forall front x rest k, k = length front -> u32_ok x -> m = front ++ le32 x ++ rest ->
    read_le32 (pre ++ m) (length pre + k) = Ok x).
  { intros front x rest k -> B ->. by apply field32. }
  unfold read_file_event. rewrite <- (Nat.add_0_r (length pre)) at 1.
  assert (E0 : read8 (pre ++ m) (length pre + 0) = Ok ma) by exact (read8_front pre [] ma _).
  rewrite E0. cbn [mbind result_bind].
  assert (E1 : read8 (pre ++ m) (length pre + 1) = Ok mi) by exact (read8_front pre [ma] mi _).
  rewrite E1. cbn [mbind result_bind].
  rewrite (E [ma; mi; 0; 0] st _ 4%nat eq_refl U1 eq_refl). cbn [mbind result_bind].
  rewrite (E ([ma; mi; 0; 0] ++ le32 st) inf _ 8%nat eq_refl U2 eq_refl). cbn [mbind result_bind].
  rewrite (E ([ma; mi; 0; 0] ++ le32 st ++ le32 inf) fl _ 12%nat eq_refl U3 eq_refl). cbn [mbind result_bind].
  assert (Et : read_time (pre ++ m) (length pre + 16) = Ok t)
    by exact (time_read pre ([ma; mi; 0; 0] ++ le32 st ++ le32 inf ++ le32 fl) t _ T).
  rewrite Et. cbn [mbind result_bind].
  set (hd := [ma; mi; 0; 0] ++ le32 st ++ le32 inf ++ le32 fl ++ time_bytes t).
  rewrite (E hd pid _ 32%nat eq_refl U4 eq_refl). cbn [mbind result_bind].
  rewrite (E (hd ++ le32 pid) n _ 36%nat eq_refl U5 eq_refl). cbn [mbind result_bind].
  assert (Ew : wide_at (pre ++ m) (length pre + 40) = Ok path).
  { pose proof (wide_at_front (pre ++ hd ++ le32 pid ++ le32 n) path post P) as Ew.
    rewrite length_app, <- app_assoc in Ew. exact Ew. }
  rewrite Ew. cbn [mbind result_bind]. do 2 f_equal. unfold n. lia.
Qed.
End Formats.

#[global] Instance RegistryLaws : DriverLaws REGISTRY_EVENT registry_ok.
Proof.
  split; [cbn; lia | | exact registry_read].
  intros e _. cbn [pooled sizeof RegistryRecord]. rewrite <- (app_nil_r (registry_bytes e)), registry_split, !length_app. cbn. lia.
Qed.

#[global] Instance FileLaws : DriverLaws FILE_EVENT file_ok.
Proof.
  split; [cbn; lia | | exact file_read].
  intros e _. cbn [pooled sizeof FileRecord]. rewrite <- (app_nil_r (file_bytes e)), file_split, !length_app. cbn. lia.
Qed.

(** From the driver to the monitor: when every queued event fits into the
    buffer, as many requests as there are events hand every event to the
    monitor exactly once, in order and with all its fields, however the driver
    splits them over the requests. An event that is larger than the buffer
    blocks the queue: no number of requests delivers it or one behind it. *)
Theorem driver_delivery {E} `{DriverLaws E event_ok} {S} n bufferSpace queue (body : E -> S -> result S) s :
  Forall event_ok queue ->
  (Forall (fun e => (length (pooled e) <= bufferSpace)%nat) queue -> (length queue <= n)%nat ->
     polls n bufferSpace queue body s = (s' ← handle_events body queue s; Ok ([], s'))) /\
  (forall e, head queue = Some e -> (bufferSpace < length (pooled e))%nat ->
     polls n bufferSpace queue body s = Ok (queue, s)).
Proof.
  intros F. split; [by apply polls_spec |]. intros e He L. destruct queue as [|e' queue]; [done |].
  injection He as ->. by apply polls_stuck.
Qed.

Definition sample_time : TIME_FIELDS := mkTimeFields 2010 2 1 3 4 5 6 1.

Definition sample_file_events : list FILE_EVENT :=
  [mkFileEvent 4 0 0 0 0 sample_time 100 (bs "\a"); mkFileEvent 0 0 0 2 0 sample_time 8 (bs "\bc")].

(** the file events, two requests of a buffer for one *)
Lemma driver_delivery_witness :
  Forall file_ok sample_file_events /\
  polls 2 50 sample_file_events (fun e l => Ok (l ++ [e])) [] = Ok ([], sample_file_events).
Proof.
  assert (F : Forall file_ok sample_file_events)
    by (repeat constructor; vm_compute; intros; done).
  split; [exact F |].
  destruct (driver_delivery 2 50 sample_file_events (fun e l => Ok (l ++ [e])) [] F) as [D _].
  rewrite D; [reflexivity | repeat constructor; cbn; lia | cbn; lia].
Defined.

(** and of the registry *)
Example registry_delivery :
  polls 1 100 [mkRegistryEvent 1 sample_time 100 1 (bs "\REGISTRY\MACHINE") (bs "x")]
    (fun e l => Ok (l ++ [e])) [] =
  Ok ([], [mkRegistryEvent 1 sample_time 100 1 (bs "\REGISTRY\MACHINE") (bs "x")]).
Proof. vm_compute. reflexivity. Qed.
