(* ===== verification/SystemMonitors.v ===== *)
(** * The process, registry and file monitors of the Capture client

    Each takes the events of its kernel driver, finds out the paths involved,
    drops what its exclusion list allows and signals the rest, which the
    analyzer reports to the server (ProcessMonitor.cpp, RegistryMonitor.cpp,
    FileMonitor.cpp). *)
From Stdlib Require Import ZArith Lia.
From stdpp Require Import base gmap list strings numbers.
From S2P Require Import Prelude Element Monitor Server FileUploader Options Analyzer ProcessManager DriverEvents.

Local Open Scope Z_scope.

(** ** Records of the drivers *)

Record ProcessInfo := mkProcessInfo {
  p_time : TIME_FIELDS;
  ParentId : Z;
  OriginId : Z;
  ProcessId : Z;
  ThreadId : Z;
  bCreate : Z;                  (* BOOLEAN *)
  p_processPath : wstring;
  p_parentProcessPath : wstring;
  p_originProcessPath : wstring;
}.

(** the fields in which an event must differ from the one before *)
Definition same_event (p q : ProcessInfo) : bool :=
  (bCreate p =? bCreate q) && (ParentId p =? ParentId q) && (ProcessId p =? ProcessId q) &&
  (ThreadId p =? ThreadId q).

(** the type of an event (0: not an event), who caused it and from which path *)
Definition classify (p : ProcessInfo) : Z * Z * wstring :=
  if ThreadId p =? 0 then
    (if negb (bCreate p =? 0) then EventProcess_Create else EventProcess_Terminate, ParentId p, p_parentProcessPath p)
  else
    (if negb (bCreate p =? 0) && (negb (OriginId p =? ProcessId p) && negb (OriginId p =? ParentId p))
     then EventThread_Inject else 0, OriginId p, p_originProcessPath p).

(** ** Names of registry events and keys *)

Definition getRegistryEventName (registryEventType : Z) : wstring :=
  if registryEventType =? 11 then bs "CreateKey"
  else if registryEventType =? 13 then bs "OpenKey"
  else if registryEventType =? 0 then bs "DeleteKey"
  else if registryEventType =? 2 then bs "DeleteValueKey"
  else if registryEventType =? 1 then bs "SetValueKey"
  else if registryEventType =? 5 then bs "EnumerateKey"
  else if registryEventType =? 6 then bs "EnumerateValueKey"
  else if registryEventType =? 7 then bs "QueryKey"
  else if registryEventType =? 8 then bs "QueryValueKey"
  else if registryEventType =? 14 then bs "CloseKey"
  else bs "<UNKNOWN>".

(** initialiseObjectNameMap, for the name of the current user's key *)
Definition objectNameMap (szTemp : wstring) : list (wstring * wstring) :=
  [(szTemp ++ bs "_CLASSES", bs "HKCR"); (szTemp, bs "HKCU"); (bs "\REGISTRY\MACHINE", bs "HKLM");
   (bs "\REGISTRY\USER", bs "HKU"); (bs "\Registry\Machine", bs "HKLM")].

(** [rfind(first, 0)] finds a prefix only, which is replaced; the first pair
    that fits counts *)
Fixpoint replace_prefix (pairs : list (wstring * wstring)) (s : wstring) : wstring :=
  match pairs with
  | [] => s
  | (from, to) :: pairs' => if prefixb from s then to ++ drop (length from) s else replace_prefix pairs' s
  end.

Definition convertRegistryObjectNameToHiveName (names : list (wstring * wstring)) (s : wstring) : wstring :=
  replace_prefix names s.

(** ** Names of file events and volumes *)

Definition IRP_MJ_CREATE : Z := 0.
Definition IRP_MJ_READ : Z := 3.
Definition IRP_MJ_WRITE : Z := 4.
Definition IRP_MJ_DELETE : Z := 153.
Definition FILE_SUPERSEDED : Z := 0.
Definition FILE_OPENED : Z := 1.
Definition FILE_CREATED : Z := 2.
Definition FILE_OVERWRITTEN : Z := 3.

(** [None]: the event is ignored *)
Definition getFileEventName (e : FILE_EVENT) : option wstring :=
  if f_major e =? IRP_MJ_CREATE then
    let found :=
      if (f_information e =? FILE_CREATED) || (f_information e =? FILE_OVERWRITTEN) ||
         (f_information e =? FILE_SUPERSEDED) then Some (bs "Create")
      else if f_information e =? FILE_OPENED then Some (bs "Open")
      else None in
    match str_find [58] (f_path e) with Some _ => None | None => found end
  else if f_major e =? IRP_MJ_READ then Some (bs "Read")
  else if f_major e =? IRP_MJ_WRITE then Some (bs "Write")
  else if f_major e =? IRP_MJ_DELETE then Some (bs "Delete")
  else None.

(** [dosNameMap] in the order of its iteration *)
Definition convertFileObjectNameToDosName (dosNameMap : list (wstring * wstring)) (s : wstring) : wstring :=
  replace_prefix dosNameMap s.

(** ** The monitors *)

Inductive kind := ProcessKind | RegistryKind | FileKind.

(** what the drivers deliver; a request of the process monitor ends with
    [ProcessesEnd] *)
Inductive record :=
  | ProcessRecord (p : ProcessInfo)
  | ProcessesEnd
  | RegistryEntry (e : REGISTRY_EVENT)
  | FileEntry (e : FILE_EVENT).

Record monitors := mkMonitors {
  manager : ProcessManager;
  tempP : option ProcessInfo;
  monitorModifiedFiles : bool;
  modifiedFiles : gset wstring;
}.

Definition with_manager (pm : ProcessManager) (st : monitors) : monitors :=
  mkMonitors pm (tempP st) (monitorModifiedFiles st) (modifiedFiles st).
Definition with_tempP (p : option ProcessInfo) (st : monitors) : monitors :=
  mkMonitors (manager st) p (monitorModifiedFiles st) (modifiedFiles st).
Definition with_modifiedFiles (f : gset wstring) (st : monitors) : monitors :=
  mkMonitors (manager st) (tempP st) (monitorModifiedFiles st) f.

(** the names of registry keys and of volumes, which paths are directories,
    and what the other threads do to the process map during a wait *)
Record environment := mkEnvironment {
  key_names : list (wstring * wstring);
  volume_names : list (wstring * wstring);
  isDirectory : wstring -> bool;
  during_wait : nat -> gmap Z wstring -> gmap Z wstring;
}.

Section Monitors.
Context `{Processes} (env : environment).

(** isEventAllowed of the monitor of a kind *)
Context (allowed : kind -> wstring -> wstring -> wstring -> result bool).

Definition ProcessMonitor_onProcessEvent (eventType processId : Z) (processPath : wstring)
    (parentProcessId : Z) (parentPath time : wstring) (st : monitors) : result (monitors * list system_event) :=
  pm ← ProcessManager_onProcessEvent eventType processId processPath (manager st);
  parentPath ← convertFileObjectPathToDOSPath parentPath;
  processPath ← convertFileObjectPathToDOSPath processPath;
  let parentProcessModuleName := module_name parentPath in
  let processModuleName := module_name processPath in
  a ← allowed ProcessKind processModuleName parentProcessModuleName processPath;
  Ok (with_manager pm st,
      if a : bool then [] else [ProcessEvent eventType time parentProcessId parentPath processId processPath]).

(** the body of ProcessMonitor::run for an event of the buffer *)
Definition process_record (p : ProcessInfo) (st : monitors) : result (monitors * list system_event) :=
  if match tempP st with Some q => same_event p q | None => false end then Ok (st, [])
  else
    let '(type, event_initiate_id, initpath) := classify p in
    r ← (if negb (type =? 0) then
           ProcessMonitor_onProcessEvent type (ProcessId p) (p_processPath p) event_initiate_id initpath
             (timefieldToString (p_time p)) st
         else Ok (st, []));
    Ok (with_tempP (Some p) r.1, r.2).

(** the body of RegistryMonitor::run for an event of the buffer *)
Definition registry_record (e : REGISTRY_EVENT) (st : monitors) : result (monitors * list system_event) :=
  let registryEventName := getRegistryEventName (r_eventType e) in
  let registryPath := convertRegistryObjectNameToHiveName (key_names env) (r_path e) in
  r ← getProcessPath (during_wait env) (r_processId e) (manager st);
  let '(processPath, pm) := r in
  a ← allowed RegistryKind registryEventName processPath registryPath;
  Ok (with_manager pm st,
      if a : bool then []
      else [RegistryEvent registryEventName (timefieldToString (r_time e)) (r_processId e) processPath registryPath]).

(** the set of modified files after an event that is not excluded *)
Definition note_modified (e : FILE_EVENT) (fileEventPath : wstring) (st : monitors) : gset wstring :=
  if monitorModifiedFiles st && negb (isDirectory env fileEventPath) then
    if (f_major e =? IRP_MJ_CREATE) || (f_major e =? IRP_MJ_WRITE)
    then {[fileEventPath]} ∪ modifiedFiles st
    else if f_major e =? IRP_MJ_DELETE then modifiedFiles st ∖ {[fileEventPath]}
    else modifiedFiles st
  else modifiedFiles st.

(** the body of FileMonitor::run for an event of the buffer *)
Definition file_record (e : FILE_EVENT) (st : monitors) : result (monitors * list system_event) :=
  match getFileEventName e with
  | None => Ok (st, [])
  | Some fileEventName =>
    r ← getProcessPath (during_wait env) (f_processId e) (manager st);
    let '(processPath, pm) := r in
    r ← getProcessModuleName (during_wait env) (f_processId e) pm;
    let st := with_manager r.2 st in
    let fileEventPath := convertFileObjectNameToDosName (volume_names env) (f_path e) in
    if negb (bytes_eqb fileEventPath (bs "UNKNOWN")) then
      a ← allowed FileKind fileEventName processPath fileEventPath;
      if a : bool then Ok (st, [])
      else
        Ok (with_modifiedFiles (note_modified e fileEventPath st) st,
            [FileEvent fileEventName (timefieldToString (f_time e)) (f_processId e) processPath fileEventPath])
    else Ok (st, [])
  end.

Definition observe (r : record) (st : monitors) : result (monitors * list system_event) :=
  match r with
  | ProcessRecord p => process_record p st
  | ProcessesEnd => Ok (with_tempP None st, [])
  | RegistryEntry e => registry_record e st
  | FileEntry e => file_record e st
  end.

Fixpoint observe_all (rs : list record) (st : monitors) : result (monitors * list system_event) :=
  match rs with
  | [] => Ok (st, [])
  | r :: rs' =>
    x ← observe r st;
    y ← observe_all rs' x.1;
    Ok (y.1, x.2 ++ y.2)
  end.
End Monitors.

(** ** What is reported *)

Section Detection.
Context `{LongPaths} (env : environment).

(** the paths Windows gives for images can be converted *)
Definition images_ok : Prop :=
  forall pid p, GetProcessImageFileName pid = Some p -> is_ok (convertFileObjectPathToDOSPath p).

Definition readable (r : record) : Prop :=
  match r with
  | ProcessRecord p =>
    is_ok (convertFileObjectPathToDOSPath (p_processPath p)) /\
    is_ok (convertFileObjectPathToDOSPath (p_parentProcessPath p)) /\
    is_ok (convertFileObjectPathToDOSPath (p_originProcessPath p))
  | _ => True
  end.

Lemma observe_ext al1 al2 r st :
  (forall k ty s o, al1 k ty s o = al2 k ty s o) -> observe env al1 r st = observe env al2 r st.
Proof.
  intros E. destruct r as [p| |e|e]; cbn [observe].
  - unfold process_record, ProcessMonitor_onProcessEvent. destruct (match tempP st with Some q => _ | None => _ end); [done |].
    destruct (classify p) as [[ty i] path]. destruct (negb _); [| done].
    destruct (ProcessManager_onProcessEvent _ _ _ _); [| done]. cbn [mbind result_bind].
    destruct (convertFileObjectPathToDOSPath path); [| done]. cbn [mbind result_bind].
    destruct (convertFileObjectPathToDOSPath (p_processPath p)); [| done]. cbn [mbind result_bind]. by rewrite E.
  - done.
  - unfold registry_record. destruct (getProcessPath _ _ _) as [[]|]; [| done]. cbn [mbind result_bind]. by rewrite E.
  - unfold file_record. destruct (getFileEventName e); [| done].
    destruct (getProcessPath _ _ _) as [[]|]; [| done]. cbn [mbind result_bind].
    destruct (getProcessModuleName _ _ _) as [[]|]; [| done]. cbn [mbind result_bind].
    destruct (negb _); [| done]. by rewrite E.
Qed.

Lemma observe_all_ext al1 al2 rs st :
  (forall k ty s o, al1 k ty s o = al2 k ty s o) -> observe_all env al1 rs st = observe_all env al2 rs st.
Proof.
  intros E. revert st. induction rs as [|r rs IH]; intros st; cbn; [done |].
  rewrite (observe_ext al1 al2 r st E). destruct (observe env al2 r st) as [[st1 e1]|]; cbn; [| done]. by rewrite IH.
Qed.

Lemma getProcessPath_ok waited pid pm : images_ok -> is_ok (getProcessPath waited pid pm).
Proof.
  intros I. unfold getProcessPath. destruct (pid =? 4); [done |].
  destruct (find_process 10 0 waited pid pm) as [[path|] pm']; [done |].
  rewrite (convert_dos (bs "UNKNOWN")) by (vm_compute; done).
  destruct (OpenProcess pid); [| done]. destruct (GetProcessImageFileName pid) as [p|] eqn:G; [| done].
  specialize (I pid p G). unfold insertProcess.
  destruct (convertFileObjectPathToDOSPath p); done.
Qed.

(** the program of a process, as the manager answers *)
Definition process_path (pid : Z) (st : monitors) : wstring :=
  match getProcessPath (during_wait env) pid (manager st) with Ok r => r.1 | Fault _ => [] end.

(** what the exclusion list is asked about an event: monitor, type, subject and
    object; [None] when the record is not an event *)
Definition judged (r : record) (st : monitors) : option (kind * wstring * wstring * wstring) :=
  match r with
  | ProcessRecord p =>
    if match tempP st with Some q => same_event p q | None => false end then None
    else
      let '(type, _, initpath) := classify p in
      if type =? 0 then None
      else Some (ProcessKind, module_name (dos_path (p_processPath p)), module_name (dos_path initpath),
                 dos_path (p_processPath p))
  | ProcessesEnd => None
  | RegistryEntry e =>
    Some (RegistryKind, getRegistryEventName (r_eventType e), process_path (r_processId e) st,
          replace_prefix (key_names env) (r_path e))
  | FileEntry e =>
    n ← getFileEventName e;
    let path := replace_prefix (volume_names env) (f_path e) in
    if bytes_eqb path (bs "UNKNOWN") then None
    else Some (FileKind, n, process_path (f_processId e) st, path)
  end.

Context (allows : kind -> wstring -> wstring -> wstring -> bool).

Definition unexcluded (r : record) (st : monitors) : bool :=
  match judged r st with Some (k, ty, s, o) => negb (allows k ty s o) | None => false end.

Let check k ty s o : result bool := Ok (allows k ty s o).

Lemma dos_path_ok p : is_ok (convertFileObjectPathToDOSPath p) -> convertFileObjectPathToDOSPath p = Ok (dos_path p).
Proof. unfold dos_path. by destruct (convertFileObjectPathToDOSPath p). Qed.

(** the event that stands for a record *)
Definition event_of (r : record) (st : monitors) : option system_event :=
  match r with
  | ProcessRecord p =>
    let '(type, initiator, initpath) := classify p in
    Some (ProcessEvent type (timefieldToString (p_time p)) initiator (dos_path initpath) (ProcessId p)
            (dos_path (p_processPath p)))
  | ProcessesEnd => None
  | RegistryEntry e =>
    Some (RegistryEvent (getRegistryEventName (r_eventType e)) (timefieldToString (r_time e)) (r_processId e)
            (process_path (r_processId e) st) (replace_prefix (key_names env) (r_path e)))
  | FileEntry e =>
    n ← getFileEventName e;
    Some (FileEvent n (timefieldToString (f_time e)) (f_processId e) (process_path (f_processId e) st)
            (replace_prefix (volume_names env) (f_path e)))
  end.

(** what is reported for a record: its event, if it is not excluded *)
Definition reported (r : record) (st : monitors) : list system_event :=
  if unexcluded r st then option_list (event_of r st) else [].

Lemma reported_suspicious r st : Forall (fun ev => suspicious ev = true) (reported r st).
Proof.
  unfold reported. destruct (unexcluded r st); [| constructor]. destruct r as [p| |e|e]; cbn.
  - destruct (classify p) as [[ty i] path]. by repeat constructor.
  - constructor.
  - by repeat constructor.
  - destruct (getFileEventName e); cbn; by repeat constructor.
Qed.

Lemma reported_some r st : unexcluded r st = true -> reported r st <> [].
Proof.
  unfold reported. intros U. rewrite U. revert U. unfold unexcluded, judged. destruct r as [p| |e|e]; cbn; try done.
  - destruct (classify p) as [[ty i] path]. done.
  - by destruct (getFileEventName e).
Qed.

(** a record is observed without a fault *)
Lemma observe_spec r st :
  images_ok -> readable r -> exists st', observe env check r st = Ok (st', reported r st).
Proof.
  intros I. destruct r as [p| |e|e]; cbn [observe readable].
  - intros (P1 & P2 & P3). unfold process_record, reported, unexcluded, judged, event_of.
    destruct (match tempP st with Some q => _ | None => _ end); [by eexists |].
    assert (Pi : is_ok (convertFileObjectPathToDOSPath (classify p).2)).
    { unfold classify. by destruct (ThreadId p =? 0). }
    destruct (classify p) as [[ty i] path]. cbn [snd] in Pi. destruct (ty =? 0); cbn [negb]; [by eexists |].
    unfold ProcessMonitor_onProcessEvent. rewrite onProcessEvent_spec by (intros _; exact P1).
    cbn [mbind result_bind]. rewrite (dos_path_ok path Pi), (dos_path_ok (p_processPath p) P1).
    cbn [mbind result_bind check fst snd]. destruct (allows _ _ _ _); by eexists.
  - intros _. by eexists.
  - intros _. unfold registry_record, reported, unexcluded, judged, event_of, process_path.
    pose proof (getProcessPath_ok (during_wait env) (r_processId e) (manager st) I) as K.
    destruct (getProcessPath _ _ _) as [[path pm]|]; [| done]. cbn [mbind result_bind check fst].
    unfold convertRegistryObjectNameToHiveName. destruct (allows _ _ _ _); by eexists.
  - intros _. unfold file_record, reported, unexcluded, judged, event_of, process_path.
    destruct (getFileEventName e) as [n|]; [| by eexists].
    pose proof (getProcessPath_ok (during_wait env) (f_processId e) (manager st) I) as K.
    destruct (getProcessPath _ _ _) as [[path pm]|]; [| done]. cbn [mbind result_bind option_bind check fst].
    unfold getProcessModuleName. pose proof (getProcessPath_ok (during_wait env) (f_processId e) pm I) as K2.
    destruct (getProcessPath (during_wait env) (f_processId e) pm) as [[path2 pm2]|]; [| done]. cbn [mbind result_bind snd].
    unfold convertFileObjectNameToDosName. destruct (bytes_eqb _ _); cbn [negb]; [by eexists |].
    cbn [check mbind result_bind]. destruct (allows _ _ _ _); by eexists.
Qed.

(** record by record: what was reported before it, and what for it *)
Inductive observed : list record -> monitors -> list system_event -> monitors -> Prop :=
  | observed_nil st : observed [] st [] st
  | observed_cons r rs st st1 st2 evs :
      observe env check r st = Ok (st1, reported r st) -> observed rs st1 evs st2 ->
      observed (r :: rs) st (reported r st ++ evs) st2.

Lemma observed_all rs st evs st' : observed rs st evs st' -> observe_all env check rs st = Ok (st', evs).
Proof. induction 1 as [|r rs st st1 st2 evs E O IH]; cbn [observe_all]; [done |]. rewrite E. cbn. by rewrite IH. Qed.

(** all records are observed *)
Lemma observe_all_spec rs st :
  images_ok -> Forall readable rs -> exists st' evs, observed rs st evs st'.
Proof.
  intros I F. revert st. induction F as [|r rs Rr F IH]; intros st; [by eexists _, _; constructor |].
  destruct (observe_spec r st I Rr) as [st1 E1]. destruct (IH st1) as (st2 & evs & O).
  eexists _, _. by econstructor.
Qed.

Lemma observed_suspicious rs st evs st' : observed rs st evs st' -> Forall (fun ev => suspicious ev = true) evs.
Proof. induction 1; [constructor |]. apply Forall_app. split; [apply reported_suspicious | done]. Qed.

(** every record contributes exactly what is reported for it *)
Lemma observed_split rs st evs st' :
  observed rs st evs st' ->
  forall pre r post, rs = pre ++ r :: post ->
    exists st1 evs1 evs2, observe_all env check pre st = Ok (st1, evs1) /\ evs = evs1 ++ reported r st1 ++ evs2.
Proof.
  induction 1 as [|r0 rs st st1 st2 evs E O IH]; intros pre r post Q; [by destruct pre |].
  destruct pre as [|r1 pre]; injection Q as <- ->.
  - by exists st, [], evs.
  - destruct (IH pre r post eq_refl) as (st3 & e1 & e2 & E3 & ->). exists st3, (reported r0 st ++ e1), e2.
    cbn [observe_all]. rewrite E. cbn [mbind result_bind fst snd]. rewrite E3. cbn. by rewrite <- app_assoc.
Qed.

(** something is reported exactly if some record was not excluded when it came *)
Lemma observed_some rs st evs st' :
  observed rs st evs st' ->
  (evs <> [] <-> exists pre r post st1 evs1, rs = pre ++ r :: post /\
     observe_all env check pre st = Ok (st1, evs1) /\ unexcluded r st1 = true).
Proof.
  intros O. split.
  - induction O as [|r rs st st1 st2 evs E O IH]; [done |]. intros N.
    destruct (unexcluded r st) eqn:U; [by exists [], r, rs, st, [] |].
    destruct IH as (pre & r' & post & st3 & e3 & -> & E3 & U3); [unfold reported in N; by rewrite U in N |].
    exists (r :: pre), r', post, st3, (reported r st ++ e3). cbn [observe_all]. rewrite E. cbn [mbind result_bind fst snd].
    by rewrite E3.
  - intros (pre & r & post & st1 & e1 & Q & E & U).
    destruct (observed_split _ _ _ _ O pre r post Q) as (st2 & e2 & e3 & E2 & ->).
    rewrite E in E2. injection E2 as <- <-. apply reported_some in U. destruct (reported r st1); [done |].
    by destruct e1.
Qed.
End Detection.

(** ** The report of the events *)

(** the document of an event *)
Definition event_document `{Peer} (ev : system_event) (b : bytes) : Prop :=
  exists d, xml_document (bs "system-event") (attributes_for ev) = Ok d /\ b = utf8 d.

Lemma on_events_sent `{RX : WRegex} `{Outbox} log_event evs a m s w :
  connected s = true -> (forall atts w, outbox (log_event atts w) = outbox w) -> malicious a = Some m ->
  exists w' docs, on_events log_event evs a s w = Ok (with_malicious (m || existsb suspicious evs) a, (s, w')) /\
    outbox w' = outbox w ++ docs /\ Forall2 event_document evs docs.
Proof.
  intros C L. revert a m w. induction evs as [|ev evs IH]; intros a m w M; cbn [on_events].
  - exists w, []. rewrite app_nil_r, orb_false_r. split_and!; [| done | constructor]. destruct a; cbn in *. by rewrite M.
  - unfold on_event. destruct (sendXML_sent (bs "system-event") (attributes_for ev) s (log_event (attributes_for ev) w) C)
      as (d & w1 & Ed & -> & O1). cbn [mbind result_bind]. rewrite L in O1. cbn [existsb].
    destruct (suspicious ev).
    + destruct (IH (with_malicious true a) true w1 eq_refl) as (w2 & docs & -> & O2 & F). exists w2, (utf8 d :: docs).
      rewrite orb_true_r. split_and!; [done | by rewrite O2, O1, <- app_assoc | constructor; [by exists d | done]].
    + destruct (IH a m w1 M) as (w2 & docs & -> & O2 & F). exists w2, (utf8 d :: docs).
      split_and!; [done | by rewrite O2, O1, <- app_assoc | constructor; [by exists d | done]].
Qed.

Definition monitor_of `{RX : WRegex} (a : Analyzer) (k : kind) : Monitor :=
  match k with ProcessKind => processMonitor a | RegistryKind => registryMonitor a | FileKind => fileMonitor a end.

(** an analyzer whose monitors hold rules reports the records the rules do not
    allow *)
Lemma monitors_detect `{RX : WRegex} `{LongPaths} `{Outbox} log_event env rules records a st s w :
  (forall k, denotes (monitor_of a k) (rules k)) ->
  let allows k := verdict (rules k) in
  analyzer_ok a -> images_ok -> Forall readable records -> connected s = true ->
  (forall atts w, outbox (log_event atts w) = outbox w) ->
  exists st' evs acts w' docs bad,
    observe_all env (fun k => isEventAllowed (monitor_of a k)) records st = Ok (st', evs) /\
    (forall pre r post, records = pre ++ r :: post -> exists st1 evs1 evs2,
       observe_all env (fun k => isEventAllowed (monitor_of a k)) pre st = Ok (st1, evs1) /\
       evs = evs1 ++ reported env allows r st1 ++ evs2) /\
    start a = Ok (with_malicious false a, acts) /\
    on_events log_event evs (with_malicious false a) s w = Ok (with_malicious bad a, (s, w')) /\
    outbox w' = outbox w ++ docs /\ Forall2 event_document evs docs /\
    (bad = true <-> exists pre r post st1 evs1, records = pre ++ r :: post /\
       observe_all env (fun k => isEventAllowed (monitor_of a k)) pre st = Ok (st1, evs1) /\
       unexcluded env allows r st1 = true).
Proof.
  intros D allows Ia Im F C L.
  assert (E : forall k ty s o, isEventAllowed (monitor_of a k) ty s o = Ok (allows k ty s o))
    by (intros; by apply isEventAllowed_spec).
  destruct (observe_all_spec env allows records st Im F) as (st' & evs & Ob).
  pose proof (observed_some _ _ _ _ _ _ Ob) as N. pose proof (observed_suspicious _ _ _ _ _ _ Ob) as S.
  destruct (start_spec a Ia) as [acts Es].
  destruct (on_events_sent log_event evs (with_malicious false a) false s w C L eq_refl) as (w' & docs & Ee & O & Dc).
  exists st', evs, acts, w', docs, (existsb suspicious evs).
  rewrite (observe_all_ext env _ _ records st E).
  split_and!; [by apply observed_all | | done | done | done | done |].
  - intros pre r post Q. destruct (observed_split _ _ _ _ _ _ Ob pre r post Q) as (st1 & e1 & e2 & E1 & ->).
    exists st1, e1, e2. by rewrite (observe_all_ext env _ _ pre st E).
  - transitivity (evs <> []).
    + rewrite existsb_exists. split; [by intros (ev & Hi & _) -> |]. destruct evs as [|ev evs]; [done |].
      intros _. exists ev. split; [by left |]. by apply list.Forall_cons in S as [S _].
    + rewrite N. split; intros (pre & r & post & st1 & evs1 & Q & Ep & U); exists pre, r, post, st1, evs1;
        (split; [done |]); rewrite (observe_all_ext env _ _ pre st E) in *; done.
Qed.

(** ** A session to run *)

#[local] Existing Instances Link Link_outbox literal_regex Machine Machine_long.

Definition sample_environment : environment :=
  mkEnvironment (objectNameMap (bs "\REGISTRY\USER\S-1")) [(bs "\Device\HarddiskVolume1", bs "C:")]
    (fun _ => false) (fun _ m => m).

(** the creation of a process that is excluded, the same record again, and a
    registry value the process sets *)
Definition sample_creation : ProcessInfo :=
  mkProcessInfo sample_time 8 8 100 0 1 (bs "\Device\HarddiskVolume1\WINDOWS\a.exe")
    (bs "\Device\HarddiskVolume1\WINDOWS\b.exe") [].

Definition sample_records : list record :=
  [ProcessRecord sample_creation; ProcessRecord sample_creation; ProcessesEnd;
   RegistryEntry (mkRegistryEvent 1 sample_time 100 1 (bs "\REGISTRY\MACHINE\x") [])].

Definition sample_exclusions : option bytes := Some (tab_join ["+"; "a.exe"; ".*"; "C:\WINDOWS\a.exe"]%string).

Definition sample_monitors : monitors := mkMonitors (mkProcesses ∅ 0 0 0) None false ∅.

Example sample_reported :
  observe_all sample_environment
    (fun k => isEventAllowed (monitor_of (mkAnalyzer false false Null None
       (loadExclusionList newMonitor sample_exclusions) newMonitor newMonitor newMonitor) k))
    sample_records sample_monitors =
  Ok (mkMonitors (mkProcesses {[100 := bs "C:\WINDOWS\a.exe"]} 1 0 0) None false ∅,
      [RegistryEvent (bs "SetValueKey") (bs "1/2/2010 3:4:5.6") 100 (bs "C:\WINDOWS\a.exe") (bs "HKLM\x")]).
Proof. vm_compute. reflexivity. Qed.
