(* ===== verification/FileMonitor.v ===== *)
(** * Exclusions sent by the server, and the file monitor of the Capture client

    The three monitors add the exclusions the server sends. The file monitor
    also excludes the client's own directories when it is created
    (FileMonitor::FileMonitor), and copies the modified files at the end of a
    session (copyCreatedFiles). *)
From Stdlib Require Import ZArith Lia.
From stdpp Require Import base gmap list strings numbers.
From S2P Require Import Prelude Element Monitor Server FileUploader Options Analyzer ProcessManager DriverEvents SystemMonitors.

Local Open Scope Z_scope.

Section Exclusions.
Context `{RX : WRegex}.

(** [addExclusion] where a [regex_error] ends the thread *)
Definition add_exclusion (excluded action subject object : wstring) (permaneant : bool) (m : Monitor)
  : result Monitor :=
  let '(m, thrown) := addExclusion m excluded action subject object permaneant in
  if thrown then Fault RegexError else Ok m.

(** the last value of each attribute counts *)
Definition exclusion_received (e : Element) (m : Monitor) : result Monitor :=
  add_exclusion (last_attribute (bs "excluded") (attributes e)) (last_attribute (bs "action") (attributes e))
    (last_attribute (bs "subject") (attributes e)) (last_attribute (bs "object") (attributes e)) false m.

Definition onProcessExclusionReceived (e : Element) (m : Monitor) : result Monitor := exclusion_received e m.
Definition onRegistryExclusionReceived (e : Element) (m : Monitor) : result Monitor := exclusion_received e m.
Definition onFileExclusionReceived (e : Element) (m : Monitor) : result Monitor := exclusion_received e m.

(** ** The constructor *)

Fixpoint add_actions (actions : list wstring) (subject object : wstring) (m : Monitor) : result Monitor :=
  match actions with
  | [] => Ok m
  | action :: l => m ← add_exclusion (bs "+") action subject object true m; add_actions l subject object m
  end.

Definition file_actions : list wstring := [bs "write"; bs "create"; bs "delete"; bs "open"; bs "read"].

(** everything below a directory, for all processes *)
Definition exclude_directory (directory : wstring) (m : Monitor) : result Monitor :=
  prepared ← prepareStringForExclusion directory;
  add_actions file_actions (bs ".*") (prepared ++ bs "\\.*") m.

(** [file]: FileMonitor.exl; [loggerFile] when system events are logged to a
    file, written by the executable of the client *)
Definition newFileMonitor (file : option bytes) (logDirectory tempDirectory captureExecutable : wstring)
    (loggerFile : option wstring) : result Monitor :=
  let m := loadExclusionList newMonitor file in
  captureExecutablePath ← prepareStringForExclusion captureExecutable;
  m ← exclude_directory logDirectory m;
  m ← exclude_directory tempDirectory m;
  match loggerFile with
  | Some logFile =>
    prepared ← prepareStringForExclusion logFile;
    add_actions [bs "create"; bs "write"] captureExecutablePath prepared m
  | None => Ok m
  end.

(** ** Lemmas *)

Lemma add_exclusion_spec excluded action subject object perm m R :
  monitor_inv m -> denotes m R ->
  match rule_of excluded action subject object perm with
  | Some r => exists m', add_exclusion excluded action subject object perm m = Ok m' /\
                monitor_inv m' /\ denotes m' (R ++ [r])
  | None => add_exclusion excluded action subject object perm m = Fault RegexError
  end.
Proof.
  intros I D. pose proof (addExclusion_spec m R excluded action subject object perm I D) as (I' & D' & T).
  unfold add_exclusion. destruct (addExclusion m excluded action subject object perm) as [m' thrown]. cbn in *.
  destruct (rule_of excluded action subject object perm) as [r|].
  - destruct thrown; [discriminate (proj1 T eq_refl) |]. by exists m'.
  - by rewrite (proj2 T eq_refl).
Qed.

(** what an exclusion the server sends does *)
Lemma exclusion_received_spec e m R :
  monitor_inv m -> denotes m R ->
  match rule_of (last_attribute (bs "excluded") (attributes e)) (last_attribute (bs "action") (attributes e))
          (last_attribute (bs "subject") (attributes e)) (last_attribute (bs "object") (attributes e)) false with
  | Some r => exists m', exclusion_received e m = Ok m' /\ monitor_inv m' /\ denotes m' (R ++ [r])
  | None => exclusion_received e m = Fault RegexError
  end.
Proof. apply add_exclusion_spec. Qed.

(** the permanent permissions [add_actions] adds *)
Definition allow_rules (actions : list wstring) (s o : wregex) : list (wstring * Permission) :=
  (fun a : wstring => (tolower <$> a, mkPermission [s] [o] true true)) <$> actions.

Lemma add_actions_spec actions subject object s o m R :
  wregex_icase (c_str subject) = Some s -> wregex_icase (c_str object) = Some o ->
  monitor_inv m -> denotes m R ->
  exists m', add_actions actions subject object m = Ok m' /\ monitor_inv m' /\
    denotes m' (R ++ allow_rules actions s o).
Proof.
  intros Es Eo. revert m R. induction actions as [|a actions IH]; intros m R I D; cbn [add_actions].
  - exists m. by rewrite app_nil_r.
  - pose proof (add_exclusion_spec (bs "+") a subject object true m R I D) as A. unfold rule_of in A.
    rewrite Es, Eo in A. cbn [mbind option_bind] in A.
    rewrite bool_decide_eq_true_2 in A by (by right). destruct A as (m1 & -> & I1 & D1). cbn [mbind result_bind].
    destruct (IH m1 _ I1 D1) as (m2 & -> & I2 & D2). exists m2. by rewrite <- app_assoc in D2.
Qed.
End Exclusions.

(** ** The client's own directories *)

(** characters without a meaning in regular expressions, and those that are
    escaped *)
Definition plain_char (c : Z) : bool :=
  negb (bool_decide (c ∈ [0] ++ bs "[](){}*+?|^$")).
Definition plain_path (p : wstring) : bool := forallb plain_char p.

Definition escaped (p : wstring) : wstring :=
  flat_map (fun x => if (x =? 92) || (x =? 46) then [92; x] else [x]) p.

(** what the monitor relies on: [.*] matches everything, an escaped path the
    path itself, and followed by [\\.*] everything below it *)
Class PathRegex `{RX : WRegex} := {
  any_regex : exists r, wregex_icase (bs ".*") = Some r /\ forall s, regex_match s r = true;
  path_regex : forall p, plain_path p = true ->
    exists r, wregex_icase (escaped p) = Some r /\ regex_match p r = true;
  below_regex : forall p, plain_path p = true ->
    exists r, wregex_icase (escaped p ++ bs "\\.*") = Some r /\ forall t, regex_match (p ++ 92 :: t) r = true;
}.

Section Directories.
Context `{PathRegex}.

Lemma c_str_clean (s : wstring) : Forall (fun c => c <> 0) s -> c_str s = s.
Proof. induction 1 as [|c s Hc F IH]; cbn; [done |]. rewrite (proj2 (Z.eqb_neq c 0) Hc). by rewrite IH. Qed.

Lemma plain_clean p : plain_path p = true -> Forall (fun c => c <> 0) p.
Proof.
  unfold plain_path. induction p as [|c p IH]; cbn; [constructor |]. intros [Hc Hp]%andb_true_iff.
  constructor; [| by apply IH]. intros ->. by vm_compute in Hc.
Qed.

Lemma escaped_clean p : plain_path p = true -> Forall (fun c => c <> 0) (escaped p).
Proof.
  intros P%plain_clean. unfold escaped. induction P as [|c p Hc F IH]; cbn; [constructor |].
  destruct ((c =? 92) || (c =? 46)); cbn; repeat constructor; done.
Qed.

Lemma exclude_directory_spec p m R :
  plain_path p = true -> monitor_inv m -> denotes m R ->
  exists m' s o, exclude_directory p m = Ok m' /\ monitor_inv m' /\
    denotes m' (R ++ allow_rules file_actions s o) /\
    (forall x, regex_match x s = true) /\ (forall t, regex_match (p ++ 92 :: t) o = true).
Proof.
  intros P I D. destruct any_regex as (s & Es & Ms). destruct (below_regex p P) as (o & Eo & Mo).
  unfold exclude_directory. rewrite prepare_escapes. cbn [mbind result_bind].
  destruct (add_actions_spec file_actions (bs ".*") (escaped p ++ bs "\\.*") s o m R) as (m' & E & I' & D'); [| | done | done |].
  - rewrite c_str_clean; [done |]. repeat constructor; vm_compute; done.
  - rewrite c_str_clean; [done |]. apply Forall_app. split; [by apply escaped_clean |].
    repeat constructor; vm_compute; done.
  - exists m', s, o. done.
Qed.

Lemma allow_rules_allow actions s o : Forall (fun r : wstring * Permission => allow r.2 = true) (allow_rules actions s o).
Proof. unfold allow_rules. apply Forall_fmap, list.Forall_forall. done. Qed.

(** permissions forbid nothing *)
Lemma existsb_allowed (l : list (wstring * Permission)) :
  Forall (fun r => allow r.2 = true) l ->
  forall eventType subject object,
    existsb (fun r => applies eventType subject object r && negb (allow r.2)) l = false.
Proof. induction 1 as [|r l Hr Fl IH]; intros; cbn; [done |]. by rewrite Hr, andb_false_r, IH. Qed.

(** a permission of [allow_rules] decides for the events it matches *)
Lemma verdict_allowed R actions s o R' eventType subject object :
  (tolower <$> eventType) ∈ ((fun a : wstring => tolower <$> a) <$> actions) ->
  regex_match (c_str subject) s = true -> regex_match (c_str object) o = true ->
  Forall (fun r : wstring * Permission => allow r.2 = true) R' ->
  verdict (R ++ allow_rules actions s o ++ R') eventType subject object =
  negb (existsb (fun r => applies eventType subject object r && negb (allow r.2)) R).
Proof.
  intros A Ms Mo F. unfold verdict. rewrite !existsb_app.
  assert (P : existsb (fun r => applies eventType subject object r && allow r.2) (allow_rules actions s o) = true).
  { apply existsb_exists. apply list_elem_of_fmap in A as (a & Ea & Ha).
    exists (tolower <$> a, mkPermission [s] [o] true true). split.
    - apply list_elem_of_In, list_elem_of_fmap. by exists a.
    - unfold applies. cbn. rewrite bool_decide_eq_true_2 by done. by rewrite Ms, Mo. }
  rewrite P, (existsb_allowed R' F), (existsb_allowed _ (allow_rules_allow actions s o)).
  rewrite orb_true_l, orb_true_r. by rewrite !orb_false_r.
Qed.
End Directories.

Lemma newFileMonitor_spec `{PathRegex} file log tmp exe logger :
  plain_path log = true -> plain_path tmp = true -> plain_path exe = true ->
  (forall f, logger = Some f -> plain_path f = true) ->
  exists m s1 o1 s2 o2 R, newFileMonitor file log tmp exe logger = Ok m /\
    denotes m (rules_of_file file ++ allow_rules file_actions s1 o1 ++ allow_rules file_actions s2 o2 ++ R) /\
    Forall (fun r : wstring * Permission => allow r.2 = true) R /\
    (forall x, regex_match x s1 = true) /\ (forall t, regex_match (log ++ 92 :: t) o1 = true) /\
    (forall x, regex_match x s2 = true) /\ (forall t, regex_match (tmp ++ 92 :: t) o2 = true).
Proof.
  intros Pl Pt Pe Pf. unfold newFileMonitor. rewrite prepare_escapes. cbn [mbind result_bind].
  assert (L : monitor_inv (loadExclusionList newMonitor file) /\
              denotes (loadExclusionList newMonitor file) (rules_of_file file)).
  { unfold loadExclusionList, rules_of_file. destruct file; [| split; [apply newMonitor_inv | apply newMonitor_denotes]].
    apply (load_lines_spec _ newMonitor []); [apply newMonitor_inv | apply newMonitor_denotes]. }
  destruct L as [I D]. destruct (exclude_directory_spec log _ _ Pl I D) as (m1 & s1 & o1 & -> & I1 & D1 & S1 & O1).
  cbn [mbind result_bind].
  destruct (exclude_directory_spec tmp _ _ Pt I1 D1) as (m2 & s2 & o2 & -> & I2 & D2 & S2 & O2).
  cbn [mbind result_bind]. rewrite <- app_assoc in D2. destruct logger as [f|].
  - rewrite prepare_escapes. cbn [mbind result_bind]. specialize (Pf f eq_refl).
    destruct (path_regex exe Pe) as (s3 & E3 & _), (path_regex f Pf) as (o3 & F3 & _).
    destruct (add_actions_spec [bs "create"; bs "write"] (escaped exe) (escaped f) s3 o3 m2
      (rules_of_file file ++ allow_rules file_actions s1 o1 ++ allow_rules file_actions s2 o2)) as (m3 & E & I3 & D3);
      [by rewrite c_str_clean by (by apply escaped_clean) | by rewrite c_str_clean by (by apply escaped_clean)
      | exact I2 | exact D2 |].
    exists m3, s1, o1, s2, o2, (allow_rules [bs "create"; bs "write"] s3 o3). rewrite <- !app_assoc in D3.
    split_and!; [exact E | exact D3 | apply allow_rules_allow | done | done | done | done].
  - exists m2, s1, o1, s2, o2, []. rewrite app_nil_r. done.
Qed.

(** The client's own files: the monitor can be constructed for directories
    and files with plain names, and whatever the process, an event on a file
    below the log or the temporary directory is allowed unless a [-] rule of
    the exclusion list forbids it. *)
Theorem own_directories_excluded `{PathRegex} file log tmp exe logger dir eventType subject t :
  plain_path log = true -> plain_path tmp = true -> plain_path exe = true ->
  (forall f, logger = Some f -> plain_path f = true) ->
  dir = log \/ dir = tmp -> (tolower <$> eventType) ∈ file_actions -> Forall (fun c => c <> 0) t ->
  exists m, newFileMonitor file log tmp exe logger = Ok m /\
    isEventAllowed m eventType subject (dir ++ 92 :: t) =
    Ok (negb (existsb (fun r => applies eventType subject (dir ++ 92 :: t) r && negb (allow r.2)) (rules_of_file file))).
Proof.
  intros Pl Pt Pe Pf Hd A Ft.
  destruct (newFileMonitor_spec file log tmp exe logger Pl Pt Pe Pf)
    as (m & s1 & o1 & s2 & o2 & R & E & D & Fr & S1 & O1 & S2 & O2).
  exists m. split; [exact E |]. rewrite (isEventAllowed_spec m _ eventType subject (dir ++ 92 :: t) D). f_equal.
  assert (C : c_str (dir ++ 92 :: t) = dir ++ 92 :: t).
  { apply c_str_clean, Forall_app. split; [apply plain_clean; by destruct Hd as [-> | ->] |]. by constructor. }
  assert (A' : (tolower <$> eventType) ∈ ((fun a : wstring => tolower <$> a) <$> file_actions)).
  { replace ((fun a : wstring => tolower <$> a) <$> file_actions) with file_actions by (vm_compute; reflexivity). done. }
  destruct Hd as [-> | ->].
  - apply verdict_allowed; [done | done | by rewrite C |]. apply Forall_app. split; [apply allow_rules_allow | done].
  - rewrite app_assoc. rewrite (verdict_allowed (rules_of_file file ++ allow_rules file_actions s1 o1)); [| done | done | by rewrite C | done].
    rewrite existsb_app, (existsb_allowed (allow_rules file_actions s1 o1)) by apply allow_rules_allow. by rewrite orb_false_r.
Qed.

(** ** Detection *)

Section OwnRules.
Context `{RX : WRegex}.

(** the permanent rules of the file monitor: nothing below the log and the
    temporary directory is reported, nor what the client writes to its log *)
Definition action_rules (actions : list wstring) (subject object : wstring) : list (wstring * Permission) :=
  omap (fun a => rule_of (bs "+") a subject object true) actions.

Definition own_rules (log tmp exe : wstring) (logger : option wstring) : list (wstring * Permission) :=
  action_rules file_actions (bs ".*") (escaped log ++ bs "\\.*") ++
  action_rules file_actions (bs ".*") (escaped tmp ++ bs "\\.*") ++
  match logger with
  | Some f => action_rules [bs "create"; bs "write"] (escaped exe) (escaped f)
  | None => []
  end.

Lemma add_actions_rules actions subject object m m' R :
  monitor_inv m -> denotes m R -> add_actions actions subject object m = Ok m' ->
  monitor_inv m' /\ denotes m' (R ++ action_rules actions subject object).
Proof.
  revert m R. induction actions as [|a actions IH]; intros m R I D E; cbn [add_actions] in E.
  - injection E as <-. by rewrite app_nil_r.
  - pose proof (add_exclusion_spec (bs "+") a subject object true m R I D) as A. unfold action_rules. cbn [omap list_omap].
    destruct (rule_of (bs "+") a subject object true) as [r|]; [| by rewrite A in E].
    destruct A as (m1 & E1 & I1 & D1). rewrite E1 in E. cbn [mbind result_bind] in E.
    destruct (IH m1 _ I1 D1 E) as [I2 D2]. split; [done |]. by rewrite <- app_assoc in D2.
Qed.

Lemma loaded_rules f : monitor_inv (loadExclusionList newMonitor f) /\ denotes (loadExclusionList newMonitor f) (rules_of_file f).
Proof.
  unfold loadExclusionList, rules_of_file. destruct f; [| split; [apply newMonitor_inv | apply newMonitor_denotes]].
  apply (load_lines_spec _ newMonitor []); [apply newMonitor_inv | apply newMonitor_denotes].
Qed.

Lemma newFileMonitor_rules file log tmp exe logger m :
  newFileMonitor file log tmp exe logger = Ok m -> denotes m (rules_of_file file ++ own_rules log tmp exe logger).
Proof.
  unfold newFileMonitor, exclude_directory. rewrite !prepare_escapes. cbn [mbind result_bind].
  destruct (loaded_rules file) as [I D]. intros E.
  destruct (add_actions _ _ _ (loadExclusionList _ _)) as [m1|] eqn:E1; [cbn [mbind result_bind] in E | done].
  destruct (add_actions_rules _ _ _ _ _ _ I D E1) as [I1 D1].
  destruct (add_actions _ _ _ m1) as [m2|] eqn:E2; [cbn [mbind result_bind] in E | done].
  destruct (add_actions_rules _ _ _ _ _ _ I1 D1 E2) as [I2 D2]. rewrite <- app_assoc in D2.
  unfold own_rules. destruct logger as [f|].
  - rewrite prepare_escapes in E. cbn [mbind result_bind] in E.
    destruct (add_actions_rules _ _ _ _ _ _ I2 D2 E) as [_ D3]. by rewrite <- !app_assoc in D3.
  - injection E as <-. by rewrite app_nil_r.
Qed.
End OwnRules.

(** the rules of a monitor: those of its exclusion list, and the permanent ones
    of the file monitor *)
Definition monitor_rules `{RX : WRegex} (fp fr ff : option bytes) (own : list (wstring * Permission)) (k : kind)
  : list (wstring * Permission) :=
  match k with
  | ProcessKind => rules_of_file fp
  | RegistryKind => rules_of_file fr
  | FileKind => rules_of_file ff ++ own
  end.

(** C25: Detection.  Take an analyzer with a dumper exactly if it captures
    packets, whose monitors have loaded their exclusion lists, the file monitor
    with its permanent exclusions of the log and the temporary directory and of
    the log file, and a connection on which nothing is lost.  The drivers
    deliver any records, in any interleaving, the paths of which, like those of
    the images of processes, can be converted to DOS paths.  Then every record
    is observed, and what is reported for it is one event, in the place the
    record has among them, if it is an event of a process, the registry or a
    file that the rules of its monitor do not allow for the program behind it
    (as the process manager knows it when the record comes), and nothing
    otherwise; the server is sent one document per event reported, in order;
    and the system is held for malicious exactly if some record was so
    reported. *)
Theorem detection `{RX : WRegex} `{LongPaths} `{Outbox} log_event env fp fr ff log tmp exe logger fm net c m d records st s w :
  newFileMonitor ff log tmp exe logger = Ok fm ->
  let load f := loadExclusionList newMonitor f in
  let a := mkAnalyzer c m d None (load fp) (load fr) fm net in
  let allows k := verdict (monitor_rules fp fr ff (own_rules log tmp exe logger) k) in
  analyzer_ok a -> images_ok -> Forall readable records -> connected s = true ->
  (forall atts w, outbox (log_event atts w) = outbox w) ->
  exists st' evs acts w' docs bad,
    observe_all env (fun k => isEventAllowed (monitor_of a k)) records st = Ok (st', evs) /\
    (forall pre r post, records = pre ++ r :: post -> exists st1 evs1 evs2,
       observe_all env (fun k => isEventAllowed (monitor_of a k)) pre st = Ok (st1, evs1) /\
       evs = evs1 ++ reported env allows r st1 ++ evs2) /\
    start a = Ok (with_malicious false a, acts) /\
    on_events log_event evs (with_malicious false a) s w = Ok (with_malicious bad a, (s, w')) /\
    outbox w' = outbox w ++ docs /\ Forall2 event_document evs docs /\
    (bad = true <-> exists pre r post st1 evs1, records = pre ++ r :: post /\
       observe_all env (fun k => isEventAllowed (monitor_of a k)) pre st = Ok (st1, evs1) /\
       unexcluded env allows r st1 = true).
Proof.
  intros E load a allows. apply (monitors_detect log_event env (monitor_rules fp fr ff (own_rules log tmp exe logger))).
  intros []; [apply loaded_rules | apply loaded_rules | by apply newFileMonitor_rules].
Qed.

(** ** Modified files *)

(** where a file is copied to: the directory, the source and the destination;
    with a single backslash in the path the count [-1] takes the whole rest *)
Definition createFilePathAndCopy (logPath filePath : wstring) : wstring * (wstring * wstring) :=
  let first := str_find [92] filePath in
  let last := str_find_last 92 filePath in
  let drive := match str_find [58] filePath with Some i => take i filePath | None => filePath end in
  let fileName := match last with Some l => drop (l + 1) filePath | None => filePath end in
  let middle := match first, last with
                | Some f, Some l => if (l =? f)%nat then drop (f + 1) filePath
                                    else take (l - f - 1) (drop (f + 1) filePath)
                | _, _ => filePath
                end in
  let intermediateDirectory := logPath ++ drive ++ [92] ++ middle in
  (intermediateDirectory, (filePath, intermediateDirectory ++ [92] ++ fileName)).

(** the set is copied in the order of its iteration and emptied *)
Definition copyCreatedFiles (logPath : wstring) (st : monitors) : monitors * list (wstring * (wstring * wstring)) :=
  (with_modifiedFiles ∅ st, createFilePathAndCopy logPath <$> elements (modifiedFiles st)).

(** setMonitorModifiedFiles, apart from the directories and the message to the
    driver *)
Definition setMonitorModifiedFiles (monitor : bool) (st : monitors) : monitors :=
  mkMonitors (manager st) (tempP st) monitor (modifiedFiles st).

(** a file below a directory keeps its place *)
Lemma copy_mirrors logPath drive dir file :
  58 ∉ drive -> 92 ∉ drive -> 92 ∉ file ->
  createFilePathAndCopy logPath (drive ++ [58; 92] ++ dir ++ 92 :: file) =
  (logPath ++ drive ++ [92] ++ dir,
   (drive ++ [58; 92] ++ dir ++ 92 :: file, (logPath ++ drive ++ [92] ++ dir) ++ [92] ++ file)).
Proof.
  intros Nc Nb Nf. unfold createFilePathAndCopy.
  assert (Fl : forall a, str_find_last 92 (a ++ 92 :: file) = Some (length a)).
  { intros a. induction a as [|x a IH]; cbn; [| by rewrite IH].
    assert (N : forall l : wstring, 92 ∉ l -> str_find_last 92 l = None).
    { induction l as [|y l IHl]; cbn; intros Hn; [done |]. apply not_elem_of_cons in Hn as [Hy Hl].
      rewrite IHl by done. by rewrite (proj2 (Z.eqb_neq y 92)). }
    by rewrite (N file Nf). }
  replace (drive ++ [58; 92] ++ dir ++ 92 :: file) with ((drive ++ [58]) ++ 92 :: (dir ++ 92 :: file))
    by (by rewrite <- app_assoc).
  rewrite (str_find_char 92 (drive ++ [58])) by (rewrite elem_of_app; set_solver).
  replace ((drive ++ [58]) ++ 92 :: dir ++ 92 :: file) with ((drive ++ [58; 92] ++ dir) ++ 92 :: file)
    by (by rewrite <- !app_assoc).
  rewrite Fl. set (whole := (drive ++ [58; 92] ++ dir) ++ 92 :: file).
  assert (W1 : whole = drive ++ 58 :: (92 :: dir ++ 92 :: file)) by (unfold whole; by rewrite <- !app_assoc).
  assert (W2 : whole = (drive ++ [58; 92]) ++ dir ++ 92 :: file) by (unfold whole; by rewrite <- !app_assoc).
  assert (Fc : str_find [58] whole = Some (length drive)) by (rewrite W1; by apply str_find_char).
  rewrite Fc.
  rewrite !length_app. cbn [length]. rewrite (proj2 (Nat.eqb_neq _ _)) by lia.
  assert (Dm : take (length drive + (2 + length dir) - (length drive + 1) - 1) (drop (length drive + 1 + 1) whole) = dir).
  { rewrite W2. replace (length drive + 1 + 1)%nat with (length (drive ++ [58; 92])) by (rewrite length_app; cbn; lia).
    rewrite drop_app_length. replace (_ - _ - 1)%nat with (length dir) by lia. apply take_app_length. }
  cbn [app]. rewrite Dm.
  assert (Dd : take (length drive) whole = drive) by (rewrite W1; apply take_app_length).
  assert (Df : drop (length drive + (2 + length dir) + 1) whole = file).
  { unfold whole. replace (length drive + (2 + length dir) + 1)%nat with (length (drive ++ [58; 92]%Z ++ dir) + 1)%nat
      by (rewrite !length_app; cbn; lia). rewrite drop_app_add. done. }
  by rewrite Dd, Df.
Qed.

(** what an event does to the set *)
Definition note_event (env : environment) (S : gset wstring) (ev : system_event) : gset wstring :=
  match ev with
  | FileEvent n _ _ _ p =>
    if isDirectory env p || bytes_eqb n (bs "Read") then S
    else if bytes_eqb n (bs "Delete") then S ∖ {[p]} else {[p]} ∪ S
  | _ => S
  end.

Lemma note_modified_event `{Processes} env e n st t pid process path :
  monitorModifiedFiles st = true -> getFileEventName e = Some n ->
  note_modified env e path st = note_event env (modifiedFiles st) (FileEvent n t pid process path).
Proof.
  intros M G. unfold note_modified, note_event. rewrite M. cbn [andb].
  destruct (isDirectory env path); cbn [negb orb]; [done |]. unfold getFileEventName in G.
  destruct (f_major e =? IRP_MJ_CREATE); cbn [orb].
  - destruct (str_find _ _); [done |]. destruct (_ || _); [| destruct (_ =? _); [| done]];
      injection G as <-; reflexivity.
  - destruct (f_major e =? IRP_MJ_READ) eqn:Qr.
    + injection G as <-. apply Z.eqb_eq in Qr. rewrite Qr. reflexivity.
    + destruct (f_major e =? IRP_MJ_WRITE); [by injection G as <- |].
      destruct (f_major e =? IRP_MJ_DELETE); [| done]. by injection G as <-.
Qed.

Lemma observe_modified `{Processes} env al r st st' evs :
  monitorModifiedFiles st = true -> observe env al r st = Ok (st', evs) ->
  monitorModifiedFiles st' = true /\ modifiedFiles st' = foldl (note_event env) (modifiedFiles st) evs.
Proof.
  intros M E. destruct r as [p| |e|e]; cbn [observe] in E.
  - unfold process_record in E. destruct (match tempP st with Some q => _ | None => _ end); [by injection E as <- <- |].
    destruct (classify p) as [[ty i] path]. destruct (negb _); [| by injection E as <- <-].
    unfold ProcessMonitor_onProcessEvent in E. destruct (ProcessManager_onProcessEvent _ _ _ _); [| done]. cbn [mbind result_bind] in E.
    destruct (convertFileObjectPathToDOSPath path); [| done]. cbn [mbind result_bind] in E.
    destruct (convertFileObjectPathToDOSPath (p_processPath p)); [| done]. cbn [mbind result_bind] in E.
    destruct (al _ _ _ _) as [[]|]; [| | done]; by injection E as <- <-.
  - by injection E as <- <-.
  - unfold registry_record in E. destruct (getProcessPath _ _ _) as [[]|]; [| done]. cbn [mbind result_bind] in E.
    destruct (al _ _ _ _) as [[]|]; [| | done]; by injection E as <- <-.
  - unfold file_record in E. destruct (getFileEventName e) as [n|] eqn:G; [| by injection E as <- <-].
    destruct (getProcessPath _ _ _) as [[process pm]|]; [| done]. cbn [mbind result_bind] in E.
    destruct (getProcessModuleName _ _ _) as [[]|]; [| done]. cbn [mbind result_bind] in E.
    destruct (negb _); [| by injection E as <- <-].
    destruct (al _ _ _ _) as [[]|]; [by injection E as <- <- | | done]. injection E as <- <-. split; [exact M |].
    cbn [with_modifiedFiles modifiedFiles foldl].
    match goal with |- note_modified env e ?path ?st1 = _ =>
      exact (note_modified_event env e n st1 (timefieldToString (f_time e)) (f_processId e) process path M G) end.
Qed.

Lemma observe_all_modified `{Processes} env al rs st st' evs :
  monitorModifiedFiles st = true -> observe_all env al rs st = Ok (st', evs) ->
  modifiedFiles st' = foldl (note_event env) (modifiedFiles st) evs.
Proof.
  revert st evs. induction rs as [|r rs IH]; intros st evs M E; cbn in E; [by injection E as <- <- |].
  destruct (observe env al r st) as [[st1 e1]|] eqn:E1; [| done]. cbn in E.
  destruct (observe_modified env al r st st1 e1 M E1) as [M1 S1].
  destruct (observe_all env al rs st1) as [[st2 e2]|] eqn:E2; [| done]. cbn in E. injection E as <- <-.
  by rewrite (IH st1 e2 M1 E2), S1, foldl_app.
Qed.

(** the event changes the file [p] *)
Definition changes (env : environment) (p : wstring) (ev : system_event) : Prop :=
  match ev with
  | FileEvent n _ _ _ q => q = p /\ isDirectory env q = false /\ n <> bs "Read"
  | _ => False
  end.

#[global] Instance changes_dec env p ev : Decision (changes env p ev).
Proof. destruct ev; cbn; apply _. Defined.

Definition deletes (ev : system_event) : bool :=
  match ev with FileEvent n _ _ _ _ => bytes_eqb n (bs "Delete") | _ => false end.

Lemma note_events_spec env evs S p :
  p ∈ foldl (note_event env) S evs <->
  match list.last (filter (changes env p) evs) with Some ev => deletes ev = false | None => p ∈ S end.
Proof.
  revert S. induction evs as [|ev evs IH]; intros S; cbn [foldl]; [done |]. rewrite IH, filter_cons.
  destruct (list.last (filter (changes env p) evs)) as [ev'|] eqn:L.
  - destruct (decide (changes env p ev)); [rewrite last_cons |]; by rewrite L.
  - destruct (decide (changes env p ev)) as [C|C]; [rewrite last_cons |]; rewrite L; destruct ev; cbn in *; try done.
    + destruct C as (-> & -> & Nr). rewrite (proj2 (bytes_eqb_neq _ _) Nr). cbn [orb].
      destruct (bytes_eqb _ _); set_solver.
    + destruct (isDirectory env path) eqn:Di; cbn [orb]; [done |].
      destruct (bytes_eqb eventType (bs "Read")) eqn:R; [done |]. apply bytes_eqb_neq in R.
      assert (path <> p) by naive_solver. destruct (bytes_eqb _ _); set_solver.
Qed.

(** Collected files: a session that starts with an empty set and monitors
    modified files copies, at its end, every file once whose last reported
    creation, opening, writing or deletion was not a deletion, and no other;
    directories are left out and the set is empty again. *)
Theorem collected_files `{Processes} env al rs st st' evs logPath :
  monitorModifiedFiles st = true -> modifiedFiles st = ∅ -> observe_all env al rs st = Ok (st', evs) ->
  modifiedFiles (copyCreatedFiles logPath st').1 = ∅ /\
  NoDup (fst <$> (snd <$> (copyCreatedFiles logPath st').2)) /\
  forall p, p ∈ (fst <$> (snd <$> (copyCreatedFiles logPath st').2)) <->
    exists ev, list.last (filter (changes env p) evs) = Some ev /\ deletes ev = false.
Proof.
  intros M S0 E. pose proof (observe_all_modified env al rs st st' evs M E) as Sf. rewrite S0 in Sf.
  assert (Q : fst <$> (snd <$> (copyCreatedFiles logPath st').2) = elements (modifiedFiles st')).
  { cbn. rewrite <- !list_fmap_compose. apply list_fmap_id. }
  split; [done |]. rewrite Q. split; [apply NoDup_elements |]. intros p. rewrite elem_of_elements, Sf, note_events_spec.
  destruct (list.last _) as [ev|]; split; [by exists ev | by intros (? & [= <-] & ?) | by intros ?%not_elem_of_empty | by intros (? & ? & _)].
Qed.

(** ** A monitor to run *)

(** escaped characters, [.*] for any rest, and literal characters *)
Fixpoint path_match (r s : wstring) : bool :=
  match r with
  | [] => match s with [] => true | _ => false end
  | c :: r' =>
    if c =? 92 then
      match r' with
      | c' :: r'' => match s with x :: s' => (x =? c') && path_match r'' s' | [] => false end
      | [] => false
      end
    else if (c =? 46) && bool_decide (head r' = Some 42) then true
    else match s with x :: s' => (x =? c) && path_match r' s' | [] => false end
  end.

#[local] Instance path_matcher : WRegex := {|
  wregex := wstring; wregex_icase s := Some s; regex_match s r := path_match r s
|}.

Lemma path_match_escaped p rest s : path_match (escaped p ++ rest) (p ++ s) = path_match rest s.
Proof.
  induction p as [|x p IH]; [done |]. unfold escaped in *. cbn [flat_map]. rewrite <- app_assoc.
  destruct (x =? 92) eqn:Q1; cbn [orb app path_match].
  - rewrite !Z.eqb_refl. exact IH.
  - destruct (x =? 46) eqn:Q2; cbn [app path_match]; [rewrite !Z.eqb_refl; exact IH |].
    rewrite Q1, Q2, Z.eqb_refl. exact IH.
Qed.

#[local] Instance path_matcher_ok : PathRegex (RX := path_matcher).
Proof.
  split.
  - exists (bs ".*"). done.
  - intros p _. exists (escaped p). split; [done |]. cbn [regex_match path_matcher].
    rewrite <- (app_nil_r (escaped p)). rewrite <- (app_nil_r p) at 2. by rewrite path_match_escaped.
  - intros p _. exists (escaped p ++ bs "\\.*"). split; [done |]. intros t. cbn [regex_match path_matcher].
    rewrite path_match_escaped. reflexivity.
Qed.

Lemma own_directories_excluded_witness :
  exists m, newFileMonitor None (bs "C:\c\logs") (bs "C:\c\temp") (bs "C:\c\CaptureClient.exe") (Some (bs "C:\c\e.log")) = Ok m /\
    isEventAllowed m (bs "Write") (bs "C:\x.exe") (bs "C:\c\temp\a.txt") = Ok true.
Proof.
  destruct (own_directories_excluded (RX := path_matcher) None (bs "C:\c\logs") (bs "C:\c\temp") (bs "C:\c\CaptureClient.exe")
    (Some (bs "C:\c\e.log")) (bs "C:\c\temp") (bs "Write") (bs "C:\x.exe") (bs "a.txt")) as (m & E & A).
  - reflexivity.
  - reflexivity.
  - reflexivity.
  - intros f [= <-]. reflexivity.
  - by right.
  - apply list_elem_of_here.
  - repeat constructor; vm_compute; done.
  - exists m. split; [exact E | exact A].
Defined.

#[local] Existing Instances Machine Machine_long.

(** a file is created and written, another created and deleted *)
Definition sample_file_records : list record :=
  (fun '(major, path) => FileEntry (mkFileEvent major 0 0 2 0 sample_time 4 path)) <$>
  [(0, bs "\Device\HarddiskVolume1\d\a"); (0, bs "\Device\HarddiskVolume1\b"); (4, bs "\Device\HarddiskVolume1\d\a");
   (153, bs "\Device\HarddiskVolume1\b")].

Definition sample_collecting : monitors := setMonitorModifiedFiles true sample_monitors.

Example sample_copies :
  exists st' evs,
    observe_all sample_environment (fun _ _ _ _ => Ok false) sample_file_records sample_collecting = Ok (st', evs) /\
    (copyCreatedFiles (bs "logs\modified_files\") st').2 =
    [(bs "logs\modified_files\C\d", (bs "C:\d\a", bs "logs\modified_files\C\d\a"))].
Proof. eexists _, _. split; [vm_compute; reflexivity | vm_compute; reflexivity]. Qed.

Lemma collected_files_witness :
  exists st' evs,
    observe_all sample_environment (fun _ _ _ _ => Ok false) sample_file_records sample_collecting = Ok (st', evs) /\
    modifiedFiles (copyCreatedFiles (bs "logs\") st').1 = ∅ /\
    NoDup (fst <$> (snd <$> (copyCreatedFiles (bs "logs\") st').2)) /\
    forall p, p ∈ (fst <$> (snd <$> (copyCreatedFiles (bs "logs\") st').2)) <->
      exists ev, list.last (filter (changes sample_environment p) evs) = Some ev /\ deletes ev = false.
Proof.
  destruct (observe_all sample_environment (fun _ _ _ _ => Ok false) sample_file_records sample_collecting)
    as [[st' evs]|f] eqn:E; [| exfalso; vm_compute in E; discriminate].
  exists st', evs. split; [reflexivity |].
  exact (collected_files sample_environment (fun _ _ _ _ => Ok false) sample_file_records sample_collecting st' evs (bs "logs\")
    eq_refl eq_refl E).
Defined.

(** a file in the root of a drive is copied into a directory of its own name *)
Example root_file_copied :
  createFilePathAndCopy (bs "logs\") (bs "C:\a") = (bs "logs\C\a", (bs "C:\a", bs "logs\C\a\a")).
Proof. vm_compute. reflexivity. Qed.

(** ** A session to run *)

#[local] Existing Instances Link Link_outbox.

(** a file below the log directory and one elsewhere are written, a process is
    created that is excluded and sets a registry value *)
Definition sample_session : list record :=
  [ProcessRecord sample_creation; ProcessesEnd;
   FileEntry (mkFileEvent 4 0 0 2 0 sample_time 100 (bs "\Device\HarddiskVolume1\c\logs\a"));
   FileEntry (mkFileEvent 4 0 0 2 0 sample_time 100 (bs "\Device\HarddiskVolume1\d\a"));
   RegistryEntry (mkRegistryEvent 1 sample_time 100 1 (bs "\REGISTRY\MACHINE\x") [])].

Definition sample_file_monitor : Monitor :=
  match newFileMonitor None (bs "C:\c\logs") (bs "C:\c\temp") (bs "C:\c\x.exe") None with Ok m => m | Fault _ => newMonitor end.

Definition sample_guard : Analyzer :=
  mkAnalyzer false false Null None (loadExclusionList newMonitor sample_exclusions)
    (loadExclusionList newMonitor None) sample_file_monitor newMonitor.

Example sample_detected :
  (fun r => r.2) <$> observe_all sample_environment (fun k => isEventAllowed (monitor_of sample_guard k)) sample_session sample_monitors =
  Ok [ProcessEvent 1 (bs "1/2/2010 3:4:5.6") 8 (bs "C:\WINDOWS\b.exe") 100 (bs "C:\WINDOWS\a.exe");
      FileEvent (bs "Write") (bs "1/2/2010 3:4:5.6") 100 (bs "C:\WINDOWS\a.exe") (bs "C:\d\a");
      RegistryEvent (bs "SetValueKey") (bs "1/2/2010 3:4:5.6") 100 (bs "C:\WINDOWS\a.exe") (bs "HKLM\x")].
Proof. vm_compute. reflexivity. Qed.

Lemma detection_witness :
  exists st' evs acts w' docs bad,
    observe_all sample_environment (fun k => isEventAllowed (monitor_of sample_guard k)) sample_session sample_monitors = Ok (st', evs) /\
    start sample_guard = Ok (with_malicious false sample_guard, acts) /\
    on_events (fun _ w => w) evs (with_malicious false sample_guard) (mkServer true false 7070 []) sample_world =
      Ok (with_malicious bad sample_guard, (mkServer true false 7070 [], w')) /\
    outbox w' = outbox sample_world ++ docs /\ Forall2 event_document evs docs.
Proof.
  destruct (detection (RX := path_matcher) (H := Machine) (fun _ w => w) sample_environment sample_exclusions None None
    (bs "C:\c\logs") (bs "C:\c\temp") (bs "C:\c\x.exe") None sample_file_monitor
    newMonitor false false Null sample_session sample_monitors (mkServer true false 7070 []) sample_world)
    as (st' & evs & acts & w' & docs & bad & E1 & _ & E2 & E3 & E4 & E5 & _).
  - vm_compute. reflexivity.
  - reflexivity.
  - intros pid p [= <-]. vm_compute. done.
  - repeat constructor; vm_compute; done.
  - reflexivity.
  - done.
  - exists st', evs, acts, w', docs, bad. split; [exact E1 |]. split; [exact E2 |]. split; [exact E3 |]. split; [exact E4 | exact E5].
Defined.
