(* ===== verification/Client.v ===== *)
(** * The Capture client and its server (CaptureClient.cpp)

    The composition of the client's listeners: what a document of the server
    does to the options, the analyzer and its monitors, the visitor and the
    connection. *)
From Stdlib Require Import ZArith Lia.
From stdpp Require Import base gmap list strings numbers.
From S2P Require Import Prelude Monitor HttpParserDef HttpParserExec WebService Url Visitor.
From S2P Require Import Element Server FileUploader Options Analyzer EventController SystemMonitors FileMonitor.

Local Open Scope Z_scope.

(** the slots connected to events of the server *)
Inductive client_slot := OptionSlot | ConnectSlot | PingSlot | VisitSlot | ExclusionSlot (k : kind).

#[global] Instance kind_eq_dec : EqDecision kind.
Proof. solve_decision. Defined.

#[global] Instance client_slot_eq_dec : EqDecision client_slot.
Proof. solve_decision. Defined.

(** The controller after the constructors of OptionsManager, CaptureClient, the
    monitors of Analyzer and Visitor have connected their slots. The file
    monitor connects its slot when the filter driver could be loaded, as here;
    a [FileUploader] connects four more slots while it sends a file, and
    [Updater] is not instantiated. *)
Definition exclusion_name (k : kind) : bytes :=
  match k with
  | ProcessKind => bs "process-exclusion"
  | RegistryKind => bs "registry-exclusion"
  | FileKind => bs "file-exclusion"
  end.

Definition connect_exclusion (k : kind) : EventController client_slot -> EventController client_slot :=
  connect_onServerEvent (exclusion_name k) (ExclusionSlot k).

Definition client_controller : EventController client_slot :=
  connect_exclusion FileKind (connect_exclusion RegistryKind (connect_exclusion ProcessKind
  (connect_onServerEvent (bs "visit-event") VisitSlot
    (connect_onServerEvent (bs "ping") PingSlot
      (connect_onServerEvent (bs "connect") ConnectSlot
        (connect_onServerEvent (bs "option") OptionSlot newController)))))).

Section Client.
Context `{RX : WRegex} `{Peer}.

Record client := mkClient {
  cl_controller : EventController client_slot;
  cl_options : OptionsManager;
  cl_analyzer : Analyzer;
  cl_visitor : Visitor;
  cl_server : Server;
}.

Definition with_controller (ec : EventController client_slot) (c : client) : client :=
  mkClient ec (cl_options c) (cl_analyzer c) (cl_visitor c) (cl_server c).
Definition with_server (s : Server) (c : client) : client :=
  mkClient (cl_controller c) (cl_options c) (cl_analyzer c) (cl_visitor c) s.

Definition onServerConnectEvent (e : Element) (c : client) (w : sworld) : result (client * sworld) :=
  if bytes_eqb (name e) (bs "connect") then
    let attributes := [mkAttribute (bs "vm-server-id") (getOption (cl_options c) (bs "vm-server-id"));
                       mkAttribute (bs "vm-id") (getOption (cl_options c) (bs "vm-id"))] in
    sw ← sendXML (if reconnecting (cl_server c) then bs "reconnect" else bs "connect") attributes (cl_server c) w;
    Ok (with_server sw.1 c, sw.2)
  else Ok (c, w).

Definition onServerPingEvent (e : Element) (c : client) (w : sworld) : result (client * sworld) :=
  if bytes_eqb (name e) (bs "ping") then
    sw ← sendXML (bs "pong") [] (cl_server c) w;
    Ok (with_server sw.1 c, sw.2)
  else Ok (c, w).

(** the analyzer with another monitor of a kind *)
Definition set_monitor (k : kind) (m : Monitor) (a : Analyzer) : Analyzer :=
  match k with
  | ProcessKind => with_monitors m (registryMonitor a) (fileMonitor a) (networkMonitor a) a
  | RegistryKind => with_monitors (processMonitor a) m (fileMonitor a) (networkMonitor a) a
  | FileKind => with_monitors (processMonitor a) (registryMonitor a) m (networkMonitor a) a
  end.

Definition onExclusionReceived (k : kind) : Element -> Monitor -> result Monitor :=
  match k with
  | ProcessKind => onProcessExclusionReceived
  | RegistryKind => onRegistryExclusionReceived
  | FileKind => onFileExclusionReceived
  end.

(** the call of a slot *)
Definition call_slot (s : client_slot) (e : Element) (c : client) (w : sworld) : result (client * sworld) :=
  match s with
  | OptionSlot =>
    let '(om, signalled) := onOptionEvent e (cl_options c) in
    r ← options_changed om signalled (cl_analyzer c);
    Ok (mkClient (cl_controller c) om r.1 (cl_visitor c) (cl_server c), w)
  | ConnectSlot => onServerConnectEvent e c w
  | PingSlot => onServerPingEvent e c w
  | VisitSlot =>
    v ← onServerEvent e (cl_visitor c);
    Ok (mkClient (cl_controller c) (cl_options c) (cl_analyzer c) v (cl_server c), w)
  | ExclusionSlot k =>
    m ← onExclusionReceived k e (monitor_of (cl_analyzer c) k);
    Ok (mkClient (cl_controller c) (cl_options c) (set_monitor k m (cl_analyzer c)) (cl_visitor c) (cl_server c), w)
  end.

Fixpoint call_slots (l : list (client_slot * Element)) (c : client) (w : sworld) : result (client * sworld) :=
  match l with
  | [] => Ok (c, w)
  | (s, e) :: l' => r ← call_slot s e c w; call_slots l' r.1 r.2
  end.

(** a document of the server *)
Definition client_receive (ndebug : bool) (parseString : bytes -> list sax_event) (d : bytes)
  (c : client) (w : sworld) : result (client * sworld) :=
  r ← receiveServerEvent ndebug parseString d (cl_controller c);
  call_slots r.2 (with_controller r.1 c) w.

Fixpoint client_receive_all (ndebug : bool) (parseString : bytes -> list sax_event) (docs : list bytes)
  (c : client) (w : sworld) : result (client * sworld) :=
  match docs with
  | [] => Ok (c, w)
  | d :: docs' => r ← client_receive ndebug parseString d c w; client_receive_all ndebug parseString docs' r.1 r.2
  end.

(** ** The dialogue, as the server sees it *)

(** the documents a server sends: the values of an option, of a visit with its
    items and of an exclusion, and the rest *)
Inductive server_doc :=
  | DocOption (o v : bytes)
  | DocConnect (atts : list (bytes * bytes)) (content : list xml)
  | DocPing (atts : list (bytes * bytes)) (content : list xml)
  | DocVisit (ident prog time : bytes) (items : list bytes)
  | DocExclusion (k : kind) (excluded action subject object : bytes)
  | DocOther (n : bytes) (atts : list (bytes * bytes)) (content : list xml).

Definition item_xml (u : bytes) : xml := Node (bs "item") [(bs "url", u)] [].

Definition doc_xml (d : server_doc) : xml :=
  match d with
  | DocOption o v => Node (bs "option") [(bs "name", o); (bs "value", v)] []
  | DocConnect atts content => Node (bs "connect") atts content
  | DocPing atts content => Node (bs "ping") atts content
  | DocVisit i p t items =>
    Node (bs "visit-event") [(bs "identifier", i); (bs "program", p); (bs "time", t)] (item_xml <$> items)
  | DocExclusion k ex ac su ob =>
    Node (exclusion_name k) [(bs "excluded", ex); (bs "action", ac); (bs "subject", su); (bs "object", ob)] []
  | DocOther n atts content => Node n atts content
  end.

(** the names some slot is connected to *)
Definition heard : list bytes :=
  [bs "option"; bs "connect"; bs "ping"; bs "visit-event"; bs "process-exclusion"; bs "registry-exclusion";
   bs "file-exclusion"].

(** what the documents change: the options, whether packets are captured and
    modified files collected, the visits to come, the exclusion rules of the
    monitors, and what is sent *)
Record dialogue := mkDialogue {
  d_options : gmap wstring wstring;
  d_capture : bool;
  d_collect : bool;
  d_visits : list VisitEvent;
  d_rules : kind -> list (wstring * Permission);
  d_sent : list bytes;
}.

Definition add_rule (k : kind) (r : option (wstring * Permission)) (R : kind -> list (wstring * Permission)) (j : kind) : list (wstring * Permission) :=
  R j ++ (if decide (j = k) then option_list r else []).

(** the answer to a connect *)
Definition connect_answer (reconnecting : bool) (om : gmap wstring wstring) : list bytes :=
  match xml_document (if reconnecting then bs "reconnect" else bs "connect")
          [mkAttribute (bs "vm-server-id") (default [] (om !! bs "vm-server-id"));
           mkAttribute (bs "vm-id") (default [] (om !! bs "vm-id"))] with
  | Ok t => [utf8 t]
  | Fault _ => []
  end.

(** the texts of the items, percent-decoded *)
Fixpoint decoded (items : list bytes) : option (list wstring) :=
  match items with
  | [] => Some []
  | u :: us =>
    match decode u, decoded us with Ok d, Some ds => Some (d :: ds) | _, _ => None end
  end.

(** The effect of a document; [None] where the client dies of an exception: a
    time that is no number, a URL that cannot be decoded, an expression that
    does not compile. *)
Definition doc_effect (reconnecting : bool) (d : server_doc) (v : dialogue) : option dialogue :=
  match d with
  | DocOption o val =>
    if bytes_eqb o [] || bytes_eqb val [] then Some v
    else Some (mkDialogue (<[o := val]> (d_options v))
                 (d_capture v || capture_option o && bytes_eqb val (bs "true"))
                 (if bytes_eqb o (bs "collect-modified-files") then bytes_eqb val (bs "true") else d_collect v)
                 (d_visits v) (d_rules v) (d_sent v))
  | DocConnect _ _ =>
    Some (mkDialogue (d_options v) (d_capture v) (d_collect v) (d_visits v) (d_rules v)
            (d_sent v ++ connect_answer reconnecting (d_options v)))
  | DocPing _ _ =>
    Some (mkDialogue (d_options v) (d_capture v) (d_collect v) (d_visits v) (d_rules v)
            (d_sent v ++ [utf8 (bs "<pong/>" ++ [13; 10])]))
  | DocVisit i p t items =>
    match lexical_cast_int t, decoded items with
    | Ok t, Some ds =>
      Some (mkDialogue (d_options v) (d_capture v) (d_collect v)
              (d_visits v ++ match ds with
                             | [] => []
                             | _ => [mkVisitEvent i p ((fun d => newUrl d p t) <$> ds)]
                             end) (d_rules v) (d_sent v))
    | _, _ => None
    end
  | DocExclusion k ex ac su ob =>
    match rule_of ex ac su ob false with
    | Some r => Some (mkDialogue (d_options v) (d_capture v) (d_collect v) (d_visits v)
                        (add_rule k (Some r) (d_rules v)) (d_sent v))
    | None => None
    end
  | DocOther _ _ _ => Some v
  end.

Fixpoint dialogue_effect (reconnecting : bool) (l : list server_doc) (v : dialogue) : option dialogue :=
  match l with
  | [] => Some v
  | d :: l' => match doc_effect reconnecting d v with
               | Some v' => dialogue_effect reconnecting l' v'
               | None => None
               end
  end.

(** the option that clears the exclusion lists is not among the documents, and
    other documents have other names *)
Definition doc_ok (d : server_doc) : Prop :=
  match d with
  | DocOption o v => ~ (o = bs "send-exclusion-lists" /\ v = bs "true")
  | DocOther n _ _ => n ∉ heard
  | _ => True
  end.
End Client.

Section Dialogue.
Context `{RX : WRegex} `{OB : Outbox}.

(** the client shows what the dialogue says *)
Record shows (rc : bool) (c : client) (w : sworld) (v : dialogue) : Prop := {
  sh_controller : cl_controller c = client_controller;
  sh_options : optionsMap (cl_options c) = d_options v;
  sh_analyzer : analyzer_weak (cl_analyzer c);
  sh_capture : captureNetworkPackets (cl_analyzer c) = d_capture v;
  sh_collect : collectModifiedFiles (cl_analyzer c) = d_collect v;
  sh_visits : toVisit (cl_visitor c) = d_visits v;
  sh_rules : forall k, monitor_inv (monitor_of (cl_analyzer c) k) /\
                       denotes (monitor_of (cl_analyzer c) k) (d_rules v k);
  sh_sent : outbox w = d_sent v;
  sh_connected : connected (cl_server c) = true;
  sh_reconnecting : reconnecting (cl_server c) = rc;
}.

(** the slots of a name *)
Definition slot_of (n : bytes) : option client_slot :=
  if bytes_eqb n (bs "option") then Some OptionSlot
  else if bytes_eqb n (bs "connect") then Some ConnectSlot
  else if bytes_eqb n (bs "ping") then Some PingSlot
  else if bytes_eqb n (bs "visit-event") then Some VisitSlot
  else if bytes_eqb n (bs "process-exclusion") then Some (ExclusionSlot ProcessKind)
  else if bytes_eqb n (bs "registry-exclusion") then Some (ExclusionSlot RegistryKind)
  else if bytes_eqb n (bs "file-exclusion") then Some (ExclusionSlot FileKind)
  else None.

Lemma client_slots n :
  default [] (onServerEventMap client_controller !! n) =
    match slot_of n with Some s => [s] | None => [] end.
Proof.
  unfold client_controller, connect_exclusion, exclusion_name. rewrite !connect_slots. unfold slot_of.
  rewrite !(bytes_eqb_sym n). cbn [newController onServerEventMap]. rewrite lookup_empty. cbn [default].
  repeat match goal with
  | |- context [bytes_eqb ?x n] => let Q := fresh in destruct (bytes_eqb x n) eqn:Q;
      [apply bytes_eqb_eq in Q; subst n; vm_compute; reflexivity |]
  end. done.
Qed.

Lemma slot_of_other n : n ∉ heard -> slot_of n = None.
Proof.
  unfold heard, slot_of. intros N.
  repeat match goal with
  | |- context [bytes_eqb n ?x] => let Q := fresh in destruct (bytes_eqb n x) eqn:Q;
      [apply bytes_eqb_eq in Q; subst n; exfalso; apply N; set_solver |]
  end. done.
Qed.

(** a document reaches the slot of its name *)
Lemma client_receive_slot ndebug parseString d n atts content c w :
  parseString d = events (Node n atts content) -> deliverable (Node n atts content) ->
  cl_controller c = client_controller ->
  client_receive ndebug parseString d c w =
    match slot_of n with
    | Some s => call_slot s (element_of (Node n atts content)) c w
    | None => Ok (c, w)
    end.
Proof.
  intros P [Nn D] C. unfold client_receive, receiveServerEvent. rewrite P, C.
  change client_controller with (with_current None client_controller).
  rewrite root_delivered by done. cbn [mbind result_bind fst snd].
  change (with_current None client_controller) with client_controller. rewrite <- C.
  replace (with_controller (cl_controller c) c) with c by (by destruct c).
  rewrite C, client_slots. destruct (slot_of n); cbn [fmap list_fmap call_slots]; [| done].
  destruct (call_slot _ _ c w) as [[]|]; done.
Qed.

Lemma onOptionChanged_monitors om o a a' acts :
  clears om o = false -> onOptionChanged om o a = Ok (a', acts) -> forall k, monitor_of a' k = monitor_of a k.
Proof.
  unfold onOptionChanged, clears. intros Cl E k.
  destruct (capture_option o).
  - destruct (is_true _); [injection E as <- _; by destruct k |].
    destruct (negb _ && negb _ && negb _); [| by injection E as <- _].
    destruct (networkPacketDumper a); cbn in E; [| | done]; injection E as <- _; by destruct k.
  - destruct (bytes_eqb o (bs "collect-modified-files")); [injection E as <- _; by destruct k |].
    destruct (bytes_eqb o _); [cbn in Cl; rewrite Cl in E |]; by injection E as <- _.
Qed.

Lemma option_shows rc o val c w v :
  shows rc c w v -> doc_ok (DocOption o val) ->
  exists r v', call_slot OptionSlot (element_of (doc_xml (DocOption o val))) c w = Ok r /\
    doc_effect rc (DocOption o val) v = Some v' /\ shows rc r.1 r.2 v'.
Proof.
  intros S Nc. pose proof S as []. cbn [call_slot doc_effect]. unfold onOptionEvent.
  change (name (element_of (doc_xml (DocOption o val)))) with (bs "option"). rewrite bytes_eqb_refl.
  change (attributes (element_of (doc_xml (DocOption o val)))) with [mkAttribute (bs "name") o; mkAttribute (bs "value") val].
  change (last_attribute (bs "name") _) with o. change (last_attribute (bs "value") _) with val.
  destruct (bytes_eqb o []) eqn:Eo; cbn [negb andb orb].
  { exists (c, w), v. split; [by destruct c | by split]. }
  destruct (bytes_eqb val []) eqn:Ev; cbn [negb].
  { exists (c, w), v. split; [by destruct c | by split]. }
  rewrite addOption_spec. set (om := mkOptions (<[o := val]> (optionsMap (cl_options c)))).
  assert (G : getOption om o = val) by (unfold om; rewrite getOption_add; by rewrite bytes_eqb_refl).
  assert (Cl : clears om o = false).
  { unfold clears, is_true. rewrite G. destruct (bytes_eqb o (bs "send-exclusion-lists")) eqn:Q1; [| done]. apply bytes_eqb_eq in Q1.
    destruct (bytes_eqb val (bs "true")) eqn:Q2; [| done]. apply bytes_eqb_eq in Q2. by destruct Nc. }
  cbn [options_changed].
  destruct (onOptionChanged_spec om o (cl_analyzer c) sh_analyzer0 Cl) as (a' & acts & E & W & Ca & _ & Co & _).
  rewrite E. cbn [mbind result_bind fst snd]. eexists _, _. split; [done |]. split; [done |].
  split; cbn; try done.
  - by rewrite sh_options0.
  - rewrite Ca, sh_capture0. unfold captures, is_true. by rewrite G.
  - rewrite Co. unfold is_true. by rewrite G, sh_collect0.
  - intros k. rewrite (onOptionChanged_monitors om o _ _ _ Cl E k). apply sh_rules0.
Qed.

Lemma answer_shows rc c w w' v texts :
  shows rc c w v -> outbox w' = outbox w ++ texts ->
  shows rc (with_server (cl_server c) c) w'
    (mkDialogue (d_options v) (d_capture v) (d_collect v) (d_visits v) (d_rules v) (d_sent v ++ texts)).
Proof. intros [] O. destruct c. split; cbn in *; try done. by rewrite O, sh_sent0. Qed.

Lemma connect_shows rc atts content c w v :
  shows rc c w v ->
  exists r v', call_slot ConnectSlot (element_of (doc_xml (DocConnect atts content))) c w = Ok r /\
    doc_effect rc (DocConnect atts content) v = Some v' /\ shows rc r.1 r.2 v'.
Proof.
  intros S. pose proof S as []. cbn [call_slot doc_effect]. unfold onServerConnectEvent.
  replace (name (element_of (doc_xml (DocConnect atts content)))) with (bs "connect")
    by (cbn [doc_xml element_of]; by rewrite absorb_name).
  rewrite bytes_eqb_refl, sh_reconnecting0. unfold connect_answer, getOption. rewrite sh_options0.
  set (n := if rc then _ else _). set (l := [_; _]).
  destruct (sendXML_sent n l (cl_server c) w sh_connected0) as (t & w' & -> & -> & O).
  cbn [mbind result_bind fst snd]. eexists _, _. split; [done |]. split; [done |]. by apply (answer_shows rc c w).
Qed.

Lemma ping_shows rc atts content c w v :
  shows rc c w v ->
  exists r v', call_slot PingSlot (element_of (doc_xml (DocPing atts content))) c w = Ok r /\
    doc_effect rc (DocPing atts content) v = Some v' /\ shows rc r.1 r.2 v'.
Proof.
  intros S. pose proof S as []. cbn [call_slot doc_effect]. unfold onServerPingEvent.
  replace (name (element_of (doc_xml (DocPing atts content)))) with (bs "ping")
    by (cbn [doc_xml element_of]; by rewrite absorb_name).
  rewrite bytes_eqb_refl.
  destruct (sendXML_sent (bs "pong") [] (cl_server c) w sh_connected0) as (t & w' & E & -> & O).
  injection E as <-. cbn [mbind result_bind fst snd]. eexists _, _. split; [done |]. split; [done |].
  by apply (answer_shows rc c w).
Qed.

(** the children of an element without text *)
Lemma absorb_items items e :
  fold_left (absorb element_of) (item_xml <$> items) e =
    mkElement (name e) (attributes e) (data e)
      (childElements e ++ ((fun u => mkElement (bs "item") [mkAttribute (bs "url") u] [] []) <$> items)).
Proof.
  revert e. induction items as [|u items IH]; intros e; cbn [fmap list_fmap fold_left].
  - rewrite app_nil_r. by destruct e.
  - rewrite IH. cbn. by rewrite <- app_assoc.
Qed.

Lemma visit_urls_items t p items ds :
  decoded items = Some ds ->
  visit_urls t p ((fun u => mkElement (bs "item") [mkAttribute (bs "url") u] [] []) <$> items) =
    Ok ((fun d => newUrl d p t) <$> ds).
Proof.
  revert ds. induction items as [|u items IH]; intros ds E; cbn [decoded] in E; [by injection E as <- |].
  destruct (decode u) as [d|] eqn:Ed; [| done]. destruct (decoded items) as [ds'|]; [| done]. injection E as <-.
  rewrite fmap_cons. cbn [visit_urls name attributes].
  change (bytes_eqb (bs "item") (bs "item")) with true. cbv iota. unfold createUrl.
  change (url_attributes [mkAttribute (bs "url") u] [] [] 0) with (Ok (u, @nil Z, 0)). cbn [mbind result_bind].
  rewrite Ed. cbn [mbind result_bind]. by rewrite (IH ds').
Qed.

Lemma visit_shows rc i p t items c w v v' :
  shows rc c w v -> doc_effect rc (DocVisit i p t items) v = Some v' ->
  exists r, call_slot VisitSlot (element_of (doc_xml (DocVisit i p t items))) c w = Ok r /\ shows rc r.1 r.2 v'.
Proof.
  intros [] E. cbn [doc_effect] in E. destruct (lexical_cast_int t) as [n|] eqn:Et; [| done].
  destruct (decoded items) as [ds|] eqn:Ed; [| done]. injection E as <-.
  cbn [call_slot doc_xml element_of]. rewrite absorb_items. unfold onServerEvent, visit_of.
  cbn [name attributes childElements data app]. change (bytes_eqb (bs "visit-event") (bs "visit-event")) with true.
  cbv iota. unfold getAttributeValue. cbn [attributes].
  change (attribute_value (attributes_of _) (bs "time")) with t.
  change (attribute_value (attributes_of _) (bs "program")) with p.
  change (attribute_value (attributes_of _) (bs "identifier")) with i.
  rewrite Et. cbn [mbind result_bind]. rewrite (visit_urls_items _ _ _ _ Ed). cbn [mbind result_bind urls].
  destruct ds as [|d ds]; cbn [fmap list_fmap length Nat.ltb Nat.leb mbind result_bind]; (eexists; split; [done |]);
    split; cbn; rewrite ?app_nil_r; try done. by rewrite sh_visits0.
Qed.

Lemma exclusion_shows rc k ex ac su ob c w v v' :
  shows rc c w v -> doc_effect rc (DocExclusion k ex ac su ob) v = Some v' ->
  exists r, call_slot (ExclusionSlot k) (element_of (doc_xml (DocExclusion k ex ac su ob))) c w = Ok r /\
    shows rc r.1 r.2 v'.
Proof.
  intros [] E. cbn [doc_effect] in E. destruct (rule_of ex ac su ob false) as [r|] eqn:Er; [| done].
  injection E as <-. cbn [call_slot].
  assert (onExclusionReceived k = exclusion_received) as -> by (by destruct k).
  unfold exclusion_received, add_exclusion.
  change (attributes (element_of (doc_xml (DocExclusion k ex ac su ob)))) with
    [mkAttribute (bs "excluded") ex; mkAttribute (bs "action") ac; mkAttribute (bs "subject") su; mkAttribute (bs "object") ob].
  change (last_attribute (bs "excluded") _) with ex. change (last_attribute (bs "action") _) with ac.
  change (last_attribute (bs "subject") _) with su. change (last_attribute (bs "object") _) with ob.
  destruct (sh_rules0 k) as [I D].
  destruct (addExclusion_spec _ _ ex ac su ob false I D) as (I' & D' & T). rewrite Er in D', T.
  destruct (addExclusion _ ex ac su ob false) as [m thrown]. cbn in I', D', T.
  destruct thrown; [by pose proof (proj1 T eq_refl) |]. cbn [mbind result_bind]. eexists. split; [done |].
  split; cbn; try done; try (by destruct k).
  intros j. unfold add_rule. destruct (decide (j = k)) as [-> | N].
  - replace (monitor_of (set_monitor k m (cl_analyzer c)) k) with m by (by destruct k). by split.
  - rewrite app_nil_r. replace (monitor_of (set_monitor k m (cl_analyzer c)) j) with (monitor_of (cl_analyzer c) j)
      by (by destruct j, k). apply sh_rules0.
Qed.

Lemma document_shows rc ndebug parseString b d c w v v' :
  parseString b = events (doc_xml d) -> deliverable (doc_xml d) -> doc_ok d ->
  shows rc c w v -> doc_effect rc d v = Some v' ->
  exists r, client_receive ndebug parseString b c w = Ok r /\ shows rc r.1 r.2 v'.
Proof.
  intros P D K S E. pose proof (sh_controller _ _ _ _ S) as C.
  destruct d as [o val | atts content | atts content | i p t items | k ex ac su ob | n atts content].
  - cbn [doc_xml] in P, D. rewrite (client_receive_slot _ _ _ _ _ _ _ _ P D C).
    destruct (option_shows rc o val c w v S K) as (r & v1 & R & E1 & S1).
    rewrite E in E1. injection E1 as <-. exists r. split; [exact R | done].
  - cbn [doc_xml] in P, D. rewrite (client_receive_slot _ _ _ _ _ _ _ _ P D C).
    destruct (connect_shows rc atts content c w v S) as (r & v1 & R & E1 & S1).
    rewrite E in E1. injection E1 as <-. exists r. split; [exact R | done].
  - cbn [doc_xml] in P, D. rewrite (client_receive_slot _ _ _ _ _ _ _ _ P D C).
    destruct (ping_shows rc atts content c w v S) as (r & v1 & R & E1 & S1).
    rewrite E in E1. injection E1 as <-. exists r. split; [exact R | done].
  - cbn [doc_xml] in P, D. rewrite (client_receive_slot _ _ _ _ _ _ _ _ P D C).
    destruct (visit_shows rc i p t items c w v v' S E) as (r & R & S1). exists r. split; [exact R | done].
  - cbn [doc_xml] in P, D. rewrite (client_receive_slot _ _ _ _ _ _ _ _ P D C).
    destruct (exclusion_shows rc k ex ac su ob c w v v' S E) as (r & R & S1). exists r. split; [| done].
    destruct k; exact R.
  - cbn [doc_xml] in P, D. rewrite (client_receive_slot _ _ _ _ _ _ _ _ P D C), slot_of_other by done.
    injection E as <-. by exists (c, w).
Qed.

(** C18: The dialogue with the server.  While the connection lasts and no file
    is being uploaded, with the driver of the file monitor loaded, let the
    server send documents that expat reads as trees in which no element has
    the name of its parent: options (except send-exclusion-lists set to true),
    connects, pings, visits whose items have nothing but a URL, exclusions, and
    documents with other root names.  Then the client does to itself and sends
    what the dialogue says, in this order: an option with a name and a value is
    set, a capture option set to true switches capturing on,
    collect-modified-files is what it was last set to; a connect is answered
    with the ids of the machine as they are then, a ping with one pong; a
    visit with at least one item is appended to the visits with the decoded
    URLs, its program and its time; an exclusion becomes one more rule of the
    monitor it names; every other document changes nothing and sends nothing.
    The dialogue is undefined where the client dies of an exception: a visit
    time that is no number, a URL that cannot be decoded, an exclusion whose
    regular expression does not compile. *)
Theorem server_dialogue rc ndebug parseString docs l c w v v' :
  Forall2 (fun b d => parseString b = events (doc_xml d)) docs l ->
  Forall (fun d => deliverable (doc_xml d) /\ doc_ok d) l ->
  shows rc c w v -> dialogue_effect rc l v = Some v' ->
  exists c' w', client_receive_all ndebug parseString docs c w = Ok (c', w') /\ shows rc c' w' v'.
Proof.
  intros F. revert c w v. induction F as [|b d docs l P F IH]; intros c w v D S E.
  { injection E as <-. by exists c, w. }
  apply list.Forall_cons in D as [[Dd K] D]. cbn [client_receive_all dialogue_effect] in *.
  destruct (doc_effect rc d v) as [v1|] eqn:E1; [| done].
  destruct (document_shows rc ndebug parseString b d c w v v1 P Dd K S E1) as ([c1 w1] & -> & S1).
  cbn [mbind result_bind fst snd] in *. by apply (IH c1 w1 v1).
Qed.
End Dialogue.

(** ** A client to run *)

#[local] Existing Instances Link literal_regex.

Definition sample_client : client :=
  mkClient client_controller sample_options sample_analyzer empty_visitor (mkServer true false 7070 []).

Definition sample_docs : list server_doc :=
  [DocOption (bs "capture-network-packets") (bs "true"); DocPing [] []; DocVisit (bs "1") (bs "reader") (bs "30") [bs "http%3A%2F%2Fa"];
   DocExclusion FileKind (bs "+") (bs "write") (bs "a") (bs "b"); DocOther (bs "unknown") [] []].

(** the document [k] stands for the sample [k] *)
Definition client_parse (b : bytes) : list sax_event :=
  match b with
  | [k] => match sample_docs !! Z.to_nat k with Some d => events (doc_xml d) | None => [] end
  | _ => []
  end.

Definition sample_dialogue : dialogue :=
  mkDialogue (optionsMap sample_options) (captureNetworkPackets sample_analyzer) (collectModifiedFiles sample_analyzer)
    [] (fun _ => []) [].

Lemma sample_shows : shows (OB := Link_outbox) false sample_client sample_world sample_dialogue.
Proof.
  split; try done.
  - vm_compute. first [by left | by right].
  - intros k. assert (monitor_of (cl_analyzer sample_client) k = newMonitor) as -> by (by destruct k).
    split; [apply newMonitor_inv | apply newMonitor_denotes].
Qed.

Lemma server_dialogue_witness :
  exists v' c' w', dialogue_effect false sample_docs sample_dialogue = Some v' /\
    client_receive_all true client_parse [[0]; [1]; [2]; [3]; [4]] sample_client sample_world = Ok (c', w') /\
    shows (OB := Link_outbox) false c' w' v' /\ d_sent v' = [bs "<pong/>" ++ [13; 10]] /\
    d_capture v' = true /\ length (d_visits v') = 1%nat /\ length (d_rules v' FileKind) = 1%nat.
Proof.
  assert (X : (fun v => (d_sent v, d_capture v, length (d_visits v), length (d_rules v FileKind))) <$>
    dialogue_effect false sample_docs sample_dialogue = Some ([bs "<pong/>" ++ [13; 10]], true, 1%nat, 1%nat))
    by (vm_compute; reflexivity).
  destruct (dialogue_effect false sample_docs sample_dialogue) as [v'|] eqn:E; [| discriminate X].
  destruct (server_dialogue (OB := Link_outbox) false true client_parse [[0]; [1]; [2]; [3]; [4]] sample_docs
    sample_client sample_world sample_dialogue v') as (c' & w' & R & S).
  - repeat (constructor; [reflexivity |]). constructor.
  - repeat (apply Forall_cons_2; [split; [split; [discriminate | vm_compute; reflexivity] |] |]); [..| apply Forall_nil_2].
    + cbn [doc_ok]. intros [? _]. discriminate.
    + exact I.
    + exact I.
    + exact I.
    + cbn [doc_ok]. apply (bool_decide_unpack _). vm_compute. exact I.
  - exact sample_shows.
  - exact E.
  - exists v', c', w'. split; [done |]. split; [exact R |]. split; [exact S |].
    cbn [fmap option_fmap option_map] in X. injection X as X1 X2 X3 X4.
    split; [exact X1 |]. split; [exact X2 |]. split; [exact X3 | exact X4].
Defined.
