(* ===== verification/EventList.v ===== *)
(** * The event list the connection driver shares with the client

    Driver (KernelDrivers/.../Common/EventList.c) and client (EventList.h,
    NetworkMonitor.cpp) use one block of memory: the driver reserves blocks in a
    bitmap and links events into a list of offsets, the client takes events off
    the head and clears the bits of their blocks. Here: the bitmap of blocks as
    both sides see it, and the list. *)
From Stdlib Require Import ZArith Lia.
From stdpp Require Import base gmap list strings numbers.
From S2P Require Import Prelude PacketDef.

Local Open Scope Z_scope.

Definition BLOCK_SIZE : Z := 16.
Definition BUFFER_SIZE : Z := 512 * 1024.

(** ** The layouts of [struct _Buffer] *)

(** offsets of the client's version: SizeOfBitMap, Buffer, bitmap_hint_index *)
Definition client_SizeOfBitMap : nat := 0.
Definition client_bitmap : nat := 12.
Definition client_buffer : Z := 12 + 4096.

(** offsets of the driver's version, which has the spin lock [bitmap_lock]
    after the bitmap header *)
Definition driver_hint : nat := 12.
Definition driver_bitmap : nat := 16.
Definition driver_buffer : Z := 16 + 4096.

(** ALIGN_UP(length, Block) *)
Definition ALIGN_UP (length : Z) : Z := Z.land (u32 (length + BLOCK_SIZE - 1)) (u32 (Z.lnot (BLOCK_SIZE - 1))).

(** [~(~(0xFF << count) << shift)] *)
Definition clear_mask (count shift : Z) : Z := Z.lnot (Z.shiftl (Z.lnot (Z.shiftl 255 count)) shift).

(** the while loop; one turn per byte of the bitmap, of which there are fewer
    than bits *)
Fixpoint clear_loop (fuel : nat) (mem : bytes) (position : nat) (index bits : Z) : result bytes :=
  if bits =? 0 then Ok mem
  else match fuel with
  | O => Fault OutOfFuel
  | S fuel' =>
    let shift := Z.land index 7 in
    let count := if 8 - shift <? bits then 8 - shift else bits in
    match mem !! position with
    | None => Fault OutOfBoundsWrite
    | Some b =>
      clear_loop fuel' (<[position := u8 (Z.land b (clear_mask count shift))]> mem) (S position)
        (index + count) (bits - count)
    end
  end.

(** BufferClearBits; [data] is the offset of the block from the buffer *)
Definition BufferClearBits (mem : bytes) (data size : Z) : result bytes :=
  bitmap_size ← read_le32 mem client_SizeOfBitMap;
  let bits := ALIGN_UP size / BLOCK_SIZE in
  let index := u32 (data - client_buffer) / BLOCK_SIZE in
  if (bitmap_size <=? index) || (bits =? 0) then Ok mem
  else
    let bits := if bitmap_size <? index + bits then bitmap_size - index else bits in
    clear_loop (Z.to_nat bits) mem (client_bitmap + Z.to_nat (index / 8)) index bits.

(** ** Bits *)

(** bit [j] of the bitmap at [base] *)
Definition bit (mem : bytes) (base : nat) (j : Z) : bool :=
  Z.testbit (default 0 (mem !! (base + Z.to_nat (j / 8))%nat)) (j mod 8).

Lemma clear_mask_bit b count shift i :
  0 <= i < 8 -> 0 <= shift -> 0 < count -> shift + count <= 8 ->
  Z.testbit (u8 (Z.land b (clear_mask count shift))) i =
  Z.testbit b i && negb ((shift <=? i) && (i <? shift + count)).
Proof.
  intros Hi Hs Hc Hsc. unfold u8. change 256 with (2 ^ 8). rewrite Z.mod_pow2_bits_low by lia.
  rewrite Z.land_spec. f_equal. unfold clear_mask. rewrite Z.lnot_spec by lia.
  rewrite Z.shiftl_spec by lia. destruct (Z.leb_spec shift i) as [L|G]; cbn [andb negb].
  - rewrite Z.lnot_spec by lia. rewrite negb_involutive, Z.shiftl_spec by lia.
    destruct (Z.ltb_spec i (shift + count)); cbn [negb].
    + by rewrite Z.testbit_neg_r by lia.
    + change 255 with (Z.ones 8). rewrite Z.ones_spec_low by lia. done.
  - by rewrite Z.testbit_neg_r by lia.
Qed.

Lemma land_7 x : 0 <= x -> Z.land x 7 = x mod 8.
Proof. intros. change 7 with (Z.ones 3). rewrite Z.land_ones by lia. done. Qed.

(** a byte of the bitmap and its bits *)
Lemma bit_insert mem base position b j :
  (position < length mem)%nat -> 0 <= j ->
  bit (<[position := b]> mem) base j =
  if bool_decide (position = (base + Z.to_nat (j / 8))%nat) then Z.testbit b (j mod 8) else bit mem base j.
Proof.
  intros L Hj. unfold bit. case_bool_decide as D.
  - subst position. by rewrite list_lookup_insert_eq.
  - by rewrite list_lookup_insert_ne.
Qed.

Lemma clear_loop_spec fuel : forall mem base index bits,
  0 <= index -> 0 <= bits -> (Z.to_nat bits <= fuel)%nat ->
  bits = 0 \/ (base + Z.to_nat ((index + bits - 1) / 8) < length mem)%nat ->
  exists mem', clear_loop fuel mem (base + Z.to_nat (index / 8)) index bits = Ok mem' /\ length mem' = length mem /\
    forall j, 0 <= j -> bit mem' base j = bit mem base j && negb ((index <=? j) && (j <? index + bits)).
Proof.
  induction fuel as [|fuel IH]; intros mem base index bits Hi Hb Hf Hl; cbn [clear_loop];
    destruct (Z.eqb_spec bits 0) as [->|Nb].
  1, 3: exists mem; split_and!; [done | done |]; intros j Hj; rewrite Z.add_0_r;
    destruct (Z.leb_spec index j), (Z.ltb_spec j index); cbn; try lia; by rewrite andb_true_r.
  { lia. }
  destruct Hl as [? | Hl]; [done |]. rewrite land_7 by done. set (shift := index mod 8).
  assert (Bs : 0 <= shift < 8) by (apply Z.mod_pos_bound; lia).
  assert (Di : index = 8 * (index / 8) + shift) by (apply Z.div_mod; lia).
  set (count := if 8 - shift <? bits then 8 - shift else bits).
  assert (Bc : 0 < count <= bits /\ shift + count <= 8 /\ (count = bits \/ shift + count = 8)).
  { unfold count. destruct (Z.ltb_spec (8 - shift) bits); lia. }
  assert (Lp : (base + Z.to_nat (index / 8) < length mem)%nat).
  { assert (index / 8 <= (index + bits - 1) / 8) by (apply Z.div_le_mono; lia). lia. }
  destruct (lookup_lt_is_Some_2 mem _ Lp) as [b Eb]. rewrite Eb.
  set (mem1 := <[_ := _]> mem).
  assert (B1 : forall j, 0 <= j -> bit mem1 base j = bit mem base j && negb ((index <=? j) && (j <? index + count))).
  { intros j Hj. unfold mem1. rewrite bit_insert by done. pose proof (Z.div_mod j 8 ltac:(lia)) as Dj.
    pose proof (Z.mod_pos_bound j 8 ltac:(lia)) as Bj. case_bool_decide as D.
    - assert (Q : j / 8 = index / 8) by (assert (0 <= j / 8) by (apply Z.div_pos; lia);
        assert (0 <= index / 8) by (apply Z.div_pos; lia); lia).
      rewrite clear_mask_bit by lia. unfold bit. rewrite <- D, Eb. cbn [default from_option]. unfold id. f_equal. f_equal.
      destruct (Z.leb_spec shift (j mod 8)), (Z.leb_spec index j), (Z.ltb_spec (j mod 8) (shift + count)),
        (Z.ltb_spec j (index + count)); cbn; lia.
    - destruct (Z.leb_spec index j), (Z.ltb_spec j (index + count)); cbn; try by rewrite andb_true_r.
      exfalso. apply D. do 2 f_equal. symmetry. apply Z.div_unique with (r := j - 8 * (index / 8)); lia. }
  assert (L1 : length mem1 = length mem) by apply length_insert.
  destruct (Z.eqb_spec (bits - count) 0) as [Z0|N0].
  - exists mem1. rewrite Z0. replace (clear_loop fuel mem1 _ _ 0) with (Ok mem1) by (by destruct fuel).
    split_and!; [done | done |]. replace bits with count by lia. exact B1.
  - assert (Q8 : shift + count = 8) by lia.
    assert (Qi : (index + count) / 8 = index / 8 + 1) by (symmetry; apply Z.div_unique with (r := 0); lia).
    assert (0 <= index / 8) by (apply Z.div_pos; lia).
    replace (S (base + Z.to_nat (index / 8))) with (base + Z.to_nat ((index + count) / 8))%nat by lia.
    destruct (IH mem1 base (index + count) (bits - count)) as (mem2 & -> & L2 & B2); [lia | lia | lia | |].
    + right. rewrite L1. replace (index + count + (bits - count) - 1) with (index + bits - 1) by lia. done.
    + exists mem2. split_and!; [done | lia |]. intros j Hj. rewrite B2, B1 by done. rewrite <- andb_assoc. f_equal.
      destruct (Z.leb_spec index j), (Z.ltb_spec j (index + count)), (Z.leb_spec (index + count) j),
        (Z.ltb_spec j (index + count + (bits - count))), (Z.ltb_spec j (index + bits)); cbn; lia.
Qed.

Lemma blocks_of size : 0 <= size < 4294967296 - 16 -> ALIGN_UP size / BLOCK_SIZE = (size + 15) / 16.
Proof.
  intros B. unfold ALIGN_UP, BLOCK_SIZE. rewrite u32_small by lia.
  replace (size + 16 - 1) with (size + 15) by lia. change (u32 (Z.lnot (16 - 1))) with 4294967280.
  change 16 with (2 ^ 4). rewrite <- !Z.shiftr_div_pow2 by lia. rewrite Z.shiftr_land.
  change (Z.shiftr 4294967280 4) with (Z.ones 28). rewrite Z.land_ones by lia. apply Z.mod_small.
  rewrite Z.shiftr_div_pow2 by lia. split; [apply Z.div_pos; lia |]. apply Z.div_lt_upper_bound; lia.
Qed.

(** the client's bitmap holds the driver's 32 bits later *)
Lemma bit_shift mem j : 0 <= j -> bit mem driver_bitmap j = bit mem client_bitmap (j + 32).
Proof.
  intros Hj. unfold bit, driver_bitmap, client_bitmap. replace ((j + 32) / 8) with (j / 8 + 4) by (Z.div_mod_to_equations; lia).
  replace ((j + 32) mod 8) with (j mod 8) by (Z.div_mod_to_equations; lia).
  assert (0 <= j / 8) by (apply Z.div_pos; lia). do 3 f_equal. lia.
Qed.

(** the whole buffer: 32768 blocks *)
Definition buffer_ok (mem : bytes) : Prop :=
  read_le32 mem client_SizeOfBitMap = Ok 32768 /\ Z.of_nat (length mem) = driver_buffer + BUFFER_SIZE.

Lemma BufferClearBits_spec mem pos size :
  buffer_ok mem -> 0 <= pos -> 0 < size <= BUFFER_SIZE -> pos + (size + 15) / 16 <= 32768 ->
  exists mem', BufferClearBits mem (driver_buffer + 16 * pos) size = Ok mem' /\ length mem' = length mem /\
    forall j, 0 <= j ->
      bit mem' client_bitmap j = bit mem client_bitmap j && negb ((pos <=? j) && (j <? pos + (size + 15) / 16)).
Proof.
  intros [Sz Lm] Hp Hs Hn. unfold BufferClearBits. rewrite Sz. cbn [mbind result_bind].
  unfold BUFFER_SIZE in *. rewrite blocks_of by lia. set (n := (size + 15) / 16) in *.
  assert (Bn : 1 <= n) by (unfold n; apply Z.div_le_lower_bound; lia).
  replace (u32 (driver_buffer + 16 * pos - client_buffer) / BLOCK_SIZE) with pos.
  2:{ unfold driver_buffer, client_buffer, BLOCK_SIZE. rewrite u32_small by lia. apply Z.div_unique with (r := 4); lia. }
  rewrite (proj2 (Z.leb_gt 32768 pos)), (proj2 (Z.eqb_neq n 0)), (proj2 (Z.ltb_ge 32768 (pos + n))) by lia. cbn [orb].
  apply clear_loop_spec; [done | lia | lia |]. right. unfold client_bitmap, driver_buffer in *.
  assert ((pos + n - 1) / 8 < 4096) by (apply Z.div_lt_upper_bound; lia).
  assert (0 <= (pos + n - 1) / 8) by (apply Z.div_pos; lia). lia.
Qed.

(** ** The driver's side *)

Definition le32_at (mem : bytes) (off : nat) (x : Z) : bytes :=
  <[off := x mod 256]> (<[(off + 1)%nat := x / 256 mod 256]>
    (<[(off + 2)%nat := x / 65536 mod 256]> (<[(off + 3)%nat := x / 16777216 mod 256]> mem))).

(** RtlFindClearBitsAndSet on the bitmap at the given offset: finds a run of
    clear bits, sets it and changes nothing else *)
Class RtlBitmap := {
  RtlFindClearBitsAndSet : bytes -> nat -> Z -> Z -> option (Z * bytes);
  find_clear_bits : forall mem base n hint p mem',
    RtlFindClearBitsAndSet mem base n hint = Some (p, mem') ->
    0 <= p /\ p + n <= 32768 /\ length mem' = length mem /\
    (forall j, p <= j < p + n -> bit mem base j = false) /\
    (forall j, 0 <= j -> bit mem' base j = bit mem base j || ((p <=? j) && (j <? p + n))) /\
    (forall k, (k < base)%nat -> mem' !! k = mem !! k);
}.

(** ReserveSpace: the offset of the reserved space *)
Definition ReserveSpace `{RtlBitmap} (mem : bytes) (size : Z) : result (option Z * bytes) :=
  let bits := ALIGN_UP size / BLOCK_SIZE in
  hint ← read_le32 mem driver_hint;
  match RtlFindClearBitsAndSet mem driver_bitmap bits hint with
  | Some (position, mem) => Ok (Some (driver_buffer + position * BLOCK_SIZE), le32_at mem driver_hint position)
  | None => Ok (None, mem)
  end.

Lemma bit_outside mem mem' base j :
  (forall k, (base <= k)%nat -> mem' !! k = mem !! k) -> bit mem' base j = bit mem base j.
Proof. intros E. unfold bit. rewrite E by lia. done. Qed.

Lemma le32_at_outside mem off x k : (off + 3 < k)%nat \/ (k < off)%nat -> le32_at mem off x !! k = mem !! k.
Proof. intros K. unfold le32_at. rewrite !list_lookup_insert_ne by lia. done. Qed.

Lemma ReserveSpace_spec `{RtlBitmap} mem size data mem' :
  buffer_ok mem -> 0 < size <= BUFFER_SIZE -> ReserveSpace mem size = Ok (Some data, mem') ->
  exists p, data = driver_buffer + 16 * p /\ 0 <= p /\ p + (size + 15) / 16 <= 32768 /\ buffer_ok mem' /\
    (forall j, p <= j < p + (size + 15) / 16 -> bit mem driver_bitmap j = false) /\
    (forall j, 0 <= j -> bit mem' driver_bitmap j =
       bit mem driver_bitmap j || ((p <=? j) && (j <? p + (size + 15) / 16))).
Proof.
  intros [Sz Lm] Hs E. unfold ReserveSpace in E. unfold BUFFER_SIZE in *. rewrite blocks_of in E by lia.
  destruct (read_le32 mem driver_hint) as [hint|]; [| done]. cbn [mbind result_bind] in E.
  destruct (RtlFindClearBitsAndSet mem driver_bitmap ((size + 15) / 16) hint) as [[p mem1]|] eqn:R; [| done].
  injection E as <- <-. destruct (find_clear_bits _ _ _ _ _ _ R) as (P0 & P1 & L & Cl & Se & Un).
  exists p. unfold BLOCK_SIZE. split; [lia |]. split; [done |]. split; [done |]. split; [| split; [done |]].
  - split; [| unfold le32_at, BUFFER_SIZE; rewrite !length_insert; lia].
    unfold read_le32, read8 in *. unfold client_SizeOfBitMap, driver_hint, driver_bitmap in *. cbn [Nat.add] in *.
    rewrite !le32_at_outside by (right; lia). rewrite !Un by lia. exact Sz.
  - intros j Hj. rewrite <- Se by done. apply bit_outside. intros k Hk. apply le32_at_outside.
    unfold driver_bitmap, driver_hint in *. lia.
Qed.

(** C32: Releasing blocks: BufferClearBits clears, in the bitmap as the client
    lays it out, exactly the bits of the blocks it was given. But the client's
    [struct _Buffer] lacks the driver's spin lock, so for the driver these are
    the bits of the blocks 32 places earlier: whatever space of up to 32 blocks
    the driver has reserved and the client releases stays reserved, and if it
    does not start before block 32, as many blocks before it become free. *)
Theorem release_misplaced `{RtlBitmap} mem size data mem1 :
  buffer_ok mem -> 0 < size <= 512 -> ReserveSpace mem size = Ok (Some data, mem1) ->
  exists p mem2, data = driver_buffer + 16 * p /\ BufferClearBits mem1 data size = Ok mem2 /\
    (forall j, 0 <= j ->
       bit mem2 client_bitmap j = bit mem1 client_bitmap j && negb ((p <=? j) && (j <? p + (size + 15) / 16))) /\
    (forall j, p <= j < p + (size + 15) / 16 -> bit mem2 driver_bitmap j = true) /\
    (forall j, 32 <= p -> p - 32 <= j < p - 32 + (size + 15) / 16 -> bit mem2 driver_bitmap j = false).
Proof.
  intros B Hs E. assert (Hs' : 0 < size <= BUFFER_SIZE) by (unfold BUFFER_SIZE; lia).
  destruct (ReserveSpace_spec mem size data mem1 B Hs' E) as (p & -> & P0 & P1 & B1 & _ & Se).
  destruct (BufferClearBits_spec mem1 p size B1 P0 Hs' P1) as (mem2 & E2 & L2 & Cl).
  assert (Bn : (size + 15) / 16 < 33) by (apply Z.div_lt_upper_bound; lia).
  set (n := (size + 15) / 16) in *. exists p, mem2. split_and!; [done | done | exact Cl | |].
  - intros j Hj. rewrite bit_shift, Cl, <- bit_shift, Se by lia.
    rewrite (proj2 (Z.leb_le p j)), (proj2 (Z.ltb_lt j (p + n))) by lia. cbn [andb]. rewrite orb_true_r. cbn [andb].
    rewrite (proj2 (Z.ltb_ge (j + 32) (p + n))) by lia. by rewrite andb_false_r.
  - intros j Hp Hj. rewrite bit_shift, Cl by lia.
    rewrite (proj2 (Z.leb_le p (j + 32))), (proj2 (Z.ltb_lt (j + 32) (p + n))) by lia. apply andb_false_r.
Qed.

(** ** A bitmap to run *)

Definition set_bit (base : nat) (mem : bytes) (j : Z) : bytes :=
  let k := (base + Z.to_nat (j / 8))%nat in
  <[k := Z.setbit (default 0 (mem !! k)) (j mod 8)]> mem.

Definition run_clear (mem : bytes) (base : nat) (n p : Z) : bool :=
  (p + n <=? 32768) && forallb (fun j => negb (bit mem base j)) (seqZ p n).

(** the first run of clear bits *)
Definition first_fit (mem : bytes) (base : nat) (n hint : Z) : option (Z * bytes) :=
  match mem !! (base + 4095)%nat with
  | None => None
  | Some _ =>
    match find (run_clear mem base n) (seqZ 0 32768) with
    | Some p => Some (p, foldl (set_bit base) mem (seqZ p n))
    | None => None
    end
  end.

Lemma set_bit_spec base mem k j :
  (base + 4095 < length mem)%nat -> 0 <= k < 32768 -> 0 <= j ->
  bit (set_bit base mem k) base j = bit mem base j || (j =? k).
Proof.
  intros L Hk Hj. unfold set_bit. pose proof (Z.mod_pos_bound j 8 ltac:(lia)). pose proof (Z.mod_pos_bound k 8 ltac:(lia)).
  assert (k / 8 < 4096) by (apply Z.div_lt_upper_bound; lia). assert (0 <= k / 8) by (apply Z.div_pos; lia).
  assert (0 <= j / 8) by (apply Z.div_pos; lia).
  rewrite bit_insert by lia. pose proof (Z.div_mod j 8 ltac:(lia)). pose proof (Z.div_mod k 8 ltac:(lia)).
  case_bool_decide as D.
  - rewrite Z.setbit_eqb, orb_comm by lia. unfold bit. rewrite D. f_equal.
    destruct (Z.eqb_spec (k mod 8) (j mod 8)), (Z.eqb_spec j k); lia.
  - destruct (Z.eqb_spec j k) as [->|]; [done |]. by rewrite orb_false_r.
Qed.

Lemma set_bits_spec base l : forall mem,
  (base + 4095 < length mem)%nat -> Forall (fun k => 0 <= k < 32768) l ->
  length (foldl (set_bit base) mem l) = length mem /\
  (forall j, 0 <= j -> bit (foldl (set_bit base) mem l) base j = bit mem base j || existsb (Z.eqb j) l) /\
  (forall k, (k < base)%nat -> foldl (set_bit base) mem l !! k = mem !! k).
Proof.
  induction l as [|x l IH]; intros mem L F; cbn [foldl existsb].
  - split_and!; [done | | done]. intros. by rewrite orb_false_r.
  - apply list.Forall_cons in F as [Fx F].
    assert (Ls : length (set_bit base mem x) = length mem) by (unfold set_bit; apply length_insert).
    destruct (IH (set_bit base mem x)) as (L1 & B1 & U1); [by rewrite Ls | done |].
    split_and!; [congruence | |].
    + intros j Hj. rewrite B1, set_bit_spec by done. by rewrite orb_assoc.
    + intros k Hk. rewrite U1 by done. unfold set_bit. rewrite list_lookup_insert_ne by lia. done.
Qed.

Lemma existsb_seqZ j p n : existsb (Z.eqb j) (seqZ p n) = (p <=? j) && (j <? p + n).
Proof.
  apply eq_true_iff_eq. rewrite existsb_exists, andb_true_iff, Z.leb_le, Z.ltb_lt. split.
  - intros (x & Hx & <-%Z.eqb_eq). by apply list_elem_of_In, elem_of_seqZ in Hx.
  - intros Hj. exists j. split; [by apply list_elem_of_In, elem_of_seqZ | apply Z.eqb_refl].
Qed.

#[local] Instance FirstFit : RtlBitmap.
Proof.
  refine {| RtlFindClearBitsAndSet := first_fit |}.
  intros mem base n hint p mem' E. unfold first_fit in E.
  destruct (mem !! (base + 4095)%nat) eqn:Q; [| done]. apply lookup_lt_Some in Q.
  destruct (find _ _) as [p'|] eqn:Fi; [| done]. injection E as <- <-.
  apply find_some in Fi as [Hp R]. apply list_elem_of_In, elem_of_seqZ in Hp.
  unfold run_clear in R. apply andb_true_iff in R as [R1%Z.leb_le R2].
  destruct (set_bits_spec base (seqZ p' n) mem Q) as (L & B & U).
  { apply list.Forall_forall. intros k Hk%elem_of_seqZ. lia. }
  split_and!; [lia | lia | done | | | done].
  - intros j Hj. rewrite forallb_forall in R2. apply negb_true_iff, R2, list_elem_of_In, elem_of_seqZ. lia.
  - intros j Hj. by rewrite B, existsb_seqZ.
Defined.

(** an empty buffer *)
Definition empty_buffer : bytes := [0; 128; 0; 0] ++ replicate (Z.to_nat 528396) 0.

Lemma empty_buffer_ok : buffer_ok empty_buffer.
Proof.
  split; [reflexivity |]. unfold empty_buffer. rewrite length_app, length_replicate, Nat2Z.inj_add, Z2Nat.id by lia. done.
Qed.

Lemma empty_buffer_reserves : exists data mem1, ReserveSpace empty_buffer 20 = Ok (Some data, mem1).
Proof.
  assert (K : (match ReserveSpace empty_buffer 20 with Ok (Some _, _) => true | _ => false end) = true)
    by (lazy; reflexivity).
  destruct (ReserveSpace empty_buffer 20) as [[[data|] mem1]|f]; [by eexists _, _ | discriminate | discriminate].
Qed.

Lemma release_misplaced_witness :
  exists data mem1, ReserveSpace empty_buffer 20 = Ok (Some data, mem1) /\
  exists p mem2, data = driver_buffer + 16 * p /\ BufferClearBits mem1 data 20 = Ok mem2 /\
    (forall j, 0 <= j ->
       bit mem2 client_bitmap j = bit mem1 client_bitmap j && negb ((p <=? j) && (j <? p + (20 + 15) / 16))) /\
    (forall j, p <= j < p + (20 + 15) / 16 -> bit mem2 driver_bitmap j = true) /\
    (forall j, 32 <= p -> p - 32 <= j < p - 32 + (20 + 15) / 16 -> bit mem2 driver_bitmap j = false).
Proof.
  destruct empty_buffer_reserves as (data & mem1 & E). exists data, mem1. split; [exact E |].
  exact (release_misplaced empty_buffer 20 data mem1 empty_buffer_ok ltac:(lia) E).
Defined.
