(* ===== verification/EventQueue.v ===== *)
(** * The list of connection events (EventList.c, NetworkMonitor.cpp)

    The driver builds an event of data containers and links it to the tail of
    the list; the client reads the event at the head and moves the head on.
    Memory is addressed by offsets from the list; reading and linking work on
    whatever is there, released or not. The calls are modelled as wholes, for
    the components that use them, and statement by statement, for the driver
    and the client working at the same time. *)
From Stdlib Require Import ZArith Lia.
From stdpp Require Import base gmap list strings numbers.
From S2P Require Import Prelude PacketDef Element Visitor Monitor Analyzer ProcessManager.

Local Open Scope Z_scope.

Record KernelEvent := mkEvent { e_next : Z; e_previous : Z; e_ready : Z; e_head : Z; e_tail : Z }.
Record DataContainer := mkData { d_next : Z; d_key : Z; d_type : Z; d_size : Z; d_data : bytes }.

Inductive cell := EventCell (e : KernelEvent) | DataCell (d : DataContainer).

Record KernelEventList := mkList { l_head : Z; l_tail : Z; cells : gmap Z cell }.

(** [next] is the first member of both structs *)
Definition set_next (x : Z) (c : cell) : cell :=
  match c with
  | EventCell e => EventCell (mkEvent x (e_previous e) (e_ready e) (e_head e) (e_tail e))
  | DataCell d => DataCell (mkData x (d_key d) (d_type d) (d_size d) (d_data d))
  end.

Definition write_next (off x : Z) (C : gmap Z cell) : result (gmap Z cell) :=
  match C !! off with Some c => Ok (<[off := set_next x c]> C) | None => Fault OutOfBoundsWrite end.

(** reading memory that holds something else *)
Definition event_at (C : gmap Z cell) (off : Z) : result KernelEvent :=
  match C !! off with Some (EventCell e) => Ok e | _ => Fault UseAfterFree end.
Definition data_at (C : gmap Z cell) (off : Z) : result DataContainer :=
  match C !! off with Some (DataCell d) => Ok d | _ => Fault UseAfterFree end.

(** ** The driver *)

(** CreateEvent, at the space that was reserved *)
Definition CreateEvent (event : Z) (l : KernelEventList) : KernelEventList :=
  mkList (l_head l) (l_tail l) (<[event := EventCell (mkEvent 0 0 0 0 0)]> (cells l)).

(** AddEventData, with the space reserved at [container] *)
Definition AddEventData (event container key type : Z) (data : bytes) (l : KernelEventList)
  : result KernelEventList :=
  let C := <[container := DataCell (mkData 0 key type (Z.of_nat (length data)) data)]> (cells l) in
  e ← event_at C event;
  C ← (if e_tail e =? 0 then Ok C else write_next (e_tail e) container C);
  let e := mkEvent (e_next e) (e_previous e) (e_ready e)
             (if e_head e =? 0 then container else e_head e) container in
  Ok (mkList (l_head l) (l_tail l) (<[event := EventCell e]> C)).

Definition InsertEvent (event : Z) (l : KernelEventList) : result KernelEventList :=
  e ← event_at (cells l) event;
  let C := <[event := EventCell (mkEvent (e_next e) (l_tail l) 1 (e_head e) (e_tail e))]> (cells l) in
  let head := if l_head l =? 0 then event else l_head l in
  C ← (if l_tail l =? 0 then Ok C else write_next (l_tail l) event C);
  Ok (mkList head event C).

(** an item of an event: where its container lies, its key and its data *)
Definition item : Type := Z * (Z * bytes).

Fixpoint add_items (event : Z) (items : list item) (l : KernelEventList) : result KernelEventList :=
  match items with
  | [] => Ok l
  | (container, (key, data)) :: items' =>
    l ← AddEventData event container key key data l;
    add_items event items' l
  end.

(** a new event: created, filled and inserted *)
Definition produce (event : Z) (items : list item) (l : KernelEventList) : result KernelEventList :=
  l ← add_items event items (CreateEvent event l);
  InsertEvent event l.

(** ** The client *)

(** the while loop over the containers; one unit of fuel per container *)
Fixpoint read_items (fuel : nat) (C : gmap Z cell) (data_offset : Z) : result (list (Z * bytes)) :=
  if data_offset =? 0 then Ok []
  else match fuel with
  | O => Fault OutOfFuel
  | S fuel' =>
    d ← data_at C data_offset;
    rest ← read_items fuel' C (d_next d);
    Ok ((d_key d, d_data d) :: rest)
  end.

(** one call of processTcpEvents or processUdpEvents: the items of the event
    it takes, if there is one *)
Definition consume (fuel : nat) (l : KernelEventList) : result (option (list (Z * bytes)) * KernelEventList) :=
  if l_head l =? 0 then Ok (None, l)
  else
    e ← event_at (cells l) (l_head l);
    items ← read_items fuel (cells l) (e_head e);
    Ok (Some items, mkList (e_next e) (l_tail l) (cells l)).

(** ** Chains *)

Definition first (offs : list Z) : Z := default 0 (head offs).

Fixpoint data_chain (C : gmap Z cell) (offs : list Z) (items : list (Z * bytes)) : Prop :=
  match offs, items with
  | [], [] => True
  | o :: offs', (k, b) :: items' =>
    (exists d, C !! o = Some (DataCell d) /\ d_next d = first offs' /\ d_key d = k /\ d_data d = b) /\
    data_chain C offs' items'
  | _, _ => False
  end.

Fixpoint event_chain (C : gmap Z cell) (evs : list Z) (q : list (list Z * list (Z * bytes))) : Prop :=
  match evs, q with
  | [], [] => True
  | o :: evs', (offs, items) :: q' =>
    (exists e, C !! o = Some (EventCell e) /\ e_next e = first evs' /\ e_head e = first offs) /\
    data_chain C offs items /\ event_chain C evs' q'
  | _, _ => False
  end.

Lemma data_chain_frame C C' offs items :
  (forall o, o ∈ offs -> C' !! o = C !! o) -> data_chain C offs items -> data_chain C' offs items.
Proof.
  revert items. induction offs as [|o offs IH]; intros [|[k b] items] E D; try done. cbn in *.
  destruct D as [(d & Q & R) D]. split; [exists d; by rewrite E by set_solver |]. apply IH; [set_solver | done].
Qed.

Lemma event_chain_frame C C' evs q :
  (forall o, o ∈ evs ++ concat q.*1 -> C' !! o = C !! o) -> event_chain C evs q -> event_chain C' evs q.
Proof.
  revert q. induction evs as [|o evs IH]; intros [|[offs items] q] E D; try done. cbn in *.
  destruct D as ((e & Q & R) & Dd & D). split_and!.
  - exists e. by rewrite E by set_solver.
  - apply (data_chain_frame C); [| done]. intros x Hx. apply E. set_solver.
  - apply IH; [| done]. intros x Hx. apply E. set_solver.
Qed.


Lemma first_app a o rest : first (a ++ o :: rest) = match a with [] => o | x :: _ => x end.
Proof. by destruct a. Qed.

(** linking a container behind the last one *)
Lemma data_chain_link C offs t items c d k b :
  data_chain C (offs ++ [t]) items -> NoDup (offs ++ [t; c]) ->
  C !! c = Some (DataCell d) -> d_next d = 0 -> d_key d = k -> d_data d = b ->
  exists C', write_next t c C = Ok C' /\ data_chain C' (offs ++ [t; c]) (items ++ [(k, b)]) /\
    (forall o, o <> t -> C' !! o = C !! o).
Proof.
  intros D N Ec Dn Dk Db.
  assert (Ht : exists dt, C !! t = Some (DataCell dt)).
  { clear - D. revert items D. induction offs as [|o offs IH]; intros [|[k b] items] D; cbn in D; try done.
    - destruct D as [(dt & Q & _) _]. by exists dt.
    - destruct D as [_ D]. exact (IH items D). }
  destruct Ht as [dt Et]. exists (<[t := set_next c (DataCell dt)]> C). unfold write_next. rewrite Et.
  split; [done |]. split; [| intros; by rewrite lookup_insert_ne].
  assert (Nct : c <> t) by (apply list.NoDup_app in N as (_ & _ & N); apply list.NoDup_cons in N as [N _]; set_solver).
  revert items D. induction offs as [|o offs IH]; intros [|[k' b'] items] D; cbn in D; try done.
  - destruct D as [(d' & Q & Dn' & Dk' & Db') D]. destruct items; [| done]. rewrite Et in Q. injection Q as ->.
    cbn. split; [eexists; rewrite lookup_insert_eq; by cbn |]. split; [| done].
    exists d. rewrite lookup_insert_ne by done. done.
  - destruct D as [(d' & Q & Dn' & Dk' & Db') D]. cbn [app] in N. apply list.NoDup_cons in N as [No N].
    cbn [app data_chain]. split; [| by apply IH]. exists d'. rewrite lookup_insert_ne by set_solver.
    split_and!; [done | | done | done]. rewrite Dn', !first_app. done.
Qed.

(** linking an event behind the last one *)
Lemma event_chain_link C evs t q ev e offs items :
  event_chain C (evs ++ [t]) q -> NoDup (evs ++ [t; ev]) -> t ∉ concat q.*1 -> t ∉ offs ->
  C !! ev = Some (EventCell e) -> e_next e = 0 -> e_head e = first offs -> data_chain C offs items ->
  exists C', write_next t ev C = Ok C' /\ event_chain C' (evs ++ [t; ev]) (q ++ [(offs, items)]) /\
    (forall o, o <> t -> C' !! o = C !! o).
Proof.
  intros D N Nq No Ee En Eh Dd.
  assert (Ht : exists et, C !! t = Some (EventCell et)).
  { clear - D. revert q D. induction evs as [|o evs IH]; intros [|[a b] q] D; cbn in D; try done.
    - destruct D as [(et & Q & _) _]. by exists et.
    - destruct D as (_ & _ & D). exact (IH q D). }
  destruct Ht as [et Et]. exists (<[t := set_next ev (EventCell et)]> C). unfold write_next. rewrite Et.
  split; [done |]. split; [| intros; by rewrite lookup_insert_ne].
  assert (Net : ev <> t) by (apply list.NoDup_app in N as (_ & _ & N); apply list.NoDup_cons in N as [N _]; set_solver).
  assert (Fr : forall l x, t ∉ l -> data_chain C l x -> data_chain (<[t := set_next ev (EventCell et)]> C) l x).
  { intros l x Hl. apply data_chain_frame. intros o Ho. apply lookup_insert_ne. set_solver. }
  revert q D Nq. induction evs as [|o evs IH]; intros [|[a b] q] D Nq; cbn in D; try done.
  - destruct D as ((e' & Q & En' & Eh') & Da & D). destruct q; [| done]. rewrite Et in Q. injection Q as ->.
    cbn. split_and!; [| apply Fr; [set_solver | done] | | | done].
    + eexists. rewrite lookup_insert_eq. by cbn.
    + exists e. rewrite lookup_insert_ne by done. done.
    + by apply Fr.
  - destruct D as ((e' & Q & En' & Eh') & Da & D). cbn [app] in N. apply list.NoDup_cons in N as [No' N].
    cbn [fmap list_fmap concat fst] in Nq. cbn [app event_chain]. split_and!; [| apply Fr; [set_solver | done] | apply IH; [done | done | set_solver]].
    exists e'. rewrite lookup_insert_ne by set_solver. rewrite En', !first_app. done.
Qed.

(** an event under construction *)
Definition building (C : gmap Z cell) (event : Z) (offs : list Z) (items : list (Z * bytes)) : Prop :=
  data_chain C offs items /\
  exists e, C !! event = Some (EventCell e) /\ e_next e = 0 /\ e_head e = first offs /\
    e_tail e = default 0 (list.last offs).

Lemma AddEventData_spec event container key type data l offs items :
  building (cells l) event offs items -> NoDup (event :: offs ++ [container]) -> Forall (fun o => o <> 0) (container :: offs) ->
  exists l', AddEventData event container key type data l = Ok l' /\
    building (cells l') event (offs ++ [container]) (items ++ [(key, data)]) /\
    l_head l' = l_head l /\ l_tail l' = l_tail l /\
    (forall o, o ∉ event :: container :: offs -> cells l' !! o = cells l !! o).
Proof.
  intros [D (e & Ee & En & Eh & Et)] N [Nc No]%list.Forall_cons. unfold AddEventData, event_at.
  apply list.NoDup_cons in N as [Nev N].
  assert (Nce : event <> container) by set_solver. rewrite lookup_insert_ne by done. rewrite Ee. cbn [mbind result_bind].
  set (C1 := <[container := _]> (cells l)).
  assert (Ec : C1 !! container = Some (DataCell (mkData 0 key type (Z.of_nat (length data)) data)))
    by (unfold C1; apply lookup_insert_eq).
  assert (D1 : data_chain C1 offs items).
  { apply (data_chain_frame (cells l)); [| done]. intros o Ho. apply lookup_insert_ne.
    apply list.NoDup_app in N as (_ & N & _). intros ->. apply (N o Ho). apply list_elem_of_here. }
  rewrite Et, Eh. destruct (list.last offs) as [t|] eqn:L.
  - apply last_Some in L as [offs' ->]. apply Forall_app in No as [No' [Nt _]%list.Forall_cons].
    cbn [default from_option]. unfold id. rewrite (proj2 (Z.eqb_neq t 0) Nt). rewrite <- app_assoc in N. cbn [app] in N.
    destruct (data_chain_link C1 offs' t items container _ key data D1 N Ec eq_refl eq_refl eq_refl) as (C2 & -> & D2 & F2).
    cbn [mbind result_bind]. eexists. split; [reflexivity |]. cbn [cells l_head l_tail].
    assert (Nt' : event <> t) by set_solver. split_and!; [| done | done |].
    + split.
      * rewrite <- app_assoc. apply (data_chain_frame C2); [| done]. intros o Ho. apply lookup_insert_ne. set_solver.
      * eexists. rewrite lookup_insert_eq. split_and!; [done | done | | by rewrite last_snoc].
        cbn [e_head]. rewrite !first_app. destruct offs' as [|x offs']; cbn.
        -- by rewrite (proj2 (Z.eqb_neq t 0) Nt).
        -- apply list.Forall_cons in No' as [Nx _]. by rewrite (proj2 (Z.eqb_neq x 0) Nx).
    + intros o Ho. rewrite lookup_insert_ne by set_solver. rewrite F2 by set_solver. apply lookup_insert_ne. set_solver.
  - apply last_None in L as ->. cbn. destruct items; [| done]. eexists. split; [reflexivity |]. cbn [cells l_head l_tail].
    split_and!; [| done | done |].
    + split.
      * cbn. split; [| done]. eexists. rewrite lookup_insert_ne by done. by rewrite Ec.
      * eexists. rewrite lookup_insert_eq. done.
    + intros o Ho. rewrite lookup_insert_ne by set_solver. apply lookup_insert_ne. set_solver.
Qed.

Lemma add_items_spec event items : forall l offs its,
  building (cells l) event offs its -> NoDup (event :: offs ++ items.*1) -> Forall (fun o => o <> 0) (offs ++ items.*1) ->
  exists l', add_items event items l = Ok l' /\ building (cells l') event (offs ++ items.*1) (its ++ items.*2) /\
    l_head l' = l_head l /\ l_tail l' = l_tail l /\
    (forall o, o ∉ event :: offs ++ items.*1 -> cells l' !! o = cells l !! o).
Proof.
  induction items as [|[c [k b]] items IH]; intros l offs its B N No; cbn [add_items fmap list_fmap fst snd].
  - exists l. rewrite !app_nil_r. done.
  - cbn [fmap list_fmap fst] in N, No.
    destruct (AddEventData_spec event c k k b l offs its B) as (l1 & -> & B1 & H1 & T1 & F1).
    + apply list.NoDup_cons in N as [N1 N2]. apply list.NoDup_cons. split; [set_solver |].
      apply list.NoDup_app in N2 as (N2 & N3 & N4). apply list.NoDup_app. split_and!; [done | set_solver | apply NoDup_singleton].
    + apply Forall_app in No as [No [Nc _]%list.Forall_cons]. by constructor.
    + cbn [mbind result_bind]. destruct (IH l1 (offs ++ [c]) (its ++ [(k, b)]) B1) as (l2 & -> & B2 & H2 & T2 & F2).
      * by rewrite <- app_assoc.
      * by rewrite <- app_assoc.
      * exists l2. rewrite <- !app_assoc in B2. split_and!; [done | done | congruence | congruence |].
        intros o Ho. rewrite F2, F1; [done | set_solver |]. rewrite <- app_assoc. set_solver.
Qed.

(** ** The list as a queue *)

(** the events of the list in order; [used] are the offsets ever used *)
Definition queue_inv (used : gset Z) (l : KernelEventList) (q : list (list (Z * bytes))) : Prop :=
  exists evs qs, l_head l = first evs /\ event_chain (cells l) evs qs /\ qs.*2 = q /\
    NoDup (evs ++ concat qs.*1) /\ (forall o, o ∈ evs ++ concat qs.*1 -> o <> 0 /\ o ∈ used) /\
    match list.last evs with
    | Some t => l_tail l = t
    | None => l_tail l = 0 \/ (l_tail l ∈ used /\ is_Some (cells l !! l_tail l))
    end.

Lemma produce_spec used l q event items :
  queue_inv used l q -> NoDup (event :: items.*1) -> (forall o, o ∈ event :: items.*1 -> o <> 0 /\ o ∉ used) ->
  exists l', produce event items l = Ok l' /\
    queue_inv (used ∪ list_to_set (event :: items.*1)) l' (q ++ [items.*2]).
Proof.
  intros (evs & qs & Hh & Ch & <- & N & U & T) Ni Fr. unfold produce.
  assert (Fev : event ∉ used) by (apply Fr; set_solver).
  destruct (add_items_spec event items (CreateEvent event l) [] []) as (l2 & -> & [Dd (e & Ee & En & Eh & _)] & H2 & T2 & F2).
  { split; [done |]. eexists. cbn [CreateEvent cells]. by rewrite lookup_insert_eq. }
  { done. }
  { apply list.Forall_forall. intros o Ho. apply Fr. set_solver. }
  cbn [app] in *. cbn [mbind result_bind]. unfold InsertEvent, event_at. rewrite Ee. cbn [mbind result_bind].
  rewrite En, Eh, H2, T2. cbn [CreateEvent l_head l_tail cells] in *.
  set (ne := mkEvent 0 (l_tail l) 1 (first items.*1) (e_tail e)). set (C := <[event := EventCell ne]> (cells l2)).
  assert (FC : forall o, o ∉ event :: items.*1 -> C !! o = cells l !! o).
  { intros o Ho. unfold C. rewrite lookup_insert_ne by set_solver. rewrite F2 by done. apply lookup_insert_ne. set_solver. }
  assert (Dc : data_chain C items.*1 items.*2).
  { apply (data_chain_frame (cells l2)); [| done]. intros o Ho. apply lookup_insert_ne.
    apply list.NoDup_cons in Ni as [Ni _]. set_solver. }
  assert (Ce : event_chain C evs qs).
  { apply (event_chain_frame (cells l)); [| done]. intros o Ho. apply FC. intros K. by apply (Fr o K), U. }
  assert (Nev : C !! event = Some (EventCell ne)) by apply lookup_insert_eq.
  assert (Nall : NoDup ((evs ++ [event]) ++ concat (qs ++ [(items.*1, items.*2)]).*1)).
  { rewrite fmap_app, concat_app. cbn. rewrite app_nil_r.
    rewrite (Permutation_app_comm (evs ++ [event])), <- app_assoc. rewrite (app_assoc items.*1), (Permutation_app_comm items.*1 evs).
    rewrite <- !app_assoc. rewrite app_assoc. apply list.NoDup_app. split_and!.
    - by rewrite Permutation_app_comm.
    - intros o Ho K. assert (Ho' : o ∈ evs ++ concat qs.*1) by set_solver. apply (Fr o); [set_solver |]. by apply U.
    - by rewrite Permutation_app_comm. }
  assert (Uall : forall o, o ∈ (evs ++ [event]) ++ concat (qs ++ [(items.*1, items.*2)]).*1 ->
    o <> 0 /\ o ∈ used ∪ list_to_set (event :: items.*1)).
  { intros o Ho. rewrite fmap_app, concat_app in Ho. cbn in Ho. rewrite app_nil_r in Ho.
    destruct (decide (o ∈ event :: items.*1)) as [K|K]; [split; [by apply Fr | set_solver] |].
    destruct (U o); [set_solver | split; [done | set_solver]]. }
  assert (Qs : (qs ++ [(items.*1, items.*2)]).*2 = qs.*2 ++ [items.*2]) by (by rewrite fmap_app).
  destruct (list.last evs) as [t|] eqn:L.
  - apply last_Some in L as [evs' ->]. rewrite T in *. assert (Ht : t <> 0 /\ t ∈ used) by (apply U; rewrite !elem_of_app, list_elem_of_singleton; tauto).
    rewrite (proj2 (Z.eqb_neq t 0)) by apply Ht.
    assert (As : evs' ++ [t; event] = (evs' ++ [t]) ++ [event]) by (by rewrite <- app_assoc).
    assert (Nl : NoDup (evs' ++ [t; event])) by (rewrite As; by apply list.NoDup_app in Nall as (? & _ & _)).
    destruct (event_chain_link C evs' t qs event ne items.*1 items.*2 Ce) as (C' & -> & Ce' & F');
      [done | | | done | done | done | done |].
    + apply list.NoDup_app in N as (_ & N & _). apply (N t), elem_of_app. right. apply list_elem_of_here.
    + intros K. apply (Fr t); [by apply list_elem_of_further | apply Ht].
    + cbn [mbind result_bind]. eexists. split; [reflexivity |].
      exists ((evs' ++ [t]) ++ [event]), (qs ++ [(items.*1, items.*2)]). cbn [l_head l_tail cells] in *. rewrite As in Ce'.
      split_and!; [| done | done | done | done | by rewrite last_snoc].
      rewrite Hh, <- app_assoc. cbn [app]. rewrite !first_app. destruct evs' as [|x evs'].
      * rewrite (proj2 (Z.eqb_neq t 0)) by apply Ht. done.
      * rewrite (proj2 (Z.eqb_neq x 0)); [done |]. apply (U x), elem_of_app. left. apply elem_of_app. left. apply list_elem_of_here.
  - apply last_None in L as ->. cbn [app] in *. destruct qs; [| done]. rewrite Hh. cbn [first head default from_option].
    change (0 =? 0) with true. cbv iota.
    assert (K : exists C', (if l_tail l =? 0 then Ok C else write_next (l_tail l) event C) = Ok C' /\
      forall o, o ∈ event :: items.*1 -> C' !! o = C !! o).
    { destruct (Z.eqb_spec (l_tail l) 0) as [|Nt]; [by exists C |]. destruct T as [? | [Tu [c Tc]]]; [done |].
      assert (Tn : l_tail l ∉ event :: items.*1) by (intros K; by apply (Fr _ K)).
      unfold write_next. rewrite FC, Tc by done. eexists. split; [reflexivity |]. intros o Ho. apply lookup_insert_ne. set_solver. }
    destruct K as (C' & -> & F'). cbn [mbind result_bind]. eexists. split; [reflexivity |].
    exists [event], [(items.*1, items.*2)]. cbn [l_head l_tail cells].
    split_and!; [done | | done | exact Nall | exact Uall | done]. cbn. split_and!; [| | done].
    + exists ne. rewrite F' by set_solver. done.
    + apply (data_chain_frame C); [| done]. intros o Ho. apply F'. set_solver.
Qed.

Lemma read_items_spec C offs items : forall fuel,
  data_chain C offs items -> Forall (fun o => o <> 0) offs -> (length items <= fuel)%nat ->
  read_items fuel C (first offs) = Ok items.
Proof.
  revert items. induction offs as [|o offs IH]; intros [|[k b] items] fuel D No L; try done; [by destruct fuel |].
  destruct D as [(d & Q & Dn & <- & <-) D]. apply list.Forall_cons in No as [Ho No]. cbn in L.
  destruct fuel as [|fuel]; [lia |]. cbn. rewrite (proj2 (Z.eqb_neq o 0) Ho). unfold data_at. rewrite Q.
  cbn [mbind result_bind]. rewrite Dn, (IH items fuel D No) by lia. done.
Qed.

Lemma consume_spec used l q fuel :
  queue_inv used l q -> Forall (fun x => (length x <= fuel)%nat) q ->
  match q with
  | [] => consume fuel l = Ok (None, l)
  | x :: q' => exists l', consume fuel l = Ok (Some x, l') /\ queue_inv used l' q'
  end.
Proof.
  intros (evs & qs & Hh & Ch & <- & N & U & T) F. unfold consume. rewrite Hh.
  destruct evs as [|ev evs], qs as [|[offs items] qs]; try done. cbn in F |- *.
  destruct Ch as ((e & Ee & En & Eh) & Dd & Ch).
  assert (Hev : ev <> 0 /\ ev ∈ used) by (apply U; apply list_elem_of_here).
  rewrite (proj2 (Z.eqb_neq ev 0)) by apply Hev. unfold event_at. rewrite Ee. cbn [mbind result_bind].
  apply list.Forall_cons in F as [Fx F].
  rewrite Eh, (read_items_spec (cells l) offs items fuel Dd); [| | done].
  - cbn [mbind result_bind]. eexists. split; [reflexivity |].
    exists evs, qs. cbn [l_head l_tail cells]. split_and!; [done | done | done | | |].
    + apply list.NoDup_cons in N as [_ N]. apply list.NoDup_app in N as (N1 & N2 & N3). cbn in N2, N3.
      apply list.NoDup_app in N3 as (_ & _ & N3). apply list.NoDup_app. split_and!; [done | | done].
      intros o Ho K. apply (N2 o Ho), elem_of_app. by right.
    + intros o Ho. apply U. rewrite elem_of_app in Ho. rewrite !elem_of_app, elem_of_cons. cbn [fmap list_fmap concat fst].
      rewrite elem_of_app. tauto.
    + rewrite last_cons in T. destruct (list.last evs); [done |]. right. rewrite T. split; [apply Hev |]. rewrite Ee. by eexists.
  - apply list.Forall_forall. intros o Ho. apply U. rewrite elem_of_app. right. cbn [fmap list_fmap concat fst].
    apply elem_of_app. by left.
Qed.

(** what driver and client do, in any order *)
Inductive qop := Produce (event : Z) (items : list item) | Consume.

Fixpoint run_list (fuel : nat) (ops : list qop) (l : KernelEventList)
  : result (list (list (Z * bytes)) * KernelEventList) :=
  match ops with
  | [] => Ok ([], l)
  | Produce event items :: ops' => l ← produce event items l; run_list fuel ops' l
  | Consume :: ops' =>
    r ← consume fuel l;
    r' ← run_list fuel ops' r.2;
    Ok (option_list r.1 ++ r'.1, r'.2)
  end.

Definition empty_list : KernelEventList := mkList 0 0 ∅.

(** ** Driver and client at the same time *)

(** The driver inserts under a lock which the client does not take, so their
    statements interleave. [InsertEvent] statement by statement: *)
Definition insert_head (event : Z) (l : KernelEventList) : result KernelEventList :=
  e ← event_at (cells l) event;
  Ok (mkList (if l_head l =? 0 then event else l_head l) (l_tail l)
        (<[event := EventCell (mkEvent (e_next e) (l_tail l) 1 (e_head e) (e_tail e))]> (cells l))).

Definition insert_link (event : Z) (l : KernelEventList) : result KernelEventList :=
  C ← (if l_tail l =? 0 then Ok (cells l) else write_next (l_tail l) event (cells l));
  Ok (mkList (l_head l) (l_tail l) C).

Definition insert_tail (event : Z) (l : KernelEventList) : KernelEventList := mkList (l_head l) event (cells l).

Lemma InsertEvent_steps event l :
  InsertEvent event l = (l ← insert_head event l; l ← insert_link event l; Ok (insert_tail event l)).
Proof.
  unfold InsertEvent, insert_head, insert_link, insert_tail. destruct (event_at (cells l) event) as [e|]; [| done].
  cbn [mbind result_bind l_head l_tail cells]. by destruct (if l_tail l =? 0 then _ else _).
Qed.

(** where the thread that holds the lock is, and where the client is *)
Inductive insertion := NotInserting | Checked (event : Z) | Linked (event : Z).
Inductive reader :=
  | Waiting
  | Reading (kernel_event data_offset : Z) (got : list (Z * bytes))
  | Loaded (next : Z).

(** the list, the events the driver is going to insert, both threads, and what
    the client read so far *)
Record shared := mkShared {
  s_list : KernelEventList; s_todo : list (Z * list item); s_inserting : insertion; s_reader : reader;
  s_got : list (list (Z * bytes));
}.

(** the event is built where no one looks, then inserted *)
Definition driver_move (s : shared) : result shared :=
  let l := s_list s in
  match s_inserting s with
  | NotInserting =>
    match s_todo s with
    | [] => Ok s
    | (event, items) :: todo =>
      l ← add_items event items (CreateEvent event l);
      l ← insert_head event l;
      Ok (mkShared l todo (Checked event) (s_reader s) (s_got s))
    end
  | Checked event => l ← insert_link event l; Ok (mkShared l (s_todo s) (Linked event) (s_reader s) (s_got s))
  | Linked event => Ok (mkShared (insert_tail event l) (s_todo s) NotInserting (s_reader s) (s_got s))
  end.

(** processTcpEvents or processUdpEvents: finding the event, one turn of the
    loop, loading [next], storing [head] *)
Definition client_move (s : shared) : result shared :=
  let l := s_list s in
  let go r got := mkShared l (s_todo s) (s_inserting s) r got in
  match s_reader s with
  | Waiting =>
    if l_head l =? 0 then Ok s
    else e ← event_at (cells l) (l_head l); Ok (go (Reading (l_head l) (e_head e) []) (s_got s))
  | Reading kernel_event data_offset got =>
    if data_offset =? 0 then e ← event_at (cells l) kernel_event; Ok (go (Loaded (e_next e)) (s_got s ++ [got]))
    else d ← data_at (cells l) data_offset; Ok (go (Reading kernel_event (d_next d) (got ++ [(d_key d, d_data d)])) (s_got s))
  | Loaded next =>
    Ok (mkShared (mkList next (l_tail l) (cells l)) (s_todo s) (s_inserting s) Waiting (s_got s))
  end.

Inductive mover := TheDriver | TheClient.

Fixpoint run_shared (moves : list mover) (s : shared) : result shared :=
  match moves with
  | [] => Ok s
  | TheDriver :: moves' => s ← driver_move s; run_shared moves' s
  | TheClient :: moves' => s ← client_move s; run_shared moves' s
  end.

(** What the list does, as a queue. An event put into the empty queue is there
    at once; another has to wait for the statement that links it, and when the
    queue is empty by then it is lost: the client had loaded [next] of the event before it. *)
Inductive arrival := NoArrival | Arriving (x : list (Z * bytes)) | Arrived | Settling.
Inductive attention := Looking | Taking (rest : list (Z * bytes)) | Leaving.
Record view := mkView {
  v_todo : list (list (Z * bytes)); v_arrival : arrival; v_queue : list (list (Z * bytes)); v_attention : attention;
  v_got : list (list (Z * bytes)); v_lost : list (list (Z * bytes));
}.

Definition view_driver (v : view) : view :=
  let 'mkView todo a q r got lost := v in
  match a with
  | NoArrival =>
    match todo with
    | [] => v
    | x :: todo' =>
      match q, r with
      | [], (Looking | Taking _) => mkView todo' Arrived [x] r got lost
      | _, _ => mkView todo' (Arriving x) q r got lost
      end
    end
  | Arriving x =>
    match q with
    | [] => mkView todo Settling [] r got (lost ++ [x])
    | _ => mkView todo Settling (q ++ [x]) r got lost
    end
  | Arrived => mkView todo Settling q r got lost
  | Settling => mkView todo NoArrival q r got lost
  end.

Definition view_client (v : view) : view :=
  let 'mkView todo a q r got lost := v in
  match r, q with
  | Looking, x :: _ => mkView todo a q (Taking x) got lost
  | Taking (_ :: rest), _ => mkView todo a q (Taking rest) got lost
  | Taking [], x :: q' => mkView todo a q' Leaving (got ++ [x]) lost
  | Leaving, _ => mkView todo a q Looking got lost
  | _, [] => v
  end.

Fixpoint run_view (moves : list mover) (v : view) : view :=
  match moves with
  | [] => v
  | TheDriver :: moves' => run_view moves' (view_driver v)
  | TheClient :: moves' => run_view moves' (view_client v)
  end.

(** no insertion begins between the client's load of [next] and its store of
    [head], and no [next] is loaded while an event waits to be linked *)
Definition apart (m : mover) (v : view) : bool :=
  match m, v_arrival v, v_attention v with
  | TheDriver, NoArrival, Leaving => false
  | TheClient, Arriving _, Taking [] => false
  | _, _, _ => true
  end.

Fixpoint all_apart (moves : list mover) (v : view) : bool :=
  match moves with
  | [] => true
  | m :: moves' =>
    apart m v && all_apart moves' (match m with TheDriver => view_driver v | TheClient => view_client v end)
  end.

(** the tail: the last event, or one read before *)
Definition ends (used : gset Z) (l : KernelEventList) (evs : list Z) : Prop :=
  match list.last evs with
  | Some t => l_tail l = t
  | None => l_tail l = 0 \/ (l_tail l ∈ used /\ is_Some (cells l !! l_tail l))
  end.

(** an event that was built and is not linked *)
Definition built (used : gset Z) (C : gmap Z cell) (event : Z) (offs : list Z) (x : list (Z * bytes)) : Prop :=
  data_chain C offs x /\ (exists e, C !! event = Some (EventCell e) /\ e_next e = 0 /\ e_head e = first offs) /\
  NoDup (event :: offs) /\ (forall o, o ∈ event :: offs -> o <> 0 /\ o ∈ used).

Definition inserting_inv (used : gset Z) (l : KernelEventList) (evs : list Z) (taken : list Z) (i : insertion) (a : arrival) : Prop :=
  match i, a with
  | NotInserting, NoArrival => ends used l evs
  | Checked event, Arriving x =>
    ends used l evs /\ exists offs, built used (cells l) event offs x /\ (forall o, o ∈ event :: offs -> o ∉ taken)
  | Checked event, Arrived =>
    (evs = [event] \/ evs = []) /\ event <> 0 /\ event ∈ used /\ is_Some (cells l !! event) /\
    (l_tail l = 0 \/ (is_Some (cells l !! l_tail l) /\ l_tail l ∉ taken))
  | Linked event, Settling =>
    (evs = [] \/ list.last evs = Some event) /\ event <> 0 /\ event ∈ used /\ is_Some (cells l !! event)
  | _, _ => False
  end.

Definition reader_inv (l : KernelEventList) (evs : list Z) (qs : list (list Z * list (Z * bytes))) (r : reader) (b : attention) : Prop :=
  match r, b with
  | Waiting, Looking => l_head l = first evs
  | Reading event off got, Taking rest =>
    l_head l = event /\ exists evs' pre post qs', evs = event :: evs' /\ qs = (pre ++ post, got ++ rest) :: qs' /\
      off = first post /\ length pre = length got
  | Loaded next, Leaving => next = first evs /\ l_head l <> 0
  | _, _ => False
  end.

Definition shared_inv (used : gset Z) (s : shared) (v : view) : Prop :=
  (fun e => e.2.*2) <$> s_todo s = v_todo v /\ s_got s = v_got v /\
  exists evs qs, v_queue v = qs.*2 /\ event_chain (cells (s_list s)) evs qs /\ NoDup (evs ++ concat qs.*1) /\
    (forall o, o ∈ evs ++ concat qs.*1 -> o <> 0 /\ o ∈ used) /\
    inserting_inv used (s_list s) evs (evs ++ concat qs.*1) (s_inserting s) (v_arrival v) /\
    reader_inv (s_list s) evs qs (s_reader s) (v_attention v).

(** the offsets the events to come will take *)
Definition todo_offsets (todo : list (Z * list item)) : list Z := concat ((fun e => e.1 :: e.2.*1) <$> todo).

Definition todo_fresh (used : gset Z) (todo : list (Z * list item)) : Prop :=
  NoDup (todo_offsets todo) /\ forall o, o ∈ todo_offsets todo -> o <> 0 /\ o ∉ used.

Lemma begin_spec used l event items :
  NoDup (event :: items.*1) -> (forall o, o ∈ event :: items.*1 -> o <> 0 /\ o ∉ used) ->
  exists l2 l3, add_items event items (CreateEvent event l) = Ok l2 /\ insert_head event l2 = Ok l3 /\
    l_head l3 = (if l_head l =? 0 then event else l_head l) /\ l_tail l3 = l_tail l /\
    built (used ∪ list_to_set (event :: items.*1)) (cells l3) event items.*1 items.*2 /\
    (forall o, o ∉ event :: items.*1 -> cells l3 !! o = cells l !! o).
Proof.
  intros N Fr. destruct (add_items_spec event items (CreateEvent event l) [] []) as (l2 & -> & [Dd (e & Ee & En & Eh & _)] & H2 & T2 & F2).
  { split; [done |]. eexists. cbn [CreateEvent cells]. by rewrite lookup_insert_eq. }
  { done. }
  { apply list.Forall_forall. intros o Ho. apply Fr. by apply list_elem_of_further. }
  cbn [app CreateEvent l_head l_tail cells] in *. exists l2. unfold insert_head, event_at. rewrite Ee. cbn [mbind result_bind].
  eexists. split; [done |]. split; [reflexivity |]. cbn [l_head l_tail cells]. rewrite H2, T2. split_and!; [done | done | |].
  - split_and!; [| | done |].
    + apply (data_chain_frame (cells l2)); [| done]. intros o Ho. apply lookup_insert_ne.
      apply list.NoDup_cons in N as [N _]. intros ->. done.
    + eexists. rewrite lookup_insert_eq. done.
    + intros o Ho. split; [by apply Fr |]. apply elem_of_union_r. by apply elem_of_list_to_set.
  - intros o Ho. apply not_elem_of_cons in Ho as [Ho Hi]. rewrite lookup_insert_ne by done. rewrite F2 by set_solver. by apply lookup_insert_ne.
Qed.

Lemma ends_mono used used' l evs :
  ends used l evs -> used ⊆ used' -> ends used' l evs.
Proof. unfold ends. destruct (list.last evs); [done |]. intros [?|[? ?]] S; [by left | right; split; [by apply S | done]]. Qed.

(** a new event stays away from those in the queue *)
Lemma extend_queue (evs : list Z) (qs : list (list Z * list (Z * bytes))) event offs x :
  NoDup (evs ++ concat qs.*1) -> NoDup (event :: offs) -> (forall o, o ∈ event :: offs -> o ∉ evs ++ concat qs.*1) ->
  NoDup ((evs ++ [event]) ++ concat (qs ++ [(offs, x)]).*1) /\
  (forall o, o ∈ (evs ++ [event]) ++ concat (qs ++ [(offs, x)]).*1 <-> o ∈ evs ++ concat qs.*1 \/ o ∈ event :: offs).
Proof.
  intros N Ni Fr. rewrite fmap_app, concat_app. cbn. rewrite app_nil_r. split.
  - rewrite (Permutation_app_comm (evs ++ [event])), <- app_assoc, (app_assoc offs), (Permutation_app_comm offs evs).
    rewrite <- !app_assoc, app_assoc. apply list.NoDup_app. split_and!.
    + by rewrite Permutation_app_comm.
    + intros o Ho K. apply (Fr o); set_solver.
    + by rewrite Permutation_app_comm.
  - intros o. set_solver.
Qed.

Lemma first_nonzero (used : gset Z) (evs : list Z) : (forall o, o ∈ evs -> o <> 0 /\ o ∈ used) -> (first evs =? 0) = match evs with [] => true | _ => false end.
Proof. destruct evs as [|x evs]; [done |]. intros U. apply Z.eqb_neq, U, list_elem_of_here. Qed.

(** the first statements of an insertion *)
Lemma begin_inv used s v event items todo :
  shared_inv used s v -> s_inserting s = NotInserting -> s_todo s = (event, items) :: todo ->
  NoDup (event :: items.*1) -> (forall o, o ∈ event :: items.*1 -> o <> 0 /\ o ∉ used) ->
  exists s', driver_move s = Ok s' /\ s_todo s' = todo /\ shared_inv (used ∪ list_to_set (event :: items.*1)) s' (view_driver v).
Proof.
  intros (Ht & Hg & evs & qs & Hq & Ch & N & U & I & R) Ei Et Ni Fr. unfold driver_move. rewrite Ei, Et.
  destruct (begin_spec used (s_list s) event items Ni Fr) as (l2 & l3 & -> & E3 & Hh & Htl & B & F). cbn [mbind result_bind]. rewrite E3. cbn [mbind result_bind].
  eexists. split; [reflexivity |]. split; [done |]. set (used' := used ∪ _). destruct v as [vt a q b vg vl]. cbn [v_todo v_got v_queue v_arrival v_attention] in *.
  rewrite Ei in I. destruct a; try done. rewrite Et in Ht. cbn [fmap list_fmap snd] in Ht. destruct vt as [|x vt]; [done |]. injection Ht as <- Ht.
  assert (Sub : used ⊆ used') by set_solver.
  assert (Ch3 : event_chain (cells l3) evs qs).
  { apply (event_chain_frame (cells (s_list s))); [| done]. intros o Ho. apply F. intros K. by apply (Fr o K), U. }
  assert (Di : forall o, o ∈ event :: items.*1 -> o ∉ evs ++ concat qs.*1) by (intros o Ho K; by apply (Fr o Ho), U).
  assert (E3' : ends used' l3 evs).
  { cbn [inserting_inv] in I. apply (ends_mono used); [| done]. unfold ends in *. rewrite Htl. destruct (list.last evs); [done |].
    destruct I as [?|[Iu Is]]; [by left | right]. split; [done |]. rewrite F; [done |]. intros K. by apply (Fr _ K). }
  assert (U' : forall o, o ∈ evs ++ concat qs.*1 -> o <> 0 /\ o ∈ used') by (intros o Ho; destruct (U o Ho); split; [done | by apply Sub]).
  assert (K : (evs = [] /\ b <> Leaving) \/ ~ (evs = [] /\ b <> Leaving)) by (destruct evs, b; naive_solver).
  destruct K as [[-> Nb] | K].
  - destruct qs; [| done]. subst q. assert (b = Looking /\ s_reader s = Waiting /\ l_head (s_list s) = 0) as (-> & Er & H0).
    { destruct (s_reader s), b; try done. destruct R as (_ & evs' & pre & post & qs' & K & _). done. }
    cbn. rewrite Er. split_and!; [done | done |]. exists [event], [(items.*1, items.*2)]. cbn [v_queue v_arrival v_attention s_list s_inserting s_reader].
    destruct B as (Bd & (e & Be & Bn & Bh) & Bnd & Bu). split_and!; [done | | | | | ].
    + cbn. split_and!; [by exists e | done | done].
    + cbn. by rewrite app_nil_r.
    + intros o Ho. apply Bu. cbn in Ho. by rewrite app_nil_r in Ho.
    + cbn. split_and!; [by left | apply Bu, list_elem_of_here | apply Bu, list_elem_of_here | by rewrite Be |].
      cbn [l_tail]. rewrite Htl, app_nil_r. destruct I as [I|[Iu Is]]; [by left | right].
      assert (Nk : l_tail (s_list s) ∉ event :: items.*1) by (intros K; by apply (Fr _ K)). split; [| exact Nk]. rewrite F by exact Nk. exact Is.
    + cbn. by rewrite Hh, H0.
  - assert (Ev : view_driver (mkView (items.*2 :: vt) NoArrival q b vg vl) = mkView vt (Arriving items.*2) q b vg vl).
    { destruct evs as [|ev evs], qs as [|y qs]; try done; subst q; [| by destruct b]. destruct b; [by destruct K | by destruct K | done]. }
    rewrite Ev. split_and!; [done | done |]. exists evs, qs. cbn [v_queue v_arrival v_attention s_list s_inserting s_reader].
    split_and!; [done | done | done | done | |].
    + cbn. split; [done |]. exists items.*1. done.
    + assert (Hd : l_head (s_list s) <> 0).
      { destruct (s_reader s), b; try done.
        - cbn in R. rewrite R. destruct evs as [|ev evs]; [by destruct K; split |]. apply (U ev), list_elem_of_here.
        - destruct R as (-> & evs' & pre & post & qs' & -> & _). apply (U kernel_event), list_elem_of_here.
        - apply R. }
      rewrite (proj2 (Z.eqb_neq _ 0) Hd) in Hh. destruct (s_reader s), b; try done; cbn in R |- *; rewrite Hh; done.
Qed.

Lemma write_next_frame t x C : is_Some (C !! t) ->
  exists C', write_next t x C = Ok C' /\ (forall o, o <> t -> C' !! o = C !! o) /\ (forall o, is_Some (C !! o) -> is_Some (C' !! o)).
Proof.
  intros [c E]. unfold write_next. rewrite E. eexists. split; [reflexivity |]. split; intros o Ho.
  - by apply lookup_insert_ne.
  - destruct (decide (o = t)) as [->|]; [rewrite lookup_insert_eq; by eexists | by rewrite lookup_insert_ne].
Qed.

(** a link from an event that is in the queue no more *)
Lemma link_outside event l evs qs :
  event_chain (cells l) evs qs -> (l_tail l = 0 \/ (is_Some (cells l !! l_tail l) /\ l_tail l ∉ evs ++ concat qs.*1)) ->
  exists C', insert_link event l = Ok (mkList (l_head l) (l_tail l) C') /\ event_chain C' evs qs /\
    (forall o, is_Some (cells l !! o) -> is_Some (C' !! o)).
Proof.
  intros Ch T. unfold insert_link. destruct (Z.eqb_spec (l_tail l) 0) as [|Nt]; [by exists (cells l) |].
  destruct T as [|[Is Nk]]; [done |]. destruct (write_next_frame (l_tail l) event (cells l) Is) as (C' & -> & F & G).
  exists C'. split_and!; [done | | done]. apply (event_chain_frame (cells l)); [| done]. intros o Ho. apply F. by intros ->.
Qed.

Lemma link_inv used s v event :
  shared_inv used s v -> s_inserting s = Checked event ->
  exists s', driver_move s = Ok s' /\ s_todo s' = s_todo s /\ shared_inv used s' (view_driver v).
Proof.
  intros (Ht & Hg & evs & qs & Hq & Ch & N & U & I & R) Ei. unfold driver_move. rewrite Ei in *.
  destruct v as [vt a q b vg vl]. cbn [v_todo v_got v_queue v_arrival v_attention] in *.
  destruct a as [| x | |]; try done; cbn [inserting_inv] in I.
  - destruct I as [E (offs & (Bd & (e & Be & Bn & Bh) & Bnd & Bu) & Di)]. destruct (list.last evs) as [t|] eqn:L.
    + apply last_Some in L as L'. destruct L' as [evs' ->]. unfold ends in E. rewrite L in E.
      destruct (extend_queue (evs' ++ [t]) qs event offs x N Bnd Di) as [N' El].
      assert (As : evs' ++ [t; event] = (evs' ++ [t]) ++ [event]) by (by rewrite <- app_assoc).
      assert (Ht0 : t <> 0) by (apply (U t), elem_of_app; left; apply elem_of_app; right; apply list_elem_of_here).
      destruct (event_chain_link (cells (s_list s)) evs' t qs event e offs x Ch) as (C' & W & Ce & F); [| | | done | done | done | done |].
      { rewrite As. by apply list.NoDup_app in N' as (? & _ & _). }
      { apply list.NoDup_app in N as (_ & N & _). apply (N t), elem_of_app. right. apply list_elem_of_here. }
      { intros K. apply (Di t); [by apply list_elem_of_further |]. apply elem_of_app. left. apply elem_of_app. right. apply list_elem_of_here. }
      unfold insert_link. rewrite E, (proj2 (Z.eqb_neq t 0) Ht0), W. cbn [mbind result_bind].
      eexists. split; [reflexivity |]. split; [done |].
      destruct qs as [|y qs]; [by destruct evs' |]. rewrite Hq. cbn [fmap list_fmap view_driver]. split_and!; [done | done |].
      exists ((evs' ++ [t]) ++ [event]), ((y :: qs) ++ [(offs, x)]). cbn [s_list cells l_tail l_head s_inserting s_reader v_arrival v_attention v_queue].
      split_and!; [by rewrite fmap_app | by rewrite <- As | done | | |].
      * intros o [Ho|Ho]%El; [by apply U | by apply Bu].
      * cbn. split_and!; [right; by rewrite last_snoc | apply Bu, list_elem_of_here | apply Bu, list_elem_of_here |].
        rewrite F; [by rewrite Be |]. intros ->. apply (Di t); [apply list_elem_of_here |]. apply elem_of_app. left. apply elem_of_app. right. apply list_elem_of_here.
      * rewrite <- app_assoc. destruct (s_reader s), b; try done; cbn in R |- *.
        -- rewrite R, !first_app. done.
        -- destruct R as (-> & ev1 & pre & post & qs' & K1 & K2 & -> & Lp). split; [done |]. injection K2 as -> ->.
           destruct evs' as [|z evs']; injection K1 as -> <-; by eexists _, pre, post, _.
        -- rewrite (proj1 R), !first_app. by destruct R.
    + apply last_None in L as ->. destruct qs; [| done]. subst q. cbn in E.
      destruct (link_outside event (s_list s) [] [] I) as (C' & -> & _ & G).
      { destruct E as [?|[_ ?]]; [by left | right]. split; [done | apply not_elem_of_nil]. }
      cbn [mbind result_bind]. eexists. split; [reflexivity |]. split; [done |]. split_and!; [done | done |].
      exists [], []. cbn [s_list cells l_tail l_head s_inserting s_reader view_driver v_queue v_arrival v_attention].
      split_and!; [done | done | done | done | |].
      * cbn. split_and!; [by left | apply Bu, list_elem_of_here | apply Bu, list_elem_of_here |]. apply G. by rewrite Be.
      * by destruct (s_reader s), b.
  - destruct I as (Ev & Nz & Us & Is & T). destruct (link_outside event (s_list s) evs qs Ch T) as (C' & -> & Ch' & G).
    cbn [mbind result_bind]. eexists. split; [reflexivity |]. split; [done |]. cbn [view_driver]. split_and!; [done | done |].
    exists evs, qs. cbn [s_list cells l_tail l_head s_inserting s_reader v_arrival v_attention v_queue]. split_and!; [done | done | done | done | |].
    + cbn. split_and!; [destruct Ev as [-> | ->]; [by right | by left] | done | done | by apply G].
    + by destruct (s_reader s), b.
Qed.

Lemma tail_inv used s v event :
  shared_inv used s v -> s_inserting s = Linked event ->
  exists s', driver_move s = Ok s' /\ s_todo s' = s_todo s /\ shared_inv used s' (view_driver v).
Proof.
  intros (Ht & Hg & evs & qs & Hq & Ch & N & U & I & R) Ei. unfold driver_move. rewrite Ei in *.
  destruct v as [vt a q b vg vl]. cbn [v_todo v_got v_queue v_arrival v_attention] in *. destruct a; try done.
  eexists. split; [reflexivity |]. split; [done |]. cbn [view_driver]. split_and!; [done | done |]. exists evs, qs.
  cbn [s_list s_inserting s_reader v_arrival v_attention v_queue insert_tail cells]. split_and!; [done | done | done | done | |].
  - cbn [inserting_inv] in I |- *. unfold ends. cbn [l_tail cells]. destruct I as ([-> | ->] & Nz & Us & Is); [by right | done].
  - by destruct (s_reader s), b.
Qed.

Lemma data_chain_suffix C pre : forall post got rest,
  data_chain C (pre ++ post) (got ++ rest) -> length pre = length got -> data_chain C post rest.
Proof.
  induction pre as [|o pre IH]; intros post [|[k b] got] rest D L; try done. destruct D as [_ D]. injection L as L. exact (IH post got rest D L).
Qed.

Lemma client_inv used s v :
  shared_inv used s v -> exists s', client_move s = Ok s' /\ s_todo s' = s_todo s /\ shared_inv used s' (view_client v).
Proof.
  intros (Ht & Hg & evs & qs & Hq & Ch & N & U & I & R). destruct v as [vt a q b vg vl]. cbn [v_todo v_got v_queue v_arrival v_attention] in *.
  unfold client_move. destruct (s_reader s) as [|event off got|next] eqn:Er, b as [|rest|]; try done; cbn [reader_inv] in R.
  - rewrite R, (first_nonzero used) by (intros o Ho; apply U, elem_of_app; by left). destruct evs as [|ev evs], qs as [|[offs x] qs]; try done; subst q.
    + exists s. split; [done |]. split; [done |]. split_and!; [done | done |]. exists [], []. rewrite Er. done.
    + cbn in Ch. destruct Ch as ((e & Ee & En & Eh) & Dd & Ch). cbn. unfold event_at. rewrite Ee. cbn [mbind result_bind].
      eexists. split; [reflexivity |]. split; [done |]. split_and!; [done | done |]. exists (ev :: evs), ((offs, x) :: qs).
      cbn [s_list s_inserting s_reader v_arrival v_attention v_queue]. split_and!; [done | | done | done | done |].
      * cbn. split_and!; [by exists e | done | done].
      * split; [done |]. exists evs, [], offs, qs. done.
  - destruct R as (Hh & evs' & pre & post & qs' & -> & -> & -> & Lp). subst q. cbn in Ch. destruct Ch as ((e & Ee & En & Eh) & Dd & Ch).
    pose proof (data_chain_suffix _ _ _ _ _ Dd Lp) as Ds. destruct post as [|o post], rest as [|[k d] rest]; try done.
    + unfold event_at. cbn [first head default from_option]. change (0 =? 0) with true. cbv iota. rewrite Ee. cbn [mbind result_bind].
      eexists. split; [reflexivity |]. split; [done |]. cbn [view_client fmap list_fmap]. rewrite !app_nil_r in *. split_and!; [done | by cbn; f_equal |].
      exists evs', qs'. cbn [s_list s_inserting s_reader v_arrival v_attention v_queue]. cbn [fmap list_fmap concat fst] in N, U, I.
      assert (Sb : forall o, o ∈ evs' ++ concat qs'.*1 -> o ∈ (event :: evs') ++ pre ++ concat qs'.*1).
      { intros o. rewrite !elem_of_app, elem_of_cons. tauto. }
      split_and!; [done | done | | intros o Ho; by apply U, Sb | |].
      * apply list.NoDup_cons in N as [_ N]. apply list.NoDup_app in N as (N1 & N2 & N3). apply list.NoDup_app in N3 as (_ & _ & N3).
        apply list.NoDup_app. split_and!; [done | | done]. intros o Ho K. apply (N2 o Ho), elem_of_app. by right.
      * assert (Pop : forall l, ends used l (event :: evs') -> is_Some (cells l !! event) -> ends used l evs').
        { intros l. unfold ends. rewrite last_cons. destruct (list.last evs'); [done |]. intros -> Is. right. split; [| done]. by apply U, list_elem_of_here. }
        assert (Is : is_Some (cells (s_list s) !! event)) by (by rewrite Ee).
        destruct (s_inserting s), a; try done; cbn [inserting_inv] in I |- *.
        -- by apply Pop.
        -- destruct I as [E (offs & B & Di)]. split; [by apply Pop |]. exists offs. split; [done |]. intros o Ho K. by apply (Di o Ho), Sb.
        -- destruct I as ([K|K] & Nz & Us & Is' & T); [| done]. injection K as -> ->. split_and!; [by right | done | done | done |].
           destruct T as [?|[? T]]; [by left | right]. split; [done |]. intros K. by apply T, Sb.
        -- destruct I as ([K|K] & Nz & Us & Is'); [done |]. split_and!; [| done | done | done]. rewrite last_cons in K.
           destruct evs' as [|z evs']; [by left | right]. destruct (list.last (z :: evs')) eqn:L; [done |]. by apply last_None in L.
      * split; [done |]. rewrite Hh. apply U, list_elem_of_here.
    + cbn in Ds. destruct Ds as [(dd & Q & Dn & Dk & Db) Ds]. cbn [first head default from_option]. unfold id.
      assert (Ho : o <> 0) by (apply (U o), elem_of_app; right; cbn; rewrite !elem_of_app; left; right; apply list_elem_of_here).
      rewrite (proj2 (Z.eqb_neq o 0) Ho). unfold data_at. rewrite Q. cbn [mbind result_bind]. eexists. split; [reflexivity |]. split; [done |].
      cbn [view_client]. split_and!; [done | done |]. exists (event :: evs'), ((pre ++ o :: post, got ++ (k, d) :: rest) :: qs').
      cbn [s_list s_inserting s_reader v_arrival v_attention v_queue]. split_and!; [done | | done | done | done |].
      * cbn. split_and!; [by exists e | done | done].
      * split; [done |]. exists evs', (pre ++ [o]), post, qs'. rewrite Dk, Db, <- !app_assoc, !length_app, Lp. done.
  - eexists. split; [reflexivity |]. split; [done |]. cbn [view_client]. destruct R as [-> Nz].
    split_and!; [by destruct q | by destruct q |]. exists evs, qs. destruct q; (split_and!; [done | done | done | done | |]; cbn [v_arrival v_attention s_inserting s_list s_reader]; [| done]);
      by destruct (s_inserting s), a.
Qed.

Lemma driver_inv_moves used s v :
  shared_inv used s v -> todo_fresh used (s_todo s) ->
  exists used' s', driver_move s = Ok s' /\ shared_inv used' s' (view_driver v) /\ todo_fresh used' (s_todo s').
Proof.
  intros I [N Fr]. destruct (s_inserting s) as [|event|event] eqn:Ei.
  - destruct (s_todo s) as [|[event items] todo] eqn:Et.
    + exists used, s. unfold driver_move. rewrite Ei, Et. split_and!; [done | | done].
      pose proof I as (Ht & _ & evs & qs & _ & _ & _ & _ & A & _). rewrite Et in Ht. rewrite Ei in A.
      destruct v as [vt a q b vg vl]. cbn in Ht, A. subst vt. by destruct a.
    + unfold todo_offsets in N, Fr. cbn [fmap list_fmap concat fst snd] in N, Fr. apply list.NoDup_app in N as (N1 & N2 & N3).
      destruct (begin_inv used s v event items todo I Ei Et N1) as (s' & E & Et' & I').
      { intros o Ho. apply Fr, elem_of_app. by left. }
      exists (used ∪ list_to_set (event :: items.*1)), s'. split_and!; [done | done |]. rewrite Et'. split; [done |].
      intros o Ho. split; [apply Fr, elem_of_app; by right |]. rewrite elem_of_union, elem_of_list_to_set.
      intros [K|K]; [apply (Fr o); [apply elem_of_app; by right | done] | by apply (N2 o K)].
  - destruct (link_inv used s v event I Ei) as (s' & E & Et & I'). exists used, s'. rewrite Et. done.
  - destruct (tail_inv used s v event I Ei) as (s' & E & Et & I'). exists used, s'. rewrite Et. done.
Qed.

Lemma run_shared_spec moves : forall used s v,
  shared_inv used s v -> todo_fresh used (s_todo s) ->
  exists used' s', run_shared moves s = Ok s' /\ shared_inv used' s' (run_view moves v).
Proof.
  induction moves as [|[] moves IH]; intros used s v I F; cbn [run_shared run_view]; [by exists used, s | |].
  - destruct (driver_inv_moves used s v I F) as (used1 & s1 & -> & I1 & F1). cbn [mbind result_bind]. by apply (IH used1 s1).
  - destruct (client_inv used s v I) as (s1 & -> & Et & I1). cbn [mbind result_bind]. apply (IH used s1); [done | by rewrite Et].
Qed.

(** ** What becomes of the events *)

(** read, waiting, about to be linked, to come *)
Definition whole (v : view) : list (list (Z * bytes)) :=
  v_got v ++ v_queue v ++ match v_arrival v with Arriving x => [x] | _ => [] end ++ v_todo v.

Lemma view_driver_whole v :
  sublist (whole (view_driver v)) (whole v) /\ whole (view_driver v) ++ v_lost (view_driver v) ≡ₚ whole v ++ v_lost v.
Proof.
  destruct v as [todo [|x| |] q b got lost]; cbn; [| | done | done].
  - destruct todo as [|x todo]; [done |]. destruct q as [|y q], b; done.
  - destruct q as [|y q]; cbn; unfold whole; cbn.
    + split; [apply sublist_app; [done | by apply sublist_cons] |]. solve_Permutation.
    + rewrite <- app_assoc. done.
Qed.

Lemma view_client_whole v : whole (view_client v) = whole v /\ v_lost (view_client v) = v_lost v.
Proof. destruct v as [todo a q [|[|? ?]|] got lost], q as [|y q]; cbn; unfold whole; cbn; by rewrite <- ?app_assoc. Qed.

Lemma run_view_whole moves : forall v,
  sublist (whole (run_view moves v)) (whole v) /\ whole (run_view moves v) ++ v_lost (run_view moves v) ≡ₚ whole v ++ v_lost v.
Proof.
  induction moves as [|[] moves IH]; intros v; cbn [run_view]; [done | |].
  - destruct (IH (view_driver v)) as [S P], (view_driver_whole v) as [S' P']. split; [by etrans | by rewrite P].
  - destruct (IH (view_client v)) as [S P], (view_client_whole v) as [E L]. by rewrite E, ?L in *.
Qed.

Lemma sublist_same_length {A} (l k : list A) : sublist l k -> length k = length l -> l = k.
Proof.
  induction 1 as [|x l k S IH|x l k S IH]; cbn; intros L; [done | f_equal; apply IH; lia |].
  apply sublist_length in S. lia.
Qed.

Lemma apart_keeps moves : forall v,
  match v_arrival v with Arriving _ => v_queue v <> [] | _ => True end -> all_apart moves v = true ->
  v_lost (run_view moves v) = v_lost v.
Proof.
  induction moves as [|m moves IH]; intros v W A; [done |]. cbn [all_apart] in A. apply andb_true_iff in A as [A1 A].
  destruct v as [todo a q b got lost], m; cbn [run_view] in *; (rewrite IH; [| clear A IH | exact A]).
  - destruct a as [|x| |]; try done; cbn; [destruct todo, q, b; done |]. by destruct q.
  - destruct a as [|x| |]; cbn in *; [destruct todo, q, b; done | destruct q; done | done | done].
  - by destruct (view_client_whole (mkView todo a q b got lost)).
  - destruct a as [|x| |]; cbn in *; destruct b as [|[|? ?]|], q; done.
Qed.

(** C27: The shared list under any interleaving of the driver's and the client's
    statements, from the empty list on, when no space is used twice: nothing
    faults, and the list is the queue described by [run_view]. The client gets
    the events in the order in which they are inserted, each at most once and
    with its data in order; what it got, what waits and what is still to come
    are, with the events lost, exactly the events of the driver. Lost is
    an event that is linked behind one whose [next] the client has already
    loaded. As long as no insertion begins between the client's load of [next]
    and its store of [head], and [next] is not loaded while an event waits to be
    linked, nothing is lost. *)
Theorem shared_list_queue todo moves :
  NoDup (todo_offsets todo) -> Forall (fun o => o <> 0) (todo_offsets todo) ->
  let contents := (fun e => e.2.*2) <$> todo in
  let start := mkView contents NoArrival [] Looking [] [] in
  let v := run_view moves start in
  exists s, run_shared moves (mkShared empty_list todo NotInserting Waiting []) = Ok s /\ s_got s = v_got v /\
    sublist (whole v) contents /\ whole v ++ v_lost v ≡ₚ contents /\
    (all_apart moves start = true -> whole v = contents).
Proof.
  intros N No contents start v.
  destruct (run_shared_spec moves ∅ (mkShared empty_list todo NotInserting Waiting []) start) as (used & s & E & I).
  - split_and!; [done | done |]. exists [], []. split_and!; try done; [constructor | by intros o ?%elem_of_nil | by left].
  - split; [done |]. intros o Ho. rewrite list.Forall_forall in No. split; [by apply No | set_solver].
  - exists s. split; [done |]. split; [apply I |]. destruct (run_view_whole moves start) as [S P]. fold v in S, P.
    change (whole start) with contents in S, P. change (v_lost start) with (@nil (list (Z * bytes))) in P. rewrite app_nil_r in P.
    split_and!; [done | done |]. intros A. pose proof (apart_keeps moves start Logic.I A) as L. fold v in L. rewrite L, app_nil_r in P.
    apply (sublist_same_length _ _ S). by rewrite P.
Qed.

(** run alone, the statements make up the calls *)
Lemma driver_alone event items todo l r got l' :
  produce event items l = Ok l' ->
  run_shared [TheDriver; TheDriver; TheDriver] (mkShared l ((event, items) :: todo) NotInserting r got) =
  Ok (mkShared l' todo NotInserting r got).
Proof.
  unfold produce. cbn. destruct (add_items event items (CreateEvent event l)) as [l1|]; [| done]. cbn [mbind result_bind].
  rewrite InsertEvent_steps. destruct (insert_head event l1) as [l2|]; [| done]. cbn.
  destruct (insert_link event l2) as [l3|]; [| done]. cbn. by intros [= <-].
Qed.

Lemma client_reads todo i l ev got0 fuel : forall off items had,
  read_items fuel (cells l) off = Ok items ->
  run_shared (replicate (length items) TheClient) (mkShared l todo i (Reading ev off had) got0) =
  Ok (mkShared l todo i (Reading ev 0 (had ++ items)) got0).
Proof.
  induction fuel as [|fuel IH]; intros off items had E; cbn in E; destruct (Z.eqb_spec off 0) as [-> | Nz]; try done;
    try (injection E as <-; by rewrite app_nil_r).
  destruct (data_at (cells l) off) as [d|] eqn:Ed; [| done]. cbn [mbind result_bind] in E.
  destruct (read_items fuel (cells l) (d_next d)) as [rest|] eqn:Er; [| done]. injection E as <-.
  cbn. rewrite (proj2 (Z.eqb_neq off 0) Nz), Ed. cbn [mbind result_bind]. rewrite (IH _ _ _ Er), <- app_assoc. done.
Qed.

Lemma client_alone fuel todo i l items l' got :
  consume fuel l = Ok (Some items, l') ->
  run_shared (TheClient :: replicate (length items) TheClient ++ [TheClient; TheClient]) (mkShared l todo i Waiting got) =
  Ok (mkShared l' todo i Waiting (got ++ [items])).
Proof.
  unfold consume. destruct (Z.eqb_spec (l_head l) 0) as [|Nz]; [done |].
  destruct (event_at (cells l) (l_head l)) as [e|] eqn:Ee; [| done]. cbn [mbind result_bind].
  destruct (read_items fuel (cells l) (e_head e)) as [its|] eqn:Er; [| done]. intros [= <- <-].
  assert (App : forall a b s, run_shared (a ++ b) s = (s ← run_shared a s; run_shared b s)).
  { induction a as [|[] a IH]; intros b s; [done | |]; cbn; [destruct (driver_move s) | destruct (client_move s)]; cbn; auto. }
  cbn [run_shared]. unfold client_move at 1. cbn [s_reader s_list s_todo s_inserting s_got].
  rewrite (proj2 (Z.eqb_neq _ 0) Nz), Ee. cbn [mbind result_bind]. rewrite App, (client_reads _ _ _ _ _ fuel _ _ _ Er).
  cbn. by rewrite Ee.
Qed.

(** Space used again: the client leaves the tail of an emptied list as it
    is. When the driver then builds the next event in the space of the last one,
    inserting it links it to itself, and the client gets this event again at
    every call, for ever. *)
Theorem reused_tail_loops fuel l t items n :
  l_head l = 0 -> l_tail l = t -> NoDup (t :: items.*1) -> Forall (fun o => o <> 0) (t :: items.*1) ->
  (length items <= fuel)%nat ->
  exists l', produce t items l = Ok l' /\
    run_list fuel (replicate n Consume) l' = Ok (replicate n items.*2, l').
Proof.
  intros Hh Ht N [Nt No]%list.Forall_cons L. unfold produce.
  destruct (add_items_spec t items (CreateEvent t l) [] []) as (l2 & -> & [Dd (e & Ee & En & Eh & _)] & H2 & T2 & _).
  { split; [done |]. eexists. cbn [CreateEvent cells]. by rewrite lookup_insert_eq. }
  { done. }
  { done. }
  cbn [app CreateEvent l_head l_tail] in *. cbn [mbind result_bind]. unfold InsertEvent, event_at. rewrite Ee. cbn [mbind result_bind].
  rewrite H2, T2, Hh, Ht. change (0 =? 0) with true. cbv iota. rewrite (proj2 (Z.eqb_neq t 0) Nt).
  unfold write_next. rewrite lookup_insert_eq. cbn [mbind result_bind set_next e_previous e_ready e_head e_tail].
  eexists. split; [reflexivity |]. set (C := <[t := _]> (<[t := _]> (cells l2))).
  assert (Ct : C !! t = Some (EventCell (mkEvent t t 1 (first items.*1) (e_tail e)))).
  { unfold C. by rewrite lookup_insert_eq, Eh. }
  assert (Dc : data_chain C items.*1 items.*2).
  { apply (data_chain_frame (cells l2)); [| done]. intros o Ho. unfold C. apply list.NoDup_cons in N as [N _].
    rewrite !lookup_insert_ne by (intros <-; done). done. }
  induction n as [|n IH]; cbn [replicate run_list]; [done |]. unfold consume at 1. cbn [l_head cells].
  rewrite (proj2 (Z.eqb_neq t 0) Nt). unfold event_at. rewrite Ct. cbn [mbind result_bind e_head].
  rewrite (read_items_spec C items.*1 items.*2 fuel Dc) by (done || by rewrite length_fmap).
  cbn [mbind result_bind fst snd e_next l_tail option_list app]. rewrite IH. done.
Qed.

Definition sample_todo : list (Z * list item) :=
  [(4112, [(4144, (0, [4; 0; 0; 0])); (4176, (3, [100; 0; 0; 0]))]); (4208, [(4240, (0, [1; 0; 0; 0]))]); (4272, [])].

(** the second event is inserted while the first is read *)
Definition sample_moves : list mover :=
  [TheClient; TheDriver; TheClient; TheDriver; TheClient; TheDriver; TheDriver; TheClient; TheDriver; TheClient;
   TheDriver; TheClient; TheDriver; TheClient; TheClient; TheDriver; TheClient; TheClient].

Lemma shared_list_queue_witness :
  exists s, run_shared sample_moves (mkShared empty_list sample_todo NotInserting Waiting []) = Ok s /\
    s_got s = [[(0, [4; 0; 0; 0]); (3, [100; 0; 0; 0])]; [(0, [1; 0; 0; 0])]].
Proof.
  destruct (shared_list_queue sample_todo sample_moves) as (s & E & G & _).
  - apply (bool_decide_unpack _). vm_compute. exact I.
  - apply (bool_decide_unpack _). vm_compute. exact I.
  - exists s. split; [exact E |]. rewrite G. vm_compute. reflexivity.
Defined.

(** an event inserted between the client's load of [next] and its store of
    [head] is never read, whatever the client does *)
Example event_lost :
  exists s, run_shared ([TheDriver; TheDriver; TheDriver; TheClient; TheClient; TheDriver; TheDriver; TheDriver] ++
      replicate 5 TheClient ++ replicate 3 TheDriver ++ replicate 5 TheClient)
    (mkShared empty_list [(4112, []); (4144, []); (4176, [(4208, (0, [1]))])] NotInserting Waiting []) = Ok s /\
    s_got s = [[]; [(0, [1])]].
Proof. eexists. split; vm_compute; reflexivity. Qed.

Lemma reused_tail_loops_witness :
  exists l', produce 4112 [(4144, (3, [8; 0; 0; 0]))] (mkList 0 4112 ∅) = Ok l' /\
    run_list 1 (replicate 3 Consume) l' = Ok (replicate 3 [(3, [8; 0; 0; 0])], l').
Proof.
  apply (reused_tail_loops 1 (mkList 0 4112 ∅) 4112 [(4144, (3, [8; 0; 0; 0]))] 3).
  - reflexivity.
  - reflexivity.
  - apply (bool_decide_unpack _). vm_compute. exact I.
  - apply (bool_decide_unpack _). vm_compute. exact I.
  - cbn. lia.
Defined.

(** ** The network monitor *)

Definition TCP_STATE_LISTEN : Z := 1.
Definition TCP_STATE_ESTABLISHED : Z := 4.
Definition UDP_STATE_CONNECT : Z := 12.
Definition UDP_STATE_SEND : Z := 14.
Definition UDP_STATE_RECEIVE : Z := 15.
Definition UDP_STATE_SEND_DATAGRAM : Z := 16.
Definition UDP_STATE_RECEIVE_DATAGRAM : Z := 17.

(** the type a connection state gives an event; other states leave it *)
Definition tcp_type (connection_state : Z) (type : wstring) : wstring :=
  if connection_state =? TCP_STATE_ESTABLISHED then bs "tcp-connection"
  else if connection_state =? TCP_STATE_LISTEN then bs "tcp-listening"
  else type.

Definition udp_type (connection_state : Z) (type : wstring) : wstring :=
  if (connection_state =? UDP_STATE_SEND) || (connection_state =? UDP_STATE_SEND_DATAGRAM) ||
     (connection_state =? UDP_STATE_CONNECT) then bs "udp-connection"
  else if (connection_state =? UDP_STATE_RECEIVE) || (connection_state =? UDP_STATE_RECEIVE_DATAGRAM)
  then bs "udp-listening"
  else type.

Record connection_info := mkInfo {
  process_id : Z; process_path : wstring; connection_type : wstring;
  destination_address : wstring; source_address : wstring;
}.

Definition no_info : connection_info := mkInfo 0 [] [] [] [].

(** a string in a container *)
Definition address_at (data : bytes) : result wstring :=
  if bool_decide (0 ∈ data) then Ok (multiByteStringToWideString data) else Fault OutOfBoundsRead.

Section Network.
Context `{Processes} (waited : nat -> gmap Z wstring -> gmap Z wstring) (type_of : Z -> wstring -> wstring).

(** the body of the while loop *)
Definition read_item (i : Z * bytes) (c : connection_info) (pm : ProcessManager)
  : result (connection_info * ProcessManager) :=
  let '(key, data) := i in
  if key =? 0 then
    connection_state ← read_le32 data 0;
    Ok (mkInfo (process_id c) (process_path c) (type_of connection_state (connection_type c))
          (destination_address c) (source_address c), pm)
  else if key =? 1 then
    a ← address_at data;
    Ok (mkInfo (process_id c) (process_path c) (connection_type c) (destination_address c) a, pm)
  else if key =? 2 then
    a ← address_at data;
    Ok (mkInfo (process_id c) (process_path c) (connection_type c) a (source_address c), pm)
  else if key =? 3 then
    pid ← read_le32 data 0;
    r ← getProcessPath waited pid pm;
    Ok (mkInfo pid r.1 (connection_type c) (destination_address c) (source_address c), r.2)
  else Ok (c, pm).

Fixpoint read_info (items : list (Z * bytes)) (c : connection_info) (pm : ProcessManager)
  : result (connection_info * ProcessManager) :=
  match items with
  | [] => Ok (c, pm)
  | i :: items' => r ← read_item i c pm; read_info items' r.1 r.2
  end.

(** processTcpEvents and processUdpEvents, on the items they found *)
Definition processEvents (allowed : wstring -> wstring -> wstring -> result bool) (now : wstring)
    (items : list (Z * bytes)) (pm : ProcessManager) : result (ProcessManager * list system_event) :=
  r ← read_info items no_info pm;
  let '(c, pm) := r in
  if (0 <? length (connection_type c))%nat then
    a ← allowed (connection_type c) (process_path c) (destination_address c);
    Ok (pm, if a : bool then []
            else [ConnectionEvent (connection_type c) now (process_id c) (process_path c) (source_address c)
                    (destination_address c)])
  else Ok (pm, []).
End Network.

#[local] Existing Instance Machine.

(** a connection of an unknown process to a remote address *)
Example sample_connection :
  processEvents (fun _ m => m) tcp_type (fun _ _ _ => Ok false) (bs "now")
    [(0, [4; 0; 0; 0]); (1, bs "10.0.0.1" ++ [0]); (2, bs "10.0.0.2" ++ [0]); (3, [8; 0; 0; 0])] (mkProcesses ∅ 0 0 0) =
  Ok (mkProcesses {[8 := bs "C:\WINDOWS\b.exe"]} 0 1 0,
      [ConnectionEvent (bs "tcp-connection") (bs "now") 8 (bs "C:\WINDOWS\b.exe") (bs "10.0.0.1") (bs "10.0.0.2")]).
Proof. vm_compute. reflexivity. Qed.
