(* ===== verification/HashMap.v ===== *)
(** * The hash map of the connection driver (HashMap.c)

    A table of 1024 doubly linked lists. Pairs live in pool memory at the
    addresses the pool gave out; address 0 is NULL, and reading a pair that is
    not allocated is a fault. *)
From Stdlib Require Import ZArith Lia.
From stdpp Require Import base gmap list numbers sorting.
From S2P Require Import Prelude.

Local Open Scope Z_scope.

Definition HASH_MAP_SIZE : Z := 1024.

Record Pair := mkPair { next : Z; prev : Z; key : Z; value : Z }.
Record Entry := mkEntry { head : Z; tail : Z }.

(** [map]: the entries that are allocated; [pairs]: the allocated pairs *)
Record HashMap := mkHashMap { map : gmap Z Entry; pairs : gmap Z Pair }.

(** ExAllocatePoolWithTag, which may fail at any time and otherwise gives
    memory that is not in use *)
Class Pool := {
  allocate_entry : nat -> bool;
  allocate_pair : nat -> gset Z -> option Z;
  allocate_fresh : forall t used a, allocate_pair t used = Some a -> a <> 0 /\ a ∉ used;
}.

Definition pair_at (m : gmap Z Pair) (a : Z) : result Pair :=
  match m !! a with Some p => Ok p | None => Fault UseAfterFree end.

Definition set_pair_next (a x : Z) (m : gmap Z Pair) : result (gmap Z Pair) :=
  p ← pair_at m a;
  Ok (<[a := mkPair x (prev p) (key p) (value p)]> m).

Definition set_pair_prev (a x : Z) (m : gmap Z Pair) : result (gmap Z Pair) :=
  p ← pair_at m a;
  Ok (<[a := mkPair (next p) x (key p) (value p)]> m).

(** ExFreePoolWithTag *)
Definition free_pair (a : Z) (m : gmap Z Pair) : result (gmap Z Pair) :=
  _ ← pair_at m a;
  Ok (delete a m).

(** ** Operations *)

Definition InitialiseHashMap : HashMap := mkHashMap ∅ ∅.

Definition hash (k : Z) : Z := k mod HASH_MAP_SIZE.

Section Operations.
Context `{Pool}.

(** the entry of a bucket, allocated on its first use *)
Definition get_entry (t : nat) (h : Z) (m : gmap Z Entry) : option Entry :=
  match m !! h with
  | Some e => Some e
  | None => if allocate_entry t then Some (mkEntry 0 0) else None
  end.

Definition InsertHashMap (t : nat) (k v : Z) (hm : HashMap) : result (bool * HashMap) :=
  let h := hash k in
  match get_entry t h (map hm) with
  | None => Ok (false, hm)
  | Some e =>
    let entries := <[h := e]> (map hm) in
    match allocate_pair t (dom (pairs hm)) with
    | None => Ok (false, mkHashMap entries (pairs hm))
    | Some cur =>
      let m := <[cur := mkPair 0 (tail e) k v]> (pairs hm) in
      let first := if head e =? 0 then cur else head e in
      m ← (if negb (tail e =? 0) then set_pair_next (tail e) cur m else Ok m);
      Ok (true, mkHashMap (<[h := mkEntry first cur]> entries) m)
    end
  end.
End Operations.

(** the loop over a bucket; every cur is met at most once, so as many turns
    as there are pairs suffice *)
Fixpoint find_loop (fuel : nat) (k cur : Z) (m : gmap Z Pair) : result Z :=
  if cur =? 0 then Ok 0
  else match fuel with
  | O => Fault OutOfFuel
  | S fuel' =>
    p ← pair_at m cur;
    if key p =? k then Ok cur else find_loop fuel' k (next p) m
  end.

Definition FindHashMap (k : Z) (hm : HashMap) : result Z :=
  match map hm !! hash k with
  | None => Ok 0
  | Some e => find_loop (size (pairs hm)) k (head e) (pairs hm)
  end.

Definition FindHashMapValue (k : Z) (hm : HashMap) : result Z :=
  cur ← FindHashMap k hm;
  if cur =? 0 then Ok 0
  else p ← pair_at (pairs hm) cur; Ok (value p).

Definition RemoveHashMap (k : Z) (hm : HashMap) : result (bool * HashMap) :=
  cur ← FindHashMap k hm;
  if cur =? 0 then Ok (false, hm)
  else
    p ← pair_at (pairs hm) cur;
    m ← (if negb (next p =? 0) then set_pair_prev (next p) (prev p) (pairs hm) else Ok (pairs hm));
    p ← pair_at m cur;
    m ← (if negb (prev p =? 0) then set_pair_next (prev p) (next p) m else Ok m);
    p ← pair_at m cur;
    match map hm !! hash k with
    | None => Fault NullDeref
    | Some e =>
      let e := mkEntry (if head e =? cur then next p else head e) (if tail e =? cur then prev p else tail e) in
      m ← free_pair cur m;
      Ok (true, mkHashMap (<[hash k := e]> (map hm)) m)
    end.

Section Visit.
Context {S : Type} (visitor : Z -> Z -> S -> result S).

Fixpoint visit_loop (fuel : nat) (cur : Z) (m : gmap Z Pair) (s : S) : result S :=
  if cur =? 0 then Ok s
  else match fuel with
  | O => Fault OutOfFuel
  | Datatypes.S fuel' =>
    p ← pair_at m cur;
    s ← visitor (key p) (value p) s;
    visit_loop fuel' (next p) m s
  end.

Fixpoint visit_buckets (ids : list Z) (hm : HashMap) (s : S) : result S :=
  match ids with
  | [] => Ok s
  | i :: ids' =>
    s ← match map hm !! i with
        | None => Ok s
        | Some e => visit_loop (size (pairs hm)) (head e) (pairs hm) s
        end;
    visit_buckets ids' hm s
  end.

Definition IterateHashMap (hm : HashMap) (s : S) : result S := visit_buckets (seqZ 0 HASH_MAP_SIZE) hm s.
End Visit.

Fixpoint free_loop (fuel : nat) (cur : Z) (m : gmap Z Pair) : result (gmap Z Pair) :=
  if cur =? 0 then Ok m
  else match fuel with
  | O => Fault OutOfFuel
  | S fuel' =>
    p ← pair_at m cur;
    m ← free_pair cur m;
    free_loop fuel' (next p) m
  end.

Fixpoint free_buckets (ids : list Z) (hm : HashMap) : result HashMap :=
  match ids with
  | [] => Ok hm
  | i :: ids' =>
    hm ← match map hm !! i with
         | None => Ok hm
         | Some e => m ← free_loop (size (pairs hm)) (head e) (pairs hm); Ok (mkHashMap (delete i (map hm)) m)
         end;
    free_buckets ids' hm
  end.

Definition DestroyHashMap (hm : HashMap) : result HashMap := free_buckets (seqZ 0 HASH_MAP_SIZE) hm.

(** ** Lists of pairs *)

(** a pair of a bucket: its address, key and value *)
Definition node : Type := Z * (Z * Z).

Definition first (l : list node) (d : Z) : Z := match l with [] => d | n :: _ => n.1 end.
Definition final (l : list node) (d : Z) : Z := match list.last l with Some n => n.1 | None => d end.

(** the pairs of [l] lie in [m] linked in both directions, between [before] and [after] *)
Fixpoint linked (m : gmap Z Pair) (before : Z) (l : list node) (after : Z) : Prop :=
  match l with
  | [] => True
  | n :: l' => m !! n.1 = Some (mkPair (first l' after) before n.2.1 n.2.2) /\ linked m n.1 l' after
  end.

Lemma first_node_app l1 l2 d : first (l1 ++ l2) d = first l1 (first l2 d).
Proof. by destruct l1. Qed.

Lemma final_cons n l d : final (n :: l) d = final l n.1.
Proof. unfold final. destruct l; [done |]. by rewrite list.last_cons_cons; destruct (list.last _) eqn:E; [| apply last_None in E]. Qed.

Lemma final_app l1 l2 d : final (l1 ++ l2) d = final l2 (final l1 d).
Proof. revert d. induction l1 as [|n l1 IH]; intros d; [done |]. cbn [app]. by rewrite !final_cons, IH. Qed.

Lemma linked_app m l1 : forall before l2 after,
  linked m before (l1 ++ l2) after <-> linked m before l1 (first l2 after) /\ linked m (final l1 before) l2 after.
Proof.
  induction l1 as [|n l1 IH]; intros before l2 after; [cbn; tauto |]. cbn [app linked].
  rewrite IH, first_node_app, final_cons. tauto.
Qed.

Lemma linked_frame m m' l : forall before after,
  (forall a, a ∈ l.*1 -> m' !! a = m !! a) -> linked m before l after -> linked m' before l after.
Proof.
  induction l as [|n l IH]; intros before after F; [done |]. intros [P L]. split.
  - rewrite F; [done | apply list_elem_of_here].
  - apply IH; [| done]. intros a Ha. apply F. by apply list_elem_of_further.
Qed.

Lemma linked_insert m a p l before after :
  a ∉ l.*1 -> linked m before l after -> linked (<[a := p]> m) before l after.
Proof. intros N. apply linked_frame. intros x Hx. apply lookup_insert_ne. by intros ->. Qed.

Lemma linked_delete m a l before after :
  a ∉ l.*1 -> linked m before l after -> linked (delete a m) before l after.
Proof. intros N. apply linked_frame. intros x Hx. apply lookup_delete_ne. by intros ->. Qed.

Lemma linked_lookup m l before after a : linked m before l after -> a ∈ l.*1 -> is_Some (m !! a).
Proof.
  revert before. induction l as [|n l IH]; intros before L Ha; [by apply not_elem_of_nil in Ha |]. destruct L as [P L].
  cbn in Ha. apply elem_of_cons in Ha as [-> | Ha]; [by rewrite P | by apply (IH n.1)].
Qed.

Lemma first_in (l : list node) d : first l d = d \/ first l d ∈ l.*1.
Proof. destruct l; [by left | right; apply list_elem_of_here]. Qed.

Lemma final_in (l : list node) d : l <> [] -> final l d ∈ l.*1.
Proof.
  intros N. unfold final. destruct (list.last l) as [n|] eqn:E; [| by apply last_None in E].
  apply last_Some in E as [l' ->]. rewrite fmap_app. apply elem_of_app. right. apply list_elem_of_here.
Qed.

Lemma find_loop_spec m k l : forall fuel before, linked m before l 0 -> 0 ∉ l.*1 -> (length l <= fuel)%nat ->
  match find_loop fuel k (first l 0) m with
  | Ok a => (a = 0 /\ forall n, n ∈ l -> n.2.1 <> k) \/
            (exists l1 v l2, l = l1 ++ (a, (k, v)) :: l2 /\ forall n, n ∈ l1 -> n.2.1 <> k)
  | Fault _ => False
  end.
Proof.
  induction l as [|[a [k' v]] l IH]; intros fuel before L N Le.
  - destruct fuel; cbn; left; (split; [done |]); intros n Hn; by apply not_elem_of_nil in Hn.
  - destruct fuel as [|fuel]; [cbn in Le; lia |]. destruct L as [P L]. cbn [first fst snd find_loop] in *.
    cbn in N. apply not_elem_of_cons in N as [Na N]. rewrite (proj2 (Z.eqb_neq a 0)) by done.
    unfold pair_at. rewrite P. cbn [mbind result_bind key next]. destruct (Z.eqb_spec k' k) as [-> | Nk].
    + right. exists [], v, l. split; [done |]. intros n Hn. by apply not_elem_of_nil in Hn.
    + specialize (IH fuel a L N). cbn in Le. specialize (IH ltac:(lia)).
      destruct (find_loop fuel k (first l 0) m) as [a1|]; [| done].
      destruct IH as [[-> A] | (l1 & v1 & l2 & -> & A)].
      * left. split; [done |]. intros n Hn. apply elem_of_cons in Hn as [-> | Hn]; [done | by apply A].
      * right. exists ((a, (k', v)) :: l1), v1, l2. split; [done |].
        intros n Hn. apply elem_of_cons in Hn as [-> | Hn]; [done | by apply A].
Qed.

(** ** The map as an association list *)

(** reference: pairs in the order of their insertion *)
Fixpoint lookup_first (k : Z) (kvs : list (Z * Z)) : option Z :=
  match kvs with
  | [] => None
  | kv :: kvs' => if kv.1 =? k then Some kv.2 else lookup_first k kvs'
  end.

Fixpoint remove_first (k : Z) (kvs : list (Z * Z)) : list (Z * Z) :=
  match kvs with
  | [] => []
  | kv :: kvs' => if kv.1 =? k then kvs' else kv :: remove_first k kvs'
  end.

(** what bucket [i] holds of it *)
Definition contents (i : Z) (kvs : list (Z * Z)) : list (Z * Z) := filter (fun kv => hash kv.1 = i) kvs.

Lemma lookup_contents k kvs : lookup_first k (contents (hash k) kvs) = lookup_first k kvs.
Proof.
  induction kvs as [|kv kvs IH]; [done |]. unfold contents in *. rewrite filter_cons. cbn [lookup_first].
  destruct (Z.eqb_spec kv.1 k) as [E|N].
  - rewrite decide_True by (by rewrite E). cbn. by rewrite (proj2 (Z.eqb_eq kv.1 k)).
  - case_decide; [| done]. cbn. by rewrite (proj2 (Z.eqb_neq kv.1 k)).
Qed.

Lemma remove_contents k kvs : contents (hash k) (remove_first k kvs) = remove_first k (contents (hash k) kvs).
Proof.
  induction kvs as [|kv kvs IH]; [done |]. unfold contents in *. cbn [remove_first]. rewrite filter_cons.
  destruct (Z.eqb_spec kv.1 k) as [E|N].
  - rewrite decide_True by (by rewrite E). cbn. by rewrite (proj2 (Z.eqb_eq kv.1 k)).
  - rewrite filter_cons. case_decide; [| done]. cbn. rewrite (proj2 (Z.eqb_neq kv.1 k)) by done. by rewrite IH.
Qed.

Lemma remove_contents_ne k i kvs : i <> hash k -> contents i (remove_first k kvs) = contents i kvs.
Proof.
  intros N. induction kvs as [|kv kvs IH]; [done |]. unfold contents in *. cbn [remove_first].
  destruct (Z.eqb_spec kv.1 k) as [E|Nk].
  - rewrite filter_cons. rewrite decide_False; [done |]. rewrite E. congruence.
  - rewrite !filter_cons, IH. done.
Qed.

Lemma lookup_none k kvs : (forall kv, kv ∈ kvs -> kv.1 <> k) -> lookup_first k kvs = None.
Proof.
  induction kvs as [|kv kvs IH]; intros A; [done |]. cbn. rewrite (proj2 (Z.eqb_neq _ _)).
  - apply IH. intros x Hx. apply A. by apply list_elem_of_further.
  - apply A, list_elem_of_here.
Qed.

Lemma remove_none k kvs : (forall kv, kv ∈ kvs -> kv.1 <> k) -> remove_first k kvs = kvs.
Proof.
  induction kvs as [|kv kvs IH]; intros A; [done |]. cbn. rewrite (proj2 (Z.eqb_neq _ _)).
  - f_equal. apply IH. intros x Hx. apply A. by apply list_elem_of_further.
  - apply A, list_elem_of_here.
Qed.

Lemma lookup_middle k v a b : (forall kv, kv ∈ a -> kv.1 <> k) -> lookup_first k (a ++ (k, v) :: b) = Some v.
Proof.
  induction a as [|kv a IH]; intros A; cbn; [by rewrite Z.eqb_refl |]. rewrite (proj2 (Z.eqb_neq _ _)).
  - apply IH. intros x Hx. apply A. by apply list_elem_of_further.
  - apply A, list_elem_of_here.
Qed.

Lemma remove_middle k v a b : (forall kv, kv ∈ a -> kv.1 <> k) -> remove_first k (a ++ (k, v) :: b) = a ++ b.
Proof.
  induction a as [|kv a IH]; intros A; cbn; [by rewrite Z.eqb_refl |]. rewrite (proj2 (Z.eqb_neq _ _)).
  - f_equal. apply IH. intros x Hx. apply A. by apply list_elem_of_further.
  - apply A, list_elem_of_here.
Qed.

(** ** Representation *)

Definition bucket_ok (hm : HashMap) (i : Z) (l : list node) : Prop :=
  linked (pairs hm) 0 l 0 /\
  match map hm !! i with Some e => head e = first l 0 /\ tail e = final l 0 | None => l = [] end.

(** the memory holds the map [kvs] in the lists [B], and nothing else *)
Record represents (hm : HashMap) (B : Z -> list node) (kvs : list (Z * Z)) : Prop := {
  rep_bucket : forall i, bucket_ok hm i (B i);
  rep_contents : forall i, (B i).*2 = contents i kvs;
  rep_nodup : forall i, NoDup (B i).*1;
  rep_disjoint : forall i j a, a ∈ (B i).*1 -> a ∈ (B j).*1 -> i = j;
  rep_allocated : forall a, is_Some (pairs hm !! a) -> exists i, a ∈ (B i).*1;
  rep_null : forall i, 0 ∉ (B i).*1;
  rep_range : forall i, is_Some (map hm !! i) -> 0 <= i < HASH_MAP_SIZE;
}.

Definition update (B : Z -> list node) (i : Z) (l : list node) : Z -> list node := fun j => if j =? i then l else B j.

Lemma update_eq B i l : update B i l i = l.
Proof. unfold update. by rewrite Z.eqb_refl. Qed.

Lemma update_ne B i j l : j <> i -> update B i l j = B j.
Proof. intros N. unfold update. by rewrite (proj2 (Z.eqb_neq j i)). Qed.

Lemma hash_range k : 0 <= hash k < HASH_MAP_SIZE.
Proof. unfold hash, HASH_MAP_SIZE. apply Z.mod_pos_bound. lia. Qed.

Lemma represents_size hm B kvs i : represents hm B kvs -> (length (B i) <= size (pairs hm))%nat.
Proof.
  intros R. replace (length (B i)) with (length (B i).*1) by apply length_fmap. rewrite <- (size_list_to_set (C := gset Z)) by apply R.
  rewrite <- size_dom. apply subseteq_size. intros a Ha. apply elem_of_list_to_set in Ha. apply elem_of_dom.
  destruct (rep_bucket _ _ _ R i) as [L _]. by apply (linked_lookup _ _ _ _ a) in L.
Qed.

Lemma represents_empty : represents InitialiseHashMap (fun _ => []) [].
Proof.
  split; try done.
  - intros i. constructor.
  - intros i j a Ha. by apply not_elem_of_nil in Ha.
  - intros a [p E]. unfold InitialiseHashMap in E. cbn [pairs] in E. by rewrite lookup_empty in E.
  - intros i. by apply not_elem_of_nil.
  - intros i [p E]. unfold InitialiseHashMap in E. cbn [map] in E. by rewrite lookup_empty in E.
Qed.

(** an operation that changes one bucket only *)
Lemma represents_update hm B kvs hm' i l' kvs' : represents hm B kvs -> 0 <= i < HASH_MAP_SIZE ->
  (forall j, j <> i -> map hm' !! j = map hm !! j) ->
  (forall j a, j <> i -> a ∈ (B j).*1 -> pairs hm' !! a = pairs hm !! a) ->
  bucket_ok hm' i l' -> l'.*2 = contents i kvs' -> (forall j, j <> i -> contents j kvs' = contents j kvs) ->
  NoDup l'.*1 -> 0 ∉ l'.*1 -> (forall j a, j <> i -> a ∈ l'.*1 -> a ∉ (B j).*1) ->
  (forall a, is_Some (pairs hm' !! a) -> a ∈ l'.*1 \/ exists j, j <> i /\ a ∈ (B j).*1) ->
  represents hm' (update B i l') kvs'.
Proof.
  intros R Ri Em Ep Bk C1 C2 N1 N0 D A. split.
  - intros j. destruct (decide (j = i)) as [-> | Nj]; [by rewrite update_eq |]. rewrite update_ne by done.
    destruct (rep_bucket _ _ _ R j) as [L E]. split; [| by rewrite Em].
    apply (linked_frame (pairs hm)); [| done]. intros a. by apply Ep.
  - intros j. destruct (decide (j = i)) as [-> | Nj]; [by rewrite update_eq |]. rewrite update_ne by done.
    rewrite C2 by done. apply R.
  - intros j. destruct (decide (j = i)) as [-> | Nj]; [by rewrite update_eq |]. rewrite update_ne by done. apply R.
  - intros j1 j2 a. destruct (decide (j1 = i)) as [-> | N1'], (decide (j2 = i)) as [-> | N2'];
      rewrite ?update_eq, ?update_ne by done; try done.
    + intros H1 H2. by destruct (D j2 a).
    + intros H1 H2. by destruct (D j1 a).
    + apply R.
  - intros a Ha. destruct (A a Ha) as [H | (j & Nj & H)]; [exists i; by rewrite update_eq | exists j; by rewrite update_ne].
  - intros j. destruct (decide (j = i)) as [-> | Nj]; [by rewrite update_eq |]. rewrite update_ne by done. apply R.
  - intros j Hj. destruct (decide (j = i)) as [-> | Nj]; [done |]. rewrite Em in Hj by done. by apply R.
Qed.

Section Correct.
Context `{Pool}.

Lemma FindHashMap_spec hm B kvs k : represents hm B kvs ->
  exists a, FindHashMap k hm = Ok a /\
    ((a = 0 /\ forall n, n ∈ B (hash k) -> n.2.1 <> k) \/
     (a <> 0 /\ exists l1 v l2, B (hash k) = l1 ++ (a, (k, v)) :: l2 /\ forall n, n ∈ l1 -> n.2.1 <> k)).
Proof.
  intros R. unfold FindHashMap. destruct (rep_bucket _ _ _ R (hash k)) as [L E]. destruct (map hm !! hash k) as [e|].
  - destruct E as [-> _]. pose proof (find_loop_spec (pairs hm) k (B (hash k)) (size (pairs hm)) 0 L
      (rep_null _ _ _ R _) (represents_size _ _ _ _ R)) as F.
    destruct (find_loop _ _ _ _) as [a|]; [| done]. exists a. split; [done |].
    destruct F as [F | (l1 & v & l2 & E & A)]; [by left |]. right. split; [| by exists l1, v, l2].
    intros ->. apply (rep_null _ _ _ R (hash k)). rewrite E, fmap_app. apply elem_of_app. right. apply list_elem_of_here.
  - exists 0. split; [done |]. left. split; [done |]. rewrite E. intros n Hn. by apply not_elem_of_nil in Hn.
Qed.

Lemma keys_fmap k (l : list node) : (forall n, n ∈ l -> n.2.1 <> k) -> forall kv, kv ∈ l.*2 -> kv.1 <> k.
Proof. intros A kv Hkv. apply list_elem_of_fmap in Hkv as (n & -> & Hn). by apply A. Qed.

Lemma FindHashMapValue_spec hm B kvs k : represents hm B kvs ->
  FindHashMapValue k hm = Ok (default 0 (lookup_first k kvs)).
Proof.
  intros R. destruct (FindHashMap_spec hm B kvs k R) as (a & E & Ha). unfold FindHashMapValue. rewrite E.
  cbn [mbind result_bind]. rewrite <- lookup_contents, <- (rep_contents _ _ _ R).
  destruct Ha as [[-> A] | (Na & l1 & v & l2 & El & A)].
  - rewrite lookup_none by by apply keys_fmap. done.
  - rewrite (proj2 (Z.eqb_neq a 0)) by done. destruct (rep_bucket _ _ _ R (hash k)) as [L _]. rewrite El in *.
    apply linked_app in L as [_ [P _]]. unfold pair_at. cbn [fst snd] in P. rewrite P. cbn [mbind result_bind value].
    rewrite fmap_app. cbn. rewrite lookup_middle by by apply keys_fmap. done.
Qed.

(** why an insertion fails *)
Definition no_memory (t : nat) : Prop := allocate_entry t = false \/ exists used, allocate_pair t used = None.

Lemma contents_snoc i kvs k v : contents i (kvs ++ [(k, v)]) = contents i kvs ++ (if decide (hash k = i) then [(k, v)] else []).
Proof. unfold contents. rewrite filter_app, filter_cons. cbn. by case_decide. Qed.

Lemma get_entry_ok t i hm l e : bucket_ok hm i l -> get_entry t i (map hm) = Some e -> head e = first l 0 /\ tail e = final l 0.
Proof.
  intros [_ E] G. unfold get_entry in G. destruct (map hm !! i); [by simplify_eq |]. case_match; [| done]. by simplify_eq.
Qed.

(** linking a new pair behind the last one *)
Lemma append_linked m l a k v : linked m 0 l 0 -> NoDup l.*1 -> 0 ∉ l.*1 -> a <> 0 -> a ∉ l.*1 ->
  exists m', (if negb (final l 0 =? 0) then set_pair_next (final l 0) a (<[a := mkPair 0 (final l 0) k v]> m)
              else Ok (<[a := mkPair 0 (final l 0) k v]> m)) = Ok m' /\
    linked m' 0 (l ++ [(a, (k, v))]) 0 /\
    (forall x, x ∉ l.*1 -> x <> a -> m' !! x = m !! x).
Proof.
  intros L N N0 Na Nl. destruct (list.last l) as [[t [kt vt]]|] eqn:E.
  - apply last_Some in E as [l0 ->]. rewrite final_app. cbn [final list.last fst].
    rewrite fmap_app in *. cbn in N, N0, Nl. apply list.NoDup_app in N as (N & Nt & _).
    assert (Ht0 : t <> 0) by (intros ->; apply N0, elem_of_app; right; apply list_elem_of_here).
    assert (Hta : t <> a) by (intros ->; apply Nl, elem_of_app; right; apply list_elem_of_here).
    assert (Htl : t ∉ l0.*1) by (intros K; apply (Nt t K), list_elem_of_here).
    assert (Hal : a ∉ l0.*1) by (intros K; apply Nl, elem_of_app; by left).
    apply linked_app in L as [L [P _]]. cbn [first fst snd final] in L, P.
    rewrite (proj2 (Z.eqb_neq t 0)) by done. cbn [negb]. unfold set_pair_next, pair_at.
    rewrite lookup_insert_ne by done. rewrite P. cbn [mbind result_bind prev key value].
    eexists. split; [reflexivity |]. split.
    + apply linked_app. split; [apply linked_app; split |].
      * cbn [first fst]. apply linked_insert, linked_insert; done.
      * cbn. split; [| done]. by rewrite lookup_insert_eq.
      * rewrite final_app. cbn. split; [| done]. rewrite lookup_insert_ne by done. by rewrite lookup_insert_eq.
    + intros x Hx Hxa. cbn in Hx. rewrite !lookup_insert_ne; [done | done |].
      intros ->. apply Hx, elem_of_app. right. apply list_elem_of_here.
  - apply last_None in E as ->. cbn. eexists. split; [reflexivity |]. split; [split; [| done] |].
    + by rewrite lookup_insert_eq.
    + intros x _ Hx. by rewrite lookup_insert_ne.
Qed.

Lemma InsertHashMap_spec t k v hm B kvs : represents hm B kvs ->
  exists b hm' B', InsertHashMap t k v hm = Ok (b, hm') /\
    represents hm' B' (if b : bool then kvs ++ [(k, v)] else kvs) /\ (b = false -> no_memory t).
Proof.
  intros R. unfold InsertHashMap. set (h := hash k). pose proof (rep_bucket _ _ _ R h) as Bk.
  destruct (get_entry t h (map hm)) as [e|] eqn:G.
  2:{ exists false, hm, B. split_and!; [done | done |]. intros _. left. unfold get_entry in G.
      destruct (map hm !! h); [done |]. by destruct (allocate_entry t). }
  destruct (get_entry_ok _ _ _ _ _ Bk G) as [Eh Et].
  destruct (allocate_pair t (dom (pairs hm))) as [a|] eqn:A.
  2:{ eexists false, _, (update B h (B h)). split; [reflexivity |]. split; [| intros _; right; by eexists].
      apply (represents_update hm B kvs); cbn [map pairs]; try done.
      - apply hash_range.
      - intros j Nj. by rewrite lookup_insert_ne.
      - split; [apply Bk |]. cbn [map]. by rewrite lookup_insert_eq.
      - apply R.
      - apply R.
      - apply R.
      - intros j x Nj Hx K. by apply Nj, (rep_disjoint _ _ _ R j h x).
      - intros x Hx. destruct (rep_allocated _ _ _ R x Hx) as [j Hj]. destruct (decide (j = h)) as [-> |]; [by left | right; by exists j]. }
  apply allocate_fresh in A as [Na Nd]. rewrite not_elem_of_dom in Nd.
  assert (Nb : forall j, a ∉ (B j).*1).
  { intros j K. destruct (rep_bucket _ _ _ R j) as [L _]. apply (linked_lookup _ _ _ _ a L) in K. rewrite Nd in K. by destruct K. }
  destruct (append_linked (pairs hm) (B h) a k v) as (m' & Em & L' & F); [apply Bk | apply R | apply R | done | done |].
  rewrite Et, Em. cbn [mbind result_bind]. eexists true, _, (update B h (B h ++ [(a, (k, v))])). split; [reflexivity |].
  split; [| done].
  apply (represents_update hm B kvs); cbn [map pairs]; try done.
  - apply hash_range.
  - intros j Nj. by rewrite !lookup_insert_ne.
  - intros j x Nj Hx. apply F; [| intros ->; by apply (Nb j)]. intros K. by apply Nj, (rep_disjoint _ _ _ R j h x).
  - split; [done |]. cbn [map]. rewrite lookup_insert_eq. cbn [head tail]. rewrite first_node_app, final_app. split; [| done].
    rewrite Eh. destruct (B h) as [|n l] eqn:EB; [done |]. cbn [first]. rewrite (proj2 (Z.eqb_neq n.1 0)); [done |].
    intros K. apply (rep_null _ _ _ R h). rewrite EB, <- K. apply list_elem_of_here.
  - rewrite fmap_app, contents_snoc, (rep_contents _ _ _ R). cbn. by rewrite decide_True.
  - intros j Nj. rewrite contents_snoc, decide_False; [apply app_nil_r |]. intros K. by apply Nj.
  - rewrite fmap_app. apply list.NoDup_app. split_and!; [apply R | | apply list.NoDup_singleton].
    intros x Hx K. apply list_elem_of_singleton in K as ->. by apply (Nb h).
  - rewrite fmap_app. intros K. apply elem_of_app in K as [K | K]; [by apply (rep_null _ _ _ R h) | by apply list_elem_of_singleton in K].
  - intros j x Nj Hx K. rewrite fmap_app in Hx. apply elem_of_app in Hx as [Hx | Hx].
    + by apply Nj, (rep_disjoint _ _ _ R j h x).
    + apply list_elem_of_singleton in Hx as ->. by apply (Nb j).
  - intros x Hx. rewrite fmap_app. destruct (decide (x = a)) as [-> | Nx].
    { left. apply elem_of_app. right. apply list_elem_of_here. }
    destruct (decide (x ∈ (B h).*1)) as [Hb | Hb]; [left; apply elem_of_app; by left |].
    rewrite F in Hx by done. destruct (rep_allocated _ _ _ R x Hx) as [j Hj]. right. exists j. split; [| done]. by intros ->.
Qed.

(** unlinking a pair: its neighbours point at each other *)
Lemma unlink_linked m l1 a kv l2 : linked m 0 (l1 ++ (a, kv) :: l2) 0 -> NoDup (l1 ++ (a, kv) :: l2).*1 ->
  0 ∉ (l1 ++ (a, kv) :: l2).*1 ->
  exists m1 m2, (if negb (first l2 0 =? 0) then set_pair_prev (first l2 0) (final l1 0) m else Ok m) = Ok m1 /\
    m1 !! a = m !! a /\
    (if negb (final l1 0 =? 0) then set_pair_next (final l1 0) (first l2 0) m1 else Ok m1) = Ok m2 /\
    m2 !! a = m !! a /\ linked (delete a m2) 0 (l1 ++ l2) 0 /\
    (forall x, x ∉ (l1 ++ l2).*1 -> m2 !! x = m !! x).
Proof.
  intros L N N0. rewrite fmap_app in N, N0. cbn in N, N0. apply list.NoDup_app in N as (N1 & N12 & N2).
  apply list.NoDup_cons in N2 as [Na2 N2]. apply linked_app in L as [L1 [Pa L2]]. cbn [first fst snd final] in L1, Pa, L2.
  assert (Na1 : a ∉ l1.*1) by (intros K; apply (N12 a K), list_elem_of_here).
  assert (D12 : forall x, x ∈ l1.*1 -> x ∉ l2.*1) by (intros x Hx K; apply (N12 x Hx); by apply list_elem_of_further).
  assert (N01 : 0 ∉ l1.*1) by (intros K; apply N0, elem_of_app; by left).
  assert (N02 : 0 ∉ l2.*1) by (intros K; apply N0, elem_of_app; right; by apply list_elem_of_further).
  assert (S1 : exists m1, (if negb (first l2 0 =? 0) then set_pair_prev (first l2 0) (final l1 0) m else Ok m) = Ok m1 /\
    linked m1 (final l1 0) l2 0 /\ (forall x, x ∉ l2.*1 -> m1 !! x = m !! x)).
  { destruct l2 as [|[b [kb vb]] l2]; [by exists m |]. destruct L2 as [Pb L2]. cbn [first fst snd] in *.
    cbn in N02, N2. apply not_elem_of_cons in N02 as [Nb0 _]. apply list.NoDup_cons in N2 as [Nb N2].
    rewrite (proj2 (Z.eqb_neq b 0)) by done. unfold set_pair_prev, pair_at. rewrite Pb. cbn. eexists. split; [reflexivity |].
    split; [split |].
    - by rewrite lookup_insert_eq.
    - by apply linked_insert.
    - intros x Hx. apply not_elem_of_cons in Hx as [Hx _]. by rewrite lookup_insert_ne. }
  destruct S1 as (m1 & E1 & L2' & F1).
  assert (L1' : linked m1 0 l1 a) by (apply (linked_frame m); [intros x Hx; by apply F1, D12 | done]).
  assert (S2 : exists m2, (if negb (final l1 0 =? 0) then set_pair_next (final l1 0) (first l2 0) m1 else Ok m1) = Ok m2 /\
    linked m2 0 l1 (first l2 0) /\ (forall x, x ∉ l1.*1 -> m2 !! x = m1 !! x)).
  { destruct (list.last l1) as [[t [kt vt]]|] eqn:E.
    - apply last_Some in E as [l0 ->]. rewrite final_app in *. cbn [final list.last fst] in *. rewrite fmap_app in *. cbn in N1, N01.
      apply linked_app in L1' as [L0 [Pt _]]. cbn [first fst snd] in L0, Pt. apply list.NoDup_app in N1 as (_ & Nt & _).
      assert (Ht0 : t <> 0) by (intros ->; apply N01, elem_of_app; right; apply list_elem_of_here).
      rewrite (proj2 (Z.eqb_neq t 0)) by done. unfold set_pair_next, pair_at. rewrite Pt. cbn. eexists. split; [reflexivity |]. split.
      + apply linked_app. split; [| cbn; split; [by rewrite lookup_insert_eq | done]]. apply linked_insert; [| done].
        intros K. apply (Nt t K), list_elem_of_here.
      + intros x Hx. rewrite lookup_insert_ne; [done |]. intros ->. apply Hx, elem_of_app. right. apply list_elem_of_here.
    - apply last_None in E as ->. exists m1. done. }
  destruct S2 as (m2 & E2 & L1'' & F2). exists m1, m2. split_and!; [done | by apply F1 | done | by rewrite F2, F1 | |].
  - apply linked_app. split.
    + by apply linked_delete.
    + apply linked_delete; [done |]. apply (linked_frame m1); [| done]. intros x Hx. apply F2. intros K. by apply (D12 x K).
  - intros x Hx. rewrite fmap_app in Hx. apply not_elem_of_app in Hx as [Hx1 Hx2]. by rewrite F2, F1.
Qed.

Lemma final_any (l : list node) d d' : l <> [] -> final l d = final l d'.
Proof. intros N. unfold final. destruct (list.last l) eqn:E; [done |]. by apply last_None in E. Qed.

Lemma entry_unlinked l1 a kv l2 : NoDup (l1 ++ (a, kv) :: l2).*1 ->
  (if first (l1 ++ (a, kv) :: l2) 0 =? a then first l2 0 else first (l1 ++ (a, kv) :: l2) 0) = first (l1 ++ l2) 0 /\
  (if final (l1 ++ (a, kv) :: l2) 0 =? a then final l1 0 else final (l1 ++ (a, kv) :: l2) 0) = final (l1 ++ l2) 0.
Proof.
  intros N. rewrite fmap_app in N. cbn in N. apply list.NoDup_app in N as (_ & N12 & N2). apply list.NoDup_cons in N2 as [Na _].
  rewrite !first_node_app, !final_app, final_cons. cbn [first fst]. split.
  - destruct l1 as [|n l1]; cbn [first]; [by rewrite Z.eqb_refl |]. rewrite (proj2 (Z.eqb_neq n.1 a)); [done |].
    intros K. apply (N12 n.1); [apply list_elem_of_here | rewrite K; apply list_elem_of_here].
  - destruct l2 as [|n l2]; [cbn; by rewrite Z.eqb_refl |]. rewrite (proj2 (Z.eqb_neq _ a)).
    + by apply final_any.
    + intros K. apply Na. rewrite <- K. by apply final_in.
Qed.

Lemma RemoveHashMap_spec k hm B kvs : represents hm B kvs ->
  exists hm' B', RemoveHashMap k hm = Ok (bool_decide (is_Some (lookup_first k kvs)), hm') /\
    represents hm' B' (remove_first k kvs).
Proof.
  intros R. destruct (FindHashMap_spec hm B kvs k R) as (a & E & Ha). unfold RemoveHashMap. rewrite E. cbn [mbind result_bind].
  set (h := hash k) in *. pose proof (rep_contents _ _ _ R h) as Ct. rewrite <- lookup_contents. fold h. rewrite <- Ct.
  destruct Ha as [[-> A] | (Na & l1 & v & l2 & El & A)].
  { rewrite lookup_none by by apply keys_fmap. exists hm, B. split; [done |].
    assert (Er : remove_first k kvs = kvs); [| by rewrite Er].
    apply remove_none. intros kv Hkv K. assert (Hin : kv ∈ (B h).*2).
    { rewrite Ct. apply list_elem_of_filter. by rewrite K. }
    by apply (keys_fmap _ _ A kv Hin). }
  rewrite (proj2 (Z.eqb_neq a 0)) by done. destruct (rep_bucket _ _ _ R h) as [L Ee].
  pose proof (rep_nodup _ _ _ R h) as N. pose proof (rep_null _ _ _ R h) as N0. rewrite El in L, Ee, N, N0, Ct.
  destruct (unlink_linked (pairs hm) l1 a (k, v) l2 L N N0) as (m1 & m2 & E1 & P1 & E2 & P2 & L' & F).
  apply linked_app in L as [_ [Pa _]]. cbn [fst snd] in Pa. rewrite Pa in P1, P2.
  unfold pair_at. rewrite Pa. cbn [mbind result_bind next prev]. rewrite E1. cbn [mbind result_bind]. rewrite P1.
  cbn [mbind result_bind next prev]. rewrite E2. cbn [mbind result_bind]. rewrite P2. cbn [mbind result_bind next prev].
  destruct (map hm !! h) as [e|] eqn:Eh; [| by destruct l1]. destruct Ee as [Eh1 Eh2]. unfold free_pair, pair_at. rewrite P2.
  cbn [mbind result_bind]. rewrite Eh1, Eh2. destruct (entry_unlinked l1 a (k, v) l2 N) as [U1 U2]. rewrite U1, U2.
  rewrite El, fmap_app. cbn [fmap list_fmap snd]. rewrite lookup_middle by by apply keys_fmap.
  eexists _, (update B h (l1 ++ l2)). split; [reflexivity |].
  rewrite fmap_app in N, N0. cbn in N, N0. apply list.NoDup_app in N as (N1 & N12 & N2). apply list.NoDup_cons in N2 as [Na2 N2].
  assert (Sub : forall x, x ∈ (l1 ++ l2).*1 -> x ∈ (B h).*1).
  { intros x Hx. rewrite El, !fmap_app in *. cbn. apply elem_of_app in Hx as [Hx | Hx]; apply elem_of_app; [by left | right].
    by apply list_elem_of_further. }
  assert (Fj : forall j x, j <> h -> x ∈ (B j).*1 -> x ∉ (B h).*1).
  { intros j x Nj Hx K. by apply Nj, (rep_disjoint _ _ _ R j h x). }
  assert (Ha : a ∈ (B h).*1) by (rewrite El, fmap_app; apply elem_of_app; right; apply list_elem_of_here).
  apply (represents_update hm B kvs); cbn [map pairs]; try done.
  - apply hash_range.
  - intros j Nj. by rewrite lookup_insert_ne.
  - intros j x Nj Hx. rewrite lookup_delete_ne by (intros ->; by apply (Fj j x)). apply F. intros K. by apply (Fj j x Nj Hx), Sub.
  - split; [done |]. cbn [map]. by rewrite lookup_insert_eq.
  - unfold h. rewrite remove_contents. fold h. rewrite <- Ct, !fmap_app. cbn. by rewrite remove_middle by by apply keys_fmap.
  - intros j Nj. by apply remove_contents_ne.
  - rewrite fmap_app. apply list.NoDup_app. split_and!; [done | | done]. intros x Hx K. apply (N12 x Hx). by apply list_elem_of_further.
  - intros K. by apply (rep_null _ _ _ R h), Sub.
  - intros j x Nj Hx K. by apply (Fj j x Nj K), Sub.
  - intros x Hx. destruct (decide (x ∈ (l1 ++ l2).*1)) as [|Nx]; [by left | right].
    destruct (decide (x = a)) as [-> | Nxa]; [by rewrite lookup_delete_eq in Hx; destruct Hx |].
    rewrite lookup_delete_ne, F in Hx by done. destruct (rep_allocated _ _ _ R x Hx) as [j Hj]. exists j. split; [| done].
    intros ->. apply Nx. rewrite El, fmap_app in Hj. cbn in Hj. rewrite fmap_app. apply elem_of_app.
    apply elem_of_app in Hj as [|Hj]; [by left |]. apply elem_of_cons in Hj as [-> |]; [done | by right].
Qed.

(** ** Visiting and freeing all pairs *)

Fixpoint visit_all {S} (visitor : Z -> Z -> S -> result S) (kvs : list (Z * Z)) (s : S) : result S :=
  match kvs with
  | [] => Ok s
  | kv :: kvs' => s ← visitor kv.1 kv.2 s; visit_all visitor kvs' s
  end.

(** the order in which the buckets are visited *)
Definition bucket_order (ids : list Z) (kvs : list (Z * Z)) : list (Z * Z) := concat ((fun i => contents i kvs) <$> ids).

Lemma visit_all_app {S} (visitor : Z -> Z -> S -> result S) a b s :
  visit_all visitor (a ++ b) s = (s ← visit_all visitor a s; visit_all visitor b s).
Proof.
  revert s. induction a as [|kv a IH]; intros s; [done |]. cbn [app visit_all].
  destruct (visitor kv.1 kv.2 s); [apply IH | done].
Qed.

Lemma visit_loop_spec {S} (visitor : Z -> Z -> S -> result S) m l : forall fuel before s,
  linked m before l 0 -> 0 ∉ l.*1 -> (length l <= fuel)%nat ->
  visit_loop visitor fuel (first l 0) m s = visit_all visitor l.*2 s.
Proof.
  induction l as [|[a [k v]] l IH]; intros fuel before s L N Le; [by destruct fuel |].
  destruct fuel as [|fuel]; [cbn in Le; lia |]. destruct L as [P L]. cbn in N. apply not_elem_of_cons in N as [Na N].
  cbn [first fst snd fmap list_fmap visit_all visit_loop] in *. rewrite (proj2 (Z.eqb_neq a 0)) by done.
  unfold pair_at. rewrite P. cbn [mbind result_bind key value next]. destruct (visitor k v s); [| done].
  cbn [mbind result_bind]. apply (IH fuel a); [done | done | cbn in Le; lia].
Qed.

Lemma IterateHashMap_spec {S} (visitor : Z -> Z -> S -> result S) hm B kvs s : represents hm B kvs ->
  IterateHashMap visitor hm s = visit_all visitor (bucket_order (seqZ 0 HASH_MAP_SIZE) kvs) s.
Proof.
  intros R. unfold IterateHashMap. generalize (seqZ 0 HASH_MAP_SIZE). intros ids. revert s.
  induction ids as [|i ids IH]; intros s; [done |]. cbn [visit_buckets bucket_order]. unfold bucket_order. cbn [fmap list_fmap concat].
  rewrite visit_all_app. fold (bucket_order ids kvs). rewrite <- (rep_contents _ _ _ R i).
  destruct (rep_bucket _ _ _ R i) as [L E]. destruct (map hm !! i) as [e|].
  - destruct E as [-> _]. rewrite (visit_loop_spec visitor _ _ _ 0) by (done || apply R || by apply (represents_size hm B kvs)).
    destruct (visit_all _ _ _); [apply IH | done].
  - rewrite E. apply IH.
Qed.

Lemma bucket_order_cons i ids kv kvs : NoDup (i :: ids) ->
  bucket_order (i :: ids) (kv :: kvs) ≡ₚ (if decide (hash kv.1 ∈ i :: ids) then [kv] else []) ++ bucket_order (i :: ids) kvs.
Proof.
  revert i. induction ids as [|j ids IH]; intros i N; unfold bucket_order in *; cbn [fmap list_fmap concat] in *.
  - rewrite !app_nil_r. unfold contents. rewrite filter_cons. destruct (decide (hash kv.1 = i)) as [E|E].
    + rewrite decide_True by (rewrite E; apply list_elem_of_here). done.
    + rewrite decide_False; [done |]. intros K. by apply list_elem_of_singleton in K.
  - apply list.NoDup_cons in N as [Ni N]. specialize (IH j N). rewrite IH. unfold contents at 1. rewrite filter_cons.
    destruct (decide (hash kv.1 = i)) as [E|E].
    + rewrite (decide_True (P := hash kv.1 ∈ i :: j :: ids)) by (rewrite E; apply list_elem_of_here).
      rewrite decide_False by congruence. done.
    + destruct (decide (hash kv.1 ∈ j :: ids)) as [K|K].
      * rewrite (decide_True (P := hash kv.1 ∈ i :: j :: ids)) by by apply list_elem_of_further. fold (contents i kvs).
        by rewrite !app_assoc, (Permutation_app_comm (contents i kvs)).
      * rewrite (decide_False (P := hash kv.1 ∈ i :: j :: ids)); [done |]. intros K'. apply elem_of_cons in K' as [|]; done.
Qed.

Lemma bucket_order_perm kvs : bucket_order (seqZ 0 HASH_MAP_SIZE) kvs ≡ₚ kvs.
Proof.
  assert (N : NoDup (seqZ 0 HASH_MAP_SIZE)) by apply NoDup_seqZ.
  assert (M : forall k, hash k ∈ seqZ 0 HASH_MAP_SIZE) by (intros k; apply elem_of_seqZ, hash_range).
  destruct (seqZ 0 HASH_MAP_SIZE) as [|i ids]; [by pose proof (M 0) as K; apply not_elem_of_nil in K |].
  induction kvs as [|kv kvs IH].
  - unfold bucket_order. clear. induction (i :: ids) as [|j l IH]; [done | exact IH].
  - rewrite bucket_order_cons, decide_True by done. cbn. by rewrite IH.
Qed.

Lemma free_loop_spec m l : forall fuel before, linked m before l 0 -> 0 ∉ l.*1 -> NoDup l.*1 -> (length l <= fuel)%nat ->
  exists m', free_loop fuel (first l 0) m = Ok m' /\
    (forall x, x ∈ l.*1 -> m' !! x = None) /\ (forall x, x ∉ l.*1 -> m' !! x = m !! x).
Proof.
  revert m. induction l as [|[a [k v]] l IH]; intros m fuel before L N0 N Le.
  - exists m. split_and!; [by destruct fuel | | done]. intros x Hx. by apply not_elem_of_nil in Hx.
  - destruct fuel as [|fuel]; [cbn in Le; lia |]. destruct L as [P L]. cbn in N0, N. apply not_elem_of_cons in N0 as [Na N0].
    apply list.NoDup_cons in N as [Nl N]. cbn [first fst snd free_loop] in *. rewrite (proj2 (Z.eqb_neq a 0)) by done.
    unfold free_pair, pair_at. rewrite P. cbn [mbind result_bind next].
    destruct (IH (delete a m) fuel a) as (m' & -> & F1 & F2); [by apply linked_delete | done | done | cbn in Le; lia |].
    exists m'. split_and!; [done | |].
    + intros x Hx. cbn in Hx. destruct (decide (x ∈ l.*1)) as [|Nx]; [by apply F1 |]. rewrite F2 by done.
      apply elem_of_cons in Hx as [-> |]; [by rewrite lookup_delete_eq | done].
    + intros x Hx. cbn in Hx. apply not_elem_of_cons in Hx as [Hx Hx']. rewrite F2 by done. by rewrite lookup_delete_ne.
Qed.

Lemma free_buckets_spec ids : forall hm B kvs, represents hm B kvs -> (forall i, i ∈ ids -> 0 <= i < HASH_MAP_SIZE) ->
  exists hm' B' kvs', free_buckets ids hm = Ok hm' /\ represents hm' B' kvs' /\
    (forall i, i ∈ ids -> map hm' !! i = None) /\ (forall i, map hm !! i = None -> map hm' !! i = None).
Proof.
  induction ids as [|i ids IH]; intros hm B kvs R Ri.
  { exists hm, B, kvs. split_and!; try done. intros i Hi. by apply not_elem_of_nil in Hi. }
  assert (S1 : exists hm1 B1 kvs1, match map hm !! i with
         | None => Ok hm
         | Some e => m ← free_loop (size (pairs hm)) (head e) (pairs hm); Ok (mkHashMap (delete i (map hm)) m)
         end = Ok hm1 /\ represents hm1 B1 kvs1 /\ map hm1 !! i = None /\ (forall j, map hm !! j = None -> map hm1 !! j = None)).
  { destruct (rep_bucket _ _ _ R i) as [L E]. destruct (map hm !! i) as [e|] eqn:Em; [| by exists hm, B, kvs].
    destruct E as [-> _]. destruct (free_loop_spec (pairs hm) (B i) (size (pairs hm)) 0) as (m' & -> & F1 & F2);
      [done | apply R | apply R | by apply (represents_size hm B kvs) |].
    cbn [mbind result_bind]. eexists _, (update B i []), (filter (fun kv => hash kv.1 <> i) kvs). split; [reflexivity |].
    cbn [map]. split_and!; [| by rewrite lookup_delete_eq |].
    2:{ intros j Hj. destruct (decide (j = i)) as [-> |]; [by rewrite lookup_delete_eq | by rewrite lookup_delete_ne]. }
    assert (Ci : contents i (filter (fun kv => hash kv.1 <> i) kvs) = []).
    { unfold contents. clear. induction kvs as [|kv kvs IH]; [done |]. rewrite filter_cons. case_decide; [| done].
      rewrite filter_cons. by rewrite decide_False. }
    apply (represents_update hm B kvs); cbn [map pairs]; try done.
    - apply Ri, list_elem_of_here.
    - intros j Nj. by rewrite lookup_delete_ne.
    - intros j a Nj Ha. apply F2. intros K. by apply Nj, (rep_disjoint _ _ _ R j i a).
    - split; [done |]. cbn [map]. by rewrite lookup_delete_eq.
    - intros j Nj. unfold contents. clear -Nj. induction kvs as [|kv kvs IH]; [done |]. rewrite !filter_cons.
      destruct (decide (hash kv.1 = i)) as [E|E].
      + rewrite decide_False by tauto. rewrite decide_False by congruence. done.
      + rewrite decide_True by done. rewrite filter_cons, IH. done.
    - constructor.
    - intros K. by apply not_elem_of_nil in K.
    - intros j a _ K. by apply not_elem_of_nil in K.
    - intros a Ha. right. destruct (decide (a ∈ (B i).*1)) as [K|K]; [rewrite F1 in Ha by done; by destruct Ha |].
      rewrite F2 in Ha by done. destruct (rep_allocated _ _ _ R a Ha) as [j Hj]. exists j. split; [| done]. by intros ->. }
  destruct S1 as (hm1 & B1 & kvs1 & E1 & R1 & Z1 & K1). cbn [free_buckets]. rewrite E1. cbn [mbind result_bind].
  destruct (IH hm1 B1 kvs1 R1) as (hm2 & B2 & kvs2 & -> & R2 & Z2 & K2).
  { intros j Hj. apply Ri. by apply list_elem_of_further. }
  exists hm2, B2, kvs2. split_and!; [done | done | | by intros j Hj; apply K2, K1].
  intros j Hj. apply elem_of_cons in Hj as [-> | Hj]; [by apply K2 | by apply Z2].
Qed.

Lemma DestroyHashMap_spec hm B kvs : represents hm B kvs -> DestroyHashMap hm = Ok InitialiseHashMap.
Proof.
  intros R. unfold DestroyHashMap. destruct (free_buckets_spec (seqZ 0 HASH_MAP_SIZE) hm B kvs R) as (hm' & B' & kvs' & -> & R' & Z & _).
  { intros i Hi. by apply elem_of_seqZ in Hi. }
  assert (Em : map hm' = ∅).
  { apply map_empty. intros i. destruct (map hm' !! i) eqn:E; [| done]. rewrite Z in E; [done |]. apply elem_of_seqZ.
    apply R'. by rewrite E. }
  assert (Ep : pairs hm' = ∅).
  { apply map_empty. intros a. destruct (pairs hm' !! a) eqn:E; [| done]. destruct (rep_allocated _ _ _ R' a) as [i Hi]; [by rewrite E |].
    destruct (rep_bucket _ _ _ R' i) as [_ Eb]. rewrite Em, lookup_empty in Eb. rewrite Eb in Hi. by apply not_elem_of_nil in Hi. }
  destruct hm' as [m p]. cbn in Em, Ep. by subst.
Qed.

(** ** Sequences of operations *)

Inductive map_op := Insert (t : nat) (k v : Z) | Find (k : Z) | Remove (k : Z).
Inductive outcome := Inserted (b : bool) | Found (v : Z) | Removed (b : bool).

Definition run_op (op : map_op) (hm : HashMap) : result (outcome * HashMap) :=
  match op with
  | Insert t k v => r ← InsertHashMap t k v hm; Ok (Inserted r.1, r.2)
  | Find k => v ← FindHashMapValue k hm; Ok (Found v, hm)
  | Remove k => r ← RemoveHashMap k hm; Ok (Removed r.1, r.2)
  end.

Fixpoint run_ops (ops : list map_op) (hm : HashMap) : result (list outcome * HashMap) :=
  match ops with
  | [] => Ok ([], hm)
  | op :: ops' =>
    r ← run_op op hm;
    rs ← run_ops ops' r.2;
    Ok (r.1 :: rs.1, rs.2)
  end.

(** the reference: a look-up finds the oldest value of a key, a removal takes
    that pair out, and only a lack of memory makes an insertion fail *)
Inductive map_step : map_op -> outcome -> list (Z * Z) -> list (Z * Z) -> Prop :=
  | step_insert t k v kvs : map_step (Insert t k v) (Inserted true) kvs (kvs ++ [(k, v)])
  | step_no_memory t k v kvs : no_memory t -> map_step (Insert t k v) (Inserted false) kvs kvs
  | step_find k kvs : map_step (Find k) (Found (default 0 (lookup_first k kvs))) kvs kvs
  | step_remove k kvs :
      map_step (Remove k) (Removed (bool_decide (is_Some (lookup_first k kvs)))) kvs (remove_first k kvs).

Inductive map_steps : list map_op -> list outcome -> list (Z * Z) -> list (Z * Z) -> Prop :=
  | steps_nil kvs : map_steps [] [] kvs kvs
  | steps_cons op ops out outs kvs kvs1 kvs2 :
      map_step op out kvs kvs1 -> map_steps ops outs kvs1 kvs2 -> map_steps (op :: ops) (out :: outs) kvs kvs2.

Lemma run_op_spec op hm B kvs : represents hm B kvs ->
  exists out hm' B' kvs', run_op op hm = Ok (out, hm') /\ represents hm' B' kvs' /\ map_step op out kvs kvs'.
Proof.
  intros R. destruct op as [t k v | k | k]; cbn [run_op].
  - destruct (InsertHashMap_spec t k v hm B kvs R) as (b & hm' & B' & -> & R' & M). cbn [mbind result_bind fst snd].
    exists (Inserted b), hm', B', (if b then kvs ++ [(k, v)] else kvs). split_and!; [done | done |].
    destruct b; constructor. by apply M.
  - rewrite (FindHashMapValue_spec hm B kvs k R). cbn [mbind result_bind]. eexists _, hm, B, kvs. split_and!; [done | done |]. constructor.
  - destruct (RemoveHashMap_spec k hm B kvs R) as (hm' & B' & -> & R'). cbn [mbind result_bind fst snd].
    eexists _, hm', B', _. split_and!; [done | done |]. constructor.
Qed.

Lemma run_ops_spec ops : forall hm B kvs, represents hm B kvs ->
  exists outs hm' B' kvs', run_ops ops hm = Ok (outs, hm') /\ represents hm' B' kvs' /\ map_steps ops outs kvs kvs'.
Proof.
  induction ops as [|op ops IH]; intros hm B kvs R.
  - exists [], hm, B, kvs. split_and!; [done | done | constructor].
  - destruct (run_op_spec op hm B kvs R) as (out & hm1 & B1 & kvs1 & E1 & R1 & S1).
    destruct (IH hm1 B1 kvs1 R1) as (outs & hm2 & B2 & kvs2 & E2 & R2 & S2).
    exists (out :: outs), hm2, B2, kvs2. cbn [run_ops]. rewrite E1. cbn [mbind result_bind fst snd]. rewrite E2.
    split_and!; [done | done | by econstructor].
Qed.

(** C29: Whatever sequence of insertions, look-ups and removals is made on a
    fresh map, no pointer to freed or foreign memory is followed and every
    answer is that of an association list: the oldest value of a key is found
    and removed, and an insertion fails only for lack of memory. The visitor
    then sees each pair that is left exactly once, and destroying the map
    frees every pair exactly once. *)
Theorem hash_map_refines ops : exists outs hm kvs,
  run_ops ops InitialiseHashMap = Ok (outs, hm) /\ map_steps ops outs [] kvs /\
  (exists order, order ≡ₚ kvs /\
     forall S (visitor : Z -> Z -> S -> result S) s, IterateHashMap visitor hm s = visit_all visitor order s) /\
  DestroyHashMap hm = Ok InitialiseHashMap.
Proof.
  destruct (run_ops_spec ops InitialiseHashMap (fun _ => []) [] represents_empty) as (outs & hm & B & kvs & E & R & M).
  exists outs, hm, kvs. split_and!; [done | done | | by apply (DestroyHashMap_spec hm B kvs)].
  exists (bucket_order (seqZ 0 HASH_MAP_SIZE) kvs). split; [apply bucket_order_perm |].
  intros S visitor s. by apply (IterateHashMap_spec visitor hm B).
Qed.
End Correct.

(** ** A pool that gives the smallest addresses *)

Fixpoint smallest (n : nat) (a : Z) (used : gset Z) : option Z :=
  match n with
  | O => None
  | S n' => if decide (a ∈ used) then smallest n' (a + 1) used else Some a
  end.

Lemma smallest_fresh n : forall a used x, 0 < a -> smallest n a used = Some x -> x <> 0 /\ x ∉ used.
Proof.
  induction n as [|n IH]; intros a used x Ha E; [done |]. cbn in E. case_decide; [by apply (IH (a + 1)) in E; [| lia] |].
  simplify_eq. split; [lia | done].
Qed.

#[local] Instance SmallPool : Pool := {|
  allocate_entry t := negb (t =? 9)%nat;
  allocate_pair t used := smallest 3 1 used;
  allocate_fresh t used a E := smallest_fresh 3 1 used a ltac:(lia) E;
|}.

(** keys of the same bucket, a second value for a key, a full pool *)
Definition sample_map_ops : list map_op :=
  [Insert 0 5 50; Insert 0 1029 60; Insert 0 5 70; Insert 0 6 80; Find 5; Remove 5; Find 5; Find 1029; Remove 7;
   Insert 0 6 90; Find 6; Insert 9 8 1].

Lemma hash_map_refines_witness :
  run_ops sample_map_ops InitialiseHashMap =
    Ok ([Inserted true; Inserted true; Inserted true; Inserted false; Found 50; Removed true; Found 70; Found 60;
         Removed false; Inserted true; Found 90; Inserted false],
        mkHashMap {[5 := mkEntry 2 3; 6 := mkEntry 1 1]}
          {[1 := mkPair 0 0 6 90; 2 := mkPair 3 0 1029 60; 3 := mkPair 0 2 5 70]}) /\
  exists outs hm kvs, run_ops sample_map_ops InitialiseHashMap = Ok (outs, hm) /\ map_steps sample_map_ops outs [] kvs /\
  (exists order, order ≡ₚ kvs /\
     forall S (visitor : Z -> Z -> S -> result S) s, IterateHashMap visitor hm s = visit_all visitor order s) /\
  DestroyHashMap hm = Ok InitialiseHashMap.
Proof. split; [vm_compute; reflexivity | exact (hash_map_refines sample_map_ops)]. Defined.
