(* ===== verification/EventHandlers.v ===== *)
(** * The hooked event handlers of the connection driver (EventHandlerManager.c)

    The driver replaces the callbacks that clients of the transport register
    by its own, whose context is a slot that remembers the original. *)
From Stdlib Require Import ZArith Lia.
From stdpp Require Import base gmap list numbers.
From S2P Require Import Prelude HashMap.

Local Open Scope Z_scope.

Definition TDI_EVENT_HANDLERS_MAX : nat := 11.

(** a TDI_REQUEST_KERNEL_SET_EVENT *)
Record set_event := mkSetEvent { EventType : nat; EventHandler : Z; EventContext : Z }.

(** a slot: the file object and the original handler; zero when unused *)
Record slot := mkSlot { slot_node : Z; original : set_event }.
Definition zero_slot : slot := mkSlot 0 (mkSetEvent 0 0 0).

Record NodeEventHandler := mkNodeHandler { handler_node : Z; num_handlers : Z; handlers : list slot }.

(** [node_handlers]: what is allocated from the pool of handlers *)
Record EventHandlerManager := mkHandlers {
  event_handlers : HashMap;
  node_handlers : gmap Z NodeEventHandler;
}.

(** ExAllocateFromNPagedLookasideList *)
Class Lookaside := {
  lookaside : nat -> gset Z -> option Z;
  lookaside_fresh : forall t used a, lookaside t used = Some a -> a <> 0 /\ a ∉ used;
}.

Definition handler_at (m : gmap Z NodeEventHandler) (a : Z) : result NodeEventHandler :=
  match m !! a with Some n => Ok n | None => Fault UseAfterFree end.

Definition InitialiseEventHandlerManager : EventHandlerManager := mkHandlers InitialiseHashMap ∅.

Section Operations.
Context `{Pool} `{Lookaside}.

(** the result of InsertHashMap is not looked at *)
Definition CreateNodeEventHandler (t : nat) (node : Z) (em : EventHandlerManager) : result (Z * EventHandlerManager) :=
  match lookaside t (dom (node_handlers em)) with
  | None => Ok (0, em)
  | Some a =>
    let m := <[a := mkNodeHandler node 0 (replicate TDI_EVENT_HANDLERS_MAX zero_slot)]> (node_handlers em) in
    r ← InsertHashMap t node a (event_handlers em);
    Ok (a, mkHandlers r.2 m)
  end.

Definition RemoveEventHandler (hooked : set_event) (node : Z) (em : EventHandlerManager) : result EventHandlerManager :=
  if (TDI_EVENT_HANDLERS_MAX <=? EventType hooked)%nat then Ok em
  else
    a ← FindHashMapValue node (event_handlers em);
    if a =? 0 then Ok em
    else
      n ← handler_at (node_handlers em) a;
      let n := mkNodeHandler (handler_node n) (u32 (num_handlers n - 1)) (<[EventType hooked := zero_slot]> (handlers n)) in
      if num_handlers n =? 0 then
        r ← RemoveHashMap node (event_handlers em);
        Ok (mkHandlers r.2 (delete a (node_handlers em)))
      else Ok (mkHandlers (event_handlers em) (<[a := n]> (node_handlers em))).

(** the slot that becomes the context of the driver's own handler, if the
    request is changed *)
Definition SetEventHandler (t : nat) (request : set_event) (node : Z) (em : EventHandlerManager)
  : result (option (Z * nat) * EventHandlerManager) :=
  if (TDI_EVENT_HANDLERS_MAX <=? EventType request)%nat then Ok (None, em)
  else
    a ← FindHashMapValue node (event_handlers em);
    r ← (if a =? 0 then CreateNodeEventHandler t node em else Ok (a, em));
    let '(a, em) := r in
    if a =? 0 then Ok (None, em)
    else
      n ← handler_at (node_handlers em) a;
      let n := mkNodeHandler (handler_node n) (num_handlers n)
                 (<[EventType request := mkSlot node request]> (handlers n)) in
      Ok (Some (a, EventType request), mkHandlers (event_handlers em) (<[a := n]> (node_handlers em))).
End Operations.

Definition CheckEventHandler (s : slot) : bool :=
  negb (slot_node s =? 0) && negb (EventHandler (original s) =? 0) && negb (EventContext (original s) =? 0).

(** the original handler and context that the driver's handler calls for a slot *)
Definition call_original (where_ : Z * nat) (em : EventHandlerManager) : result (option (Z * Z)) :=
  n ← handler_at (node_handlers em) where_.1;
  match handlers n !! where_.2 with
  | None => Fault OutOfBoundsRead
  | Some s =>
    Ok (if CheckEventHandler s then Some (EventHandler (original s), EventContext (original s)) else None)
  end.

(** ** Restoring the original handlers *)

(** the requests DestroyNodeEventHandlerVisitor sends down: one for each slot
    in use, with its file object, type, original handler and context *)
Definition restore_slots (l : list slot) : list slot :=
  filter (fun s => EventHandler (original s) <> 0) l.

Definition DestroyNodeEventHandlerVisitor (em : EventHandlerManager) (key value : Z) (sent : list slot) : result (list slot) :=
  if value =? 0 then Ok sent
  else n ← handler_at (node_handlers em) value; Ok (sent ++ restore_slots (handlers n)).

Definition DestroyEventHandlerManager (em : EventHandlerManager) : result (list slot * HashMap) :=
  sent ← IterateHashMap (DestroyNodeEventHandlerVisitor em) (event_handlers em) [];
  h ← DestroyHashMap (event_handlers em);
  Ok (sent, h).

(** ** Correctness *)

Section Correct.
Context `{Pool} `{Lookaside}.

Inductive request := SetRequest (t : nat) (e : set_event) (node : Z) | RemoveRequest (e : set_event) (node : Z).

Definition run_request (r : request) (em : EventHandlerManager) : result (option (Z * nat) * EventHandlerManager) :=
  match r with
  | SetRequest t e node => SetEventHandler t e node em
  | RemoveRequest e node => em ← RemoveEventHandler e node em; Ok (None, em)
  end.

Fixpoint run_requests (rs : list request) (em : EventHandlerManager) : result EventHandlerManager :=
  match rs with
  | [] => Ok em
  | r :: rs' => x ← run_request r em; run_requests rs' x.2
  end.

(** after [r] requests *)
Definition handlers_inv (r : nat) (em : EventHandlerManager) : Prop :=
  exists B kvs, represents (event_handlers em) B kvs /\
    (forall k v, (k, v) ∈ kvs -> v <> 0 /\ exists n, node_handlers em !! v = Some n /\ handler_node n = k) /\
    (forall a n, node_handlers em !! a = Some n -> length (handlers n) = TDI_EVENT_HANDLERS_MAX /\
       exists j, (j <= r)%nat /\ num_handlers n = (- Z.of_nat j) mod 2 ^ 32).

Lemma lookup_first_in k kvs v : lookup_first k kvs = Some v -> (k, v) ∈ kvs.
Proof.
  induction kvs as [|[k' v'] kvs IH]; [done |]. cbn. destruct (Z.eqb_spec k' k) as [-> | N]; intros E.
  - simplify_eq. apply list_elem_of_here.
  - apply list_elem_of_further. by apply IH.
Qed.

(** a block that was allocated stays so, and only the slot of the request changes *)
Definition only_slot (node : Z) (type : nat) (em em' : EventHandlerManager) : Prop :=
  forall a n, node_handlers em !! a = Some n -> exists n', node_handlers em' !! a = Some n' /\ handler_node n' = handler_node n /\
    forall i, (handler_node n <> node \/ i <> type) -> handlers n' !! i = handlers n !! i.

Lemma only_slot_refl node type em : only_slot node type em em.
Proof. intros a n E. by exists n. Qed.

Lemma RemoveEventHandler_spec r e node em : handlers_inv r em -> Z.of_nat (S r) < 2 ^ 32 ->
  exists em', RemoveEventHandler e node em = Ok em' /\ handlers_inv (S r) em' /\ only_slot node (EventType e) em em'.
Proof.
  intros (B & kvs & R & V & N) Lt. unfold RemoveEventHandler.
  assert (Up : handlers_inv (S r) em).
  { exists B, kvs. split_and!; [done | done |]. intros a n E. destruct (N a n E) as [L (j & Hj & Ej)]. split; [done |]. exists j. split; [lia | done]. }
  destruct (Nat.leb_spec TDI_EVENT_HANDLERS_MAX (EventType e)) as [|Lt'].
  { exists em. split_and!; [done | done | apply only_slot_refl]. }
  rewrite (FindHashMapValue_spec _ B kvs) by done. cbn [mbind result_bind].
  destruct (lookup_first node kvs) as [v|] eqn:Ev; cbn [from_option id].
  2:{ exists em. split_and!; [done | done | apply only_slot_refl]. }
  destruct (V node v (lookup_first_in _ _ _ Ev)) as [Nv (n & En & Hn)]. rewrite (proj2 (Z.eqb_neq v 0)) by done.
  unfold handler_at. rewrite En. cbn [mbind result_bind num_handlers]. destruct (N v n En) as [L (j & Hj & Ej)].
  assert (Es : u32 (num_handlers n - 1) = (- Z.of_nat (S j)) mod 2 ^ 32).
  { unfold u32. rewrite Ej. rewrite Zminus_mod_idemp_l. f_equal. lia. }
  rewrite Es, Z.mod_opp_l_nz, (Z.mod_small (Z.of_nat (S j))) by (rewrite ?Z.mod_small; lia).
  rewrite (proj2 (Z.eqb_neq _ 0)) by lia. eexists. split; [reflexivity |]. split.
  - exists B, kvs. cbn [event_handlers node_handlers]. split_and!; [done | |].
    + intros k w Hw. destruct (V k w Hw) as [Nw (n' & En' & Hn')]. split; [done |]. destruct (decide (w = v)) as [-> | Nwv].
      * rewrite lookup_insert_eq. eexists. split; [reflexivity |]. cbn [handler_node]. congruence.
      * rewrite lookup_insert_ne by done. by exists n'.
    + intros a n'. destruct (decide (a = v)) as [-> | Na].
      * rewrite lookup_insert_eq. intros E. simplify_eq. cbn [handlers num_handlers]. rewrite length_insert. split; [done |].
        exists (S j). split; [lia |]. rewrite Z.mod_opp_l_nz, (Z.mod_small (Z.of_nat (S j))) by (rewrite ?Z.mod_small; lia). done.
      * rewrite lookup_insert_ne by done. intros E. destruct (N a n' E) as [L' (j' & Hj' & Ej')]. split; [done |]. exists j'. split; [lia | done].
  - intros a n' E. cbn [node_handlers]. destruct (decide (a = v)) as [-> | Na].
    + rewrite lookup_insert_eq. eexists. split; [reflexivity |]. rewrite En in E. simplify_eq. cbn [handler_node handlers]. split; [done |].
      intros i [Hi | Hi]; [done |]. by rewrite list_lookup_insert_ne.
    + rewrite lookup_insert_ne by done. by exists n'.
Qed.

Lemma CreateNodeEventHandler_spec t node em r : handlers_inv r em ->
  exists a em', CreateNodeEventHandler t node em = Ok (a, em') /\ handlers_inv r em' /\
    (forall x n, node_handlers em !! x = Some n -> node_handlers em' !! x = Some n) /\
    if a =? 0 then lookaside t (dom (node_handlers em)) = None
    else exists n, node_handlers em' !! a = Some n /\ handler_node n = node.
Proof.
  intros (B & kvs & R & V & N). unfold CreateNodeEventHandler.
  destruct (lookaside t (dom (node_handlers em))) as [a|] eqn:E.
  2:{ exists 0, em. split_and!; try done. by exists B, kvs. }
  apply lookaside_fresh in E as [Na Fr]. rewrite not_elem_of_dom in Fr.
  destruct (InsertHashMap_spec t node a _ B kvs R) as (b & hm' & B' & -> & R' & _). cbn [mbind result_bind fst snd].
  eexists a, _. split; [reflexivity |]. cbn [event_handlers node_handlers].
  assert (K : forall x n, node_handlers em !! x = Some n -> a <> x) by (intros x n E ->; congruence).
  split_and!.
  - exists B', (if b then kvs ++ [(node, a)] else kvs). cbn [event_handlers node_handlers]. split_and!; [done | |].
    + intros k v Hv. assert (C : (k, v) ∈ kvs \/ (k, v) = (node, a)).
      { destruct b; [| by left]. apply elem_of_app in Hv as [|Hv]; [by left | right]. by apply list_elem_of_singleton in Hv. }
      destruct C as [Hk | C]; [| simplify_eq; split; [done |]; eexists; by rewrite lookup_insert_eq].
      destruct (V k v Hk) as [Nv (n & En & Hn)]. split; [done |]. exists n. by rewrite lookup_insert_ne by by apply (K v n).
    + intros x n. destruct (decide (x = a)) as [-> | Nx].
      * rewrite lookup_insert_eq. intros E. simplify_eq. split; [done |]. exists 0%nat. split; [lia | done].
      * rewrite lookup_insert_ne by done. apply N.
  - intros x n E. by rewrite lookup_insert_ne by by apply (K x n).
  - rewrite (proj2 (Z.eqb_neq a 0)) by done. eexists. by rewrite lookup_insert_eq.
Qed.

Lemma SetEventHandler_spec t e node em r : handlers_inv r em ->
  exists o em', SetEventHandler t e node em = Ok (o, em') /\ handlers_inv r em' /\ only_slot node (EventType e) em em' /\
    match o with
    | None => (TDI_EVENT_HANDLERS_MAX <= EventType e)%nat \/ exists used, lookaside t used = None
    | Some w => w.2 = EventType e /\ exists n, node_handlers em' !! w.1 = Some n /\ handler_node n = node /\
                handlers n !! w.2 = Some (mkSlot node e)
    end.
Proof.
  intros I. unfold SetEventHandler. destruct (Nat.leb_spec TDI_EVENT_HANDLERS_MAX (EventType e)) as [|Lt].
  { exists None, em. split_and!; [done | done | apply only_slot_refl | by left]. }
  assert (S1 : exists a em1, (a ← FindHashMapValue node (event_handlers em);
      if a =? 0 then CreateNodeEventHandler t node em else Ok (a, em)) = Ok (a, em1) /\ handlers_inv r em1 /\
      (forall x n, node_handlers em !! x = Some n -> node_handlers em1 !! x = Some n) /\
      if a =? 0 then exists used, lookaside t used = None
      else exists n, node_handlers em1 !! a = Some n /\ handler_node n = node).
  { pose proof I as (B & kvs & R & V & N). rewrite (FindHashMapValue_spec _ B kvs) by done. cbn [mbind result_bind].
    destruct (lookup_first node kvs) as [v|] eqn:Ev; cbn [from_option id].
    - destruct (V node v (lookup_first_in _ _ _ Ev)) as [Nv Hn]. exists v, em. rewrite (proj2 (Z.eqb_neq v 0)) by done. done.
    - cbn. destruct (CreateNodeEventHandler_spec t node em r I) as (a & em1 & E & I1 & K & C). exists a, em1. split_and!; try done.
      destruct (a =? 0); [by eexists | done]. }
  destruct S1 as (a & em1 & E1 & I1 & K & C). unfold mbind, result_bind in E1 |- *.
  destruct (FindHashMapValue node (event_handlers em)) as [v|]; [| done]. rewrite E1.
  destruct (Z.eqb_spec a 0) as [-> | Na].
  { exists None, em1. split_and!; [done | done | | by right]. intros x n E. exists n. by rewrite (K x n). }
  destruct C as (n & En & Hn). unfold handler_at. rewrite En. eexists _, _. split; [reflexivity |].
  destruct I1 as (B & kvs & R & V & N). destruct (N a n En) as [L (j & Hj & Ej)]. split_and!.
  - exists B, kvs. cbn [event_handlers node_handlers]. split_and!; [done | |].
    + intros k w Hw. destruct (V k w Hw) as [Nw (n' & En' & Hn')]. split; [done |]. destruct (decide (w = a)) as [-> | Nwv].
      * rewrite lookup_insert_eq. eexists. split; [reflexivity |]. cbn [handler_node]. congruence.
      * rewrite lookup_insert_ne by done. by exists n'.
    + intros x n'. destruct (decide (x = a)) as [-> | Nx].
      * rewrite lookup_insert_eq. intros E. simplify_eq. cbn [handlers num_handlers]. rewrite length_insert. split; [done |]. by exists j.
      * rewrite lookup_insert_ne by done. apply N.
  - intros x n' E. cbn [node_handlers]. apply K in E. destruct (decide (x = a)) as [-> | Nx].
    + rewrite lookup_insert_eq. eexists. split; [reflexivity |]. rewrite En in E. simplify_eq. cbn [handler_node handlers]. split; [done |].
      intros i [Hi | Hi]; [done |]. by rewrite list_lookup_insert_ne.
    + rewrite lookup_insert_ne by done. by exists n'.
  - done.
  - cbn [fst snd node_handlers]. eexists. rewrite lookup_insert_eq. split; [reflexivity |]. split; [done |]. cbn [handlers].
    apply list_lookup_insert_eq. lia.
Qed.

Definition concerns (r : request) : Z * nat :=
  match r with SetRequest _ e node | RemoveRequest e node => (node, EventType e) end.

Lemma run_request_spec x r em : handlers_inv r em -> Z.of_nat (S r) < 2 ^ 32 ->
  exists y, run_request x em = Ok y /\ handlers_inv (S r) y.2 /\ only_slot (concerns x).1 (concerns x).2 em y.2.
Proof.
  intros I Lt. destruct x as [t e node | e node]; cbn [run_request concerns fst snd].
  - destruct (SetEventHandler_spec t e node em r I) as (o & em' & -> & (B & kvs & R & V & N) & O & _). eexists. split; [reflexivity |].
    split; [| done]. exists B, kvs. split_and!; [done | done |]. intros a n E. destruct (N a n E) as [L (j & Hj & Ej)].
    split; [done |]. exists j. split; [lia | done].
  - destruct (RemoveEventHandler_spec r e node em I Lt) as (em' & -> & I' & O). by eexists.
Qed.

Lemma run_requests_spec rs : forall r em, handlers_inv r em -> Z.of_nat (r + length rs) < 2 ^ 32 ->
  exists em', run_requests rs em = Ok em' /\ handlers_inv (r + length rs) em' /\
    forall a n, node_handlers em !! a = Some n -> exists n', node_handlers em' !! a = Some n' /\ handler_node n' = handler_node n /\
      forall i, (handler_node n, i) ∉ concerns <$> rs -> handlers n' !! i = handlers n !! i.
Proof.
  induction rs as [|x rs IH]; intros r em I Lt.
  - exists em. cbn [length]. rewrite Nat.add_0_r. split_and!; [done | done |]. intros a n E. by exists n.
  - cbn [length] in *. destruct (run_request_spec x r em I) as (y & Ey & Iy & Oy); [lia |].
    destruct (IH (S r) y.2 Iy) as (em' & E' & I' & O'); [lia |]. exists em'. cbn [run_requests]. rewrite Ey. cbn [mbind result_bind].
    replace (r + S (length rs))%nat with (S r + length rs)%nat by lia. split_and!; [done | done |].
    intros a n E. destruct (Oy a n E) as (n1 & E1 & H1 & S1). destruct (O' a n1 E1) as (n2 & E2 & H2 & S2).
    exists n2. split_and!; [done | congruence |]. intros i Hi. cbn in Hi. apply not_elem_of_cons in Hi as [Hx Hi].
    rewrite S2 by by rewrite H1. apply S1. destruct (decide (handler_node n = (concerns x).1)) as [Eh|]; [right | by left].
    intros ->. apply Hx. rewrite Eh. by destruct (concerns x).
Qed.

Lemma handlers_inv_empty : handlers_inv 0 InitialiseEventHandlerManager.
Proof.
  exists (fun _ => []), []. split_and!; [apply represents_empty | |].
  - intros k v Hv. by apply not_elem_of_nil in Hv.
  - intros a n E. unfold InitialiseEventHandlerManager in E. cbn [node_handlers] in E. by rewrite lookup_empty in E.
Qed.

(** C31: Hooking is transparent: whatever was requested before, a request to set
    a handler is either passed on unchanged, for an unknown type or for lack
    of memory, or hooked; and then, until a later request for the same file
    object and type, the driver's handler calls the original one with its
    context, provided that context is not NULL. No request follows a dangling
    pointer, as long as there are fewer than 2^32. *)
Theorem hook_transparent before t e node after :
  Z.of_nat (length before + length after) + 1 < 2 ^ 32 -> node <> 0 -> EventHandler e <> 0 -> (node, EventType e) ∉ concerns <$> after ->
  exists em1 o em2 em3, run_requests before InitialiseEventHandlerManager = Ok em1 /\
    SetEventHandler t e node em1 = Ok (o, em2) /\ run_requests after em2 = Ok em3 /\
    match o with
    | None => (TDI_EVENT_HANDLERS_MAX <= EventType e)%nat \/ exists used, lookaside t used = None
    | Some w => call_original w em3 =
        Ok (if EventContext e =? 0 then None else Some (EventHandler e, EventContext e))
    end.
Proof.
  intros Lt Nn Nh Na. destruct (run_requests_spec before 0 _ handlers_inv_empty) as (em1 & E1 & I1 & _); [lia |].
  destruct (SetEventHandler_spec t e node em1 _ I1) as (o & em2 & E2 & I2 & _ & W).
  destruct (run_requests_spec after _ em2 I2) as (em3 & E3 & _ & O); [lia |]. exists em1, o, em2, em3. split_and!; try done.
  destruct o as [[b i]|]; [| done]. cbn [fst snd] in W. destruct W as [-> (n & En & Hn & Hs)].
  destruct (O b n En) as (n' & En' & Hn' & S'). unfold call_original, handler_at. cbn [fst snd]. rewrite En'. cbn [mbind result_bind].
  rewrite S'; [| by rewrite Hn]. rewrite Hs. unfold CheckEventHandler. cbn [slot_node original].
  rewrite (proj2 (Z.eqb_neq node 0)), (proj2 (Z.eqb_neq (EventHandler e) 0)) by done. by destruct (EventContext e =? 0).
Qed.

(** the slots in use of the blocks in the map *)
Definition slots_of (em : EventHandlerManager) (kvs : list (Z * Z)) : list slot :=
  kvs ≫= fun kv => match node_handlers em !! kv.2 with Some n => restore_slots (handlers n) | None => [] end.

Lemma visit_restores em kvs : forall sent,
  (forall k v, (k, v) ∈ kvs -> v <> 0 /\ exists n, node_handlers em !! v = Some n /\ handler_node n = k) ->
  visit_all (DestroyNodeEventHandlerVisitor em) kvs sent = Ok (sent ++ slots_of em kvs).
Proof.
  induction kvs as [|[k v] kvs IH]; intros sent V; cbn [visit_all fst snd].
  - unfold slots_of. cbn. by rewrite app_nil_r.
  - destruct (V k v) as [Nv (n & En & _)]; [apply list_elem_of_here |].
    assert (Es : DestroyNodeEventHandlerVisitor em k v sent = Ok (sent ++ restore_slots (handlers n))).
    { unfold DestroyNodeEventHandlerVisitor, handler_at. rewrite (proj2 (Z.eqb_neq v 0)) by done. by rewrite En. }
    rewrite Es. cbn [mbind result_bind]. rewrite IH.
    + unfold slots_of. cbn. by rewrite En, <- app_assoc.
    + intros k' v' Hk. apply V. by apply list_elem_of_further.
Qed.

(** whatever was requested, destroying the manager sends one request for every
    handler that is hooked in a block of the map, in some order, and frees the
    pairs of the map *)
Lemma handlers_restored rs : Z.of_nat (length rs) < 2 ^ 32 ->
  exists em kvs sent, run_requests rs InitialiseEventHandlerManager = Ok em /\
    (exists B, represents (event_handlers em) B kvs) /\
    DestroyEventHandlerManager em = Ok (sent, InitialiseHashMap) /\ sent ≡ₚ slots_of em kvs.
Proof.
  intros Lt. destruct (run_requests_spec rs 0 _ handlers_inv_empty) as (em & E & (B & kvs & R & V & _) & _); [lia |].
  set (order := bucket_order (seqZ 0 HASH_MAP_SIZE) kvs). assert (Pm : order ≡ₚ kvs) by apply bucket_order_perm.
  exists em, kvs, (slots_of em order). split_and!; [done | by exists B | |].
  - unfold DestroyEventHandlerManager. rewrite (IterateHashMap_spec _ _ B kvs) by done. rewrite visit_restores.
    + cbn [mbind result_bind app]. by rewrite (DestroyHashMap_spec _ B kvs R).
    + intros k v Hv. apply V. by rewrite <- Pm.
  - unfold slots_of. by rewrite Pm.
Qed.
End Correct.

#[local] Existing Instance SmallPool.

#[local] Instance SmallLookaside : Lookaside := {|
  lookaside t used := smallest 3 1 used;
  lookaside_fresh t used a E := smallest_fresh 3 1 used a ltac:(lia) E;
|}.

Definition sample_requests : list request :=
  [SetRequest 0 (mkSetEvent 1 500 600) 7; SetRequest 0 (mkSetEvent 0 501 601) 8; RemoveRequest (mkSetEvent 1 0 0) 7].

Lemma hook_transparent_witness :
  exists em1 o em2 em3, run_requests sample_requests InitialiseEventHandlerManager = Ok em1 /\
    SetEventHandler 0 (mkSetEvent 0 502 602) 7 em1 = Ok (o, em2) /\ run_requests sample_requests em2 = Ok em3 /\
    match o with
    | None => (TDI_EVENT_HANDLERS_MAX <= 0)%nat \/ exists used, lookaside 0 used = None
    | Some w => call_original w em3 = Ok (Some (502, 602))
    end.
Proof.
  apply (hook_transparent sample_requests 0 (mkSetEvent 0 502 602) 7 sample_requests); cbn; try lia.
  intros K. repeat (apply elem_of_cons in K as [K | K]; [discriminate K |]). by apply not_elem_of_nil in K.
Defined.

(** no request increments the count, so that of a block from which a handler
    was removed is 2^32 - 1 and the block is kept *)
Example removed_not_freed :
  (em ← run_requests sample_requests InitialiseEventHandlerManager; n ← handler_at (node_handlers em) 1; Ok (num_handlers n)) =
  Ok 4294967295.
Proof. vm_compute. reflexivity. Qed.
