(* ===== verification/ConnectionManager.v ===== *)
(** * The connection driver (ConnectionManager.c, Connection.c, the TDI handlers)

    The driver follows the requests to the transport: it keeps a node for each
    file object, a connection for each node that takes part in one, and queues
    an event at every change of a connection's state, which the network
    monitor reads. *)
From Stdlib Require Import ZArith Lia.
From stdpp Require Import base gmap list strings numbers.
From S2P Require Import Prelude PacketDef Element Visitor Monitor Analyzer ProcessManager DriverEvents HashMap EventHandlers EventQueue.

Local Open Scope Z_scope.

(** ** States and addresses *)

Definition TCP_STATE_CLOSED : Z := 0.
Definition TCP_STATE_SYN_SENT : Z := 2.
Definition TCP_STATE_SYN_RCVD : Z := 3.
Definition TCP_STATE_FIN_WAIT_1 : Z := 5.
Definition TCP_STATE_TIME_WAIT : Z := 8.
Definition TCP_STATE_CLOSE_WAIT : Z := 9.
Definition TCP_STATE_LAST_ACK : Z := 10.
Definition UDP_STATE_CLOSED : Z := 11.
Definition UDP_STATE_ESTABLISHED : Z := 13.

Inductive address_type := TDI_ADDRESS_TYPE_IP | OtherAddress.

(** a TA_ADDRESS; port and address as they lie in memory *)
Record TA_ADDRESS := mkAddress { AddressType : address_type; sin_port : Z; in_addr : bytes }.

Definition ntohs (x : Z) : Z := u16 (Z.lor (Z.shiftl (Z.land x 255) 8) (Z.shiftr (Z.land x 65280) 8)).

Definition addr_byte (b : bytes) (i : nat) : Z := default 0 (b !! i).

(** "%d.%d.%d.%d:%u" *)
Definition print_address (a : TA_ADDRESS) : bytes :=
  let p := in_addr a in
  print_dec (addr_byte p 0) ++ bs "." ++ print_dec (addr_byte p 1) ++ bs "." ++ print_dec (addr_byte p 2) ++ bs "." ++
  print_dec (addr_byte p 3) ++ bs ":" ++ print_dec (ntohs (sin_port a)).

(** [None]: memory that was not written; a buffer that is not written to
    keeps what it held *)
Definition AddressToString (address : option TA_ADDRESS) (buffer : option bytes) : result (option bytes) :=
  match address with
  | None => Fault UninitRead
  | Some a => Ok (match AddressType a with TDI_ADDRESS_TYPE_IP => Some (print_address a) | OtherAddress => buffer end)
  end.

(** [strlen(buffer) + 1] bytes of the buffer *)
Definition with_nul (buffer : option bytes) : result bytes :=
  match buffer with Some s => Ok (s ++ [0]) | None => Fault UninitRead end.

(** ** Connections and their manager *)

Record Connection := mkConnection {
  local_node : Z;
  remote_node : Z;
  local_node_address : option TA_ADDRESS;
  remote_node_address : option TA_ADDRESS;
  state : Z;
  conn_process_id : Z;
}.

Record ConnectionNode := mkConnectionNode { node_file : Z; node_connection : Z }.

(** the pools hold what is allocated from them *)
Record ConnectionManager := mkManager {
  is_tcp : bool;                         (* device_type *)
  connections : HashMap;
  connections_pool : gmap Z Connection;
  connection_nodes_pool : gmap Z ConnectionNode;
  event_list : KernelEventList;
  event_handler_manager : EventHandlerManager;
}.

Definition with_connections (h : HashMap) (M : ConnectionManager) : ConnectionManager :=
  mkManager (is_tcp M) h (connections_pool M) (connection_nodes_pool M) (event_list M) (event_handler_manager M).
Definition with_connections_pool (p : gmap Z Connection) (M : ConnectionManager) : ConnectionManager :=
  mkManager (is_tcp M) (connections M) p (connection_nodes_pool M) (event_list M) (event_handler_manager M).
Definition with_nodes_pool (p : gmap Z ConnectionNode) (M : ConnectionManager) : ConnectionManager :=
  mkManager (is_tcp M) (connections M) (connections_pool M) p (event_list M) (event_handler_manager M).
Definition with_event_list (l : KernelEventList) (M : ConnectionManager) : ConnectionManager :=
  mkManager (is_tcp M) (connections M) (connections_pool M) (connection_nodes_pool M) l (event_handler_manager M).
Definition with_handlers (h : EventHandlerManager) (M : ConnectionManager) : ConnectionManager :=
  mkManager (is_tcp M) (connections M) (connections_pool M) (connection_nodes_pool M) (event_list M) h.

Definition InitialiseConnectionManager (tcp : bool) : ConnectionManager :=
  mkManager tcp InitialiseHashMap ∅ ∅ (mkList 0 0 ∅) InitialiseEventHandlerManager.

(** what the system answers during a request: a seed for the pools, the space
    reserved in the event list (0: the event, 1 to 4: its data), the
    transport's answer to the query for the local address *)
Record answers := mkAnswers { seed : nat; reserved : nat -> option Z; local_answer : option TA_ADDRESS }.

Definition connection_at (M : ConnectionManager) (c : Z) : result Connection :=
  if c =? 0 then Fault NullDeref
  else match connections_pool M !! c with Some x => Ok x | None => Fault UseAfterFree end.

Definition put_connection (c : Z) (x : Connection) (M : ConnectionManager) : ConnectionManager :=
  with_connections_pool (<[c := x]> (connections_pool M)) M.

Definition node_at (M : ConnectionManager) (n : Z) : result ConnectionNode :=
  match connection_nodes_pool M !! n with Some x => Ok x | None => Fault UseAfterFree end.

Definition set_node_connection (n c : Z) (M : ConnectionManager) : result ConnectionManager :=
  x ← node_at M n;
  Ok (with_nodes_pool (<[n := mkConnectionNode (node_file x) c]> (connection_nodes_pool M)) M).

Definition SetLocalNode (c node : Z) (M : ConnectionManager) : result ConnectionManager :=
  x ← connection_at M c;
  Ok (put_connection c (mkConnection node (remote_node x) (local_node_address x) (remote_node_address x) (state x)
        (conn_process_id x)) M).

Definition SetRemoteNode (c node : Z) (M : ConnectionManager) : result ConnectionManager :=
  x ← connection_at M c;
  Ok (put_connection c (mkConnection (local_node x) node (local_node_address x) (remote_node_address x) (state x)
        (conn_process_id x)) M).

Definition SetLocalNodeAddress (c : Z) (a : option TA_ADDRESS) (M : ConnectionManager) : result ConnectionManager :=
  x ← connection_at M c;
  Ok (put_connection c (mkConnection (local_node x) (remote_node x) a (remote_node_address x) (state x)
        (conn_process_id x)) M).

Definition SetRemoteNodeAddress (c : Z) (a : option TA_ADDRESS) (M : ConnectionManager) : result ConnectionManager :=
  x ← connection_at M c;
  Ok (put_connection c (mkConnection (local_node x) (remote_node x) (local_node_address x) a (state x)
        (conn_process_id x)) M).

Definition set_process_id (c pid : Z) (M : ConnectionManager) : result ConnectionManager :=
  x ← connection_at M c;
  Ok (put_connection c (mkConnection (local_node x) (remote_node x) (local_node_address x) (remote_node_address x)
        (state x) pid) M).

(** the query is answered before the call returns, or not at all *)
Definition GetLocalAddress (o : answers) (c : Z) (M : ConnectionManager) : result ConnectionManager :=
  _ ← connection_at M c;
  match local_answer o with None => Ok M | Some a => SetLocalNodeAddress c (Some a) M end.

Definition GetConnection (node : Z) (M : ConnectionManager) : result Z :=
  n ← FindHashMapValue node (connections M);
  if n =? 0 then Ok 0 else x ← node_at M n; Ok (node_connection x).

Section Manager.
Context `{Pool} `{Lookaside}.

(** memory of the pool is not cleared *)
Definition CreateConnection (o : answers) (M : ConnectionManager) : Z * ConnectionManager :=
  match lookaside (seed o) (dom (connections_pool M)) with
  | None => (0, M)
  | Some c => (c, put_connection c (mkConnection 0 0 None None (if is_tcp M then TCP_STATE_CLOSED else UDP_STATE_CLOSED) 0) M)
  end.

Definition RemoveConnection (c : Z) (M : ConnectionManager) : result ConnectionManager :=
  if c =? 0 then Ok M
  else
    _ ← connection_at M c;
    Ok (with_connections_pool (delete c (connections_pool M)) M).

Definition ReleaseConnectionNode (c node : Z) (M : ConnectionManager) : result ConnectionManager :=
  if node =? 0 then Ok M
  else
    x ← connection_at M c;
    let M := put_connection c (mkConnection (if local_node x =? node then 0 else local_node x)
               (if remote_node x =? node then 0 else remote_node x) (local_node_address x) (remote_node_address x)
               (state x) (conn_process_id x)) M in
    n ← FindHashMapValue node (connections M);
    if n =? 0 then Fault NullDeref else set_node_connection n 0 M.

Definition RemoveConnectionNode (node : Z) (M : ConnectionManager) : result ConnectionManager :=
  n ← FindHashMapValue node (connections M);
  if n =? 0 then Ok M
  else
    x ← node_at M n;
    M ← (if negb (node_connection x =? 0) then RemoveConnection (node_connection x) M else Ok M);
    r ← RemoveHashMap node (connections M);
    _ ← node_at M n;
    Ok (with_nodes_pool (delete n (connection_nodes_pool M)) (with_connections r.2 M)).

(** the result of InsertHashMap is not looked at *)
Definition AddConnectionNode (o : answers) (c node : Z) (M : ConnectionManager) : result ConnectionManager :=
  p ← FindHashMap node (connections M);
  if negb (p =? 0) then Ok M
  else match lookaside (seed o) (dom (connection_nodes_pool M)) with
  | None => Ok M
  | Some n =>
    let M := with_nodes_pool (<[n := mkConnectionNode node c]> (connection_nodes_pool M)) M in
    r ← InsertHashMap (seed o) node n (connections M);
    Ok (with_connections r.2 M)
  end.

Definition SetLocalConnectionNode (o : answers) (c node : Z) (M : ConnectionManager) : result ConnectionManager :=
  M ← SetLocalNode c node M; AddConnectionNode o c node M.
Definition SetRemoteConnectionNode (o : answers) (c node : Z) (M : ConnectionManager) : result ConnectionManager :=
  M ← SetRemoteNode c node M; AddConnectionNode o c node M.

(** AddEventData, which does nothing if there is no space and does not look
    whether there is an event *)
Definition add_data (event container : option Z) (key : Z) (data : bytes) (l : KernelEventList) : result KernelEventList :=
  match container with
  | None => Ok l
  | Some c => match event with None => Fault NullDeref | Some e => AddEventData e c key key data l end
  end.

Definition SetConnectionState (o : answers) (c tcp_state : Z) (M : ConnectionManager) : result ConnectionManager :=
  if c =? 0 then Ok M
  else
    x ← connection_at M c;
    let M := put_connection c (mkConnection (local_node x) (remote_node x) (local_node_address x) (remote_node_address x)
               tcp_state (conn_process_id x)) M in
    let event := reserved o 0 in
    let l := match event with Some e => CreateEvent e (event_list M) | None => event_list M end in
    l ← add_data event (reserved o 1) 0 (le32 tcp_state) l;
    buffer ← AddressToString (local_node_address x) None;
    s ← with_nul buffer;
    l ← add_data event (reserved o 2) 1 s l;
    buffer ← AddressToString (remote_node_address x) buffer;
    s ← with_nul buffer;
    l ← add_data event (reserved o 3) 2 s l;
    l ← add_data event (reserved o 4) 3 (le32 (conn_process_id x)) l;
    match event with
    | None => Fault NullDeref
    | Some e => l ← InsertEvent e l; Ok (with_event_list l M)
    end.
End Manager.

(** ** Requests of the transport's clients *)

Definition TDI_DISCONNECT_ABORT : nat := 2.
Definition TDI_DISCONNECT_RELEASE : nat := 4.
Definition TDI_EVENT_CONNECT : nat := 0.

(** the tables of names that the debug messages index *)
Definition disconnect_flag_names : nat := 5.
Definition event_handler_names : nat := 11.

Section Requests.
Context `{Pool} `{Lookaside}.

(** [tracked]: the object is a transport address or a connection context *)
Definition TdiCreateHandler (o : answers) (node : Z) (tracked : bool) (M : ConnectionManager) : result ConnectionManager :=
  if tracked then AddConnectionNode o 0 node M else Ok M.

Definition TdiCloseHandler (node : Z) (M : ConnectionManager) : result ConnectionManager := RemoveConnectionNode node M.

(** [local]: the object of the address handle, if it has one *)
Definition TdiAssociateAddressHandler (o : answers) (local : option Z) (remote pid : Z) (M : ConnectionManager)
  : result ConnectionManager :=
  match local with
  | None => Ok M
  | Some local =>
    remote_connection_node ← FindHashMapValue remote (connections M);
    local_connection_node ← FindHashMapValue local (connections M);
    let '(c, M) := CreateConnection o M in
    if negb (c =? 0) && negb (remote_connection_node =? 0) && negb (local_connection_node =? 0) then
      M ← SetLocalNode c local M;
      M ← SetRemoteNode c remote M;
      M ← set_node_connection remote_connection_node c M;
      set_process_id c pid M
    else Ok M
  end.

Definition TdiDisassociateAddressHandler (node : Z) (M : ConnectionManager) : result ConnectionManager :=
  c ← GetConnection node M;
  if c =? 0 then Ok M
  else
    M ← ReleaseConnectionNode c node M;
    RemoveConnection c M.

(** the connection is the context of the completion routine, if one is set *)
Definition TdiConnectHandler (o : answers) (node pid : Z) (remote_address : TA_ADDRESS) (M : ConnectionManager)
  : result (ConnectionManager * Z) :=
  n ← FindHashMapValue node (connections M);
  if n =? 0 then Ok (M, 0)
  else
    M ← (if is_tcp M then Ok M
         else
           let '(c, M) := CreateConnection o M in
           x ← node_at M n;
           M ← SetLocalNode c (node_file x) M;
           M ← SetRemoteNode c (node_file x) M;
           M ← set_process_id c pid M;
           set_node_connection n c M);
    x ← node_at M n;
    let c := node_connection x in
    if c =? 0 then Ok (M, 0)
    else
      M ← match AddressType remote_address with
          | TDI_ADDRESS_TYPE_IP => SetRemoteNodeAddress c (Some remote_address) M
          | OtherAddress => Ok M
          end;
      M ← GetLocalAddress o c M;
      M ← SetConnectionState o c (if is_tcp M then TCP_STATE_SYN_SENT else UDP_STATE_CONNECT) M;
      Ok (M, c).

Definition TdiConnectHandlerComplete (o : answers) (c : Z) (success : bool) (M : ConnectionManager) : result ConnectionManager :=
  if success then SetConnectionState o c (if is_tcp M then TCP_STATE_ESTABLISHED else UDP_STATE_ESTABLISHED) M else Ok M.

Definition TdiDisconnectHandler (o : answers) (node : Z) (flags : nat) (M : ConnectionManager) : result ConnectionManager :=
  c ← GetConnection node M;
  if c =? 0 then Ok M
  else if (disconnect_flag_names <=? flags)%nat then Fault OutOfBoundsRead
  else if (flags =? TDI_DISCONNECT_ABORT)%nat then SetConnectionState o c TCP_STATE_CLOSED M
  else if (flags =? TDI_DISCONNECT_RELEASE)%nat then
    x ← connection_at M c;
    if state x =? TCP_STATE_CLOSE_WAIT then SetConnectionState o c TCP_STATE_LAST_ACK M else Ok M
  else Ok M.

Definition TdiSendHandler (o : answers) (node : Z) (M : ConnectionManager) : result ConnectionManager :=
  n ← FindHashMapValue node (connections M);
  if n =? 0 then Ok M
  else
    x ← node_at M n;
    if node_connection x =? 0 then Ok M else GetLocalAddress o (node_connection x) M.

Definition TdiSendDatagramHandler (o : answers) (node pid : Z) (remote_address : TA_ADDRESS) (M : ConnectionManager)
  : result ConnectionManager :=
  n ← FindHashMapValue node (connections M);
  if n =? 0 then Ok M
  else
    x ← node_at M n;
    M ← (if node_connection x =? 0 then
           let '(c, M) := CreateConnection o M in
           M ← set_node_connection n c M;
           M ← SetLocalNode c (node_file x) M;
           M ← SetRemoteNode c 0 M;
           set_process_id c pid M
         else Ok M);
    x ← node_at M n;
    let c := node_connection x in
    M ← GetLocalAddress o c M;
    M ← SetRemoteNodeAddress c (Some remote_address) M;
    SetConnectionState o c UDP_STATE_SEND_DATAGRAM M.

Definition TdiSetEventHandler (o : answers) (node : Z) (e : set_event) (pid : Z) (M : ConnectionManager)
  : result ConnectionManager :=
  if (event_handler_names <=? EventType e)%nat then Fault OutOfBoundsRead
  else if (EventHandler e =? 0) && (EventContext e =? 0) then
    h ← RemoveEventHandler e node (event_handler_manager M);
    Ok (with_handlers h M)
  else
    h ← SetEventHandler (seed o) e node (event_handler_manager M);
    let M := with_handlers h.2 M in
    if (EventType e =? TDI_EVENT_CONNECT)%nat then
      n ← FindHashMapValue node (connections M);
      if n =? 0 then Ok M
      else
        let '(c, M) := CreateConnection o M in
        M ← (if negb (c =? 0) then set_process_id c pid M else Ok M);
        M ← SetLocalConnectionNode o c node M;
        M ← SetRemoteConnectionNode o c node M;
        M ← set_node_connection n c M;
        M ← GetLocalAddress o c M;
        x ← connection_at M c;
        M ← match local_node_address x with
            | None => Fault UninitRead
            | Some a => SetRemoteNodeAddress c (Some a) M
            end;
        SetConnectionState o c TCP_STATE_LISTEN M
    else Ok M.

(** ** Callbacks of the transport *)

(** TdiConnectEventHandler, when the original handler accepts on [node] *)
Definition TdiConnectEventHandler (o : answers) (node : Z) (remote_address : TA_ADDRESS) (M : ConnectionManager)
  : result (ConnectionManager * Z) :=
  c ← GetConnection node M;
  if c =? 0 then Ok (M, 0)
  else
    M ← GetLocalAddress o c M;
    M ← SetRemoteNodeAddress c (Some remote_address) M;
    M ← SetConnectionState o c TCP_STATE_SYN_RCVD M;
    Ok (M, c).

Definition TdiConnectEventHandlerComplete (o : answers) (c : Z) (success : bool) (M : ConnectionManager)
  : result ConnectionManager :=
  if c =? 0 then Ok M
  else SetConnectionState o c (if success then TCP_STATE_ESTABLISHED else TCP_STATE_FIN_WAIT_1) M.

(** TdiDisconnectEventHandler, around an original handler that leaves the
    driver's own data alone *)
Definition TdiDisconnectEventHandler (o : answers) (node : Z) (flags : nat) (M : ConnectionManager) : result ConnectionManager :=
  c ← GetConnection node M;
  if c =? 0 then Ok M
  else if (disconnect_flag_names <=? flags)%nat then Fault OutOfBoundsRead
  else
    x ← connection_at M c;
    if (flags =? TDI_DISCONNECT_RELEASE)%nat then
      if state x =? TCP_STATE_FIN_WAIT_1 then SetConnectionState o c TCP_STATE_TIME_WAIT M
      else if state x =? TCP_STATE_ESTABLISHED then SetConnectionState o c TCP_STATE_CLOSE_WAIT M
      else Ok M
    else if (flags =? TDI_DISCONNECT_ABORT)%nat then SetConnectionState o c TCP_STATE_CLOSED M
    else Ok M.

(** ** Everything that reaches the driver *)

Inductive irp :=
  | IrpCreate (node : Z) (tracked : bool)
  | IrpClose (node : Z)
  | IrpAssociate (local : option Z) (node pid : Z)
  | IrpDisassociate (node : Z)
  | IrpConnect (node pid : Z) (remote : TA_ADDRESS)
  | IrpDisconnect (node : Z) (flags : nat)
  | IrpSend (node : Z)
  | IrpSendDatagram (node pid : Z) (remote : TA_ADDRESS)
  | IrpSetEvent (node : Z) (e : set_event) (pid : Z)
  | ConnectCompleted (c : Z) (success : bool)
  | ConnectIndicated (node : Z) (remote : TA_ADDRESS)
  | AcceptCompleted (c : Z) (success : bool)
  | DisconnectIndicated (node : Z) (flags : nat).

(** the manager afterwards and the context of a completion routine (0: none) *)
Definition handle_irp (o : answers) (r : irp) (M : ConnectionManager) : result (ConnectionManager * Z) :=
  let no_routine (x : result ConnectionManager) := M ← x; Ok (M, 0) in
  match r with
  | IrpCreate node tracked => no_routine (TdiCreateHandler o node tracked M)
  | IrpClose node => no_routine (TdiCloseHandler node M)
  | IrpAssociate local node pid => no_routine (TdiAssociateAddressHandler o local node pid M)
  | IrpDisassociate node => no_routine (TdiDisassociateAddressHandler node M)
  | IrpConnect node pid remote => TdiConnectHandler o node pid remote M
  | IrpDisconnect node flags => no_routine (TdiDisconnectHandler o node flags M)
  | IrpSend node => no_routine (TdiSendHandler o node M)
  | IrpSendDatagram node pid remote => no_routine (TdiSendDatagramHandler o node pid remote M)
  | IrpSetEvent node e pid => no_routine (TdiSetEventHandler o node e pid M)
  | ConnectCompleted c success => no_routine (TdiConnectHandlerComplete o c success M)
  | ConnectIndicated node remote => TdiConnectEventHandler o node remote M
  | AcceptCompleted c success => no_routine (TdiConnectEventHandlerComplete o c success M)
  | DisconnectIndicated node flags => no_routine (TdiDisconnectEventHandler o node flags M)
  end.
End Requests.

(** ** Dispatch *)

(** the handlers of the internal device control requests, by minor function *)
Inductive handler_name :=
  | H_Default | H_AssociateAddress | H_DisassociateAddress | H_Connect | H_Listen | H_Accept | H_Disconnect | H_Send
  | H_Receive | H_SendDatagram | H_ReceiveDatagram | H_SetEvent | H_QueryInformation | H_SetInformation | H_Action.

Definition tdi_irp_handlers : list handler_name :=
  [H_Default; H_AssociateAddress; H_DisassociateAddress; H_Connect; H_Listen; H_Accept; H_Disconnect; H_Send;
   H_Receive; H_SendDatagram; H_ReceiveDatagram; H_SetEvent; H_QueryInformation; H_SetInformation; H_Action].

(** [sizeof(tdi_irp_handlers)]: bytes, with pointers of four *)
Definition num_tdi_irp_handlers : nat := 4 * length tdi_irp_handlers.

(** the handler HandleIrp calls; [tdi_file]: the object is a connection or an address *)
Definition HandleIrp_internal (minor : nat) (tdi_file : bool) : result (option handler_name) :=
  if (minor <? num_tdi_irp_handlers)%nat && tdi_file then
    match tdi_irp_handlers !! minor with Some h => Ok (Some h) | None => Fault OutOfBoundsRead end
  else Ok None.

(** the bound counts bytes, so minor functions from 15 to 59 call through
    whatever follows the table *)
Lemma dispatch_overruns minor tdi_file :
  HandleIrp_internal minor tdi_file = Fault OutOfBoundsRead <-> tdi_file = true /\ (15 <= minor < 60)%nat.
Proof.
  unfold HandleIrp_internal. change num_tdi_irp_handlers with 60%nat. destruct tdi_file; [| rewrite andb_false_r; naive_solver].
  rewrite andb_true_r. destruct (Nat.ltb_spec minor 60) as [L|L]; [| naive_solver lia].
  destruct (tdi_irp_handlers !! minor) as [h|] eqn:E.
  - apply lookup_lt_Some in E. cbn in E. naive_solver lia.
  - apply lookup_ge_None in E. cbn in E. naive_solver lia.
Qed.
