(* ===== verification/ConnectionSafe.v ===== *)
(** * Safety of the connection driver

    Every pointer between file objects, nodes and connections leads to
    allocated memory, whatever requests reach the driver, and the network
    monitor can read every event it queues. *)
From Stdlib Require Import ZArith Lia.
From stdpp Require Import base gmap list strings numbers.
From S2P Require Import Prelude PacketDef Element Visitor Monitor Analyzer ProcessManager DriverEvents HashMap EventHandlers EventQueue ConnectionManager.

Local Open Scope Z_scope.

(** ** Results that satisfy a property or fault in a permitted way *)

Definition safe {A} (ok : fault -> Prop) (P : A -> Prop) (r : result A) : Prop :=
  match r with Ok a => P a | Fault f => ok f end.

Lemma safe_bind {A B} ok (P : A -> Prop) (Q : B -> Prop) (r : result A) (k : A -> result B) :
  safe ok P r -> (forall a, P a -> safe ok Q (k a)) -> safe ok Q (r ≫= k).
Proof. destruct r; cbn; [intros HP HQ; by apply HQ | done]. Qed.

Lemma safe_mono {A} ok (P Q : A -> Prop) r : safe ok P r -> (forall a, P a -> Q a) -> safe ok Q r.
Proof. destruct r; cbn; auto. Qed.

(** ** The nodes and their connections *)

Definition live (M : ConnectionManager) (c : Z) : Prop := c <> 0 /\ is_Some (connections_pool M !! c).

Record nodes_inv (M : ConnectionManager) (kvs : list (Z * Z)) : Prop := {
  inv_map : exists B, represents (connections M) B kvs;
  inv_keys : NoDup kvs.*1;
  inv_values : NoDup kvs.*2;
  inv_node : forall k v, (k, v) ∈ kvs -> v <> 0 /\ is_Some (connection_nodes_pool M !! v);
  inv_live : forall n x, connection_nodes_pool M !! n = Some x -> node_connection x = 0 \/ live M (node_connection x);
  inv_owner : forall n1 x1 n2 x2, connection_nodes_pool M !! n1 = Some x1 -> connection_nodes_pool M !! n2 = Some x2 ->
    node_connection x1 = node_connection x2 -> node_connection x1 <> 0 -> n1 = n2;
}.

(** [M'] differs from [M] in what connections hold, and may have more of them *)
Definition grown (M M' : ConnectionManager) : Prop :=
  connections M' = connections M /\ connection_nodes_pool M' = connection_nodes_pool M /\
  (forall c, live M c -> live M' c) /\ event_list M' = event_list M /\ event_handler_manager M' = event_handler_manager M /\
  is_tcp M' = is_tcp M.

Lemma grown_refl M : grown M M.
Proof. done. Qed.

Lemma grown_trans M1 M2 M3 : grown M1 M2 -> grown M2 M3 -> grown M1 M3.
Proof. intros (? & ? & ? & ? & ? & ?) (? & ? & ? & ? & ? & ?). split_and!; try congruence. auto. Qed.

Lemma grown_nodes M M' kvs : nodes_inv M kvs -> grown M M' -> nodes_inv M' kvs.
Proof.
  intros [I1 I2 I3 I4 I5 I6] (E1 & E2 & L & _). split; rewrite ?E1, ?E2; try done.
  intros n x E. destruct (I5 n x E) as [|K]; [by left | right; by apply L].
Qed.

Lemma connection_at_live M c : live M c -> exists x, connection_at M c = Ok x /\ connections_pool M !! c = Some x.
Proof.
  intros [N [x E]]. exists x. unfold connection_at. rewrite (proj2 (Z.eqb_neq c 0)) by done. by rewrite E.
Qed.

Lemma put_grown M c x : live M c -> grown M (put_connection c x M).
Proof.
  intros [N _]. split_and!; try done. intros c' [N' E]. split; [done |]. cbn [put_connection with_connections_pool connections_pool].
  destruct (decide (c = c')) as [-> |]; [by rewrite lookup_insert_eq | by rewrite lookup_insert_ne].
Qed.

(** the operations on one connection *)
Ltac on_connection :=
  match goal with L : live ?M ?c |- safe _ _ _ =>
    destruct (connection_at_live M c L) as (?x & Hx & _); rewrite Hx; cbn [mbind result_bind safe]; by apply put_grown
  end.

Lemma SetLocalNode_safe ok c node M : live M c -> safe ok (grown M) (SetLocalNode c node M).
Proof. intros L. unfold SetLocalNode. on_connection. Qed.
Lemma SetRemoteNode_safe ok c node M : live M c -> safe ok (grown M) (SetRemoteNode c node M).
Proof. intros L. unfold SetRemoteNode. on_connection. Qed.
Lemma SetLocalNodeAddress_safe ok c a M : live M c -> safe ok (grown M) (SetLocalNodeAddress c a M).
Proof. intros L. unfold SetLocalNodeAddress. on_connection. Qed.
Lemma SetRemoteNodeAddress_safe ok c a M : live M c -> safe ok (grown M) (SetRemoteNodeAddress c a M).
Proof. intros L. unfold SetRemoteNodeAddress. on_connection. Qed.
Lemma set_process_id_safe ok c pid M : live M c -> safe ok (grown M) (set_process_id c pid M).
Proof. intros L. unfold set_process_id. on_connection. Qed.

Lemma GetLocalAddress_safe ok o c M : live M c -> safe ok (grown M) (GetLocalAddress o c M).
Proof.
  intros L. unfold GetLocalAddress. destruct (connection_at_live M c L) as (x & -> & _). cbn [mbind result_bind].
  destruct (local_answer o); [by apply SetLocalNodeAddress_safe | apply grown_refl].
Qed.

(** ** Events *)

(** an item that the network monitor can read *)
Definition readable_item (i : Z * bytes) : Prop :=
  ((i.1 = 0 \/ i.1 = 3) -> (4 <= length i.2)%nat) /\ ((i.1 = 1 \/ i.1 = 2) -> 0 ∈ i.2).

(** the list is a queue of events with at most four readable items *)
Definition events_inv (used : gset Z) (l : KernelEventList) : Prop :=
  exists q, queue_inv used l q /\ Forall (fun its => (length its <= 4)%nat /\ Forall readable_item its) q.

Definition space (o : answers) : list Z := omap (reserved o) [0; 1; 2; 3; 4]%nat.

(** the space reserved is new *)
Definition fresh_space (used : gset Z) (o : answers) : Prop :=
  NoDup (space o) /\ forall x, x ∈ space o -> x <> 0 /\ x ∉ used.

Lemma queue_inv_mono used used' l q : used ⊆ used' -> queue_inv used l q -> queue_inv used' l q.
Proof.
  intros S (evs & qs & Hh & Ch & Q & N & U & T). exists evs, qs. split_and!; try done.
  - intros x Hx. destruct (U x Hx) as [Nx Ux]. split; [done | by apply S].
  - destruct (list.last evs); [done |]. destruct T as [|[T1 T2]]; [by left | right; split; [by apply S | done]].
Qed.

Definition opt_item (container : option Z) (k : Z) (data : bytes) : list item :=
  match container with Some c => [(c, (k, data))] | None => [] end.

Lemma add_data_items e container k data l : add_data (Some e) container k data l = add_items e (opt_item container k data) l.
Proof. destruct container; [| done]. cbn. by destruct (AddEventData e z k k data l). Qed.

Lemma add_items_app e a b l : add_items e (a ++ b) l = (l ← add_items e a l; add_items e b l).
Proof.
  revert l. induction a as [|[c [k d]] a IH]; intros l; [done |]. cbn [app add_items].
  destruct (AddEventData e c k k d l); [apply IH | done].
Qed.

(** the items of a state change, for the containers that were reserved *)
Definition change_items (o : answers) (s : Z) (local remote : bytes) (pid : Z) : list item :=
  opt_item (reserved o 1) 0 (le32 s) ++ opt_item (reserved o 2) 1 (local ++ [0]) ++
  opt_item (reserved o 3) 2 (remote ++ [0]) ++ opt_item (reserved o 4) 3 (le32 pid).

(** a connection's addresses as SetConnectionState prints them; the second
    buffer still holds the first address *)
Definition printed (x : Connection) : option (bytes * bytes) :=
  match local_node_address x, remote_node_address x with
  | Some a, Some b =>
    match AddressType a with
    | OtherAddress => None
    | TDI_ADDRESS_TYPE_IP =>
      Some (print_address a, match AddressType b with TDI_ADDRESS_TYPE_IP => print_address b | OtherAddress => print_address a end)
    end
  | _, _ => None
  end.

Lemma SetConnectionState_produces o c s M x e lr : c <> 0 -> connections_pool M !! c = Some x -> reserved o 0 = Some e ->
  printed x = Some lr ->
  SetConnectionState o c s M =
  (l ← produce e (change_items o s lr.1 lr.2 (conn_process_id x)) (event_list M);
   Ok (with_event_list l (put_connection c (mkConnection (local_node x) (remote_node x) (local_node_address x)
         (remote_node_address x) s (conn_process_id x)) M))).
Proof.
  intros Nc Ex Ee P. unfold SetConnectionState, connection_at. rewrite (proj2 (Z.eqb_neq c 0)) by done.
  rewrite Ex. cbn [mbind result_bind]. rewrite Ee. unfold printed in P.
  destruct (local_node_address x) as [a|]; [| done]. destruct (remote_node_address x) as [b|]; [| done].
  destruct (AddressType a) eqn:Ta; [| done]. injection P as <-. unfold produce, change_items. cbn [fst snd].
  rewrite !add_items_app. unfold AddressToString. rewrite Ta, !add_data_items. cbn [event_list put_connection with_connections_pool].
  destruct (add_items e (opt_item (reserved o 1) _ _) _) as [l1|]; [| done]. cbn [mbind result_bind with_nul].
  rewrite !add_items_app, add_data_items. destruct (add_items e (opt_item (reserved o 2) _ _) _) as [l2|]; [| done]. cbn [mbind result_bind].
  destruct (AddressType b); cbn [with_nul mbind result_bind]; rewrite add_items_app, add_data_items;
    (destruct (add_items e (opt_item (reserved o 3) _ _) _) as [l3|]; [| done]); cbn [mbind result_bind]; rewrite add_data_items;
    by destruct (add_items e (opt_item (reserved o 4) _ _) _).
Qed.

Lemma change_items_offsets o s local remote pid e : reserved o 0 = Some e ->
  space o = e :: (change_items o s local remote pid).*1.
Proof.
  intros E. unfold space, change_items, opt_item. cbn. rewrite E.
  by destruct (reserved o 1), (reserved o 2), (reserved o 3), (reserved o 4).
Qed.

Lemma readable_word k x : k = 0 \/ k = 3 -> readable_item (k, le32 x).
Proof. intros K. split; cbn; [lia |]. intros [|]; lia. Qed.

Lemma readable_text k (b : bytes) : k = 1 \/ k = 2 -> readable_item (k, b ++ [0]).
Proof. intros K. split; cbn; [intros [|]; lia |]. intros _. apply elem_of_app. right. apply list_elem_of_here. Qed.

Lemma change_items_readable o s local remote pid :
  (length (change_items o s local remote pid).*2 <= 4)%nat /\ Forall readable_item (change_items o s local remote pid).*2.
Proof.
  unfold change_items, opt_item. destruct (reserved o 1), (reserved o 2), (reserved o 3), (reserved o 4);
    cbn [app fmap list_fmap snd length]; (split; [lia |]);
    repeat (apply list.Forall_cons; split; [first [apply readable_word; lia | apply readable_text; lia] |]); by constructor.
Qed.

(** ** The invariant of the driver *)

Definition driver_inv (n : nat) (used : gset Z) (M : ConnectionManager) : Prop :=
  (exists kvs, nodes_inv M kvs) /\ events_inv used (event_list M) /\ handlers_inv n (event_handler_manager M).

Lemma grown_inv n used M M' : driver_inv n used M -> grown M M' -> driver_inv n used M'.
Proof.
  intros ([kvs I] & E & H) G. pose proof G as (_ & _ & _ & Ee & Eh & _). split_and!.
  - exists kvs. by apply (grown_nodes M).
  - by rewrite Ee.
  - by rewrite Eh.
Qed.

Lemma events_inv_mono used used' l : used ⊆ used' -> events_inv used l -> events_inv used' l.
Proof. intros S (q & Q & F). exists q. split; [by apply (queue_inv_mono used) | done]. Qed.

Lemma handlers_inv_mono r r' em : (r <= r')%nat -> handlers_inv r em -> handlers_inv r' em.
Proof.
  intros Le (B & kvs & R & V & N). exists B, kvs. split_and!; [done | done |]. intros a x E.
  destruct (N a x E) as [L (j & Hj & Ej)]. split; [done |]. exists j. split; [lia | done].
Qed.

Lemma driver_inv_mono n n' used used' M : (n <= n')%nat -> used ⊆ used' -> driver_inv n used M -> driver_inv n' used' M.
Proof.
  intros Le S (I & E & H). split_and!; [done | by apply (events_inv_mono used) | by apply (handlers_inv_mono n)].
Qed.

(** the faults a request may end in: running out of memory, an address the
    transport has not filled in, a debug message that leaves its table *)
Definition overruns (r : irp) : Prop :=
  match r with
  | IrpDisconnect _ flags | DisconnectIndicated _ flags => (disconnect_flag_names <= flags)%nat
  | IrpSetEvent _ e _ => (event_handler_names <= EventType e)%nat
  | _ => False
  end.

Section Safe.
Context `{Pool} `{Lookaside}.

Definition out_of_memory (o : answers) : Prop := (exists used, lookaside (seed o) used = None) \/ reserved o 0 = None.

Definition permitted (o : answers) (r : irp) (f : fault) : Prop :=
  match f with
  | NullDeref => out_of_memory o
  | UninitRead => True
  | OutOfBoundsRead => overruns r
  | _ => False
  end.

Lemma add_items_ok e items l : NoDup (e :: items.*1) -> Forall (fun x => x <> 0) items.*1 ->
  exists l', add_items e items (CreateEvent e l) = Ok l'.
Proof.
  intros N Z. destruct (add_items_spec e items (CreateEvent e l) [] []) as (l' & E & _); [| done | done | by exists l'].
  split; [done |]. eexists. cbn [CreateEvent cells]. by rewrite lookup_insert_eq.
Qed.

Lemma prefix_ok e a b l : NoDup (e :: (a ++ b).*1) -> Forall (fun x => x <> 0) (a ++ b).*1 ->
  exists l', add_items e a (CreateEvent e l) = Ok l'.
Proof.
  intros N Z. destruct (add_items_ok e (a ++ b) l N Z) as [l' E]. rewrite add_items_app in E.
  destruct (add_items e a (CreateEvent e l)); [by eexists | done].
Qed.

Lemma change_fresh used o s local remote pid e : fresh_space used o -> reserved o 0 = Some e ->
  NoDup (e :: (change_items o s local remote pid).*1) /\ Forall (fun x => x <> 0) (change_items o s local remote pid).*1.
Proof.
  intros [N F] E. rewrite (change_items_offsets o s local remote pid e E) in N, F. split; [done |].
  apply list.Forall_forall. intros x Hx. apply F. by apply list_elem_of_further.
Qed.

(** without printable addresses the request reads memory that was not written *)
Lemma SetConnectionState_unprinted ok used o c s M x e : c <> 0 -> connections_pool M !! c = Some x -> reserved o 0 = Some e ->
  fresh_space used o -> printed x = None -> ok UninitRead -> safe ok (fun _ : ConnectionManager => False) (SetConnectionState o c s M).
Proof.
  intros Nc Ex Ee F P Ok1. unfold SetConnectionState, connection_at. rewrite (proj2 (Z.eqb_neq c 0)) by done.
  rewrite Ex. cbn [mbind result_bind]. rewrite Ee, !add_data_items. cbn [event_list put_connection with_connections_pool]. unfold printed in P.
  set (loc := match local_node_address x with Some a => print_address a | None => [] end).
  destruct (change_fresh used o s loc [] 0 e F Ee) as [N Z]. unfold change_items in N, Z.
  destruct (prefix_ok e _ _ (event_list M) N Z) as [l1 E1]. rewrite E1. cbn [mbind result_bind].
  destruct (local_node_address x) as [a|]; [| done]. unfold AddressToString.
  destruct (AddressType a); [| exact Ok1]. cbn [mbind result_bind with_nul]. rewrite add_data_items.
  destruct (remote_node_address x) as [b|]; [done |].
  rewrite app_assoc in N, Z. destruct (prefix_ok e _ _ (event_list M) N Z) as [l2 E2]. rewrite add_items_app, E1 in E2.
  cbn [mbind result_bind] in E2. unfold loc in E2. rewrite E2. cbn [mbind result_bind]. done.
Qed.

Lemma no_event_faults ok o c s M x : c <> 0 -> connections_pool M !! c = Some x -> reserved o 0 = None -> ok UninitRead -> ok NullDeref ->
  safe ok (fun _ : ConnectionManager => False) (SetConnectionState o c s M).
Proof.
  intros Nc Ex Ee Ok1 Ok2. unfold SetConnectionState, connection_at. rewrite (proj2 (Z.eqb_neq c 0)) by done.
  rewrite Ex. cbn [mbind result_bind]. rewrite Ee. unfold add_data, AddressToString, with_nul.
  repeat (case_match; cbn [mbind result_bind safe] in *; simplify_eq; try done).
Qed.

Lemma SetConnectionState_safe ok n used o c s M : driver_inv n used M -> live M c -> fresh_space used o ->
  ok UninitRead -> (reserved o 0 = None -> ok NullDeref) ->
  safe ok (driver_inv n (used ∪ list_to_set (space o))) (SetConnectionState o c s M).
Proof.
  intros ([kvs I] & (q & Q & Fq) & Hh) L F Ok1 Ok2. pose proof L as [Nc [x Ex]]. destruct (reserved o 0) as [e|] eqn:Ee.
  2:{ eapply safe_mono; [by apply (no_event_faults ok o c s M x), Ok2 | done]. }
  destruct (printed x) as [lr|] eqn:P; [| eapply safe_mono; [by eapply SetConnectionState_unprinted | done]].
  rewrite (SetConnectionState_produces o c s M x e lr) by done.
  pose proof (change_items_offsets o s lr.1 lr.2 (conn_process_id x) e Ee) as S. destruct F as [N Z]. rewrite S in N, Z |- *.
  destruct (produce_spec used (event_list M) q e _ Q N Z) as (l' & -> & Q'). cbn [mbind result_bind safe].
  set (M1 := put_connection _ _ M). assert (G : grown M M1) by by apply put_grown.
  destruct (grown_nodes M M1 kvs I G) as [I1 I2 I3 I4 I5 I6]. split_and!; [by exists kvs | | done].
  exists (q ++ [(change_items o s lr.1 lr.2 (conn_process_id x)).*2]). split; [done |].
  apply list.Forall_app. split; [done |]. apply list.Forall_singleton, change_items_readable.
Qed.

(** ** Nodes *)

Lemma find_node M kvs node : nodes_inv M kvs ->
  exists v, FindHashMapValue node (connections M) = Ok v /\
    if v =? 0 then lookup_first node kvs = None
    else lookup_first node kvs = Some v /\ is_Some (connection_nodes_pool M !! v).
Proof.
  intros I. destruct (inv_map _ _ I) as [B R]. rewrite (FindHashMapValue_spec _ B kvs) by done. eexists. split; [reflexivity |].
  destruct (lookup_first node kvs) as [v|] eqn:E; [| done]. cbn [from_option id].
  destruct (inv_node _ _ I node v (lookup_first_in _ _ _ E)) as [Nv Hv]. by rewrite (proj2 (Z.eqb_neq v 0)).
Qed.

(** [c] belongs to no node *)
Definition unowned (M : ConnectionManager) (c : Z) : Prop :=
  forall n x, connection_nodes_pool M !! n = Some x -> node_connection x <> c.

Lemma GetConnection_spec M kvs node : nodes_inv M kvs ->
  exists c, GetConnection node M = Ok c /\
    (c = 0 \/ live M c /\ exists v x, lookup_first node kvs = Some v /\ v <> 0 /\ connection_nodes_pool M !! v = Some x /\ node_connection x = c).
Proof.
  intros I. destruct (find_node M kvs node I) as (v & E & V). unfold GetConnection. rewrite E. cbn [mbind result_bind].
  destruct (Z.eqb_spec v 0) as [-> | Nv]; [exists 0; split; [done | by left] |]. destruct V as [Lv [x Ex]].
  unfold node_at. rewrite Ex. cbn [mbind result_bind]. exists (node_connection x). split; [done |].
  destruct (inv_live _ _ I v x Ex) as [|L]; [by left | right]. split; [done |]. by exists v, x.
Qed.

Lemma CreateConnection_spec o M kvs c M' : nodes_inv M kvs -> CreateConnection o M = (c, M') ->
  grown M M' /\ if c =? 0 then out_of_memory o else live M' c /\ unowned M' c.
Proof.
  intros I E. unfold CreateConnection in E. destruct (lookaside (seed o) (dom (connections_pool M))) as [a|] eqn:A; simplify_eq.
  2:{ split; [apply grown_refl |]. left. by eexists. }
  pose proof (lookaside_fresh _ _ _ A) as [Na Fr]. rewrite not_elem_of_dom in Fr. split.
  - split_and!; try done. intros c' [N' L']. split; [done |]. cbn. rewrite lookup_insert_ne; [done |]. intros <-. rewrite Fr in L'. by destruct L'.
  - rewrite (proj2 (Z.eqb_neq c 0)) by done. split; [split; [done |]; cbn; by rewrite lookup_insert_eq |].
    intros n x Ex K. destruct (inv_live _ _ I n x Ex) as [Z0|[_ L']]; [congruence |]. rewrite K, Fr in L'. by destruct L'.
Qed.

Lemma set_node_connection_spec n c M kvs x : nodes_inv M kvs -> connection_nodes_pool M !! n = Some x ->
  c = 0 \/ live M c /\ unowned M c ->
  exists M', set_node_connection n c M = Ok M' /\ nodes_inv M' kvs /\
    connection_nodes_pool M' = <[n := mkConnectionNode (node_file x) c]> (connection_nodes_pool M) /\
    connections_pool M' = connections_pool M /\ event_list M' = event_list M /\
    event_handler_manager M' = event_handler_manager M /\ is_tcp M' = is_tcp M /\ connections M' = connections M.
Proof.
  intros I Ex C. unfold set_node_connection, node_at. rewrite Ex. cbn [mbind result_bind]. eexists. split; [reflexivity |].
  split_and!; try done. destruct I as [I1 I2 I3 I4 I5 I6]. split; try done.
  - intros k v Hv. destruct (I4 k v Hv) as [Nv Sv]. split; [done |]. cbn.
    destruct (decide (n = v)) as [-> |]; [by rewrite lookup_insert_eq | by rewrite lookup_insert_ne].
  - intros m y. cbn. destruct (decide (n = m)) as [-> |]; [rewrite lookup_insert_eq | rewrite lookup_insert_ne by done; apply I5].
    intros E. simplify_eq. cbn. destruct C as [|[L _]]; [by left | by right].
  - intros n1 x1 n2 x2. cbn.
    destruct (decide (n1 = n)) as [-> | N1], (decide (n2 = n)) as [-> | N2]; rewrite ?lookup_insert_eq, ?lookup_insert_ne by done;
      intros E1 E2 K Nk; simplify_eq; cbn in *; try done; try (by apply (I6 n1 x1 n2 x2)).
    + destruct C as [|[_ U]]; [done |]. by destruct (U n2 x2 E2).
    + destruct C as [|[_ U]]; [congruence |]. by destruct (U n1 x1 E1).
Qed.

Lemma remove_first_in k kvs kv : kv ∈ remove_first k kvs -> kv ∈ kvs.
Proof.
  induction kvs as [|y kvs IH]; [done |]. cbn. destruct (y.1 =? k); intros K.
  - by apply list_elem_of_further.
  - apply elem_of_cons in K as [-> | K]; [apply list_elem_of_here | by apply list_elem_of_further, IH].
Qed.

Lemma remove_first_value k kvs v w k' : NoDup kvs.*2 -> lookup_first k kvs = Some v -> (k', w) ∈ remove_first k kvs -> w <> v.
Proof.
  induction kvs as [|[k1 v1] kvs IH]; [done |]. cbn. intros N. apply list.NoDup_cons in N as [Nv N].
  destruct (k1 =? k); intros E K ->.
  - simplify_eq. apply Nv, list_elem_of_fmap. by exists (k', v).
  - apply elem_of_cons in K as [K | K]; [| by apply (IH N E K)]. simplify_eq. apply Nv, list_elem_of_fmap.
    exists (k, v1). split; [done | by apply lookup_first_in].
Qed.

Lemma remove_first_nodup {A} `{EqDecision A} (f : Z * Z -> A) k kvs : NoDup (f <$> kvs) -> NoDup (f <$> remove_first k kvs).
Proof.
  induction kvs as [|y kvs IH]; [done |]. cbn. intros N. apply list.NoDup_cons in N as [Ny N]. destruct (y.1 =? k); [done |].
  cbn. apply list.NoDup_cons. split; [| by apply IH]. intros K. apply Ny. apply list_elem_of_fmap in K as (z & -> & Hz).
  apply list_elem_of_fmap. exists z. split; [done | by apply (remove_first_in k)].
Qed.

Lemma lookup_first_none k kvs : lookup_first k kvs = None -> k ∉ kvs.*1.
Proof.
  induction kvs as [|y kvs IH]; intros E; [apply not_elem_of_nil |]. cbn in E |- *. destruct (Z.eqb_spec y.1 k); [done |].
  apply not_elem_of_cons. split; [congruence | by apply IH].
Qed.

(** closing a file object frees its node and its connection *)
Lemma RemoveConnectionNode_spec node M kvs : nodes_inv M kvs ->
  exists M' kvs', RemoveConnectionNode node M = Ok M' /\ nodes_inv M' kvs' /\ event_list M' = event_list M /\
    event_handler_manager M' = event_handler_manager M.
Proof.
  intros I. destruct (find_node M kvs node I) as (v & E & V). unfold RemoveConnectionNode. rewrite E. cbn [mbind result_bind].
  destruct (Z.eqb_spec v 0) as [-> | Nv]; [by exists M, kvs |]. destruct V as [Lv [x Ex]]. unfold node_at. rewrite Ex. cbn [mbind result_bind].
  destruct (inv_map _ _ I) as [B R]. destruct (RemoveHashMap_spec node (connections M) B kvs R) as (hm' & B' & Er & R').
  set (M1 := if node_connection x =? 0 then M else with_connections_pool (delete (node_connection x) (connections_pool M)) M).
  assert (E1 : (if negb (node_connection x =? 0) then RemoveConnection (node_connection x) M else Ok M) = Ok M1).
  { unfold M1. destruct (Z.eqb_spec (node_connection x) 0) as [|Nc]; [done |]. cbn [negb]. unfold RemoveConnection.
    rewrite (proj2 (Z.eqb_neq _ 0)) by done. destruct (inv_live _ _ I v x Ex) as [|L]; [done |].
    by destruct (connection_at_live M _ L) as (y & -> & _). }
  rewrite E1. cbn [mbind result_bind]. assert (C1 : connections M1 = connections M) by (unfold M1; by destruct (_ =? 0)).
  assert (P1 : connection_nodes_pool M1 = connection_nodes_pool M) by (unfold M1; by destruct (_ =? 0)).
  rewrite C1, Er. cbn [mbind result_bind]. rewrite P1, Ex. cbn [mbind result_bind snd].
  eexists _, (remove_first node kvs). split; [reflexivity |]. split; [| unfold M1; by destruct (_ =? 0)]. split.
  - by exists B'.
  - apply remove_first_nodup, I.
  - apply remove_first_nodup, I.
  - intros k w Hw. pose proof (remove_first_in _ _ _ Hw) as Hk. destruct (inv_node _ _ I k w Hk) as [Nw Sw]. split; [done |].
    cbn. rewrite lookup_delete_ne; [done |]. intros K. by apply (remove_first_value node kvs v w k (inv_values _ _ I) Lv Hw).
  - intros m y. cbn. intros Ey. apply lookup_delete_Some in Ey as [Nm Ey]. destruct (inv_live _ _ I m y Ey) as [|[Ny Ly]]; [by left | right].
    split; [done |]. cbn. unfold M1. destruct (Z.eqb_spec (node_connection x) 0) as [|Nx]; [done |]. cbn. rewrite lookup_delete_ne; [done |].
    intros K. by apply Nm, (inv_owner _ _ I v x m y).
  - intros n1 x1 n2 x2. cbn. intros E1' E2. apply lookup_delete_Some in E1' as [_ E1']. apply lookup_delete_Some in E2 as [_ E2].
    by apply (inv_owner _ _ I).
Qed.


(** disassociating empties the node before its connection is freed *)
Lemma disassociate_spec node M kvs : nodes_inv M kvs -> node <> 0 ->
  exists M', TdiDisassociateAddressHandler node M = Ok M' /\ nodes_inv M' kvs /\ event_list M' = event_list M /\
    event_handler_manager M' = event_handler_manager M.
Proof.
  intros I Nn. unfold TdiDisassociateAddressHandler. destruct (GetConnection_spec M kvs node I) as (c & -> & C). cbn [mbind result_bind].
  destruct C as [-> | [L (v & x & Lv & Nv & Ex & Ec)]]; [by exists M |]. pose proof L as [Nc _]. rewrite (proj2 (Z.eqb_neq c 0)) by done.
  unfold ReleaseConnectionNode. rewrite (proj2 (Z.eqb_neq node 0)) by done. destruct (connection_at_live M c L) as (y & -> & _).
  cbn [mbind result_bind]. set (M1 := put_connection _ _ M). assert (G : grown M M1) by by apply put_grown.
  pose proof (grown_nodes M M1 kvs I G) as I1. destruct (find_node M1 kvs node I1) as (v' & E' & V'). rewrite E'. cbn [mbind result_bind].
  destruct (Z.eqb_spec v' 0) as [-> | Nv']; [congruence |]. destruct V' as [V' _]. rewrite Lv in V'. injection V' as <-.
  destruct (set_node_connection_spec v 0 M1 kvs x I1) as (M2 & -> & I2 & P2 & C2 & El & Eh & _ & Em); [done | by left |].
  cbn [mbind result_bind]. unfold RemoveConnection. rewrite (proj2 (Z.eqb_neq c 0)) by done.
  assert (L2 : live M2 c) by (destruct G as (_ & _ & G & _); destruct (G c L) as [N1 L1]; split; [done | by rewrite C2]).
  destruct (connection_at_live M2 c L2) as (z & -> & _). cbn [mbind result_bind]. eexists. split; [reflexivity |].
  destruct I2 as [J1 J2 J3 J4 J5 J6]. split_and!; [split; try done | exact El | exact Eh].
  intros m w Ew. cbn in Ew. destruct (J5 m w Ew) as [|[Nw Lw]]; [by left | right]. split; [done |]. cbn. rewrite lookup_delete_ne; [done |].
  intros K. rewrite P2 in Ew. destruct (decide (m = v)) as [-> | Nm].
  - rewrite lookup_insert_eq in Ew. simplify_eq.
  - rewrite lookup_insert_ne in Ew by done. apply Nm. symmetry. apply (inv_owner _ _ I v x m w); [done | done | congruence | by rewrite Ec].
Qed.

Lemma find_pair M kvs node : nodes_inv M kvs -> exists p, FindHashMap node (connections M) = Ok p /\
  if p =? 0 then lookup_first node kvs = None else is_Some (lookup_first node kvs).
Proof.
  intros I. destruct (find_node M kvs node I) as (v & E & V). unfold FindHashMapValue in E.
  destruct (FindHashMap node (connections M)) as [p|] eqn:Ep; [| done]. cbn [mbind result_bind] in E. exists p. split; [done |].
  destruct (Z.eqb_spec p 0) as [-> | Np]; [by injection E as <- |].
  destruct (inv_map _ _ I) as [B R]. destruct (FindHashMap_spec (connections M) B kvs node R) as (a & Ea & [[-> _] | (Na & l1 & w & l2 & El & A)]);
    rewrite Ep in Ea; simplify_eq. exists w. rewrite <- lookup_contents, <- (rep_contents _ _ _ R), El, fmap_app. apply lookup_middle. by apply keys_fmap.
Qed.

Lemma AddConnectionNode_found o c node M kvs v : nodes_inv M kvs -> lookup_first node kvs = Some v -> AddConnectionNode o c node M = Ok M.
Proof.
  intros I L. destruct (find_pair M kvs node I) as (p & E & P). unfold AddConnectionNode. rewrite E. cbn [mbind result_bind].
  destruct (p =? 0); [congruence | done].
Qed.

Lemma AddConnectionNode_spec o node M kvs : nodes_inv M kvs ->
  exists M' kvs', AddConnectionNode o 0 node M = Ok M' /\ nodes_inv M' kvs' /\ event_list M' = event_list M /\
    event_handler_manager M' = event_handler_manager M.
Proof.
  intros I. destruct (find_pair M kvs node I) as (p & E & P). unfold AddConnectionNode. rewrite E. cbn [mbind result_bind].
  destruct (p =? 0); [| by exists M, kvs]. cbn [negb].
  destruct (lookaside (seed o) (dom (connection_nodes_pool M))) as [n|] eqn:A; [| by exists M, kvs].
  apply lookaside_fresh in A as [Nn Fr]. rewrite not_elem_of_dom in Fr. destruct (inv_map _ _ I) as [B R].
  destruct (InsertHashMap_spec (seed o) node n (connections M) B kvs R) as (b & hm' & B' & Ei & R' & _). cbn [connections with_nodes_pool].
  rewrite Ei. cbn [mbind result_bind snd]. eexists _, (if b then kvs ++ [(node, n)] else kvs). split; [reflexivity |].
  assert (K : forall m y, connection_nodes_pool M !! m = Some y -> n <> m) by (intros m y Ey ->; congruence).
  assert (Kv : n ∉ kvs.*2).
  { intros Hn. apply list_elem_of_fmap in Hn as ([k w] & -> & Hw). destruct (inv_node _ _ I k w Hw) as [_ [y Ey]]. by apply (K w y Ey). }
  split_and!; try done. split.
  - by exists B'.
  - destruct b; [| apply I]. rewrite fmap_app. apply list.NoDup_app. split_and!; [apply I | | apply list.NoDup_singleton].
    intros k Hk K'. apply list_elem_of_singleton in K' as ->. by apply (lookup_first_none _ _ P).
  - destruct b; [| apply I]. rewrite fmap_app. apply list.NoDup_app. split_and!; [apply I | | apply list.NoDup_singleton].
    intros k Hk K'. by apply list_elem_of_singleton in K' as ->.
  - intros k w Hw. cbn. assert (C : (k, w) ∈ kvs \/ (k, w) = (node, n)).
    { destruct b; [| by left]. apply elem_of_app in Hw as [|Hw]; [by left | right]. by apply list_elem_of_singleton in Hw. }
    destruct C as [Hk | C]; [| simplify_eq; by rewrite lookup_insert_eq].
    destruct (inv_node _ _ I k w Hk) as [Nw [y Ey]]. split; [done |]. rewrite lookup_insert_ne by by apply (K w y). by rewrite Ey.
  - intros m y. cbn. destruct (decide (m = n)) as [-> |]; [rewrite lookup_insert_eq | rewrite lookup_insert_ne by done; apply (inv_live _ _ I)].
    intros Ey. simplify_eq. by left.
  - intros n1 x1 n2 x2. cbn. destruct (decide (n1 = n)) as [-> | N1], (decide (n2 = n)) as [-> | N2];
      rewrite ?lookup_insert_eq, ?lookup_insert_ne by done; intros E1 E2 Ke Nk; simplify_eq; cbn in *; try done; try congruence.
    by apply (inv_owner _ _ I n1 x1 n2 x2).
Qed.

(** ** Requests *)

(** the invariant and a connection that is allocated *)
Definition working (n : nat) (used : gset Z) (c : Z) (M : ConnectionManager) : Prop := driver_inv n used M /\ live M c.

Lemma working_step ok n used c M r : working n used c M -> safe ok (grown M) r -> safe ok (working n used c) r.
Proof.
  intros [I L] S. eapply safe_mono; [exact S |]. intros M' G. split; [by apply (grown_inv n used M) | by apply G].
Qed.

(** the invariant after a request *)
Definition after_request (n : nat) (used : gset Z) (o : answers) (M : ConnectionManager) : Prop :=
  driver_inv (S n) (used ∪ list_to_set (space o)) M.

Lemma after_unchanged n used o M : driver_inv n used M -> after_request n used o M.
Proof. apply driver_inv_mono; [lia | apply union_subseteq_l]. Qed.

Lemma state_change_safe n used o r c s M : working n used c M -> fresh_space used o ->
  safe (permitted o r) (after_request n used o) (SetConnectionState o c s M).
Proof.
  intros [I L] F. eapply safe_mono; [apply (SetConnectionState_safe _ n used); try done; intros K; by right |].
  intros M' I'. eapply driver_inv_mono; [| | exact I']; [lia | done].
Qed.

Lemma nodes_changed n used M M' kvs : driver_inv n used M -> nodes_inv M' kvs -> event_list M' = event_list M ->
  event_handler_manager M' = event_handler_manager M -> driver_inv n used M'.
Proof. intros (_ & E & Hh) I El Eh. split_and!; [by exists kvs | by rewrite El | by rewrite Eh]. Qed.

(** a new connection, or a null pointer for lack of memory *)
Lemma create_safe n used o M c M' : driver_inv n used M -> CreateConnection o M = (c, M') ->
  driver_inv n used M' /\ connections M' = connections M /\ connection_nodes_pool M' = connection_nodes_pool M /\
  if c =? 0 then out_of_memory o else live M' c /\ unowned M' c.
Proof.
  intros I E. pose proof I as ([kvs J] & _). destruct (CreateConnection_spec o M kvs c M' J E) as [G C].
  split_and!; [by apply (grown_inv n used M) | apply G | apply G | done].
Qed.

Lemma null_safe {A} o r (P : A -> Prop) (k : Connection -> result A) M : out_of_memory o ->
  safe (permitted o r) P (x ← connection_at M 0; k x).
Proof. done. Qed.

(** attaching a new connection to a node *)
Lemma attach_safe ok n used v c M x : driver_inv n used M -> connection_nodes_pool M !! v = Some x -> live M c -> unowned M c ->
  safe ok (fun M' => working n used c M' /\ exists y, connection_nodes_pool M' !! v = Some y /\ node_connection y = c)
    (set_node_connection v c M).
Proof.
  intros I Ex L U. pose proof I as ([kvs J] & _).
  destruct (set_node_connection_spec v c M kvs x J Ex) as (M' & -> & J' & P' & C' & El & Eh & _); [by right |]. cbn [safe]. split.
  - split; [by apply (nodes_changed n used M M' kvs) |]. destruct L as [N L]. split; [done | by rewrite C'].
  - rewrite P', lookup_insert_eq. by eexists.
Qed.

Lemma unowned_grown M M' c : unowned M c -> grown M M' -> unowned M' c.
Proof. intros U (_ & E & _) n x. rewrite E. apply U. Qed.

(** a connection that was just created: nobody else refers to it *)
Definition fresh_connection (n : nat) (used : gset Z) (c : Z) (pool : gmap Z ConnectionNode) (M : ConnectionManager) : Prop :=
  working n used c M /\ unowned M c /\ connection_nodes_pool M = pool.

Lemma fresh_step ok n used c pool M r : fresh_connection n used c pool M -> safe ok (grown M) r ->
  safe ok (fresh_connection n used c pool) r.
Proof.
  intros ([I L] & U & E) S. eapply safe_mono; [exact S |]. intros M' G.
  split_and!; [split; [by apply (grown_inv n used M) | by apply G] | by apply (unowned_grown M) |].
  destruct G as (_ & -> & _). done.
Qed.

(** what requests are possible: a file object is not NULL, and a completion
    routine is given a connection that still exists *)
Definition admissible (M : ConnectionManager) (r : irp) : Prop :=
  match r with
  | IrpDisassociate node => node <> 0
  | ConnectCompleted c _ | AcceptCompleted c _ => c = 0 \/ live M c
  | _ => True
  end.

Lemma associate_safe n used o r local node pid M : driver_inv n used M ->
  safe (permitted o r) (after_request n used o) (TdiAssociateAddressHandler o local node pid M).
Proof.
  intros I. unfold TdiAssociateAddressHandler. destruct local as [local|]; [| by apply after_unchanged].
  pose proof I as ([kvs J] & _). destruct (find_node M kvs node J) as (v & -> & V). destruct (find_node M kvs local J) as (w & -> & _).
  cbn [mbind result_bind]. destruct (CreateConnection o M) as [c M1] eqn:Ec. destruct (create_safe n used o M c M1 I Ec) as (I1 & _ & P1 & C).
  destruct (Z.eqb_spec c 0) as [-> | Nc]; [by apply after_unchanged |]. destruct C as [L U].
  destruct (Z.eqb_spec v 0) as [Zv | Nv]; [by apply after_unchanged |]. destruct V as [_ [x Ex]].
  destruct (w =? 0); [by apply after_unchanged |]. cbn [negb andb].
  assert (F : fresh_connection n used c (connection_nodes_pool M) M1) by done.
  eapply safe_bind; [eapply fresh_step; [exact F |]; by apply SetLocalNode_safe |]. intros M2 F2.
  eapply safe_bind; [eapply fresh_step; [exact F2 |]; apply SetRemoteNode_safe, F2 |]. intros M3 ([I3 L3] & U3 & P3).
  eapply safe_bind; [apply (attach_safe _ n used v c M3 x); [done | by rewrite P3 | done | done] |]. intros M4 [W4 _].
  eapply safe_mono; [eapply working_step; [exact W4 |]; apply set_process_id_safe, W4 |]. intros M5 [I5 _]. by apply after_unchanged.
Qed.

Lemma live_node n used M v x : driver_inv n used M -> connection_nodes_pool M !! v = Some x -> node_connection x <> 0 ->
  working n used (node_connection x) M.
Proof. intros I Ex N. split; [done |]. destruct I as ([kvs J] & _). by destruct (inv_live _ _ J v x Ex). Qed.

Lemma get_safe n used node M : driver_inv n used M -> exists c, GetConnection node M = Ok c /\ (c = 0 \/ working n used c M).
Proof.
  intros I. pose proof I as ([kvs J] & _). destruct (GetConnection_spec M kvs node J) as (c & E & C). exists c. split; [done |].
  destruct C as [|[L _]]; [by left | right; by split].
Qed.

Lemma node_safe n used node M : driver_inv n used M -> exists v, FindHashMapValue node (connections M) = Ok v /\
  (v = 0 \/ v <> 0 /\ exists x, connection_nodes_pool M !! v = Some x).
Proof.
  intros I. pose proof I as ([kvs J] & _). destruct (find_node M kvs node J) as (v & E & V). exists v. split; [done |].
  destruct (Z.eqb_spec v 0) as [|N]; [by left | right]. destruct V as [_ V]. split; [done |]. by destruct V as [x Ex]; exists x.
Qed.

(** the local and the remote address are filled in and the change is queued *)
Lemma change_safe n used o r c remote s M : working n used c M -> fresh_space used o ->
  safe (permitted o r) (after_request n used o)
    (M ← GetLocalAddress o c M; M ← SetRemoteNodeAddress c remote M; SetConnectionState o c s M).
Proof.
  intros W F. eapply safe_bind; [eapply working_step; [exact W |]; apply GetLocalAddress_safe, W |]. intros M1 W1.
  eapply safe_bind; [eapply working_step; [exact W1 |]; apply SetRemoteNodeAddress_safe, W1 |]. intros M2 W2.
  by apply state_change_safe.
Qed.

(** a new connection for a node, as a UDP request makes it *)
Lemma udp_connection_safe n used o r v x pid M c M1 : driver_inv n used M -> connection_nodes_pool M !! v = Some x ->
  CreateConnection o M = (c, M1) ->
  safe (permitted o r) (fun M' => driver_inv n used M' /\ exists y, connection_nodes_pool M' !! v = Some y)
    (x ← node_at M1 v; M ← SetLocalNode c (node_file x) M1; M ← SetRemoteNode c (node_file x) M; M ← set_process_id c pid M;
     set_node_connection v c M).
Proof.
  intros I Ex Ec. destruct (create_safe n used o M c M1 I Ec) as (I1 & _ & P1 & C). unfold node_at. rewrite P1, Ex. cbn [mbind result_bind].
  destruct (Z.eqb_spec c 0) as [-> | Nc]; [done |]. destruct C as [L U].
  assert (F : fresh_connection n used c (connection_nodes_pool M) M1) by done.
  eapply safe_bind; [eapply fresh_step; [exact F |]; by apply SetLocalNode_safe |]. intros M2 F2.
  eapply safe_bind; [eapply fresh_step; [exact F2 |]; apply SetRemoteNode_safe, F2 |]. intros M3 F3.
  eapply safe_bind; [eapply fresh_step; [exact F3 |]; apply set_process_id_safe, F3 |]. intros M4 ([I4 L4] & U4 & P4).
  eapply safe_mono; [apply (attach_safe _ n used v c M4 x); [done | by rewrite P4 | done | done] |].
  intros M5 [[I5 _] (y & Ey & _)]. split; [done | by exists y].
Qed.

Lemma connect_safe n used o r node pid remote M : driver_inv n used M -> fresh_space used o ->
  safe (permitted o r) (fun p => after_request n used o p.1) (TdiConnectHandler o node pid remote M).
Proof.
  intros I F. unfold TdiConnectHandler. destruct (node_safe n used node M I) as (v & -> & V). cbn [mbind result_bind].
  destruct V as [-> | [Nv [x Ex]]]; [by apply after_unchanged |]. rewrite (proj2 (Z.eqb_neq v 0)) by done.
  eapply (safe_bind _ (fun M' => driver_inv n used M' /\ exists y, connection_nodes_pool M' !! v = Some y)).
  { destruct (is_tcp M); [split; [done | by exists x] |]. destruct (CreateConnection o M) as [c M1] eqn:Ec. by apply (udp_connection_safe n used o r v x pid M). }
  intros M1 [I1 [y Ey]]. unfold node_at. rewrite Ey. cbn [mbind result_bind].
  destruct (Z.eqb_spec (node_connection y) 0) as [|Nc]; [by apply after_unchanged |].
  pose proof (live_node n used M1 v y I1 Ey Nc) as W.
  eapply (safe_bind _ (working n used (node_connection y))).
  { destruct (AddressType remote); [| exact W]. eapply working_step; [exact W |]. apply SetRemoteNodeAddress_safe, W. }
  intros M2 W2. eapply safe_bind; [eapply working_step; [exact W2 |]; apply GetLocalAddress_safe, W2 |]. intros M3 W3.
  eapply safe_bind; [by apply (state_change_safe n used o r) |]. intros M4 I4. exact I4.
Qed.

Lemma send_datagram_safe n used o r node pid remote M : driver_inv n used M -> fresh_space used o ->
  safe (permitted o r) (after_request n used o) (TdiSendDatagramHandler o node pid remote M).
Proof.
  intros I F. unfold TdiSendDatagramHandler. destruct (node_safe n used node M I) as (v & -> & V). cbn [mbind result_bind].
  destruct V as [-> | [Nv [x Ex]]]; [by apply after_unchanged |]. rewrite (proj2 (Z.eqb_neq v 0)) by done.
  unfold node_at. rewrite Ex. cbn [mbind result_bind].
  eapply (safe_bind _ (fun M' => driver_inv n used M' /\ exists y, connection_nodes_pool M' !! v = Some y /\ node_connection y <> 0)).
  { destruct (Z.eqb_spec (node_connection x) 0) as [|Nc]; [| split; [done | by exists x]].
    destruct (CreateConnection o M) as [c M1] eqn:Ec. destruct (create_safe n used o M c M1 I Ec) as (I1 & _ & P1 & C).
    destruct (Z.eqb_spec c 0) as [-> | Nc].
    { pose proof I1 as ([kvs J1] & _). destruct (set_node_connection_spec v 0 M1 kvs x J1) as (M2 & -> & _); [by rewrite P1 | by left |]. done. }
    destruct C as [L U]. eapply safe_bind; [apply (attach_safe _ n used v c M1 x); [done | by rewrite P1 | done | done] |].
    intros M2 [W2 (y & Ey & Hy)]. set (Q := fun M' => working n used c M' /\ exists y, connection_nodes_pool M' !! v = Some y /\ node_connection y = c).
    assert (St : forall M' r', Q M' -> safe (permitted o r) (grown M') r' -> safe (permitted o r) Q r').
    { intros M' r' [W' HW'] S. eapply safe_mono; [exact S |]. intros M'' G. split.
      - split; [apply (grown_inv n used M'); [apply W' | done] | apply G, W'].
      - destruct G as (_ & -> & _). done. }
    assert (Q2 : Q M2) by (split; [done | by exists y]).
    eapply safe_bind; [eapply St; [exact Q2 |]; apply SetLocalNode_safe, W2 |]. intros M3 Q3.
    eapply safe_bind; [eapply St; [exact Q3 |]; apply SetRemoteNode_safe, Q3 |]. intros M4 Q4.
    eapply safe_mono; [eapply St; [exact Q4 |]; apply set_process_id_safe, Q4 |]. intros M5 [[I5 _] (z & Ez & <-)]. split; [done |]. by exists z. }
  intros M1 [I1 (y & Ey & Nc)]. rewrite Ey. cbn [mbind result_bind]. apply change_safe; [by apply (live_node n used M1 v y) | done].
Qed.

Lemma listen_safe n used o r node pid M : driver_inv n used M -> fresh_space used o ->
  safe (permitted o r) (after_request n used o)
    (n ← FindHashMapValue node (connections M);
     if n =? 0 then Ok M
     else
       let '(c, M) := CreateConnection o M in
       M ← (if negb (c =? 0) then set_process_id c pid M else Ok M);
       M ← SetLocalConnectionNode o c node M;
       M ← SetRemoteConnectionNode o c node M;
       M ← set_node_connection n c M;
       M ← GetLocalAddress o c M;
       x ← connection_at M c;
       M ← match local_node_address x with None => Fault UninitRead | Some a => SetRemoteNodeAddress c (Some a) M end;
       SetConnectionState o c TCP_STATE_LISTEN M).
Proof.
  intros I F. pose proof I as ([kvs J] & _). destruct (find_node M kvs node J) as (v & -> & V). cbn [mbind result_bind].
  destruct (Z.eqb_spec v 0) as [Zv | Nv]; [by apply after_unchanged |]. destruct V as [Lv [x Ex]].
  destruct (CreateConnection o M) as [c M1] eqn:Ec. destruct (CreateConnection_spec o M kvs c M1 J Ec) as [G1 C].
  destruct (Z.eqb_spec c 0) as [-> | Nc]; [done |]. destruct C as [L1 U1]. cbn [negb].
  assert (Step : forall M' r', grown M M' /\ live M' c /\ unowned M' c -> safe (permitted o r) (grown M') r' ->
    safe (permitted o r) (fun M'' => grown M M'' /\ live M'' c /\ unowned M'' c) r').
  { intros M' r' (G' & L' & U') S. eapply safe_mono; [exact S |]. intros M'' G.
    split_and!; [by apply (grown_trans M M') | by apply G | by apply (unowned_grown M')]. }
  assert (Add : forall M', grown M M' -> AddConnectionNode o c node M' = Ok M').
  { intros M' G. apply (AddConnectionNode_found o c node M' kvs v); [by apply (grown_nodes M) | done]. }
  eapply safe_bind; [eapply Step; [done |]; by apply set_process_id_safe |]. intros M2 S2.
  eapply safe_bind; [eapply safe_bind; [eapply Step; [exact S2 |]; apply SetLocalNode_safe, S2 |];
    intros M' S'; rewrite Add by apply S'; exact S' |]. intros M3 S3.
  eapply safe_bind; [eapply safe_bind; [eapply Step; [exact S3 |]; apply SetRemoteNode_safe, S3 |];
    intros M' S'; rewrite Add by apply S'; exact S' |]. intros M4 (G4 & L4 & U4).
  eapply safe_bind; [apply (attach_safe _ n used v c M4 x); [by apply (grown_inv n used M) | | done | done] |].
  { destruct G4 as (_ & -> & _). done. }
  intros M5 [W5 _]. eapply safe_bind; [eapply working_step; [exact W5 |]; apply GetLocalAddress_safe, W5 |]. intros M6 W6.
  destruct (connection_at_live M6 c (proj2 W6)) as (y & -> & _). cbn [mbind result_bind].
  eapply (safe_bind _ (working n used c)); [| intros M7 W7; by apply state_change_safe].
  destruct (local_node_address y); [| done]. eapply working_step; [exact W6 |]. apply SetRemoteNodeAddress_safe, W6.
Qed.

Lemma set_event_safe n used o node e pid M : driver_inv n used M -> Z.of_nat (S n) < 2 ^ 32 -> fresh_space used o ->
  safe (permitted o (IrpSetEvent node e pid)) (after_request n used o) (TdiSetEventHandler o node e pid M).
Proof.
  intros I Lt F. pose proof I as (IN & IE & IH). unfold TdiSetEventHandler.
  destruct (Nat.leb_spec event_handler_names (EventType e)) as [|_]; [done |].
  destruct ((EventHandler e =? 0) && (EventContext e =? 0)).
  - destruct (RemoveEventHandler_spec n e node _ IH Lt) as (h & -> & Hh & _). cbn [mbind result_bind safe].
    split_and!; [| apply (events_inv_mono used); [apply union_subseteq_l | done] | done].
    destruct IN as [kvs [J1 J2 J3 J4 J5 J6]]. by exists kvs.
  - destruct (SetEventHandler_spec (seed o) e node _ n IH) as (w & h & -> & Hh & _). cbn [mbind result_bind snd].
    assert (I1 : driver_inv n used (with_handlers h M)).
    { split_and!; [| done | done]. destruct IN as [kvs [J1 J2 J3 J4 J5 J6]]. by exists kvs. }
    destruct (EventType e =? TDI_EVENT_CONNECT)%nat; [by apply listen_safe | by apply after_unchanged].
Qed.

Lemma no_routine_safe ok n used o r :
  safe ok (after_request n used o) r -> safe ok (fun p : ConnectionManager * Z => after_request n used o p.1) (M ← r; Ok (M, 0)).
Proof. intros S. eapply safe_bind; [exact S | done]. Qed.

Lemma handle_safe n used o r M : driver_inv n used M -> Z.of_nat (S n) < 2 ^ 32 -> fresh_space used o -> admissible M r ->
  safe (permitted o r) (fun p => after_request n used o p.1) (handle_irp o r M).
Proof.
  intros I Lt F A. pose proof I as ([kvs J] & _). destruct r; cbn [handle_irp admissible] in *; try apply no_routine_safe.
  - unfold TdiCreateHandler. destruct tracked; [| by apply after_unchanged].
    destruct (AddConnectionNode_spec o node M kvs J) as (M' & kvs' & -> & J' & El & Eh).
    by apply after_unchanged, (nodes_changed n used M M' kvs').
  - destruct (RemoveConnectionNode_spec node M kvs J) as (M' & kvs' & E & J' & El & Eh). unfold TdiCloseHandler. rewrite E.
    by apply after_unchanged, (nodes_changed n used M M' kvs').
  - by apply associate_safe.
  - destruct (disassociate_spec node M kvs J A) as (M' & -> & J' & El & Eh). by apply after_unchanged, (nodes_changed n used M M' kvs).
  - by apply connect_safe.
  - unfold TdiDisconnectHandler. destruct (get_safe n used node M I) as (c & -> & C). cbn [mbind result_bind].
    destruct C as [-> | W]; [by apply after_unchanged |]. destruct (c =? 0); [by apply after_unchanged |].
    destruct (Nat.leb_spec disconnect_flag_names flags); [done |]. destruct (flags =? _)%nat; [by apply state_change_safe |].
    destruct (flags =? _)%nat; [| by apply after_unchanged]. destruct (connection_at_live M c (proj2 W)) as (x & -> & _). cbn [mbind result_bind].
    destruct (state x =? _); [by apply state_change_safe | by apply after_unchanged].
  - unfold TdiSendHandler. destruct (node_safe n used node M I) as (v & -> & V). cbn [mbind result_bind].
    destruct V as [-> | [Nv [x Ex]]]; [by apply after_unchanged |]. destruct (v =? 0); [by apply after_unchanged |].
    unfold node_at. rewrite Ex. cbn [mbind result_bind]. destruct (Z.eqb_spec (node_connection x) 0) as [|Nc]; [by apply after_unchanged |].
    pose proof (live_node n used M v x I Ex Nc) as W. eapply safe_mono; [eapply working_step; [exact W |]; apply GetLocalAddress_safe, W |].
    intros M' [I' _]. by apply after_unchanged.
  - by apply send_datagram_safe.
  - by apply set_event_safe.
  - unfold TdiConnectHandlerComplete. destruct success; [| by apply after_unchanged]. destruct A as [-> | L]; [by apply after_unchanged |].
    by apply state_change_safe.
  - unfold TdiConnectEventHandler. destruct (get_safe n used node M I) as (c & -> & C). cbn [mbind result_bind].
    destruct C as [-> | W]; [by apply after_unchanged |]. destruct (c =? 0); [by apply after_unchanged |].
    pose proof (change_safe n used o (ConnectIndicated node remote) c (Some remote) TCP_STATE_SYN_RCVD M W F) as S.
    destruct (GetLocalAddress o c M) as [M1|]; [| done]. cbn [mbind result_bind] in S |- *.
    destruct (SetRemoteNodeAddress c (Some remote) M1) as [M2|]; [| done]. cbn [mbind result_bind] in S |- *.
    by destruct (SetConnectionState o c TCP_STATE_SYN_RCVD M2).
  - unfold TdiConnectEventHandlerComplete. destruct A as [-> | L]; [by apply after_unchanged |]. destruct (c =? 0); [by apply after_unchanged |].
    by apply state_change_safe.
  - unfold TdiDisconnectEventHandler. destruct (get_safe n used node M I) as (c & -> & C). cbn [mbind result_bind].
    destruct C as [-> | W]; [by apply after_unchanged |]. destruct (c =? 0); [by apply after_unchanged |].
    destruct (Nat.leb_spec disconnect_flag_names flags); [done |]. destruct (connection_at_live M c (proj2 W)) as (x & -> & _). cbn [mbind result_bind].
    repeat match goal with |- context [if ?b then _ else _] => destruct b end; first [by apply state_change_safe | by apply after_unchanged].
Qed.

(** ** Runs of the driver and the client *)

Inductive reachable (tcp : bool) : nat -> gset Z -> ConnectionManager -> Prop :=
  | reach_init : reachable tcp 0 ∅ (InitialiseConnectionManager tcp)
  | reach_request n used o r M M' c : reachable tcp n used M -> Z.of_nat (S n) < 2 ^ 32 -> fresh_space used o -> admissible M r ->
      handle_irp o r M = Ok (M', c) -> reachable tcp (S n) (used ∪ list_to_set (space o)) M'
  | reach_read n used M its l : reachable tcp n used M -> consume 4 (event_list M) = Ok (its, l) ->
      reachable tcp n used (with_event_list l M).

Lemma initial_inv tcp : driver_inv 0 ∅ (InitialiseConnectionManager tcp).
Proof.
  split_and!; [| | apply handlers_inv_empty].
  - exists []. split.
    + exists (fun _ => []). apply represents_empty.
    + constructor.
    + constructor.
    + intros k v Hv. by apply not_elem_of_nil in Hv.
    + intros n x E. cbn in E. by rewrite lookup_empty in E.
    + intros n1 x1 n2 x2 E. cbn in E. by rewrite lookup_empty in E.
  - exists []. split; [| constructor]. exists [], []. split_and!; try done; [constructor | | by left].
    intros x Hx. by apply not_elem_of_nil in Hx.
Qed.

Lemma events_consume used l : events_inv used l ->
  exists its l', consume 4 l = Ok (its, l') /\ events_inv used l' /\
    match its with Some x => Forall readable_item x | None => True end.
Proof.
  intros (q & Q & F). pose proof (consume_spec used l q 4 Q) as C.
  assert (Fl : Forall (fun x : list (Z * bytes) => (length x <= 4)%nat) q) by (eapply list.Forall_impl; [exact F |]; by intros x [? _]).
  specialize (C Fl). destruct q as [|x q].
  - exists None, l. split_and!; [done | by exists [] | done].
  - destruct C as (l' & E & Q'). apply list.Forall_cons in F as [[_ Fx] F]. exists (Some x), l'. split_and!; [done | by exists q | done].
Qed.

Lemma driver_reachable_inv tcp n used M : reachable tcp n used M -> driver_inv n used M.
Proof.
  induction 1 as [| n used o r M M' c _ I Lt F A E | n used M its l _ I E].
  - apply initial_inv.
  - pose proof (handle_safe n used o r M I Lt F A) as S. by rewrite E in S.
  - destruct I as (IN & IE & IH). destruct (events_consume used _ IE) as (its' & l' & E' & I' & _). rewrite E in E'. injection E' as <- <-.
    split_and!; [| done | done]. destruct IN as [kvs [J1 J2 J3 J4 J5 J6]]. by exists kvs.
Qed.

Lemma read_item_ok `{Processes} waited type_of i c pm : readable_item i -> (forall pid pm, is_ok (getProcessPath waited pid pm)) ->
  is_ok (read_item waited type_of i c pm).
Proof.
  destruct i as [k data]. intros [R1 R2] G. cbn [fst snd] in *.
  assert (W : (k = 0 \/ k = 3) -> exists x, read_le32 data 0 = Ok x).
  { intros K. specialize (R1 K). destruct data as [|a [|b [|d [|e rest]]]]; cbn in R1; try lia. by eexists. }
  assert (T : (k = 1 \/ k = 2) -> exists a, address_at data = Ok a).
  { intros K. unfold address_at. rewrite bool_decide_true by by apply R2. by eexists. }
  unfold read_item. destruct (Z.eqb_spec k 0) as [K|_]; [destruct W as [x ->]; [by left | done] |].
  destruct (Z.eqb_spec k 1) as [K|_]; [destruct T as [a ->]; [by left | done] |].
  destruct (Z.eqb_spec k 2) as [K|_]; [destruct T as [a ->]; [by right | done] |].
  destruct (Z.eqb_spec k 3) as [K|_]; [| done]. destruct W as [x ->]; [by right |]. cbn [mbind result_bind].
  specialize (G x pm). by destruct (getProcessPath waited x pm).
Qed.

Lemma read_info_ok `{Processes} waited type_of its : forall c pm, Forall readable_item its ->
  (forall pid pm, is_ok (getProcessPath waited pid pm)) -> is_ok (read_info waited type_of its c pm).
Proof.
  induction its as [|i its IH]; intros c pm F G; [done |]. apply list.Forall_cons in F as [Fi F]. cbn [read_info].
  pose proof (read_item_ok waited type_of i c pm Fi G) as O. destruct (read_item waited type_of i c pm); [| done]. by apply IH.
Qed.

(** C28: In every state the driver reaches by requests, with the client's
    readings in between, whatever memory it is given: every node that is not free refers to an
    allocated connection or to none, the next request faults only for lack of memory,
    for an address the transport did not fill in, or in a debug message, and
    the client can take the next event off the list and read all of it.
    Assumed of the requests ([admissible]): a completion routine gets a connection
    that still exists, a disassociation names a node; of the shared memory ([fresh_space]): no space is used
    twice; fewer than 2^32 requests; and a reading is not interrupted. *)
Theorem driver_safe tcp n used M : reachable tcp n used M -> Z.of_nat (S n) < 2 ^ 32 ->
  (forall v x, connection_nodes_pool M !! v = Some x -> node_connection x = 0 \/ live M (node_connection x)) /\
  (forall o r, fresh_space used o -> admissible M r -> safe (permitted o r) (fun _ => True) (handle_irp o r M)) /\
  exists its l, consume 4 (event_list M) = Ok (its, l) /\
    match its with
    | None => True
    | Some x => forall (P : Processes) waited type_of pm, (forall pid pm, is_ok (getProcessPath waited pid pm)) ->
        is_ok (read_info waited type_of x no_info pm)
    end.
Proof.
  intros R Lt. pose proof (driver_reachable_inv tcp n used M R) as I. split_and!.
  - destruct I as ([kvs J] & _). apply (inv_live _ _ J).
  - intros o r F A. eapply safe_mono; [by apply (handle_safe n used) | done].
  - destruct I as (_ & E & _). destruct (events_consume used _ E) as (its & l & C & _ & Rd). exists its, l. split; [done |].
    destruct its as [x|]; [| done]. intros P waited type_of pm G. by apply read_info_ok.
Qed.

(** ** What the network monitor reports *)

Definition address_ok (a : TA_ADDRESS) : Prop :=
  AddressType a = TDI_ADDRESS_TYPE_IP /\ 0 <= sin_port a < 65536 /\ Forall (fun b => 0 <= b < 256) (in_addr a).

Lemma addr_byte_ok b i : Forall (fun b => 0 <= b < 256) b -> 0 <= addr_byte b i < 256.
Proof.
  intros F. unfold addr_byte. destruct (b !! i) as [x|] eqn:E; [| cbn; lia]. cbn. by apply (list.Forall_lookup_1 _ _ _ _ F E).
Qed.

Lemma print_dec_clean n : 0 <= n -> Forall char_ok (print_dec n).
Proof. intros N. eapply list.Forall_impl; [by apply print_dec_digits |]. unfold digit_ok, char_ok. intros x Hx. lia. Qed.

Lemma ntohs_range x : 0 <= ntohs x < 65536.
Proof. apply u16_range. Qed.

Lemma print_address_clean a : address_ok a -> Forall char_ok (print_address a).
Proof.
  intros (_ & P & F). unfold print_address. pose proof (ntohs_range (sin_port a)).
  repeat (apply list.Forall_app; split); try (apply print_dec_clean; first [apply addr_byte_ok, F | lia]);
    (apply list.Forall_singleton; unfold char_ok; cbn; lia).
Qed.

Lemma address_at_text (s : bytes) : Forall char_ok s -> address_at (s ++ [0]) = Ok s.
Proof.
  intros F. unfold address_at. rewrite bool_decide_true.
  - unfold multiByteStringToWideString. by rewrite c_str_nul.
  - apply elem_of_app. right. apply list_elem_of_here.
Qed.

Lemma read_word x : u32_ok x -> read_le32 (le32 x) 0 = Ok x.
Proof. intros U. pose proof (field32 [] [] x [] U) as E. cbn [app length Nat.add] in E. by rewrite app_nil_r in E. Qed.

Lemma change_read `{Processes} o s a b pid waited type_of allowed now pm path pm' :
  (forall i, (i <= 4)%nat -> is_Some (reserved o i)) -> address_ok a -> address_ok b -> u32_ok s -> u32_ok pid -> type_of s [] <> [] ->
  getProcessPath waited pid pm = Ok (path, pm') -> allowed (type_of s []) path (print_address b) = Ok false ->
  processEvents waited type_of allowed now (change_items o s (print_address a) (print_address b) pid).*2 pm =
  Ok (pm', [ConnectionEvent (type_of s []) now pid path (print_address a) (print_address b)]).
Proof.
  intros Rs Ha Hb Us Up Nt G A. unfold change_items, opt_item.
  destruct (Rs 1%nat) as [x1 ->]; [lia |]. destruct (Rs 2%nat) as [x2 ->]; [lia |]. destruct (Rs 3%nat) as [x3 ->]; [lia |].
  destruct (Rs 4%nat) as [x4 ->]; [lia |]. cbn [app fmap list_fmap snd]. unfold processEvents.
  assert (I0 : forall c p, read_item waited type_of (0, le32 s) c p =
    Ok (mkInfo (process_id c) (process_path c) (type_of s (connection_type c)) (destination_address c) (source_address c), p)).
  { intros c p. unfold read_item. cbv iota beta. rewrite Z.eqb_refl, read_word by done. done. }
  assert (I1 : forall c p, read_item waited type_of (1, print_address a ++ [0]) c p =
    Ok (mkInfo (process_id c) (process_path c) (connection_type c) (destination_address c) (print_address a), p)).
  { intros c p. unfold read_item. change (1 =? 0) with false. change (1 =? 1) with true. cbv iota beta.
    by rewrite address_at_text by by apply print_address_clean. }
  assert (I2 : forall c p, read_item waited type_of (2, print_address b ++ [0]) c p =
    Ok (mkInfo (process_id c) (process_path c) (connection_type c) (print_address b) (source_address c), p)).
  { intros c p. unfold read_item. change (2 =? 0) with false. change (2 =? 1) with false. change (2 =? 2) with true. cbv iota beta.
    by rewrite address_at_text by by apply print_address_clean. }
  assert (I3 : forall c, read_item waited type_of (3, le32 pid) c pm =
    Ok (mkInfo pid path (connection_type c) (destination_address c) (source_address c), pm')).
  { intros c. unfold read_item. change (3 =? 0) with false. change (3 =? 1) with false. change (3 =? 2) with false.
    rewrite Z.eqb_refl. cbv iota beta. rewrite read_word by done. cbn [mbind result_bind]. by rewrite G. }
  cbn [read_info]. rewrite I0. cbn [mbind result_bind fst snd]. rewrite I1. cbn [mbind result_bind fst snd]. rewrite I2.
  cbn [mbind result_bind fst snd]. rewrite I3. cbn [mbind result_bind fst snd connection_type process_path destination_address source_address process_id no_info].
  destruct (Nat.ltb_spec 0 (length (type_of s []))) as [_|L]; [by rewrite A |]. destruct (type_of s []); [done | cbn in L; lia].
Qed.

(** the client, reading on, empties the list *)
Lemma drain_list used l q : queue_inv used l q -> Forall (fun x : list (Z * bytes) => (length x <= 4)%nat) q ->
  exists l', run_list 4 (replicate (length q) Consume) l = Ok (q, l') /\ consume 4 l' = Ok (None, l').
Proof.
  revert l. induction q as [|x q IH]; intros l Q F; cbn [length replicate run_list].
  - exists l. split; [done |]. exact (consume_spec used l [] 4 Q F).
  - destruct (consume_spec used l (x :: q) 4 Q F) as (l1 & -> & Q1). apply list.Forall_cons in F as [_ F].
    cbn [mbind result_bind fst snd]. destruct (IH l1 Q1 F) as (l' & -> & E). by exists l'.
Qed.

(** C30: A change of a connection's state to one the monitor knows is reported:
    if the client, reading on, would get the events [earlier] and then nothing,
    it gets after the change these events and then one more, from which it
    signals the type of the change, the process, and both addresses in
    dotted form. Assumed: the driver gets the space for the event and its four items,
    none of it used before in the run; both addresses of the connection are filled in
    and are IP addresses; the process can be looked up; the exclusion list does
    not allow the connection; and no insertion comes between the statements of
    a reading. *)
Theorem change_reported `{Processes} tcp n used M o c x a b s waited type_of allowed now pm path pm' :
  reachable tcp n used M -> fresh_space used o -> (forall i, (i <= 4)%nat -> is_Some (reserved o i)) ->
  live M c -> connections_pool M !! c = Some x -> local_node_address x = Some a -> remote_node_address x = Some b ->
  address_ok a -> address_ok b -> u32_ok s -> u32_ok (conn_process_id x) -> type_of s [] <> [] ->
  getProcessPath waited (conn_process_id x) pm = Ok (path, pm') -> allowed (type_of s []) path (print_address b) = Ok false ->
  exists M' earlier its l l', SetConnectionState o c s M = Ok M' /\
    run_list 4 (replicate (length earlier) Consume) (event_list M) = Ok (earlier, l) /\ consume 4 l = Ok (None, l) /\
    run_list 4 (replicate (S (length earlier)) Consume) (event_list M') = Ok (earlier ++ [its], l') /\ consume 4 l' = Ok (None, l') /\
    processEvents waited type_of allowed now its pm =
      Ok (pm', [ConnectionEvent (type_of s []) now (conn_process_id x) path (print_address a) (print_address b)]).
Proof.
  intros R F Rs L Ex Ea Eb Ha Hb Us Up Nt G A. destruct (driver_reachable_inv tcp n used M R) as (_ & (q & Q & Fq) & _).
  destruct (Rs 0%nat) as [e Ee]; [lia |]. assert (P : printed x = Some (print_address a, print_address b)).
  { unfold printed. rewrite Ea, Eb. destruct Ha as [-> _], Hb as [-> _]. done. }
  rewrite (SetConnectionState_produces o c s M x e (print_address a, print_address b) (proj1 L) Ex Ee P). cbn [fst snd].
  set (items := change_items o s (print_address a) (print_address b) (conn_process_id x)).
  pose proof (change_items_offsets o s (print_address a) (print_address b) (conn_process_id x) e Ee) as Sp. destruct F as [N Nz]. rewrite Sp in N, Nz.
  destruct (produce_spec used (event_list M) q e items Q N Nz) as (l' & -> & Q'). cbn [mbind result_bind].
  assert (Fl : Forall (fun x : list (Z * bytes) => (length x <= 4)%nat) (q ++ [items.*2])).
  { apply list.Forall_app. split; [eapply list.Forall_impl; [exact Fq |]; by intros y [? _] |]. apply list.Forall_singleton, change_items_readable. }
  destruct (drain_list used (event_list M) q Q) as (l0 & E0 & C0).
  { eapply list.Forall_impl; [exact Fq |]; by intros y [? _]. }
  destruct (drain_list _ l' _ Q' Fl) as (l2 & E2 & C2). rewrite length_app, Nat.add_comm in E2. cbn [length Nat.add] in E2.
  eexists _, q, items.*2, l0, l2. split_and!; [reflexivity | done | done | done | done | by apply change_read].
Qed.
End Safe.

(** ** A TCP connection *)

#[local] Existing Instances SmallPool SmallLookaside Machine.

Definition run_irp (x : answers * irp) (M : ConnectionManager) : result ConnectionManager :=
  p ← handle_irp x.1 x.2 M; Ok p.1.

Fixpoint run_irps (l : list (answers * irp)) (M : ConnectionManager) : result ConnectionManager :=
  match l with [] => Ok M | x :: l' => M ← run_irp x M; run_irps l' M end.

Fixpoint spaces (l : list (answers * irp)) (used : gset Z) : gset Z :=
  match l with [] => used | x :: l' => spaces l' (used ∪ list_to_set (space x.1)) end.

Definition fresh_spaceb (used : gset Z) (o : answers) : bool :=
  bool_decide (NoDup (space o)) && forallb (fun x => negb (x =? 0) && bool_decide (x ∉ used)) (space o).

Lemma fresh_spaceb_ok used o : fresh_spaceb used o = true -> fresh_space used o.
Proof.
  unfold fresh_spaceb. intros E. apply andb_true_iff in E as [E1 E2]. apply bool_decide_eq_true in E1. split; [done |].
  intros x Hx. rewrite forallb_forall in E2. specialize (E2 x). rewrite <- list_elem_of_In in E2. specialize (E2 Hx).
  apply andb_true_iff in E2 as [E2 E3]. apply negb_true_iff, Z.eqb_neq in E2. by apply bool_decide_eq_true in E3.
Qed.

(** requests that never come from a completion routine *)
Definition plain (r : irp) : bool :=
  match r with IrpDisassociate node => negb (node =? 0) | ConnectCompleted _ _ | AcceptCompleted _ _ => false | _ => true end.

Fixpoint irps_ok (l : list (answers * irp)) (used : gset Z) : bool :=
  match l with
  | [] => true
  | x :: l' => fresh_spaceb used x.1 && plain x.2 && irps_ok l' (used ∪ list_to_set (space x.1))
  end.

Lemma run_irps_reachable tcp l : forall n used M M', reachable tcp n used M -> Z.of_nat (n + length l) < 2 ^ 32 ->
  irps_ok l used = true ->
  run_irps l M = Ok M' -> reachable tcp (n + length l) (spaces l used) M'.
Proof.
  induction l as [|[o r] l IH]; intros n used M M' R Lt Ck E; cbn [length] in *.
  - cbn in E. injection E as <-. by rewrite Nat.add_0_r.
  - apply andb_true_iff in Ck as [Ck Cl]. apply andb_true_iff in Ck as [Cf Cp]. cbn [run_irps] in E. unfold run_irp in E. cbn [fst snd] in E.
    destruct (handle_irp o r M) as [[M1 c]|] eqn:Eh; [| done]. cbn [mbind result_bind fst] in E. cbn [spaces fst].
    replace (n + S (length l))%nat with (S n + length l)%nat by lia. apply (IH (S n) _ M1); [| lia | done | done].
    apply (reach_request tcp n used o r M M1 c); [done | lia | by apply fresh_spaceb_ok | | done].
    destruct r; cbn in Cp |- *; try done. by apply negb_true_iff, Z.eqb_neq in Cp.
Qed.

Definition ip (port : Z) (a b c d : Z) : TA_ADDRESS := mkAddress TDI_ADDRESS_TYPE_IP port [a; b; c; d].

(** the space at [base], and the local address 10.0.0.1:1040 *)
Definition sample_answers (base : Z) : answers :=
  mkAnswers 0 (fun i => Some (base + Z.of_nat i)) (Some (ip 4100 10 0 0 1)).

Definition sample_irps : list (answers * irp) :=
  [(sample_answers 100, IrpCreate 500 true); (sample_answers 200, IrpCreate 600 true);
   (sample_answers 300, IrpAssociate (Some 500) 600 8); (sample_answers 400, IrpConnect 600 8 (ip 20480 10 0 0 2))].

Definition sample_manager : ConnectionManager :=
  match run_irps sample_irps (InitialiseConnectionManager true) with Ok M => M | Fault _ => InitialiseConnectionManager true end.

Lemma sample_reachable : reachable true 4 (spaces sample_irps ∅) sample_manager.
Proof.
  apply (run_irps_reachable true sample_irps 0 ∅ (InitialiseConnectionManager true));
    [constructor | cbn; lia | vm_compute; reflexivity | vm_compute; reflexivity].
Qed.

Lemma driver_safe_witness :
  (forall v x, connection_nodes_pool sample_manager !! v = Some x -> node_connection x = 0 \/ live sample_manager (node_connection x)) /\
  (forall o r, fresh_space (spaces sample_irps ∅) o -> admissible sample_manager r ->
     safe (permitted o r) (fun _ => True) (handle_irp o r sample_manager)) /\
  exists its l, consume 4 (event_list sample_manager) = Ok (its, l) /\
    match its with
    | None => True
    | Some x => forall (P : Processes) waited type_of pm, (forall pid pm, is_ok (getProcessPath waited pid pm)) ->
        is_ok (read_info waited type_of x no_info pm)
    end.
Proof. apply (driver_safe true 4 (spaces sample_irps ∅) sample_manager sample_reachable). lia. Defined.

(** the completion of the connect request *)
Lemma change_reported_witness :
  exists M' earlier its l l', SetConnectionState (sample_answers 700) 1 TCP_STATE_ESTABLISHED sample_manager = Ok M' /\
    run_list 4 (replicate (length earlier) Consume) (event_list sample_manager) = Ok (earlier, l) /\ consume 4 l = Ok (None, l) /\
    run_list 4 (replicate (S (length earlier)) Consume) (event_list M') = Ok (earlier ++ [its], l') /\ consume 4 l' = Ok (None, l') /\
    processEvents (fun _ m => m) tcp_type (fun _ _ _ => Ok false) (bs "now") its (mkProcesses ∅ 0 0 0) =
      Ok (mkProcesses {[8 := bs "C:\WINDOWS\b.exe"]} 0 1 0,
          [ConnectionEvent (bs "tcp-connection") (bs "now") 8 (bs "C:\WINDOWS\b.exe") (bs "10.0.0.1:1040") (bs "10.0.0.2:80")]).
Proof.
  refine (change_reported true 4 (spaces sample_irps ∅) sample_manager (sample_answers 700) 1
    (mkConnection 500 600 (Some (ip 4100 10 0 0 1)) (Some (ip 20480 10 0 0 2)) 2 8) (ip 4100 10 0 0 1) (ip 20480 10 0 0 2)
    TCP_STATE_ESTABLISHED (fun _ m => m) tcp_type (fun _ _ _ => Ok false) (bs "now") (mkProcesses ∅ 0 0 0) (bs "C:\WINDOWS\b.exe")
    (mkProcesses {[8 := bs "C:\WINDOWS\b.exe"]} 0 1 0) sample_reachable _ _ _ _ _ _ _ _ _ _ _ _ _).
  - apply fresh_spaceb_ok. vm_compute. reflexivity.
  - intros i _. by eexists.
  - split; [done |]. eexists. vm_compute. reflexivity.
  - vm_compute. reflexivity.
  - reflexivity.
  - reflexivity.
  - split_and!; [done | cbn; lia | cbn; lia | repeat constructor; lia].
  - split_and!; [done | cbn; lia | cbn; lia | repeat constructor; lia].
  - unfold u32_ok, TCP_STATE_ESTABLISHED. lia.
  - unfold u32_ok. cbn. lia.
  - done.
  - vm_compute. reflexivity.
  - reflexivity.
Defined.

(** a request that completes after its file object was closed uses the freed
    connection *)
Example completion_after_close :
  (M ← run_irp (sample_answers 700, IrpClose 600) sample_manager;
   TdiConnectHandlerComplete (sample_answers 800) 1 true M) = Fault UseAfterFree.
Proof. vm_compute. reflexivity. Qed.

(** a second request for the same object leaves the connection of the first
    allocated for ever *)
Example reassociation_leaks :
  (M ← run_irps [(sample_answers 700, IrpAssociate (Some 500) 600 8); (sample_answers 800, IrpClose 600)] sample_manager;
   Ok (dom (connections_pool M))) = Ok {[1]}.
Proof. vm_compute. reflexivity. Qed.
