(* ===== verification/PolledQueue.v ===== *)
(** * The queue of a driver that is polled

    The registry and the file driver queue an event only while their client
    keeps asking, hand the queue over on request, and drop it by a timer when
    the client falls silent. *)
From Stdlib Require Import ZArith Lia.
From stdpp Require Import base gmap list strings numbers.
From S2P Require Import Prelude DriverEvents.

Local Open Scope Z_scope.

Definition USERSPACE_CONNECTION_TIMEOUT : Z := 10.

(** times are seconds in a ULONG *)
Record queue_manager (E : Type) := mkManager { lQueuedEvents : list E; lastContactTime : Z }.
Arguments mkManager {E}.
Arguments lQueuedEvents {E}.
Arguments lastContactTime {E}.

Definition since_contact {E} (now : Z) (d : queue_manager E) : Z := u32 (now - lastContactTime d).

Definition UpdateLastContactTime {E} (now : Z) (d : queue_manager E) : queue_manager E := mkManager (lQueuedEvents d) now.

Definition ConnectionChecker {E} (now : Z) (d : queue_manager E) : queue_manager E :=
  if USERSPACE_CONNECTION_TIMEOUT + USERSPACE_CONNECTION_TIMEOUT / 2 <? since_contact now d
  then mkManager [] (lastContactTime d) else d.

(** ** Runs of the queue *)

(** an event is offered, the client asks, the timer ticks *)
Inductive queue_step (E : Type) := Offer (now : Z) (e : E) | Ask (now : Z) | Tick (now : Z).
Arguments Offer {E}.
Arguments Ask {E}.
Arguments Tick {E}.

Definition enqueue {E} (now : Z) (e : E) (d : queue_manager E) : queue_manager E :=
  if since_contact now d <=? USERSPACE_CONNECTION_TIMEOUT then mkManager (lQueuedEvents d ++ [e]) (lastContactTime d) else d.

Section Runs.
Context {E : Type} `{DriverRecord E} {St : Type} (body : E -> St -> result St) (bufferSpace : nat).

(** a request: the contact is renewed, the monitor walks what it gets *)
Definition driver_request (now : Z) (d : queue_manager E) (s : St) : result (queue_manager E * St) :=
  let d := UpdateLastContactTime now d in
  r ← poll bufferSpace (lQueuedEvents d) body s;
  Ok (mkManager r.1 (lastContactTime d), r.2).

Definition queue_do (x : queue_step E) (d : queue_manager E) (s : St) : result (queue_manager E * St) :=
  match x with
  | Offer now e => Ok (enqueue now e d, s)
  | Ask now => driver_request now d s
  | Tick now => Ok (ConnectionChecker now d, s)
  end.

Fixpoint queue_run (xs : list (queue_step E)) (d : queue_manager E) (s : St) : result (queue_manager E * St) :=
  match xs with
  | [] => Ok (d, s)
  | x :: xs' => r ← queue_do x d s; queue_run xs' r.1 r.2
  end.

Lemma queue_run_app xs ys d s :
  queue_run (xs ++ ys) d s = (r ← queue_run xs d s; queue_run ys r.1 r.2).
Proof.
  revert d s. induction xs as [|x xs IH]; intros d s; [done |]. cbn [app queue_run].
  destruct (queue_do x d s) as [[d1 s1]|]; cbn [mbind result_bind fst snd]; [apply IH | done].
Qed.

Lemma queue_run_one x d s : queue_run [x] d s = queue_do x d s.
Proof. cbn [queue_run]. by destruct (queue_do x d s) as [[]|]. Qed.
End Runs.

(** ** What gets through *)

(** the events offered no more than the timeout after a request, in order *)
Fixpoint accepted {E} (last : Z) (xs : list (queue_step E)) : list E :=
  match xs with
  | [] => []
  | Offer now e :: xs' =>
    if u32 (now - last) <=? USERSPACE_CONNECTION_TIMEOUT then e :: accepted last xs' else accepted last xs'
  | Ask now :: xs' => accepted now xs'
  | Tick _ :: xs' => accepted last xs'
  end.

(** the timer finds the client in contact *)
Fixpoint in_contact {E} (last : Z) (xs : list (queue_step E)) : Prop :=
  match xs with
  | [] => True
  | Tick now :: xs' => u32 (now - last) <= 15 /\ in_contact last xs'
  | Ask now :: xs' => in_contact now xs'
  | Offer _ _ :: xs' => in_contact last xs'
  end.

Fixpoint last_contact {E} (last : Z) (xs : list (queue_step E)) : Z :=
  match xs with
  | [] => last
  | Ask now :: xs' => last_contact now xs'
  | _ :: xs' => last_contact last xs'
  end.

Lemma accepted_cons {E} (x : queue_step E) xs last :
  accepted last (x :: xs) = accepted last [x] ++ accepted (last_contact last [x]) xs.
Proof. destruct x; cbn; [| done | done]. by destruct (_ <=? _). Qed.

Definition event_fits {E} `{DriverRecord E} (event_ok : E -> Prop) (bufferSpace : nat) (e : E) : Prop :=
  event_ok e /\ (length (pooled e) <= bufferSpace)%nat.

Section Through.
Context {E : Type} `{DriverLaws E event_ok} {St : Type} (body : E -> St -> result St) (bufferSpace : nat).

(** at any time what was handled and what is queued make up the accepted
    events *)
Lemma queue_run_spec xs : forall d s,
  in_contact (lastContactTime d) xs ->
  Forall (event_fits event_ok bufferSpace) (lQueuedEvents d ++ accepted (lastContactTime d) xs) ->
  exists handled queued,
    lQueuedEvents d ++ accepted (lastContactTime d) xs = handled ++ queued /\
    queue_run body bufferSpace xs d s =
      (s' ← handle_events body handled s; Ok (mkManager queued (last_contact (lastContactTime d) xs), s')).
Proof.
  induction xs as [|x xs IH]; intros d s C B.
  { exists [], (lQueuedEvents d). cbn. rewrite app_nil_r. by destruct d. }
  rewrite accepted_cons, app_assoc in *. cbn [queue_run queue_do]. destruct x as [now e|now|now].
  - cbn [queue_do mbind result_bind fst snd]. unfold enqueue, since_contact. cbn [accepted last_contact in_contact] in *.
    destruct (_ <=? _); [exact (IH (mkManager _ (lastContactTime d)) s C B) | rewrite app_nil_r in *; exact (IH d s C B)].
  - cbn [accepted last_contact in_contact queue_do] in *. rewrite app_nil_r in *. unfold driver_request.
    cbn [UpdateLastContactTime lQueuedEvents lastContactTime].
    assert (Fq : Forall event_ok (lQueuedEvents d)).
    { apply Forall_app in B as [B _]. eapply list.Forall_impl; [exact B |]. by intros e []. }
    destruct (poll_spec bufferSpace (lQueuedEvents d) body s Fq) as (taken & rest & Q & P & _).
    rewrite Q in *. rewrite P.
    assert (Br : Forall (event_fits event_ok bufferSpace) (rest ++ accepted now xs))
      by (rewrite <- app_assoc in B; by apply Forall_app in B as [_ B]).
    destruct (handle_events body taken s) as [s1|] eqn:T.
    + destruct (IH (mkManager rest now) s1 C Br) as (h & q & Eq & R). cbn [lQueuedEvents lastContactTime] in Eq, R.
      exists (taken ++ h), q. split; [by rewrite <- !app_assoc, Eq |]. by rewrite handle_events_app, T.
    + exists (taken ++ rest), (accepted now xs). split; [done |]. by rewrite handle_events_app, T.
  - cbn [in_contact] in C. destruct C as [Ct C]. cbn [accepted last_contact queue_do] in *. rewrite app_nil_r in *.
    unfold ConnectionChecker, since_contact. rewrite (proj2 (Z.ltb_ge _ _)) by exact Ct. exact (IH d s C B).
Qed.

Lemma asks_spec n now queue s : forall last,
  queue_run body bufferSpace (replicate n (Ask now)) (mkManager queue last) s =
  (r ← polls n bufferSpace queue body s; Ok (mkManager r.1 (if n is O then last else now), r.2)).
Proof.
  revert queue s. induction n as [|n IH]; intros queue s last; [done |].
  cbn [replicate queue_run queue_do polls]. unfold driver_request. cbn [UpdateLastContactTime lQueuedEvents lastContactTime].
  destruct (poll bufferSpace queue body s) as [[q s1]|]; [| done]. cbn [mbind result_bind fst snd].
  rewrite IH. by destruct n.
Qed.

(** with enough requests at the end every accepted event is handled, once and
    in order *)
Lemma queue_flush xs n now last s :
  in_contact last xs -> Forall (event_fits event_ok bufferSpace) (accepted last xs) -> (length (accepted last xs) <= n)%nat -> (0 < n)%nat ->
  queue_run body bufferSpace (xs ++ replicate n (Ask now)) (mkManager [] last) s =
  (s' ← handle_events body (accepted last xs) s; Ok (mkManager [] now, s')).
Proof.
  intros C B L P. rewrite queue_run_app.
  destruct (queue_run_spec xs (mkManager [] last) s C B) as (handled & queued & Eq & ->).
  cbn [lQueuedEvents lastContactTime app] in Eq. rewrite Eq in *. rewrite handle_events_app.
  destruct (handle_events body handled s) as [s1|]; [| done]. cbn [mbind result_bind fst snd].
  apply Forall_app in B as [_ B]. rewrite length_app in L.
  rewrite asks_spec, polls_spec; [| | | lia].
  - destruct (handle_events body queued s1); [| done]. cbn [mbind result_bind fst snd]. by destruct n; [lia |].
  - eapply list.Forall_impl; [exact B |]. by intros ? [].
  - eapply list.Forall_impl; [exact B |]. by intros ? [].
Qed.
End Through.
