(* ===== verification/RegistryDriver.v ===== *)
(** * The registry driver (CaptureRegistryMonitor.c)

    The configuration manager notifies the driver of operations on the
    registry; the driver finds the name of the key, queues an event while its
    client keeps in contact, and hands the queue over on request. Together
    with the registry monitor this is a pipeline from the operation to the
    report. *)
From Stdlib Require Import ZArith Lia.
From stdpp Require Import base gmap list strings numbers.
From S2P Require Import Prelude Element Monitor Analyzer ProcessManager DriverEvents SystemMonitors PolledQueue.

Local Open Scope Z_scope.

(** ** Notifications *)

Definition RegNtPreDeleteKey : Z := 0.
Definition RegNtPreSetValueKey : Z := 1.
Definition RegNtDeleteValueKey : Z := 2.
Definition RegNtEnumerateKey : Z := 5.
Definition RegNtEnumerateValueKey : Z := 6.
Definition RegNtQueryKey : Z := 7.
Definition RegNtQueryValueKey : Z := 8.
Definition RegNtPostCreateKey : Z := 11.
Definition RegNtPostOpenKey : Z := 13.
Definition RegNtKeyHandleClose : Z := 14.

(** the operations the driver looks at, with the members of their structures *)
Inductive registry_notification :=
  | PostCreateKey (success : bool) (CompleteName : option wstring) (Object : Z)
  | PostOpenKey (success : bool) (CompleteName : option wstring) (Object : Z)
  | PreDeleteKey (Object : Z)
  | DeleteValueKey (Object : Z) (ValueName : wstring)
  | PreSetValueKey (Object : Z) (ValueName : wstring) (Type_ : Z) (Data : bytes)
  | EnumerateKey (Object KeyInformationClass : Z)
  | EnumerateValueKey (Object KeyValueInformationClass : Z)
  | QueryKey (Object KeyInformationClass : Z)
  | QueryValueKey (Object : Z) (ValueName : wstring) (KeyValueInformationClass : Z)
  | KeyHandleClose (Object : Z)
  | OtherNotification (type : Z).

Definition notify_class (n : registry_notification) : Z :=
  match n with
  | PostCreateKey _ _ _ => RegNtPostCreateKey
  | PostOpenKey _ _ _ => RegNtPostOpenKey
  | PreDeleteKey _ => RegNtPreDeleteKey
  | DeleteValueKey _ _ => RegNtDeleteValueKey
  | PreSetValueKey _ _ _ _ => RegNtPreSetValueKey
  | EnumerateKey _ _ => RegNtEnumerateKey
  | EnumerateValueKey _ _ => RegNtEnumerateValueKey
  | QueryKey _ _ => RegNtQueryKey
  | QueryValueKey _ _ _ => RegNtQueryValueKey
  | KeyHandleClose _ => RegNtKeyHandleClose
  | OtherNotification type => type
  end.

(** the object manager *)
Class KernelObjects := {
  MmIsAddressValid : Z -> bool;
  ObQueryNameString : Z -> option wstring;
}.

(** the allocations of a callback, in the order of the code *)
Record memory := mkMemory { path_memory : bool; name_memory : bool; data_memory : bool; event_memory : bool; packet_memory : bool }.

Section Callback.
Context `{KernelObjects}.

Definition char_at (p : wstring) (i : nat) : result Z :=
  match p !! i with Some c => Ok c | None => Fault OutOfBoundsRead end.

(** whether a name is complete: it starts with a backslash, a percent sign or
    [TRY\] *)
Definition is_complete (p : wstring) : result bool :=
  c0 ← char_at p 0;
  if (c0 =? 92) || (c0 =? 37) then Ok true
  else if c0 =? 84 then
    c1 ← char_at p 1;
    if c1 =? 82 then
      c2 ← char_at p 2;
      if c2 =? 89 then c3 ← char_at p 3; Ok (c3 =? 92) else Ok false
    else Ok false
  else Ok false.

(** the length of the string in the buffer for the path *)
Definition NTSTRSAFE_UNICODE_STRING_MAX_CCH : nat := 32767.
Definition string_cat (a b : wstring) : wstring := take NTSTRSAFE_UNICODE_STRING_MAX_CCH (a ++ b).

Definition GetRegistryObjectCompleteName (m : memory) (partial : option wstring) (object : Z) : result (option wstring) :=
  if negb (MmIsAddressValid object) || (object =? 0) then Ok None
  else
    complete ← match partial with Some p => is_complete p | None => Ok false end;
    if complete : bool then Ok partial
    else match ObQueryNameString object with
    | None => Ok None
    | Some name => if name_memory m then Ok (Some name) else Fault NullDeref
    end.

(** the name of a value below its key; nothing is added for an empty one *)
Definition value_path (path : option wstring) (name : wstring) : option wstring :=
  match path with
  | Some p => Some (if (0 <? length name)%nat then string_cat (string_cat p [92]) name else p)
  | None => None
  end.

(** the path, the type of the data and the data of an event, if the
    notification makes one *)
Definition describe (m : memory) (n : registry_notification) : result (option (wstring * Z * bytes)) :=
  let plain (type : Z) (path : option wstring) := match path with Some p => Some (p, type, []) | None => None end in
  match n with
  | PostCreateKey success name object | PostOpenKey success name object =>
    if success then p ← GetRegistryObjectCompleteName m name object; Ok (plain 0 p) else Ok None
  | PreDeleteKey object | KeyHandleClose object =>
    p ← GetRegistryObjectCompleteName m None object; Ok (plain 0 p)
  | DeleteValueKey object name =>
    p ← GetRegistryObjectCompleteName m None object; Ok (plain 0 (value_path p name))
  | PreSetValueKey object name type data =>
    p ← GetRegistryObjectCompleteName m None object;
    if (0 <? length name)%nat then
      match value_path p name with Some q => Ok (Some (q, type, data)) | None => Ok None end
    else Ok (plain 0 p)
  | EnumerateKey object class | EnumerateValueKey object class | QueryKey object class =>
    p ← GetRegistryObjectCompleteName m None object; Ok (plain class p)
  | QueryValueKey object name class =>
    p ← GetRegistryObjectCompleteName m None object;
    Ok (plain (if (0 <? length name)%nat then class else 0) (value_path p name))
  | OtherNotification _ => Ok None
  end.

(** the [try] block: an access violation, which the use of NULL raises, leaves
    no event; a read past the characters of a name need not raise anything, so
    what follows it is not determined *)
Definition guarded {A} (r : result (option A)) : result (option A) :=
  match r with Fault NullDeref => Ok None | _ => r end.

(** the event to queue; the [try] block has ended when the data are copied, so
    data there was no memory for are read from NULL *)
Definition RegistryCallback (m : memory) (time : TIME_FIELDS) (pid : Z) (n : registry_notification) : result (option REGISTRY_EVENT) :=
  if negb (path_memory m) then Ok None
  else
    d ← guarded (describe m n);
    match d with
    | None => Ok None
    | Some (path, dataType, data) =>
      if negb (event_memory m) then Ok None
      else if negb (data_memory m) && (0 <? length data)%nat then Fault NullDeref
      else Ok (Some (mkRegistryEvent (notify_class n) time pid dataType path data))
    end.
End Callback.

(** ** The queue *)

Definition QueueRegistryEvent (m : memory) (now : Z) (e : REGISTRY_EVENT) (d : queue_manager REGISTRY_EVENT)
  : result (queue_manager REGISTRY_EVENT) :=
  if since_contact now d <=? USERSPACE_CONNECTION_TIMEOUT then
    if packet_memory m then Ok (mkManager (lQueuedEvents d ++ [e]) (lastContactTime d)) else Fault NullDeref
  else Ok d.

(** ** The driver and its client *)

(** a notification, a request of the client, the timer *)
Inductive registry_step :=
  | Notify (now : Z) (m : memory) (time : TIME_FIELDS) (pid : Z) (n : registry_notification)
  | Request (now : Z)
  | Timer (now : Z).

Section Pipeline.
Context `{KernelObjects} {St : Type} (body : REGISTRY_EVENT -> St -> result St) (bufferSpace : nat).

Definition registry_do (x : registry_step) (d : queue_manager REGISTRY_EVENT) (s : St)
  : result (queue_manager REGISTRY_EVENT * St) :=
  match x with
  | Notify now m time pid n =>
    o ← RegistryCallback m time pid n;
    match o with
    | Some e => d ← QueueRegistryEvent m now e d; Ok (d, s)
    | None => Ok (d, s)
    end
  | Request now => driver_request body bufferSpace now d s
  | Timer now => Ok (ConnectionChecker now d, s)
  end.

Fixpoint registry_run (xs : list registry_step) (d : queue_manager REGISTRY_EVENT) (s : St)
  : result (queue_manager REGISTRY_EVENT * St) :=
  match xs with
  | [] => Ok (d, s)
  | x :: xs' => r ← registry_do x d s; registry_run xs' r.1 r.2
  end.
End Pipeline.

(** the registry monitor, with what it reported so far *)
Definition registry_body `{Processes} (env : environment) (allowed : kind -> wstring -> wstring -> wstring -> result bool)
    (e : REGISTRY_EVENT) (s : monitors * list system_event) : result (monitors * list system_event) :=
  r ← registry_record env allowed e s.1; Ok (r.1, s.2 ++ r.2).

(** ** What the driver should hand over *)

Section Promise.
Context `{KernelObjects}.

(** the key of a notification: the name the caller used, if the notification
    has one, and the object. Creating and opening a key are notified after the
    fact and count if they succeeded; the other notifications come before the
    operation and count whether or not it will succeed *)
Definition key_of (n : registry_notification) : option (option wstring * Z) :=
  match n with
  | PostCreateKey success name object | PostOpenKey success name object => if success then Some (name, object) else None
  | PreDeleteKey object | KeyHandleClose object | DeleteValueKey object _ | PreSetValueKey object _ _ _
  | EnumerateKey object _ | EnumerateValueKey object _ | QueryKey object _ | QueryValueKey object _ _ => Some (None, object)
  | OtherNotification _ => None
  end.

(** the value of the key, empty for the key or its default value *)
Definition value_of (n : registry_notification) : wstring :=
  match n with
  | DeleteValueKey _ name | PreSetValueKey _ name _ _ | QueryValueKey _ name _ => name
  | _ => []
  end.

Definition data_of (n : registry_notification) : Z * bytes :=
  match n with
  | PreSetValueKey _ (_ :: _) type data => (type, data)
  | EnumerateKey _ class | EnumerateValueKey _ class | QueryKey _ class | QueryValueKey _ (_ :: _) class => (class, [])
  | _ => (0, [])
  end.

Definition rooted (p : wstring) : bool := prefixb (bs "\") p || prefixb (bs "%") p || prefixb (bs "TRY\") p.

Definition full_name (partial : option wstring) (object : Z) : option wstring :=
  if MmIsAddressValid object && negb (object =? 0) then
    match partial with
    | Some p => if rooted p then Some p else ObQueryNameString object
    | None => ObQueryNameString object
    end
  else None.

Definition below (name value : wstring) : wstring :=
  match value with [] => name | _ => name ++ bs "\" ++ value end.

(** the event of a notification: none if its key has no name; the data of a
    default value are not in it *)
Definition event_of (time : TIME_FIELDS) (pid : Z) (n : registry_notification) : option REGISTRY_EVENT :=
  match key_of n with
  | Some (partial, object) =>
    (fun name => mkRegistryEvent (notify_class n) time pid (data_of n).1 (below name (value_of n)) (data_of n).2)
      <$> full_name partial object
  | None => None
  end.

(** a step as one of the queue *)
Definition offers (x : registry_step) : list (queue_step REGISTRY_EVENT) :=
  match x with
  | Notify now _ time pid n => match event_of time pid n with Some e => [Offer now e] | None => [] end
  | Request now => [Ask now]
  | Timer now => [Tick now]
  end.

(** names that can be told complete or not, paths of Windows' length *)
Definition key_name_ok (n : registry_notification) : Prop :=
  match key_of n with
  | Some (Some p, _) => is_ok (is_complete p)
  | _ => True
  end.

Definition step_ok (x : registry_step) : Prop :=
  match x with
  | Notify _ m time pid n =>
    m = mkMemory true true true true true /\ key_name_ok n /\
    forall e, event_of time pid n = Some e -> (length (r_path e) <= NTSTRSAFE_UNICODE_STRING_MAX_CCH)%nat
  | _ => True
  end.

Lemma is_complete_rooted p c : is_complete p = Ok c -> c = rooted p.
Proof.
  unfold is_complete, rooted, char_at. change (bs "\") with [92]. change (bs "%") with [37].
  change (bs "TRY\") with [84; 82; 89; 92].
  destruct p as [|c0 p]; [done |]. cbn [lookup list_lookup mbind result_bind prefixb].
  rewrite (Z.eqb_sym 92 c0), (Z.eqb_sym 37 c0), (Z.eqb_sym 84 c0), !andb_true_r.
  destruct (c0 =? 92), (c0 =? 37); cbn [orb]; try by intros [= <-].
  destruct (c0 =? 84); [| by intros [= <-]]. destruct p as [|c1 p]; [done |].
  cbn [lookup list_lookup mbind result_bind prefixb]. rewrite (Z.eqb_sym 82 c1).
  destruct (c1 =? 82); [| by intros [= <-]]. destruct p as [|c2 p]; [done |].
  cbn [lookup list_lookup mbind result_bind prefixb]. rewrite (Z.eqb_sym 89 c2).
  destruct (c2 =? 89); [| by intros [= <-]]. destruct p as [|c3 p]; [done |].
  cbn [lookup list_lookup mbind result_bind prefixb]. rewrite (Z.eqb_sym 92 c3), andb_true_r. by intros [= <-].
Qed.

Lemma complete_name m partial object :
  name_memory m = true -> (forall p, partial = Some p -> is_ok (is_complete p)) ->
  GetRegistryObjectCompleteName m partial object = Ok (full_name partial object).
Proof.
  intros M N. unfold GetRegistryObjectCompleteName, full_name.
  destruct (MmIsAddressValid object), (object =? 0); cbn [negb orb andb]; try done.
  assert (Q : match ObQueryNameString object with
    | None => Ok None | Some name => if name_memory m then Ok (Some name) else Fault NullDeref end =
    Ok (ObQueryNameString object)) by (rewrite M; by destruct (ObQueryNameString object)).
  destruct partial as [p|]; [| exact Q]. specialize (N p eq_refl).
  destruct (is_complete p) as [c|] eqn:C; [| done]. apply is_complete_rooted in C as ->. cbn [mbind result_bind].
  by destruct (rooted p).
Qed.

Lemma string_cat_short a b :
  (length (a ++ b) <= NTSTRSAFE_UNICODE_STRING_MAX_CCH)%nat -> string_cat a b = a ++ b.
Proof. apply take_ge. Qed.

Lemma value_path_below p name :
  (length (below p name) <= NTSTRSAFE_UNICODE_STRING_MAX_CCH)%nat -> value_path (Some p) name = Some (below p name).
Proof.
  unfold value_path, below. destruct name as [|c name]; [done |]. cbn [length Nat.ltb Nat.leb]. intros L.
  change (bs "\") with [92] in *. rewrite (string_cat_short p [92]) by (rewrite !length_app in *; cbn [length] in *; lia).
  by rewrite string_cat_short, <- app_assoc by (rewrite <- app_assoc; done).
Qed.
(** the callback makes the event of the operation *)
Lemma callback_spec time pid n :
  key_name_ok n ->
  (forall e, event_of time pid n = Some e -> (length (r_path e) <= NTSTRSAFE_UNICODE_STRING_MAX_CCH)%nat) ->
  RegistryCallback (mkMemory true true true true true) time pid n = Ok (event_of time pid n).
Proof.
  intros N L. unfold RegistryCallback. cbn [path_memory event_memory data_memory negb andb].
  assert (D : describe (mkMemory true true true true true) n =
    Ok ((fun e => (r_path e, r_dataType e, r_data e)) <$> event_of time pid n)).
  { unfold event_of, key_name_ok in *.
    assert (C : forall partial object, key_of n = Some (partial, object) ->
      GetRegistryObjectCompleteName (mkMemory true true true true true) partial object = Ok (full_name partial object)).
    { intros partial object K. apply complete_name; [done |]. intros p ->. by rewrite K in N. }
    assert (V : forall partial object p, key_of n = Some (partial, object) -> full_name partial object = Some p ->
      value_path (Some p) (value_of n) = Some (below p (value_of n))).
    { intros partial object p K F. apply value_path_below. rewrite K, F in L. exact (L _ eq_refl). }
    destruct n as [[] nm o|[] nm o|o|o nm|o nm ty data|o c|o c|o c|o nm c|o|ty]; try done;
      cbn [describe key_of] in *; rewrite (C _ _ eq_refl); cbn [mbind result_bind];
      destruct (full_name _ _) as [p|] eqn:F; try (by destruct nm); try done;
      cbn [value_of] in *; try rewrite (V _ _ p eq_refl F); destruct nm; done. }
  rewrite D. cbn [guarded mbind result_bind]. unfold event_of. destruct (key_of n) as [[partial object]|]; [| done].
  by destruct (full_name partial object).
Qed.

(** the driver is a queue of its events *)
Lemma registry_queue {St} (body : REGISTRY_EVENT -> St -> result St) bufferSpace xs : forall d s,
  Forall step_ok xs -> registry_run body bufferSpace xs d s = queue_run body bufferSpace (xs ≫= offers) d s.
Proof.
  induction xs as [|x xs IH]; intros d s F; [done |]. apply list.Forall_cons in F as [K F].
  cbn [registry_run mbind list_bind]. rewrite queue_run_app.
  assert (D : registry_do body bufferSpace x d s = queue_run body bufferSpace (offers x) d s).
  { destruct x as [now m time pid n|now|now]; cbn [registry_do offers]; [| by rewrite queue_run_one | done].
    destruct K as (-> & N & L). rewrite callback_spec by done. cbn [mbind result_bind].
    destruct (event_of time pid n) as [e|]; [| done]. rewrite queue_run_one. cbn [queue_do].
    unfold QueueRegistryEvent, enqueue. by destruct (_ <=? _). }
  rewrite D. destruct (queue_run body bufferSpace (offers x) d s) as [[d1 s1]|]; [| done].
  cbn [mbind result_bind fst snd]. by apply IH.
Qed.

(** no event has a type the monitor has no name for *)
Lemma event_named time pid n e :
  event_of time pid n = Some e -> getRegistryEventName (r_eventType e) <> bs "<UNKNOWN>".
Proof.
  unfold event_of. destruct (key_of n) as [[partial object]|] eqn:K; [| done].
  destruct (full_name partial object); [| done]. intros [= <-]. destruct n; vm_compute in K |- *; congruence.
Qed.

Lemma accepted_named last xs :
  Forall (fun e => getRegistryEventName (r_eventType e) <> bs "<UNKNOWN>") (accepted last (xs ≫= offers)).
Proof.
  revert last. induction xs as [|x xs IH]; intros last; [constructor |].
  destruct x as [now m time pid n|now|now]; cbn [mbind list_bind offers app accepted]; [| apply IH | apply IH].
  destruct (event_of time pid n) as [e|] eqn:Ev; [| apply IH]. cbn [app accepted].
  destruct (_ <=? _); [| apply IH]. constructor; [exact (event_named _ _ _ _ Ev) | apply IH].
Qed.
End Promise.

(** what the monitor makes of the events *)
Lemma registry_body_all `{Processes} env allowed es : forall st out,
  handle_events (registry_body env allowed) es (st, out) =
  (r ← observe_all env allowed (RegistryEntry <$> es) st; Ok (r.1, out ++ r.2)).
Proof.
  induction es as [|e es IH]; intros st out; cbn [handle_events fmap list_fmap observe_all observe].
  { cbn. by rewrite app_nil_r. }
  change (registry_body env allowed e (st, out)) with (r ← registry_record env allowed e st; Ok (r.1, out ++ r.2)).
  destruct (registry_record env allowed e st) as [[st1 o1]|]; [| done].
  cbn [mbind result_bind fst snd]. rewrite IH.
  destruct (observe_all env allowed (RegistryEntry <$> es) st1) as [[st2 o2]|]; [| done].
  cbn [mbind result_bind fst snd]. by rewrite app_assoc.
Qed.

(** C26: The registry monitor from the notification to the report: for any
    sequence of notifications, requests and timer ticks, the monitor sees the
    events of exactly the notifications that come at most ten seconds after a
    request and whose key the object manager can name, each once, in order,
    whichever request carries it, and reports what its exclusions leave of them
    ([observe_all]). An event has the full name of the key, with the value's name
    below it, and the type and data of a value that is set, unless it is the
    default value. A key created or opened counts when that succeeded; the
    notifications that come before the operation count in any case. The
    monitor has a name for each of these events. Assumed: every allocation succeeds, a name the caller used can be
    told complete or not without reading past its end ([key_name_ok]), paths are
    at most 32767 characters, the client asks within the timer's limit and its
    buffer takes every single event. *)
Theorem registry_pipeline `{KernelObjects} `{Processes} env allowed bufferSpace xs n now last st :
  let es := accepted last (xs ≫= offers) in
  Forall step_ok xs -> in_contact last (xs ≫= offers) -> Forall (event_fits registry_ok bufferSpace) es -> (length es <= n)%nat -> (0 < n)%nat ->
  registry_run (registry_body env allowed) bufferSpace (xs ++ replicate n (Request now)) (mkManager [] last) (st, []) =
    (r ← observe_all env allowed (RegistryEntry <$> es) st; Ok (mkManager [] now, r)) /\
  Forall (fun e => getRegistryEventName (r_eventType e) <> bs "<UNKNOWN>") es.
Proof.
  intros es F C B L P. split; [| apply accepted_named]. rewrite registry_queue by (apply Forall_app; split; [done | by apply Forall_replicate]).
  assert (R : (xs ++ replicate n (Request now)) ≫= offers = (xs ≫= offers) ++ replicate n (Ask now)).
  { rewrite bind_app. f_equal. clear. induction n as [|n IH]; [done |]. cbn [replicate mbind list_bind offers app]. by f_equal. }
  rewrite R, queue_flush by done. fold es. rewrite registry_body_all. by destruct (observe_all _ _ _ _) as [[]|].
Qed.

(** ** A session to run *)

#[local] Existing Instance Machine.

(** one key, whose full name the object manager knows *)
Definition OneKey : KernelObjects := {|
  MmIsAddressValid := fun _ => true;
  ObQueryNameString := fun o => if o =? 7 then Some (bs "\REGISTRY\MACHINE\x") else None;
|}.
#[local] Existing Instance OneKey.

Definition plenty : memory := mkMemory true true true true true.

(** a key is opened under a relative name, one that does not exist is not, a
    value is set, and after twelve seconds without a request it is deleted *)
Definition sample_steps : list registry_step :=
  [Notify 101 plenty sample_time 100 (PostOpenKey true (Some (bs "x")) 7);
   Notify 101 plenty sample_time 100 (PostOpenKey false (Some (bs "y")) 0);
   Request 102; Timer 103;
   Notify 104 plenty sample_time 100 (PreSetValueKey 7 (bs "Run") 1 (bs "a.exe"));
   Notify 114 plenty sample_time 100 (DeleteValueKey 7 (bs "Run")); Timer 117].

Definition watched_monitors : monitors := mkMonitors (mkProcesses {[100 := bs "C:\a.exe"]} 0 0 0) None false ∅.

Lemma notify_ok now time pid n :
  key_name_ok n ->
  match event_of time pid n with Some e => (length (r_path e) <=? NTSTRSAFE_UNICODE_STRING_MAX_CCH)%nat = true | None => True end ->
  step_ok (Notify now plenty time pid n).
Proof. intros N L. split_and!; [done | done |]. intros e E. rewrite E in L. by apply Nat.leb_le. Qed.

Lemma registry_pipeline_witness :
  registry_run (registry_body sample_environment (fun _ _ _ _ => Ok false)) 200
    (sample_steps ++ replicate 2 (Request 118)) (mkManager [] 100) (watched_monitors, []) =
  Ok (mkManager [] 118, (with_manager (mkProcesses {[100 := bs "C:\a.exe"]} 2 0 0) watched_monitors,
    [RegistryEvent (bs "OpenKey") (bs "1/2/2010 3:4:5.6") 100 (bs "C:\a.exe") (bs "HKLM\x");
     RegistryEvent (bs "SetValueKey") (bs "1/2/2010 3:4:5.6") 100 (bs "C:\a.exe") (bs "HKLM\x\Run")])).
Proof.
  destruct (registry_pipeline sample_environment (fun _ _ _ _ => Ok false) 200 sample_steps 2 118 100 watched_monitors)
    as [E _].
  - repeat (apply list.Forall_cons; split; [first [exact I | apply notify_ok; vm_compute; done] |]). constructor.
  - vm_compute. repeat split; discriminate.
  - repeat (constructor; [split; [repeat constructor; vm_compute; intros; done | apply Nat.leb_le; vm_compute; reflexivity] |]). constructor.
  - vm_compute. lia.
  - lia.
  - rewrite E. vm_compute. reflexivity.
Defined.

(** events that wait when the client is silent are dropped by the timer *)
Example timer_drops :
  registry_run (registry_body sample_environment (fun _ _ _ _ => Ok false)) 200
    [Notify 101 plenty sample_time 100 (PreDeleteKey 7); Timer 116; Request 117] (mkManager [] 100) (watched_monitors, [])
  = Ok (mkManager [] 117, (watched_monitors, [])).
Proof. vm_compute. reflexivity. Qed.

(** a name there is no memory for drops the event, an empty name is read, and
    data that could not be copied *)
Example name_not_copied :
  RegistryCallback (mkMemory true false true true true) sample_time 100 (PreDeleteKey 7) = Ok None.
Proof. vm_compute. reflexivity. Qed.

Example empty_name_read :
  RegistryCallback plenty sample_time 100 (PostOpenKey true (Some []) 7) = Fault OutOfBoundsRead.
Proof. vm_compute. reflexivity. Qed.

Example data_not_copied :
  RegistryCallback (mkMemory true true false true true) sample_time 100 (PreSetValueKey 7 (bs "Run") 1 (bs "x")) = Fault NullDeref.
Proof. vm_compute. reflexivity. Qed.
