(* ===== verification/FileDriver.v ===== *)
(** * The file driver (CaptureFileMonitor.c)

    The filter manager calls the driver before and after an operation on a
    file: before it the driver finds the path, keeps a copy of a file that is
    about to be deleted and makes an event; after it the event is completed and
    queued. The queue is polled through a port, which also sets the driver
    up. *)
From Stdlib Require Import ZArith Lia.
From stdpp Require Import base gmap list strings numbers.
From S2P Require Import Prelude Element Monitor Options Analyzer ProcessManager DriverEvents SystemMonitors PolledQueue.

Local Open Scope Z_scope.

(** ** Counted strings *)

(** the characters and MaximumLength, a USHORT of bytes; a string without a
    buffer has no characters *)
Record UNICODE_STRING := mkUnicode { chars : wstring; MaximumLength : Z }.

(** RtlUnicodeStringCat: what does not fit is cut off *)
Definition unicode_cat (s : UNICODE_STRING) (t : wstring) : UNICODE_STRING :=
  mkUnicode (take (Z.to_nat (MaximumLength s / 2)) (chars s ++ t)) (MaximumLength s).

(** a string of some length in new memory *)
Definition new_unicode (size : Z) : UNICODE_STRING := mkUnicode [] (u16 size).

(** ** The file system and the filter manager *)

Class NtDisk := {
  disk : Type;
  ZwCreateDirectory : wstring -> disk -> disk;             (* ZwCreateFile with FILE_DIRECTORY_FILE, the status is only logged *)
  FltCreateFile : wstring -> disk -> option disk;          (* with FILE_CREATE *)
  ZwWriteFile : wstring -> nat -> bytes -> disk -> disk;   (* at an offset; a write that fails changes nothing *)
  RtlUpcaseUnicodeChar : Z -> Z;
}.

Record FILE_NAME_INFORMATION := mkNameInformation {
  Name : wstring;
  parsed : option (UNICODE_STRING * UNICODE_STRING * UNICODE_STRING);   (* Share, ParentDir and FinalComponent, if it can be parsed *)
}.

Record FILE_OBJECT := mkFileObject { FileName : UNICODE_STRING; RelatedFileObject : bool; Flags : Z }.

(** an operation as FLT_CALLBACK_DATA and FLT_RELATED_OBJECTS describe it *)
Record operation := mkOperation {
  is_fs_filter : bool;
  MajorFunction : Z;
  MinorFunction : Z;
  FileObject : option FILE_OBJECT;
  normalized : option FILE_NAME_INFORMATION;   (* FltGetFileNameInformation, FLT_FILE_NAME_NORMALIZED *)
  opened : option FILE_NAME_INFORMATION;       (* the same, FLT_FILE_NAME_OPENED *)
  FltGetVolumeName : option wstring;
  DeleteFile : option bool;                    (* of a FileDispositionInformation *)
  is_directory : bool;                         (* what FltIsDirectory left in the variable *)
  is_synchronous : bool;
  IoVolumeDeviceToDosName : option UNICODE_STRING;
  AllocationSize : option nat;
  file_contents : bytes;                          (* the contents of the file, while it is copied *)
  readable_at : nat -> bool;                   (* whether it can be read from an offset *)
  referenced : bool;                           (* ObReferenceObjectByHandle *)
  thread_process : option Z;
  current_process : Z;
  pool_flags : Z;                              (* what fresh memory holds *)
}.

(** the allocations of the callbacks *)
Record file_memory := mkFileMemory {
  m_path : bool; m_device : bool; m_temp : bool; m_event : bool; m_packet : bool;
  m_drive : bool; m_complete : bool; m_directory : bool; m_total : bool; m_component : bool; m_buffer : bool
}.

(** ** Copies of deleted files *)

Section Copies.
Context `{NtDisk} (m : file_memory).

Definition bytes_of_chunk : nat := 65536.

(** the reads of a file of some contents *)
Definition reads (content : bytes) (off : nat) : option bytes :=
  if (off <? length content)%nat then Some (take bytes_of_chunk (drop off content)) else None.

(** FltReadFile: 65536 bytes from an offset, or to the end; none at the end or
    when the read fails *)
Definition FltReadFile (op : operation) (off : nat) : option bytes :=
  if readable_at op off then reads (file_contents op) off else None.

(** the loop of CopyFile; it ends with the file ([copy_loop_total]) *)
Fixpoint copy_loop (fuel : nat) (op : operation) (path : wstring) (offset : nat) (d : disk) : result disk :=
  match fuel with
  | O => Fault OutOfFuel
  | S fuel' =>
    match FltReadFile op offset with
    | Some (x :: b) =>
      let d := ZwWriteFile path offset (x :: b) d in
      if (length (x :: b) =? bytes_of_chunk)%nat then copy_loop fuel' op path (offset + length (x :: b)) d else Ok d
    | _ => Ok d
    end
  end.

Definition CopyFile (op : operation) (path : wstring) (d : disk) : result disk :=
  match AllocationSize op with
  | None => Ok d
  | Some _ =>
    match FltCreateFile path d with
    | None => Ok d
    | Some d => if referenced op && m_buffer m then copy_loop (S (length (file_contents op) / bytes_of_chunk)) op path 0 d else Ok d
    end
  end.

(** [\C] of [C:], the share of a volume without a letter *)
Definition GetDosDeviceName (op : operation) (pShareName : UNICODE_STRING) : UNICODE_STRING :=
  match IoVolumeDeviceToDosName op with
  | Some tempDosDrive =>
    if m_drive m
    then mkUnicode (92 :: filter (fun c => c <> 58) (chars tempDosDrive)) (u16 (MaximumLength tempDosDrive + 2))
    else mkUnicode [] (u16 (MaximumLength tempDosDrive + 2))
  | None =>
    if m_drive m then unicode_cat (mkUnicode [] (MaximumLength pShareName)) (chars pShareName)
    else mkUnicode [] (MaximumLength pShareName)
  end.

(** the loop of CreateAllDirectories; [dir] is what lies between the previous
    separator and [i] *)
Fixpoint create_loop (rest : wstring) (i : nat) (dir : wstring) (totalDirectory : UNICODE_STRING) (d : disk) : disk :=
  match rest with
  | [] => d
  | c :: rest' =>
    if (c =? 92) && negb (i =? 0)%nat then
      if m_component m then
        let totalDirectory := unicode_cat totalDirectory dir in
        create_loop rest' (S i) [c] totalDirectory (ZwCreateDirectory (chars totalDirectory) d)
      else d
    else create_loop rest' (S i) (dir ++ [c]) totalDirectory d
  end.

Definition CreateAllDirectories (pRootDirectory pDirectory : UNICODE_STRING) (d : disk) : disk :=
  if m_total m then
    create_loop (chars pDirectory) 0 []
      (unicode_cat (new_unicode (MaximumLength pRootDirectory + MaximumLength pDirectory + 2)) (chars pRootDirectory)) d
  else d.

Definition IRP_MJ_SET_INFORMATION : Z := 6.
Definition IRP_MJ_SHUTDOWN : Z := 16.

Definition being_deleted (op : operation) : bool :=
  (MajorFunction op =? IRP_MJ_SET_INFORMATION) && match DeleteFile op with Some b => b | None => false end.

(** [info] is none when the pointer was never set *)
Definition CopyFileIfBeingDeleted (op : operation) (info : option FILE_NAME_INFORMATION) (bCollectDeletedFiles : bool)
    (logDirectory : UNICODE_STRING) (d : disk) : result disk :=
  if is_directory op then Ok d
  else if being_deleted op && is_synchronous op then
    match info with
    | None => Fault UninitRead
    | Some info =>
      match parsed info with
      | None => Ok d
      | Some (Share, ParentDir, FinalComponent) =>
        if bCollectDeletedFiles then
          let fileDosDrive := GetDosDeviceName op Share in
          let completeFilePath := new_unicode (MaximumLength logDirectory + MaximumLength fileDosDrive +
            MaximumLength FinalComponent + MaximumLength ParentDir + 2) in
          let completeFilePath :=
            if m_complete m
            then unicode_cat (unicode_cat (unicode_cat (unicode_cat completeFilePath (chars logDirectory))
              (chars fileDosDrive)) (chars ParentDir)) (chars FinalComponent)
            else completeFilePath in
          let fileDirectory := new_unicode (MaximumLength ParentDir + MaximumLength fileDosDrive + 2) in
          let fileDirectory :=
            if m_directory m then unicode_cat (unicode_cat fileDirectory (chars fileDosDrive)) (chars ParentDir)
            else fileDirectory in
          CopyFile op (chars completeFilePath) (CreateAllDirectories logDirectory fileDirectory d)
        else Ok d
      end
    end
  else Ok d.
End Copies.

(** ** The driver *)

(** the queue, the events between the callbacks of an operation, the setting of
    the client and the disk *)
Record file_driver `{NtDisk} := mkFileDriver {
  file_events : queue_manager FILE_EVENT;
  pending : gmap Z FILE_EVENT;
  bCollectDeletedFiles : bool;
  logDirectory : UNICODE_STRING;
  files : disk;
}.

Section Driver.
Context `{NtDisk}.

Definition with_events (q : queue_manager FILE_EVENT) (d : file_driver) : file_driver :=
  mkFileDriver _ q (pending d) (bCollectDeletedFiles d) (logDirectory d) (files d).
Definition with_pending (p : gmap Z FILE_EVENT) (d : file_driver) : file_driver :=
  mkFileDriver _ (file_events d) p (bCollectDeletedFiles d) (logDirectory d) (files d).
Definition with_files (f : disk) (d : file_driver) : file_driver :=
  mkFileDriver _ (file_events d) (pending d) (bCollectDeletedFiles d) (logDirectory d) f.
Definition with_setup (collect : bool) (log : UNICODE_STRING) (d : file_driver) : file_driver :=
  mkFileDriver _ (file_events d) (pending d) collect log (files d).

(** RtlEqualUnicodeString with the first seven characters *)
Definition is_device (name : wstring) : bool :=
  bytes_eqb (RtlUpcaseUnicodeChar <$> take 7 name) (RtlUpcaseUnicodeChar <$> bs "\Device") && (7 <=? length name)%nat.

Definition path_limit : Z := 32767 * 2.

(** the name of the file object, below its volume if it is not complete *)
Definition object_path (m : file_memory) (op : operation) : result (option wstring) :=
  match FileObject op with
  | Some f =>
    if negb (RelatedFileObject f) && (0 <? length (chars (FileName f)))%nat then
      if negb (m_device m) then Fault NullDeref
      else if is_device (chars (FileName f)) then Ok (Some (chars (unicode_cat (mkUnicode [] path_limit) (chars (FileName f)))))
      else match FltGetVolumeName op with
      | Some volume =>
        if m_temp m then
          let szTempPath := mkUnicode volume (u16 (MaximumLength (FileName f) + 2 + 2 * Z.of_nat (length volume))) in
          if 2 * Z.of_nat (length volume) <=? MaximumLength szTempPath then
            let szTempPath := unicode_cat szTempPath (chars (FileName f)) in
            Ok (Some (chars (unicode_cat (mkUnicode [] path_limit) (chars szTempPath))))
          else Ok None
        else Ok None
      | None => Ok None
      end
    else Ok None
  | None => Ok None
  end.

(** the path from the filter manager, the copy of the file, the path from the
    file object *)
Definition find_path (m : file_memory) (op : operation) (d : file_driver) : result (wstring * file_driver) :=
  let name_of_info (info : FILE_NAME_INFORMATION) := if (0 <? length (Name info))%nat then Some (Name info) else None in
  r ← (match FileObject op, normalized op, opened op with
       | Some _, Some info, _ =>
         f ← CopyFileIfBeingDeleted m op (Some info) (bCollectDeletedFiles d) (logDirectory d) (files d);
         Ok (name_of_info info, with_files f d)
       | Some _, None, Some linfo =>
         f ← CopyFileIfBeingDeleted m op None (bCollectDeletedFiles d) (logDirectory d) (files d);
         Ok (name_of_info linfo, with_files f d)
       | _, _, _ => Ok (None, d)
       end);
  let '(found, d) := r in
  o ← (match found with Some _ => Ok found | None => object_path m op end);
  Ok (match o with Some path => path | None => bs "UNKNOWN" end, d).

Definition make_event (op : operation) (time : TIME_FIELDS) (path : wstring) : FILE_EVENT :=
  mkFileEvent (if being_deleted op then IRP_MJ_DELETE else MajorFunction op) (MinorFunction op) 0 0
    (match FileObject op with Some f => Flags f | None => pool_flags op end) time
    (match thread_process op with Some p => p | None => current_process op end) path.

Definition QueueFileEvent (m : file_memory) (now : Z) (e : FILE_EVENT) (q : queue_manager FILE_EVENT) : queue_manager FILE_EVENT :=
  if since_contact now q <=? USERSPACE_CONNECTION_TIMEOUT then
    if m_packet m then mkManager (lQueuedEvents q ++ [e]) (lastContactTime q) else q
  else q.

Definition complete (e : FILE_EVENT) (status information : Z) : FILE_EVENT :=
  mkFileEvent (f_major e) (f_minor e) status information (f_flags e) (f_time e) (f_processId e) (f_path e).

(** [pFileEvent] is the context of the operation *)
Definition PostFileOperationCallback (m : file_memory) (now : Z) (pFileEvent : option FILE_EVENT) (draining : bool)
    (status information : Z) (d : file_driver) : file_driver :=
  match pFileEvent with
  | None => d
  | Some e => if draining then d else with_events (QueueFileEvent m now (complete e status information) (file_events d)) d
  end.

(** [id] stands for the operation, whose completion gets the event; [status]
    and [information] are those of the operation at that time *)
Definition PreFileOperationCallback (m : file_memory) (now id : Z) (op : operation) (time : TIME_FIELDS)
    (status information : Z) (d : file_driver) : result file_driver :=
  if is_fs_filter op then Ok d
  else if negb (m_path m) then Ok d
  else
    r ← find_path m op d;
    let '(path, d) := r in
    if negb (m_event m) then Ok d
    else
      let e := make_event op time path in
      if MajorFunction op =? IRP_MJ_SHUTDOWN then Ok (PostFileOperationCallback m now (Some e) false status information d)
      else Ok (with_pending (<[id := e]> (pending d)) d).

(** SetupMonitor of MessageCallback: the new driver and whether it returns
    success *)
Definition SetupMonitor (memory : bool) (collect : bool) (nLogDirectorySize : Z) (wszLogDirectory : wstring) (d : file_driver)
  : file_driver * bool :=
  (if collect then
     let logDirectorySize := u16 (10 + nLogDirectorySize + 2) in
     if memory then
       with_setup collect (unicode_cat (unicode_cat (mkUnicode [] logDirectorySize) (bs "\??\")) wszLogDirectory) d
     else with_setup (bCollectDeletedFiles d) (mkUnicode [] (MaximumLength (logDirectory d))) d
   else with_setup false (mkUnicode [] (MaximumLength (logDirectory d))) d,
   false).

Definition DisconnectCallback (d : file_driver) : file_driver :=
  with_events (mkManager [] (lastContactTime (file_events d)))
    (with_setup false (mkUnicode [] (MaximumLength (logDirectory d))) d).
End Driver.

(** ** Copies: what the file system promises, and what is kept *)

(** names are compared without regard to case; [stored] is the contents of a
    file, [directory] whether there is a directory of that name *)
Class NtDiskLaws `{NtDisk} (fold : wstring -> wstring) (stored : disk -> wstring -> option bytes)
    (directory : disk -> wstring -> Prop) := {
  create_directory : forall a b d, 92 ∉ b -> directory d a -> stored d (a ++ 92 :: b) = None ->
    directory (ZwCreateDirectory (a ++ 92 :: b) d) (a ++ 92 :: b);
  create_directory_only : forall p q d, directory (ZwCreateDirectory p d) q -> directory d q \/ fold q = fold p;
  fold_length : forall p, length (fold p) = length p;
  create_directory_keeps : forall p q d, directory d q -> directory (ZwCreateDirectory p d) q;
  create_directory_stored : forall p q d, stored (ZwCreateDirectory p d) q = stored d q;
  create_file : forall a b d, 92 ∉ b -> b <> [] -> directory d a -> stored d (a ++ 92 :: b) = None ->
    ~ directory d (a ++ 92 :: b) ->
    exists d', FltCreateFile (a ++ 92 :: b) d = Some d' /\ stored d' (a ++ 92 :: b) = Some [];
  create_file_taken : forall p c d, stored d p = Some c -> FltCreateFile p d = None;
  create_file_others : forall p q d d', FltCreateFile p d = Some d' -> fold q <> fold p -> stored d' q = stored d q;
  create_file_directory : forall p q d d', FltCreateFile p d = Some d' -> directory d q -> directory d' q;
  write_file_directory : forall p off b q d, directory d q -> directory (ZwWriteFile p off b d) q;
  write_file : forall p c b d, stored d p = Some c -> stored (ZwWriteFile p (length c) b d) p = Some (c ++ b);
  write_file_others : forall p off b q d, fold q <> fold p -> stored (ZwWriteFile p off b d) q = stored d q;
}.

(** [\a\b] of its components *)
Definition joined (comps : list wstring) : wstring := concat ((fun c => 92 :: c) <$> comps).

Lemma joined_cons c comps : joined (c :: comps) = 92 :: c ++ joined comps.
Proof. done. Qed.

Lemma joined_snoc comps c : joined (comps ++ [c]) = joined comps ++ 92 :: c.
Proof. unfold joined. rewrite fmap_app, concat_app. cbn. by rewrite app_nil_r. Qed.

Lemma joined_app a b : joined (a ++ b) = joined a ++ joined b.
Proof. unfold joined. by rewrite fmap_app, concat_app. Qed.

Lemma unicode_cat_fits s t :
  2 * Z.of_nat (length (chars s ++ t)) <= MaximumLength s -> chars (unicode_cat s t) = chars s ++ t.
Proof. intros L. cbn. apply take_ge. Z.div_mod_to_equations. lia. Qed.

#[local] Opaque bytes_of_chunk.

Section Kept.
Context `{NtDiskLaws fold stored directory}.

Lemma create_loop_skip m c rest : forall i dir total d,
  92 ∉ c -> create_loop m (c ++ rest) i dir total d = create_loop m rest (length c + i) (dir ++ c) total d.
Proof.
  induction c as [|x c IH]; intros i dir total d N; [by rewrite app_nil_r |].
  apply not_elem_of_cons in N as [Nx N]. cbn [app create_loop length]. rewrite (proj2 (Z.eqb_neq x 92)) by done. cbn [andb].
  rewrite IH by done. rewrite <- app_assoc. cbn [app]. f_equal. lia.
Qed.

Lemma created_longer p q d : (length p < length q)%nat -> directory (ZwCreateDirectory p d) q -> directory d q.
Proof.
  intros L D. destruct (create_directory_only p q d D) as [|E]; [done |].
  apply (f_equal length) in E. rewrite !fold_length in E. lia.
Qed.

(** the directories of a path below an existing one are all made *)
Lemma create_loop_spec m max comps : forall c i total d,
  m_component m = true -> (0 < i)%nat -> Forall (fun c => 92 ∉ c) (c :: comps) ->
  2 * Z.of_nat (length (total ++ joined (c :: comps))) <= max ->
  directory d total -> (forall k, stored d (total ++ joined (take (S k) (c :: comps))) = None) ->
  let d' := create_loop m (c ++ joined comps ++ [92]) i [92] (mkUnicode total max) d in
  (forall k, directory d' (total ++ joined (take (S k) (c :: comps)))) /\ (forall q, directory d q -> directory d' q) /\
  (forall q, stored d' q = stored d q) /\
  (forall q, (length (total ++ joined (c :: comps)) < length q)%nat -> directory d' q -> directory d q).
Proof.
  induction comps as [|c2 comps IH]; intros c i total d M I F L D N; apply list.Forall_cons in F as [Fc F];
    rewrite create_loop_skip by done; cbn zeta.
  - pose proof (N 0%nat) as N0. change (take 1 [c]) with [c] in N0. change (joined [c]) with (92 :: c ++ []) in *.
    rewrite app_nil_r in *. change (joined []) with ([] : wstring). cbn [app create_loop Z.eqb Pos.eqb andb].
    rewrite (proj2 (Nat.eqb_neq _ 0)) by lia. cbn [negb]. rewrite M, unicode_cat_fits by exact L. cbn [chars].
    split_and!; [| intros q; by apply create_directory_keeps | intros q; by rewrite create_directory_stored |].
    + intros k. rewrite take_ge by (cbn [length]; lia). change (joined [c]) with (92 :: c ++ []). rewrite app_nil_r. by apply create_directory.
    + intros q Lq Dq. by eapply created_longer in Dq.
  - change (joined (c2 :: comps)) with (92 :: c2 ++ joined comps) in *. cbn [app create_loop Z.eqb Pos.eqb andb].
    rewrite (proj2 (Nat.eqb_neq _ 0)) by lia. cbn [negb]. rewrite M.
    assert (L' : 2 * Z.of_nat (length (total ++ 92 :: c)) <= max).
    { etrans; [| exact L]. rewrite joined_cons, !length_app. cbn [length]. rewrite length_app. lia. }
    assert (Ec : unicode_cat (mkUnicode total max) (92 :: c) = mkUnicode (total ++ 92 :: c) max).
    { pose proof (unicode_cat_fits (mkUnicode total max) (92 :: c) L') as E. cbn [chars] in E.
      unfold unicode_cat in *. cbn [chars MaximumLength] in *. by rewrite E. }
    rewrite Ec. cbn [chars].
    pose proof (N 0%nat) as N0. change (take 1 (c :: c2 :: comps)) with [c] in N0.
    change (joined [c]) with (92 :: c ++ []) in N0. rewrite app_nil_r in N0.
    assert (Ej : forall l, (total ++ 92 :: c) ++ joined l = total ++ joined (c :: l)).
    { intros l. rewrite joined_cons, <- app_assoc. done. }
    destruct (IH c2 (S (length c + i)) (total ++ 92 :: c) (ZwCreateDirectory (total ++ 92 :: c) d) M) as (D' & K' & S' & U').
    + lia.
    + done.
    + by rewrite Ej.
    + by apply create_directory.
    + intros k. rewrite create_directory_stored, Ej. exact (N (S k)).
    + rewrite <- app_assoc. split_and!;
        [| intros q Dq; by apply K', create_directory_keeps | intros q; by rewrite S', create_directory_stored |].
      { intros [|k]; [| specialize (D' k); rewrite Ej in D'; exact D']. apply K'.
        change (take 1 (c :: c2 :: comps)) with [c]. change (joined [c]) with (92 :: c ++ []). rewrite app_nil_r. by apply create_directory. }
      intros q Lq Dq. apply U' in Dq; [| by rewrite Ej].
      eapply created_longer in Dq; [exact Dq |]. eapply Nat.le_lt_trans; [| exact Lq].
      rewrite joined_cons, !length_app. cbn [length]. rewrite length_app. lia.
Qed.

(** the loop copies the whole file, whatever its length *)
Lemma copy_loop_spec op path content : file_contents op = content -> (forall off, readable_at op off = true) -> forall fuel off d,
  stored d path = Some (take off content) -> (off <= length content)%nat ->
  ((length content - off) / bytes_of_chunk < fuel)%nat ->
  exists d', copy_loop fuel op path off d = Ok d' /\ stored d' path = Some content /\
    (forall q, fold q <> fold path -> stored d' q = stored d q) /\ (forall q, directory d q -> directory d' q).
Proof.
  intros Fb Ra. assert (R : forall off, FltReadFile op off = reads content off) by (intros; unfold FltReadFile; by rewrite Ra, Fb). assert (P : (0 < bytes_of_chunk)%nat) by (apply Nat.ltb_lt; with_strategy transparent [bytes_of_chunk] vm_compute; reflexivity).
  induction fuel as [|fuel IH]; intros off d E Lo Lf; [lia |]. cbn [copy_loop]. rewrite R. unfold reads.
  destruct (Nat.ltb_spec off (length content)) as [Lt|Ge].
  2:{ exists d. split_and!; [done | by rewrite take_ge in E by lia | done | done]. }
  set (b := take bytes_of_chunk (drop off content)).
  assert (Lb : length b = (bytes_of_chunk `min` (length content - off))%nat)
    by (unfold b; rewrite length_take, length_drop; reflexivity).
  destruct b as [|x b'] eqn:B; [cbn [length] in Lb; lia |]. rewrite <- B in *.
  assert (W : stored (ZwWriteFile path off b d) path = Some (take (off + length b) content)).
  { replace off with (length (take off content)) at 1 by (rewrite length_take; lia). rewrite (write_file _ _ _ _ E).
    f_equal. rewrite Lb. rewrite <- (take_drop off content) at 3. rewrite take_app_add' by (rewrite length_take; lia).
    f_equal. unfold b. destruct (Nat.min_spec bytes_of_chunk (length content - off)) as [[? ->]|[? ->]]; [done |].
    rewrite !take_ge by (rewrite length_drop; lia). done. }
  destruct (Nat.eqb_spec (length b) bytes_of_chunk) as [Q|Q].
  - destruct (IH (off + length b)%nat (ZwWriteFile path off b d) W) as (d' & Ed & Ec & Eo & Ek); [lia | |].
    { rewrite Q. replace (length content - off)%nat with ((length content - (off + bytes_of_chunk)) + 1 * bytes_of_chunk)%nat in Lf by lia.
      rewrite Nat.div_add in Lf by lia. lia. }
    exists d'. split_and!; [done | done | |].
    + intros q Nq. rewrite Eo by done. by apply write_file_others.
    + intros q Dq. by apply Ek, write_file_directory.
  - eexists. split_and!; [done | | intros q Nq; by apply write_file_others | intros q Dq; by apply write_file_directory].
    rewrite W. f_equal. apply take_ge. lia.
Qed.
End Kept.

Definition enough : file_memory := mkFileMemory true true true true true true true true true true true.

(** where the copy of [C:\a\b.txt] goes *)
Definition backup_path (log : wstring) (letter : Z) (dirs : list wstring) (final : wstring) : wstring :=
  log ++ joined ([letter] :: dirs) ++ 92 :: final.

(** a file on a drive, about to be deleted, whose contents can be read *)
Record deletion (op : operation) (info : FILE_NAME_INFORMATION) (letter : Z) (dirs : list wstring) (final : wstring)
    (content : bytes) (mx mp mf : Z) : Prop := {
  dl_deleted : being_deleted op = true;
  dl_file : is_directory op = false;
  dl_synchronous : is_synchronous op = true;
  dl_referenced : referenced op = true;
  dl_size : AllocationSize op <> None;
  dl_content : file_contents op = content;
  dl_readable : forall off, readable_at op off = true;
  dl_drive : IoVolumeDeviceToDosName op = Some (mkUnicode [letter; 58] mx);
  dl_parsed : exists share, parsed info = Some (share, mkUnicode (joined dirs ++ [92]) mp, mkUnicode final mf);
  dl_letter : letter <> 58 /\ letter <> 92;
  dl_dirs : Forall (fun c => 92 ∉ c) dirs;
  dl_final : 92 ∉ final /\ final <> [];
  dl_lengths : 4 <= mx /\ 2 * Z.of_nat (length (joined dirs) + 1) <= mp /\ 2 * Z.of_nat (length final) <= mf;
}.

Section Backup.
Context `{NtDiskLaws fold stored directory}.

Lemma new_unicode_max size : 0 <= size < 65536 -> new_unicode size = mkUnicode [] size.
Proof. intros. unfold new_unicode, u16. by rewrite Z.mod_small. Qed.

Lemma unicode_cat_mk a max t :
  2 * Z.of_nat (length a + length t) <= max -> unicode_cat (mkUnicode a max) t = mkUnicode (a ++ t) max.
Proof.
  intros L. rewrite <- length_app in L. pose proof (unicode_cat_fits (mkUnicode a max) t L) as E.
  unfold unicode_cat in *. cbn [chars MaximumLength] in *. by rewrite E.
Qed.

Lemma CreateAllDirectories_spec log ml mf c comps d :
  Forall (fun c => 92 ∉ c) (c :: comps) -> 2 * Z.of_nat (length log) <= ml ->
  2 * Z.of_nat (length (joined (c :: comps)) + 1) <= mf -> ml + mf + 2 < 65536 ->
  directory d log -> (forall k, stored d (log ++ joined (take (S k) (c :: comps))) = None) ->
  let d' := CreateAllDirectories enough (mkUnicode log ml) (mkUnicode (joined (c :: comps) ++ [92]) mf) d in
  (forall k, directory d' (log ++ joined (take (S k) (c :: comps)))) /\ (forall q, stored d' q = stored d q) /\
  (forall q, (length (log ++ joined (c :: comps)) < length q)%nat -> directory d' q -> directory d q).
Proof.
  intros F Ll Lf B D N. unfold CreateAllDirectories. cbn [m_total enough chars MaximumLength].
  assert (Eu : unicode_cat (new_unicode (ml + mf + 2)) log = mkUnicode log (ml + mf + 2)).
  { rewrite new_unicode_max, unicode_cat_mk by (cbn [length]; lia). done. }
  assert (Ec : forall u, create_loop enough (joined (c :: comps) ++ [92]) 0 [] u d =
    create_loop enough (c ++ joined comps ++ [92]) 1 [92] u d).
  { intros u. rewrite app_assoc. done. }
  rewrite Eu, Ec. destruct (create_loop_spec enough (ml + mf + 2) comps c 1 log d) as (D' & _ & S' & U');
    [done | lia | done | rewrite length_app; lia | done | done | done].
Qed.

(** the directories exist after their creation, so the file can be made; a
    copy that is there already stays *)
Lemma CopyFile_spec op a b content d :
  referenced op = true -> AllocationSize op <> None -> file_contents op = content -> (forall off, readable_at op off = true) ->
  92 ∉ b -> b <> [] -> directory d a -> ~ directory d (a ++ 92 :: b) ->
  exists d', CopyFile enough op (a ++ 92 :: b) d = Ok d' /\
    stored d' (a ++ 92 :: b) = Some (default content (stored d (a ++ 92 :: b))) /\
    (forall q, fold q <> fold (a ++ 92 :: b) -> stored d' q = stored d q) /\ (forall q, directory d q -> directory d' q).
Proof.
  intros Rf Es Fb Ra Nb Eb D Nd. unfold CopyFile. destruct (AllocationSize op); [clear Es | done]. rewrite Rf. cbn [m_buffer enough andb].
  destruct (stored d (a ++ 92 :: b)) as [old|] eqn:O.
  - rewrite (create_file_taken _ _ _ O). exists d. by rewrite O.
  - destruct (create_file a b d Nb Eb D O Nd) as (d1 & E1 & S1). rewrite E1.
    destruct (copy_loop_spec op (a ++ 92 :: b) content Fb Ra (S (length (file_contents op) / bytes_of_chunk)) 0 d1) as (d2 & E2 & S2 & O2 & K2).
    + by rewrite take_0.
    + lia.
    + rewrite Nat.sub_0_r, Fb. lia.
    + exists d2. split_and!; [done | done | |].
      * intros q Nq. rewrite O2 by done. exact (create_file_others _ _ _ _ E1 Nq).
      * intros q Dq. by apply K2, (create_file_directory _ _ _ _ E1).
Qed.
End Backup.

(** C38: A file on a lettered drive that is about to be deleted, by a
    synchronous operation, is kept when collecting is on: on a file system that makes
    directories and files as documented, below the log directory are then the
    directories of its drive and path, each of them, and a copy with exactly its
    contents, whatever their length, unless a file of that name was kept before, which
    stays; no other file changes. Assumed: the name is normalized and can be parsed, every
    allocation succeeds, the file can be read and does not change meanwhile, the log directory exists, no
    file stands where a directory is to be made and no directory where the copy is to be, and the
    lengths of the strings add up to less than 64 KiB, the range of a USHORT. *)
Theorem deleted_file_kept `{NtDiskLaws fold stored directory} op info letter dirs final content mx mp mf log ml d :
  deletion op info letter dirs final content mx mp mf ->
  2 * Z.of_nat (length log) <= ml -> ml + mx + mp + mf + 6 < 65536 ->
  directory d log -> (forall k, stored d (log ++ joined (take (S k) ([letter] :: dirs))) = None) ->
  ~ directory d (backup_path log letter dirs final) ->
  exists d', CopyFileIfBeingDeleted enough op (Some info) true (mkUnicode log ml) d = Ok d' /\
    stored d' (backup_path log letter dirs final) = Some (default content (stored d (backup_path log letter dirs final))) /\
    (forall k, directory d' (log ++ joined (take (S k) ([letter] :: dirs)))) /\
    forall q, fold q <> fold (backup_path log letter dirs final) -> stored d' q = stored d q.
Proof.
  intros [Dd Df Ds Dr Dz Dc Dx Dv [share Dp] [L1 L2] Fd [Nf Ef] (B1 & B2 & B3)] Bl B D N Nd.
  unfold CopyFileIfBeingDeleted. rewrite Df, Dd, Ds, Dp. cbn [andb].
  assert (G : GetDosDeviceName enough op share = mkUnicode [92; letter] (mx + 2)).
  { unfold GetDosDeviceName. rewrite Dv. cbn [m_drive enough chars MaximumLength].
    rewrite filter_cons_True by done. rewrite filter_cons_False by (intros Q; by apply Q). f_equal. unfold u16. apply Z.mod_small. lia. }
  rewrite G. cbn [m_complete m_directory enough chars MaximumLength].
  assert (Ej : [92; letter] ++ joined dirs ++ [92] = joined ([letter] :: dirs) ++ [92]) by done.
  assert (Lj : length (joined ([letter] :: dirs)) = (2 + length (joined dirs))%nat) by done.
  assert (Ef' : chars (unicode_cat (unicode_cat (unicode_cat (unicode_cat (new_unicode (ml + (mx + 2) + mf + mp + 2)) log)
    [92; letter]) (joined dirs ++ [92])) final) = backup_path log letter dirs final).
  { rewrite new_unicode_max by lia. rewrite !unicode_cat_mk by (rewrite ?length_app; cbn [length]; lia).
    unfold backup_path. cbn [chars app]. by rewrite joined_cons, <- !app_assoc. }
  assert (Ed : unicode_cat (unicode_cat (new_unicode (mp + (mx + 2) + 2)) [92; letter]) (joined dirs ++ [92]) =
    mkUnicode (joined ([letter] :: dirs) ++ [92]) (mp + mx + 4)).
  { rewrite new_unicode_max by lia. rewrite !unicode_cat_mk by (rewrite ?length_app; cbn [length]; lia). f_equal. lia. }
  rewrite Ef', Ed.
  destruct (CreateAllDirectories_spec log ml (mp + mx + 4) [letter] dirs d) as (D1 & S1 & U1);
    [| done | rewrite Lj; lia | lia | done | done |].
  { constructor; [| done]. intros Q. apply list_elem_of_singleton in Q. done. }
  set (d1 := CreateAllDirectories _ _ _ _) in *. unfold backup_path in *. rewrite app_assoc in *.
  assert (Dlast : directory d1 (log ++ joined ([letter] :: dirs))).
  { specialize (D1 (length dirs)). by rewrite take_ge in D1 by (cbn [length]; lia). }
  destruct (CopyFile_spec op (log ++ joined ([letter] :: dirs)) final content d1) as (d' & E' & S' & O' & K'); try done.
  { intros Q. apply Nd. apply U1; [| done]. rewrite !length_app. cbn [length]. lia. }
  exists d'. rewrite S1 in S'. split_and!; [done | done | intros k; by apply K' |]. intros q Nq. rewrite O' by done. apply S1.
Qed.

(** ** The driver and the file monitor *)

(** an operation starts or is completed, the client asks, the timer ticks, the
    client sets the driver up or goes away *)
Inductive file_step :=
  | PreOperation (now id : Z) (m : file_memory) (op : operation) (time : TIME_FIELDS) (status information : Z)
  | PostOperation (now id : Z) (m : file_memory) (status information : Z) (draining : bool)
  | FileRequest (now : Z)
  | FileTimer (now : Z)
  | Setup (memory collect : bool) (size : Z) (dir : wstring)
  | Disconnect.

Section Pipeline.
Context `{NtDisk} {St : Type} (body : FILE_EVENT -> St -> result St) (bufferSpace : nat).

Definition file_do (x : file_step) (d : file_driver) (s : St) : result (file_driver * St) :=
  match x with
  | PreOperation now id m op time status information =>
    d ← PreFileOperationCallback m now id op time status information d; Ok (d, s)
  | PostOperation now id m status information draining =>
    let d' := PostFileOperationCallback m now (pending d !! id) draining status information d in
    Ok (with_pending (delete id (pending d)) d', s)
  | FileRequest now => r ← driver_request body bufferSpace now (file_events d) s; Ok (with_events r.1 d, r.2)
  | FileTimer now => Ok (with_events (ConnectionChecker now (file_events d)) d, s)
  | Setup memory collect size dir => Ok ((SetupMonitor memory collect size dir d).1, s)
  | Disconnect => Ok (DisconnectCallback d, s)
  end.

Fixpoint file_run (xs : list file_step) (d : file_driver) (s : St) : result (file_driver * St) :=
  match xs with
  | [] => Ok (d, s)
  | x :: xs' => r ← file_do x d s; file_run xs' r.1 r.2
  end.
End Pipeline.

(** the file monitor, with what it reported so far *)
Definition file_body `{Processes} (env : environment) (allowed : kind -> wstring -> wstring -> wstring -> result bool)
    (e : FILE_EVENT) (s : monitors * list system_event) : result (monitors * list system_event) :=
  r ← file_record env allowed e s.1; Ok (r.1, s.2 ++ r.2).

(** *** What the driver should hand over *)

Section Promise.
Context `{NtDisk}.

Definition name_of_info (info : FILE_NAME_INFORMATION) : option wstring :=
  match Name info with [] => None | name => Some name end.

(** the name the filter manager knows, or the file object's *)
Definition operation_path (op : operation) : wstring :=
  match FileObject op with
  | None => bs "UNKNOWN"
  | Some f =>
    let name := chars (FileName f) in
    match match normalized op with Some i => name_of_info i | None => opened op ≫= name_of_info end with
    | Some path => path
    | None =>
      if RelatedFileObject f || bytes_eqb name [] then bs "UNKNOWN"
      else if is_device name then name
      else match FltGetVolumeName op with Some volume => volume ++ name | None => bs "UNKNOWN" end
    end
  end.

Definition file_event_of (op : operation) (time : TIME_FIELDS) : FILE_EVENT := make_event op time (operation_path op).

(** the queue's view: an event is offered when its operation is completed *)
Fixpoint trace (p : gmap Z FILE_EVENT) (xs : list file_step) : list (queue_step FILE_EVENT) :=
  match xs with
  | [] => []
  | PreOperation now id _ op time status information :: xs' =>
    if is_fs_filter op then trace p xs'
    else if MajorFunction op =? IRP_MJ_SHUTDOWN
    then Offer now (complete (file_event_of op time) status information) :: trace p xs'
    else trace (<[id := file_event_of op time]> p) xs'
  | PostOperation now id _ status information draining :: xs' =>
    match p !! id with
    | Some e =>
      if draining then trace (delete id p) xs'
      else Offer now (complete e status information) :: trace (delete id p) xs'
    | None => trace (delete id p) xs'
    end
  | FileRequest now :: xs' => Ask now :: trace p xs'
  | FileTimer now :: xs' => Tick now :: trace p xs'
  | Setup _ _ _ _ :: xs' => trace p xs'
  | Disconnect :: xs' => trace p xs'
  end.

(** names within their lengths, and no deletion of a file whose name cannot be
    normalized *)
Definition operation_ok (op : operation) : Prop :=
  (normalized op = None -> opened op <> None -> being_deleted op && is_synchronous op = true -> is_directory op = true) /\
  (forall f, FileObject op = Some f -> 2 * Z.of_nat (length (chars (FileName f))) <= MaximumLength (FileName f) /\
     MaximumLength (FileName f) < 65536 /\
     forall volume, FltGetVolumeName op = Some volume -> MaximumLength (FileName f) + 2 + 2 * Z.of_nat (length volume) < 65536).

Definition file_step_ok (x : file_step) : Prop :=
  match x with
  | PreOperation _ _ m op _ _ _ => m = enough /\ operation_ok op
  | PostOperation _ _ m _ _ _ => m = enough
  | Disconnect => False
  | _ => True
  end.

(** the loop ends, whatever the file holds and however the reads end *)
Lemma copy_loop_total op path : forall fuel off d,
  ((length (file_contents op) - off) / bytes_of_chunk < fuel)%nat -> is_ok (copy_loop fuel op path off d).
Proof.
  assert (P : (0 < bytes_of_chunk)%nat)
    by (apply Nat.ltb_lt; with_strategy transparent [bytes_of_chunk] vm_compute; reflexivity).
  induction fuel as [|fuel IH]; intros off d Lf; [lia |]. cbn [copy_loop]. unfold FltReadFile, reads. set (content := file_contents op) in *.
  destruct (readable_at op off); [| done].
  destruct (Nat.ltb_spec off (length content)) as [Lt|Ge]; [| done].
  destruct (take bytes_of_chunk (drop off content)) as [|x b] eqn:B; [done |].
  apply (f_equal length) in B. rewrite length_take, length_drop in B.
  destruct (Nat.eqb_spec (length (x :: b)) bytes_of_chunk) as [Q|Q]; [| done]. apply IH. rewrite Q in *.
  replace (length content - off)%nat with ((length content - (off + bytes_of_chunk)) + 1 * bytes_of_chunk)%nat in Lf by lia.
  rewrite Nat.div_add in Lf by lia. lia.
Qed.

Lemma CopyFile_total m op path d : is_ok (CopyFile m op path d).
Proof.
  unfold CopyFile. destruct (AllocationSize op); [| done]. destruct (FltCreateFile path d) as [d1|]; [| done].
  destruct (_ && _); [| done]. apply copy_loop_total. rewrite Nat.sub_0_r. lia.
Qed.

Lemma CopyFileIfBeingDeleted_total op info collect log d :
  (info = None -> being_deleted op && is_synchronous op = true -> is_directory op = true) ->
  is_ok (CopyFileIfBeingDeleted enough op info collect log d).
Proof.
  intros N. unfold CopyFileIfBeingDeleted. destruct (is_directory op); [done |].
  destruct (being_deleted op && is_synchronous op); [| done]. destruct info as [info|]; [| by specialize (N eq_refl eq_refl)].
  destruct (parsed info) as [[[share parent] final]|]; [| done]. destruct collect; [| done]. apply CopyFile_total.
Qed.

Lemma object_path_spec op f :
  operation_ok op -> FileObject op = Some f ->
  object_path enough op = Ok (
    if RelatedFileObject f || bytes_eqb (chars (FileName f)) [] then None
    else if is_device (chars (FileName f)) then Some (chars (FileName f))
    else (fun volume => volume ++ chars (FileName f)) <$> FltGetVolumeName op).
Proof.
  intros (_ & B) F. destruct (B f F) as (B1 & B2 & B3). unfold object_path. rewrite F.
  assert (E : (0 <? length (chars (FileName f)))%nat = negb (bytes_eqb (chars (FileName f)) [])).
  { by destruct (chars (FileName f)). }
  rewrite E. destruct (RelatedFileObject f), (bytes_eqb _ []); cbn [negb andb orb m_device enough]; try done.
  destruct (is_device _).
  { rewrite unicode_cat_mk; [done |]. cbn [length]. unfold path_limit. lia. }
  destruct (FltGetVolumeName op) as [volume|]; [| done]. specialize (B3 volume eq_refl). cbn [m_temp enough MaximumLength].
  assert (U : u16 (MaximumLength (FileName f) + 2 + 2 * Z.of_nat (length volume)) =
    MaximumLength (FileName f) + 2 + 2 * Z.of_nat (length volume)) by (unfold u16; apply Z.mod_small; lia).
  rewrite U, (proj2 (Z.leb_le _ _)) by lia. rewrite (unicode_cat_mk volume) by lia. cbn [chars].
  rewrite unicode_cat_mk; [done |]. rewrite length_app. cbn [length]. unfold path_limit. lia.
Qed.

Lemma find_path_spec op d :
  operation_ok op -> exists f, find_path enough op d = Ok (operation_path op, with_files f d).
Proof.
  intros O. unfold find_path, operation_path.
  destruct (FileObject op) as [fo|] eqn:F.
  2:{ exists (files d). unfold object_path. rewrite F. by destruct d. }
  assert (N : forall i, (if (0 <? length (Name i))%nat then Some (Name i) else None) = name_of_info i).
  { intros i. unfold name_of_info. by destruct (Name i). }
  set (fallback := if RelatedFileObject fo || bytes_eqb (chars (FileName fo)) [] then bs "UNKNOWN" else _).
  assert (P : forall o, (o' ← match o with Some _ => Ok o | None => object_path enough op end;
    Ok (match o' with Some path => path | None => bs "UNKNOWN" end)) = Ok (match o with Some path => path | None => fallback end)).
  { intros [path|]; [done |]. rewrite (object_path_spec op fo O F). cbn [mbind result_bind]. unfold fallback.
    destruct (_ || _); [done |]. destruct (is_device _); [done |]. by destruct (FltGetVolumeName op). }
  assert (T : forall info o, (info = None -> being_deleted op && is_synchronous op = true -> is_directory op = true) ->
    exists f, (r ← (f ← CopyFileIfBeingDeleted enough op info (bCollectDeletedFiles d) (logDirectory d) (files d);
      Ok (o, with_files f d));
      let '(found, d) := r in
      o ← (match found with Some _ => Ok found | None => object_path enough op end);
      Ok (match o with Some path => path | None => bs "UNKNOWN" end, d)) =
      Ok (match o with Some path => path | None => fallback end, with_files f d)).
  { intros info o Hi. pose proof (CopyFileIfBeingDeleted_total op info (bCollectDeletedFiles d) (logDirectory d) (files d) Hi) as K.
    destruct (CopyFileIfBeingDeleted _ _ _ _ _ _) as [f|]; [| done]. exists f. cbn [mbind result_bind]. specialize (P o).
    destruct (match o with Some _ => Ok o | None => _ end) as [o'|]; [| done]. cbn [mbind result_bind] in *. by injection P as ->. }
  destruct (normalized op) as [i|] eqn:Ni.
  - destruct (T (Some i) (name_of_info i)) as [f Ef]; [done |]. exists f. by rewrite N, Ef.
  - destruct (opened op) as [i|] eqn:Oi.
    + destruct (T None (name_of_info i)) as [f Ef]; [intros _; by apply (proj1 O); [| rewrite Oi] |]. exists f. by rewrite N, Ef.
    + exists (files d). specialize (P None). cbn [mbind result_bind option_bind] in *.
      destruct (object_path enough op); [| done]. cbn [mbind result_bind] in *. injection P as ->. by destruct d.
Qed.

Lemma queue_offer now e q : QueueFileEvent enough now e q = enqueue now e q.
Proof. unfold QueueFileEvent, enqueue. by destruct (_ <=? _). Qed.

(** a step of the driver is none or one of the queue *)
Lemma file_step_queue {St} (body : FILE_EVENT -> St -> result St) bufferSpace x xs d :
  file_step_ok x -> exists ys d',
    trace (pending d) (x :: xs) = ys ++ trace (pending d') xs /\
    forall s, file_do body bufferSpace x d s =
      (r ← queue_run body bufferSpace ys (file_events d) s; Ok (with_events r.1 d', r.2)).
Proof.
  intros K. destruct x as [now id m op time st inf|now id m st inf draining|now|now|mem collect size dir|]; cbn [trace file_do].
  - destruct K as [-> O]. unfold PreFileOperationCallback. destruct (is_fs_filter op); [exists [], d; by destruct d |].
    cbn [m_path m_event enough negb]. destruct (find_path_spec op d O) as [f ->]. cbn [mbind result_bind].
    fold (file_event_of op time). destruct (MajorFunction op =? IRP_MJ_SHUTDOWN).
    + exists [Offer now (complete (file_event_of op time) st inf)], (with_files f d). split; [done |]. intros s. cbn [PostFileOperationCallback]. by rewrite queue_offer.
    + exists [], (with_pending (<[id := file_event_of op time]> (pending d)) (with_files f d)). by split.
  - cbn in K. subst m. destruct (pending d !! id) as [e|]; [destruct draining |]; cbn [PostFileOperationCallback].
    + exists [], (with_pending (delete id (pending d)) d). by split.
    + exists [Offer now (complete e st inf)], (with_pending (delete id (pending d)) d). split; [done |]. intros s. by rewrite queue_offer.
    + exists [], (with_pending (delete id (pending d)) d). by split.
  - exists [Ask now], d. split; [done |]. intros s. rewrite queue_run_one. cbn [queue_do].
    by destruct (driver_request body bufferSpace now (file_events d) s) as [[]|].
  - exists [Tick now], d. by split.
  - exists [], (SetupMonitor mem collect size dir d).1. unfold SetupMonitor. cbn [fst].
    destruct collect, mem; by split.
  - done.
Qed.

(** the driver is a queue of its events *)
Lemma file_queue {St} (body : FILE_EVENT -> St -> result St) bufferSpace xs : forall d s,
  Forall file_step_ok xs -> exists d', file_run body bufferSpace xs d s =
    (r ← queue_run body bufferSpace (trace (pending d) xs) (file_events d) s; Ok (with_events r.1 d', r.2)).
Proof.
  induction xs as [|x xs IH]; intros d s F; [exists d; by destruct d |]. apply list.Forall_cons in F as [K F].
  destruct (file_step_queue body bufferSpace x xs d K) as (ys & d1 & -> & D). cbn [file_run]. rewrite D, queue_run_app.
  destruct (queue_run body bufferSpace ys (file_events d) s) as [[q1 s1]|]; [| by exists d].
  cbn [mbind result_bind fst snd]. destruct (IH (with_events q1 d1) s1 F) as [d' E]. by exists d'.
Qed.

Lemma trace_requests n now xs : forall p,
  trace p (xs ++ replicate n (FileRequest now)) = trace p xs ++ replicate n (Ask now).
Proof.
  induction xs as [|x xs IH]; intros p; cbn [app trace].
  { revert p. induction n as [|n IH]; intros p; [done |]. cbn [replicate trace]. by rewrite IH. }
  destruct x as [now' id m op time st inf|now' id m st inf draining|now'|now'|mem collect size dir|]; rewrite ?IH; try done.
  - destruct (is_fs_filter op); [done |]. by destruct (_ =? _).
  - destruct (p !! id); [| done]. by destruct draining.
Qed.
End Promise.

(** what the monitor makes of the events *)
Lemma file_body_all `{Processes} env allowed es : forall st out,
  handle_events (file_body env allowed) es (st, out) =
  (r ← observe_all env allowed (FileEntry <$> es) st; Ok (r.1, out ++ r.2)).
Proof.
  induction es as [|e es IH]; intros st out; cbn [handle_events fmap list_fmap observe_all observe].
  { cbn. by rewrite app_nil_r. }
  change (file_body env allowed e (st, out)) with (r ← file_record env allowed e st; Ok (r.1, out ++ r.2)).
  destruct (file_record env allowed e st) as [[st1 o1]|]; [| done].
  cbn [mbind result_bind fst snd]. rewrite IH.
  destruct (observe_all env allowed (FileEntry <$> es) st1) as [[st2 o2]|]; [| done].
  cbn [mbind result_bind fst snd]. by rewrite app_assoc.
Qed.

(** C33: The file monitor from the operation to the report: for any interleaving of
    starts and completions of operations with requests, timer ticks and
    settings, the monitor sees the events of exactly the operations completed at most
    ten seconds after a request, each once, in the order of completion, with the path, time and process found
    when it started and the status it ended with, and reports what it makes of
    them ([observe_all]): it reports reading, writing, deleting, creating and opening, the last two not for
    streams, unless the path is unknown or its exclusions allow the event, and
    it does not tell the status. Operations of file-system filters, and those drained, make no event. Assumed:
    every allocation succeeds, names keep to their lengths, no file is deleted
    whose name cannot be normalized ([operation_ok]), the client stays connected and asks
    within the timer's limit, and its buffer takes every single event. *)
Theorem file_pipeline `{NtDisk} `{Processes} env allowed bufferSpace xs n now d st :
  let es := accepted (lastContactTime (file_events d)) (trace (pending d) xs) in
  lQueuedEvents (file_events d) = [] -> Forall file_step_ok xs -> in_contact (lastContactTime (file_events d)) (trace (pending d) xs) ->
  Forall (event_fits file_ok bufferSpace) es -> (length es <= n)%nat -> (0 < n)%nat ->
  exists d', file_events d' = mkManager [] now /\
    file_run (file_body env allowed) bufferSpace (xs ++ replicate n (FileRequest now)) d (st, []) =
      (r ← observe_all env allowed (FileEntry <$> es) st; Ok (d', r)).
Proof.
  intros es Q F C B L P.
  destruct (file_queue (file_body env allowed) bufferSpace (xs ++ replicate n (FileRequest now)) d (st, [])) as [d' R].
  { apply Forall_app; split; [done | by apply Forall_replicate]. }
  exists (with_events (mkManager [] now) d'). split; [done |]. rewrite R, trace_requests.
  destruct (file_events d) as [q last] eqn:Ed. cbn [lQueuedEvents lastContactTime] in *. subst q.
  rewrite queue_flush by done. fold es. rewrite file_body_all. by destruct (observe_all _ _ _ _) as [[]|].
Qed.

(** ** A session to run *)

#[local] Existing Instance Machine.

(** a disk of directories and files *)
Definition MapDisk : NtDisk := {|
  disk := gmap wstring (option bytes);
  ZwCreateDirectory := fun p d => match d !! p with None => <[p := None]> d | Some _ => d end;
  FltCreateFile := fun p d => match d !! p with None => Some (<[p := Some []]> d) | Some _ => None end;
  ZwWriteFile := fun p off b d => match d !! p with Some (Some c) => <[p := Some (take off c ++ b)]> d | _ => d end;
  RtlUpcaseUnicodeChar := fun c => if (97 <=? c) && (c <=? 122) then c - 32 else c;
|}.
#[local] Existing Instance MapDisk.

Definition map_stored (d : gmap wstring (option bytes)) (p : wstring) : option bytes :=
  match d !! p with Some (Some c) => Some c | _ => None end.
Definition map_directory (d : gmap wstring (option bytes)) (p : wstring) : Prop := d !! p = Some None.

#[local] Instance MapDisk_laws : NtDiskLaws (fun p => p) map_stored map_directory.
Proof.
  split; unfold map_stored, map_directory; cbn.
  - intros a b d _ _ N. destruct (d !! (a ++ 92 :: b)) as [[]|] eqn:E; [done | done |]. by rewrite lookup_insert_eq.
  - intros p q d. destruct (d !! p) eqn:E; [by left |]. destruct (decide (q = p)) as [->|Ne]; [by right |].
    rewrite lookup_insert_ne by done. by left.
  - done.
  - intros p q d D. destruct (d !! p) eqn:E; [done |]. rewrite lookup_insert_ne; [done |]. congruence.
  - intros p q d. destruct (d !! p) eqn:E; [done |]. destruct (decide (q = p)) as [->|Ne].
    + by rewrite lookup_insert_eq, E.
    + by rewrite lookup_insert_ne by done.
  - intros a b d _ _ _ N Nd. destruct (d !! (a ++ 92 :: b)) as [[]|] eqn:E; [done | done |].
    eexists. split; [done |]. by rewrite lookup_insert_eq.
  - intros p c d E. by destruct (d !! p) as [[]|].
  - intros p q d d' E Ne. destruct (d !! p); [done |]. injection E as <-. by rewrite lookup_insert_ne.
  - intros p q d d' E D. destruct (d !! p) eqn:Ep; [done |]. injection E as <-. rewrite lookup_insert_ne; [done |]. congruence.
  - intros p off b q d D. destruct (d !! p) as [[c|]|] eqn:Ep; [| done | done]. rewrite lookup_insert_ne; [done |]. congruence.
  - intros p c b d E. destruct (d !! p) as [[c'|]|]; [| done | done]. injection E as ->.
    by rewrite lookup_insert_eq, take_ge by lia.
  - intros p off b q d Ne. destruct (d !! p) as [[c'|]|]; [by rewrite lookup_insert_ne | done | done].
Qed.

(** the deletion of [C:\a\x.txt], which holds three bytes *)
Definition sample_info : FILE_NAME_INFORMATION :=
  mkNameInformation (bs "\Device\HarddiskVolume1\a\x.txt")
    (Some (mkUnicode [] 0, mkUnicode (bs "\a\") 6, mkUnicode (bs "x.txt") 10)).

Definition sample_deletion : operation :=
  mkOperation false IRP_MJ_SET_INFORMATION 0 (Some (mkFileObject (mkUnicode (bs "\a\x.txt") 16) false 0)) (Some sample_info) None
    (Some (bs "\Device\HarddiskVolume1")) (Some true) false true (Some (mkUnicode (bs "C:") 6)) (Some 0%nat)
    [1; 2; 3] (fun _ => true) true (Some 100) 4 0.

Definition log_disk : disk := {[ bs "\??\C:\logs" := None ]}.

Lemma deleted_file_kept_witness :
  exists d', CopyFileIfBeingDeleted enough sample_deletion (Some sample_info) true (mkUnicode (bs "\??\C:\logs") 34) log_disk = Ok d' /\
    map_stored d' (bs "\??\C:\logs\C\a\x.txt") = Some [1; 2; 3] /\
    map_directory d' (bs "\??\C:\logs\C") /\ map_directory d' (bs "\??\C:\logs\C\a").
Proof.
  destruct (deleted_file_kept (H := MapDisk) (fold := fun p => p) (stored := map_stored) (directory := map_directory) sample_deletion sample_info 67 [bs "a"] (bs "x.txt")
    [1; 2; 3] 6 6 10 (bs "\??\C:\logs") 34 log_disk) as (d' & E & S & K & _).
  - split; try reflexivity.
    + discriminate.
    + exists (mkUnicode [] 0). reflexivity.
    + lia.
    + constructor; [| constructor]. intros Q. apply list_elem_of_In in Q. vm_compute in Q. destruct Q as [Q|Q]; [discriminate | done].
    + split; [| discriminate]. intros Q. apply list_elem_of_In in Q. vm_compute in Q. intuition discriminate.
    + vm_compute. repeat split; discriminate.
  - vm_compute. discriminate.
  - vm_compute. reflexivity.
  - reflexivity.
  - intros [|[|k]]; reflexivity.
  - vm_compute. discriminate.
  - exists d'. split_and!; [exact E | exact S | exact (K 0%nat) | exact (K 1%nat)].
Defined.

(** a write that ends after another one has started, and the deletion *)
Definition sample_write : operation :=
  mkOperation false IRP_MJ_WRITE 0 (Some (mkFileObject (mkUnicode (bs "\$Mft") 10) false 0)) None None
    (Some (bs "\Device\HarddiskVolume1")) None false true (Some (mkUnicode (bs "C:") 6)) None
    [] (fun _ => true) true None 4 0.

Definition sample_file_steps : list file_step :=
  [Setup true true 22 (bs "C:\logs"); FileRequest 100;
   PreOperation 101 1 enough sample_write sample_time 0 0;
   PreOperation 102 2 enough sample_deletion sample_time 0 0;
   PostOperation 103 2 enough 0 0 false; FileTimer 104;
   PostOperation 105 1 enough 0 512 false].

Definition sample_driver : file_driver := mkFileDriver _ (mkManager [] 0) ∅ false (mkUnicode [] 0) log_disk.

Definition known_monitors : monitors :=
  mkMonitors (mkProcesses {[100 := bs "C:\a.exe"; 4 := bs "System"]} 0 0 0) None false ∅.

Lemma file_pipeline_witness :
  exists d' st', file_events d' = mkManager [] 106 /\
    file_run (file_body sample_environment (fun _ _ _ _ => Ok false)) 200 (sample_file_steps ++ replicate 2 (FileRequest 106))
      sample_driver (known_monitors, []) =
    Ok (d', (st',
      [FileEvent (bs "Delete") (bs "1/2/2010 3:4:5.6") 100 (bs "C:\a.exe") (bs "C:\a\x.txt");
       FileEvent (bs "Write") (bs "1/2/2010 3:4:5.6") 4 (bs "System") (bs "C:\$Mft")])).
Proof.
  destruct (file_pipeline sample_environment (fun _ _ _ _ => Ok false) 200 sample_file_steps 2 106 sample_driver known_monitors)
    as (d' & E & R).
  - reflexivity.
  - assert (O1 : operation_ok sample_write).
    { split_and!; [intros _ []; reflexivity |].
      intros f [= <-]. split_and!; [vm_compute; discriminate | vm_compute; reflexivity | intros v [= <-]; vm_compute; reflexivity]. }
    assert (O2 : operation_ok sample_deletion).
    { split_and!; [discriminate |].
      intros f [= <-]. split_and!; [vm_compute; discriminate | vm_compute; reflexivity | intros v [= <-]; vm_compute; reflexivity]. }
    repeat (apply list.Forall_cons; split; [first [exact I | reflexivity | split; [reflexivity | assumption]] |]). constructor.
  - vm_compute. repeat split; discriminate.
  - repeat (constructor; [split; [repeat constructor; vm_compute; intros; done | apply Nat.leb_le; vm_compute; reflexivity] |]). constructor.
  - apply Nat.leb_le. vm_compute. reflexivity.
  - lia.
  - eexists d', _. split; [exact E |]. rewrite R. vm_compute. reflexivity.
Defined.

(** the setting of the client is answered with an error *)
Example setup_status dir : (SetupMonitor true true 22 dir sample_driver).2 = false.
Proof. reflexivity. Qed.

(** the deletion of a file whose name cannot be normalized reads a pointer that
    was never set *)
Example unnormalized_deletion :
  find_path enough (mkOperation false IRP_MJ_SET_INFORMATION 0 (Some (mkFileObject (mkUnicode (bs "\a") 4) false 0)) None (Some sample_info)
    None (Some true) false true None None [] (fun _ => true) true None 4 0) sample_driver = Fault UninitRead.
Proof. reflexivity. Qed.
