(* ===== verification/ProcessDriver.v ===== *)
(** * The process driver (CaptureProcessMonitor.c)

    Windows calls the driver back when a process or a thread starts or ends;
    the driver finds the paths of the processes involved and queues an event,
    and each request of the process monitor takes one of them. *)
From Stdlib Require Import ZArith Lia.
From stdpp Require Import base gmap list strings numbers.
From S2P Require Import Prelude Element Monitor Options Analyzer ProcessManager DriverEvents SystemMonitors.

Local Open Scope Z_scope.

(** ** The processes of Windows at the time of a callback *)

Record windows := mkWindows {
  PsLookupProcessByProcessId : Z -> option Z;              (* of an id, the process *)
  ObOpenObjectByPointer : Z -> option Z;                   (* a handle of it *)
  ZwQueryImageFileName : Z -> option (wstring * Z);        (* of a handle, with the length it returns *)
  ZwQueryInheritedFrom : Z -> option Z;                    (* the id of the parent *)
}.

(** the allocations: the packet, and for each of two paths the path and the
    temporary buffer *)
Record pool := mkPool { packet : bool; path1 : bool; temp1 : bool; path2 : bool; temp2 : bool }.

(** ** The driver *)

(** the queue and its counter, which is changed outside the queue's lock; the handles that were opened and never closed,
    and the packets that were neither queued nor freed *)
Record process_driver := mkProcessDriver {
  lQueuedProcessEvents : list ProcessInfo;
  nQueuedProcessEvents : Z;
  open_handles : nat;
  lost_packets : nat;
}.

Definition with_handle (d : process_driver) : process_driver :=
  mkProcessDriver (lQueuedProcessEvents d) (nQueuedProcessEvents d) (S (open_handles d)) (lost_packets d).
Definition lose_packet (d : process_driver) : process_driver :=
  mkProcessDriver (lQueuedProcessEvents d) (nQueuedProcessEvents d) (open_handles d) (S (lost_packets d)).

Inductive image_status :=
  | ImageName (name : wstring)          (* STATUS_SUCCESS and the name that was copied *)
  | ImageOverflow (MaximumLength : Z)   (* STATUS_BUFFER_OVERFLOW and the length that is needed *)
  | ImageError.

Definition open_process (w : windows) (processId : Z) : option Z :=
  match PsLookupProcessByProcessId w processId with
  | Some eProcess => ObOpenObjectByPointer w eProcess
  | None => None
  end.

(** a process that cannot be opened leaves the handle uninitialised *)
Definition GetProcessImageName (w : windows) (temp : bool) (processId MaximumLength : Z) (d : process_driver)
  : result (image_status * process_driver) :=
  match open_process w processId with
  | None => Fault UninitRead
  | Some hProcess =>
    let d := with_handle d in
    match ZwQueryImageFileName w hProcess with
    | None => Ok (ImageError, d)
    | Some (imageName, returnedLength) =>
      let bufferLength := u32 (returnedLength - 8) in
      if MaximumLength <? bufferLength then Ok (ImageOverflow (u16 bufferLength), d)
      else if negb temp then Ok (ImageError, d)
      else Ok (ImageName (take (Z.to_nat (MaximumLength / 2)) imageName), d)
    end
  end.

(** a path of an event, 1024 bytes of it with the terminator *)
Definition copy_path (w : windows) (path temp : bool) (processId : Z) (d : process_driver)
  : result (wstring * process_driver) :=
  r ← GetProcessImageName w temp processId 0 d;
  match r.1 with
  | ImageOverflow MaximumLength =>
    if path then
      r ← GetProcessImageName w temp processId MaximumLength r.2;
      match r.1 with
      | ImageName name => Ok (take 511 name, r.2)
      | _ => Ok ([], r.2)
      end
    else Ok ([], r.2)
  | _ => Ok ([], r.2)
  end.

(** The insertion is interlocked, the increment of the counter is not: [seen] is
    the value it loads, which another thread may have changed by the time it
    stores. *)
Definition queue_event (seen : Z) (e : ProcessInfo) (d : process_driver) : process_driver :=
  mkProcessDriver (lQueuedProcessEvents d ++ [e]) (u32 (seen + 1)) (open_handles d) (lost_packets d).

Definition BOOLEAN_of (b : bool) : Z := if b then 1 else 0.

Definition ProcessCallback (w : windows) (m : pool) (time : TIME_FIELDS) (hParentId hProcessId : Z) (bCreate : bool)
    (seen : Z) (d : process_driver) : result process_driver :=
  if negb (packet m) then Ok d
  else
    r ← copy_path w (path1 m) (temp1 m) hProcessId d;
    let '(processPath, d) := r in
    r ← copy_path w (path2 m) (temp2 m) hParentId d;
    let '(parentProcessPath, d) := r in
    Ok (queue_event seen (mkProcessInfo time hParentId hParentId hProcessId 0 (BOOLEAN_of bCreate) processPath parentProcessPath []) d).

(** [hOriginId] is the current process *)
Definition ThreadCallback (w : windows) (m : pool) (time : TIME_FIELDS) (hOriginId hProcessId hThreadId : Z) (bCreate : bool)
    (seen : Z) (d : process_driver) : result process_driver :=
  if negb (packet m) then Ok d
  else match open_process w hProcessId with
  | None => Ok (lose_packet d)
  | Some hProcess =>
    let d := with_handle d in
    match ZwQueryInheritedFrom w hProcess with
    | None => Ok (lose_packet d)
    | Some hParentId =>
      r ← copy_path w (path1 m) (temp1 m) hProcessId d;
      let '(processPath, d) := r in
      r ← copy_path w (path2 m) (temp2 m) hOriginId d;
      let '(originProcessPath, d) := r in
      Ok (queue_event seen (mkProcessInfo time hParentId hOriginId hProcessId hThreadId (BOOLEAN_of bCreate) processPath [] originProcessPath) d)
    end
  end.

Definition sizeof_PROCESS_EVENT : Z := 6192.

(** IOCTL_CAPTURE_GET_PROCINFO: at most one event; the counter is decremented
    as it is incremented *)
Definition GetProcInfo (OutputBufferLength seen : Z) (d : process_driver) : process_driver * option ProcessInfo :=
  if sizeof_PROCESS_EVENT <=? OutputBufferLength then
    match lQueuedProcessEvents d with
    | e :: queue => (mkProcessDriver queue (u32 (seen - 1)) (open_handles d) (lost_packets d), Some e)
    | [] => (d, None)
    end
  else (d, None).

(** ** The driver and the process monitor *)

Inductive process_step :=
  | ProcessNotify (w : windows) (m : pool) (time : TIME_FIELDS) (parent pid : Z) (create : bool) (seen : Z)
  | ThreadNotify (w : windows) (m : pool) (time : TIME_FIELDS) (current pid tid : Z) (create : bool) (seen : Z)
  | ProcessRequest (seen : Z).

Definition PROCESS_EVENTS_BUFFER_SIZE : Z := 65536.

Section Pipeline.
Context `{Processes} (allowed : kind -> wstring -> wstring -> wstring -> result bool).

(** a turn of ProcessMonitor::run is a request and the walk over what it
    returned *)
Definition process_do (x : process_step) (d : process_driver) (st : monitors)
  : result (process_driver * monitors * list system_event) :=
  match x with
  | ProcessNotify w m time parent pid create seen =>
    d ← ProcessCallback w m time parent pid create seen d; Ok (d, st, [])
  | ThreadNotify w m time current pid tid create seen =>
    d ← ThreadCallback w m time current pid tid create seen d; Ok (d, st, [])
  | ProcessRequest seen =>
    match GetProcInfo PROCESS_EVENTS_BUFFER_SIZE seen d with
    | (d, Some e) => r ← process_record allowed e st; Ok (d, with_tempP None r.1, r.2)
    | (d, None) => Ok (d, st, [])
    end
  end.

Fixpoint process_run (xs : list process_step) (d : process_driver) (st : monitors)
  : result (process_driver * monitors * list system_event) :=
  match xs with
  | [] => Ok (d, st, [])
  | x :: xs' =>
    r ← process_do x d st;
    let '(d, st, out) := r in
    r ← process_run xs' d st;
    let '(d, st, out') := r in Ok (d, st, out ++ out')
  end.
End Pipeline.

(** ** What the monitor should report *)

(** lengths of UNICODE_STRINGs, with or without a terminator *)
Definition windows_ok (w : windows) : Prop :=
  forall h name len, ZwQueryImageFileName w h = Some (name, len) ->
    8 + 2 * Z.of_nat (length name) <= len < 8 + 65536.

Definition image_path (w : windows) (pid : Z) : wstring :=
  match open_process w pid with
  | Some h => match ZwQueryImageFileName w h with Some (name, _) => take 511 name | None => [] end
  | None => []
  end.

Definition parent_of (w : windows) (pid : Z) : option Z :=
  match open_process w pid with Some h => ZwQueryInheritedFrom w h | None => None end.

Section Promise.
Context `{Processes} (allowed : kind -> wstring -> wstring -> wstring -> result bool).

(** the report of a callback, made on the spot *)
Definition direct (x : process_step) (st : monitors) : result (monitors * list system_event) :=
  match x with
  | ProcessNotify w _ time parent pid create _ =>
    ProcessMonitor_onProcessEvent allowed (if create then EventProcess_Create else EventProcess_Terminate)
      pid (image_path w pid) parent (image_path w parent) (timefieldToString time) st
  | ThreadNotify w _ time current pid _ create _ =>
    match parent_of w pid with
    | Some parent =>
      if create && negb (current =? pid) && negb (current =? parent) then
        ProcessMonitor_onProcessEvent allowed EventThread_Inject
          pid (image_path w pid) current (image_path w current) (timefieldToString time) st
      else Ok (st, [])
    | None => Ok (st, [])
    end
  | ProcessRequest _ => Ok (st, [])
  end.

Fixpoint direct_all (xs : list process_step) (st : monitors) : result (monitors * list system_event) :=
  match xs with
  | [] => Ok (st, [])
  | x :: xs' => r ← direct x st; s ← direct_all xs' r.1; Ok (s.1, r.2 ++ s.2)
  end.

Definition plenty_pool : pool := mkPool true true true true true.

Definition process_step_ok (x : process_step) : Prop :=
  match x with
  | ProcessNotify w m _ parent pid _ _ =>
    m = plenty_pool /\ windows_ok w /\ is_Some (open_process w pid) /\ is_Some (open_process w parent)
  | ThreadNotify w m _ current _ tid _ _ =>
    m = plenty_pool /\ windows_ok w /\ is_Some (open_process w current) /\ tid <> 0
  | ProcessRequest _ => True
  end.

(** the event a callback queues *)
Definition queued_by (x : process_step) : list ProcessInfo :=
  match x with
  | ProcessNotify w _ time parent pid create _ =>
    [mkProcessInfo time parent parent pid 0 (BOOLEAN_of create) (image_path w pid) (image_path w parent) []]
  | ThreadNotify w _ time current pid tid create _ =>
    match parent_of w pid with
    | Some parent => [mkProcessInfo time parent current pid tid (BOOLEAN_of create) (image_path w pid) [] (image_path w current)]
    | None => []
    end
  | ProcessRequest _ => []
  end.

(** The handles a callback opens, none of which is closed: one for each query of
    a process, two queries for a path that is not empty. A callback of a thread
    that ends early does not free its packet. *)
Definition path_handles (w : windows) (pid : Z) : nat :=
  match open_process w pid with
  | Some h => match ZwQueryImageFileName w h with Some (_, len) => if 8 <? len then 2 else 1 | None => 1 end
  | None => 0
  end.

Definition left_by (x : process_step) : nat * nat :=
  match x with
  | ProcessNotify w _ _ parent pid _ _ => (path_handles w pid + path_handles w parent, 0)%nat
  | ThreadNotify w _ _ current pid _ _ _ =>
    match open_process w pid with
    | None => (0, 1)%nat
    | Some _ => match parent_of w pid with
                | Some _ => (1 + path_handles w pid + path_handles w current, 0)%nat
                | None => (1, 1)%nat
                end
    end
  | ProcessRequest _ => (0, 0)%nat
  end.

Definition total (xs : list nat) : nat := foldr Nat.add 0%nat xs.

(** each event on its own request *)
Fixpoint each (es : list ProcessInfo) (st : monitors) : result (monitors * list system_event) :=
  match es with
  | [] => Ok (st, [])
  | e :: es' => r ← process_record allowed e st; s ← each es' (with_tempP None r.1); Ok (s.1, r.2 ++ s.2)
  end.

Definition add_handles (h : nat) (d : process_driver) : process_driver :=
  mkProcessDriver (lQueuedProcessEvents d) (nQueuedProcessEvents d) (h + open_handles d) (lost_packets d).

Lemma copy_path_spec w pid d :
  windows_ok w -> is_Some (open_process w pid) ->
  copy_path w true true pid d = Ok (image_path w pid, add_handles (path_handles w pid) d).
Proof.
  intros W [h O]. unfold copy_path, GetProcessImageName, image_path, path_handles. rewrite O. cbn [negb].
  destruct (ZwQueryImageFileName w h) as [[name len]|] eqn:Q; cbn [mbind result_bind fst snd]; [| done].
  pose proof (W h name len Q) as B.
  assert (U : u32 (len - 8) = len - 8) by (unfold u32; apply Z.mod_small; lia). rewrite U.
  assert (E : (8 <? len) = (0 <? len - 8)) by (destruct (Z.ltb_spec 8 len), (Z.ltb_spec 0 (len - 8)); lia). rewrite E.
  destruct (Z.ltb_spec 0 (len - 8)) as [L|L]; cbn [mbind result_bind fst snd].
  - assert (U' : u16 (len - 8) = len - 8) by (unfold u16; apply Z.mod_small; lia). rewrite U', Z.ltb_irrefl.
    cbn [mbind result_bind fst snd]. rewrite (take_ge name (Z.to_nat _)); [done |]. Z.div_mod_to_equations. lia.
  - destruct name as [|c name]; [done | cbn [length] in B; lia].
Qed.

Definition is_callback (x : process_step) : bool := if x is ProcessRequest _ then false else true.

(** a callback queues its event and leaves handles open, or its packet is lost *)
Lemma callback_step x q c h l st :
  process_step_ok x -> is_callback x = true ->
  exists c', process_do allowed x (mkProcessDriver q c h l) st =
    Ok (mkProcessDriver (q ++ queued_by x) c' (h + (left_by x).1) (l + (left_by x).2), st, []).
Proof.
  intros K C. destruct x as [w m time parent pid create seen|w m time current pid tid create seen|]; [| | done].
  - destruct K as (-> & W & Op & Oq). cbn [process_do queued_by left_by fst snd]. unfold ProcessCallback. cbn [packet path1 temp1 path2 temp2 plenty_pool negb].
    rewrite copy_path_spec by done. cbn [mbind result_bind]. rewrite copy_path_spec by done. cbn [mbind result_bind].
    exists (u32 (seen + 1)). unfold queue_event. cbn. do 3 f_equal. f_equal; first [reflexivity | clear; lia].
  - destruct K as (-> & W & Oc & T). cbn [process_do queued_by left_by]. unfold ThreadCallback, parent_of.
    cbn [packet path1 temp1 path2 temp2 plenty_pool negb].
    destruct (open_process w pid) as [hp|] eqn:O; cbn [fst snd].
    2:{ exists c. rewrite app_nil_r. cbn. unfold lose_packet. cbn. do 3 f_equal. f_equal; first [reflexivity | clear; lia]. }
    destruct (ZwQueryInheritedFrom w hp) as [parent|]; cbn [fst snd].
    2:{ exists c. rewrite app_nil_r. cbn. unfold lose_packet. cbn. do 3 f_equal. f_equal; first [reflexivity | clear; lia]. }
    rewrite copy_path_spec by (done || by rewrite O). cbn [mbind result_bind]. rewrite copy_path_spec by done. cbn [mbind result_bind].
    exists (u32 (seen + 1)). unfold queue_event. cbn. do 3 f_equal. f_equal; first [reflexivity | clear; lia].
Qed.

(** an event on its own is not taken for a repeated one, and its report is the
    one of its callback *)
Lemma report_direct x st :
  process_step_ok x -> tempP st = None -> each (queued_by x) st = direct x st.
Proof.
  intros K N.
  assert (R : forall e, each [e] st =
    let '(type, init, path) := classify e in
    if negb (type =? 0) then
      ProcessMonitor_onProcessEvent allowed type (ProcessId e) (p_processPath e) init path (timefieldToString (p_time e)) st
    else Ok (st, [])).
  { intros e. cbn [each]. unfold process_record. rewrite N. destruct (classify e) as [[type init] path].
    destruct (negb (type =? 0)); cbn [mbind result_bind fst snd].
    - unfold ProcessMonitor_onProcessEvent. destruct (ProcessManager_onProcessEvent _ _ _ _); [| done].
      cbn [mbind result_bind]. destruct (convertFileObjectPathToDOSPath path); [| done].
      cbn [mbind result_bind]. destruct (convertFileObjectPathToDOSPath (p_processPath e)); [| done].
      cbn [mbind result_bind]. destruct (allowed _ _ _ _) as [verdict_|]; [| done].
      cbn [mbind result_bind fst snd]. rewrite app_nil_r. destruct st. cbn in N. by subst.
    - destruct st. cbn in N. by subst. }
  destruct x as [w m time parent pid create seen|w m time current pid tid create seen|]; [| | done].
  - cbn [queued_by direct]. rewrite R. by destruct create.
  - cbn [queued_by direct]. destruct (parent_of w pid) as [parent|]; [| done]. rewrite R.
    destruct K as (_ & _ & _ & T). unfold classify. cbn [ThreadId bCreate OriginId ProcessId ParentId p_originProcessPath p_processPath p_time].
    rewrite (proj2 (Z.eqb_neq tid 0)) by done. destruct create; [| done]. cbn [BOOLEAN_of negb andb].
    by destruct (current =? pid), (current =? parent).
Qed.

Lemma each_app a b st :
  each (a ++ b) st = (r ← each a st; s ← each b r.1; Ok (s.1, r.2 ++ s.2)).
Proof.
  revert st. induction a as [|e a IH]; intros st; cbn [app each].
  { cbn [mbind result_bind fst snd]. by destruct (each b st) as [[]|]. }
  destruct (process_record allowed e st) as [[st1 o1]|]; [| done]. cbn [mbind result_bind fst snd]. rewrite IH.
  destruct (each a (with_tempP None st1)) as [[st2 o2]|]; [| done]. cbn [mbind result_bind fst snd].
  destruct (each b st2) as [[st3 o3]|]; [| done]. cbn [mbind result_bind fst snd]. by rewrite app_assoc.
Qed.

Lemma each_tempP es st r : each es st = Ok r -> tempP st = None -> tempP r.1 = None.
Proof.
  revert st r. induction es as [|e es IH]; intros st r E N; cbn [each] in E; [by injection E as <- |].
  destruct (process_record allowed e st) as [[st1 o1]|]; [| done]. cbn [mbind result_bind fst snd] in E.
  destruct (each es (with_tempP None st1)) as [s|] eqn:Es; [| done]. injection E as <-. exact (IH _ _ Es eq_refl).
Qed.

Lemma direct_each xs st :
  Forall process_step_ok xs -> tempP st = None -> direct_all xs st = each (xs ≫= queued_by) st.
Proof.
  intros F. revert st. induction F as [|x xs K F IH]; intros st N; [done |].
  cbn [direct_all mbind list_bind]. rewrite each_app, (report_direct x st K N).
  destruct (direct x st) as [r|] eqn:D; [| done]. cbn [mbind result_bind]. rewrite IH; [done |].
  rewrite <- (report_direct x st K N) in D. exact (each_tempP _ _ _ D N).
Qed.

(** one request *)
Lemma request_step seen q c h l st :
  exists c', process_do allowed (ProcessRequest seen) (mkProcessDriver q c h l) st =
  (r ← each (take 1 q) st; Ok (mkProcessDriver (drop 1 q) c' h l, r.1, r.2)).
Proof.
  destruct q as [|e q]; [by exists c |]. eexists. cbn [process_do]. unfold GetProcInfo. cbn [lQueuedProcessEvents nQueuedProcessEvents open_handles lost_packets].
  change (sizeof_PROCESS_EVENT <=? PROCESS_EVENTS_BUFFER_SIZE) with true. cbv iota.
  change (take 1 (e :: q)) with [e]. change (drop 1 (e :: q)) with q. cbn [each].
  destruct (process_record allowed e st) as [[st1 o1]|]; [| done]. cbn [mbind result_bind fst snd]. by rewrite app_nil_r.
Qed.

Lemma process_run_spec xs : forall q c h l st,
  Forall process_step_ok xs ->
  exists handled queued c',
    q ++ (xs ≫= queued_by) = handled ++ queued /\
    process_run allowed xs (mkProcessDriver q c h l) st =
      (r ← each handled st;
       Ok (mkProcessDriver queued c' (h + total (fst ∘ left_by <$> xs)) (l + total (snd ∘ left_by <$> xs)), r.1, r.2)).
Proof.
  induction xs as [|x xs IH]; intros q c h l st F.
  { exists [], q, c. cbn. by rewrite app_nil_r, !Nat.add_0_r. }
  apply list.Forall_cons in F as [K F]. cbn [process_run mbind list_bind fmap list_fmap total foldr]. fold (total (fst ∘ left_by <$> xs)). fold (total (snd ∘ left_by <$> xs)).
  rewrite !Nat.add_assoc. unfold compose at 1 3. destruct (is_callback x) eqn:C.
  - destruct (callback_step x q c h l st K C) as (c1 & ->). cbn [mbind result_bind].
    destruct (IH (q ++ queued_by x) c1 (h + (left_by x).1)%nat (l + (left_by x).2)%nat st F) as (handled & queued & c2 & Q & ->).
    exists handled, queued, c2. split; [by rewrite <- Q, app_assoc |]. by destruct (each handled st).
  - destruct x as [| |seen]; [done | done |]. cbn [left_by fst snd queued_by app]. rewrite !Nat.add_0_r.
    destruct (request_step seen q c h l st) as [c1 ->].
    destruct (each (take 1 q) st) as [[st1 o1]|] eqn:E.
    + cbn [mbind result_bind fst snd]. destruct (IH (drop 1 q) c1 h l st1 F) as (handled & queued & c2 & Q & ->).
      exists (take 1 q ++ handled), queued, c2. split.
      * by rewrite <- app_assoc, <- Q, app_assoc, take_drop.
      * rewrite each_app, E. cbn [mbind result_bind fst snd]. by destruct (each handled st1) as [[]|].
    + exists (take 1 q), (drop 1 q ++ (xs ≫= queued_by)), 0. split; [by rewrite app_assoc, take_drop | by rewrite E].
Qed.

Lemma process_requests seens : forall q c h l st, (length q <= length seens)%nat ->
  exists c', process_run allowed (ProcessRequest <$> seens) (mkProcessDriver q c h l) st =
  (r ← each q st; Ok (mkProcessDriver [] c' h l, r.1, r.2)).
Proof.
  induction seens as [|seen seens IH]; intros q c h l st L; [destruct q; [by exists c | cbn in L; lia] |].
  rewrite fmap_cons. cbn [process_run]. destruct (request_step seen q c h l st) as [c1 ->]. destruct q as [|e q].
  - change (take 1 ([] : list ProcessInfo)) with ([] : list ProcessInfo). change (drop 1 ([] : list ProcessInfo)) with ([] : list ProcessInfo).
    cbn [each mbind result_bind fst snd]. destruct (IH [] c1 h l st) as [c2 ->]; [cbn; lia |]. by exists c2.
  - change (take 1 (e :: q)) with [e]. change (drop 1 (e :: q)) with q. cbn [each]. destruct (process_record allowed e st) as [[st1 o1]|]; [| by exists c].
    cbn [mbind result_bind fst snd]. destruct (IH q c1 h l (with_tempP None st1)) as [c2 ->]; [cbn in L; lia |]. exists c2.
    destruct (each q (with_tempP None st1)) as [[st2 o2]|]; [| done]. cbn [mbind result_bind fst snd]. by rewrite app_nil_r.
Qed.

Lemma process_run_app xs ys d st :
  process_run allowed (xs ++ ys) d st =
  (r ← process_run allowed xs d st; s ← process_run allowed ys r.1.1 r.1.2; Ok (s.1.1, s.1.2, r.2 ++ s.2)).
Proof.
  revert d st. induction xs as [|x xs IH]; intros d st; cbn [app process_run].
  { cbn [mbind result_bind fst snd]. by destruct (process_run allowed ys d st) as [[[]]|]. }
  destruct (process_do allowed x d st) as [[[d1 st1] o1]|]; [| done]. cbn [mbind result_bind]. rewrite IH.
  destruct (process_run allowed xs d1 st1) as [[[d2 st2] o2]|]; [| done]. cbn [mbind result_bind fst snd].
  destruct (process_run allowed ys d2 st2) as [[[d3 st3] o3]|]; [| done]. cbn [mbind result_bind fst snd]. by rewrite app_assoc.
Qed.

Lemma queued_length xs : (length (xs ≫= queued_by) <= length xs)%nat.
Proof.
  induction xs as [|x xs IH]; [done |]. cbn [mbind list_bind]. rewrite length_app. cbn [length].
  assert (length (queued_by x) <= 1)%nat; [| lia]. destruct x; cbn; try lia. destruct (parent_of _ _); cbn; lia.
Qed.
End Promise.

(** C36: The process monitor from the callback to the report: for any sequence of
    callbacks and requests, followed by enough requests, the reports are those
    made by handling every callback on the spot, in order: the start or end of
    a process by its parent, and a thread that starts in a process by another
    process than itself and its parent, which is an injection. The filter for
    repeated events never drops one, since a request carries a single event.
    None of this depends on the counter of the queue, which the threads change
    without a lock and which may end with any value. Exactly the handles of [left_by] are
    left open, and the packets of threads whose process or its parent cannot be
    found are never freed. Assumed: every allocation succeeds; the processes a
    callback looks up can be opened (the process and its parent at a start or an end, the
    current process for a thread); thread ids are not 0; image names keep to their lengths. *)
Theorem process_pipeline `{Processes} allowed xs seens st :
  Forall process_step_ok xs -> tempP st = None -> (length xs <= length seens)%nat ->
  exists counter,
    process_run allowed (xs ++ (ProcessRequest <$> seens)) (mkProcessDriver [] 0 0 0) st =
      (r ← direct_all allowed xs st;
       Ok (mkProcessDriver [] counter (total (fst ∘ left_by <$> xs)) (total (snd ∘ left_by <$> xs)), r.1, r.2)).
Proof.
  intros F N L. destruct (process_run_spec allowed xs [] 0 0 0 st F) as (handled & queued & c & Q & R).
  rewrite process_run_app, R, direct_each by done. pose proof (queued_length xs) as Lq. cbn [app] in Q. rewrite Q in *.
  rewrite each_app. destruct (each allowed handled st) as [[st1 o1]|]; [| by exists 0]. cbn [mbind result_bind fst snd].
  destruct (process_requests allowed seens queued c (total (fst ∘ left_by <$> xs)) (total (snd ∘ left_by <$> xs)) st1) as [c2 E].
  { rewrite length_app in Lq. lia. }
  exists c2. change (0 + total (fst ∘ left_by <$> xs))%nat with (total (fst ∘ left_by <$> xs)).
  change (0 + total (snd ∘ left_by <$> xs))%nat with (total (snd ∘ left_by <$> xs)). rewrite E.
  by destruct (each allowed queued st1) as [[]|].
Qed.

(** ** A session to run *)

#[local] Existing Instance Machine.

Definition volume (s : string) : wstring := bs "\Device\HarddiskVolume1\" ++ bs s.

(** three processes; 8 is the parent of 100 *)
Definition some_windows : windows :=
  let images := list_to_map (M := gmap Z wstring) [(8, volume "b.exe"); (50, volume "c.exe"); (100, volume "a.exe")] in
  mkWindows (fun pid => if images !! pid then Some pid else None) Some
    (fun h => (fun name => (name, 10 + 2 * Z.of_nat (length name))) <$> images !! h)
    (fun h => if h =? 100 then Some 8 else Some 4).

(** 100 is created by 8 with its first thread, 50 starts another one in it *)
Definition sample_callbacks : list process_step :=
  [ProcessNotify some_windows plenty_pool sample_time 8 100 true 0;
   ThreadNotify some_windows plenty_pool sample_time 8 100 101 true 1; ProcessRequest 2;
   ThreadNotify some_windows plenty_pool sample_time 50 100 102 true 1;
   ThreadNotify some_windows plenty_pool sample_time 50 7 103 true 2].

Lemma some_windows_ok : windows_ok some_windows.
Proof.
  intros h name len. cbn. rewrite !lookup_insert, lookup_empty. repeat case_decide; intros [= <- <-]; vm_compute; split; congruence.
Qed.

Lemma process_pipeline_witness :
  exists counter,
    process_run (fun _ _ _ _ => Ok false) (sample_callbacks ++ (ProcessRequest <$> [2; 1; 0; 0; 0])) (mkProcessDriver [] 0 0 0) sample_monitors =
    Ok (mkProcessDriver [] counter 14 1, with_manager (mkProcesses {[100 := bs "C:\a.exe"]} 0 0 0) sample_monitors,
        [ProcessEvent EventProcess_Create (bs "1/2/2010 3:4:5.6") 8 (bs "C:\b.exe") 100 (bs "C:\a.exe");
         ProcessEvent EventThread_Inject (bs "1/2/2010 3:4:5.6") 50 (bs "C:\c.exe") 100 (bs "C:\a.exe")]).
Proof.
  destruct (process_pipeline (fun _ _ _ _ => Ok false) sample_callbacks [2; 1; 0; 0; 0] sample_monitors) as (c & E).
  - repeat (apply list.Forall_cons; split;
      [first [exact I | split_and!; [reflexivity | exact some_windows_ok | by eexists | first [by eexists | discriminate]]] |]). constructor.
  - reflexivity.
  - cbn. lia.
  - exists c. rewrite E. vm_compute. reflexivity.
Defined.

(** two callbacks at the same time count as one *)
Example counter_race :
  (fun r => (length (lQueuedProcessEvents r.1.1), nQueuedProcessEvents r.1.1)) <$>
    process_run (fun _ _ _ _ => Ok false)
      [ProcessNotify some_windows plenty_pool sample_time 8 100 true 0; ThreadNotify some_windows plenty_pool sample_time 8 100 101 true 0]
      (mkProcessDriver [] 0 0 0) sample_monitors = Ok (2%nat, 1).
Proof. vm_compute. reflexivity. Qed.

(** the callback of a process whose parent is gone uses a handle that was never
    set *)
Example orphan_handle :
  ProcessCallback some_windows plenty_pool sample_time 6 100 false 0 (mkProcessDriver [] 0 0 0) = Fault UninitRead.
Proof. vm_compute. reflexivity. Qed.

(** of a path of 600 characters the event keeps 511 *)
Example path_cut :
  let w := mkWindows Some Some (fun _ => Some (replicate 600 97, 1208)) Some in
  (fun r => length r.1) <$> copy_path w true true 8 (mkProcessDriver [] 0 0 0) = Ok 511%nat.
Proof. vm_compute. reflexivity. Qed.
